(* ===== verification/_CoqProject ===== *)
-Q . S2P
Prelude.v
Json.v
Decimals.v
Domain.v
Policy.v
Models.v
Store.v
PolicyAdmin.v
Delivery.v
Network.v
Schemas.v
Adapters.v
Integrations.v
Webhooks.v
Notifications.v
Approvals.v
ToolExec.v
ToolSafety.v
Graph.v
Workspaces.v
Conversations.v
Tickets.v
IntegrationTools.v
AgentRuns.v
AgentSafety.v
AgentOutcomes.v
Chunking.v
Knowledge.v
KnowledgeSafety.v
AgentContext.v
AgentFrame.v
Scoring.v
Evaluations.v
EvaluationSafety.v
EvaluationResults.v
Ingress.v
Channels.v
IngressSafety.v
EventProcessing.v
ChannelSafety.v
ChatHistory.v
ChannelExamples.v
IntegrationSafety.v
ProviderSafety.v
ToolCatalog.v
Http.v
ApiDesk.v
ApiAgents.v
ApiServices.v
ApiSafety.v
DeskSafety.v
ApiAnswers.v
