(* ===== verification/Prelude.v ===== *)
(** * SupportPilot: a verification library

    SupportPilot is a multi-tenant customer-support back end (Django, [src/backend/]).
    A customer's message arrives over a channel, becomes a conversation and a run of an
    agent; the agent's graph alternates between a language model and tools; a tool call
    passes a policy gate and perhaps a human approval before its handler acts on the
    tables or on a provider; replies, notifications and webhooks leave through durable
    deliveries; a knowledge base feeds the agent, and an evaluation harness measures it.
    This library is a shallow embedding of those services and of their theorems.

    ** Conventions

    - A service is a computation [M World exn]: a total function from the world before
      to an exception or a value and the world after ([service] in [Models] and [Store]).
      [raise], [catch], [attempt], [atomic], [raise_if] and [for_each] are the Python
      statements they are named after; [atomic] rolls back when an exception leaves it.
    - [World] ([Store]) is one finite map per table, the clock in microseconds, the next
      identifier, the audit trail and the tasks handed to the broker.  Keys are numbers
      and stand for the UUIDs; [str(pk)] is [pretty].  The clock does not move inside one
      operation.  [transaction.on_commit] appends its task inside the transaction.
    - Unique and check constraints and column widths are tests of the write that raise
      [IntegrityError] or [DataError].  A row keeps the columns a modelled operation
      reads or writes.
    - A transaction with its row locks runs uninterrupted.  Between transactions
      anything may happen: theorems on several workers quantify over the world each
      starts from, or let providers, handlers and storage move the world along the
      relation under proof.
    - An object that a caller loaded earlier is an argument beside the identifier of its
      row and may be out of date.  Where a theorem needs some of it to be current, its
      statement says which part, and an example shows what the code does otherwise
      ([stale_draft_binds], [stale_draft_adds_rule], [stale_rotation_repeats_version],
      [stale_call_undoes_disabling], [stale_removal_leaves_no_owner]).
    - Python's [int] is [Z], [float] a binary64 [spec_float], [Decimal] an exact rational,
      rounded where Python or the column rounds it; the cost of a run, which the code
      keeps as a float and reads as [Decimal(str(cost))], is that decimal ([Decimals]).
      Strings are ASCII.
    - A theorem whose hypotheses need an example has one at the end of its file (or in
      [ChannelExamples], [IntegrationSafety.ToolShop], [ProviderSafety.ProviderExamples]).

    ** Files and the code they model

    Foundations: [Prelude] (the monad, weakest preconditions [wp], the closure
    [included R m] "[m] moves every world along [R]", and their tactics [wp_step] and
    [included_steps]); [Json] (JSON values and [common/redaction.py]); [Decimals] (floats
    and decimals of Python); [Domain] ([config/settings.py] as a record, shared
    enumerations); [Models] (rows, statuses and exceptions of the [models.py] and
    [errors.py] files); [Store] (tables, primitives, constraints, [audit/services.py]).

    Decisions on actions: [Policy] ([policies/risk.py], [predicates.py], [defaults.py],
    [evaluator.py]); [PolicyAdmin] ([policies/services.py]); [Approvals]
    ([approvals/services.py]); [ToolExec] and [ToolSafety] ([tools/execution.py],
    [tools/selectors.py]); [ToolCatalog] ([tools/services.py], the contracts of
    [tools/contracts.py]).

    Tools and providers: [Schemas] (pydantic models, [integrations/schemas.py]);
    [Adapters] ([integrations/providers/], [integrations/security.py]); [Integrations]
    ([integrations/services.py], [selectors.py]); [IntegrationTools]
    ([integrations/tools.py], [tools/demo_tools.py], [tools/registry.py]);
    [IntegrationSafety] and [ProviderSafety] (their theorems).

    Deliveries: [Delivery] ([notifications/services.py], [backoff.py], [recovery.py]);
    [Network] ([webhooks/security.py], [signing.py], [transport.py],
    [integrations/crypto.py]); [Webhooks] ([webhooks/services.py]); [Notifications]
    ([notifications/notification_delivery.py]).

    Desk: [Workspaces], [Conversations] (with [customers/services.py]), [Tickets] (with
    the human handoffs).

    Agents: [Graph] ([agents/runtime/]); [AgentRuns] ([agents/services.py],
    [recovery.py], [tool_catalog.py]); [AgentContext] ([agents/context.py], [rag.py],
    [llm_context.py], [orchestration.py]); [AgentSafety], [AgentOutcomes], [AgentFrame]
    (theorems).

    Knowledge: [Chunking] and [Knowledge] ([knowledge/]); [KnowledgeSafety].

    Evaluations: [Scoring] and [Evaluations] ([evaluations/]); [EvaluationSafety],
    [EvaluationResults].

    Channels: [Ingress] and [Channels] ([channel_ingress/]); [IngressSafety],
    [EventProcessing], [ChannelSafety], [ChatHistory], [ChannelExamples].

    The API: [Http] ([common/exceptions.py], [common/query_params.py],
    [WorkspaceScopedMixin], the [permissions.py] files); [ApiDesk] (views and selectors
    of [workspaces/], [customers/], [conversations/], [tickets/]); [ApiAgents] (those of
    [agents/], [tools/], [policies/], [approvals/]); [ApiServices] (those of [webhooks/],
    [integrations/], [knowledge/], [evaluations/] and the workspace views of
    [channel_ingress/]); [ApiSafety], [DeskSafety], [ApiAnswers] (theorems).

    ** How the parts meet

    - [Delivery.ChannelHandler] is what a channel promises to the delivery worker; the
      webhook, notification and reply handlers are its instances.
    - [ToolSafety.registry_frame] and [AgentSafety.handlers_allowed] are what the
      execution engine and the agents assume of a registry of tools;
      [IntegrationSafety.shipped_registry_allowed] shows that the registered tools keep
      to both, and to the relations of the evaluations, channels and knowledge base.
    - [AgentSafety.Core], [AgentFrame.Within] and [ChannelSafety.Beside] are the classes
      of relations a service stays in when it leaves a group of tables alone: every
      component's invariant is proved once for the services that do not touch it.
    - A view is a service that answers with a [Response]; [Http.scoped] puts the tenant
      lookup and the permission classes before it, [Http.handle] turns its exceptions
      into the error envelope.  [DeskSafety.desk_frame] is what a view of the desk may do
      to the world, proved for each service it calls.
    - The graph is given its provider, tool boundary, step recorder and cancellation
      check as computations ([Graph.RunContext]); [AgentRuns] supplies them.

    ** What the theorems show

    - Authority: a handler runs only for an execution the policy allowed or an approver
      granted, at most once per resume, within the run's budget
      ([handler_needs_authorisation], [resume_at_most_once], [tool_budget_ceiling]); the
      policy takes the most severe applicable effect and fails closed; decisions on
      approvals follow an abstract protocol ([decide_approval_spec]).
    - Tenancy: tools, conversations and requests to the desk keep to their workspace,
      which has one owner ([tools_stay_in_workspace], [conversations_keep_tenancy],
      [desk_stays_in_workspace], [one_owner_per_workspace]); a caller from outside of a
      workspace learns and changes nothing, readers see objects of their workspace only,
      and a viewer changes nothing ([outsiders_learn_nothing],
      [readers_see_their_workspace], [viewers_change_nothing]).
    - The catalogue: the table of tools mirrors the registry, the tools of a published
      version are fixed, and without a policy of its own a workspace runs nothing that
      writes outside without an approval, small refunds apart ([sync_mirrors_registry],
      [published_tools_frozen], [shipped_writes_need_approval]).
    - Life cycles, over any sequence of operations: runs, approvals, policies, tickets,
      connections, knowledge, evaluations, events, sessions and replies
      ([agent_runs_lifecycle], [approvals_lifecycle], [published_rules_frozen],
      [tickets_follow_transitions], [connections_in_order], [knowledge_base_in_order],
      [evaluations_in_order], [channels_in_order]).
    - At most once: claims, inbound events, ingestion, routing of replies
      ([claim_is_exclusive], [ingest_dedupes], [inbound_event_processed_once],
      [response_routed_once]).
    - Ends: deliveries whose last worker survives, runs, ingestions, the graph and the
      chunker end, and the sweeps find what crashed ([delivery_settles], [worker_settles_run],
      [run_ingestion_settles], [run_graph_bounded], [recovery_sweep],
      [recovery_ends_crashed_run], [chunk_text_passages]).
    - Results: search (what the index reaches, nearest first), scores against what an
      expectation means, comparisons, chat pages, the fan-out of webhook events, redaction,
      stored arguments, encrypted credentials, provider time limits and health.

    ** Fuel

    [Chunking.chunk_loop] runs with the length of the text, which [chunk_text_passages]
    shows to be enough.  [ToolExec.run_attempts] runs with the attempts that are left,
    and its last branch is reached exactly when they are used up.  The graph runs with
    the recursion limit the code computes, which [Graph.recursion_limit_enough] shows to
    be enough.

    ** Parameters

    Code outside of the repository is an argument: [PyLib] (parsing of numbers and
    dates), [Network] (DNS, sockets, HTTP, HMAC, Fernet, JSON text), [Pydantic] (one
    value of a model), [Vendors] (the answers of Stripe, Google and SMTP), [KeyLib],
    [Encoding], [TextEncoding], [UnicodeLib], [Documents], [VectorDatabase]
    (the distance, and which rows the approximate index reaches), [TokenDigest],
    [ChannelLib], [EvaluationSchemas], and the two language-model [Providers].  What a theorem needs of them is a named hypothesis, and each has a
    concrete instance.

    ** Not modelled

    - Serializers and routing: a request is taken after authentication and with the
      document its serializer accepted ([None] when it is refused; a document the code
      uses as an object is one); an answer names the objects it renders, not their
      fields.  Throttling, pagination and ordering parameters are left out, and the parts
      of one view run without interference.
    - The OpenAI adapter: a provider is a parameter; the fake provider is modelled.
    - Accounts and authentication: login, tokens and CSRF are those of Django and
      simplejwt, and a request names its user.
    - Observability: metrics, traces and logs do not feed back into the state.
    - Configuration and Celery wiring: settings are a record, tasks call the services.
    - The demonstration data, the migrations, the front end and the tests.
    - Health checks and the admin site. *)

From stdpp Require Import base gmap strings list pretty.
From Stdlib Require Import ZArith Ascii String Lia.

(** ** The effect monad

    A service function of the back end reads and writes the database (and the
    message broker), may raise a Python exception, and returns a value.  It is
    modelled as a function from the world before to an exception or a value,
    together with the world after. *)

Definition M (W E A : Type) : Type := W → (E + A) * W.

#[export] Instance M_ret {W E} : MRet (M W E) := λ A a w, (inr a, w).

#[export] Instance M_bind {W E} : MBind (M W E) := λ A B k m w,
  match m w with
  | (inl e, w') => (inl e, w')
  | (inr a, w') => k a w'
  end.

Section Effects.
Context {W E : Type}.

(** [raise e]: the Python statement [raise e]. *)
Definition raise {A} (e : E) : M W E A := λ w, (inl e, w).

(** Reading a component of the world. *)
Definition gets {A} (f : W → A) : M W E A := λ w, (inr (f w), w).

(** Writing the world. *)
Definition modify (f : W → W) : M W E () := λ w, (inr (), f w).

(** [try: m except e: h e]; [h] re-raises what it does not handle. *)
Definition catch {A} (m : M W E A) (h : E → M W E A) : M W E A := λ w,
  match m w with
  | (inl e, w') => h e w'
  | (inr a, w') => (inr a, w')
  end.

(** [with transaction.atomic(): m]: an exception that leaves the block rolls
    every write of the block back. *)
Definition atomic {A} (m : M W E A) : M W E A := λ w,
  match m w with
  | (inl e, _) => (inl e, w)
  | (inr a, w') => (inr a, w')
  end.

(** [if b: raise e]. *)
Definition raise_if (b : bool) (e : E) : M W E () :=
  if b then raise e else mret ().

(** [if b: m]. *)
Definition when (b : bool) (m : M W E ()) : M W E () :=
  if b then m else mret ().

(** [for x in l: f x]. *)
Fixpoint for_each {A} (l : list A) (f : A → M W E ()) : M W E () :=
  match l with
  | [] => mret ()
  | x :: l => f x;; for_each l f
  end.

(** Unwrapping an optional row: [objects.get] raises [DoesNotExist]. *)
Definition or_raise {A} (o : option A) (e : E) : M W E A :=
  match o with Some a => mret a | None => raise e end.
(** [try: m] with a handler that looks at every exception. *)
Definition attempt {A} (m : M W E A) : M W E (E + A) := λ w,
  match m w with (r, w') => (inr r, w') end.

(** A computation that reads nothing and may raise. *)
Definition of_sum {A} (r : E + A) : M W E A := λ w, (r, w).
End Effects.

(** ** Weakest preconditions

    [wp m Q w]: running [m] in [w] ends with a result and a world that satisfy
    [Q].  [m] is a total function, so [wp] is a total-correctness statement. *)

Definition wp {W E A} (m : M W E A) (Q : E + A → W → Prop) (w : W) : Prop :=
  Q (m w).1 (m w).2.

Definition bind_post {W E A B} (k : A → M W E B) (Q : E + B → W → Prop)
    : E + A → W → Prop := λ r w,
  match r with inl e => Q (inl e) w | inr a => wp (k a) Q w end.

Definition catch_post {W E A} (h : E → M W E A) (Q : E + A → W → Prop)
    : E + A → W → Prop := λ r w,
  match r with inl e => wp (h e) Q w | inr a => Q (inr a) w end.

Definition atomic_post {W E A} (w0 : W) (Q : E + A → W → Prop)
    : E + A → W → Prop := λ r w,
  match r with inl e => Q (inl e) w0 | inr a => Q (inr a) w end.

Section WP.
Context {W E : Type}.

Lemma wp_ret {A} (a : A) (Q : E + A → W → Prop) w : Q (inr a) w → wp (mret a) Q w.
Proof. done. Qed.

Lemma wp_raise {A} (e : E) (Q : E + A → W → Prop) w : Q (inl e) w → wp (raise e) Q w.
Proof. done. Qed.

Lemma wp_gets {A} (f : W → A) (Q : E + A → W → Prop) w :
  Q (inr (f w)) w → wp (gets f) Q w.
Proof. done. Qed.

Lemma wp_modify (f : W → W) (Q : E + () → W → Prop) w :
  Q (inr ()) (f w) → wp (modify f) Q w.
Proof. done. Qed.

Lemma wp_bind {A B} (m : M W E A) (k : A → M W E B) Q w :
  wp m (bind_post k Q) w → wp (m ≫= k) Q w.
Proof.
  unfold wp, bind_post, mbind, M_bind. by destruct (m w) as [[e|a] w'].
Qed.

Lemma wp_catch {A} (m : M W E A) (h : E → M W E A) Q w :
  wp m (catch_post h Q) w → wp (catch m h) Q w.
Proof. unfold wp, catch_post, catch. by destruct (m w) as [[e|a] w']. Qed.

Lemma wp_atomic {A} (m : M W E A) Q w :
  wp m (atomic_post w Q) w → wp (atomic m) Q w.
Proof. unfold wp, atomic_post, atomic. by destruct (m w) as [[e|a] w']. Qed.

Lemma wp_attempt {A} (m : M W E A) (Q : E + (E + A) → W → Prop) w :
  wp m (λ r, Q (inr r)) w → wp (attempt m) Q w.
Proof. unfold wp, attempt. by destruct (m w). Qed.

Lemma wp_of_sum {A} (r : E + A) (Q : E + A → W → Prop) w : Q r w → wp (of_sum r) Q w.
Proof. done. Qed.

Lemma wp_mono {A} (m : M W E A) (P Q : E + A → W → Prop) w :
  wp m P w → (∀ r w', P r w' → Q r w') → wp m Q w.
Proof. unfold wp. auto. Qed.

(** A loop keeps an invariant that each iteration keeps, also when an
    iteration raises. *)
Lemma wp_for_each {A} (l : list A) (f : A → M W E ()) (I : W → Prop) Q w :
  I w →
  (∀ x w, x ∈ l → I w → wp (f x) (λ _, I) w) →
  (∀ r w', I w' → Q r w') →
  wp (for_each l f) Q w.
Proof.
  intros Hw Hf HQ. revert w Hw. induction l as [|x l IH]; intros w Hw; simpl.
  { by apply wp_ret, HQ. }
  apply wp_bind. eapply wp_mono; [by apply Hf; [left|]|].
  intros [e|[]] w' Hw'; simpl; [by apply HQ|].
  apply IH; [|done]. intros y w0 Hy. apply Hf. by right.
Qed.
End WP.

(** One step of symbolic execution of a service function. *)
Ltac wp_beta := cbv beta iota delta [bind_post catch_post atomic_post].

Ltac wp_step :=
  lazymatch goal with
  | |- bind_post _ _ _ _ => wp_beta
  | |- catch_post _ _ _ _ => wp_beta
  | |- atomic_post _ _ _ _ => wp_beta
  | |- wp (_ ≫= _) _ _ => apply wp_bind
  | |- wp (mret _) _ _ => apply wp_ret
  | |- wp (raise _) _ _ => apply wp_raise
  | |- wp (gets _) _ _ => apply wp_gets
  | |- wp (modify _) _ _ => apply wp_modify
  | |- wp (catch _ _) _ _ => apply wp_catch
  | |- wp (atomic _) _ _ => apply wp_atomic
  | |- wp (attempt _) _ _ => apply wp_attempt
  | |- wp (of_sum _) _ _ => apply wp_of_sum
  | |- wp (raise_if _ _) _ _ => unfold raise_if
  | |- wp (when _ _) _ _ => unfold when
  | |- wp (or_raise _ _) _ _ => unfold or_raise
  | |- wp (let '_ := ?x in _) _ _ => destruct x eqn:?
  | |- wp (match ?x with _ => _ end) _ _ => destruct x eqn:?
  | |- wp _ _ _ => progress cbv beta zeta
  end.

Ltac wp_steps := repeat wp_step.

(** ** Transition relations

    [included R m]: every run of [m], whatever it returns or raises, moves the
    world along [R].  With [R] a preorder this composes over sequencing,
    exception handling, transactions and loops, so a frame or monotonicity
    property of a service follows from the same property of its writes. *)

Definition included {W E A} (R : relation W) (m : M W E A) : Prop :=
  ∀ w, R w (m w).2.

Create HintDb included discriminated.

Section Included.
Context {W E : Type} (R : relation W) `{!PreOrder R}.

Lemma included_ret {A} (a : A) : included R (mret a : M W E A).
Proof. intros w. simpl. reflexivity. Qed.
Lemma included_raise {A} (e : E) : included R (raise e : M W E A).
Proof. intros w. simpl. reflexivity. Qed.
Lemma included_gets {A} (f : W → A) : included R (gets f : M W E A).
Proof. intros w. simpl. reflexivity. Qed.
Lemma included_modify f : (∀ w, R w (f w)) → included R (modify f : M W E ()).
Proof. intros H w. apply H. Qed.

Lemma included_bind {A B} (m : M W E A) (k : A → M W E B) :
  included R m → (∀ a, included R (k a)) → included R (m ≫= k).
Proof.
  intros Hm Hk w. specialize (Hm w). unfold mbind, M_bind.
  destruct (m w) as [[e|a] w']; [done|].
  etrans; [exact Hm|]. apply Hk.
Qed.

(** The read of a row followed by a write that depends on it. *)
Lemma included_bind_gets {A B} (f : W → A) (k : A → M W E B) :
  (∀ w, R w (k (f w) w).2) → included R (gets f ≫= k).
Proof. intros H w. apply H. Qed.

Lemma included_catch {A} (m : M W E A) h :
  included R m → (∀ e, included R (h e)) → included R (catch m h).
Proof.
  intros Hm Hh w. specialize (Hm w). unfold catch.
  destruct (m w) as [[e|a] w']; [|done].
  etrans; [exact Hm|]. apply Hh.
Qed.

Lemma included_atomic {A} (m : M W E A) : included R m → included R (atomic m).
Proof.
  intros Hm w. specialize (Hm w). unfold atomic.
  destruct (m w) as [[e|a] w']; [reflexivity|done].
Qed.

Lemma included_attempt {A} (m : M W E A) : included R m → included R (attempt m).
Proof. intros Hm w. specialize (Hm w). unfold attempt. by destruct (m w). Qed.
Lemma included_of_sum {A} (r : E + A) : included R (of_sum r : M W E A).
Proof. intros w. simpl. reflexivity. Qed.

Lemma included_for_each {A} (l : list A) (f : A → M W E ()) :
  (∀ x, included R (f x)) → included R (for_each l f).
Proof.
  intros Hf. induction l as [|x l IH]; [apply included_ret|].
  apply included_bind; [apply Hf|]. intros _. exact IH.
Qed.

Lemma included_raise_if b e : included R (raise_if b e : M W E ()).
Proof. destruct b; [apply included_raise|apply included_ret]. Qed.
Lemma included_when b (m : M W E ()) : included R m → included R (when b m).
Proof. destruct b; [done|intros _; apply included_ret]. Qed.
Lemma included_or_raise {A} (o : option A) (e : E) :
  included R (or_raise o e : M W E A).
Proof. destruct o; [apply included_ret|apply included_raise]. Qed.
End Included.

Ltac included_step :=
  lazymatch goal with
  | |- included _ (_ ≫= _) => apply included_bind; [typeclasses eauto| |intro]
  | |- included _ (catch _ _) => apply included_catch; [typeclasses eauto| |intro]
  | |- included _ (for_each _ _) => apply included_for_each; [typeclasses eauto|intro]
  | |- included _ (atomic _) => apply included_atomic; [typeclasses eauto|]
  | |- included _ (attempt _) => apply included_attempt
  | |- included _ (when _ _) => apply included_when; [typeclasses eauto|]
  | |- included _ (mret _) => apply included_ret; typeclasses eauto
  | |- included _ (raise _) => apply included_raise; typeclasses eauto
  | |- included _ (gets _) => apply included_gets; typeclasses eauto
  | |- included _ (raise_if _ _) => apply included_raise_if; typeclasses eauto
  | |- included _ (or_raise _ _) => apply included_or_raise; typeclasses eauto
  | |- included _ (of_sum _) => apply included_of_sum; typeclasses eauto
  | |- included _ (let '_ := ?x in _) => destruct x
  | |- included _ (match ?x with _ => _ end) => destruct x
  | |- included _ _ => solve [eauto 2 with included]
  end.

Ltac included_steps := repeat included_step.

(** ** Membership in a list of constructors, by evaluation. *)

Ltac mem_decide := apply (bool_decide_unpack _); vm_compute; try exact I.
Ltac mem_decide_in H := apply (bool_decide_pack _) in H; revert H; vm_compute.
Ltac absurd_mem := let H := fresh in intros H; mem_decide_in H; done.

(** ** Reading a key back *)

Definition digit (c : ascii) : option N :=
  let d := (N_of_ascii c - 48)%N in
  if (48 <=? N_of_ascii c)%N && (d <? 10)%N then Some d else None.
Fixpoint read_digits (acc : N) (s : string) : option N :=
  match s with
  | EmptyString => Some acc
  | String c s => match digit c with Some d => read_digits (acc * 10 + d) s | None => None end
  end.
(** The key a decimal text stands for. *)
Definition read_key (s : string) : option N :=
  if String.eqb s "" then None else read_digits 0 s.

Lemma digit_pretty d : (d < 10)%N → digit (pretty_N_char d) = Some d.
Proof. intros Hd. destruct d as [|[[[[]|[]|]|[[]|[]|]|]|[[[]|[]|]|[[]|[]|]|]|]]; (done || lia). Qed.

(** The digits of a number, before a text. *)
Lemma read_pretty_go x s :
  read_digits 0 (pretty_N_go x s) = read_digits x s ∧ (s ≠ "" → pretty_N_go x s ≠ "").
Proof.
  revert s. induction (N.lt_wf_0 x) as [x _ IH]. intros s.
  destruct (decide (x = 0)%N) as [->|Hx]; [done|].
  rewrite pretty_N_go_step by lia. destruct (IH (x `div` 10)%N) with (s := String (pretty_N_char (x `mod` 10)) s)
    as [E Hne]; [apply N.div_lt; lia|]. split; [|intros _; by apply Hne].
  rewrite E. simpl. rewrite digit_pretty by (apply N.mod_lt; lia).
  f_equal. rewrite (N.div_mod x 10) at 3 by lia. lia.
Qed.

Lemma read_pretty i : read_key (pretty i) = Some i.
Proof.
  unfold read_key, pretty, pretty_N. destruct (decide (i = 0)%N) as [->|Hi]; [done|].
  rewrite pretty_N_go_step by lia.
  destruct (read_pretty_go (i `div` 10) (String (pretty_N_char (i `mod` 10)) "")) as [E Hne].
  destruct (String.eqb_spec (pretty_N_go (i `div` 10) (String (pretty_N_char (i `mod` 10)) "")) "") as [Hp|_];
    [by destruct Hne|].
  rewrite E. simpl. rewrite digit_pretty by (apply N.mod_lt; lia).
  f_equal. rewrite (N.div_mod i 10) at 3 by lia. lia.
Qed.
