(* ===== verification/Json.v ===== *)
(** * JSON values and redaction

    Tool arguments, tool results, policy-rule conditions and event payloads are
    JSON documents.  This file has the values, the Python operations the back
    end applies to them ([dict.get], [==], [in], numeric comparison, [float]),
    and [common/redaction.py] with its theorems.

    A Python [int] is an unbounded [Z]; a Python [float] is a binary64 value of
    the Standard Library's [SpecFloat].  Strings are ASCII strings. *)

From stdpp Require Import base strings list.
From Stdlib Require Import ZArith SpecFloat Ascii String Lia.
From S2P Require Import Prelude.

(** ** Values *)

#[warnings="-register-all"]
Inductive json :=
  | JNull
  | JBool (b : bool)
  | JInt (z : Z)
  | JFloat (f : spec_float)
  | JStr (s : string)
  | JList (l : list json)
  | JObj (l : list (string * json)).

Section JsonInd.
Variable P : json → Prop.
Hypothesis Hnull : P JNull.
Hypothesis Hbool : ∀ b, P (JBool b).
Hypothesis Hint : ∀ z, P (JInt z).
Hypothesis Hfloat : ∀ f, P (JFloat f).
Hypothesis Hstr : ∀ s, P (JStr s).
Hypothesis Hlist : ∀ l, Forall P l → P (JList l).
Hypothesis Hobj : ∀ l, Forall (λ kv, P kv.2) l → P (JObj l).

(** The induction principle that reaches the members of lists and objects. *)
Fixpoint json_nested_ind (v : json) : P v :=
  match v with
  | JNull => Hnull
  | JBool b => Hbool b
  | JInt z => Hint z
  | JFloat f => Hfloat f
  | JStr s => Hstr s
  | JList l => Hlist l
      ((fix go l : Forall P l :=
          match l with
          | [] => @List.Forall_nil _ P
          | x :: l => @List.Forall_cons _ P x l (json_nested_ind x) (go l)
          end) l)
  | JObj l => Hobj l
      ((fix go l : Forall (λ kv : string * json, P kv.2) l :=
          match l with
          | [] => @List.Forall_nil _ _
          | x :: l => @List.Forall_cons _ _ x l (json_nested_ind x.2) (go l)
          end) l)
  end.
End JsonInd.

(** [d.get(k)] on the members of an object. *)
Fixpoint obj_get (k : string) (l : list (string * json)) : option json :=
  match l with
  | [] => None
  | (k', v) :: l => if String.eqb k' k then Some v else obj_get k l
  end.

(** [arguments.get(k)]: a missing key reads as [None]. *)
Definition args_get (arguments : list (string * json)) (k : string) : json :=
  default JNull (obj_get k arguments).

(** [not v]. *)
Definition falsy (v : json) : bool :=
  match v with
  | JNull | JBool false | JStr "" | JList [] | JObj [] => true
  | JInt z => (z =? 0)%Z
  | JFloat (S754_zero _) => true
  | _ => false
  end.

(** ** Strings *)

Fixpoint str_map (f : ascii → ascii) (s : string) : string :=
  match s with
  | EmptyString => EmptyString
  | String c s => String (f c) (str_map f s)
  end.

Definition ascii_shift (lo hi : nat) (up : bool) (c : ascii) : ascii :=
  let n := nat_of_ascii c in
  if (lo <=? n)%nat && (n <=? hi)%nat
  then ascii_of_nat (if up then n - 32 else n + 32) else c.

(** [s.upper()] and [s.lower()]. *)
Definition str_upper : string → string := str_map (ascii_shift 97 122 true).
Definition str_lower : string → string := str_map (ascii_shift 65 90 false).

(** [marker in s] for strings. *)
Definition str_contains (marker s : string) : bool :=
  bool_decide (is_Some (String.index 0 marker s)).

(** [s[:n]]. *)
Definition str_take (n : nat) (s : string) : string := String.substring 0 n s.

(** [c.isspace()]. *)
Definition is_space (c : ascii) : bool :=
  let n := nat_of_ascii c in (n =? 32)%nat || ((9 <=? n)%nat && (n <=? 13)%nat)
  || ((28 <=? n)%nat && (n <=? 31)%nat).

Fixpoint str_lstrip (s : string) : string :=
  match s with
  | EmptyString => EmptyString
  | String c r => if is_space c then str_lstrip r else s
  end.

Fixpoint str_rstrip (s : string) : string :=
  match s with
  | EmptyString => EmptyString
  | String c r =>
      match str_rstrip r with
      | EmptyString => if is_space c then EmptyString else String c EmptyString
      | r' => String c r'
      end
  end.

(** [s.strip()]. *)
Definition str_strip (s : string) : string := str_rstrip (str_lstrip s).

(** [a or b] on strings. *)
Definition str_or (a b : string) : string :=
  if String.eqb a "" then b else a.

(** ** Numbers *)

(** [float(z)]; [None] is the [OverflowError] of an integer beyond the range. *)
Definition float_of_Z (z : Z) : option spec_float :=
  match binary_normalize 53 1024 z 0 false with
  | S754_infinity _ => None
  | f => Some f
  end.

(** Python compares an [int] with a [float] by their exact values; a comparison
    with a NaN is false whatever its direction ([None]). *)
Definition Z_cmp_float (z : Z) (f : spec_float) : option comparison :=
  match f with
  | S754_nan => None
  | S754_infinity true => Some Gt
  | S754_infinity false => Some Lt
  | S754_zero _ => Some (z ?= 0)%Z
  | S754_finite s m e =>
      let v := if s then Z.neg m else Z.pos m in
      if (0 <=? e)%Z then Some (z ?= v * 2 ^ e)%Z
      else Some (z * 2 ^ (- e) ?= v)%Z
  end.

(** A JSON number: [isinstance(v, int | float) and not isinstance(v, bool)]. *)
Inductive pynum :=
  | PInt (z : Z)
  | PFloat (f : spec_float).

Definition as_number (v : json) : option pynum :=
  match v with
  | JInt z => Some (PInt z)
  | JFloat f => Some (PFloat f)
  | _ => None
  end.

(** Comparison of a number with an integer constant of the settings. *)
Definition num_cmp_Z (x : pynum) (t : Z) : option comparison :=
  match x with
  | PInt z => Some (z ?= t)%Z
  | PFloat f => CompOpp <$> Z_cmp_float t f
  end.

(** [x <= t] and [x >= t]. *)
Definition num_le_Z (x : pynum) (t : Z) : bool :=
  match num_cmp_Z x t with Some (Lt | Eq) => true | _ => false end.
Definition num_ge_Z (x : pynum) (t : Z) : bool :=
  match num_cmp_Z x t with Some (Gt | Eq) => true | _ => false end.

(** [==] on JSON values: numbers compare by value across [bool], [int] and
    [float], objects irrespective of the order of their keys. *)
Definition num_eq (a b : json) : option bool :=
  let to_num v := match v with
                  | JBool b => Some (PInt (if b then 1 else 0)%Z)
                  | _ => as_number v end in
  match to_num a, to_num b with
  | Some (PInt x), Some (PInt y) => Some (x =? y)%Z
  | Some (PInt x), Some (PFloat f) | Some (PFloat f), Some (PInt x) =>
      Some (match Z_cmp_float x f with Some Eq => true | _ => false end)
  | Some (PFloat f), Some (PFloat g) => Some (SFeqb f g)
  | _, _ => None
  end.

Fixpoint json_eq (a b : json) : bool :=
  match a, b with
  | JNull, JNull => true
  | JStr s, JStr t => String.eqb s t
  | JList l, JList k =>
      (fix go l k := match l, k with
       | [], [] => true
       | x :: l, y :: k => json_eq x y && go l k
       | _, _ => false end) l k
  | JObj l, JObj k =>
      (List.length l =? List.length k)%nat &&
      (fix go l := match l with
       | [] => true
       | (n, x) :: l =>
           match obj_get n k with Some y => json_eq x y | None => false end && go l
       end) l
  | _, _ => default false (num_eq a b)
  end.

(** [x in container]; [None] is the [TypeError] Python raises. *)
Definition json_in (x container : json) : option bool :=
  match container with
  | JList l => Some (existsb (json_eq x) l)
  | JStr s => match x with JStr m => Some (str_contains m s) | _ => None end
  | JObj l =>
      match x with
      | JStr k => Some (bool_decide (is_Some (obj_get k l)))
      | JList _ | JObj _ => None
      | _ => Some false
      end
  | _ => None
  end.

(** ** Redaction ([common/redaction.py]) *)

Module Redaction.

Definition REDACTED : string := "***REDACTED***".

Definition SENSITIVE_KEY_MARKERS : list string :=
  ["password"; "secret"; "token"; "api_key"; "apikey"; "authorization";
   "access_key"; "private_key"; "signing_key"; "card_number"; "cvv"; "ssn";
   "credential"; "key"].

Definition is_sensitive_key (key : string) : bool :=
  existsb (λ marker, str_contains marker (str_lower key)) SENSITIVE_KEY_MARKERS.

Definition in_keys (extra_keys : list string) (k : string) : bool :=
  existsb (String.eqb k) extra_keys.

(** The test [redact] makes on a member of an object. *)
Definition hides (extra_keys : list string) (key : string) : bool :=
  is_sensitive_key key || in_keys extra_keys (str_lower key).

Fixpoint redact (extra_keys : list string) (value : json) : json :=
  match value with
  | JObj l =>
      JObj ((fix go (l : list (string * json)) := match l with
             | [] => []
             | (key, val) :: l =>
                 (key, if hides extra_keys key then JStr REDACTED
                       else redact extra_keys val) :: go l
             end) l)
  | JList l => JList (map (redact extra_keys) l)
  | v => v
  end.

Definition redact_fields (extra_keys : list string) (l : list (string * json))
    : list (string * json) :=
  map (λ '(key, val), (key, if hides extra_keys key then JStr REDACTED
                            else redact extra_keys val)) l.

(** No member under a sensitive name, at any depth, holds anything but the
    placeholder. *)
Fixpoint clean (extra_keys : list string) (v : json) : Prop :=
  match v with
  | JObj l =>
      (fix go l : Prop := match l with
       | [] => True
       | (key, val) :: l =>
           (if hides extra_keys key then val = JStr REDACTED
            else clean extra_keys val) ∧ go l
       end) l
  | JList l =>
      (fix go l : Prop := match l with
       | [] => True
       | x :: l => clean extra_keys x ∧ go l
       end) l
  | _ => True
  end.

Lemma redact_obj ek l : redact ek (JObj l) = JObj (redact_fields ek l).
Proof.
  simpl. f_equal. induction l as [|[k v] l IH]; [done|]. simpl. by f_equal.
Qed.

Lemma redact_clean ek v : clean ek (redact ek v).
Proof.
  induction v as [| | | | |l IH|l IH] using json_nested_ind; try done.
  - induction IH as [|x l Hx _ IHl]; [done|]. by split.
  - rewrite redact_obj. induction IH as [|[k x] l Hx _ IHl]; [done|].
    simpl in *. split; [|done]. by destruct (hides ek k).
Qed.

Lemma clean_redact ek v : clean ek v → redact ek v = v.
Proof.
  induction v as [| | | | |l IH|l IH] using json_nested_ind; intros Hc; try done.
  - simpl. f_equal. induction IH as [|x l Hx _ IHl]; [done|].
    destruct Hc as [Hc1 Hc2]. simpl. f_equal; auto.
  - rewrite redact_obj. f_equal.
    induction IH as [|[k x] l Hx _ IHl]; [done|].
    destruct Hc as [Hc1 Hc2]. simpl in *.
    f_equal; [|by apply IHl]. f_equal.
    destruct (hides ek k); [by rewrite Hc1|by apply Hx].
Qed.

(** Redaction removes every secret and is stable: after [redact], no
    field whose name looks sensitive keeps anything but the placeholder, at
    any depth, a second pass changes nothing, and the only documents left
    unchanged are those with nothing to hide. *)
Theorem redact_correct ek v :
  clean ek (redact ek v) ∧
  redact ek (redact ek v) = redact ek v ∧
  (redact ek v = v ↔ clean ek v).
Proof.
  split_and!.
  - apply redact_clean.
  - apply clean_redact, redact_clean.
  - split; [|apply clean_redact]. intros <-. apply redact_clean.
Qed.

Example redact_nested :
  redact ["note"]
    (JObj [("API_Key", JStr "sk_live"); ("Note", JInt 3);
           ("items", JList [JObj [("ssn", JNull); ("amount", JInt 5)]])])
  = JObj [("API_Key", JStr REDACTED); ("Note", JStr REDACTED);
          ("items", JList [JObj [("ssn", JStr REDACTED); ("amount", JInt 5)]])].
Proof. reflexivity. Qed.
End Redaction.
