(* ===== verification/Decimals.v ===== *)
(** * Floats and decimals of Python

    What the cost of a run goes through: [Decimal(str(x))] of a binary64 float, the
    shortest decimal that reads back as the float; [float(d)] of a decimal, the nearest
    float; and the sum of two decimals in the default context of 28 digits.  A decimal is
    a rational; all of it is executable. *)

From stdpp Require Import base list.
From Stdlib Require Import ZArith QArith Qabs SpecFloat.

#[local] Close Scope Q_scope.
#[local] Open Scope Z_scope.

(** The quotient of two naturals rounded to the nearest integer, ties to even. *)
Definition round_half_even (num den : Z) : Z :=
  let q := num / den in
  match 2 * (num mod den) ?= den with
  | Lt => q
  | Gt => q + 1
  | Eq => if Z.even q then q else q + 1
  end.

(** ** From decimals to floats *)

(** [float(d)]: the quotient is computed to 64 bits at least, with a last bit that says
    whether there is a remainder, and rounded to the nearest float, ties to even. *)
Definition float_of_decimal (d : Q) : spec_float :=
  let num := Z.abs (Qnum d) in
  let den := Z.pos (Qden d) in
  let shift := Z.max 0 (64 + Z.log2 den - Z.log2 num) in
  let scaled := num * 2 ^ shift in
  let bits := 2 * (scaled / den) + (if scaled mod den =? 0 then 0 else 1) in
  binary_normalize 53 1024 (Z.sgn (Qnum d) * bits) (- shift - 1) false.

(** ** From floats to decimals *)

Fixpoint count_digits (fuel : nat) (z : Z) : Z :=
  match fuel with
  | O => 1
  | S fuel => if z <? 10 then 1 else 1 + count_digits fuel (z / 10)
  end.
Definition decimal_digits (z : Z) : Z := count_digits (Z.to_nat (Z.log2 z)) z.

(** [d / 10 ^ e] as a fraction, and [m * 10 ^ e]. *)
Definition scaled_down (d : Q) (e : Z) : Z * Z :=
  if 0 <=? e then (Qnum d, Z.pos (Qden d) * 10 ^ e) else (Qnum d * 10 ^ (- e), Z.pos (Qden d)).
Definition scaled_up (m e : Z) : Q :=
  if 0 <=? e then inject_Z (m * 10 ^ e) else Qred (Qmake m (Z.to_pos (10 ^ (- e)))).

(** The place of the last of the first [n] digits of a positive number. *)
Definition last_place (n : Z) (d : Q) : Z :=
  let e := decimal_digits (Qnum d) - decimal_digits (Z.pos (Qden d)) - n in
  let '(num, den) := scaled_down d e in
  if 10 ^ n <=? num / den then e + 1 else e.

(** The digits that read back as [f]: the nearest ones with [n] digits, their neighbours,
    or else those with more digits. *)
Fixpoint shortest_digits (fuel : nat) (n : Z) (f : spec_float) (exact : Q) : Q :=
  match fuel with
  | O => exact
  | S fuel =>
      let e := last_place n exact in
      let '(num, den) := scaled_down exact e in
      let candidates := map (λ m, scaled_up m e)
        [round_half_even num den; num / den; num / den + 1] in
      match List.find (λ d, SFeqb (float_of_decimal d) f) candidates with
      | Some d => d
      | None => shortest_digits fuel (n + 1) f exact
      end
  end.

(** [Decimal(str(f))] of a finite float. *)
Definition decimal_of_float (f : spec_float) : option Q :=
  match f with
  | S754_zero _ => Some (Qmake 0 1)
  | S754_finite s m e =>
      let exact := if 0 <=? e then inject_Z (Z.pos m * 2 ^ e)
                   else Qred (Qmake (Z.pos m) (Z.to_pos (2 ^ (- e)))) in
      let d := shortest_digits 17 1 (SFabs f) exact in
      Some (if s then Qopp d else d)
  | _ => None
  end.

(** ** Sums *)

(** A decimal in the default context: 28 digits, ties to even. *)
Definition round_decimal (n : Z) (d : Q) : Q :=
  if Qnum d =? 0 then d
  else
    let e := last_place n (Qabs d) in
    let '(num, den) := scaled_down (Qabs d) e in
    scaled_up (Z.sgn (Qnum d) * round_half_even num den) e.
Definition decimal_add (a b : Q) : Q := round_decimal 28 (Qred (Qplus a b)).

(** [Decimal(str(float(d)))]: what a decimal is after it was a float; itself when it is
    too large to be one. *)
Definition through_float (d : Q) : Q := default d (decimal_of_float (float_of_decimal d)).

(** ** Examples *)

Definition float (m e : Z) : spec_float := binary_normalize 53 1024 m e false.

(** A tenth, a third, and [2 ** -44], which lies between two decimals of 16 digits. *)
Example shortest_of_floats :
  decimal_of_float (float 3602879701896397 (-55)) = Some (Qmake 1 10) ∧
  decimal_of_float (float 6004799503160661 (-54)) = Some (Qmake 3333333333333333 10000000000000000) ∧
  decimal_of_float (float 1 (-44)) = Some (Qred (Qmake 5684341886080802 (Z.to_pos (10 ^ 29)))).
Proof. vm_compute. repeat split. Qed.

(** A sum of costs that no float is: 0.1 + 0.2 is 0.3 in decimals, and stays 0.3. *)
Example tenths_add_up :
  through_float (decimal_add (Qmake 1 10) (Qmake 2 10)) = Qmake 3 10 ∧
  SFadd 53 1024 (float_of_decimal (Qmake 1 10)) (float_of_decimal (Qmake 2 10))
    ≠ float_of_decimal (Qmake 3 10).
Proof. vm_compute. split; [reflexivity|discriminate]. Qed.

(** Sixteen digits do not go through a float unharmed. *)
Example digits_are_lost :
  through_float (Qmake 9007199254740993 1) = Qmake 9007199254740992 1.
Proof. vm_compute. reflexivity. Qed.
