(* ===== verification/Domain.v ===== *)
(** * Settings and the shared enumerations

    The server-owned constants of [config/settings.py] the modelled services
    read, the Standard-Library functions whose grammar is left abstract, and the
    [TextChoices] enumerations several components share. *)

From stdpp Require Import base strings list.
From Stdlib Require Import ZArith SpecFloat.
From S2P Require Import Prelude Json.

(** ** Settings ([config/settings.py]) *)

Class Settings := {
  POLICIES_DEFAULT_APPROVAL_TTL_SECONDS : Z;
  POLICIES_RISK_BUMP_FINANCIAL_AMOUNT_MINOR : Z;
  POLICIES_DEFAULT_REFUND_AUTO_ALLOW_MAX_MINOR : Z;
  POLICIES_DEFAULT_REFUND_APPROVAL_MAX_MINOR : Z;
  DELIVERY_DEFAULT_MAX_ATTEMPTS : Z;
  DELIVERY_CLAIM_LEASE_SECONDS : Z;
  DELIVERY_RETRY_BASE_DELAY_SECONDS : Z;
  DELIVERY_RETRY_MAX_DELAY_SECONDS : Z;
  DELIVERY_SWEEP_BATCH_SIZE : nat;
  WEBHOOKS_REDRIVE_ATTEMPT_ALLOWANCE : Z;
  WEBHOOKS_ALLOW_INSECURE_HTTP : bool;
  WEBHOOKS_MAX_URL_LENGTH : nat;
  AGENTS_TOOL_RESULT_MAX_CHARACTERS : N;
  AGENTS_CONTEXT_MAX_MESSAGES : nat;
  AGENTS_CONTEXT_MAX_CHARACTERS : N;
  AGENTS_RAG_TOP_K : nat;
  AGENTS_RAG_MAX_CHARACTERS : N;
  KNOWLEDGE_MAX_QUERY_LENGTH : N;
  KNOWLEDGE_MAX_UPLOAD_BYTES : N;
  KNOWLEDGE_MAX_PDF_PAGES : nat;
  KNOWLEDGE_ALLOWED_CONTENT_TYPES : list (string * list string);
  KNOWLEDGE_CHUNK_SIZE : nat;
  KNOWLEDGE_CHUNK_OVERLAP : nat;
  KNOWLEDGE_MIN_CHUNK_CHARS : nat;
  KNOWLEDGE_EMBEDDING_DIMENSION : nat;
  KNOWLEDGE_DEFAULT_TOP_K : nat;
  KNOWLEDGE_MAX_TOP_K : nat;
  KNOWLEDGE_INGESTION_MAX_ATTEMPTS : N;
  KNOWLEDGE_STUCK_JOB_STALE_SECONDS : Z;
  KNOWLEDGE_STUCK_JOB_SWEEP_BATCH_SIZE : nat;
  AGENTS_LLM_PROVIDER : string;
  AGENTS_OPENAI_API_KEY : string;
  AGENTS_STUCK_RUN_STALE_SECONDS : Z;
  AGENTS_STUCK_RUN_SWEEP_BATCH_SIZE : nat;
  AGENTS_STUCK_RUN_PENDING_STALE_SECONDS : Z;
  AGENTS_STUCK_RUN_WAITING_FOR_APPROVAL_STALE_SECONDS : Z;
  INTEGRATIONS_CREDENTIAL_ENCRYPTION_KEYS : list string;
  INTEGRATIONS_LIVE_PROVIDERS_ENABLED : bool;
  INTEGRATIONS_DEFAULT_TIMEOUT_SECONDS : spec_float;
  INTEGRATIONS_MAX_TIMEOUT_SECONDS : spec_float;
  INTEGRATIONS_CALENDAR_MAX_HORIZON_DAYS : Z;
  INTEGRATIONS_CALENDAR_MAX_TITLE_LENGTH : nat;
  INTEGRATIONS_NOTIFICATION_MAX_SUBJECT_LENGTH : nat;
  INTEGRATIONS_NOTIFICATION_MAX_BODY_LENGTH : nat;
  EVALUATIONS_STUCK_RUN_STALE_SECONDS : Z;
  EVALUATIONS_STUCK_RUN_SWEEP_BATCH_SIZE : nat;
  EVALUATIONS_STUCK_RUN_PENDING_STALE_SECONDS : Z;
  EVALUATIONS_STUCK_CASE_PENDING_STALE_SECONDS : Z;
  CHANNELS_MAX_INBOUND_BODY_BYTES : N;
  CHANNELS_MAX_MESSAGE_BODY_LENGTH : N;
  CHANNELS_SIGNATURE_MAX_PAST_SKEW_SECONDS : Z;
  CHANNELS_SIGNATURE_MAX_FUTURE_SKEW_SECONDS : Z;
  CHANNELS_CHAT_SESSION_TTL_SECONDS : Z;
  CHANNELS_INBOUND_SWEEP_BATCH_SIZE : nat;
  CHANNELS_INBOUND_SWEEP_STALE_SECONDS : Z;
  CHANNEL_WEBCHAT_MESSAGE_HISTORY_LIMIT : nat;
}.

(** A whole number as a binary64 literal. *)
Definition float_lit (n : Z) : spec_float := default S754_nan (float_of_Z n).

(** The values a deployment that overrides nothing runs with. *)
Definition default_settings : Settings := {|
  POLICIES_DEFAULT_APPROVAL_TTL_SECONDS := 60 * 60 * 24;
  POLICIES_RISK_BUMP_FINANCIAL_AMOUNT_MINOR := 100000;
  POLICIES_DEFAULT_REFUND_AUTO_ALLOW_MAX_MINOR := 5000;
  POLICIES_DEFAULT_REFUND_APPROVAL_MAX_MINOR := 50000;
  DELIVERY_DEFAULT_MAX_ATTEMPTS := 5;
  DELIVERY_CLAIM_LEASE_SECONDS := 300;
  DELIVERY_RETRY_BASE_DELAY_SECONDS := 30;
  DELIVERY_RETRY_MAX_DELAY_SECONDS := 3600;
  DELIVERY_SWEEP_BATCH_SIZE := 100;
  WEBHOOKS_REDRIVE_ATTEMPT_ALLOWANCE := 3;
  WEBHOOKS_ALLOW_INSECURE_HTTP := false;
  WEBHOOKS_MAX_URL_LENGTH := 2048;
  AGENTS_TOOL_RESULT_MAX_CHARACTERS := 4000;
  AGENTS_CONTEXT_MAX_MESSAGES := 20;
  AGENTS_CONTEXT_MAX_CHARACTERS := 12000;
  AGENTS_RAG_TOP_K := 5;
  AGENTS_RAG_MAX_CHARACTERS := 8000;
  KNOWLEDGE_MAX_QUERY_LENGTH := 2000;
  KNOWLEDGE_MAX_UPLOAD_BYTES := 10 * 1024 * 1024;
  KNOWLEDGE_MAX_PDF_PAGES := 100;
  KNOWLEDGE_ALLOWED_CONTENT_TYPES :=
    [("text/plain", [".txt"]); ("text/markdown", [".md"; ".markdown"]);
     ("application/pdf", [".pdf"])];
  KNOWLEDGE_CHUNK_SIZE := 1200;
  KNOWLEDGE_CHUNK_OVERLAP := 150;
  KNOWLEDGE_MIN_CHUNK_CHARS := 20;
  KNOWLEDGE_EMBEDDING_DIMENSION := 256;
  KNOWLEDGE_DEFAULT_TOP_K := 5;
  KNOWLEDGE_MAX_TOP_K := 20;
  KNOWLEDGE_INGESTION_MAX_ATTEMPTS := 3;
  KNOWLEDGE_STUCK_JOB_STALE_SECONDS := 600;
  KNOWLEDGE_STUCK_JOB_SWEEP_BATCH_SIZE := 100;
  AGENTS_LLM_PROVIDER := "fake";
  AGENTS_OPENAI_API_KEY := "";
  AGENTS_STUCK_RUN_STALE_SECONDS := 3600;
  AGENTS_STUCK_RUN_SWEEP_BATCH_SIZE := 100;
  AGENTS_STUCK_RUN_PENDING_STALE_SECONDS := 120;
  AGENTS_STUCK_RUN_WAITING_FOR_APPROVAL_STALE_SECONDS := 120;
  INTEGRATIONS_CREDENTIAL_ENCRYPTION_KEYS := ["yhZU1ULKEp92EMdgREGFYEePxDsf_ytYwcmbrNOwhdo="];
  INTEGRATIONS_LIVE_PROVIDERS_ENABLED := false;
  INTEGRATIONS_DEFAULT_TIMEOUT_SECONDS := float_lit 8;
  INTEGRATIONS_MAX_TIMEOUT_SECONDS := float_lit 15;
  INTEGRATIONS_CALENDAR_MAX_HORIZON_DAYS := 90;
  INTEGRATIONS_CALENDAR_MAX_TITLE_LENGTH := 200;
  INTEGRATIONS_NOTIFICATION_MAX_SUBJECT_LENGTH := 200;
  INTEGRATIONS_NOTIFICATION_MAX_BODY_LENGTH := 5000;
  EVALUATIONS_STUCK_RUN_STALE_SECONDS := 3600;
  EVALUATIONS_STUCK_RUN_SWEEP_BATCH_SIZE := 100;
  EVALUATIONS_STUCK_RUN_PENDING_STALE_SECONDS := 120;
  EVALUATIONS_STUCK_CASE_PENDING_STALE_SECONDS := 120;
  CHANNELS_MAX_INBOUND_BODY_BYTES := 256 * 1024;
  CHANNELS_MAX_MESSAGE_BODY_LENGTH := 20000;
  CHANNELS_SIGNATURE_MAX_PAST_SKEW_SECONDS := 300;
  CHANNELS_SIGNATURE_MAX_FUTURE_SKEW_SECONDS := 60;
  CHANNELS_CHAT_SESSION_TTL_SECONDS := 60 * 60 * 24;
  CHANNELS_INBOUND_SWEEP_BATCH_SIZE := 100;
  CHANNELS_INBOUND_SWEEP_STALE_SECONDS := 120;
  CHANNEL_WEBCHAT_MESSAGE_HISTORY_LIMIT := 200;
|}%Z.

(** ** Time: microseconds since the epoch. *)

Definition seconds (n : Z) : Z := (n * 1000000)%Z.

(** [delta.total_seconds()] of a difference of instants, in binary64. *)
Definition total_seconds (micros : Z) : spec_float :=
  match float_of_Z micros, float_of_Z 1000000 with
  | Some x, Some d => SFdiv 53 1024 x d
  | _, _ => S754_nan
  end.

(** [int(f)]: truncation towards zero. *)
Definition float_trunc (f : spec_float) : Z :=
  match f with
  | S754_finite s m e =>
      let v := if (0 <=? e)%Z then (Z.pos m * 2 ^ e)%Z else (Z.pos m / 2 ^ (- e))%Z in
      if s then (- v)%Z else v
  | _ => 0%Z
  end.

(** [int(delta.total_seconds() * 1000)]. *)
Definition millis (micros : Z) : Z :=
  match float_of_Z 1000 with
  | Some k => float_trunc (SFmul 53 1024 (total_seconds micros) k)
  | None => 0%Z
  end.

(** [datetime.fromisoformat]'s result: an instant (the local time of a naive
    one), and whether it carries an offset. *)
Record datetime := { dt_micros : Z; dt_aware : bool }.

(** ** Standard-Library functions kept abstract

    [float(s)] on a string, [datetime.fromisoformat] and [str]/[repr] of a JSON
    value: the theorems hold whatever their grammar. *)
Class PyLib := {
  float_of_str : string → option spec_float;
  fromisoformat : string → option datetime;
  py_str : json → string;
  py_repr : json → string;
}.

(** A concrete instance for the witnesses: integer-free texts only. *)
Definition trivial_pylib : PyLib := {|
  float_of_str _ := None;
  fromisoformat _ := None;
  py_str v := match v with JStr s => s | _ => "" end;
  py_repr v := match v with JStr s => "'" +:+ s +:+ "'" | _ => "" end;
|}.

(** ** Risk levels and side effects ([tools/contracts.py]) *)

Module RiskLevel.
Inductive t := READ_ONLY | LOW | MEDIUM | HIGH | CRITICAL.
#[global] Instance eq_dec : EqDecision t. Proof. solve_decision. Defined.
Definition value (l : t) : string :=
  match l with
  | READ_ONLY => "read_only" | LOW => "low" | MEDIUM => "medium"
  | HIGH => "high" | CRITICAL => "critical"
  end.
(** [RiskLevel.values]: declaration order. *)
Definition values : list t := [READ_ONLY; LOW; MEDIUM; HIGH; CRITICAL].
Definition of_value (s : string) : option t :=
  find (λ l, String.eqb (value l) s) values.
End RiskLevel.

Module SideEffectType.
Inductive t := NONE | READ | INTERNAL_WRITE | EXTERNAL_WRITE | FINANCIAL | DESTRUCTIVE.
#[global] Instance eq_dec : EqDecision t. Proof. solve_decision. Defined.
Definition value (k : t) : string :=
  match k with
  | NONE => "none" | READ => "read" | INTERNAL_WRITE => "internal_write"
  | EXTERNAL_WRITE => "external_write" | FINANCIAL => "financial"
  | DESTRUCTIVE => "destructive"
  end.
Definition values : list t :=
  [NONE; READ; INTERNAL_WRITE; EXTERNAL_WRITE; FINANCIAL; DESTRUCTIVE].
End SideEffectType.

Module IdempotencyMode.
Inductive t := NONE | SAFE | REQUIRED.
#[global] Instance eq_dec : EqDecision t. Proof. solve_decision. Defined.
End IdempotencyMode.

(** ** Workspace roles ([workspaces/models.py]) *)

Module WorkspaceRole.
Inductive t := OWNER | ADMIN | SUPPORT_MANAGER | SUPPORT_AGENT | VIEWER.
#[global] Instance eq_dec : EqDecision t. Proof. solve_decision. Defined.
Definition value (r : t) : string :=
  match r with
  | OWNER => "owner" | ADMIN => "admin" | SUPPORT_MANAGER => "support_manager"
  | SUPPORT_AGENT => "support_agent" | VIEWER => "viewer"
  end.
End WorkspaceRole.

(** ** Policy effects ([policies/models.py]) *)

Module PolicyEffect.
Inductive t := ALLOW | DENY | REQUIRE_APPROVAL.
#[global] Instance eq_dec : EqDecision t. Proof. solve_decision. Defined.
(** How restrictive an effect is. *)
Definition severity (e : t) : nat :=
  match e with ALLOW => 0 | REQUIRE_APPROVAL => 1 | DENY => 2 end.
End PolicyEffect.

Definition POLICY_EFFECT_PRECEDENCE : list PolicyEffect.t :=
  [PolicyEffect.DENY; PolicyEffect.REQUIRE_APPROVAL; PolicyEffect.ALLOW].
