(* ===== verification/Policy.v ===== *)
(** * Deterministic risk assessment and policy evaluation

    [policies/risk.py], [policies/predicates.py], [policies/defaults.py] and
    [policies/evaluator.py]: from a tool action and the rules of the active
    policy version to one decision.  The Python exceptions are values:
    [PolicyEvaluationFailed] is the domain's own error, [Crash] any other. *)

From stdpp Require Import base strings list sorting.
From Stdlib Require Import ZArith SpecFloat Permutation.
From S2P Require Import Prelude Json Domain.

Section Policy.
Context `{Settings} `{PyLib}.

(** ** Risk assessment ([policies/risk.py]) *)

Record RiskOutcome := {
  base_risk : RiskLevel.t;
  effective_risk : RiskLevel.t;
  side_effect_type : SideEffectType.t;
  factors : list (string * json);
}.

(** [_RISK_ORDER]. *)
Definition risk_order (l : RiskLevel.t) : nat :=
  match l with
  | RiskLevel.READ_ONLY => 0 | RiskLevel.LOW => 1 | RiskLevel.MEDIUM => 2
  | RiskLevel.HIGH => 3 | RiskLevel.CRITICAL => 4
  end.

Definition bump (level : RiskLevel.t) : RiskLevel.t :=
  let order := risk_order level in
  if (length RiskLevel.values <=? order + 1)%nat then level
  else nth (order + 1) RiskLevel.values level.

Definition assess_risk (tool_key : string) (base : RiskLevel.t)
    (kind : SideEffectType.t) (arguments : list (string * json)) : RiskOutcome :=
  let financial := bool_decide (kind = SideEffectType.FINANCIAL) in
  let factors0 :=
    [("base_risk", JStr (RiskLevel.value base));
     ("side_effect_type", JStr (SideEffectType.value kind));
     ("financial", JBool financial);
     ("external_write",
       JBool (bool_decide (kind = SideEffectType.EXTERNAL_WRITE) || financial))] in
  let amount_minor := args_get arguments "amount_minor" in
  let factors1 :=
    match as_number amount_minor with
    | Some _ => factors0 ++ [("amount_minor", amount_minor)]
    | None => factors0
    end in
  let factors2 :=
    match args_get arguments "currency" with
    | JStr currency => factors1 ++ [("currency", JStr (str_upper currency))]
    | _ => factors1
    end in
  let bumped :=
    financial &&
    match as_number amount_minor with
    | Some x => num_ge_Z x POLICIES_RISK_BUMP_FINANCIAL_AMOUNT_MINOR
    | None => false
    end in
  {| base_risk := base;
     effective_risk := if bumped then bump base else base;
     side_effect_type := kind;
     factors := if bumped then factors2 ++ [("risk_bumped", JBool true)] else factors2 |}.

(** ** The predicate registry ([policies/predicates.py]) *)

Record PredicateContext := {
  ctx_tool_key : string;
  ctx_risk_level : RiskLevel.t;
  ctx_side_effect_type : SideEffectType.t;
  ctx_arguments : list (string * json);
}.

Inductive res (A : Type) :=
  | Ok (a : A)
  | PolicyEvaluationFailed (safe_message : string)
  | Crash.
Arguments Ok {A} a.
Arguments PolicyEvaluationFailed {A} safe_message.
Arguments Crash {A}.

Definition Predicate := PredicateContext → list (string * json) → res bool.

(** [float(v)] on a rule parameter. *)
Definition to_float (v : json) : option spec_float :=
  match v with
  | JBool b => float_of_Z (if b then 1 else 0)
  | JInt z => float_of_Z z
  | JFloat f => Some f
  | JStr s => float_of_str s
  | _ => None
  end.

(** A missing parameter is a [KeyError]. *)
Definition param (params : list (string * json)) (k : string) (f : json → res bool)
    : res bool :=
  match obj_get k params with Some v => f v | None => Crash end.

Definition tool_is : Predicate := λ context params,
  param params "value" (λ v, Ok (json_eq (JStr (ctx_tool_key context)) v)).

Definition risk_level_at_least : Predicate := λ context params,
  param params "value" (λ threshold,
    match threshold with
    | JList _ | JObj _ => Crash
    | _ =>
        match match threshold with JStr s => RiskLevel.of_value s | _ => None end with
        | Some level =>
            Ok (risk_order level <=? risk_order (ctx_risk_level context))%nat
        | None => PolicyEvaluationFailed
            ("Unknown risk level in rule config: " +:+ py_repr threshold +:+ ".")
        end
    end).

Definition side_effect_type_is : Predicate := λ context params,
  param params "value" (λ v,
    Ok (json_eq (JStr (SideEffectType.value (ctx_side_effect_type context))) v)).

(** [_numeric_argument]; the outer option is the [OverflowError]. *)
Definition numeric_argument (context : PredicateContext) (field : string)
    : option (option spec_float) :=
  match as_number (args_get (ctx_arguments context) field) with
  | None => Some None
  | Some (PFloat f) => Some (Some f)
  | Some (PInt z) => Some <$> float_of_Z z
  end.

Definition amount_minor_cmp (cmp : spec_float → spec_float → bool) : Predicate :=
  λ context params,
  match numeric_argument context "amount_minor" with
  | None => Crash
  | Some None => Ok false
  | Some (Some value) =>
      param params "value" (λ v,
        match to_float v with Some t => Ok (cmp value t) | None => Crash end)
  end.

Definition amount_minor_gt : Predicate := amount_minor_cmp (λ x t, SFltb t x).
Definition amount_minor_gte : Predicate := amount_minor_cmp (λ x t, SFleb t x).
Definition amount_minor_lt : Predicate := amount_minor_cmp SFltb.
Definition amount_minor_lte : Predicate := amount_minor_cmp SFleb.

Definition currency_is : Predicate := λ context params,
  match args_get (ctx_arguments context) "currency" with
  | JStr currency =>
      param params "value" (λ v,
        let s := match v with JStr s => s | _ => py_str v end in
        Ok (String.eqb (str_upper currency) (str_upper s)))
  | _ => Ok false
  end.

(** [context.arguments.get(params["field"])]: an unhashable key is a
    [TypeError], a key that is not a string is absent. *)
Definition argument_named (context : PredicateContext) (field : json) : option json :=
  match field with
  | JList _ | JObj _ => None
  | JStr k => Some (args_get (ctx_arguments context) k)
  | _ => Some JNull
  end.

Definition argument_equals : Predicate := λ context params,
  param params "field" (λ field,
    match argument_named context field with
    | None => Crash
    | Some x => param params "value" (λ v, Ok (json_eq x v))
    end).

Definition argument_in_allowed_values : Predicate := λ context params,
  param params "field" (λ field,
    match argument_named context field with
    | None => Crash
    | Some x => param params "values" (λ vs,
        match json_in x vs with Some b => Ok b | None => Crash end)
    end).

(** [(end - start).total_seconds() / 60], in binary64. *)
Definition duration_minutes (micros : Z) : option spec_float :=
  match float_of_Z micros, float_of_Z 1000000, float_of_Z 60 with
  | Some x, Some d, Some m =>
      Some (SFdiv 53 1024 (SFdiv 53 1024 x d) m)
  | _, _, _ => None
  end.

Definition booking_duration_minutes_gt : Predicate := λ context params,
  match args_get (ctx_arguments context) "start", args_get (ctx_arguments context) "end" with
  | JStr start_raw, JStr end_raw =>
      match fromisoformat start_raw, fromisoformat end_raw with
      | Some start, Some end_ =>
          if Bool.eqb (dt_aware start) (dt_aware end_) then
            match duration_minutes (dt_micros end_ - dt_micros start) with
            | Some d => param params "value" (λ v,
                match to_float v with Some t => Ok (SFltb t d) | None => Crash end)
            | None => Crash
            end
          else Crash
      | _, _ => Ok false
      end
  | _, _ => Ok false
  end.

(** [_REGISTRY]. *)
Definition REGISTRY : list (string * Predicate) :=
  [("tool_is", tool_is);
   ("risk_level_at_least", risk_level_at_least);
   ("side_effect_type_is", side_effect_type_is);
   ("amount_minor_gt", amount_minor_gt);
   ("amount_minor_gte", amount_minor_gte);
   ("amount_minor_lt", amount_minor_lt);
   ("amount_minor_lte", amount_minor_lte);
   ("currency_is", currency_is);
   ("argument_equals", argument_equals);
   ("argument_in_allowed_values", argument_in_allowed_values);
   ("booking_duration_minutes_gt", booking_duration_minutes_gt)].

Definition find_predicate (name : string) : option Predicate :=
  snd <$> find (λ kv, String.eqb kv.1 name) REGISTRY.

Definition known_predicate_names : list string := map fst REGISTRY.

(** An unknown name, a malformed parameter and a predicate's own refusal all
    come out as [PolicyEvaluationFailed]; an unhashable name escapes. *)
Definition evaluate_predicate (name : json) (context : PredicateContext)
    (params : list (string * json)) : res bool :=
  match name with
  | JList _ | JObj _ => Crash
  | _ =>
      match match name with JStr n => find_predicate n | _ => None end with
      | None => PolicyEvaluationFailed ("Unknown predicate: " +:+ py_repr name +:+ ".")
      | Some fn =>
          match fn context params with
          | Crash => PolicyEvaluationFailed
              ("Predicate " +:+ py_repr name +:+ " received invalid parameters.")
          | r => r
          end
      end
  end.

(** ** The system default ([policies/defaults.py]) *)

Record DefaultDecision := {
  dd_decision : PolicyEffect.t;
  dd_decision_code : string;
  dd_safe_reason : string;
}.

Definition required_role_for_risk (effective : RiskLevel.t) : string :=
  match effective with
  | RiskLevel.MEDIUM => WorkspaceRole.value WorkspaceRole.SUPPORT_MANAGER
  | RiskLevel.HIGH => WorkspaceRole.value WorkspaceRole.ADMIN
  | RiskLevel.CRITICAL => WorkspaceRole.value WorkspaceRole.OWNER
  | _ => WorkspaceRole.value WorkspaceRole.OWNER
  end.

Definition refund_default (arguments : list (string * json)) : DefaultDecision :=
  let unconfigured :=
    {| dd_decision := PolicyEffect.REQUIRE_APPROVAL;
       dd_decision_code := "system_default_refund_unconfigured_currency";
       dd_safe_reason :=
         "Refund currency has no configured automatic threshold; approval required." |} in
  match as_number (args_get arguments "amount_minor"), args_get arguments "currency" with
  | Some amount_minor, JStr currency =>
      if negb (String.eqb (str_upper currency) "USD") then unconfigured
      else if num_le_Z amount_minor POLICIES_DEFAULT_REFUND_AUTO_ALLOW_MAX_MINOR then
        {| dd_decision := PolicyEffect.ALLOW;
           dd_decision_code := "system_default_refund_below_auto_threshold";
           dd_safe_reason := "Refund is within the automatic refund threshold." |}
      else if num_le_Z amount_minor POLICIES_DEFAULT_REFUND_APPROVAL_MAX_MINOR then
        {| dd_decision := PolicyEffect.REQUIRE_APPROVAL;
           dd_decision_code := "system_default_refund_requires_approval";
           dd_safe_reason :=
             "Refund exceeds the automatic refund threshold and requires approval." |}
      else
        {| dd_decision := PolicyEffect.DENY;
           dd_decision_code := "system_default_refund_exceeds_maximum";
           dd_safe_reason :=
             "Refund exceeds the maximum amount workspace policy allows." |}
  | _, _ => unconfigured
  end.

Definition evaluate_system_default (tool_key : string) (base effective : RiskLevel.t)
    (kind : SideEffectType.t) (arguments : list (string * json)) : DefaultDecision :=
  if bool_decide (kind = SideEffectType.READ) || bool_decide (base = RiskLevel.READ_ONLY) then
    {| dd_decision := PolicyEffect.ALLOW;
       dd_decision_code := "system_default_read_only_allow";
       dd_safe_reason := "Read-only lookup permitted by default workspace policy." |}
  else if String.eqb tool_key "payment.refund" then refund_default arguments
  else match kind with
  | SideEffectType.FINANCIAL =>
      {| dd_decision := PolicyEffect.REQUIRE_APPROVAL;
         dd_decision_code := "system_default_financial_requires_approval";
         dd_safe_reason :=
           "Financial action requires manager approval by default workspace policy." |}
  | SideEffectType.EXTERNAL_WRITE =>
      {| dd_decision := PolicyEffect.REQUIRE_APPROVAL;
         dd_decision_code := "system_default_external_write_requires_approval";
         dd_safe_reason :=
           "This action affects an external system and requires approval by default." |}
  | SideEffectType.DESTRUCTIVE =>
      {| dd_decision := PolicyEffect.REQUIRE_APPROVAL;
         dd_decision_code := "system_default_destructive_requires_approval";
         dd_safe_reason := "Destructive actions require approval by default workspace policy." |}
  | SideEffectType.INTERNAL_WRITE =>
      {| dd_decision := PolicyEffect.ALLOW;
         dd_decision_code := "system_default_internal_write_allow";
         dd_safe_reason := "Internal-only write permitted by default workspace policy." |}
  | _ =>
      if bool_decide (effective = RiskLevel.HIGH) || bool_decide (effective = RiskLevel.CRITICAL) then
        {| dd_decision := PolicyEffect.REQUIRE_APPROVAL;
           dd_decision_code := "system_default_high_risk_requires_approval";
           dd_safe_reason := "High-risk action requires approval by default workspace policy." |}
      else
        {| dd_decision := PolicyEffect.ALLOW;
           dd_decision_code := "system_default_low_risk_allow";
           dd_safe_reason := "Low-risk action permitted by default workspace policy." |}
  end.

(** ** The evaluator ([policies/evaluator.py]) *)

(** A row of [PolicyRule]. *)
Record PolicyRule := {
  rule_id : N;
  rule_version : N;
  rule_name : string;
  rule_priority : N;
  rule_enabled : bool;
  rule_tool_key : string;
  rule_risk_levels : list string;
  rule_side_effect_types : list string;
  rule_condition_config : list (string * json);
  rule_effect : PolicyEffect.t;
  rule_required_role : string;
  rule_approval_ttl_seconds : option Z;
}.

Record PolicyDecision := {
  decision : PolicyEffect.t;
  decision_code : string;
  safe_reason : string;
  matched_rule_ids : list N;
  policy_version : option N;
  required_role : string;
  approval_ttl_seconds : Z;
}.

(** [x in l] for a list of strings. *)
Definition str_in (x : string) (l : list string) : bool := existsb (String.eqb x) l.

Lemma str_in_true s l : str_in s l = true ↔ s ∈ l.
Proof.
  unfold str_in. rewrite existsb_exists. split.
  - intros (x & Hx & ->%String.eqb_eq). by apply list_elem_of_In.
  - intros Hs. exists s. split; [by apply list_elem_of_In|apply String.eqb_refl].
Qed.

(** The members of the [all] list are evaluated in order and the first false
    one ends the loop: a malformed entry behind it is never looked at. *)
Fixpoint all_predicates (context : PredicateContext) (entries : list json) : res bool :=
  match entries with
  | [] => Ok true
  | JObj entry :: entries =>
      match obj_get "predicate" entry with
      | None => PolicyEvaluationFailed "Malformed rule condition configuration."
      | Some name =>
          let params := List.filter (λ kv, negb (String.eqb kv.1 "predicate")) entry in
          match evaluate_predicate name context params with
          | Ok true => all_predicates context entries
          | r => r
          end
      end
  | _ :: _ => PolicyEvaluationFailed "Malformed rule condition configuration."
  end.

Definition rule_applies (rule : PolicyRule) (context : PredicateContext) : res bool :=
  if negb (String.eqb (rule_tool_key rule) "")
     && negb (String.eqb (rule_tool_key rule) (ctx_tool_key context)) then Ok false
  else if negb (bool_decide (rule_risk_levels rule = []))
     && negb (str_in (RiskLevel.value (ctx_risk_level context)) (rule_risk_levels rule))
  then Ok false
  else if negb (bool_decide (rule_side_effect_types rule = []))
     && negb (str_in (SideEffectType.value (ctx_side_effect_type context))
                     (rule_side_effect_types rule))
  then Ok false
  else match default (JList []) (obj_get "all" (rule_condition_config rule)) with
  | JList predicates => all_predicates context predicates
  | _ => PolicyEvaluationFailed "Malformed rule condition configuration."
  end.

(** [for rule in rules: if _rule_applies(...): matched.append(rule)]. *)
Fixpoint matched_rules (context : PredicateContext) (rules : list PolicyRule)
    : res (list PolicyRule) :=
  match rules with
  | [] => Ok []
  | rule :: rules =>
      match rule_applies rule context with
      | Ok b =>
          match matched_rules context rules with
          | Ok matched => Ok (if b then rule :: matched else matched)
          | r => r
          end
      | PolicyEvaluationFailed m => PolicyEvaluationFailed m
      | Crash => Crash
      end
  end.

Definition safe_reason_for (effect : PolicyEffect.t) : string :=
  match effect with
  | PolicyEffect.DENY => "Action explicitly denied by workspace policy."
  | PolicyEffect.REQUIRE_APPROVAL => "Action requires approval under workspace policy."
  | PolicyEffect.ALLOW => "Action explicitly permitted by workspace policy."
  end.

(** The first rule that sets a positive time to live. *)
Definition first_ttl (rules : list PolicyRule) : option Z :=
  find (λ t, negb (t =? 0)%Z) (omap rule_approval_ttl_seconds rules).

Definition first_role (rules : list PolicyRule) : string :=
  default "" (find (λ r, negb (String.eqb r "")) (map rule_required_role rules)).

Definition finalize (d : PolicyEffect.t) (code reason : string) (ids : list N)
    (active_version : option N) (matched : list PolicyRule) (risk : RiskOutcome)
    : PolicyDecision :=
  let needs := bool_decide (d = PolicyEffect.REQUIRE_APPROVAL) in
  {| decision := d;
     decision_code := code;
     safe_reason := reason;
     matched_rule_ids := ids;
     policy_version := active_version;
     required_role :=
       if needs then str_or (first_role matched) (required_role_for_risk (effective_risk risk))
       else "";
     approval_ttl_seconds :=
       if needs then default POLICIES_DEFAULT_APPROVAL_TTL_SECONDS (first_ttl matched)
       else POLICIES_DEFAULT_APPROVAL_TTL_SECONDS |}.

(** [order_by("priority", "id")]. *)
Definition rule_le (r1 r2 : PolicyRule) : Prop :=
  (rule_priority r1 < rule_priority r2)%N ∨
  (rule_priority r1 = rule_priority r2 ∧ (rule_id r1 <= rule_id r2)%N).
#[export] Instance rule_le_dec r1 r2 : Decision (rule_le r1 r2).
Proof. unfold rule_le. apply _. Defined.

Definition order_rules : list PolicyRule → list PolicyRule := merge_sort rule_le.

(** The effect that takes precedence among the matched ones. *)
Definition winning_effect (matched : list PolicyRule) : option PolicyEffect.t :=
  find (λ e, existsb (λ r, bool_decide (rule_effect r = e)) matched)
       POLICY_EFFECT_PRECEDENCE.

Definition default_of (tool_key : string) (risk : RiskOutcome)
    (arguments : list (string * json)) : DefaultDecision :=
  evaluate_system_default tool_key (base_risk risk) (effective_risk risk)
    (side_effect_type risk) arguments.

(** [active_version] carries the version's id and its rule rows. *)
Definition evaluate_policy (tool_key : string) (risk : RiskOutcome)
    (arguments : list (string * json)) (active_version : option (N * list PolicyRule))
    : res PolicyDecision :=
  let context :=
    {| ctx_tool_key := tool_key; ctx_risk_level := effective_risk risk;
       ctx_side_effect_type := side_effect_type risk; ctx_arguments := arguments |} in
  match active_version with
  | None =>
      let d := default_of tool_key risk arguments in
      Ok (finalize (dd_decision d) (dd_decision_code d) (dd_safe_reason d) [] None [] risk)
  | Some (version, rows) =>
      let rules := order_rules (List.filter rule_enabled rows) in
      match matched_rules context rules with
      | Ok matched =>
          match winning_effect matched with
          | None =>
              let d := default_of tool_key risk arguments in
              Ok (finalize (dd_decision d)
                    ("no_matching_rule_fallback:" +:+ dd_decision_code d)
                    (dd_safe_reason d) [] (Some version) [] risk)
          | Some e =>
              let winning :=
                List.filter (λ r, bool_decide (rule_effect r = e)) matched in
              Ok (finalize e
                    ("rule_matched:" +:+ default "" (head (map rule_name winning)))
                    (safe_reason_for e) (map rule_id matched) (Some version) winning risk)
          end
      | PolicyEvaluationFailed m => PolicyEvaluationFailed m
      | Crash => Crash
      end
  end.

(** ** Rule sets *)

(** The context the predicates of one evaluation see. *)
Definition context_of (tool_key : string) (risk : RiskOutcome)
    (arguments : list (string * json)) : PredicateContext :=
  {| ctx_tool_key := tool_key; ctx_risk_level := effective_risk risk;
     ctx_side_effect_type := side_effect_type risk; ctx_arguments := arguments |}.

Definition is_ok {A} (r : res A) : bool := match r with Ok _ => true | _ => false end.
Definition evaluable (context : PredicateContext) (rule : PolicyRule) : bool :=
  is_ok (rule_applies rule context).
Definition applies (context : PredicateContext) (rule : PolicyRule) : bool :=
  match rule_applies rule context with Ok b => b | _ => false end.

Lemma matched_rules_ok context rules m :
  matched_rules context rules = Ok m ↔
  forallb (evaluable context) rules = true ∧ m = List.filter (applies context) rules.
Proof.
  revert m. induction rules as [|r rules IH]; intros m; simpl.
  { split; [by intros [= <-]|by intros [_ ->]]. }
  unfold evaluable at 1, applies at 1, is_ok.
  destruct (rule_applies r context) as [b| |]; [|split; [done|by intros []]..].
  destruct (matched_rules context rules) as [m'| |].
  - destruct (proj1 (IH m') eq_refl) as [Hall ->]. rewrite Hall; simpl.
    split; [intros [= <-]; split; [done|by destruct b]|].
    intros [_ ->]. by destruct b.
  - split; [done|]. intros [Hall _]. by pose proof (proj2 (IH _) (conj Hall eq_refl)).
  - split; [done|]. intros [Hall _]. by pose proof (proj2 (IH _) (conj Hall eq_refl)).
Qed.

Lemma order_rules_perm rules : order_rules rules ≡ₚ rules.
Proof. apply merge_sort_Permutation. Qed.

(** The rows an evaluation walks over, in its order. *)
Definition candidates (rows : list PolicyRule) : list PolicyRule :=
  order_rules (List.filter rule_enabled rows).

Lemma in_candidates rows r : In r (candidates rows) ↔ r ∈ rows ∧ rule_enabled r = true.
Proof.
  unfold candidates. rewrite <-list_elem_of_In, (order_rules_perm _), list_elem_of_In,
    filter_In, <-list_elem_of_In. tauto.
Qed.

Lemma existsb_effect e rules :
  existsb (λ r, bool_decide (rule_effect r = e)) rules = true ↔
  ∃ r, In r rules ∧ rule_effect r = e.
Proof. rewrite existsb_exists. by setoid_rewrite bool_decide_eq_true. Qed.

(** The winning effect is the most severe one among the matched rules. *)
Lemma winning_effect_some rules e :
  winning_effect rules = Some e →
  (∃ r, In r rules ∧ rule_effect r = e) ∧
  ∀ r, In r rules → (PolicyEffect.severity (rule_effect r) <= PolicyEffect.severity e)%nat.
Proof.
  intros Hw. unfold winning_effect in Hw. pose proof (find_some _ _ Hw) as [_ Hex].
  apply existsb_effect in Hex. split; [done|]. intros r Hr.
  assert (Hin : ∀ e', rule_effect r = e' →
            existsb (λ r, bool_decide (rule_effect r = e')) rules = true).
  { intros e' He. apply existsb_effect. eauto. }
  unfold POLICY_EFFECT_PRECEDENCE in Hw. simpl in Hw.
  destruct (rule_effect r) eqn:He; specialize (Hin _ eq_refl); rewrite ?Hin in Hw;
    repeat case_match; simplify_eq; simpl; lia.
Qed.

Lemma winning_effect_none rules : winning_effect rules = None ↔ rules = [].
Proof.
  split; [|by intros ->]. intros Hw. destruct rules as [|r rules]; [done|exfalso].
  assert (In (rule_effect r) POLICY_EFFECT_PRECEDENCE)
    by (destruct (rule_effect r); simpl; tauto).
  pose proof (find_none _ _ Hw _ H1) as Hn. simpl in Hn.
  by rewrite bool_decide_eq_true_2 in Hn.
Qed.

(** Two versions with the same rules stored in a different order are walked over
    in the same order: [(priority, id)] is a strict total order on rows with
    distinct ids. *)
#[local] Instance rule_le_trans : Transitive rule_le.
Proof. unfold rule_le. intros x y z. lia. Qed.
#[local] Instance rule_le_total : Total rule_le.
Proof. unfold rule_le. intros x y. lia. Qed.

Lemma order_rules_unique rows rows' :
  NoDup (rule_id <$> rows) → rows ≡ₚ rows' → order_rules rows = order_rules rows'.
Proof.
  intros Hnd Hp. apply (StronglySorted_unique_strong rule_le).
  - intros x y. rewrite !order_rules_perm, <-Hp. intros Hx Hy Hxy Hyx.
    assert (rule_id x = rule_id y) as Hid by (unfold rule_le in *; lia).
    apply list_elem_of_lookup in Hx as [i Hi], Hy as [j Hj].
    assert (i = j) as <-; [|by simplify_eq].
    eapply (NoDup_lookup (rule_id <$> rows)); [done|..];
      rewrite list_lookup_fmap, ?Hi, ?Hj; simpl; [done|by rewrite Hid].
  - apply (StronglySorted_merge_sort rule_le).
  - apply (StronglySorted_merge_sort rule_le).
  - by rewrite !order_rules_perm.
Qed.

Lemma filter_perm {A} (f : A → bool) l l' :
  l ≡ₚ l' → List.filter f l ≡ₚ List.filter f l'.
Proof.
  induction 1; simpl; repeat case_match; eauto using Permutation.
Qed.

Lemma filter_rule_ids_nodup f (rows : list PolicyRule) :
  NoDup (rule_id <$> rows) → NoDup (rule_id <$> List.filter f rows).
Proof.
  intros Hnd. induction rows as [|r rows IH]; [done|].
  apply NoDup_cons in Hnd as [Hr Hnd]. simpl.
  destruct (f r); [|by apply IH]. apply NoDup_cons. split; [|by apply IH].
  intros (x & Hx & Hin)%list_elem_of_fmap. apply Hr, list_elem_of_fmap.
  exists x. split; [done|]. apply list_elem_of_In in Hin.
  apply filter_In in Hin as [Hin _]. by apply list_elem_of_In.
Qed.

(** ** Decisions *)

(** C3. The decision of an active policy version: when every enabled rule can be
    evaluated, the decision lists exactly the enabled rules that apply; if there
    is one, the effect is that of one of them and no other matched rule is more
    severe (a deny wins over any approval or allow, whatever the priorities);
    if there is none, the effect is the system default's. *)
Theorem evaluate_policy_decides tool_key risk arguments version rows :
  (∀ r, r ∈ rows → rule_enabled r = true →
     evaluable (context_of tool_key risk arguments) r = true) →
  ∃ d, evaluate_policy tool_key risk arguments (Some (version, rows)) = Ok d ∧
    policy_version d = Some version ∧
    (∀ i, i ∈ matched_rule_ids d ↔
       ∃ r, r ∈ rows ∧ rule_enabled r = true ∧ rule_id r = i ∧
            applies (context_of tool_key risk arguments) r = true) ∧
    (matched_rule_ids d = [] →
       decision d = dd_decision (default_of tool_key risk arguments)) ∧
    (∀ r, r ∈ rows → rule_enabled r = true →
       applies (context_of tool_key risk arguments) r = true →
       (∃ r', r' ∈ rows ∧ rule_enabled r' = true ∧ rule_effect r' = decision d ∧
              applies (context_of tool_key risk arguments) r' = true) ∧
       (PolicyEffect.severity (rule_effect r) <= PolicyEffect.severity (decision d))%nat).
Proof.
  intros Hev. unfold evaluate_policy. fold (candidates rows).
  change (Build_PredicateContext _ _ _ _) with (context_of tool_key risk arguments).
  set (ctx := context_of tool_key risk arguments) in *.
  assert (matched_rules ctx (candidates rows) =
          Ok (List.filter (applies ctx) (candidates rows))) as ->.
  { apply matched_rules_ok. split; [|done].
    apply forallb_forall. intros r [? ?]%in_candidates. auto. }
  assert (Hin : ∀ r, In r (List.filter (applies ctx) (candidates rows)) ↔
                  r ∈ rows ∧ rule_enabled r = true ∧ applies ctx r = true).
  { intros r. rewrite filter_In, in_candidates. tauto. }
  destruct (winning_effect _) as [e|] eqn:Hw.
  - apply winning_effect_some in Hw as [(r0 & Hr0 & He) Hmax].
    eexists; split_and!; [done|done| | |].
    + intros i. simpl. rewrite list_elem_of_In, in_map_iff. setoid_rewrite Hin.
      split; intros (r & ?); exists r; tauto.
    + simpl. intros Hnil. destruct (List.filter _ _); [by destruct Hr0|done].
    + intros r Hr Hen Ha. simpl. split; [|by apply Hmax, Hin].
      apply Hin in Hr0 as (?&?&?). eauto 6.
  - apply winning_effect_none in Hw. eexists; split_and!; [done|done| | |]; simpl.
    + intros i. split; [by intros ?%elem_of_nil|]. intros (r & ? & ? & _ & ?).
      assert (In r []) as []. rewrite <-Hw. by apply Hin.
    + done.
    + intros r Hr Hen Ha. assert (In r []) as []. rewrite <-Hw. by apply Hin.
Qed.

(** C4. Evaluation fails closed: one enabled rule that cannot be evaluated (an
    unknown predicate, a malformed condition or parameter) is enough for the
    evaluation to return no decision at all, whatever the other rules say. *)
Theorem evaluate_policy_fails_closed tool_key risk arguments version rows r :
  r ∈ rows → rule_enabled r = true →
  evaluable (context_of tool_key risk arguments) r = false →
  is_ok (evaluate_policy tool_key risk arguments (Some (version, rows))) = false.
Proof.
  intros Hr Hen Hev. unfold evaluate_policy. fold (candidates rows).
  change (Build_PredicateContext _ _ _ _) with (context_of tool_key risk arguments).
  destruct (matched_rules _ _) as [m| |] eqn:Hm; [|done..].
  apply matched_rules_ok in Hm as [Hall _].
  rewrite forallb_forall in Hall. rewrite Hall in Hev; [done|by apply in_candidates].
Qed.

(** The decision, or the failure, does not depend on the order the rule rows
    are stored or fetched in. *)
Theorem evaluate_policy_order_independent tool_key risk arguments version rows rows' :
  NoDup (rule_id <$> rows) → rows ≡ₚ rows' →
  evaluate_policy tool_key risk arguments (Some (version, rows)) =
  evaluate_policy tool_key risk arguments (Some (version, rows')).
Proof.
  intros Hnd Hp. unfold evaluate_policy.
  rewrite (order_rules_unique (List.filter rule_enabled rows)
             (List.filter rule_enabled rows')); [done|..].
  - by apply filter_rule_ids_nodup.
  - by apply filter_perm.
Qed.

(** ** The system default *)

(** Exactly which actions the built-in policy lets run without a person:
    reads, internal writes, low-risk tools without side effects, and a refund in
    US dollars at or under the automatic threshold.  No financial, external or
    destructive action outside the refund band is among them. *)
Theorem system_default_allows tool_key base effective kind arguments :
  dd_decision (evaluate_system_default tool_key base effective kind arguments)
    = PolicyEffect.ALLOW ↔
  kind = SideEffectType.READ ∨ base = RiskLevel.READ_ONLY ∨
  (tool_key = "payment.refund" ∧ ∃ amount currency,
     as_number (args_get arguments "amount_minor") = Some amount ∧
     args_get arguments "currency" = JStr currency ∧ str_upper currency = "USD" ∧
     num_le_Z amount POLICIES_DEFAULT_REFUND_AUTO_ALLOW_MAX_MINOR = true) ∨
  (tool_key ≠ "payment.refund" ∧
     (kind = SideEffectType.INTERNAL_WRITE ∨
      kind = SideEffectType.NONE ∧ effective ≠ RiskLevel.HIGH ∧ effective ≠ RiskLevel.CRITICAL)).
Proof.
  unfold evaluate_system_default.
  destruct (decide (kind = SideEffectType.READ)) as [->|Hk]; [simpl; tauto|].
  destruct (decide (base = RiskLevel.READ_ONLY)) as [->|Hb].
  { rewrite (bool_decide_eq_true_2 (RiskLevel.READ_ONLY = _)) by done.
    rewrite orb_true_r. simpl. tauto. }
  rewrite !bool_decide_eq_false_2 by done. simpl.
  destruct (String.eqb_spec tool_key "payment.refund") as [->|Ht].
  - unfold refund_default.
    destruct (as_number _) as [x|] eqn:Hx;
      [destruct (args_get arguments "currency") as [| | | |c| |] eqn:Hc;
        try (destruct (String.eqb_spec (str_upper c) "USD") as [Hu|Hu])|]; simpl.
    all: try by split; [done|intros [?|[?|[(_&?&?&?&?&?&?)|[??]]]]; simplify_eq].
    destruct (num_le_Z x POLICIES_DEFAULT_REFUND_AUTO_ALLOW_MAX_MINOR) eqn:Hle; simpl.
    { split; [|done]. intros _. do 2 right. left. eauto 8. }
    destruct (num_le_Z x POLICIES_DEFAULT_REFUND_APPROVAL_MAX_MINOR); simpl;
      (split; [done|intros [?|[?|[(_&?&?&?&?&?&?)|[??]]]]; simplify_eq; congruence]).
  - split.
    + intros He. do 3 right. split; [done|].
      destruct kind, effective; simpl in *; simplify_eq; auto.
    + intros [?|[?|[[??]|[? [->|(->&?&?)]]]]]; simplify_eq; [done|].
      by destruct effective.
Qed.

(** The default refund bands, for an amount in whole minor units. *)
Definition refund_effect (amount : Z) : PolicyEffect.t :=
  if (amount <=? POLICIES_DEFAULT_REFUND_AUTO_ALLOW_MAX_MINOR)%Z then PolicyEffect.ALLOW
  else if (amount <=? POLICIES_DEFAULT_REFUND_APPROVAL_MAX_MINOR)%Z
  then PolicyEffect.REQUIRE_APPROVAL else PolicyEffect.DENY.

Lemma refund_effect_mono a b :
  (a <= b)%Z →
  (PolicyEffect.severity (refund_effect a) <= PolicyEffect.severity (refund_effect b))%nat.
Proof. intros Hab. unfold refund_effect. repeat case_match; simpl; lia. Qed.

Lemma num_le_Z_int a t : num_le_Z (PInt a) t = (a <=? t)%Z.
Proof. unfold num_le_Z, Z.leb. simpl. by destruct (a ?= t)%Z. Qed.
Lemma num_ge_Z_int a t : num_ge_Z (PInt a) t = (t <=? a)%Z.
Proof.
  unfold num_ge_Z, num_cmp_Z, Z.leb. rewrite (Z.compare_antisym a t).
  by destruct (a ?= t)%Z.
Qed.

(** A refund in a workspace without an active policy: the decision follows
    the three bands, so a larger refund is never treated more leniently than a
    smaller one, and a refund above the approval maximum is denied outright. *)
Theorem refund_default_monotone base a b currency rest :
  base ≠ RiskLevel.READ_ONLY → str_upper currency = "USD" →
  args_get rest "currency" = JStr currency → (a <= b)%Z →
  let decide_refund amount :=
    let arguments := ("amount_minor", JInt amount) :: rest in
    evaluate_policy "payment.refund"
      (assess_risk "payment.refund" base SideEffectType.FINANCIAL arguments) arguments None in
  ∃ da db, decide_refund a = Ok da ∧ decide_refund b = Ok db ∧
    decision da = refund_effect a ∧ decision db = refund_effect b ∧
    (PolicyEffect.severity (decision da) <= PolicyEffect.severity (decision db))%nat.
Proof.
  intros Hb Hu Hc Hab decide_refund.
  assert (Hd : ∀ z, ∃ d, decide_refund z = Ok d ∧ decision d = refund_effect z).
  { intros z. unfold decide_refund, evaluate_policy, default_of, evaluate_system_default. simpl.
    rewrite (bool_decide_eq_false_2 (base = _)) by done.
    eexists; split; [done|]. simpl. unfold refund_default, args_get in *. simpl.
    rewrite Hc, Hu, !num_le_Z_int. unfold refund_effect. by repeat case_match. }
  destruct (Hd a) as (da & ? & Ha), (Hd b) as (db & ? & Hb').
  exists da, db. split_and!; [done..|]. rewrite Ha, Hb'. by apply refund_effect_mono.
Qed.

(** Assessment only ever raises a tool's risk, by at most one tier, and
    exactly for a financial action whose amount reaches the bump threshold (a
    critical one stays critical). *)
Theorem assess_risk_bump tool_key base kind arguments :
  let risk := assess_risk tool_key base kind arguments in
  let bumped :=
    kind = SideEffectType.FINANCIAL ∧
    ∃ x, as_number (args_get arguments "amount_minor") = Some x ∧
         num_ge_Z x POLICIES_RISK_BUMP_FINANCIAL_AMOUNT_MINOR = true in
  base_risk risk = base ∧ side_effect_type risk = kind ∧
  (risk_order base <= risk_order (effective_risk risk) <= S (risk_order base))%nat ∧
  (bumped → risk_order (effective_risk risk) = Nat.min 4 (S (risk_order base))) ∧
  (effective_risk risk ≠ base → bumped).
Proof.
  intros risk bumped. unfold risk, assess_risk, bumped. simpl.
  destruct (decide (kind = SideEffectType.FINANCIAL)) as [->|Hk].
  - rewrite bool_decide_eq_true_2 by done. simpl.
    destruct (as_number _) as [x|] eqn:Hx; [destruct (num_ge_Z x _) eqn:Hge|].
    + split_and!; try done; try (by destruct base; simpl; lia); eauto.
    + split_and!; try done; try (simpl; lia). intros (_&y&[= <-]&?). congruence.
    + split_and!; try done; try (simpl; lia). by intros (_&y&?&?).
  - rewrite bool_decide_eq_false_2 by done. simpl.
    split_and!; [done..|lia|lia| |done]. by intros [].
Qed.

(** ** The approver role and the time to live *)

Lemma required_role_nonempty l : required_role_for_risk l ≠ "".
Proof. by destruct l. Qed.

Lemma finalize_ttl d code reason ids active matched risk :
  POLICIES_DEFAULT_APPROVAL_TTL_SECONDS ≠ 0%Z →
  approval_ttl_seconds (finalize d code reason ids active matched risk) ≠ 0%Z.
Proof.
  intros Httl. simpl. case_bool_decide; [|done]. unfold first_ttl.
  destruct (find _ _) as [t|] eqn:Hf; [|done]. simpl.
  apply find_some in Hf as [_ Hf]. apply negb_true_iff, Z.eqb_neq in Hf. done.
Qed.

Lemma finalize_role_empty d code reason ids active matched risk :
  let r := finalize d code reason ids active matched risk in
  required_role r = "" ↔ decision r ≠ PolicyEffect.REQUIRE_APPROVAL.
Proof.
  simpl. case_bool_decide as Hd; [|done].
  split; [|done]. unfold str_or.
  destruct (String.eqb_spec (first_role matched) ""); [|done].
  intros H'. by apply required_role_nonempty in H'.
Qed.

Lemma finalize_role d code reason ids active matched risk :
  let r := finalize d code reason ids active matched risk in
  decision r = PolicyEffect.REQUIRE_APPROVAL →
  required_role r = required_role_for_risk (effective_risk risk) ∨
  ∃ rule, In rule matched ∧ rule_required_role rule = required_role r.
Proof.
  simpl. intros ->. rewrite bool_decide_eq_true_2 by done. unfold str_or, first_role.
  destruct (find _ _) as [s|] eqn:Hf; simpl; [|by left].
  apply find_some in Hf as [Hin Hs]. apply negb_true_iff in Hs. rewrite Hs.
  apply in_map_iff in Hin as (rule & ? & ?). right. eauto.
Qed.

(** Whatever the evaluation decides, the decision is complete: an action that
    needs approval names an approver role (one set by a rule of the winning
    effect, else the tier of its risk) and a non-zero time to live, and an action
    that needs none names no role. *)
Theorem evaluate_policy_role_and_ttl tool_key risk arguments active d :
  POLICIES_DEFAULT_APPROVAL_TTL_SECONDS ≠ 0%Z →
  evaluate_policy tool_key risk arguments active = Ok d →
  approval_ttl_seconds d ≠ 0%Z ∧
  (required_role d = "" ↔ decision d ≠ PolicyEffect.REQUIRE_APPROVAL) ∧
  (decision d = PolicyEffect.REQUIRE_APPROVAL →
     required_role d = required_role_for_risk (effective_risk risk) ∨
     ∃ v rows r, active = Some (v, rows) ∧ r ∈ rows ∧ rule_enabled r = true ∧
       rule_effect r = PolicyEffect.REQUIRE_APPROVAL ∧ rule_required_role r = required_role d).
Proof.
  intros Httl. unfold evaluate_policy.
  destruct active as [[v rows]|]; [|intros [= <-]; split_and!].
  - fold (candidates rows). destruct (matched_rules _ _) as [m| |] eqn:Hm; [|done..].
    apply matched_rules_ok in Hm as [_ ->].
    destruct (winning_effect _) as [e|]; intros [= <-]; split_and!;
      try apply finalize_ttl; try apply finalize_role_empty; try done.
    all: intros Hd; destruct (finalize_role _ _ _ _ _ _ _ Hd) as [?|(r & Hr & ?)]; [by left|].
    + right. apply filter_In in Hr as [Hr He].
      apply filter_In in Hr as [Hr _]. apply in_candidates in Hr as [??].
      apply bool_decide_eq_true in He. exists v, rows, r. by rewrite He.
    + by destruct Hr.
  - by apply finalize_ttl.
  - apply finalize_role_empty.
  - intros Hd. destruct (finalize_role _ _ _ _ _ _ _ Hd) as [?|(r & [] & ?)]. by left.
Qed.

End Policy.
Arguments Ok {A} a.
Arguments PolicyEvaluationFailed {A} safe_message.
Arguments Crash {A}.

(** ** Concrete instances *)

Module PolicyExamples.
#[local] Existing Instance default_settings.
#[local] Existing Instance trivial_pylib.

Definition rule (id prio : N) (effect : PolicyEffect.t) (conditions : list json)
    : PolicyRule :=
  {| rule_id := id; rule_version := 1; rule_name := "r"; rule_priority := prio;
     rule_enabled := true; rule_tool_key := "payment.refund"; rule_risk_levels := [];
     rule_side_effect_types := []; rule_condition_config := [("all", JList conditions)];
     rule_effect := effect; rule_required_role := ""; rule_approval_ttl_seconds := None |}.

Definition refund_args (amount : Z) : list (string * json) :=
  [("amount_minor", JInt amount); ("currency", JStr "usd")].
Definition refund_risk (amount : Z) : RiskOutcome :=
  assess_risk "payment.refund" RiskLevel.MEDIUM SideEffectType.FINANCIAL (refund_args amount).

Definition over_1000 : json :=
  JObj [("predicate", JStr "amount_minor_gt"); ("value", JInt 1000)].
Definition unknown : json := JObj [("predicate", JStr "no_such_predicate")].

(** An allow of high priority and a conditional deny of low priority. *)
Definition allow_then_deny : list PolicyRule :=
  [rule 1 1 PolicyEffect.ALLOW []; rule 2 900 PolicyEffect.DENY [over_1000]].
Definition one_approval : list PolicyRule :=
  [rule 1 1 PolicyEffect.REQUIRE_APPROVAL []].
Definition broken : list PolicyRule :=
  [rule 1 1 PolicyEffect.ALLOW []; rule 2 2 PolicyEffect.ALLOW [unknown]].

Example deny_wins :
  decision <$> match evaluate_policy "payment.refund" (refund_risk 2000) (refund_args 2000)
                       (Some (1%N, allow_then_deny)) with Ok d => Some d | _ => None end
  = Some PolicyEffect.DENY.
Proof. vm_compute. reflexivity. Qed.

Example below_condition_allows :
  decision <$> match evaluate_policy "payment.refund" (refund_risk 900) (refund_args 900)
                       (Some (1%N, allow_then_deny)) with Ok d => Some d | _ => None end
  = Some PolicyEffect.ALLOW.
Proof. vm_compute. reflexivity. Qed.

Lemma evaluate_policy_decides_witness :
  ∃ d, evaluate_policy "payment.refund" (refund_risk 2000) (refund_args 2000)
         (Some (1%N, allow_then_deny)) = Ok d ∧
       (2 <= PolicyEffect.severity (decision d))%nat.
Proof.
  destruct (evaluate_policy_decides "payment.refund" (refund_risk 2000) (refund_args 2000)
              1%N allow_then_deny) as (d & Hd & _ & _ & _ & Hmax).
  - intros r [->|[->|[]%elem_of_nil]%elem_of_cons]%elem_of_cons _; reflexivity.
  - exists d. split; [exact Hd|].
    apply (Hmax (rule 2 900 PolicyEffect.DENY [over_1000])); [|reflexivity..].
    right. left.
Defined.

Lemma evaluate_policy_fails_closed_witness :
  is_ok (evaluate_policy "payment.refund" (refund_risk 900) (refund_args 900)
           (Some (1%N, broken))) = false.
Proof.
  apply (evaluate_policy_fails_closed _ _ _ _ _ (rule 2 2 PolicyEffect.ALLOW [unknown]));
    [right; left|reflexivity..].
Defined.

Lemma evaluate_policy_order_independent_witness :
  evaluate_policy "payment.refund" (refund_risk 2000) (refund_args 2000)
    (Some (1%N, allow_then_deny)) =
  evaluate_policy "payment.refund" (refund_risk 2000) (refund_args 2000)
    (Some (1%N, [rule 2 900 PolicyEffect.DENY [over_1000]; rule 1 1 PolicyEffect.ALLOW []])).
Proof.
  apply evaluate_policy_order_independent.
  - apply (bool_decide_unpack _). vm_compute. exact I.
  - apply Permutation_swap.
Defined.

Lemma refund_default_monotone_witness :
  refund_effect 4000 = PolicyEffect.ALLOW ∧ refund_effect 60000 = PolicyEffect.DENY ∧
  ∃ da db,
    evaluate_policy "payment.refund" (refund_risk 4000) (refund_args 4000) None = Ok da ∧
    evaluate_policy "payment.refund" (refund_risk 60000) (refund_args 60000) None = Ok db ∧
    decision da = refund_effect 4000 ∧ decision db = refund_effect 60000 ∧
    (PolicyEffect.severity (decision da) <= PolicyEffect.severity (decision db))%nat.
Proof.
  split; [reflexivity|split; [reflexivity|]].
  apply (refund_default_monotone RiskLevel.MEDIUM 4000 60000 "usd"
           [("currency", JStr "usd")]); [discriminate|reflexivity..|lia].
Defined.

Lemma evaluate_policy_role_and_ttl_witness :
  ∃ d, evaluate_policy "payment.refund" (refund_risk 900) (refund_args 900)
         (Some (1%N, one_approval)) = Ok d ∧
       approval_ttl_seconds d ≠ 0%Z ∧ required_role d ≠ "".
Proof.
  assert (H0 : POLICIES_DEFAULT_APPROVAL_TTL_SECONDS ≠ 0%Z) by (vm_compute; discriminate).
  eexists. split; [reflexivity|].
  destruct (evaluate_policy_role_and_ttl "payment.refund" (refund_risk 900) (refund_args 900)
              (Some (1%N, one_approval)) _ H0 eq_refl) as (Ht & Hr & _).
  split; [exact Ht|]. rewrite Hr. intros Hd. apply Hd. reflexivity.
Defined.
End PolicyExamples.
