(* ===== verification/Models.v ===== *)
(** * Rows

    The enumerations and the rows of the Django models ([*/models.py]) the
    services read and write, and the exceptions they raise.  A row keeps the
    columns some modelled operation reads or writes; a column that is only ever
    displayed is left out.  Primary and foreign keys are numbers. *)

From stdpp Require Import base strings list.
From Stdlib Require Import ZArith QArith SpecFloat.
From S2P Require Import Prelude Json Domain Policy.

(** ** Tools ([tools/models.py], [tools/errors.py]) *)

Module ToolDefinitionStatus.
Inductive t := ACTIVE | DISABLED.
#[global] Instance eq_dec : EqDecision t. Proof. solve_decision. Defined.
End ToolDefinitionStatus.

Module ToolExecutionStatus.
Inductive t :=
  | PENDING | RUNNING | SUCCEEDED | FAILED | TIMED_OUT | CANCELLED
  | WAITING_FOR_APPROVAL | BLOCKED_BY_POLICY | APPROVAL_TERMINATED.
#[global] Instance eq_dec : EqDecision t. Proof. solve_decision. Defined.
End ToolExecutionStatus.

Definition TOOL_EXECUTION_TERMINAL_STATUSES : list ToolExecutionStatus.t :=
  [ToolExecutionStatus.SUCCEEDED; ToolExecutionStatus.FAILED; ToolExecutionStatus.TIMED_OUT;
   ToolExecutionStatus.CANCELLED; ToolExecutionStatus.BLOCKED_BY_POLICY;
   ToolExecutionStatus.APPROVAL_TERMINATED].

(** The documented transition table (no service consults it). *)
Definition TOOL_EXECUTION_ALLOWED_TRANSITIONS (s : ToolExecutionStatus.t)
    : list ToolExecutionStatus.t :=
  match s with
  | ToolExecutionStatus.PENDING =>
      [ToolExecutionStatus.RUNNING; ToolExecutionStatus.CANCELLED;
       ToolExecutionStatus.WAITING_FOR_APPROVAL; ToolExecutionStatus.BLOCKED_BY_POLICY]
  | ToolExecutionStatus.RUNNING =>
      [ToolExecutionStatus.SUCCEEDED; ToolExecutionStatus.FAILED;
       ToolExecutionStatus.TIMED_OUT; ToolExecutionStatus.CANCELLED]
  | ToolExecutionStatus.WAITING_FOR_APPROVAL =>
      [ToolExecutionStatus.RUNNING; ToolExecutionStatus.APPROVAL_TERMINATED;
       ToolExecutionStatus.CANCELLED]
  | _ => []
  end.

(** [tools/contracts.py].  A pydantic model is the function that validates a
    document and dumps the result in JSON mode; times are in microseconds. *)
Record RetryPolicy := {
  max_retries : N;
  retryable_error_codes : list string;
  ambiguous_outcome_error_codes : list string;
}.

Record ToolSpec := {
  ts_key : string;
  ts_display_name : string;
  ts_description : string;
  (** [input_model.model_json_schema()] *)
  ts_input_schema : json;
  input_model : json → option (list (string * json));
  output_model : json → option json;
  ts_risk_level : RiskLevel.t;
  ts_side_effect_type : SideEffectType.t;
  default_timeout : Z;
  max_timeout : Z;
  retry_policy : RetryPolicy;
  ts_idempotency_mode : IdempotencyMode.t;
  input_sensitive_fields : list string;
  output_sensitive_fields : list string;
  ts_enabled : bool;
}.

Record ToolDefinition := {
  td_key : string;
  td_display_name : string;
  td_description : string;
  td_status : ToolDefinitionStatus.t;
  td_risk_level : RiskLevel.t;
  td_side_effect_type : SideEffectType.t;
  td_handler_key : string;
  td_default_timeout_seconds : N;
  td_max_timeout_seconds : N;
  td_max_retries : N;
  td_idempotency_mode : IdempotencyMode.t;
}.

Record ToolBinding := {
  tb_agent_version : N;
  tb_tool_definition : N;
  tb_enabled : bool;
  (** [configuration.get("timeout_seconds")]; [Some 0] is falsy like [None]. *)
  tb_timeout_seconds : option Z;
}.

Record ToolExecution := {
  te_workspace : N;
  te_agent_run : N;
  te_agent_version : N;
  te_tool_definition : N;
  te_tool_binding : N;
  te_status : ToolExecutionStatus.t;
  te_idempotency_key : string;
  te_arguments_fingerprint : string;
  te_arguments_redacted : json;
  te_result_redacted : json;
  te_attempt_count : N;
  te_started_at : option Z;
  te_completed_at : option Z;
  te_error_code : string;
  te_error_message_safe : string;
  te_duration_ms : option Z;
}.

(** ** Policies ([policies/models.py]; the rule rows are in [Policy]) *)

Module PolicyStatus.
Inductive t := DRAFT | ACTIVE | INACTIVE | ARCHIVED.
#[global] Instance eq_dec : EqDecision t. Proof. solve_decision. Defined.
End PolicyStatus.

Module PolicyVersionStatus.
Inductive t := DRAFT | ACTIVE | SUPERSEDED.
#[global] Instance eq_dec : EqDecision t. Proof. solve_decision. Defined.
End PolicyVersionStatus.

Definition MAX_RULES_PER_VERSION : nat := 50.
Definition MAX_SAFE_REASON_LENGTH : nat := 500.

Record PolicyRow := {
  pol_workspace : N;
  pol_name : string;
  pol_description : string;
  pol_status : PolicyStatus.t;
}.

Record PolicyVersion := {
  pv_policy : N;
  pv_version : N;
  pv_status : PolicyVersionStatus.t;
  pv_published_at : option Z;
}.

(** One per tool execution: these rows are keyed by the execution's id. *)
Record RiskAssessment := {
  ra_workspace : N;
  ra_tool_key : string;
  ra_base_risk : RiskLevel.t;
  ra_effective_risk : RiskLevel.t;
  ra_side_effect_type : SideEffectType.t;
  ra_factors : list (string * json);
}.

Record PolicyEvaluation := {
  pe_workspace : N;
  pe_policy_version : option N;
  pe_decision : PolicyEffect.t;
  pe_decision_code : string;
  pe_safe_reason : string;
  pe_matched_rule_ids : list N;
}.

(** ** Approvals ([approvals/models.py]) *)

Module ApprovalStatus.
Inductive t := PENDING | APPROVED | REJECTED | EXPIRED | CANCELLED.
#[global] Instance eq_dec : EqDecision t. Proof. solve_decision. Defined.
Definition value (s : t) : string :=
  match s with
  | PENDING => "pending" | APPROVED => "approved" | REJECTED => "rejected"
  | EXPIRED => "expired" | CANCELLED => "cancelled"
  end.
End ApprovalStatus.

Definition APPROVAL_TERMINAL_STATUSES : list ApprovalStatus.t :=
  [ApprovalStatus.APPROVED; ApprovalStatus.REJECTED; ApprovalStatus.EXPIRED;
   ApprovalStatus.CANCELLED].

Module ApprovalDecisionValue.
Inductive t := APPROVE | REJECT.
#[global] Instance eq_dec : EqDecision t. Proof. solve_decision. Defined.
Definition value (d : t) : string :=
  match d with APPROVE => "approve" | REJECT => "reject" end.
End ApprovalDecisionValue.

Record ApprovalRequest := {
  ar_workspace : N;
  ar_tool_execution : N;
  ar_status : ApprovalStatus.t;
  ar_requested_by : option N;
  ar_required_role : string;
  ar_summary : string;
  ar_safe_context : json;
  ar_arguments_fingerprint : string;
  ar_expires_at : Z;
  ar_resolved_at : option Z;
}.

(** One per approval request: keyed by the request's id. *)
Record ApprovalDecision := {
  ad_decision : ApprovalDecisionValue.t;
  ad_decided_by : N;
  ad_safe_comment : string;
}.

(** ** Agents ([agents/models.py]) *)

Module AgentRunStatus.
Inductive t :=
  | PENDING | RUNNING | SUCCEEDED | FAILED | CANCELLED | BUDGET_EXCEEDED
  | WAITING_FOR_APPROVAL | HANDED_OFF.
#[global] Instance eq_dec : EqDecision t. Proof. solve_decision. Defined.
(** The text of a status. *)
Definition value (s : t) : string :=
  match s with
  | PENDING => "pending" | RUNNING => "running" | SUCCEEDED => "succeeded"
  | FAILED => "failed" | CANCELLED => "cancelled" | BUDGET_EXCEEDED => "budget_exceeded"
  | WAITING_FOR_APPROVAL => "waiting_for_approval" | HANDED_OFF => "handed_off"
  end.
End AgentRunStatus.

Definition AGENT_RUN_TERMINAL_STATUSES : list AgentRunStatus.t :=
  [AgentRunStatus.SUCCEEDED; AgentRunStatus.FAILED; AgentRunStatus.CANCELLED;
   AgentRunStatus.BUDGET_EXCEEDED; AgentRunStatus.HANDED_OFF].

Module AgentVersionStatus.
Inductive t := DRAFT | PUBLISHED | RETIRED.
#[global] Instance eq_dec : EqDecision t. Proof. solve_decision. Defined.
End AgentVersionStatus.

Module AgentStepStatus.
Inductive t := STARTED | SUCCEEDED | FAILED.
#[global] Instance eq_dec : EqDecision t. Proof. solve_decision. Defined.
End AgentStepStatus.

Module AgentStepType.
Inductive t :=
  | RUN_STARTED | REQUEST_NORMALIZED | BUDGET_CHECKED
  | PROVIDER_CALL_STARTED | PROVIDER_CALL_SUCCEEDED | PROVIDER_CALL_FAILED
  | RESPONSE_FINALIZED | RUN_COMPLETED | RUN_FAILED | RUN_CANCELLED
  | TOOL_REQUESTED | TOOL_VALIDATION_FAILED | TOOL_EXECUTION_STARTED
  | TOOL_EXECUTION_SUCCEEDED | TOOL_EXECUTION_FAILED | TOOL_EXECUTION_TIMED_OUT
  | TOOL_IDEMPOTENCY_REUSED | RISK_ASSESSED | POLICY_EVALUATED | APPROVAL_REQUESTED
  | APPROVAL_APPROVED | APPROVAL_REJECTED | APPROVAL_EXPIRED | RUN_WAITING_FOR_APPROVAL
  | EXECUTION_RESUMED | HANDOFF_REQUESTED | RUN_HANDED_OFF.
#[global] Instance eq_dec : EqDecision t. Proof. solve_decision. Defined.
End AgentStepType.

Module AgentDefinitionStatus.
Inductive t := ACTIVE | INACTIVE | ARCHIVED.
#[global] Instance eq_dec : EqDecision t. Proof. solve_decision. Defined.
End AgentDefinitionStatus.

Record AgentDefinition := {
  adef_workspace : N;
  adef_name : string;
  adef_description : string;
  adef_status : AgentDefinitionStatus.t;
}.

(** [av_workspace] is the workspace of the definition. *)
Record AgentVersion := {
  av_workspace : N;
  av_definition : N;
  av_version : N;
  av_provider : string;
  av_model : string;
  av_system_prompt : string;
  av_temperature : Q;
  av_max_output_tokens : N;
  av_status : AgentVersionStatus.t;
  av_max_model_calls : N;
  av_max_steps : N;
  av_wall_time_limit_seconds : Z;
  av_provider_timeout_seconds : Z;
  av_max_total_tokens : option N;
  av_max_estimated_cost_usd : option Q;
  av_max_retry_attempts : N;
  av_max_tool_calls : N;
  av_runtime_config : json;
  av_published_at : option Z;
}.

Record AgentRun := {
  run_workspace : N;
  run_agent_version : N;
  run_conversation : option N;
  run_ticket : option N;
  run_trigger_message : option N;
  run_output_message : option N;
  run_trigger : string;
  run_status : AgentRunStatus.t;
  run_input_message : string;
  run_input_metadata : json;
  run_final_response : string;
  run_started_at : option Z;
  run_completed_at : option Z;
  run_cancelled_at : option Z;
  run_failure_code : string;
  run_failure_message_safe : string;
  run_model_call_count : N;
  run_step_count : N;
  run_tool_call_count : N;
  run_input_tokens : N;
  run_output_tokens : N;
  run_total_tokens : N;
  run_estimated_cost_usd : option Q;
  run_correlation_id : string;
  run_created_by : option N;
  run_created_at : Z;
  run_updated_at : Z;
}.

Record AgentStep := {
  step_run : N;
  step_sequence : N;
  step_type : AgentStepType.t;
  step_status : AgentStepStatus.t;
  step_safe_metadata : list (string * json);
  step_error_code : string;
}.

(** ** Workspaces ([workspaces/models.py]) *)

Record Workspace := { ws_name : string; ws_slug : string; ws_is_active : bool }.

Record WorkspaceMembership := {
  mb_workspace : N;
  mb_user : N;
  mb_role : WorkspaceRole.t;
  mb_is_active : bool;
}.

(** ** Users ([accounts/models.py]) *)

Record User := { usr_email : string; usr_is_active : bool }.

(** ** Customers ([customers/models.py]) *)

Record Customer := {
  cu_workspace : N;
  cu_external_id : option string;
  cu_first_name : string;
  cu_last_name : string;
  cu_display_name : string;
  cu_email : option string;
  cu_phone : option string;
  cu_company : string;
  cu_notes : string;
  cu_metadata : json;
  cu_is_active : bool;
}.

(** ** Conversations ([conversations/models.py]) *)

Module ConversationStatus.
Inductive t := OPEN | PENDING | CLOSED.
#[global] Instance eq_dec : EqDecision t. Proof. solve_decision. Defined.
Definition value (s : t) : string :=
  match s with OPEN => "open" | PENDING => "pending" | CLOSED => "closed" end.
End ConversationStatus.

Module MessageSenderType.
Inductive t := CUSTOMER | HUMAN_AGENT | AI_AGENT | SYSTEM.
#[global] Instance eq_dec : EqDecision t. Proof. solve_decision. Defined.
End MessageSenderType.

Module MessageDirection.
Inductive t := INBOUND | OUTBOUND | INTERNAL.
#[global] Instance eq_dec : EqDecision t. Proof. solve_decision. Defined.
End MessageDirection.

Record Conversation := {
  cv_workspace : N;
  cv_customer : N;
  cv_channel : string;
  cv_status : ConversationStatus.t;
  cv_subject : string;
  cv_assigned_to : option N;
  cv_external_id : option string;
  cv_last_message_at : option Z;
  cv_closed_at : option Z;
  cv_metadata : json;
}.

(** [sequence] is the database's own counter; here the identifiers are drawn from
    one counter too, and stand for it. *)
Record Message := {
  msg_workspace : N;
  msg_conversation : N;
  msg_sender_type : MessageSenderType.t;
  msg_sender_membership : option N;
  msg_direction : MessageDirection.t;
  msg_body : string;
  msg_external_id : option string;
  msg_metadata : json;
  msg_created_at : Z;
}.

(** ** Tickets and handoffs ([tickets/models.py]) *)

Module TicketStatus.
Inductive t := OPEN | IN_PROGRESS | PENDING | RESOLVED | CLOSED.
#[global] Instance eq_dec : EqDecision t. Proof. solve_decision. Defined.
Definition value (s : t) : string :=
  match s with
  | OPEN => "open" | IN_PROGRESS => "in_progress" | PENDING => "pending"
  | RESOLVED => "resolved" | CLOSED => "closed"
  end.
Definition values : list t := [OPEN; IN_PROGRESS; PENDING; RESOLVED; CLOSED].
Definition labels : list string := map value values.
Definition of_value (s : string) : option t := List.find (λ x, String.eqb (value x) s) values.
End TicketStatus.

Module TicketPriority.
Inductive t := LOW | NORMAL | HIGH | URGENT.
#[global] Instance eq_dec : EqDecision t. Proof. solve_decision. Defined.
Definition value (p : t) : string :=
  match p with LOW => "low" | NORMAL => "normal" | HIGH => "high" | URGENT => "urgent" end.
Definition values : list t := [LOW; NORMAL; HIGH; URGENT].
Definition labels : list string := map value values.
Definition of_value (s : string) : option t := List.find (λ x, String.eqb (value x) s) values.
End TicketPriority.

Record Ticket := {
  tk_workspace : N;
  tk_customer : N;
  tk_conversation : option N;
  tk_subject : string;
  tk_description : string;
  tk_status : TicketStatus.t;
  tk_priority : TicketPriority.t;
  tk_assigned_to : option N;
  tk_due_at : option Z;
  tk_resolved_at : option Z;
  tk_metadata : json;
}.

Module HumanHandoffStatus.
Inductive t := PENDING | ASSIGNED | RESOLVED | CANCELLED.
#[global] Instance eq_dec : EqDecision t. Proof. solve_decision. Defined.
Definition value (s : t) : string :=
  match s with
  | PENDING => "pending" | ASSIGNED => "assigned" | RESOLVED => "resolved"
  | CANCELLED => "cancelled"
  end.
End HumanHandoffStatus.

Definition HUMAN_HANDOFF_ACTIVE_STATUSES : list HumanHandoffStatus.t :=
  [HumanHandoffStatus.PENDING; HumanHandoffStatus.ASSIGNED].

Module HumanHandoffReason.
Inductive t :=
  | CUSTOMER_REQUESTED | UNSUPPORTED_ACTION | RUNTIME_FAILURE | LOW_CONFIDENCE
  | POLICY_ESCALATION.
#[global] Instance eq_dec : EqDecision t. Proof. solve_decision. Defined.
Definition value (r : t) : string :=
  match r with
  | CUSTOMER_REQUESTED => "customer_requested" | UNSUPPORTED_ACTION => "unsupported_action"
  | RUNTIME_FAILURE => "runtime_failure" | LOW_CONFIDENCE => "low_confidence"
  | POLICY_ESCALATION => "policy_escalation"
  end.
End HumanHandoffReason.

Record HumanHandoff := {
  ho_workspace : N;
  ho_conversation : N;
  ho_agent_run : option N;
  ho_ticket : option N;
  ho_status : HumanHandoffStatus.t;
  ho_reason_code : HumanHandoffReason.t;
  ho_safe_summary : string;
  ho_assigned_to : option N;
  ho_resolved_at : option Z;
}.

(** ** Deliveries ([notifications/models.py]) *)

Module DeliveryChannel.
Inductive t := NOTIFICATION | WEBHOOK | CHANNEL_RESPONSE.
#[global] Instance eq_dec : EqDecision t. Proof. solve_decision. Defined.
End DeliveryChannel.

Module DeliveryStatus.
Inductive t := PENDING | CLAIMED | RETRY_SCHEDULED | DELIVERED | FAILED | DEAD.
#[global] Instance eq_dec : EqDecision t. Proof. solve_decision. Defined.
End DeliveryStatus.

Definition DELIVERY_TERMINAL_STATUSES : list DeliveryStatus.t :=
  [DeliveryStatus.DELIVERED; DeliveryStatus.FAILED; DeliveryStatus.DEAD].

Definition DELIVERY_DUE_CLAIMABLE_STATUSES : list DeliveryStatus.t :=
  [DeliveryStatus.PENDING; DeliveryStatus.RETRY_SCHEDULED].

Module AttemptStatus.
Inductive t := IN_PROGRESS | SUCCEEDED | FAILED | ABANDONED.
#[global] Instance eq_dec : EqDecision t. Proof. solve_decision. Defined.
End AttemptStatus.

Record Delivery := {
  dlv_workspace : N;
  dlv_channel : DeliveryChannel.t;
  dlv_status : DeliveryStatus.t;
  dlv_attempt_count : Z;
  dlv_max_attempts : Z;
  dlv_next_attempt_at : Z;
  dlv_claimed_at : option Z;
  dlv_lease_expires_at : option Z;
  dlv_claim_token : option N;
  dlv_first_attempt_at : option Z;
  dlv_delivered_at : option Z;
  dlv_failed_at : option Z;
  dlv_last_error_code : string;
}.

Record DeliveryAttempt := {
  att_delivery : N;
  att_attempt_number : Z;
  att_claim_token : N;
  att_status : AttemptStatus.t;
  att_started_at : Z;
  att_completed_at : option Z;
  att_latency_ms : option Z;
  att_safe_error_code : string;
  att_retryable : option bool;
  att_response_status_code : option Z;
}.

(** One per source tool execution: keyed by the execution's id. *)
Record NotificationDelivery := {
  nd_delivery : N;
  nd_recipient_email : string;
  nd_subject : string;
  nd_body : string;
  nd_idempotency_key : string;
  nd_provider_message_id : string;
}.

(** ** Webhooks ([webhooks/models.py]) *)

Module WebhookEndpointStatus.
Inductive t := ACTIVE | DISABLED.
#[global] Instance eq_dec : EqDecision t. Proof. solve_decision. Defined.
Definition value (s : t) : string :=
  match s with ACTIVE => "active" | DISABLED => "disabled" end.
End WebhookEndpointStatus.

Record WebhookEndpoint := {
  we_workspace : N;
  we_name : string;
  we_url : string;
  we_status : WebhookEndpointStatus.t;
  we_subscribed_event_types : list string;
  we_encrypted_signing_secret : string;
  we_secret_created_at : option Z;
}.

Record WebhookEvent := {
  wev_workspace : N;
  wev_event_type : string;
  wev_version : Z;
  wev_payload_snapshot : json;
  wev_created_at : Z;
}.

(** One per delivery: keyed by the delivery's id. *)
Record WebhookDelivery := {
  wd_workspace : N;
  wd_endpoint : N;
  wd_event : N;
}.

(** ** Knowledge ([knowledge/models.py]) *)

Module KnowledgeSourceType.
Inductive t := UPLOAD | MANUAL.
#[global] Instance eq_dec : EqDecision t. Proof. solve_decision. Defined.
End KnowledgeSourceType.

Module KnowledgeDocumentStatus.
Inductive t := PENDING | QUEUED | PROCESSING | READY | FAILED.
#[global] Instance eq_dec : EqDecision t. Proof. solve_decision. Defined.
End KnowledgeDocumentStatus.

Module KnowledgeIngestionStatus.
Inductive t := QUEUED | PROCESSING | SUCCEEDED | FAILED.
#[global] Instance eq_dec : EqDecision t. Proof. solve_decision. Defined.
End KnowledgeIngestionStatus.

Record KnowledgeSource := {
  ks_workspace : N;
  ks_name : string;
  ks_description : string;
  ks_source_type : KnowledgeSourceType.t;
  ks_is_active : bool;
  ks_metadata : json;
}.

(** [kd_stored_file] is the content of the file. *)
Record KnowledgeDocument := {
  kd_workspace : N;
  kd_source : N;
  kd_uploaded_by : option N;
  kd_title : string;
  kd_original_filename : string;
  kd_stored_file : string;
  kd_content_type : string;
  kd_file_size : N;
  kd_content_sha256 : string;
  kd_status : KnowledgeDocumentStatus.t;
  kd_is_active : bool;
  kd_extracted_char_count : N;
  kd_chunk_count : N;
  kd_last_ingested_at : option Z;
  kd_last_error_code : string;
  kd_last_error_message_safe : string;
  kd_metadata : json;
}.

Record KnowledgeIngestionJob := {
  kj_workspace : N;
  kj_document : N;
  kj_status : KnowledgeIngestionStatus.t;
  kj_attempt_count : N;
  kj_idempotency_key : string;
  kj_started_at : option Z;
  kj_finished_at : option Z;
  kj_error_code : string;
  kj_safe_error_message : string;
  kj_extractor_version : string;
  kj_chunker_version : string;
  kj_embedding_provider : string;
  kj_embedding_model : string;
  kj_embedding_dimension : option N;
  kj_created_at : Z;
}.

Record KnowledgeChunk := {
  kc_workspace : N;
  kc_document : N;
  kc_ordinal : N;
  kc_text : string;
  kc_start_offset : N;
  kc_end_offset : N;
  kc_page_start : option N;
  kc_page_end : option N;
  kc_metadata : json;
  kc_embedding : list spec_float;
}.

Record RetrievalEvent := {
  rev_workspace : N;
  rev_actor : option N;
  rev_query : string;
  rev_embedding_provider : string;
  rev_embedding_model : string;
  rev_top_k : N;
  rev_minimum_score : option spec_float;
  rev_result_count : N;
}.

Record RetrievalHit := {
  rh_event : N;
  rh_workspace : N;
  rh_chunk : N;
  rh_rank : N;
  rh_score : spec_float;
  rh_citation : json;
}.

(** ** Evaluations ([evaluations/models.py]) *)

Module EvaluationDatasetStatus.
Inductive t := DRAFT | ACTIVE | ARCHIVED.
#[global] Instance eq_dec : EqDecision t. Proof. solve_decision. Defined.
End EvaluationDatasetStatus.

Module EvaluationCaseStatus.
Inductive t := ACTIVE | DISABLED.
#[global] Instance eq_dec : EqDecision t. Proof. solve_decision. Defined.
End EvaluationCaseStatus.

Module EvaluationRunStatus.
Inductive t := PENDING | RUNNING | SUCCEEDED | PARTIAL | FAILED | CANCELLED.
#[global] Instance eq_dec : EqDecision t. Proof. solve_decision. Defined.
Definition value (s : t) : string :=
  match s with
  | PENDING => "pending" | RUNNING => "running" | SUCCEEDED => "succeeded"
  | PARTIAL => "partial" | FAILED => "failed" | CANCELLED => "cancelled"
  end.
End EvaluationRunStatus.

Definition EVALUATION_RUN_TERMINAL_STATUSES : list EvaluationRunStatus.t :=
  [EvaluationRunStatus.SUCCEEDED; EvaluationRunStatus.PARTIAL; EvaluationRunStatus.FAILED;
   EvaluationRunStatus.CANCELLED].

Definition EVALUATION_RUN_ALLOWED_TRANSITIONS (s : EvaluationRunStatus.t)
    : list EvaluationRunStatus.t :=
  match s with
  | EvaluationRunStatus.PENDING =>
      [EvaluationRunStatus.RUNNING; EvaluationRunStatus.CANCELLED; EvaluationRunStatus.FAILED]
  | EvaluationRunStatus.RUNNING =>
      [EvaluationRunStatus.SUCCEEDED; EvaluationRunStatus.PARTIAL; EvaluationRunStatus.FAILED;
       EvaluationRunStatus.CANCELLED]
  | _ => []
  end.

Module EvaluationResultStatus.
Inductive t := PENDING | RUNNING | SUCCEEDED | FAILED | CANCELLED.
#[global] Instance eq_dec : EqDecision t. Proof. solve_decision. Defined.
End EvaluationResultStatus.

Definition EVALUATION_RESULT_TERMINAL_STATUSES : list EvaluationResultStatus.t :=
  [EvaluationResultStatus.SUCCEEDED; EvaluationResultStatus.FAILED;
   EvaluationResultStatus.CANCELLED].

(** The documented transition table (no service consults it). *)
Definition EVALUATION_RESULT_ALLOWED_TRANSITIONS (s : EvaluationResultStatus.t)
    : list EvaluationResultStatus.t :=
  match s with
  | EvaluationResultStatus.PENDING =>
      [EvaluationResultStatus.RUNNING; EvaluationResultStatus.CANCELLED]
  | EvaluationResultStatus.RUNNING =>
      [EvaluationResultStatus.SUCCEEDED; EvaluationResultStatus.FAILED]
  | _ => []
  end.

Module EvaluationFailureCode.
Inductive t :=
  | INVALID_CASE | AGENT_EXECUTION_FAILED | BUDGET_EXCEEDED | PROVIDER_FAILURE
  | FORBIDDEN_TOOL_VIOLATION | POLICY_VIOLATION | APPROVAL_VIOLATION | OUTCOME_MISMATCH
  | SCORING_FAILED | CANCELLED | WORKER_CRASH_RECOVERED.
#[global] Instance eq_dec : EqDecision t. Proof. solve_decision. Defined.
End EvaluationFailureCode.

Record EvaluationDataset := {
  ed_workspace : N;
  ed_name : string;
  ed_description : string;
  ed_status : EvaluationDatasetStatus.t;
}.

Record EvaluationCase := {
  ec_dataset : N;
  ec_key : string;
  ec_name : string;
  ec_status : EvaluationCaseStatus.t;
  ec_input_message : string;
  ec_seeded_context : json;
  ec_expectations : json;
}.

Record EvaluationRun := {
  ev_workspace : N;
  ev_dataset : N;
  ev_agent_version : N;
  ev_status : EvaluationRunStatus.t;
  ev_threshold_config : list (string * json);
  ev_total_cases : Z;
  ev_completed_cases : Z;
  ev_passed_cases : Z;
  ev_failed_cases : Z;
  ev_correlation_id : string;
  ev_created_by : option N;
  ev_started_at : option Z;
  ev_completed_at : option Z;
  ev_cancelled_at : option Z;
  ev_created_at : Z;
  ev_updated_at : Z;
}.

Record EvaluationCaseSnapshot := {
  es_run : N;
  es_case : option N;
  es_sequence : N;
  es_case_key : string;
  es_name : string;
  es_input_message : string;
  es_seeded_context : json;
  es_expectations : json;
}.

(** [er_failure_code]: [None] is the empty text. *)
Record EvaluationResult := {
  er_run : N;
  er_case_snapshot : N;
  er_status : EvaluationResultStatus.t;
  er_agent_run : option N;
  er_scorer_output : list (string * json);
  er_passed : option bool;
  er_failure_code : option EvaluationFailureCode.t;
  er_failure_message_safe : string;
  er_latency_ms : option Z;
  er_input_tokens : N;
  er_output_tokens : N;
  er_total_tokens : N;
  er_estimated_cost_usd : option Q;
  er_replay_of : option N;
  er_started_at : option Z;
  er_completed_at : option Z;
  er_created_at : Z;
  er_updated_at : Z;
}.

(** ** Channel ingress ([channel_ingress/models.py]) *)

Module ChannelType.
Inductive t := WEB_CHAT | EMAIL | GENERIC_WEBHOOK.
#[global] Instance eq_dec : EqDecision t. Proof. solve_decision. Defined.
Definition value (c : t) : string :=
  match c with
  | WEB_CHAT => "web_chat" | EMAIL => "email" | GENERIC_WEBHOOK => "generic_webhook"
  end.
End ChannelType.

Module ChannelEndpointStatus.
Inductive t := ACTIVE | DISABLED.
#[global] Instance eq_dec : EqDecision t. Proof. solve_decision. Defined.
Definition value (s : t) : string :=
  match s with ACTIVE => "active" | DISABLED => "disabled" end.
End ChannelEndpointStatus.

Module UnknownCustomerPolicy.
Inductive t := CREATE | REJECT.
#[global] Instance eq_dec : EqDecision t. Proof. solve_decision. Defined.
End UnknownCustomerPolicy.

Record ChannelEndpoint := {
  ce_workspace : N;
  ce_channel : ChannelType.t;
  ce_name : string;
  ce_status : ChannelEndpointStatus.t;
  ce_agent_version : N;
  ce_integration_connection : option N;
  ce_unknown_customer_policy : UnknownCustomerPolicy.t;
  ce_encrypted_signing_secret : string;
  ce_secret_created_at : option Z;
  ce_configuration : list (string * json);
}.

Module InboundChannelEventStatus.
Inductive t := RECEIVED | PROCESSING | PROCESSED | FAILED.
#[global] Instance eq_dec : EqDecision t. Proof. solve_decision. Defined.
End InboundChannelEventStatus.

Record InboundChannelEvent := {
  ie_workspace : N;
  ie_endpoint : N;
  ie_provider_event_id : string;
  ie_provider_thread_id : string;
  ie_provider_message_id : string;
  ie_payload_digest : string;
  ie_external_identity : string;
  ie_subject : string;
  ie_body : string;
  ie_status : InboundChannelEventStatus.t;
  ie_failure_code : string;
  ie_conversation : option N;
  ie_message : option N;
  ie_received_at : Z;
  ie_processing_started_at : option Z;
  ie_processed_at : option Z;
}.

Record ChatSession := {
  cs_workspace : N;
  cs_endpoint : N;
  cs_customer : option N;
  cs_conversation : option N;
  cs_token_hash : string;
  cs_expires_at : Z;
  cs_last_seen_at : option Z;
}.

(** One per message: these rows are keyed by the source message's id. *)
Record ChannelResponseDelivery := {
  crd_delivery : N;
  crd_endpoint : N;
  crd_destination_address : string;
  crd_subject : string;
  crd_body : string;
  crd_thread_reference : string;
  crd_idempotency_key : string;
  crd_provider_message_id : string;
}.

(** ** Integrations ([integrations/models.py]) *)

Module IntegrationProvider.
Inductive t := STRIPE | GOOGLE_CALENDAR | EMAIL | DEMO_COMMERCE.
#[global] Instance eq_dec : EqDecision t. Proof. solve_decision. Defined.
Definition value (p : t) : string :=
  match p with
  | STRIPE => "stripe" | GOOGLE_CALENDAR => "google_calendar" | EMAIL => "email"
  | DEMO_COMMERCE => "demo_commerce"
  end.
Definition values : list t := [STRIPE; GOOGLE_CALENDAR; EMAIL; DEMO_COMMERCE].
Definition of_value (s : string) : option t := List.find (λ p, String.eqb (value p) s) values.
End IntegrationProvider.

Module IntegrationEnvironment.
Inductive t := TEST | LIVE.
#[global] Instance eq_dec : EqDecision t. Proof. solve_decision. Defined.
Definition value (e : t) : string := match e with TEST => "test" | LIVE => "live" end.
Definition of_value (s : string) : option t := List.find (λ e, String.eqb (value e) s) [TEST; LIVE].
End IntegrationEnvironment.

Module IntegrationConnectionStatus.
Inductive t := ACTIVE | DISABLED | INVALID_CREDENTIALS | DEGRADED.
#[global] Instance eq_dec : EqDecision t. Proof. solve_decision. Defined.
End IntegrationConnectionStatus.

Record IntegrationConnection := {
  ic_workspace : N;
  ic_provider : IntegrationProvider.t;
  ic_display_name : string;
  ic_status : IntegrationConnectionStatus.t;
  ic_environment : IntegrationEnvironment.t;
  ic_encrypted_credentials : string;
  ic_credential_version : N;
  ic_configuration : list (string * json);
  ic_last_checked_at : option Z;
  ic_last_success_at : option Z;
  ic_last_error_code : string;
  ic_created_by : option N;
}.

(** [connection.credentials_configured]. *)
Definition credentials_configured (c : IntegrationConnection) : bool :=
  negb (String.eqb (ic_encrypted_credentials c) "").

(** ** Audit events ([audit/models.py]) *)

Record AuditEvent := {
  ae_action : string;
  ae_target_type : string;
  ae_target_id : string;
  ae_actor : option N;
  ae_workspace : option N;
  ae_metadata : list (string * json);
}.

(** ** Exceptions *)

(** The classes of [tools/errors.py]. *)
Module ToolErr.
Inductive t :=
  | NotRegistered | NotBound | Disabled | InvalidInput | InvalidOutput | Timeout
  | ExecutionFailed | RetryExhausted | IdempotencyConflict | ExecutionInProgress
  | BudgetExceeded | PermissionDenied | Configuration | RunNotExecutable
  | AmbiguousOutcome | PolicyDenied | PolicyEvaluationFailed | ApprovalRequired
  | ApprovalRejected | ApprovalExpired | ApprovalCancelled | ApprovalActionChanged
  (** a [ToolError] subclass a handler outside the package raises *)
  | Handler (code : string).
#[global] Instance eq_dec : EqDecision t. Proof. solve_decision. Defined.
Definition code (e : t) : string :=
  match e with
  | NotRegistered => "tool_not_registered" | NotBound => "tool_not_bound"
  | Disabled => "tool_disabled" | InvalidInput => "tool_invalid_input"
  | InvalidOutput => "tool_invalid_output" | Timeout => "tool_timeout"
  | ExecutionFailed => "tool_execution_failed" | RetryExhausted => "tool_retry_exhausted"
  | IdempotencyConflict => "tool_idempotency_conflict"
  | ExecutionInProgress => "tool_execution_in_progress"
  | BudgetExceeded => "tool_budget_exceeded" | PermissionDenied => "tool_permission_denied"
  | Configuration => "tool_configuration_error" | RunNotExecutable => "tool_run_not_executable"
  | AmbiguousOutcome => "tool_ambiguous_outcome_requires_reconciliation"
  | PolicyDenied => "policy_action_denied"
  | PolicyEvaluationFailed => "policy_evaluation_failed"
  | ApprovalRequired => "approval_required" | ApprovalRejected => "approval_rejected"
  | ApprovalExpired => "approval_expired" | ApprovalCancelled => "approval_cancelled"
  | ApprovalActionChanged => "approval_action_changed"
  | Handler c => c
  end.
End ToolErr.

(** The classes of [approvals/errors.py]. *)
Module ApprovalErr.
Inductive t :=
  | Required | NotFound | AlreadyResolved | Expired | Cancelled | Rejected
  | PermissionDenied | SelfApprovalForbidden | ActionChanged | ResumeConflict.
#[global] Instance eq_dec : EqDecision t. Proof. solve_decision. Defined.
End ApprovalErr.

(** The classes of [agents/errors.py]. *)
Module AgentErr.
Inductive t :=
  | VersionNotPublishable | VersionImmutable | VersionNotPublished
  | RunInvalidTransition | RunNotCancellable
  (** defined beside their services *)
  | ToolCatalogConfiguration | InvalidTriggerMessage | TriggerMessageMismatch.
#[global] Instance eq_dec : EqDecision t. Proof. solve_decision. Defined.
End AgentErr.

(** The classes of [knowledge/errors.py]. *)
Module KnowledgeErr.
Inductive t :=
  | RetryableIngestion | InvalidFile | EmptyFile | FileTooLarge | UnsupportedFileType
  | MalformedPdf | EncryptedPdf | PdfPageLimit | NoExtractableText | Extraction | Chunking
  | InvalidEmbedding | InvalidRetrievalQuery.
#[global] Instance eq_dec : EqDecision t. Proof. solve_decision. Defined.
Definition code (e : t) : string :=
  match e with
  | RetryableIngestion => "knowledge_temporary_failure"
  | InvalidFile => "knowledge_invalid_file" | EmptyFile => "knowledge_empty_file"
  | FileTooLarge => "knowledge_file_too_large"
  | UnsupportedFileType => "knowledge_unsupported_type"
  | MalformedPdf => "knowledge_malformed_pdf" | EncryptedPdf => "knowledge_encrypted_pdf"
  | PdfPageLimit => "knowledge_pdf_page_limit"
  | NoExtractableText => "knowledge_no_extractable_text"
  | Extraction => "knowledge_extraction_failed" | Chunking => "knowledge_chunking_failed"
  | InvalidEmbedding => "knowledge_invalid_embedding"
  | InvalidRetrievalQuery => "knowledge_invalid_retrieval_query"
  end.
Definition safe_message (e : t) : string :=
  match e with
  | RetryableIngestion => "Knowledge ingestion temporarily failed."
  | InvalidFile => "The uploaded file is invalid."
  | EmptyFile => "The uploaded file is empty."
  | FileTooLarge => "The uploaded file exceeds the allowed size."
  | UnsupportedFileType => "The uploaded file type is not supported."
  | MalformedPdf => "The PDF is malformed or unreadable."
  | EncryptedPdf => "Encrypted or password-protected PDFs are not supported."
  | PdfPageLimit => "The PDF exceeds the allowed page count."
  | NoExtractableText => "The document contains no usable extractable text."
  | Extraction => "The document could not be safely extracted."
  | Chunking => "The document could not be divided into usable chunks."
  | InvalidEmbedding => "The embedding provider returned invalid data."
  | InvalidRetrievalQuery => "The retrieval query is invalid."
  end.
(** The subclasses of [PermanentIngestionError]. *)
Definition permanent (e : t) : bool :=
  match e with RetryableIngestion | InvalidRetrievalQuery => false | _ => true end.
End KnowledgeErr.

(** The classes of [integrations/errors.py]. *)
Module IntegrationErr.
Inductive t :=
  | NotConfigured | Disabled | AuthenticationFailed | PermissionDenied | RateLimited
  | Timeout | TemporarilyUnavailable | InvalidRequest | NotFound | Conflict
  | MalformedResponse | Configuration | ProviderNotSupported | CustomerNotFound
  | OrderNotFound | ShipmentNotFound | TicketNotFound | PaymentNotFound
  | RefundNotAllowedByProvider | RefundAlreadyExists | CalendarSlotUnavailable
  | BookingAlreadyExists.
#[global] Instance eq_dec : EqDecision t. Proof. solve_decision. Defined.
Definition code (e : t) : string :=
  match e with
  | NotConfigured => "integration_not_configured" | Disabled => "integration_disabled"
  | AuthenticationFailed => "integration_authentication_failed"
  | PermissionDenied => "integration_permission_denied"
  | RateLimited => "integration_rate_limited" | Timeout => "integration_timeout"
  | TemporarilyUnavailable => "integration_temporarily_unavailable"
  | InvalidRequest => "integration_invalid_request" | NotFound => "integration_not_found"
  | Conflict => "integration_conflict" | MalformedResponse => "integration_malformed_response"
  | Configuration => "integration_configuration_error"
  | ProviderNotSupported => "integration_provider_not_supported"
  | CustomerNotFound => "customer_not_found" | OrderNotFound => "order_not_found"
  | ShipmentNotFound => "shipment_not_found" | TicketNotFound => "ticket_not_found"
  | PaymentNotFound => "payment_not_found"
  | RefundNotAllowedByProvider => "refund_not_allowed_by_provider"
  | RefundAlreadyExists => "refund_already_exists"
  | CalendarSlotUnavailable => "calendar_slot_unavailable"
  | BookingAlreadyExists => "booking_already_exists"
  end.
Definition safe_message (e : t) : string :=
  match e with
  | NotConfigured => "This integration has not been configured for this workspace."
  | Disabled => "This integration is currently disabled."
  | AuthenticationFailed => "The provider rejected the configured credentials."
  | PermissionDenied => "The provider denied this operation."
  | RateLimited => "The provider is rate-limiting requests."
  | Timeout => "The provider did not respond in time."
  | TemporarilyUnavailable => "The provider is temporarily unavailable."
  | InvalidRequest => "The request to the provider was invalid."
  | NotFound => "The requested resource was not found."
  | Conflict => "The request conflicts with the provider's current state."
  | MalformedResponse => "The provider returned an unexpected response."
  | Configuration => "This integration is misconfigured."
  | ProviderNotSupported => "This provider is not supported."
  | CustomerNotFound => "Customer not found."
  | OrderNotFound => "Order not found."
  | ShipmentNotFound => "Shipment not found."
  | TicketNotFound => "Ticket not found."
  | PaymentNotFound => "Payment not found."
  | RefundNotAllowedByProvider => "The provider will not allow this refund."
  | RefundAlreadyExists => "A refund for this payment already exists."
  | CalendarSlotUnavailable => "The requested time slot is no longer available."
  | BookingAlreadyExists => "A booking for this request already exists."
  end.
Definition retryable (e : t) : bool :=
  match e with RateLimited | Timeout | TemporarilyUnavailable => true | _ => false end.
End IntegrationErr.

(** The classes of [evaluations/errors.py] that are raised. *)
Module EvaluationErr.
Inductive t :=
  | DatasetHasNoActiveCases | AgentVersionNotPublished | RunNotCancellable
  | ResultNotReplayable | RunsNotComparable.
#[global] Instance eq_dec : EqDecision t. Proof. solve_decision. Defined.
End EvaluationErr.

(** The classes of [channel_ingress/errors.py] that are raised. *)
Module ChannelErr.
Inductive t :=
  | SignatureMissing | SignatureMalformed | SignatureInvalid | SignatureExpired
  | PayloadInvalid | PayloadTooLarge | IdempotencyConflict | IdentityNotFound
  | EndpointDisabled | UnsupportedEvent | SessionInvalid.
#[global] Instance eq_dec : EqDecision t. Proof. solve_decision. Defined.
Definition code (e : t) : string :=
  match e with
  | SignatureMissing | SignatureMalformed | SignatureInvalid => "signature_invalid"
  | SignatureExpired => "signature_expired"
  | PayloadInvalid => "payload_invalid"
  | PayloadTooLarge => "payload_too_large"
  | IdempotencyConflict => "idempotency_conflict"
  | IdentityNotFound => "identity_not_found"
  | EndpointDisabled => "endpoint_disabled"
  | UnsupportedEvent => "unsupported_event"
  | SessionInvalid => "session_invalid"
  end.
End ChannelErr.

Inductive exn :=
  | EvaluationExc (cls : EvaluationErr.t)
  (** [evaluations/providers.py:InvalidLLMScenarioError] *)
  | InvalidLLMScenarioError (message : string)
  | ChannelExc (cls : ChannelErr.t)
  (** [channel_ingress/endpoint_admin.py:InvalidAgentVersionError] *)
  | InvalidAgentVersionError
  | TypeError
  | KnowledgeExc (cls : KnowledgeErr.t)
  | ToolExc (cls : ToolErr.t) (safe_message : string)
  | ApprovalExc (cls : ApprovalErr.t)
  | AgentExc (cls : AgentErr.t)
  | DeliveryNotFoundError
  | DeliveryNotClaimableError
  | StaleClaimError
  | WebhookExc (code : string) (retryable : bool)
  | IntegrationExc (cls : IntegrationErr.t) (safe_message : string)
  | PolicyInvalidRuleError
  | PolicyVersionNotActivatableError
  | PolicyLimitExceededError
  (** Django REST framework's errors, with the field they report *)
  | ValidationError (field : string)
  | PermissionDenied
  | NotAuthenticated
  | ConflictError
  (** [common/exceptions.py]: an error with the status and the code of its response *)
  | SafeAPIError (status : N) (code : string)
  (** the ORM's and the database's errors *)
  | DoesNotExist
  | MultipleObjectsReturned
  | IntegrityError
  | DataError
  | ValueError
  (** anything else a parameter of the model raises *)
  | OtherExc (n : N).

(** Python's own exceptions where a service does not expect them. *)
Definition OverflowError : exn := OtherExc 8.
Definition AttributeError : exn := OtherExc 12.
Definition KeyError : exn := OtherExc 14.
(** pydantic's [ValidationError] *)
Definition PydanticValidationError : exn := OtherExc 15.
(** [django.core.exceptions.ValidationError], which the API does not handle *)
Definition DjangoValidationError : exn := OtherExc 16.
(** [integrations/crypto.py] *)
Definition CredentialEncryptionError : exn := OtherExc 0.
