(* ===== verification/Store.v ===== *)
(** * The world the services act on

    The database (one finite map per table), the clock, the source of fresh
    identifiers, the audit trail and the list of background tasks handed to the
    broker.  A service is a computation of [M World exn].

    A row lock ([select_for_update]) is held to the end of its transaction, so a
    transaction runs here as one uninterrupted computation; the theorems that
    concern concurrent callers quantify over the world each of them starts from.
    [transaction.on_commit] publishes a task when the transaction commits: the
    task is appended inside the transaction, whose rollback takes it back. *)

From stdpp Require Import base gmap sets strings list pretty sorting.
From Stdlib Require Import ZArith Lia.
From S2P Require Import Prelude Json Domain Policy Models.

Inductive task :=
  | process_delivery_task (delivery_id : N)
  | execute_agent_run_task (run_id : N)
  | resume_approved_action_task (approval_id : N)
  | ingest_knowledge_document (job_id : N)
  | start_evaluation_run_task (run_id : N)
  | execute_evaluation_case_task (result_id : N)
  | process_inbound_channel_event_task (event_id : N)
  (** not a task: the on-commit callback that routes a run's reply to its channel *)
  | route_channel_response (run_id : N).

(** The tables of the evaluations and of the channels, which the other services
    leave alone. *)
Record Outer := {
  o_evaluation_datasets : gmap N EvaluationDataset;
  o_evaluation_cases : gmap N EvaluationCase;
  o_evaluation_runs : gmap N EvaluationRun;
  o_evaluation_snapshots : gmap N EvaluationCaseSnapshot;
  o_evaluation_results : gmap N EvaluationResult;
  o_channel_endpoints : gmap N ChannelEndpoint;
  o_inbound_events : gmap N InboundChannelEvent;
  o_chat_sessions : gmap N ChatSession;
  o_response_deliveries : gmap N ChannelResponseDelivery;
  (** the fake providers of a worker's process: how often each has answered *)
  o_provider_calls : gmap N nat;
}.

Definition empty_outer : Outer := {|
  o_evaluation_datasets := ∅;
  o_evaluation_cases := ∅;
  o_evaluation_runs := ∅;
  o_evaluation_snapshots := ∅;
  o_evaluation_results := ∅;
  o_channel_endpoints := ∅;
  o_inbound_events := ∅;
  o_chat_sessions := ∅;
  o_response_deliveries := ∅;
  o_provider_calls := ∅;
|}.

Record World := {
  w_now : Z;
  w_next : N;
  w_users : gmap N User;
  w_workspaces : gmap N Workspace;
  w_memberships : gmap N WorkspaceMembership;
  w_customers : gmap N Customer;
  w_conversations : gmap N Conversation;
  w_messages : gmap N Message;
  w_tickets : gmap N Ticket;
  w_handoffs : gmap N HumanHandoff;
  w_policies : gmap N PolicyRow;
  w_policy_versions : gmap N PolicyVersion;
  w_policy_rules : gmap N PolicyRule;
  w_tool_definitions : gmap N ToolDefinition;
  w_tool_bindings : gmap N ToolBinding;
  w_tool_executions : gmap N ToolExecution;
  w_risk_assessments : gmap N RiskAssessment;
  w_policy_evaluations : gmap N PolicyEvaluation;
  w_approvals : gmap N ApprovalRequest;
  w_approval_decisions : gmap N ApprovalDecision;
  w_agent_definitions : gmap N AgentDefinition;
  w_agent_versions : gmap N AgentVersion;
  w_agent_runs : gmap N AgentRun;
  w_agent_steps : list AgentStep;
  w_deliveries : gmap N Delivery;
  w_attempts : gmap N DeliveryAttempt;
  w_notification_deliveries : gmap N NotificationDelivery;
  w_webhook_endpoints : gmap N WebhookEndpoint;
  w_webhook_events : gmap N WebhookEvent;
  w_webhook_deliveries : gmap N WebhookDelivery;
  w_knowledge_sources : gmap N KnowledgeSource;
  w_knowledge_documents : gmap N KnowledgeDocument;
  w_knowledge_jobs : gmap N KnowledgeIngestionJob;
  w_knowledge_chunks : gmap N KnowledgeChunk;
  w_retrieval_events : gmap N RetrievalEvent;
  w_retrieval_hits : gmap N RetrievalHit;
  w_integration_connections : gmap N IntegrationConnection;
  (** an object of a worker's process: the attempts [demo.flaky] has counted *)
  w_flaky_attempts : gmap N N;
  w_outer : Outer;
  w_audit : list AuditEvent;
  w_published : list task;
}.

Definition empty_world : World := {|
  w_now := 1000000000; w_next := 1;
  w_users := ∅; w_workspaces := ∅; w_memberships := ∅; w_customers := ∅;
  w_conversations := ∅; w_messages := ∅;
  w_tickets := ∅; w_handoffs := ∅; w_policies := ∅; w_policy_versions := ∅;
  w_policy_rules := ∅; w_tool_definitions := ∅; w_tool_bindings := ∅;
  w_tool_executions := ∅; w_risk_assessments := ∅; w_policy_evaluations := ∅;
  w_approvals := ∅; w_approval_decisions := ∅; w_agent_definitions := ∅; w_agent_versions := ∅; w_agent_runs := ∅;
  w_agent_steps := []; w_deliveries := ∅; w_attempts := ∅;
  w_notification_deliveries := ∅; w_webhook_endpoints := ∅; w_webhook_events := ∅;
  w_webhook_deliveries := ∅; w_knowledge_sources := ∅; w_knowledge_documents := ∅;
  w_knowledge_jobs := ∅; w_knowledge_chunks := ∅; w_retrieval_events := ∅;
  w_retrieval_hits := ∅; w_integration_connections := ∅; w_flaky_attempts := ∅;
  w_outer := empty_outer; w_audit := []; w_published := [];
|}.

(** A service. *)
Abbreviation service := (M World exn).

(** ** Tables

    What a table of the database offers to a service: its rows, and replacing
    them. *)

Class Table (A : Type) := {
  rows : World → gmap N A;
  set_rows : gmap N A → World → World;
  rows_set_rows m w : rows (set_rows m w) = m;
}.

Ltac table g s := refine {| rows := g; set_rows := s |}; reflexivity.

#[export] Instance users_table : Table User.
Proof. table w_users (λ m w, {| w with w_users := m |}). Defined.
#[export] Instance workspaces_table : Table Workspace.
Proof. table w_workspaces (λ m w, {| w with w_workspaces := m |}). Defined.
#[export] Instance memberships_table : Table WorkspaceMembership.
Proof. table w_memberships (λ m w, {| w with w_memberships := m |}). Defined.
#[export] Instance customers_table : Table Customer.
Proof. table w_customers (λ m w, {| w with w_customers := m |}). Defined.
#[export] Instance conversations_table : Table Conversation.
Proof. table w_conversations (λ m w, {| w with w_conversations := m |}). Defined.
#[export] Instance messages_table : Table Message.
Proof. table w_messages (λ m w, {| w with w_messages := m |}). Defined.
#[export] Instance tickets_table : Table Ticket.
Proof. table w_tickets (λ m w, {| w with w_tickets := m |}). Defined.
#[export] Instance handoffs_table : Table HumanHandoff.
Proof. table w_handoffs (λ m w, {| w with w_handoffs := m |}). Defined.
#[export] Instance policies_table : Table PolicyRow.
Proof. table w_policies (λ m w, {| w with w_policies := m |}). Defined.
#[export] Instance policy_versions_table : Table PolicyVersion.
Proof. table w_policy_versions (λ m w, {| w with w_policy_versions := m |}). Defined.
#[export] Instance policy_rules_table : Table PolicyRule.
Proof. table w_policy_rules (λ m w, {| w with w_policy_rules := m |}). Defined.
#[export] Instance tool_definitions_table : Table ToolDefinition.
Proof. table w_tool_definitions (λ m w, {| w with w_tool_definitions := m |}). Defined.
#[export] Instance tool_bindings_table : Table ToolBinding.
Proof. table w_tool_bindings (λ m w, {| w with w_tool_bindings := m |}). Defined.
#[export] Instance tool_executions_table : Table ToolExecution.
Proof. table w_tool_executions (λ m w, {| w with w_tool_executions := m |}). Defined.
#[export] Instance risk_assessments_table : Table RiskAssessment.
Proof. table w_risk_assessments (λ m w, {| w with w_risk_assessments := m |}). Defined.
#[export] Instance policy_evaluations_table : Table PolicyEvaluation.
Proof. table w_policy_evaluations (λ m w, {| w with w_policy_evaluations := m |}). Defined.
#[export] Instance approvals_table : Table ApprovalRequest.
Proof. table w_approvals (λ m w, {| w with w_approvals := m |}). Defined.
#[export] Instance approval_decisions_table : Table ApprovalDecision.
Proof. table w_approval_decisions (λ m w, {| w with w_approval_decisions := m |}). Defined.
#[export] Instance agent_definitions_table : Table AgentDefinition.
Proof. table w_agent_definitions (λ m w, {| w with w_agent_definitions := m |}). Defined.
#[export] Instance agent_versions_table : Table AgentVersion.
Proof. table w_agent_versions (λ m w, {| w with w_agent_versions := m |}). Defined.
#[export] Instance agent_runs_table : Table AgentRun.
Proof. table w_agent_runs (λ m w, {| w with w_agent_runs := m |}). Defined.
#[export] Instance deliveries_table : Table Delivery.
Proof. table w_deliveries (λ m w, {| w with w_deliveries := m |}). Defined.
#[export] Instance attempts_table : Table DeliveryAttempt.
Proof. table w_attempts (λ m w, {| w with w_attempts := m |}). Defined.
#[export] Instance notification_deliveries_table : Table NotificationDelivery.
Proof. table w_notification_deliveries (λ m w, {| w with w_notification_deliveries := m |}). Defined.
#[export] Instance webhook_endpoints_table : Table WebhookEndpoint.
Proof. table w_webhook_endpoints (λ m w, {| w with w_webhook_endpoints := m |}). Defined.
#[export] Instance webhook_events_table : Table WebhookEvent.
Proof. table w_webhook_events (λ m w, {| w with w_webhook_events := m |}). Defined.
#[export] Instance webhook_deliveries_table : Table WebhookDelivery.
Proof. table w_webhook_deliveries (λ m w, {| w with w_webhook_deliveries := m |}). Defined.

#[export] Instance knowledge_sources_table : Table KnowledgeSource.
Proof. table w_knowledge_sources (λ m w, {| w with w_knowledge_sources := m |}). Defined.
#[export] Instance knowledge_documents_table : Table KnowledgeDocument.
Proof. table w_knowledge_documents (λ m w, {| w with w_knowledge_documents := m |}). Defined.
#[export] Instance knowledge_jobs_table : Table KnowledgeIngestionJob.
Proof. table w_knowledge_jobs (λ m w, {| w with w_knowledge_jobs := m |}). Defined.
#[export] Instance knowledge_chunks_table : Table KnowledgeChunk.
Proof. table w_knowledge_chunks (λ m w, {| w with w_knowledge_chunks := m |}). Defined.
#[export] Instance retrieval_events_table : Table RetrievalEvent.
Proof. table w_retrieval_events (λ m w, {| w with w_retrieval_events := m |}). Defined.
#[export] Instance retrieval_hits_table : Table RetrievalHit.
Proof. table w_retrieval_hits (λ m w, {| w with w_retrieval_hits := m |}). Defined.
#[export] Instance integration_connections_table : Table IntegrationConnection.
Proof. table w_integration_connections (λ m w, {| w with w_integration_connections := m |}). Defined.

Definition in_outer (f : Outer → Outer) (w : World) : World :=
  {| w with w_outer := f (w_outer w) |}.
Definition w_evaluation_datasets (w : World) := o_evaluation_datasets (w_outer w).
Definition w_evaluation_cases (w : World) := o_evaluation_cases (w_outer w).
Definition w_evaluation_runs (w : World) := o_evaluation_runs (w_outer w).
Definition w_evaluation_snapshots (w : World) := o_evaluation_snapshots (w_outer w).
Definition w_evaluation_results (w : World) := o_evaluation_results (w_outer w).
Definition w_channel_endpoints (w : World) := o_channel_endpoints (w_outer w).
Definition w_inbound_events (w : World) := o_inbound_events (w_outer w).
Definition w_chat_sessions (w : World) := o_chat_sessions (w_outer w).
Definition w_response_deliveries (w : World) := o_response_deliveries (w_outer w).
#[export] Instance evaluation_datasets_table : Table EvaluationDataset.
Proof. table w_evaluation_datasets (λ m, in_outer (λ o, {| o with o_evaluation_datasets := m |})). Defined.
#[export] Instance evaluation_cases_table : Table EvaluationCase.
Proof. table w_evaluation_cases (λ m, in_outer (λ o, {| o with o_evaluation_cases := m |})). Defined.
#[export] Instance evaluation_runs_table : Table EvaluationRun.
Proof. table w_evaluation_runs (λ m, in_outer (λ o, {| o with o_evaluation_runs := m |})). Defined.
#[export] Instance evaluation_snapshots_table : Table EvaluationCaseSnapshot.
Proof. table w_evaluation_snapshots (λ m, in_outer (λ o, {| o with o_evaluation_snapshots := m |})). Defined.
#[export] Instance evaluation_results_table : Table EvaluationResult.
Proof. table w_evaluation_results (λ m, in_outer (λ o, {| o with o_evaluation_results := m |})). Defined.
#[export] Instance channel_endpoints_table : Table ChannelEndpoint.
Proof. table w_channel_endpoints (λ m, in_outer (λ o, {| o with o_channel_endpoints := m |})). Defined.
#[export] Instance inbound_events_table : Table InboundChannelEvent.
Proof. table w_inbound_events (λ m, in_outer (λ o, {| o with o_inbound_events := m |})). Defined.
#[export] Instance chat_sessions_table : Table ChatSession.
Proof. table w_chat_sessions (λ m, in_outer (λ o, {| o with o_chat_sessions := m |})). Defined.
#[export] Instance response_deliveries_table : Table ChannelResponseDelivery.
Proof. table w_response_deliveries (λ m, in_outer (λ o, {| o with o_response_deliveries := m |})). Defined.

(** ** Primitives *)

(** [timezone.now()]. *)
Definition get_now : service Z := gets w_now.
(** [now = now or timezone.now()]. *)
Definition or_now (now : option Z) : service Z :=
  match now with Some t => mret t | None => get_now end.

(** [uuid.uuid4()]: an identifier no row carries yet. *)
Definition fresh : service N :=
  i ← gets w_next;
  modify (λ w, {| w with w_next := N.succ (w_next w) |});;
  mret i.

Section Rows.
Context {A : Type} `{Table A}.

(** [objects.filter(pk=i).first()]. *)
Definition find_row (i : N) : service (option A) := gets (λ w, rows w !! i).

(** [objects.get(pk=i)], with or without [select_for_update()]. *)
Definition get_row (i : N) : service A :=
  o ← find_row i;
  or_raise o DoesNotExist.

(** [row.save()] or [objects.create(pk=i, ...)]. *)
Definition save_row (i : N) (r : A) : service () :=
  modify (λ w, set_rows (<[i := r]> (rows w)) w).

(** [row.save(update_fields=...)]: the columns of [f], on the stored row. *)
Definition save_fields (i : N) (f : A → A) : service () :=
  row ← get_row i;
  save_row i (f row).

(** [objects.filter(P).update(f)]. *)
Definition update_rows (P : N → A → bool) (f : A → A) : service () :=
  modify (λ w, set_rows (map_imap (λ i r, Some (if P i r then f r else r)) (rows w)) w).

(** [objects.create(...)]. *)
Definition create_row (r : A) : service N :=
  i ← fresh;
  save_row i r;;
  mret i.

Definition key_le (x y : N * A) : Prop := (x.1 <= y.1)%N.
#[local] Instance key_le_dec x y : Decision (key_le x y).
Proof. unfold key_le. apply _. Defined.

(** The rows that satisfy [P], oldest identifier first. *)
Definition select_rows (P : N → A → bool) (w : World) : list (N * A) :=
  merge_sort key_le
    (List.filter (λ kv, P kv.1 kv.2) (map_to_list (rows w))).

(** [objects.filter(P).first()]; the order matters only when several rows
    satisfy [P]. *)
Definition first_row (P : N → A → bool) : service (option (N * A)) :=
  gets (λ w, head (select_rows P w)).

(** [objects.get(P)]. *)
Definition get_where (P : N → A → bool) : service (N * A) :=
  l ← gets (select_rows P);
  match l with
  | [x] => mret x
  | [] => raise DoesNotExist
  | _ => raise MultipleObjectsReturned
  end.

(** [objects.filter(P).exists()]. *)
Definition exists_row (P : N → A → bool) (w : World) : bool :=
  match select_rows P w with [] => false | _ => true end.

Lemma in_select_rows P w i r :
  (i, r) ∈ select_rows P w ↔ rows w !! i = Some r ∧ P i r = true.
Proof.
  unfold select_rows. rewrite (merge_sort_Permutation _ _), list_elem_of_In, filter_In,
    <-list_elem_of_In, elem_of_map_to_list. done.
Qed.

Lemma select_rows_nodup P w : NoDup (select_rows P w).*1.
Proof.
  unfold select_rows. rewrite (merge_sort_Permutation _ _).
  generalize (NoDup_fst_map_to_list (rows w)). generalize (map_to_list (rows w)).
  induction l as [|[i r] l IH]; [done|]. intros [Hi Hl]%NoDup_cons. simpl.
  destruct (P i r); [|by apply IH]. apply NoDup_cons. split; [|by apply IH].
  intros ([j r'] & Hij & Hin)%list_elem_of_fmap. simpl in Hij. subst i.
  apply Hi, list_elem_of_fmap.
  exists (j, r'). split; [done|]. apply list_elem_of_In in Hin.
  apply filter_In in Hin as [Hin _]. by apply list_elem_of_In.
Qed.

(** A query that matches exactly one row returns it. *)
Lemma select_rows_unique P w i r :
  rows w !! i = Some r → P i r = true →
  (∀ j r', rows w !! j = Some r' → P j r' = true → j = i) →
  select_rows P w = [(i, r)].
Proof.
  intros Hi Hp Hu. pose proof (proj2 (in_select_rows P w i r) (conj Hi Hp)) as Hin.
  pose proof (select_rows_nodup P w) as Hnd.
  assert (Hall : ∀ x, x ∈ select_rows P w → x = (i, r)).
  { intros [j r'] [Hj Hp']%in_select_rows. pose proof (Hu j r' Hj Hp') as ->.
    congruence. }
  destruct (select_rows P w) as [|x [|y l]].
  - by apply elem_of_nil in Hin.
  - by rewrite (Hall x) by left.
  - rewrite (Hall x), (Hall y) in Hnd by (right; left) || left.
    apply NoDup_cons in Hnd as [Hni _]. destruct Hni. left.
Qed.

Lemma first_row_some P w i r :
  head (select_rows P w) = Some (i, r) → rows w !! i = Some r ∧ P i r = true.
Proof.
  intros Hh. apply in_select_rows. destruct (select_rows P w); [done|].
  simplify_eq/=. left.
Qed.

Lemma first_row_none P w :
  head (select_rows P w) = None ↔ ∀ i r, rows w !! i = Some r → P i r = false.
Proof.
  split.
  - intros Hh i r Hi. destruct (P i r) eqn:Hp; [|done].
    assert ((i, r) ∈ select_rows P w) as Hin by by apply in_select_rows.
    destruct (select_rows P w); [by apply elem_of_nil in Hin|done].
  - intros Hn. destruct (select_rows P w) as [|[i r] l] eqn:Hs; [done|].
    assert ((i, r) ∈ select_rows P w) as [Hi Hp]%in_select_rows by (rewrite Hs; left).
    by rewrite (Hn i r Hi) in Hp.
Qed.

Lemma exists_row_true P w :
  exists_row P w = true ↔ ∃ i r, rows w !! i = Some r ∧ P i r = true.
Proof.
  unfold exists_row. split.
  - destruct (select_rows P w) as [|[i r] l] eqn:Hs; [done|]. intros _.
    exists i, r. apply in_select_rows. rewrite Hs. left.
  - intros (i & r & Hi). apply in_select_rows in Hi.
    destruct (select_rows P w); [by apply elem_of_nil in Hi|done].
Qed.

Lemma exists_row_false P w :
  exists_row P w = false ↔ ∀ i r, rows w !! i = Some r → P i r = false.
Proof.
  rewrite <-not_true_iff_false, exists_row_true. split.
  - intros Hn i r Hi. apply not_true_iff_false. naive_solver.
  - intros Hn (i & r & Hi & Hp). by rewrite (Hn i r Hi) in Hp.
Qed.

Lemma rows_update (P : N → A → bool) f m i :
  map_imap (λ i r, Some (if P i r then f r else r)) m !! i
  = (λ r, if P i r then f r else r) <$> m !! i.
Proof. rewrite map_lookup_imap. by destruct (m !! i). Qed.
End Rows.

(** ** Audit ([audit/services.py]) and the broker *)

(** The target is the key of a row, [str(target_id)]. *)
Definition record_event (action target_type : string) (target_id : N) (actor : option N)
    (workspace : option N) (metadata : list (string * json)) : service () :=
  modify (λ w, {| w with w_audit := w_audit w ++
    [{| ae_action := action; ae_target_type := target_type; ae_target_id := pretty target_id;
        ae_actor := actor; ae_workspace := workspace; ae_metadata := metadata |}] |}).

(** The same for a target that is no row: the column is [varchar(64)]. *)
Definition record_event_on (action target_type target_id : string) (actor : option N)
    (workspace : option N) (metadata : list (string * json)) : service () :=
  raise_if (64 <? String.length target_id)%nat DataError;;
  modify (λ w, {| w with w_audit := w_audit w ++
    [{| ae_action := action; ae_target_type := target_type; ae_target_id := target_id;
        ae_actor := actor; ae_workspace := workspace; ae_metadata := metadata |}] |}).

(** [task.delay(...)], whose failure is swallowed by every caller. *)
Definition publish (t : task) : service () :=
  modify (λ w, {| w with w_published := w_published w ++ [t] |}).

(** Whether a text fits a [varchar(n)]. *)
Definition fits (n : nat) (s : string) : bool := (String.length s <=? n)%nat.
Definition fits_opt (n : nat) (s : option string) : bool :=
  match s with Some s => fits n s | None => true end.

(** [str(pk)] in a document. *)
Definition id_json (i : N) : json := JInt (Z.of_N i).

(** ** Relations between worlds *)

(** A service that keeps the predicate [I]. *)
Definition keeps (I : World → Prop) : relation World := λ w w', I w → I w'.
#[export] Instance keeps_preorder I : PreOrder (keeps I).
Proof. unfold keeps. split; repeat intro; auto. Qed.

(** A service that leaves the component [f] alone. *)
Definition same {B} (f : World → B) : relation World := λ w w', f w' = f w.
#[export] Instance same_preorder {B} (f : World → B) : PreOrder (same f).
Proof. unfold same. split; repeat intro; congruence. Qed.

(** The clock does not move during an operation, and identifiers are never
    handed out twice. *)
Definition next_grows : relation World := λ w w', (w_next w <= w_next w')%N.
#[export] Instance next_grows_preorder : PreOrder next_grows.
Proof. unfold next_grows. split; [intros x|intros x y z]; lia. Qed.

(** ** Symbolic execution of the primitives *)

Lemma wp_get_now (Q : exn + Z → World → Prop) w : Q (inr (w_now w)) w → wp get_now Q w.
Proof. done. Qed.
Lemma wp_find_row {A} `{Table A} i (Q : exn + option A → World → Prop) w :
  Q (inr (rows w !! i)) w → wp (find_row i) Q w.
Proof. done. Qed.
Lemma wp_get_row {A} `{Table A} i (Q : exn + A → World → Prop) w :
  match rows w !! i with
  | Some r => Q (inr r) w
  | None => Q (inl DoesNotExist) w
  end → wp (get_row i) Q w.
Proof.
  intros HQ. unfold get_row. apply wp_bind, wp_find_row. wp_beta.
  by destruct (rows w !! i).
Qed.
Lemma wp_first_row {A} `{Table A} P (Q : exn + option (N * A) → World → Prop) w :
  Q (inr (head (select_rows P w))) w → wp (first_row P) Q w.
Proof. done. Qed.
Lemma wp_get_where {A} `{Table A} P (Q : exn + N * A → World → Prop) w :
  match select_rows P w with
  | [x] => Q (inr x) w
  | [] => Q (inl DoesNotExist) w
  | _ => Q (inl MultipleObjectsReturned) w
  end → wp (get_where P) Q w.
Proof.
  intros HQ. unfold get_where. apply wp_bind, wp_gets. wp_beta.
  by destruct (select_rows P w) as [|? []].
Qed.
Lemma wp_save_row {A} `{Table A} i (r : A) (Q : exn + () → World → Prop) w :
  Q (inr ()) (set_rows (<[i := r]> (rows w)) w) → wp (save_row i r) Q w.
Proof. done. Qed.
Lemma wp_update_rows {A} `{Table A} (P : N → A → bool) (f : A → A) (Q : exn + () → World → Prop) w :
  Q (inr ()) (set_rows (map_imap (λ i r, Some (if P i r then f r else r)) (rows w)) w) →
  wp (update_rows P f) Q w.
Proof. done. Qed.
Lemma wp_fresh (Q : exn + N → World → Prop) w :
  Q (inr (w_next w)) {| w with w_next := N.succ (w_next w) |} → wp fresh Q w.
Proof. done. Qed.
Lemma wp_create_row {A} `{Table A} (r : A) (Q : exn + N → World → Prop) w :
  Q (inr (w_next w))
    (set_rows (<[w_next w := r]> (rows {| w with w_next := N.succ (w_next w) |}))
       {| w with w_next := N.succ (w_next w) |}) →
  wp (create_row r) Q w.
Proof. done. Qed.
Lemma wp_record_event a tt ti ac ws md (Q : exn + () → World → Prop) w :
  Q (inr ()) {| w with w_audit := w_audit w ++
    [{| ae_action := a; ae_target_type := tt; ae_target_id := pretty ti;
        ae_actor := ac; ae_workspace := ws; ae_metadata := md |}] |} →
  wp (record_event a tt ti ac ws md) Q w.
Proof. done. Qed.
Lemma wp_publish t (Q : exn + () → World → Prop) w :
  Q (inr ()) {| w with w_published := w_published w ++ [t] |} → wp (publish t) Q w.
Proof. done. Qed.

Ltac svc_step :=
  lazymatch goal with
  | |- wp get_now _ _ => apply wp_get_now
  | |- wp (or_now _) _ _ => unfold or_now
  | |- wp fresh _ _ => apply wp_fresh
  | |- wp (find_row _) _ _ => apply wp_find_row
  | |- wp (get_row _) _ _ => apply wp_get_row
  | |- wp (first_row _) _ _ => apply wp_first_row
  | |- wp (get_where _) _ _ => apply wp_get_where
  | |- wp (save_row _ _) _ _ => apply wp_save_row
  | |- wp (update_rows _ _) _ _ => apply wp_update_rows
  | |- wp (create_row _) _ _ => apply wp_create_row
  | |- wp (record_event _ _ _ _ _ _) _ _ => apply wp_record_event
  | |- wp (publish _) _ _ => apply wp_publish
  | |- match ?x with Some _ => _ | None => _ end => destruct x eqn:?
  | _ => wp_step
  end.

Ltac svc_steps := repeat svc_step.

(** Unfolding a run of a service from its weakest precondition. *)
Lemma wp_run {A} (m : service A) w r w' (Q : exn + A → World → Prop) :
  wp m Q w → m w = (r, w') → Q r w'.
Proof. unfold wp. intros HQ E. by rewrite E in HQ. Qed.

Lemma included_of_wp {A} (R : relation World) (m : service A) :
  (∀ w, wp m (λ _, R w) w) → included R m.
Proof. done. Qed.

Lemma wp_of_included {A} (R : relation World) (m : service A) w :
  included R m → wp m (λ _, R w) w.
Proof. intros Hm. apply Hm. Qed.

(** ** Referential integrity

    The foreign keys of a webhook delivery, which the database enforces. *)
Definition foreign_keys (w : World) : Prop :=
  ∀ i wd, w_webhook_deliveries w !! i = Some wd →
    is_Some (w_webhook_endpoints w !! wd_endpoint wd) ∧
    is_Some (w_webhook_events w !! wd_event wd).

(** ** Uniqueness constraints

    A constraint is a symmetric relation no two rows of the table may be in;
    saving a row that would clash with another raises [IntegrityError]. *)

(** A row that is one-to-one with its parent: keyed by the parent's id. *)
Definition create_once {A} `{Table A} (i : N) (r : A) : service () :=
  taken ← gets (λ w, bool_decide (is_Some (rows (A:=A) w !! i)));
  raise_if taken IntegrityError;;
  save_row i r.

Section Unique.
Context {A : Type} `{Table A} (clash : A → A → bool).

Definition unique (m : gmap N A) : Prop :=
  ∀ i j a b, i ≠ j → m !! i = Some a → m !! j = Some b → clash a b = false.

Definition save_unique (i : N) (r : A) : service () :=
  taken ← gets (exists_row (λ j q, negb (bool_decide (j = i)) && clash r q));
  raise_if taken IntegrityError;;
  save_row i r.

Definition clashes (i : N) (r : A) (w : World) : bool :=
  exists_row (λ j q, negb (bool_decide (j = i)) && clash r q) w.

Lemma clashes_false i r w :
  clashes i r w = false ↔ ∀ j q, rows w !! j = Some q → j ≠ i → clash r q = false.
Proof.
  unfold clashes. rewrite exists_row_false. split.
  - intros Hn j q Hj Hne. specialize (Hn j q Hj). rewrite bool_decide_eq_false_2 in Hn by done.
    exact Hn.
  - intros Hn j q Hj. destruct (decide (j = i)) as [->|Hne];
      [by rewrite bool_decide_eq_true_2|]. rewrite bool_decide_eq_false_2 by done.
    by apply (Hn j).
Qed.

Lemma wp_save_unique i r (Q : exn + () → World → Prop) w :
  (if clashes i r w then Q (inl IntegrityError) w
   else Q (inr ()) (set_rows (<[i := r]> (rows w)) w)) →
  wp (save_unique i r) Q w.
Proof.
  intros HQ. unfold save_unique. apply wp_bind, wp_gets. wp_beta.
  unfold clashes in HQ. by destruct (exists_row _ w).
Qed.

Context (clash_sym : ∀ a b, clash a b = clash b a).

Lemma unique_insert i r w :
  unique (rows w) → clashes i r w = false → unique (<[i := r]> (rows w)).
Proof.
  intros Hu Hc j k a b Hne. rewrite clashes_false in Hc.
  intros [[<- <-]|[Hj Ha]]%lookup_insert_Some [[<- <-]|[Hk Hb]]%lookup_insert_Some; [done|..].
  - by apply (Hc k b).
  - rewrite clash_sym. by apply (Hc j a).
  - by apply (Hu j k).
Qed.

(** An update that never makes rows clash keeps the constraint. *)
Lemma unique_update (P : N → A → bool) f m :
  (∀ a b, clash a b = false → clash (f a) b = false) → unique m →
  unique (map_imap (λ i r, Some (if P i r then f r else r)) m).
Proof.
  intros Hf Hu i j a b Hne. rewrite !rows_update.
  destruct (m !! i) as [a0|] eqn:Ha; [|done]. destruct (m !! j) as [b0|] eqn:Hb; [|done].
  simpl. intros [= <-] [= <-]. pose proof (Hu i j a0 b0 Hne Ha Hb) as Hab.
  destruct (P i a0), (P j b0); [|by apply Hf|rewrite clash_sym; apply Hf; by rewrite clash_sym|done].
  apply Hf. rewrite clash_sym. apply Hf. by rewrite clash_sym.
Qed.
End Unique.
