(* ===== verification/PolicyAdmin.v ===== *)
(** * Policy configuration

    [policies/services.py] and [resolve_active_version] of
    [policies/evaluator.py]: the rows a gate writes, the configuration of
    policies, versions and rules, and the active version of a workspace.  The
    uniqueness constraints of the tables are checks of the writes. *)

From stdpp Require Import base gmap strings list relations.
From Stdlib Require Import ZArith Lia.
From S2P Require Import Prelude Json Domain Policy Models Store.

Section PolicyAdmin.
Context `{Settings} `{PyLib}.

(** ** The rows of a gate *)

Definition persist_risk_assessment (execution_id : N) (execution : ToolExecution)
    (tool_key : string) (risk : RiskOutcome) : service RiskAssessment :=
  let row := {|
    ra_workspace := te_workspace execution; ra_tool_key := tool_key;
    ra_base_risk := base_risk risk; ra_effective_risk := effective_risk risk;
    ra_side_effect_type := side_effect_type risk; ra_factors := factors risk |} in
  create_once execution_id row;;
  mret row.

(** [decision_code = CharField(max_length=64)]. *)
Definition MAX_DECISION_CODE_LENGTH : nat := 64.

Definition persist_policy_evaluation (execution_id : N) (execution : ToolExecution)
    (policy_version : option N) (decision : PolicyEffect.t) (decision_code safe_reason : string)
    (matched_rule_ids : list N) : service PolicyEvaluation :=
  let row := {|
    pe_workspace := te_workspace execution; pe_policy_version := policy_version;
    pe_decision := decision; pe_decision_code := decision_code;
    pe_safe_reason := str_take 500 safe_reason; pe_matched_rule_ids := matched_rule_ids |} in
  raise_if (MAX_DECISION_CODE_LENGTH <? String.length decision_code)%nat DataError;;
  create_once execution_id row;;
  mret row.

(** ** Constraints of the configuration tables *)

Definition MAX_POLICY_NAME_LENGTH : nat := 200.
Definition MAX_POLICY_DESCRIPTION_LENGTH : nat := 2000.
Definition MAX_RULE_NAME_LENGTH : nat := 200.

(** [policy_workspace_name_uniq] and [policy_one_active_per_workspace]. *)
Definition policy_clash (p q : PolicyRow) : bool :=
  bool_decide (pol_workspace p = pol_workspace q)
  && (String.eqb (pol_name p) (pol_name q)
      || bool_decide (pol_status p = PolicyStatus.ACTIVE)
         && bool_decide (pol_status q = PolicyStatus.ACTIVE)).

(** [policy_version_policy_version_uniq] and [policy_version_one_active_per_policy]. *)
Definition version_clash (v v' : PolicyVersion) : bool :=
  bool_decide (pv_policy v = pv_policy v')
  && (bool_decide (pv_version v = pv_version v')
      || bool_decide (pv_status v = PolicyVersionStatus.ACTIVE)
         && bool_decide (pv_status v' = PolicyVersionStatus.ACTIVE)).

(** [policy_rule_version_priority_uniq] and [policy_rule_version_name_uniq]. *)
Definition rule_clash (r r' : PolicyRule) : bool :=
  bool_decide (rule_version r = rule_version r')
  && (bool_decide (rule_priority r = rule_priority r')
      || String.eqb (rule_name r) (rule_name r')).

Definition save_policy (i : N) (p : PolicyRow) : service () :=
  raise_if (negb (fits MAX_POLICY_NAME_LENGTH (pol_name p)
                  && fits MAX_POLICY_DESCRIPTION_LENGTH (pol_description p))) DataError;;
  raise_if (String.eqb (pol_name p) "") IntegrityError;;
  save_unique policy_clash i p.

(** ** Policies *)

Definition create_policy (workspace actor : N) (name description : string) : service N :=
  atomic (
    policy ← fresh;
    let name := str_strip name in
    save_policy policy {| pol_workspace := workspace; pol_name := name;
                          pol_description := description; pol_status := PolicyStatus.DRAFT |};;
    record_event "policy.created" "policy" policy (Some actor) (Some workspace)
      [("policy_id", id_json policy); ("name", JStr name)];;
    mret policy).

(** [policy] is the caller's copy of the row: the whole of it is written back. *)
Definition update_policy (workspace policy_id : N) (policy : PolicyRow) (actor : N)
    (name description : option string) : service () :=
  atomic (
    let policy := match name with
      | Some name => {| policy with pol_name := str_strip name |} | None => policy end in
    let policy := match description with
      | Some description => {| policy with pol_description := description |}
      | None => policy end in
    save_policy policy_id policy;;
    record_event "policy.updated" "policy" policy_id (Some actor) (Some workspace)
      [("policy_id", id_json policy_id)]).

Definition version_of (policy : N) (_ : N) (v : PolicyVersion) : bool :=
  bool_decide (pv_policy v = policy).

(** The number after the last version. *)
Definition next_version (versions : list (N * PolicyVersion)) : N :=
  N.succ (foldr (λ iv n, N.max (pv_version iv.2) n) 0%N versions).

Definition create_policy_version (workspace policy actor : N) : service N :=
  atomic (
    versions ← gets (select_rows (version_of policy));
    let number := next_version versions in
    version ← fresh;
    save_unique version_clash version
      {| pv_policy := policy; pv_version := number; pv_status := PolicyVersionStatus.DRAFT;
         pv_published_at := None |};;
    record_event "policy.version_created" "policy_version" version (Some actor) (Some workspace)
      [("policy_id", id_json policy); ("version", id_json number)];;
    mret version).

(** ** Rules *)

(** [entry["predicate"] not in known]: a list or an object is unhashable. *)
Definition validate_condition_entry (entry : json) : service () :=
  match entry with
  | JObj entry =>
      match obj_get "predicate" entry with
      | None => raise PolicyInvalidRuleError
      | Some (JStr name) =>
          raise_if (negb (str_in name known_predicate_names)) PolicyInvalidRuleError
      | Some (JList _ | JObj _) => raise (OtherExc 0)
      | Some _ => raise PolicyInvalidRuleError
      end
  | _ => raise PolicyInvalidRuleError
  end.

Definition validate_condition_config (condition_config : json) : service () :=
  match condition_config with
  | JObj config =>
      raise_if (existsb (λ kv, negb (String.eqb kv.1 "all")) config) PolicyInvalidRuleError;;
      match default (JList []) (obj_get "all" config) with
      | JList predicates => for_each predicates validate_condition_entry
      | _ => raise PolicyInvalidRuleError
      end
  | _ => raise PolicyInvalidRuleError
  end.

(** The validated document of a new rule; [None] is an absent key. *)
Record RuleData := {
  rd_name : string;
  rd_priority : N;
  rd_enabled : option bool;
  rd_tool_key : option string;
  rd_risk_levels : option (list string);
  rd_side_effect_types : option (list string);
  rd_condition_config : option json;
  rd_effect : PolicyEffect.t;
  rd_required_role : option string;
  rd_approval_ttl_seconds : option Z;
}.

(** [PolicyRule.clean], called by [full_clean]: Django's own [ValidationError]. *)
Definition clean_rule (r : PolicyRule) : service () :=
  for_each (rule_risk_levels r) (λ level,
    raise_if (negb (str_in level (map RiskLevel.value RiskLevel.values)))
      DjangoValidationError);;
  for_each (rule_side_effect_types r) (λ kind,
    raise_if (negb (str_in kind (map SideEffectType.value SideEffectType.values)))
      DjangoValidationError).

Definition config_fields (condition_config : json) : list (string * json) :=
  match condition_config with JObj l => l | _ => [] end.

Definition rule_of (rule version : N) (data : RuleData) (condition_config : json) : PolicyRule :=
  {| rule_id := rule; rule_version := version; rule_name := str_strip (rd_name data);
     rule_priority := rd_priority data; rule_enabled := default true (rd_enabled data);
     rule_tool_key := default "" (rd_tool_key data);
     rule_risk_levels := default [] (rd_risk_levels data);
     rule_side_effect_types := default [] (rd_side_effect_types data);
     rule_condition_config := config_fields condition_config; rule_effect := rd_effect data;
     rule_required_role := default "" (rd_required_role data);
     rule_approval_ttl_seconds := rd_approval_ttl_seconds data |}.

(** [data.get("condition_config") or {"all": []}]. *)
Definition config_of (data : RuleData) : json :=
  match rd_condition_config data with
  | Some c => if falsy c then JObj [("all", JList [])] else c
  | None => JObj [("all", JList [])]
  end.

Definition rule_in (version : N) (_ : N) (r : PolicyRule) : bool :=
  bool_decide (rule_version r = version).

(** [policy_version] is the caller's copy of the version's row. *)
Definition add_policy_rule (version_id : N) (policy_version : PolicyVersion) (data : RuleData)
    : service N :=
  raise_if (negb (bool_decide (pv_status policy_version = PolicyVersionStatus.DRAFT)))
    PolicyInvalidRuleError;;
  present ← gets (select_rows (rule_in version_id));
  raise_if (MAX_RULES_PER_VERSION <=? length present)%nat PolicyLimitExceededError;;
  let condition_config := config_of data in
  validate_condition_config condition_config;;
  atomic (
    rule ← fresh;
    let row := rule_of rule version_id data condition_config in
    raise_if (negb (fits MAX_RULE_NAME_LENGTH (rule_name row) && fits 128 (rule_tool_key row)
                    && fits 32 (rule_required_role row))) DataError;;
    raise_if (String.eqb (rule_name row) "") IntegrityError;;
    save_unique rule_clash rule row;;
    clean_rule row;;
    mret rule).

(** ** Publication and activation *)

Definition active_version_of (policy : N) (_ : N) (v : PolicyVersion) : bool :=
  bool_decide (pv_policy v = policy) && bool_decide (pv_status v = PolicyVersionStatus.ACTIVE).

Definition superseded (v : PolicyVersion) : PolicyVersion :=
  {| v with pv_status := PolicyVersionStatus.SUPERSEDED |}.
Definition published (v : PolicyVersion) (now : Z) : PolicyVersion :=
  {| v with pv_status := PolicyVersionStatus.ACTIVE; pv_published_at := Some now |}.

Definition publish_policy_version (workspace version_id actor : N) : service () :=
  atomic (
    locked ← get_row version_id;
    raise_if (negb (bool_decide (pv_status locked = PolicyVersionStatus.DRAFT)))
      PolicyVersionNotActivatableError;;
    update_rows (active_version_of (pv_policy locked)) superseded;;
    now ← get_now;
    save_unique version_clash version_id (published locked now);;
    record_event "policy.version_published" "policy_version" version_id (Some actor)
      (Some workspace) [("policy_id", id_json (pv_policy locked));
                        ("version", id_json (pv_version locked))]).

Definition with_status (status : PolicyStatus.t) (p : PolicyRow) : PolicyRow :=
  {| p with pol_status := status |}.

Definition other_active (workspace policy_id : N) (i : N) (p : PolicyRow) : bool :=
  bool_decide (pol_workspace p = workspace) && bool_decide (pol_status p = PolicyStatus.ACTIVE)
  && negb (bool_decide (i = policy_id)).

Definition activate_policy (workspace policy_id actor : N) : service () :=
  atomic (
    update_rows (other_active workspace policy_id) (with_status PolicyStatus.INACTIVE);;
    locked ← get_row policy_id;
    save_policy policy_id (with_status PolicyStatus.ACTIVE locked);;
    record_event "policy.activated" "policy" policy_id (Some actor) (Some workspace)
      [("policy_id", id_json policy_id)]).

Definition deactivate_policy (workspace policy_id actor : N) : service () :=
  atomic (
    locked ← get_row policy_id;
    save_policy policy_id (with_status PolicyStatus.INACTIVE locked);;
    record_event "policy.deactivated" "policy" policy_id (Some actor) (Some workspace)
      [("policy_id", id_json policy_id)]).

Definition active_policy (workspace : N) (_ : N) (p : PolicyRow) : bool :=
  bool_decide (pol_workspace p = workspace) && bool_decide (pol_status p = PolicyStatus.ACTIVE).

Definition resolve_active_version (workspace : N) : service (option (N * PolicyVersion)) :=
  policy ← first_row (active_policy workspace);
  match policy with
  | None => mret None
  | Some (policy, _) => first_row (active_version_of policy)
  end.

(** The rule rows of a version, which [evaluate_policy] queries. *)
Definition version_rules (version : N) (w : World) : list PolicyRule :=
  map snd (select_rows (rule_in version) w).

(** ** The configuration stays well formed *)

Record config_wf (w : World) : Prop := {
  wf_names : ∀ i p, w_policies w !! i = Some p →
    fits MAX_POLICY_NAME_LENGTH (pol_name p) && fits MAX_POLICY_DESCRIPTION_LENGTH (pol_description p)
    = true ∧ pol_name p ≠ "";
  wf_policies : unique policy_clash (w_policies w);
  wf_versions : unique version_clash (w_policy_versions w);
  wf_rules : unique rule_clash (w_policy_rules w);
}.

Lemma policy_clash_sym p q : policy_clash p q = policy_clash q p.
Proof.
  unfold policy_clash. rewrite String.eqb_sym, (andb_comm (bool_decide (pol_status p = _))).
  by rewrite (bool_decide_ext (pol_workspace p = pol_workspace q) (pol_workspace q = pol_workspace p)).
Qed.
Lemma version_clash_sym v v' : version_clash v v' = version_clash v' v.
Proof.
  unfold version_clash. rewrite (andb_comm (bool_decide (pv_status v = _))).
  rewrite (bool_decide_ext (pv_policy v = pv_policy v') (pv_policy v' = pv_policy v)) by done.
  by rewrite (bool_decide_ext (pv_version v = pv_version v') (pv_version v' = pv_version v)).
Qed.
Lemma rule_clash_sym r r' : rule_clash r r' = rule_clash r' r.
Proof.
  unfold rule_clash. rewrite String.eqb_sym.
  rewrite (bool_decide_ext (rule_version r = rule_version r') (rule_version r' = rule_version r)) by done.
  by rewrite (bool_decide_ext (rule_priority r = rule_priority r') (rule_priority r' = rule_priority r)).
Qed.

(** Deactivating a policy and superseding a version never make rows clash. *)
Lemma inactive_no_clash p q :
  policy_clash p q = false → policy_clash (with_status PolicyStatus.INACTIVE p) q = false.
Proof.
  unfold policy_clash. simpl. destruct (bool_decide (pol_workspace p = _)); simpl; [|done].
  rewrite orb_false_r. by intros [-> _]%orb_false_iff.
Qed.
Lemma superseded_no_clash v v' :
  version_clash v v' = false → version_clash (superseded v) v' = false.
Proof.
  unfold version_clash. simpl. destruct (bool_decide (pv_policy v = _)); simpl; [|done].
  rewrite orb_false_r. by intros [-> _]%orb_false_iff.
Qed.

(** A version that was published, and the rules of a published version. *)
Definition frozen (w w' : World) : Prop :=
  (∀ i v, w_policy_versions w !! i = Some v →
     ∃ v', w_policy_versions w' !! i = Some v' ∧ pv_policy v' = pv_policy v ∧
       pv_version v' = pv_version v ∧
       (pv_status v ≠ PolicyVersionStatus.DRAFT →
          pv_status v' ≠ PolicyVersionStatus.DRAFT ∧ pv_published_at v' = pv_published_at v)) ∧
  (∀ v row, w_policy_versions w !! v = Some row → pv_status row ≠ PolicyVersionStatus.DRAFT →
     ∀ i r, rule_version r = v → (w_policy_rules w' !! i = Some r ↔ w_policy_rules w !! i = Some r)).

(** Identifiers are never handed out twice. *)
Definition config_fresh (w : World) : Prop :=
  ∀ i, (w_next w <= i)%N → w_policy_versions w !! i = None ∧ w_policy_rules w !! i = None.

Definition config_ok (w : World) : Prop := config_wf w ∧ config_fresh w.

Definition config_rel (w w' : World) : Prop := config_ok w → config_ok w' ∧ frozen w w'.

Lemma frozen_refl w : frozen w w.
Proof. split; [intros i v Hv; by exists v|done]. Qed.

Lemma frozen_trans w1 w2 w3 : frozen w1 w2 → frozen w2 w3 → frozen w1 w3.
Proof.
  intros [Hv12 Hr12] [Hv23 Hr23]. split.
  - intros i v Hi. destruct (Hv12 i v Hi) as (v2 & H2 & Hp & Hn & Hs).
    destruct (Hv23 i v2 H2) as (v3 & H3 & Hp3 & Hn3 & Hs3). exists v3.
    split_and!; [done|congruence..|]. intros Hd. destruct (Hs Hd) as [Hd2 Ht].
    destruct (Hs3 Hd2). split; [done|congruence].
  - intros v row Hv Hd i r Hr. destruct (Hv12 v row Hv) as (row2 & H2 & _ & _ & Hs).
    destruct (Hs Hd) as [Hd2 _]. by rewrite (Hr23 v row2 H2 Hd2 i r Hr), (Hr12 v row Hv Hd i r Hr).
Qed.

#[export] Instance config_rel_preorder : PreOrder config_rel.
Proof.
  split; [intros w Hw; split; [done|apply frozen_refl]|].
  intros w1 w2 w3 H12 H23 H1. destruct (H12 H1) as [H2 F12]. destruct (H23 H2) as [H3 F23].
  split; [done|by eapply frozen_trans].
Qed.

(** A step that touches neither versions nor rules. *)
Lemma frozen_same w w' :
  w_policy_versions w' = w_policy_versions w → w_policy_rules w' = w_policy_rules w → frozen w w'.
Proof. intros Hv Hr. unfold frozen. rewrite Hv, Hr. apply frozen_refl. Qed.

Lemma included_when_config {A} (m : service A) :
  (∀ w, config_ok w → wp m (λ _ w', config_rel w w') w) → included config_rel m.
Proof. intros Hm w Hok. by apply (Hm w Hok). Qed.

Lemma included_config_same {A} (m : service A) :
  (∀ w, let w' := (m w).2 in w_policies w' = w_policies w ∧
     w_policy_versions w' = w_policy_versions w ∧ w_policy_rules w' = w_policy_rules w ∧
     (w_next w <= w_next w')%N) → included config_rel m.
Proof.
  intros Hm w [[Hn Hp Hv Hr] Hf]. destruct (Hm w) as (Hp' & Hv' & Hr' & Hle).
  split; [|by apply frozen_same]. split; [split; rewrite ?Hp', ?Hv', ?Hr'; done|].
  intros i Hi. rewrite Hv', Hr'. apply Hf. lia.
Qed.

Lemma record_event_config a tt ti ac ws md :
  included config_rel (record_event a tt ti ac ws md).
Proof. apply included_config_same. intros w. split_and!; done. Qed.
Lemma fresh_config : included config_rel fresh.
Proof. apply included_config_same. intros w. split_and!; simpl; [done..|lia]. Qed.

Lemma wp_save_policy i p (Q : exn + () → World → Prop) w :
  (∀ e, Q (inl e) w) →
  (fits MAX_POLICY_NAME_LENGTH (pol_name p) && fits MAX_POLICY_DESCRIPTION_LENGTH (pol_description p)
   = true → pol_name p ≠ "" → clashes policy_clash i p w = false →
   Q (inr ()) {| w with w_policies := <[i := p]> (w_policies w) |}) →
  wp (save_policy i p) Q w.
Proof.
  intros He Hok. unfold save_policy. svc_steps; try apply He.
  apply negb_false_iff in Heqb. apply String.eqb_neq in Heqb0. apply wp_save_unique.
  destruct (clashes policy_clash i p w) eqn:Hc; [apply He|by apply Hok].
Qed.

Lemma save_policy_config i p : included config_rel (save_policy i p).
Proof.
  apply included_when_config. intros w _. apply wp_save_policy; [done|].
  intros Hfit Hname Hc [[Hn Hp Hv Hr] Hf]. split; [|by apply frozen_same]. split; [|exact Hf].
  split; simpl; [|exact (unique_insert policy_clash policy_clash_sym i p w Hp Hc)|done..].
  intros j q [[_ <-]|[_ Hq]]%lookup_insert_Some; [done|by eapply Hn].
Qed.

Lemma deactivate_others_config P :
  included config_rel (update_rows P (with_status PolicyStatus.INACTIVE)).
Proof.
  intros w [[Hn Hp Hv Hr] Hf]. split; [|by apply frozen_same]. split; [|exact Hf].
  split; simpl; [|exact (unique_update policy_clash policy_clash_sym P _ _ inactive_no_clash Hp)|done..].
  intros i p. rewrite rows_update. destruct (w_policies w !! i) as [q|] eqn:Hq; [|done].
  simpl. intros [= <-]. destruct (P i q); simpl; by eapply Hn.
Qed.

Lemma create_policy_config workspace actor name description :
  included config_rel (create_policy workspace actor name description).
Proof.
  pose proof record_event_config. pose proof fresh_config. pose proof save_policy_config.
  unfold create_policy. included_steps; auto.
Qed.
Lemma update_policy_config workspace id policy actor name description :
  included config_rel (update_policy workspace id policy actor name description).
Proof.
  pose proof record_event_config. pose proof save_policy_config.
  unfold update_policy. cbv zeta. included_steps; auto.
Qed.
Lemma activate_policy_config workspace id actor :
  included config_rel (activate_policy workspace id actor).
Proof.
  pose proof record_event_config. pose proof save_policy_config. pose proof deactivate_others_config.
  unfold activate_policy, get_row, find_row. included_steps; auto.
Qed.
Lemma deactivate_policy_config workspace id actor :
  included config_rel (deactivate_policy workspace id actor).
Proof.
  pose proof record_event_config. pose proof save_policy_config.
  unfold deactivate_policy, get_row, find_row. included_steps; auto.
Qed.

(** A new row under a fresh identifier. *)
Lemma create_policy_version_config workspace policy actor :
  included config_rel (create_policy_version workspace policy actor).
Proof.
  apply included_when_config. intros w _. unfold create_policy_version. svc_steps.
  apply wp_save_unique. destruct (clashes _ _ _ _) eqn:Hc; wp_beta; [done|]. svc_steps.
  intros [[Hn Hp Hv Hr] Hf].
  split; [split; [split|]|split]; simpl; [done|done| |done|..].
  - exact (unique_insert version_clash version_clash_sym _ _
             {| w with w_next := N.succ (w_next w) |} Hv Hc).
  - intros i. simpl. intros Hi. rewrite lookup_insert_ne by lia. apply Hf. lia.
  - intros i v Hi. exists v. split; [|done]. rewrite lookup_insert_ne; [done|].
    intros <-. destruct (Hf (w_next w)) as [Hnone _]; [lia|congruence].
  - done.
Qed.

Lemma for_each_raises {A} (l : list A) (f : A → service ()) (Q : exn + () → World → Prop) w :
  (∀ x w, (f x w).2 = w) → (∀ r, Q r w) → wp (for_each l f) Q w.
Proof.
  intros Hf HQ. apply (wp_for_each _ _ (λ w', w' = w)); [done| |by intros r ? ->].
  intros x w' _ ->. unfold wp. by rewrite Hf.
Qed.

Lemma raise_if_pure b (e : exn) (w : World) : (raise_if b e w).2 = w.
Proof. by destruct b. Qed.

Lemma clean_rule_pure r (Q : exn + () → World → Prop) w : (∀ x, Q x w) → wp (clean_rule r) Q w.
Proof.
  intros HQ. unfold clean_rule. apply wp_bind, for_each_raises; [intros; apply raise_if_pure|].
  intros [e|[]]; wp_beta; [done|]. apply for_each_raises; [intros; apply raise_if_pure|done].
Qed.

Lemma validate_config_pure c (Q : exn + () → World → Prop) w :
  (∀ x, Q x w) → wp (validate_condition_config c) Q w.
Proof.
  intros HQ. unfold validate_condition_config. destruct c; svc_steps; try done.
  destruct (default (JList []) _); svc_steps; try done.
  apply for_each_raises; [|done]. intros x w'. unfold validate_condition_entry.
  destruct x as [| | | | | |en]; try done. destruct (obj_get "predicate" en) as [[]|]; try done.
  apply raise_if_pure.
Qed.

(** The loaded version says it is a draft only where the stored row is one. *)
Definition draft_up_to_date (w : World) (id : N) (loaded : PolicyVersion) : Prop :=
  pv_status loaded = PolicyVersionStatus.DRAFT →
  ∀ v, w_policy_versions w !! id = Some v → pv_status v = PolicyVersionStatus.DRAFT.

Lemma add_policy_rule_config id v data w :
  draft_up_to_date w id v → config_rel w (add_policy_rule id v data w).2.
Proof.
  intros Hid. change (wp (add_policy_rule id v data) (λ _ w', config_rel w w') w).
  unfold add_policy_rule. svc_steps; try done. apply validate_config_pure. intros [e|[]]; wp_beta;
    [done|]. svc_steps; try done.
  apply wp_save_unique. destruct (clashes _ _ _ _) eqn:Hc; wp_beta; [done|].
  apply wp_bind, clean_rule_pure. intros [e|[]]; wp_beta; [done|]. svc_steps.
  intros [[Hn Hp Hv Hr] Hf].
  apply negb_false_iff, bool_decide_eq_true in Heqb.
  split; [split; [split|]|split]; simpl; [done|done|done| |..].
  - exact (unique_insert rule_clash rule_clash_sym _ _
             {| w with w_next := N.succ (w_next w) |} Hr Hc).
  - intros i. simpl. intros Hi. rewrite lookup_insert_ne by lia. apply Hf. lia.
  - intros i v' Hi. by exists v'.
  - intros v' row Hrow Hd i r Hri. destruct (decide (i = w_next w)) as [->|Hne].
    + destruct (Hf (w_next w)) as [_ Hnone]; [lia|]. rewrite lookup_insert_eq, Hnone.
      split; [|done]. intros [= <-]. simpl in Hri. subst v'.
      destruct Hd. by apply Hid.
    + by rewrite lookup_insert_ne.
Qed.

(** ** Publication *)

(** The versions once [version] of [policy] is published. *)
Definition publish_map (version : N) (v : PolicyVersion) (now : Z) (m : gmap N PolicyVersion)
    : gmap N PolicyVersion :=
  <[version := published v now]>
    (map_imap (λ i r, Some (if active_version_of (pv_policy v) i r then superseded r else r)) m).

Definition with_versions (m : gmap N PolicyVersion) (w : World) : World :=
  {| w with w_policy_versions := m |}.

Lemma publish_no_clash version v w :
  config_wf w → w_policy_versions w !! version = Some v →
  let m := map_imap (λ i r, Some (if active_version_of (pv_policy v) i r then superseded r else r))
             (w_policy_versions w) in
  clashes version_clash version (published v (w_now w)) (with_versions m w) = false.
Proof.
  intros Hwf Hv m. apply clashes_false. intros j q. unfold rows. simpl. unfold m.
  rewrite rows_update. destruct (w_policy_versions w !! j) as [q0|] eqn:Hq; [|done].
  simpl. intros [= <-] Hne.
  assert (Hc : version_clash v q0 = false) by by apply (wf_versions _ Hwf version j).
  revert Hc. unfold version_clash, active_version_of. simpl.
  destruct (decide (pv_policy v = pv_policy q0)) as [Hp|Hp].
  - rewrite (bool_decide_eq_true_2 _ Hp), (bool_decide_eq_true_2 (pv_policy q0 = _)) by done.
    simpl. intros [Hn _]%orb_false_iff.
    destruct (bool_decide (pv_status q0 = _)) eqn:Ha; simpl;
      rewrite ?(bool_decide_eq_true_2 _ Hp), Hn, ?Ha; done.
  - intros _. rewrite (bool_decide_eq_false_2 (pv_policy q0 = _)) by congruence. simpl.
    by rewrite bool_decide_eq_false_2.
Qed.

Lemma publish_run workspace version actor v w :
  config_wf w → w_policy_versions w !! version = Some v →
  wp (publish_policy_version workspace version actor)
    (λ r w',
       if bool_decide (pv_status v = PolicyVersionStatus.DRAFT) then
         r = inr () ∧ w_policy_versions w' = publish_map version v (w_now w) (w_policy_versions w) ∧
         w_policies w' = w_policies w ∧ w_policy_rules w' = w_policy_rules w ∧
         w_next w' = w_next w ∧ w_now w' = w_now w
       else r = inl PolicyVersionNotActivatableError ∧ w' = w) w.
Proof.
  intros Hwf Hv. unfold publish_policy_version.
  apply wp_atomic, wp_bind, wp_get_row. unfold rows. simpl. rewrite Hv. wp_beta.
  destruct (bool_decide (pv_status v = PolicyVersionStatus.DRAFT)); simpl; [|done].
  svc_steps. apply wp_save_unique.
  pose proof (publish_no_clash version v w Hwf Hv) as Hc. cbv zeta in Hc.
  unfold with_versions in Hc. simpl in *. rewrite Hc. wp_beta. svc_steps. done.
Qed.

Lemma publish_config workspace version actor :
  included config_rel (publish_policy_version workspace version actor).
Proof.
  apply included_when_config. intros w [Hwf Hf].
  destruct (w_policy_versions w !! version) as [v|] eqn:Hv.
  2: { apply wp_atomic, wp_bind, wp_get_row. unfold rows. simpl. by rewrite Hv. }
  eapply wp_mono; [by apply publish_run|]. intros r w'. simpl. case_bool_decide as Hd.
  2: { by intros [_ ->]. }
  intros (_ & Hvs & Hps & Hrs & Hnx & _) _.
  pose proof (publish_no_clash version v w Hwf Hv) as Hc. cbv zeta in Hc. destruct Hwf as [Hn Hp Hvu Hr].
  split; [split|].
  - split; rewrite ?Hps, ?Hrs; [done|done| |done]. rewrite Hvs.
    refine (unique_insert version_clash version_clash_sym _ _ (with_versions _ w) _ Hc).
    by apply (unique_update version_clash version_clash_sym); [apply superseded_no_clash|].
  - intros i. rewrite Hnx. intros Hi. destruct (Hf i Hi) as [H1 H2]. rewrite Hrs, Hvs. split; [|done].
    unfold publish_map. rewrite lookup_insert_ne by congruence. by rewrite rows_update, H1.
  - split; [|intros; by rewrite Hrs]. intros i q Hq. rewrite Hvs. unfold publish_map.
    destruct (decide (i = version)) as [->|Hne].
    + rewrite lookup_insert_eq. assert (q = v) as -> by congruence. eexists. split; [done|].
      split_and!; [done..|]. by intros [].
    + rewrite lookup_insert_ne by done. rewrite rows_update, Hq. simpl. eexists. split; [done|].
      destruct (active_version_of _ _ _); done.
Qed.

(** The operations of the configuration, with any arguments.  A rule is added with a
    version object that may be stale in all but its draft status, which is what
    [add_policy_rule] tests, without a lock. *)
Inductive config_op : World → World → Prop :=
  | Op_create_policy ws actor name description w :
      config_op w (create_policy ws actor name description w).2
  | Op_update_policy ws id policy actor name description w :
      config_op w (update_policy ws id policy actor name description w).2
  | Op_create_version ws policy actor w : config_op w (create_policy_version ws policy actor w).2
  | Op_add_rule version row data w :
      draft_up_to_date w version row → config_op w (add_policy_rule version row data w).2
  | Op_publish ws version actor w : config_op w (publish_policy_version ws version actor w).2
  | Op_activate ws policy actor w : config_op w (activate_policy ws policy actor w).2
  | Op_deactivate ws policy actor w : config_op w (deactivate_policy ws policy actor w).2.

Lemma config_op_rel w w' : config_op w w' → config_rel w w'.
Proof.
  destruct 1; [apply create_policy_config|apply update_policy_config|
    apply create_policy_version_config|by apply add_policy_rule_config|apply publish_config|
    apply activate_policy_config|apply deactivate_policy_config].
Qed.

(** C31. Over any sequence of configuration operations a workspace has at most one
    active policy and a policy at most one active version, version numbers and
    names stay unique, and a published version is frozen: it never becomes a
    draft again and none of its rules is added, changed or removed.  The requests that add
    a rule do so on a version object whose draft status is not stale; with a stale one a
    rule is added to a published version ([PolicyAdminExamples.stale_draft_adds_rule]). *)
Theorem published_rules_frozen w w' :
  rtc config_op w w' → config_wf w → config_fresh w → config_wf w' ∧ frozen w w'.
Proof.
  intros Hops Hwf Hf.
  assert (config_rel w w') as Hrel
    by (clear Hwf Hf; induction Hops; [done|]; etrans; [by apply config_op_rel|done]).
  destruct (Hrel (conj Hwf Hf)) as [[? _] ?]. done.
Qed.

(** ** Activation *)

Definition activate_map (workspace policy : N) (p : PolicyRow) (m : gmap N PolicyRow)
    : gmap N PolicyRow :=
  <[policy := with_status PolicyStatus.ACTIVE p]>
    (map_imap (λ i r, Some (if other_active workspace policy i r
                            then with_status PolicyStatus.INACTIVE r else r)) m).

Lemma activate_run workspace policy actor p w :
  config_wf w → w_policies w !! policy = Some p → pol_workspace p = workspace →
  wp (activate_policy workspace policy actor)
    (λ r w', r = inr () ∧ w_policies w' = activate_map workspace policy p (w_policies w) ∧
       w_policy_versions w' = w_policy_versions w ∧ w_policy_rules w' = w_policy_rules w) w.
Proof.
  intros Hwf Hp <-. unfold activate_policy. apply wp_atomic, wp_bind, wp_update_rows.
  wp_beta. apply wp_bind, wp_get_row. unfold rows at 1. simpl. rewrite rows_update, Hp. simpl.
  unfold other_active at 1. rewrite (bool_decide_eq_true_2 (policy = policy)) by done.
  rewrite andb_false_r. wp_beta. destruct (wf_names _ Hwf _ _ Hp) as [Hfit Hname].
  unfold save_policy. simpl. rewrite Hfit. simpl. svc_steps.
  { by apply String.eqb_eq in Heqb. }
  apply wp_save_unique. rewrite (proj2 (clashes_false _ _ _ _)).
  { wp_beta. svc_steps. done. }
  intros j q. unfold rows. simpl. rewrite rows_update.
  destruct (w_policies w !! j) as [q0|] eqn:Hq; [|done]. simpl. intros [= <-] Hne.
  assert (Hc : policy_clash p q0 = false) by by apply (wf_policies _ Hwf policy j).
  revert Hc. unfold policy_clash, other_active. rewrite (bool_decide_eq_false_2 (j = policy)) by done.
  destruct (decide (pol_workspace q0 = pol_workspace p)) as [He|He].
  - rewrite (bool_decide_eq_true_2 _ He), (bool_decide_eq_true_2 (pol_workspace p = _)) by done.
    simpl. intros [Hn _]%orb_false_iff. rewrite andb_true_r.
    destruct (bool_decide (pol_status q0 = _)) eqn:Ha; simpl;
      rewrite Hn, ?Ha, bool_decide_eq_true_2; done.
  - intros _. rewrite (bool_decide_eq_false_2 _ He). simpl.
    by rewrite (bool_decide_eq_false_2 (pol_workspace p = _)).
Qed.

(** ** The active version *)

(** The active policy of a workspace and the active version of a policy, as a
    relation; with the constraints of the tables they are unique. *)
Definition governs (w : World) (workspace i : N) (v : PolicyVersion) : Prop :=
  ∃ policy p, w_policies w !! policy = Some p ∧ active_policy workspace policy p = true ∧
    w_policy_versions w !! i = Some v ∧ active_version_of policy i v = true.

Lemma first_row_is {A} `{Table A} (P : N → A → bool) w i r :
  rows w !! i = Some r → P i r = true →
  (∀ j r', rows w !! j = Some r' → P j r' = true → j = i) →
  head (select_rows P w) = Some (i, r).
Proof. intros Hi Hp Hu. by rewrite (select_rows_unique P w i r Hi Hp Hu). Qed.

Lemma active_policy_unique w workspace i j p q :
  config_wf w → w_policies w !! i = Some p → w_policies w !! j = Some q →
  active_policy workspace i p = true → active_policy workspace j q = true → i = j.
Proof.
  intros Hwf Hi Hj [Hw1%bool_decide_eq_true Ha1%bool_decide_eq_true]%andb_true_iff
    [Hw2%bool_decide_eq_true Ha2%bool_decide_eq_true]%andb_true_iff.
  destruct (decide (i = j)) as [|Hne]; [done|].
  pose proof (wf_policies _ Hwf i j p q Hne Hi Hj) as Hc. revert Hc. unfold policy_clash.
  rewrite Hw1, Hw2, Ha1, Ha2, orb_true_r, bool_decide_eq_true_2; done.
Qed.

Lemma active_version_unique w policy i j v v' :
  config_wf w → w_policy_versions w !! i = Some v → w_policy_versions w !! j = Some v' →
  active_version_of policy i v = true → active_version_of policy j v' = true → i = j.
Proof.
  intros Hwf Hi Hj [Hw1%bool_decide_eq_true Ha1%bool_decide_eq_true]%andb_true_iff
    [Hw2%bool_decide_eq_true Ha2%bool_decide_eq_true]%andb_true_iff.
  destruct (decide (i = j)) as [|Hne]; [done|].
  pose proof (wf_versions _ Hwf i j v v' Hne Hi Hj) as Hc. revert Hc. unfold version_clash.
  rewrite Hw1, Hw2, Ha1, Ha2, orb_true_r, bool_decide_eq_true_2; done.
Qed.

(** [resolve_active_version] computes that relation. *)
Lemma resolve_governs w workspace i v :
  config_wf w →
  resolve_active_version workspace w = (inr (Some (i, v)), w) ↔ governs w workspace i v.
Proof.
  intros Hwf. unfold resolve_active_version, first_row, gets, mbind, M_bind. split.
  - destruct (head (select_rows (active_policy workspace) w)) as [[policy p]|] eqn:Hp; [|done].
    apply first_row_some in Hp as [Hp Hap]. intros [= Hv]. apply first_row_some in Hv as [Hv Hav].
    by exists policy, p.
  - intros (policy & p & Hp & Hap & Hv & Hav).
    assert (head (select_rows (active_policy workspace) w) = Some (policy, p)) as ->.
    { apply first_row_is; [done..|]. intros j q Hj Hq. by apply (active_policy_unique w workspace j policy q p). }
    assert (head (select_rows (active_version_of policy) w) = Some (i, v)) as ->; [|done].
    apply first_row_is; [done..|]. intros j q Hj Hq. by apply (active_version_unique w policy j i q v).
Qed.

Lemma governs_published workspace policy p version v now w w' :
  pol_workspace p = workspace → pv_policy v = policy →
  w_policies w' = activate_map workspace policy p (w_policies w) →
  w_policy_versions w' = publish_map version v now (w_policy_versions w) →
  governs w' workspace version (published v now).
Proof.
  intros Hws Hpol Hps Hvs. exists policy, (with_status PolicyStatus.ACTIVE p).
  rewrite Hps, Hvs. unfold activate_map, publish_map, active_policy, active_version_of. simpl.
  rewrite !lookup_insert_eq, !bool_decide_eq_true_2 by done. done.
Qed.

Lemma governs_other workspace policy p version v now w w' other i u :
  w_policies w !! policy = Some p → pol_workspace p = workspace →
  w_policy_versions w !! version = Some v → pv_policy v = policy →
  w_policies w' = activate_map workspace policy p (w_policies w) →
  w_policy_versions w' = publish_map version v now (w_policy_versions w) →
  other ≠ workspace → governs w' other i u ↔ governs w other i u.
Proof.
  intros Hp Hws Hv Hpol Hps Hvs Hne.
  assert (Hsame : ∀ j q, active_policy other j q = true →
    w_policies w' !! j = Some q ↔ w_policies w !! j = Some q).
  { intros j q [Hq%bool_decide_eq_true _]%andb_true_iff. rewrite Hps. unfold activate_map.
    destruct (decide (j = policy)) as [->|Hj].
    - rewrite lookup_insert_eq. split; intros [= Heq]; exfalso; apply Hne.
      + subst q. by rewrite <-Hq, <-Hws.
      + congruence.
    - rewrite lookup_insert_ne, rows_update by done.
      destruct (w_policies w !! j) as [q0|]; [|done]. simpl. unfold other_active.
      destruct (decide (pol_workspace q0 = workspace)) as [He|He].
      + split; intros [= Heq]; exfalso; apply Hne; [|congruence].
        assert (pol_workspace q = pol_workspace q0) by (rewrite <-Heq; by case_match). congruence.
      + by rewrite bool_decide_eq_false_2. }
  assert (Hver : ∀ j k x, k ≠ policy → active_version_of k j x = true →
    w_policy_versions w' !! j = Some x ↔ w_policy_versions w !! j = Some x).
  { intros j k x Hk [Hx%bool_decide_eq_true _]%andb_true_iff. rewrite Hvs. unfold publish_map.
    destruct (decide (j = version)) as [->|Hj].
    - rewrite lookup_insert_eq. split; intros [= Heq]; [|congruence].
      subst x. simpl in Hx. congruence.
    - rewrite lookup_insert_ne, rows_update by done.
      destruct (w_policy_versions w !! j) as [x0|]; [|done]. simpl. unfold active_version_of.
      destruct (decide (pv_policy x0 = pv_policy v)) as [He|He].
      + split; intros [= Heq]; exfalso; apply Hk; [|congruence].
        assert (pv_policy x = pv_policy x0) by (rewrite <-Heq; by case_match). congruence.
      + by rewrite bool_decide_eq_false_2. }
  unfold governs. split; intros (k & q & Hk & Hak & Hi & Hai); exists k, q.
  - apply (Hsame k q Hak) in Hk as Hk'. assert (k ≠ policy).
    { intros ->. apply andb_true_iff in Hak as [Hq%bool_decide_eq_true _]. congruence. }
    split_and!; [done..| |done]. by apply (Hver i k u).
  - assert (k ≠ policy).
    { intros ->. apply andb_true_iff in Hak as [Hq%bool_decide_eq_true _]. congruence. }
    split_and!; [by apply Hsame|done| |done]. by apply (Hver i k u).
Qed.

(** Publishing a draft version and activating its policy makes that version, with
    the rules it had as a draft, the one every later action of the workspace is
    judged by; the other workspaces keep the version they had. *)
Theorem published_version_governs workspace policy version actor p v w :
  config_wf w → config_fresh w → w_policies w !! policy = Some p → pol_workspace p = workspace →
  w_policy_versions w !! version = Some v → pv_policy v = policy →
  pv_status v = PolicyVersionStatus.DRAFT →
  ∃ w', (publish_policy_version workspace version actor;; activate_policy workspace policy actor) w
          = (inr (), w') ∧
    resolve_active_version workspace w' = (inr (Some (version, published v (w_now w))), w') ∧
    version_rules version w' = version_rules version w ∧
    (∀ other i u, other ≠ workspace →
       resolve_active_version other w' = (inr (Some (i, u)), w') ↔
       resolve_active_version other w = (inr (Some (i, u)), w)).
Proof.
  intros Hwf Hf Hp Hws Hv Hpol Hd.
  pose proof (publish_run workspace version actor v w Hwf Hv) as Hpub.
  destruct (publish_config workspace version actor w (conj Hwf Hf)) as [[Hwf1 Hf1] _].
  unfold wp in Hpub. unfold mbind, M_bind.
  destruct (publish_policy_version workspace version actor w) as [r w1].
  rewrite bool_decide_eq_true_2 in Hpub by done. simpl in Hpub, Hwf1, Hf1.
  destruct Hpub as (-> & Hvs1 & Hps1 & Hrs1 & _ & _).
  assert (Hp1 : w_policies w1 !! policy = Some p) by by rewrite Hps1.
  pose proof (activate_run workspace policy actor p w1 Hwf1 Hp1 Hws) as Hact. unfold wp in Hact.
  destruct (activate_policy_config workspace policy actor w1 (conj Hwf1 Hf1)) as [[Hwf2 _] _].
  destruct (activate_policy workspace policy actor w1) as [r w2]. simpl in Hact, Hwf2.
  destruct Hact as (-> & Hps2 & Hvs2 & Hrs2). exists w2. split; [done|].
  rewrite Hps1 in Hps2. rewrite Hvs1 in Hvs2. rewrite Hrs1 in Hrs2. split_and!.
  - apply resolve_governs; [done|]. by apply (governs_published workspace policy p version v (w_now w) w).
  - unfold version_rules, select_rows, rows. simpl. by rewrite Hrs2.
  - intros other i u Hne. rewrite !resolve_governs by done.
    by apply (governs_other workspace policy p version v (w_now w) w).
Qed.

End PolicyAdmin.

(** ** Concrete instances *)

Module PolicyAdminExamples.
#[local] Existing Instance default_settings.
#[local] Existing Instance trivial_pylib.

(** A workspace with an active policy, and a draft that is to replace it. *)
Definition old_policy : PolicyRow :=
  {| pol_workspace := 7; pol_name := "old"; pol_description := "";
     pol_status := PolicyStatus.ACTIVE |}.
Definition new_policy : PolicyRow :=
  {| pol_workspace := 7; pol_name := "new"; pol_description := "";
     pol_status := PolicyStatus.DRAFT |}.
Definition version (policy : N) (status : PolicyVersionStatus.t) : PolicyVersion :=
  {| pv_policy := policy; pv_version := 1; pv_status := status; pv_published_at := None |}.
Definition configured : World :=
  {| empty_world with
     w_next := 20;
     w_policies := <[1%N := old_policy]> {[ 2%N := new_policy ]};
     w_policy_versions := <[3%N := version 1 PolicyVersionStatus.ACTIVE]>
                            {[ 4%N := version 2 PolicyVersionStatus.DRAFT ]} |}.

Lemma configured_wf : config_wf configured.
Proof.
  split.
  - intros i p. simpl. intros [[<- <-]|[_ [<- <-]%lookup_singleton_Some]]%lookup_insert_Some; done.
  - intros i j p q Hne. simpl.
    intros [[<- <-]|[_ [<- <-]%lookup_singleton_Some]]%lookup_insert_Some
      [[<- <-]|[_ [<- <-]%lookup_singleton_Some]]%lookup_insert_Some; done.
  - intros i j p q Hne. simpl.
    intros [[<- <-]|[_ [<- <-]%lookup_singleton_Some]]%lookup_insert_Some
      [[<- <-]|[_ [<- <-]%lookup_singleton_Some]]%lookup_insert_Some; done.
  - intros i j p q Hne. simpl. by rewrite lookup_empty.
Qed.

Lemma configured_fresh : config_fresh configured.
Proof.
  intros i Hi. simpl in *. rewrite lookup_insert_ne, lookup_singleton_ne, lookup_empty by lia. done.
Qed.

(** A rule is added to the draft, which is then published. *)
Definition draft_version : PolicyVersion := version 2 PolicyVersionStatus.DRAFT.
Definition refunds_need_approval : RuleData := {|
  rd_name := "refunds"; rd_priority := 10; rd_enabled := None;
  rd_tool_key := Some "payment.refund"; rd_risk_levels := None; rd_side_effect_types := None;
  rd_condition_config := None; rd_effect := PolicyEffect.REQUIRE_APPROVAL;
  rd_required_role := None; rd_approval_ttl_seconds := None |}.
Definition with_rule : World := (add_policy_rule 4 draft_version refunds_need_approval configured).2.
Definition published_world : World := (publish_policy_version 7 4 40 with_rule).2.

Lemma published_rules_frozen_witness :
  config_wf published_world ∧ rule_name <$> version_rules 4 published_world = ["refunds"].
Proof.
  split; [|vm_compute; reflexivity].
  apply (published_rules_frozen configured published_world).
  - apply (rtc_l _ _ with_rule); [apply Op_add_rule|apply rtc_once, Op_publish].
    intros _ v [= <-]. reflexivity.
  - apply configured_wf.
  - apply configured_fresh.
Defined.

(** The service looks at the object it was handed: one that was loaded before the version
    was published still adds a rule to it. *)
Definition allow_refunds : RuleData :=
  {| refunds_need_approval with rd_name := "anything"; rd_priority := 1; rd_effect := PolicyEffect.ALLOW |}.
Theorem stale_draft_adds_rule :
  pv_status <$> w_policy_versions published_world !! 4%N = Some PolicyVersionStatus.ACTIVE ∧
  let w' := (add_policy_rule 4 draft_version allow_refunds published_world).2 in
  rule_name <$> version_rules 4 w' = ["refunds"; "anything"].
Proof. vm_compute. split; reflexivity. Qed.

Lemma published_version_governs_witness :
  ∃ w', (publish_policy_version 7 4 40;; activate_policy 7 2 40) configured = (inr (), w') ∧
    (resolve_active_version 7 w').1 =
      inr (Some (4%N, published (version 2 PolicyVersionStatus.DRAFT) (w_now configured))).
Proof.
  destruct (published_version_governs 7 2 4 40 new_policy (version 2 PolicyVersionStatus.DRAFT)
    configured configured_wf configured_fresh eq_refl eq_refl eq_refl eq_refl eq_refl)
    as (w' & Hrun & Hres & _).
  exists w'. split; [exact Hrun|]. rewrite Hres. reflexivity.
Defined.
End PolicyAdminExamples.
