(* ===== verification/Delivery.v ===== *)
(** * Durable deliveries

    [notifications/services.py], [notifications/backoff.py],
    [notifications/selectors.py] and [notifications/recovery.py]: the claim,
    completion and recovery of at-least-once outbound deliveries.

    The definitions come first; then what each operation does on a row, as a
    step relation; the invariant of the two tables; and the theorems. *)

From stdpp Require Import base gmap sets strings list sorting relations.
From Stdlib Require Import ZArith Lia.
From S2P Require Import Prelude Json Domain Policy Models Store.

(** A per-channel handler ([notifications/handlers.py]): it receives the claimed
    delivery, with its id, and the claim token. *)
Definition DeliveryHandler : Type := N → Delivery → N → service ().

Section Delivery.
Context `{Settings}.

Definition MAX_SAFE_ERROR_CODE_LENGTH : nat := 64.

(** ** Backoff ([notifications/backoff.py]) *)

Definition compute_retry_delay_seconds (attempt_number : Z)
    (base_delay_seconds max_delay_seconds : option Z) : Z :=
  let base := default DELIVERY_RETRY_BASE_DELAY_SECONDS base_delay_seconds in
  let cap := default DELIVERY_RETRY_MAX_DELAY_SECONDS max_delay_seconds in
  let delay := (base * 2 ^ (attempt_number - 1))%Z in
  Z.min delay cap.

(** ** Creation *)

Definition dispatch_delivery_for_processing (delivery_id : N) : service () :=
  publish (process_delivery_task delivery_id).

Definition create_delivery (workspace : N) (channel : DeliveryChannel.t)
    (max_attempts : option Z) (now : option Z) : service N :=
  now ← or_now now;
  atomic (
    (* the check constraint [delivery_max_attempts_gt_0] *)
    raise_if (default DELIVERY_DEFAULT_MAX_ATTEMPTS max_attempts <=? 0)%Z IntegrityError;;
    delivery ← create_row {|
      dlv_workspace := workspace; dlv_channel := channel;
      dlv_status := DeliveryStatus.PENDING; dlv_attempt_count := 0;
      dlv_max_attempts := default DELIVERY_DEFAULT_MAX_ATTEMPTS max_attempts;
      dlv_next_attempt_at := now; dlv_claimed_at := None; dlv_lease_expires_at := None;
      dlv_claim_token := None; dlv_first_attempt_at := None; dlv_delivered_at := None;
      dlv_failed_at := None; dlv_last_error_code := "" |};
    dispatch_delivery_for_processing delivery;;
    mret delivery).

(** ** Claiming *)

Definition due_eligible (delivery : Delivery) (now : Z) : bool :=
  bool_decide (dlv_status delivery ∈ DELIVERY_DUE_CLAIMABLE_STATUSES)
  && (dlv_next_attempt_at delivery <=? now)%Z.

Definition expired_claim_eligible (delivery : Delivery) (now : Z) : bool :=
  bool_decide (dlv_status delivery = DeliveryStatus.CLAIMED)
  && match dlv_lease_expires_at delivery with Some t => (t <=? now)%Z | None => false end.

(** The row a claim writes. *)
Definition claimed_row (locked : Delivery) (token : N) (now lease_seconds : Z) : Delivery :=
  {| locked with
     dlv_status := DeliveryStatus.CLAIMED;
     dlv_claim_token := Some token;
     dlv_claimed_at := Some now;
     dlv_lease_expires_at := Some (now + seconds lease_seconds)%Z;
     dlv_first_attempt_at :=
       Some (default now (dlv_first_attempt_at locked));
     dlv_attempt_count := (dlv_attempt_count locked + 1)%Z |}.

(** The attempt of an abandoned claim. *)
Definition in_progress_under (delivery token : N) (_ : N) (a : DeliveryAttempt) : bool :=
  bool_decide (att_delivery a = delivery) && bool_decide (att_claim_token a = token)
  && bool_decide (att_status a = AttemptStatus.IN_PROGRESS).

Definition abandoned_row (now : Z) (a : DeliveryAttempt) : DeliveryAttempt :=
  {| a with att_status := AttemptStatus.ABANDONED; att_completed_at := Some now |}.

Definition claim_row (delivery_id : N) (eligible : Delivery → Z → bool)
    (lease_seconds : option Z) (now : Z) : service (Delivery * N) :=
  let lease_seconds := default DELIVERY_CLAIM_LEASE_SECONDS lease_seconds in
  atomic (
    locked ← find_row delivery_id;
    match locked with
    | None => raise DeliveryNotClaimableError
    | Some locked =>
        raise_if (negb (eligible locked now)) DeliveryNotClaimableError;;
        let next_attempt_number := (dlv_attempt_count locked + 1)%Z in
        raise_if (dlv_max_attempts locked <? next_attempt_number)%Z DeliveryNotClaimableError;;
        match dlv_claim_token locked with
        | Some abandoned =>
            when (bool_decide (dlv_status locked = DeliveryStatus.CLAIMED))
              (update_rows (in_progress_under delivery_id abandoned) (abandoned_row now))
        | None => mret ()
        end;;
        token ← fresh;
        let locked' := claimed_row locked token now lease_seconds in
        save_row delivery_id locked';;
        create_row {|
          att_delivery := delivery_id; att_attempt_number := next_attempt_number;
          att_claim_token := token; att_status := AttemptStatus.IN_PROGRESS;
          att_started_at := now; att_completed_at := None; att_latency_ms := None;
          att_safe_error_code := ""; att_retryable := None;
          att_response_status_code := None |};;
        mret (locked', token)
    end).

Definition claim_delivery (delivery_id : N) (lease_seconds now : option Z)
    : service (Delivery * N) :=
  now ← or_now now;
  claim_row delivery_id due_eligible lease_seconds now.

Definition reclaim_expired_delivery (delivery_id : N) (lease_seconds now : option Z)
    : service (Delivery * N) :=
  now ← or_now now;
  claim_row delivery_id expired_claim_eligible lease_seconds now.

(** ** Completion *)

Definition lock_delivery_or_raise (delivery_id : N) : service Delivery :=
  o ← find_row delivery_id;
  or_raise o DeliveryNotFoundError.

Definition active_claim (delivery : Delivery) (claim_token : N) : bool :=
  bool_decide (dlv_status delivery = DeliveryStatus.CLAIMED)
  && bool_decide (dlv_claim_token delivery = Some claim_token).

Definition assert_active_claim (delivery : Delivery) (claim_token : N) : service () :=
  raise_if (negb (active_claim delivery claim_token)) StaleClaimError.

Definition completed_attempt (a : DeliveryAttempt) (status : AttemptStatus.t)
    (safe_error_code : string) (retryable : option bool) (now : Z)
    (response_status_code : option Z) : DeliveryAttempt :=
  {| a with
     att_status := status;
     att_completed_at := Some now;
     att_latency_ms := Some (Z.max (millis (now - att_started_at a)) 0);
     att_safe_error_code := str_take MAX_SAFE_ERROR_CODE_LENGTH safe_error_code;
     att_retryable := retryable;
     att_response_status_code :=
       match response_status_code with
       | Some c => Some c
       | None => att_response_status_code a
       end |}.

Definition complete_active_attempt (delivery claim_token : N) (status : AttemptStatus.t)
    (safe_error_code : string) (retryable : option bool) (now : Z)
    (response_status_code : option Z) : service () :=
  x ← get_where (in_progress_under delivery claim_token);
  save_row x.1
    (completed_attempt x.2 status safe_error_code retryable now response_status_code).

Definition delivered_row (locked : Delivery) (now : Z) : Delivery :=
  {| locked with
     dlv_status := DeliveryStatus.DELIVERED;
     dlv_delivered_at := Some now;
     dlv_claim_token := None; dlv_claimed_at := None; dlv_lease_expires_at := None |}.

Definition complete_delivery_success (delivery_id claim_token : N) (now : option Z)
    (response_status_code : option Z) : service Delivery :=
  now ← or_now now;
  atomic (
    locked ← lock_delivery_or_raise delivery_id;
    assert_active_claim locked claim_token;;
    complete_active_attempt delivery_id claim_token AttemptStatus.SUCCEEDED "" None now
      response_status_code;;
    save_row delivery_id (delivered_row locked now);;
    mret (delivered_row locked now)).

Definition failed_row (locked : Delivery) (safe_error_code : string) (retryable : bool)
    (retry_delay_seconds : option Z) (now : Z) : Delivery :=
  let released :=
    {| locked with
       dlv_last_error_code := str_take MAX_SAFE_ERROR_CODE_LENGTH safe_error_code;
       dlv_claim_token := None; dlv_claimed_at := None; dlv_lease_expires_at := None |} in
  let can_retry := retryable && (dlv_attempt_count locked <? dlv_max_attempts locked)%Z in
  if can_retry then
    let delay_seconds :=
      default (compute_retry_delay_seconds (dlv_attempt_count locked) None None)
              retry_delay_seconds in
    {| released with
       dlv_status := DeliveryStatus.RETRY_SCHEDULED;
       dlv_next_attempt_at := (now + seconds delay_seconds)%Z |}
  else
    {| released with
       dlv_status := if retryable then DeliveryStatus.FAILED else DeliveryStatus.DEAD;
       dlv_failed_at := Some now |}.

Definition complete_delivery_failure (delivery_id claim_token : N) (safe_error_code : string)
    (retryable : bool) (retry_delay_seconds now response_status_code : option Z)
    : service Delivery :=
  now ← or_now now;
  atomic (
    locked ← lock_delivery_or_raise delivery_id;
    assert_active_claim locked claim_token;;
    complete_active_attempt delivery_id claim_token AttemptStatus.FAILED safe_error_code
      (Some retryable) now response_status_code;;
    let locked' := failed_row locked safe_error_code retryable retry_delay_seconds now in
    save_row delivery_id locked';;
    mret locked').

(** ** The worker boundary *)

Definition process_claimed_delivery (handler_of : DeliveryChannel.t → option DeliveryHandler)
    (delivery_id : N) : service string :=
  row ← find_row delivery_id;
  match row with
  | None => mret "skipped"
  | Some row =>
      match handler_of (dlv_channel row) with
      | None => mret "skipped_unsupported_channel"
      | Some handler =>
          claim ← catch
            (c ← claim_delivery delivery_id None None; mret (Some c))
            (λ e, match e with
                  | DeliveryNotClaimableError =>
                      catch (c ← reclaim_expired_delivery delivery_id None None; mret (Some c))
                        (λ e, match e with
                              | DeliveryNotClaimableError => mret None
                              | e => raise e
                              end)
                  | e => raise e
                  end);
          match claim with
          | None => mret "skipped"
          | Some (delivery, token) => handler delivery_id delivery token;; mret "processed"
          end
      end
  end.

(** ** Recovery ([notifications/selectors.py], [notifications/recovery.py]) *)

Definition due_order (x y : N * Delivery) : Prop :=
  (dlv_next_attempt_at x.2 < dlv_next_attempt_at y.2)%Z ∨
  dlv_next_attempt_at x.2 = dlv_next_attempt_at y.2 ∧ (x.1 <= y.1)%N.
#[local] Instance due_order_dec x y : Decision (due_order x y).
Proof. unfold due_order. apply _. Defined.

Definition due_claimable_deliveries (now : Z) (w : World) : list (N * Delivery) :=
  merge_sort due_order (select_rows (λ _ d, due_eligible d now) w).

Definition lease_order (x y : N * Delivery) : Prop :=
  let lease d := default 0%Z (dlv_lease_expires_at d) in
  (lease x.2 < lease y.2)%Z ∨ lease x.2 = lease y.2 ∧ (x.1 <= y.1)%N.
#[local] Instance lease_order_dec x y : Decision (lease_order x y).
Proof. unfold lease_order. apply _. Defined.

Definition expired_claimed_deliveries (now : Z) (w : World) : list (N * Delivery) :=
  merge_sort lease_order (select_rows (λ _ d, expired_claim_eligible d now) w).

Definition dispatch_due_deliveries (batch_size : option nat) (now : option Z) : service nat :=
  let batch_size := default DELIVERY_SWEEP_BATCH_SIZE batch_size in
  now ← or_now now;
  due ← gets (due_claimable_deliveries now);
  let delivery_ids := take batch_size (map fst due) in
  for_each delivery_ids dispatch_delivery_for_processing;;
  mret (length delivery_ids).

Definition recover_expired_delivery_claims (batch_size : option nat) (now : option Z)
    : service nat :=
  let batch_size := default DELIVERY_SWEEP_BATCH_SIZE batch_size in
  now ← or_now now;
  expired ← gets (expired_claimed_deliveries now);
  let delivery_ids := take batch_size (map fst expired) in
  for_each delivery_ids dispatch_delivery_for_processing;;
  mret (length delivery_ids).

(** ** What each operation writes *)

(** The row a manual redrive writes ([webhooks/services.py]). *)
Definition redriven_row (locked : Delivery) (now : Z) : Delivery :=
  {| locked with
     dlv_max_attempts := (dlv_max_attempts locked + WEBHOOKS_REDRIVE_ATTEMPT_ALLOWANCE)%Z;
     dlv_status := DeliveryStatus.PENDING;
     dlv_next_attempt_at := now;
     dlv_failed_at := None |}.

(** The life of a delivery. *)
Inductive delivery_step : Delivery → Delivery → Prop :=
  | step_claim d token now lease :
      due_eligible d now = true → (dlv_attempt_count d < dlv_max_attempts d)%Z →
      delivery_step d (claimed_row d token now lease)
  | step_reclaim d token now lease :
      expired_claim_eligible d now = true → (dlv_attempt_count d < dlv_max_attempts d)%Z →
      delivery_step d (claimed_row d token now lease)
  | step_delivered d token now :
      active_claim d token = true → delivery_step d (delivered_row d now)
  | step_failed d token code retryable delay now :
      active_claim d token = true →
      delivery_step d (failed_row d code retryable delay now)
  | step_redriven d now :
      dlv_status d = DeliveryStatus.FAILED ∨ dlv_status d = DeliveryStatus.DEAD →
      delivery_step d (redriven_row d now).

Definition claimable (eligible : Delivery → Z → bool) (now : Z) (d : Delivery) : bool :=
  eligible d now && (dlv_attempt_count d <? dlv_max_attempts d)%Z.

(** The attempts once the abandoned one, if any, is marked. *)
Definition abandon (id : N) (d : Delivery) (now : Z) (m : gmap N DeliveryAttempt)
    : gmap N DeliveryAttempt :=
  match dlv_claim_token d with
  | Some t =>
      if bool_decide (dlv_status d = DeliveryStatus.CLAIMED)
      then map_imap (λ j a, Some (if in_progress_under id t j a then abandoned_row now a else a)) m
      else m
  | None => m
  end.

Definition new_attempt (id : N) (d : Delivery) (token : N) (now : Z) : DeliveryAttempt :=
  {| att_delivery := id; att_attempt_number := (dlv_attempt_count d + 1)%Z;
     att_claim_token := token; att_status := AttemptStatus.IN_PROGRESS;
     att_started_at := now; att_completed_at := None; att_latency_ms := None;
     att_safe_error_code := ""; att_retryable := None; att_response_status_code := None |}.

Definition claim_world (id : N) (d : Delivery) (lease now : Z) (w : World) : World :=
  {| w with
     w_next := N.succ (N.succ (w_next w));
     w_deliveries := <[id := claimed_row d (w_next w) now lease]> (w_deliveries w);
     w_attempts := <[N.succ (w_next w) := new_attempt id d (w_next w) now]>
                     (abandon id d now (w_attempts w)) |}.

(** A claim is decided by one test of the row, and does exactly one thing. *)
Lemma claim_row_run id eligible lease now w :
  claim_row id eligible lease now w =
  match w_deliveries w !! id with
  | Some d =>
      if claimable eligible now d then
        (inr (claimed_row d (w_next w) now (default DELIVERY_CLAIM_LEASE_SECONDS lease), w_next w),
         claim_world id d (default DELIVERY_CLAIM_LEASE_SECONDS lease) now w)
      else (inl DeliveryNotClaimableError, w)
  | None => (inl DeliveryNotClaimableError, w)
  end.
Proof.
  unfold claim_row, atomic, find_row, gets, mbind, M_bind. simpl.
  destruct (w_deliveries w !! id) as [d|]; [|done].
  unfold claimable, raise_if. destruct (eligible d now); simpl; [|done].
  rewrite Z.ltb_antisym. destruct (Z.leb_spec (dlv_attempt_count d + 1) (dlv_max_attempts d)) as [Hle|Hle].
  2: { rewrite (proj2 (Z.ltb_ge _ _)) by lia. done. }
  rewrite (proj2 (Z.ltb_lt (dlv_attempt_count d) _)) by lia. simpl.
  unfold claim_world, abandon. destruct (dlv_claim_token d) as [t|]; [|done].
  unfold when. by case_bool_decide.
Qed.

(** ** The invariant of the two tables *)

(** The check constraints of the table: [delivery_claim_fields_consistent] and
    the bounds of the attempt count. *)
Definition claim_fields_consistent (d : Delivery) : Prop :=
  if decide (dlv_status d = DeliveryStatus.CLAIMED) then
    is_Some (dlv_claimed_at d) ∧ is_Some (dlv_lease_expires_at d) ∧ is_Some (dlv_claim_token d)
  else dlv_claimed_at d = None ∧ dlv_lease_expires_at d = None ∧ dlv_claim_token d = None.

Record delivery_ok (d : Delivery) : Prop := {
  ok_count : (0 <= dlv_attempt_count d <= dlv_max_attempts d)%Z;
  ok_max : (0 < dlv_max_attempts d)%Z;
  ok_claim : claim_fields_consistent d;
  (** a scheduled delivery has an attempt left *)
  ok_due : dlv_status d ∈ DELIVERY_DUE_CLAIMABLE_STATUSES →
           (dlv_attempt_count d < dlv_max_attempts d)%Z;
}.

Record attempt_ok (D : gmap N Delivery) (n j : N) (a : DeliveryAttempt) : Prop := {
  at_next : (j < n)%N ∧ (att_claim_token a < n)%N;
  at_delivery : ∃ d, D !! att_delivery a = Some d ∧
    (1 <= att_attempt_number a <= dlv_attempt_count d)%Z ∧
    (att_status a = AttemptStatus.IN_PROGRESS →
       active_claim d (att_claim_token a) = true ∧
       att_attempt_number a = dlv_attempt_count d);
}.

Record delivery_wf (D : gmap N Delivery) (A : gmap N DeliveryAttempt) (n : N) : Prop := {
  wf_delivery i d : D !! i = Some d → delivery_ok d ∧ (i < n)%N;
  wf_attempt j a : A !! j = Some a → attempt_ok D n j a;
  (** [delivery_attempt_number_uniq] *)
  wf_unique j j' a a' : A !! j = Some a → A !! j' = Some a' →
    att_delivery a = att_delivery a' → att_attempt_number a = att_attempt_number a' → j = j';
  (** the numbering has no gaps *)
  wf_numbers i d k : D !! i = Some d → (1 <= k <= dlv_attempt_count d)%Z →
    ∃ j a, A !! j = Some a ∧ att_delivery a = i ∧ att_attempt_number a = k;
  (** an active claim has its attempt *)
  wf_active i d t : D !! i = Some d → active_claim d t = true →
    ∃ j a, A !! j = Some a ∧ in_progress_under i t j a = true;
}.

Definition deliveries_wf (w : World) : Prop :=
  delivery_wf (w_deliveries w) (w_attempts w) (w_next w).

Lemma active_claim_true d t :
  active_claim d t = true ↔ dlv_status d = DeliveryStatus.CLAIMED ∧ dlv_claim_token d = Some t.
Proof. unfold active_claim. by rewrite andb_true_iff, !bool_decide_eq_true. Qed.

Lemma in_progress_under_true i t j a :
  in_progress_under i t j a = true ↔
  att_delivery a = i ∧ att_claim_token a = t ∧ att_status a = AttemptStatus.IN_PROGRESS.
Proof. unfold in_progress_under. rewrite !andb_true_iff, !bool_decide_eq_true. tauto. Qed.

(** The attempt a completion looks up exists and is the only one. *)
Lemma active_attempt_unique w i d t :
  deliveries_wf w → w_deliveries w !! i = Some d → active_claim d t = true →
  ∃ j a, w_attempts w !! j = Some a ∧ in_progress_under i t j a = true ∧
         select_rows (in_progress_under i t) w = [(j, a)] ∧
         att_attempt_number a = dlv_attempt_count d.
Proof.
  intros Hwf Hd Ht. destruct (wf_active _ _ _ Hwf i d t Hd Ht) as (j & a & Ha & Hp).
  assert (Hnum : ∀ j a, w_attempts w !! j = Some a → in_progress_under i t j a = true →
            att_attempt_number a = dlv_attempt_count d ∧ att_delivery a = i).
  { intros j' a' Ha' (Hi & _ & Hs)%in_progress_under_true.
    destruct (at_delivery _ _ _ _ (wf_attempt _ _ _ Hwf j' a' Ha')) as (d' & Hd' & _ & Hin).
    rewrite Hi, Hd in Hd'. simplify_eq. by destruct (Hin Hs). }
  exists j, a. split_and!; [done|done| |by apply (Hnum j)].
  apply select_rows_unique; [done|done|]. intros j' a' Ha' Hp'.
  destruct (Hnum j a Ha Hp), (Hnum j' a' Ha' Hp').
  eapply (wf_unique _ _ _ Hwf); [done..| |]; congruence.
Qed.

(** ** Completion runs *)

Definition complete_world (id : N) (d' : Delivery) (j : N) (a' : DeliveryAttempt) (w : World)
    : World :=
  {| w with w_deliveries := <[id := d']> (w_deliveries w);
            w_attempts := <[j := a']> (w_attempts w) |}.

(** The body both completions share. *)
Definition complete_with (id token : N) (status : AttemptStatus.t) (code : string)
    (retryable : option bool) (now : Z) (response : option Z) (F : Delivery → Delivery)
    : service Delivery :=
  atomic (
    locked ← lock_delivery_or_raise id;
    assert_active_claim locked token;;
    complete_active_attempt id token status code retryable now response;;
    save_row id (F locked);;
    mret (F locked)).

Lemma complete_with_run id token status code retryable now response F w :
  deliveries_wf w →
  match w_deliveries w !! id with
  | None => complete_with id token status code retryable now response F w
            = (inl DeliveryNotFoundError, w)
  | Some d =>
      if active_claim d token then
        ∃ j a, w_attempts w !! j = Some a ∧ in_progress_under id token j a = true ∧
          complete_with id token status code retryable now response F w
          = (inr (F d), complete_world id (F d) j
              (completed_attempt a status code retryable now response) w)
      else complete_with id token status code retryable now response F w
           = (inl StaleClaimError, w)
  end.
Proof.
  intros Hwf. unfold complete_with, atomic, lock_delivery_or_raise, find_row, gets, mbind, M_bind.
  simpl. destruct (w_deliveries w !! id) as [d|] eqn:Hd; [|done]. simpl.
  unfold assert_active_claim. destruct (active_claim d token) eqn:Ht; [|done]. simpl.
  destruct (active_attempt_unique w id d token Hwf Hd Ht) as (j & a & Ha & Hp & Hs & _).
  exists j, a. split_and!; [done|done|].
  unfold complete_active_attempt, get_where, gets, mbind, M_bind. simpl. by rewrite Hs.
Qed.

(** ** Preservation *)

(** Marking the abandoned attempt changes neither keys nor numbering, and
    leaves no attempt of the delivery in progress. *)
Lemma abandon_lookup w id d now j a' :
  deliveries_wf w → w_deliveries w !! id = Some d →
  abandon id d now (w_attempts w) !! j = Some a' →
  ∃ a, w_attempts w !! j = Some a ∧ att_delivery a' = att_delivery a ∧
       att_attempt_number a' = att_attempt_number a ∧
       att_claim_token a' = att_claim_token a ∧
       (att_status a' = AttemptStatus.IN_PROGRESS → a' = a ∧ att_delivery a ≠ id).
Proof.
  intros Hwf Hd Hj.
  assert (Hpre : ∀ a, w_attempts w !! j = Some a → att_status a = AttemptStatus.IN_PROGRESS →
            att_delivery a = id → active_claim d (att_claim_token a) = true).
  { intros a Ha Hs Hi.
    destruct (at_delivery _ _ _ _ (wf_attempt _ _ _ Hwf j a Ha)) as (d' & Hd' & _ & Hin).
    rewrite Hi, Hd in Hd'. simplify_eq. by destruct (Hin Hs). }
  unfold abandon in Hj. destruct (dlv_claim_token d) as [t|] eqn:Ht; [case_bool_decide as Hs|].
  - rewrite map_lookup_imap in Hj. destruct (w_attempts w !! j) as [a|] eqn:Ha; [|done].
    simpl in Hj. exists a. destruct (in_progress_under id t j a) eqn:Hp; simplify_eq.
    + split_and!; try done; by intros.
    + split_and!; [done..|]. intros Hst. split; [done|]. intros Hi.
      specialize (Hpre a' eq_refl Hst Hi). apply active_claim_true in Hpre as [_ Htok].
      rewrite Ht in Htok. simplify_eq.
      by rewrite (proj2 (in_progress_under_true _ _ _ _)) in Hp.
  - exists a'. split_and!; [done..|]. intros Hst. split; [done|]. intros Hi.
    specialize (Hpre a' Hj Hst Hi). by apply active_claim_true in Hpre as [? _].
  - exists a'. split_and!; [done..|]. intros Hst. split; [done|]. intros Hi.
    specialize (Hpre a' Hj Hst Hi). apply active_claim_true in Hpre as [_ ?]. congruence.
Qed.

Lemma abandon_dom w id d now j a :
  w_attempts w !! j = Some a →
  ∃ a', abandon id d now (w_attempts w) !! j = Some a' ∧ att_delivery a' = att_delivery a ∧
        att_attempt_number a' = att_attempt_number a ∧
        att_claim_token a' = att_claim_token a ∧
        (att_delivery a ≠ id → a' = a).
Proof.
  intros Ha. unfold abandon. destruct (dlv_claim_token d) as [t|]; [case_bool_decide|].
  2-3: by exists a.
  rewrite map_lookup_imap, Ha. simpl. eexists. split; [done|].
  destruct (in_progress_under id t j a) eqn:Hp; [|done].
  apply in_progress_under_true in Hp as (? & _). done.
Qed.

Lemma claimed_ok d token now lease :
  delivery_ok d → (dlv_attempt_count d < dlv_max_attempts d)%Z →
  delivery_ok (claimed_row d token now lease).
Proof.
  intros [Hc Hm _ _] Hlt. split; simpl; [lia|done| |absurd_mem].
  unfold claim_fields_consistent. simpl. eauto.
Qed.

Lemma active_claimed d token now lease t :
  active_claim (claimed_row d token now lease) t = true ↔ t = token.
Proof. rewrite active_claim_true. simpl. split; [by intros [_ [= ->]]|by intros ->]. Qed.

Lemma claim_attempt_ok w id d lease now j a :
  deliveries_wf w → w_deliveries w !! id = Some d →
  (dlv_attempt_count d < dlv_max_attempts d)%Z →
  w_attempts (claim_world id d lease now w) !! j = Some a →
  attempt_ok (w_deliveries (claim_world id d lease now w)) (N.succ (N.succ (w_next w))) j a.
Proof.
  intros Hwf Hd Hlt. destruct (wf_delivery _ _ _ Hwf id d Hd) as [Hok Hid]. simpl.
  intros [[<- <-]|[? Ha]]%lookup_insert_Some.
  - split; simpl; [lia|]. eexists. rewrite lookup_insert_eq. split; [done|].
    destruct Hok. simpl. split; [lia|]. intros _. split; [by apply active_claimed|done].
  - destruct (abandon_lookup w id d now j a Hwf Hd Ha) as (a0 & Ha0 & Hi & Hn & Ht & Hs).
    destruct (wf_attempt _ _ _ Hwf j a0 Ha0) as [[Hj Htk] (d0 & Hd0 & Hb & Hin)].
    split; [rewrite Ht; lia|]. rewrite Hi, Hn, Ht.
    destruct (decide (att_delivery a0 = id)) as [He|He].
    + rewrite He, lookup_insert_eq. eexists; split; [done|]. rewrite He, Hd in Hd0.
      simplify_eq. simpl. split; [lia|]. intros Hst. by destruct (Hs Hst).
    + rewrite lookup_insert_ne by done. exists d0. split_and!; [done|lia|lia|].
      intros Hst. destruct (Hs Hst) as [-> _]. by apply Hin.
Qed.

Lemma claim_unique w id d lease now j j' a a' :
  deliveries_wf w → w_deliveries w !! id = Some d →
  w_attempts (claim_world id d lease now w) !! j = Some a →
  w_attempts (claim_world id d lease now w) !! j' = Some a' →
  att_delivery a = att_delivery a' → att_attempt_number a = att_attempt_number a' → j = j'.
Proof.
  intros Hwf Hd.
  assert (Hother : ∀ j a, abandon id d now (w_attempts w) !! j = Some a →
            att_delivery a = id → att_attempt_number a = (dlv_attempt_count d + 1)%Z → False).
  { clear j a. intros j a Ha Hi Hn.
    destruct (abandon_lookup w id d now j a Hwf Hd Ha) as (a0 & Ha0 & Hi0 & Hn0 & _).
    destruct (at_delivery _ _ _ _ (wf_attempt _ _ _ Hwf j a0 Ha0)) as (d0 & Hd0 & Hb & _).
    rewrite <-Hi0, Hi, Hd in Hd0. simplify_eq. lia. }
  simpl. intros [[<- <-]|[? Ha]]%lookup_insert_Some [[<- <-]|[? Ha']]%lookup_insert_Some;
    simpl; intros Hi Hn; [done|exfalso; eauto using eq_sym..|].
  destruct (abandon_lookup w id d now j a Hwf Hd Ha) as (a0 & Ha0 & Hi0 & Hn0 & _).
  destruct (abandon_lookup w id d now j' a' Hwf Hd Ha') as (a1 & Ha1 & Hi1 & Hn1 & _).
  eapply (wf_unique _ _ _ Hwf j j' a0 a1); congruence.
Qed.

Lemma claim_numbers w id d lease now i d' k :
  deliveries_wf w → w_deliveries w !! id = Some d →
  w_deliveries (claim_world id d lease now w) !! i = Some d' →
  (1 <= k <= dlv_attempt_count d')%Z →
  ∃ j a, w_attempts (claim_world id d lease now w) !! j = Some a ∧
         att_delivery a = i ∧ att_attempt_number a = k.
Proof.
  intros Hwf Hd. simpl.
  assert (Hnew : w_attempts w !! N.succ (w_next w) = None).
  { destruct (w_attempts w !! N.succ (w_next w)) as [a|] eqn:Ha; [|done].
    destruct (at_next _ _ _ _ (wf_attempt _ _ _ Hwf _ _ Ha)). lia. }
  assert (Hkeep : ∀ i d0 k, w_deliveries w !! i = Some d0 → (1 <= k <= dlv_attempt_count d0)%Z →
            ∃ j a, <[N.succ (w_next w):=new_attempt id d (w_next w) now]>
              (abandon id d now (w_attempts w)) !! j = Some a ∧ att_delivery a = i ∧
              att_attempt_number a = k).
  { clear i d' k. intros i d0 k Hi Hk.
    destruct (wf_numbers _ _ _ Hwf i d0 k Hi Hk) as (j & a & Ha & <- & <-).
    destruct (abandon_dom w id d now j a Ha) as (a' & Ha' & ? & ? & _).
    exists j, a'. rewrite lookup_insert_ne by congruence. done. }
  intros [[<- <-]|[? Hd']]%lookup_insert_Some; simpl; intros Hk; [|by eapply Hkeep].
  destruct (decide (k = dlv_attempt_count d + 1)%Z) as [->|].
  - exists (N.succ (w_next w)), (new_attempt id d (w_next w) now). by rewrite lookup_insert_eq.
  - apply (Hkeep id d); [done|lia].
Qed.

Lemma claim_world_wf w id d lease now :
  deliveries_wf w → w_deliveries w !! id = Some d →
  (dlv_attempt_count d < dlv_max_attempts d)%Z →
  deliveries_wf (claim_world id d lease now w).
Proof.
  intros Hwf Hd Hlt. destruct (wf_delivery _ _ _ Hwf id d Hd) as [Hok Hid]. split.
  - intros i d'. simpl. intros [[<- <-]|[? Hd']]%lookup_insert_Some.
    + split; [by apply claimed_ok|lia].
    + destruct (wf_delivery _ _ _ Hwf i d' Hd'). split; [done|lia].
  - intros j a. by apply claim_attempt_ok.
  - intros j j' a a'. by apply claim_unique.
  - intros i d' k. by apply claim_numbers.
  - intros i d' t. simpl. intros [[<- <-]|[? Hd']]%lookup_insert_Some.
    + intros ->%active_claimed. eexists _, _. rewrite lookup_insert_eq. split; [done|].
      by apply in_progress_under_true.
    + intros Ht. destruct (wf_active _ _ _ Hwf i d' t Hd' Ht) as (j & a & Ha & Hp).
      pose proof Hp as (Hi & _)%in_progress_under_true.
      destruct (at_next _ _ _ _ (wf_attempt _ _ _ Hwf _ _ Ha)) as [Hj _].
      destruct (abandon_dom w id d now j a Ha) as (a' & Ha' & _ & _ & _ & Hs).
      exists j, a'. rewrite lookup_insert_ne by lia. split; [done|].
      rewrite Hs; [done|congruence].
Qed.

(** A released row: what both completions leave of a claim. *)
Definition releases (d d' : Delivery) : Prop :=
  dlv_attempt_count d' = dlv_attempt_count d ∧ dlv_max_attempts d' = dlv_max_attempts d ∧
  dlv_status d' ≠ DeliveryStatus.CLAIMED ∧ dlv_claimed_at d' = None ∧
  dlv_lease_expires_at d' = None ∧ dlv_claim_token d' = None ∧
  (dlv_status d' ∈ DELIVERY_DUE_CLAIMABLE_STATUSES →
     (dlv_attempt_count d' < dlv_max_attempts d')%Z).

Lemma delivered_releases d now : releases d (delivered_row d now).
Proof. split_and!; try done. absurd_mem. Qed.
Lemma failed_releases d code retryable delay now :
  releases d (failed_row d code retryable delay now).
Proof.
  unfold failed_row. case_match eqn:Hr; split_and!; try done.
  - intros _. apply andb_true_iff in Hr as [_ Hr%Z.ltb_lt]. done.
  - by destruct retryable.
  - simpl. destruct retryable; absurd_mem.
Qed.

Lemma released_ok d d' : delivery_ok d → releases d d' → delivery_ok d'.
Proof.
  intros [Hc Hm _ _] (Hn & Hx & Hs & ? & ? & ? & Hdue).
  split; rewrite ?Hn, ?Hx; [done..| |by rewrite <-Hn, <-Hx].
  unfold claim_fields_consistent. by rewrite decide_False.
Qed.

Lemma complete_world_wf w id d token d' j a a' :
  deliveries_wf w → w_deliveries w !! id = Some d → active_claim d token = true →
  w_attempts w !! j = Some a → in_progress_under id token j a = true →
  releases d d' →
  att_delivery a' = att_delivery a → att_attempt_number a' = att_attempt_number a →
  att_claim_token a' = att_claim_token a → att_status a' ≠ AttemptStatus.IN_PROGRESS →
  deliveries_wf (complete_world id d' j a' w).
Proof.
  intros Hwf Hd Ht Ha Hp Hrel Hi Hn Htk Hst.
  apply in_progress_under_true in Hp as (Hid & Htok & Hin).
  destruct (wf_delivery _ _ _ Hwf id d Hd) as [Hok Hlt].
  pose proof Hrel as (Hcount & Hmax & Hns & _).
  destruct (wf_attempt _ _ _ Hwf j a Ha) as [Hj (d0 & Hd0 & Hb & _)].
  rewrite Hid, Hd in Hd0. simplify_eq.
  assert (Hkeep : ∀ k b, <[j:=a']> (w_attempts w) !! k = Some b →
            ∃ b0, w_attempts w !! k = Some b0 ∧ att_delivery b = att_delivery b0 ∧
              att_attempt_number b = att_attempt_number b0 ∧
              att_claim_token b = att_claim_token b0 ∧
              (att_status b = AttemptStatus.IN_PROGRESS → b = b0 ∧ k ≠ j)).
  { intros k b [[<- <-]|[? Hb']]%lookup_insert_Some; [exists a|exists b]; by split_and!. }
  split; simpl.
  - intros i x [[<- <-]|[? Hx]]%lookup_insert_Some; [|by apply (wf_delivery _ _ _ Hwf)].
    split; [by eapply released_ok|done].
  - intros k b (b0 & Hb0 & Hbi & Hbn & Hbt & Hbs)%Hkeep.
    destruct (wf_attempt _ _ _ Hwf k b0 Hb0) as [Hk (x & Hx & Hbx & Hact)].
    split; [by rewrite Hbt|]. rewrite Hbi, Hbn, Hbt.
    destruct (decide (att_delivery b0 = att_delivery a)) as [He|He].
    + rewrite He, lookup_insert_eq. exists d'. rewrite He, Hd in Hx. simplify_eq.
      split_and!; [done|lia|lia|]. intros Hs. destruct (Hbs Hs) as [-> Hkj]. exfalso.
      destruct (Hact Hs) as [Hact1 Hact2]. apply Hkj.
      destruct (active_attempt_unique w _ x _ Hwf Hd Ht) as (q & qa & Hq & Hqp & _ & Hqn).
      destruct (at_delivery _ _ _ _ (wf_attempt _ _ _ Hwf j a Ha)) as (y & Hy & _ & Hay).
      rewrite Hd in Hy. simplify_eq. destruct (Hay Hin) as [_ Hay2].
      eapply (wf_unique _ _ _ Hwf k j b0 a); congruence.
    + rewrite lookup_insert_ne by done. exists x. split_and!; [done|lia|lia|].
      intros Hs. destruct (Hbs Hs) as [-> _]. by apply Hact.
  - intros k k' b b' (b0 & Hb0 & Hbi & Hbn & _)%Hkeep (b1 & Hb1 & Hbi1 & Hbn1 & _)%Hkeep ? ?.
    eapply (wf_unique _ _ _ Hwf k k' b0 b1); congruence.
  - intros i x k [[<- <-]|[? Hx]]%lookup_insert_Some Hk.
    all: destruct (wf_numbers _ _ _ Hwf _ _ k ltac:(done)) as (q & b & Hq & Hqi & Hqn);
      [rewrite <-?Hcount; done|].
    all: destruct (decide (q = j)) as [->|]; [exists j, a'|exists q, b];
      rewrite ?lookup_insert_eq, ?lookup_insert_ne by done; split_and!; congruence.
  - intros i x t [[<- <-]|[? Hx]]%lookup_insert_Some.
    + intros [? _]%active_claim_true. done.
    + intros Hxt. destruct (wf_active _ _ _ Hwf i x t Hx Hxt) as (q & b & Hq & Hqp).
      exists q, b. rewrite lookup_insert_ne; [done|]. intros <-.
      apply in_progress_under_true in Hqp as (Hqi & _). congruence.
Qed.

(** ** How services move the two tables *)

(** Every delivery persists and moves along its life cycle, the invariant is
    kept, identifiers stay fresh. *)
Definition delivery_rel : relation World := λ w w',
  (w_next w <= w_next w')%N ∧
  (deliveries_wf w → deliveries_wf w' ∧
     ∀ i d, w_deliveries w !! i = Some d →
       ∃ d', w_deliveries w' !! i = Some d' ∧ rtc delivery_step d d').

#[export] Instance delivery_rel_preorder : PreOrder delivery_rel.
Proof.
  unfold delivery_rel. split.
  - intros w. split; [lia|]. intros Hwf. split; [done|]. intros i d Hd. by exists d.
  - intros w1 w2 w3 [Hn1 H1] [Hn2 H2]. split; [lia|]. intros Hwf.
    destruct (H1 Hwf) as [Hwf2 Hs1]. destruct (H2 Hwf2) as [Hwf3 Hs2].
    split; [done|]. intros i d Hd. destruct (Hs1 i d Hd) as (d2 & Hd2 & Hr).
    destruct (Hs2 i d2 Hd2) as (d3 & Hd3 & Hr'). exists d3. split; [done|by etrans].
Qed.

Lemma delivery_wf_next D A n n' :
  (n <= n')%N → delivery_wf D A n → delivery_wf D A n'.
Proof.
  intros Hn [H1 H2 H3 H4 H5]. split; try done.
  - intros i d Hd. destruct (H1 i d Hd). split; [done|lia].
  - intros j a Ha. destruct (H2 j a Ha) as [Hj Hex]. split; [lia|done].
Qed.

(** A write elsewhere. *)
Lemma delivery_rel_frame w w' :
  w_deliveries w' = w_deliveries w → w_attempts w' = w_attempts w →
  (w_next w <= w_next w')%N → delivery_rel w w'.
Proof.
  intros Hd Ha Hn. split; [done|]. unfold deliveries_wf. rewrite Hd, Ha. intros Hwf.
  split; [by eapply delivery_wf_next|]. intros i d Hi. by exists d.
Qed.

Lemma claim_row_included id eligible lease now :
  eligible = due_eligible ∨ eligible = expired_claim_eligible →
  included delivery_rel (claim_row id eligible lease now).
Proof.
  intros He w. rewrite claim_row_run.
  destruct (w_deliveries w !! id) as [d|] eqn:Hd; [|by simpl].
  destruct (claimable eligible now d) eqn:Hc; simpl; [|done].
  apply andb_true_iff in Hc as [Hel Hlt%Z.ltb_lt].
  split; [simpl; lia|]. intros Hwf. split; [by apply claim_world_wf|].
  intros i x Hx. simpl. destruct (decide (i = id)) as [->|Hne].
  - rewrite lookup_insert_eq. eexists. split; [done|]. simplify_eq. apply rtc_once.
    destruct He as [-> | ->]; [by apply step_claim|by apply step_reclaim].
  - rewrite lookup_insert_ne by done. by exists x.
Qed.

Lemma complete_with_included id token status code retryable now response F :
  status ≠ AttemptStatus.IN_PROGRESS → (∀ d, releases d (F d)) →
  (∀ d, active_claim d token = true → delivery_step d (F d)) →
  included delivery_rel (complete_with id token status code retryable now response F).
Proof.
  intros Hst HF Hstep w. split.
  { unfold complete_with, atomic, lock_delivery_or_raise, find_row, gets, mbind, M_bind. simpl.
    destruct (w_deliveries w !! id) as [d|]; simpl; [|lia].
    unfold assert_active_claim. destruct (active_claim d token); simpl; [|lia].
    unfold complete_active_attempt, get_where, gets, mbind, M_bind. simpl.
    destruct (select_rows _ w) as [|x [|]]; simpl; lia. }
  intros Hwf.
  pose proof (complete_with_run id token status code retryable now response F w Hwf) as Hrun.
  destruct (w_deliveries w !! id) as [d|] eqn:Hd.
  2: { rewrite Hrun. split; [done|]. intros i x Hx. by exists x. }
  destruct (active_claim d token) eqn:Ht.
  2: { rewrite Hrun. split; [done|]. intros i x Hx. by exists x. }
  destruct Hrun as (j & a & Ha & Hp & ->). split; [by eapply complete_world_wf|].
  intros i x Hx. simpl. destruct (decide (i = id)) as [->|Hne].
  - rewrite lookup_insert_eq. eexists. split; [done|]. simplify_eq. by apply rtc_once, Hstep.
  - rewrite lookup_insert_ne by done. by exists x.
Qed.

Lemma or_now_included R `{!PreOrder R} now : included R (or_now now).
Proof. intros w. destruct now; simpl; reflexivity. Qed.

Lemma claim_delivery_included id lease now :
  included delivery_rel (claim_delivery id lease now).
Proof.
  apply included_bind; [apply _|apply or_now_included, _|]. intros t.
  apply claim_row_included. by left.
Qed.

Lemma reclaim_expired_delivery_included id lease now :
  included delivery_rel (reclaim_expired_delivery id lease now).
Proof.
  apply included_bind; [apply _|apply or_now_included, _|]. intros t.
  apply claim_row_included. by right.
Qed.

Lemma complete_delivery_success_included id token now response :
  included delivery_rel (complete_delivery_success id token now response).
Proof.
  apply included_bind; [apply _|apply or_now_included, _|]. intros t.
  apply (complete_with_included id token AttemptStatus.SUCCEEDED "" None t response
           (λ d, delivered_row d t)); [done|intros; apply delivered_releases|].
  intros d. by apply step_delivered.
Qed.

Lemma complete_delivery_failure_included id token code retryable delay now response :
  included delivery_rel (complete_delivery_failure id token code retryable delay now response).
Proof.
  apply included_bind; [apply _|apply or_now_included, _|]. intros t.
  apply (complete_with_included id token AttemptStatus.FAILED code (Some retryable) t response
           (λ d, failed_row d code retryable delay t)); [done|intros; apply failed_releases|].
  intros d. by apply step_failed.
Qed.

(** A row without an active claim replaced by another one. *)
Lemma reopen_wf w id d d' :
  deliveries_wf w → w_deliveries w !! id = Some d → dlv_status d ≠ DeliveryStatus.CLAIMED →
  delivery_ok d' → dlv_attempt_count d' = dlv_attempt_count d →
  dlv_status d' ≠ DeliveryStatus.CLAIMED →
  delivery_wf (<[id := d']> (w_deliveries w)) (w_attempts w) (w_next w).
Proof.
  intros Hwf Hd Hns Hok Hcount Hns'. split.
  - intros i x [[<- <-]|[? Hx]]%lookup_insert_Some; [|by apply (wf_delivery _ _ _ Hwf)].
    split; [done|]. by apply (wf_delivery _ _ _ Hwf id d).
  - intros j a Ha. destruct (wf_attempt _ _ _ Hwf j a Ha) as [Hj (x & Hx & Hb & Hin)].
    split; [done|]. destruct (decide (att_delivery a = id)) as [He|He].
    + rewrite He in *. rewrite lookup_insert_eq. exists d'. simplify_eq.
      split_and!; [done|lia|lia|]. intros Hs. destruct (Hin Hs) as [[? _]%active_claim_true _].
      done.
    + exists x. by rewrite lookup_insert_ne.
  - apply (wf_unique _ _ _ Hwf).
  - intros i x k [[<- <-]|[? Hx]]%lookup_insert_Some Hk.
    + apply (wf_numbers _ _ _ Hwf id d); [done|lia].
    + by apply (wf_numbers _ _ _ Hwf i x).
  - intros i x t [[<- <-]|[? Hx]]%lookup_insert_Some Ht.
    + by apply active_claim_true in Ht as [? _].
    + by apply (wf_active _ _ _ Hwf i x).
Qed.

(** The completions touch the deliveries and their attempts only. *)
Lemma complete_with_keys id token status code retryable now response F :
  included (keeps foreign_keys)
    (complete_with id token status code retryable now response F).
Proof.
  unfold complete_with, lock_delivery_or_raise, assert_active_claim, complete_active_attempt,
    find_row, get_where, save_row.
  included_steps; try (apply included_modify; intros w Hw; exact Hw).
Qed.
Lemma complete_delivery_success_keys id token now response :
  included (keeps foreign_keys) (complete_delivery_success id token now response).
Proof.
  apply included_bind; [apply _|apply or_now_included, _|]. intros t.
  apply (complete_with_keys id token AttemptStatus.SUCCEEDED "" None t response).
Qed.
Lemma complete_delivery_failure_keys id token code retryable delay now response :
  included (keeps foreign_keys)
    (complete_delivery_failure id token code retryable delay now response).
Proof.
  apply included_bind; [apply _|apply or_now_included, _|]. intros t.
  apply (complete_with_keys id token AttemptStatus.FAILED code (Some retryable) t response).
Qed.

Lemma fresh_delivery_unused w : deliveries_wf w → w_deliveries w !! w_next w = None.
Proof.
  intros Hwf. destruct (w_deliveries w !! w_next w) as [d|] eqn:Hd; [|done].
  destruct (wf_delivery _ _ _ Hwf _ _ Hd). lia.
Qed.

(** Inserting a row that has had no attempt. *)
Lemma insert_new_delivery_wf w d :
  deliveries_wf w → delivery_ok d → dlv_attempt_count d = 0%Z →
  dlv_status d ≠ DeliveryStatus.CLAIMED →
  delivery_wf (<[w_next w := d]> (w_deliveries w)) (w_attempts w) (N.succ (w_next w)).
Proof.
  intros Hwf Hok Hz Hs. pose proof (fresh_delivery_unused w Hwf) as Hnew. split.
  - intros i x [[<- <-]|[? Hx]]%lookup_insert_Some; [split; [done|lia]|].
    destruct (wf_delivery _ _ _ Hwf i x Hx). split; [done|lia].
  - intros j a Ha. destruct (wf_attempt _ _ _ Hwf j a Ha) as [Hj (x & Hx & Hr)].
    split; [lia|]. exists x. rewrite lookup_insert_ne; [done|congruence].
  - apply (wf_unique _ _ _ Hwf).
  - intros i x k [[<- <-]|[? Hx]]%lookup_insert_Some Hk; [lia|].
    by apply (wf_numbers _ _ _ Hwf i x).
  - intros i x t [[<- <-]|[? Hx]]%lookup_insert_Some Ht.
    + by apply active_claim_true in Ht as [? _].
    + by apply (wf_active _ _ _ Hwf i x).
Qed.

Lemma create_delivery_included workspace channel max_attempts now :
  included delivery_rel (create_delivery workspace channel max_attempts now).
Proof.
  apply included_bind; [apply _|apply or_now_included, _|]. intros t w.
  unfold atomic, raise_if, mbind, M_bind. simpl.
  destruct (Z.leb_spec (default DELIVERY_DEFAULT_MAX_ATTEMPTS max_attempts) 0); simpl; [done|].
  split; [simpl; lia|]. intros Hwf. split.
  - apply (insert_new_delivery_wf w); [done| |done..]. split; simpl; [lia..|by split_and!|lia].
  - intros i d Hd. exists d. simpl. rewrite lookup_insert_ne; [done|].
    intros <-. by rewrite fresh_delivery_unused in Hd.
Qed.

Lemma publish_included t : included delivery_rel (publish t).
Proof. intros w. apply delivery_rel_frame; simpl; lia || done. Qed.

(** ** The interface of channel handlers

    A handler is trusted only to move the two tables through the services of
    this file; each channel provides its instance. *)
Definition completion (d d' : Delivery) : Prop :=
  ∃ now, d' = delivered_row d now ∨
         ∃ code retryable delay, d' = failed_row d code retryable delay now.

Class ChannelHandler (h : DeliveryHandler) : Prop := {
  handler_included : ∀ i d t, included delivery_rel (h i d t);
  handler_keys : ∀ i d t, included (keeps foreign_keys) (h i d t);
  (** an attempt always ends in a completion of its own claim *)
  handler_completes : ∀ i d t w,
    deliveries_wf w → foreign_keys w →
    w_deliveries w !! i = Some d → active_claim d t = true →
    ∃ d', w_deliveries (h i d t w).2 !! i = Some d' ∧ completion d d';
}.

Lemma process_claimed_delivery_included handler_of id :
  (∀ c h, handler_of c = Some h → ChannelHandler h) →
  included delivery_rel (process_claimed_delivery handler_of id).
Proof.
  intros Hh. apply included_bind; [apply _|apply included_gets, _|]. intros [row|];
    [|apply included_ret, _].
  destruct (handler_of (dlv_channel row)) as [h|] eqn:Hc; [|apply included_ret, _].
  apply included_bind; [apply _| |].
  - apply included_catch; [apply _| |].
    + apply included_bind; [apply _|apply claim_delivery_included|].
      intros c. apply included_ret, _.
    + intros e. destruct e; try (apply included_raise, _). apply included_catch; [apply _| |].
      * apply included_bind; [apply _|apply reclaim_expired_delivery_included|].
        intros c. apply included_ret, _.
      * intros e. destruct e; try (apply included_raise, _). apply included_ret, _.
  - intros [[d t]|]; [|apply included_ret, _].
    apply included_bind; [apply _|apply (@handler_included _ (Hh _ _ Hc))|]. intros ?. apply included_ret, _.
Qed.

(** ** The life cycle *)

(** A delivery that was delivered, or has used its attempts up, is settled. *)
Definition delivered (d : Delivery) : Prop := dlv_status d = DeliveryStatus.DELIVERED.

Lemma eligible_not_terminal d now :
  due_eligible d now = true ∨ expired_claim_eligible d now = true →
  dlv_status d ∉ DELIVERY_TERMINAL_STATUSES.
Proof.
  unfold due_eligible, expired_claim_eligible.
  rewrite !andb_true_iff, !bool_decide_eq_true.
  intros [[Hs _]|[-> _]]; [|by mem_decide].
  destruct (dlv_status d); solve [by mem_decide|by mem_decide_in Hs].
Qed.

Lemma delivery_step_counts d d' :
  delivery_step d d' →
  dlv_attempt_count d' = dlv_attempt_count d ∨
  (dlv_attempt_count d' = (dlv_attempt_count d + 1)%Z ∧
   dlv_status d' = DeliveryStatus.CLAIMED ∧ dlv_status d ∉ DELIVERY_TERMINAL_STATUSES).
Proof.
  destruct 1 as [d t now l He _|d t now l He _|d t now|d t c r dl now|d now]; try by left.
  - right. split_and!; [done..|]. eapply eligible_not_terminal; eauto.
  - right. split_and!; [done..|]. eapply eligible_not_terminal; eauto.
  - left. unfold failed_row. by case_match.
Qed.

Lemma delivered_no_step d d' : delivered d → ¬ delivery_step d d'.
Proof.
  unfold delivered. intros Hd. destruct 1 as [d t now l He _|d t now l He _|d t now Ht|d t c r dl now Ht|d now Hs].
  - apply (eligible_not_terminal d now); [by left|]. rewrite Hd. by mem_decide.
  - apply (eligible_not_terminal d now); [by right|]. rewrite Hd. by mem_decide.
  - apply active_claim_true in Ht as [? _]. congruence.
  - apply active_claim_true in Ht as [? _]. congruence.
  - destruct Hs; congruence.
Qed.

(** The deliveries' life cycle, over any sequence of claims, reclaims,
    completions and redrives: a delivered row never changes again (so it is
    never attempted again), an attempt slot once consumed is never given back,
    and the immutable columns are immutable. *)
Theorem delivery_lifecycle d d' :
  rtc delivery_step d d' →
  (dlv_status d = DeliveryStatus.DELIVERED → d' = d) ∧
  (dlv_attempt_count d <= dlv_attempt_count d')%Z ∧
  dlv_workspace d' = dlv_workspace d ∧ dlv_channel d' = dlv_channel d.
Proof.
  induction 1 as [d|d d1 d2 Hs _ (IH1 & IH2 & IH3 & IH4)]; [done|].
  split_and!.
  - intros Hd. by apply (delivered_no_step d d1) in Hd.
  - destruct (delivery_step_counts d d1 Hs) as [He|[He _]]; lia.
  - rewrite IH3. destruct Hs; try done. unfold failed_row. by case_match.
  - rewrite IH4. destruct Hs; try done. unfold failed_row. by case_match.
Qed.

(** A completion by the holder of the claim always takes effect. *)
Lemma complete_delivery_failure_run i t d code retryable delay now response w :
  deliveries_wf w → w_deliveries w !! i = Some d → active_claim d t = true →
  let d' := failed_row d code retryable delay (default (w_now w) now) in
  (complete_delivery_failure i t code retryable delay now response w).1 = inr d' ∧
  w_deliveries (complete_delivery_failure i t code retryable delay now response w).2 !! i
    = Some d' ∧ completion d d'.
Proof.
  intros Hwf Hd Ht d'.
  pose proof (complete_with_run i t AttemptStatus.FAILED code (Some retryable)
    (default (w_now w) now) response (λ d, failed_row d code retryable delay (default (w_now w) now))
    w Hwf) as Hrun.
  rewrite Hd, Ht in Hrun. destruct Hrun as (j & a & _ & _ & Hrun).
  assert (Heq : complete_delivery_failure i t code retryable delay now response w
                = (inr d', complete_world i d' j (completed_attempt a AttemptStatus.FAILED code
                    (Some retryable) (default (w_now w) now) response) w))
    by by destruct now.
  rewrite Heq. split_and!; [done|simpl; by rewrite lookup_insert_eq|].
  eexists. right. by eexists _, _, _.
Qed.

Lemma complete_delivery_success_run i t d now response w :
  deliveries_wf w → w_deliveries w !! i = Some d → active_claim d t = true →
  let d' := delivered_row d (default (w_now w) now) in
  (complete_delivery_success i t now response w).1 = inr d' ∧
  w_deliveries (complete_delivery_success i t now response w).2 !! i = Some d' ∧
  completion d d'.
Proof.
  intros Hwf Hd Ht d'.
  pose proof (complete_with_run i t AttemptStatus.SUCCEEDED "" None
    (default (w_now w) now) response (λ d, delivered_row d (default (w_now w) now))
    w Hwf) as Hrun.
  rewrite Hd, Ht in Hrun. destruct Hrun as (j & a & _ & _ & Hrun).
  assert (Heq : complete_delivery_success i t now response w
                = (inr d', complete_world i d' j (completed_attempt a AttemptStatus.SUCCEEDED ""
                    None (default (w_now w) now) response) w)) by by destruct now.
  rewrite Heq. split_and!; [done|simpl; by rewrite lookup_insert_eq|].
  eexists. by left.
Qed.

(** ** Theorems *)

(** What a claim that succeeded establishes. *)
Lemma claim_row_succeeds id eligible lease now w d token w' :
  claim_row id eligible lease now w = (inr (d, token), w') →
  ∃ d0, w_deliveries w !! id = Some d0 ∧ claimable eligible now d0 = true ∧
        token = w_next w ∧
        d = claimed_row d0 token now (default DELIVERY_CLAIM_LEASE_SECONDS lease) ∧
        w' = claim_world id d0 (default DELIVERY_CLAIM_LEASE_SECONDS lease) now w.
Proof.
  rewrite claim_row_run. destruct (w_deliveries w !! id) as [d0|]; [|done].
  destruct (claimable eligible now d0) eqn:Hc; [|done]. intros [= <- <- <-]. eauto 7.
Qed.

Lemma claimed_not_claimable eligible d0 token now lease t :
  eligible = due_eligible ∨
  eligible = expired_claim_eligible ∧ (t < now + seconds lease)%Z →
  claimable eligible t (claimed_row d0 token now lease) = false.
Proof.
  unfold claimable. intros [->|[-> Ht]]; [done|].
  unfold expired_claim_eligible. simpl. by rewrite (proj2 (Z.leb_gt _ _)).
Qed.

(** C16. A claim, or the reclaim of an abandoned delivery, gives one worker sole
    ownership: it uses up exactly one attempt, which was left; until the lease
    expires nobody else can claim or reclaim; and a worker that holds any other
    token (the one whose lease expired) can complete nothing, neither as a
    success nor as a failure, and changes nothing by trying. *)
Theorem claim_is_exclusive id eligible lease now w d token w' other t :
  deliveries_wf w →
  eligible = due_eligible ∨ eligible = expired_claim_eligible →
  claim_row id eligible lease now w = (inr (d, token), w') →
  other ≠ token → (t < now + seconds (default DELIVERY_CLAIM_LEASE_SECONDS lease))%Z →
  (∃ d0, w_deliveries w !! id = Some d0 ∧ (dlv_status d0 ∉ DELIVERY_TERMINAL_STATUSES) ∧
         dlv_attempt_count d = (dlv_attempt_count d0 + 1)%Z ∧
         (dlv_attempt_count d <= dlv_max_attempts d)%Z) ∧
  w_deliveries w' !! id = Some d ∧ active_claim d token = true ∧ deliveries_wf w' ∧
  claim_delivery id None (Some t) w' = (inl DeliveryNotClaimableError, w') ∧
  reclaim_expired_delivery id None (Some t) w' = (inl DeliveryNotClaimableError, w') ∧
  (∀ n r, complete_delivery_success id other n r w' = (inl StaleClaimError, w')) ∧
  (∀ c b dl n r, complete_delivery_failure id other c b dl n r w' = (inl StaleClaimError, w')).
Proof.
  intros Hwf Hel Hclaim Hother Ht.
  destruct (claim_row_succeeds _ _ _ _ _ _ _ _ Hclaim) as (d0 & Hd0 & Hc & -> & -> & ->).
  apply andb_true_iff in Hc as [He Hlt%Z.ltb_lt].
  set (L := default DELIVERY_CLAIM_LEASE_SECONDS lease) in *.
  pose proof (claim_world_wf w id d0 L now Hwf Hd0 Hlt) as Hwf'.
  assert (Hrow : w_deliveries (claim_world id d0 L now w) !! id
                 = Some (claimed_row d0 (w_next w) now L)) by (simpl; by rewrite lookup_insert_eq).
  assert (Hstale : ∀ st c ret n r F,
    complete_with id other st c ret n r F (claim_world id d0 L now w)
    = (inl StaleClaimError, claim_world id d0 L now w)).
  { intros. pose proof (complete_with_run id other st c ret n r F _ Hwf') as Hrun.
    rewrite Hrow in Hrun. destruct (active_claim _ other) eqn:Ha; [|done].
    by apply active_claimed in Ha. }
  split_and!.
  - exists d0. split_and!; [done| |done|simpl; lia].
    destruct Hel as [->| ->]; eapply eligible_not_terminal; eauto.
  - done.
  - by apply active_claimed.
  - done.
  - unfold claim_delivery, mbind, M_bind. simpl. rewrite claim_row_run, Hrow.
    rewrite claimed_not_claimable; [done|by left].
  - unfold reclaim_expired_delivery, mbind, M_bind. simpl. rewrite claim_row_run, Hrow.
    rewrite claimed_not_claimable; [done|by right].
  - intros n r. destruct n as [n|]; apply (Hstale AttemptStatus.SUCCEEDED "" None).
  - intros c b dl n r. destruct n as [n|]; apply (Hstale AttemptStatus.FAILED c (Some b)).
Qed.

(** The worker boundary keeps the two tables consistent whatever the registered
    handlers do through the delivery services: attempt counts stay within their
    bounds, claim columns are set together and cleared together, the attempts of
    a delivery are numbered 1, 2, ... without gaps or repetition and at most one
    of them is in progress; and every delivery only moves along its life
    cycle. *)
Theorem process_claimed_delivery_safe handler_of id w r w' :
  (∀ c h, handler_of c = Some h → ChannelHandler h) →
  deliveries_wf w → process_claimed_delivery handler_of id w = (r, w') →
  deliveries_wf w' ∧
  ∀ i d, w_deliveries w !! i = Some d →
    ∃ d', w_deliveries w' !! i = Some d' ∧ rtc delivery_step d d'.
Proof.
  intros Hh Hwf Hrun.
  destruct (process_claimed_delivery_included handler_of id Hh w) as [_ Hrel].
  rewrite Hrun in Hrel. by apply Hrel.
Qed.

(** Backoff: positive, never beyond the cap, exactly doubling below it, and
    never shorter than the delay before. *)
Theorem compute_retry_delay_bounds n base cap :
  (1 <= n)%Z → (0 < base)%Z → (0 < cap)%Z →
  let delay n := compute_retry_delay_seconds n (Some base) (Some cap) in
  (0 < delay n <= cap)%Z ∧ (delay n <= delay (n + 1))%Z ∧
  delay (n + 1)%Z = Z.min (2 * delay n)%Z cap ∧ delay 1%Z = Z.min base cap.
Proof.
  intros Hn Hb Hc delay. unfold delay, compute_retry_delay_seconds. simpl.
  assert (0 < 2 ^ (n - 1))%Z by (apply Z.pow_pos_nonneg; lia).
  replace (n + 1 - 1)%Z with (Z.succ (n - 1)) by lia.
  rewrite Z.pow_succ_r by lia. set (p := (2 ^ (n - 1))%Z) in *.
  assert (base <= base * p)%Z by nia.
  split_and!; nia.
Qed.

(** ** Progress *)

Lemma claim_delivery_run id w :
  claim_delivery id None None w = claim_row id due_eligible None (w_now w) w.
Proof. done. Qed.
Lemma reclaim_expired_delivery_run id w :
  reclaim_expired_delivery id None None w
  = claim_row id expired_claim_eligible None (w_now w) w.
Proof. done. Qed.

(** A due delivery, or one whose claim has expired, is claimed and handed to its
    channel's handler. *)
Lemma process_claimable handler_of h id d w :
  w_deliveries w !! id = Some d → handler_of (dlv_channel d) = Some h →
  claimable due_eligible (w_now w) d = true ∨
  claimable expired_claim_eligible (w_now w) d = true →
  let w1 := claim_world id d DELIVERY_CLAIM_LEASE_SECONDS (w_now w) w in
  (process_claimed_delivery handler_of id w).2
  = (h id (claimed_row d (w_next w) (w_now w) DELIVERY_CLAIM_LEASE_SECONDS) (w_next w) w1).2.
Proof.
  intros Hd Hh Hc. unfold process_claimed_delivery, find_row, gets, catch, mbind, M_bind. simpl.
  rewrite Hd, Hh, claim_delivery_run, claim_row_run, Hd.
  destruct (claimable due_eligible (w_now w) d); simpl; [by destruct (h _ _ _ _) as [[e|[]] w2]|].
  destruct Hc as [|Hc]; [done|]. rewrite reclaim_expired_delivery_run, claim_row_run, Hd, Hc. simpl.
  by destruct (h _ _ _ _) as [[e|[]] w2].
Qed.

(** A delivery that is neither due nor expired is left alone. *)
Lemma process_not_claimable handler_of id d w :
  w_deliveries w !! id = Some d →
  claimable due_eligible (w_now w) d = false →
  claimable expired_claim_eligible (w_now w) d = false →
  (process_claimed_delivery handler_of id w).2 = w ∧
  ((process_claimed_delivery handler_of id w).1 = inr "skipped" ∨
   (process_claimed_delivery handler_of id w).1 = inr "skipped_unsupported_channel").
Proof.
  intros Hd H1 H2. unfold process_claimed_delivery, find_row, gets, catch, mbind, M_bind. simpl.
  rewrite Hd. destruct (handler_of (dlv_channel d)) as [h|]; [|by auto].
  rewrite claim_delivery_run, claim_row_run, Hd, H1. simpl.
  rewrite reclaim_expired_delivery_run, claim_row_run, Hd, H2. simpl. by auto.
Qed.

(** When the delivery can be claimed next: when it is due or, under a claim, when the lease
    of the claim runs out. *)
Definition claimable_at (d : Delivery) : Z :=
  if bool_decide (dlv_status d = DeliveryStatus.CLAIMED)
  then default 0%Z (dlv_lease_expires_at d) else dlv_next_attempt_at d.

(** What a worker that dies has done of its handler: anything that leaves the delivery
    under its claim. *)
Class Interrupted (h : DeliveryHandler) : Prop := {
  interrupted_included : ∀ i d t, included delivery_rel (h i d t);
  interrupted_keys : ∀ i d t, included (keeps foreign_keys) (h i d t);
  interrupted_claimed : ∀ i d t w, w_deliveries (h i d t w).2 !! i = w_deliveries w !! i;
}.

(** The clock moved on to when the delivery can be claimed, and its task run.
    [dies n] says what the worker of attempt [n] has done when it dies, if it does. *)
Definition round (handler_of : DeliveryChannel.t → option DeliveryHandler)
    (dies : Z → option DeliveryHandler) (id : N) (w : World) : World :=
  match w_deliveries w !! id with
  | None => w
  | Some d =>
      let handler_of c :=
        match dies (dlv_attempt_count d + 1)%Z with Some h => Some h | None => handler_of c end in
      (process_claimed_delivery handler_of id
         {| w with w_now := Z.max (w_now w) (claimable_at d) |}).2
  end.

Fixpoint rounds handler_of dies (id : N) (n : nat) (w : World) : World :=
  match n with O => w | S n => rounds handler_of dies id n (round handler_of dies id w) end.

(** A delivery that may still be attempted: scheduled, or under a claim that is not the
    last. *)
Definition attempts_left (d : Delivery) : Prop :=
  (dlv_status d ∈ DELIVERY_DUE_CLAIMABLE_STATUSES ∨ dlv_status d = DeliveryStatus.CLAIMED) ∧
  (dlv_attempt_count d < dlv_max_attempts d)%Z.

Lemma attempts_left_claimable d now :
  delivery_ok d → attempts_left d → (claimable_at d <= now)%Z →
  claimable due_eligible now d = true ∨ claimable expired_claim_eligible now d = true.
Proof.
  intros Hok [Hs Hlt%Z.ltb_lt]. unfold claimable_at, claimable, due_eligible, expired_claim_eligible.
  rewrite Hlt, !andb_true_r. pose proof (ok_claim d Hok) as Hclaim. unfold claim_fields_consistent in Hclaim.
  destruct (decide (dlv_status d = DeliveryStatus.CLAIMED)) as [Hcl|Hcl].
  - rewrite (bool_decide_eq_true_2 _ Hcl). destruct Hclaim as (_ & [t ->] & _). simpl.
    intros Hle%Z.leb_le. by right.
  - rewrite (bool_decide_eq_false_2 _ Hcl). intros Hle%Z.leb_le. left.
    rewrite Hle, andb_true_r. apply bool_decide_eq_true. by destruct Hs.
Qed.

(** One round spends one attempt, and settles the delivery or leaves it with attempts. *)
Lemma round_attempts handler_of h dies id d w :
  ChannelHandler h → handler_of (dlv_channel d) = Some h →
  (∀ n g, dies n = Some g → Interrupted g) → dies (dlv_max_attempts d) = None →
  deliveries_wf w → foreign_keys w → w_deliveries w !! id = Some d → attempts_left d →
  let w' := round handler_of dies id w in
  deliveries_wf w' ∧ foreign_keys w' ∧
  ∃ d', w_deliveries w' !! id = Some d' ∧
        dlv_channel d' = dlv_channel d ∧ dlv_max_attempts d' = dlv_max_attempts d ∧
        dlv_attempt_count d' = (dlv_attempt_count d + 1)%Z ∧
        (dlv_status d' ∈ DELIVERY_TERMINAL_STATUSES ∨ attempts_left d').
Proof.
  intros Hh Hof Hdies Hlast Hwf Hfk Hd Hleft w'. unfold w', round. rewrite Hd.
  set (handlers := λ c : DeliveryChannel.t, match dies _ with Some h0 => _ | None => _ end).
  set (w0 := {| w with w_now := _ |}).
  destruct (wf_delivery _ _ _ Hwf id d Hd) as [Hok _]. destruct Hleft as [Hs Hlt].
  assert (Hg : ∃ g, handlers (dlv_channel d) = Some g) by (unfold handlers; case_match; eauto).
  destruct Hg as [g Hg].
  rewrite (process_claimable handlers g id d w0 Hd Hg)
    by (apply attempts_left_claimable; [done|by split|simpl; lia]).
  set (w1 := claim_world _ _ _ _ _).
  assert (Hwf1 : deliveries_wf w1) by by apply claim_world_wf.
  set (d1 := claimed_row _ _ _ _).
  assert (Hd1 : w_deliveries w1 !! id = Some d1) by (simpl; by rewrite lookup_insert_eq).
  unfold handlers in Hg. destruct (dies (dlv_attempt_count d + 1)%Z) as [g'|] eqn:Hdie.
  - injection Hg as ->. pose proof (Hdies _ _ Hdie) as Hint.
    split; [by apply (interrupted_included id d1 (w_next w0) w1)|].
    split; [by apply (interrupted_keys id d1 (w_next w0) w1)|].
    exists d1. rewrite interrupted_claimed. split_and!; [done..|]. right. split; [by right|]. simpl.
    assert (dlv_attempt_count d + 1 ≠ dlv_max_attempts d)%Z by congruence. lia.
  - assert (g = h) as -> by congruence.
    destruct (handler_completes id d1 (w_next w0) w1 Hwf1 Hfk Hd1) as (d2 & Hd2 & Hcomp);
      [by apply active_claimed|].
    assert (Hwf2 : deliveries_wf (h id d1 (w_next w0) w1).2)
      by by apply (handler_included id d1 (w_next w0) w1).
    split; [done|]. split; [by apply (handler_keys id d1 (w_next w0) w1)|].
    exists d2. split; [done|]. destruct (wf_delivery _ _ _ Hwf2 id d2 Hd2) as [Hok2 _].
    destruct Hcomp as [now [->|(code & retryable & delay & ->)]];
      [split_and!; try done; left; by mem_decide|].
    revert Hok2. unfold failed_row. case_match; intros Hok2; split_and!; try done.
    + right. split; [left; by mem_decide|]. apply (ok_due _ Hok2). by mem_decide.
    + left. destruct retryable; by mem_decide.
Qed.

(** C17. Every scheduled delivery is settled (delivered, failed or dead) after at most as
    many further attempts as it has left, whatever the outcomes of the attempts and
    whichever workers die in the middle of one, as long as the worker of the last allowed
    attempt does not: retries always come to an end.  Where that worker dies, nothing
    settles the delivery any more ([exhausted_claim_is_stuck]). *)
Theorem delivery_settles handler_of h dies id d w :
  ChannelHandler h → handler_of (dlv_channel d) = Some h →
  (∀ n g, dies n = Some g → Interrupted g) → dies (dlv_max_attempts d) = None →
  deliveries_wf w → foreign_keys w →
  w_deliveries w !! id = Some d → dlv_status d ∈ DELIVERY_DUE_CLAIMABLE_STATUSES →
  ∃ (k : nat) d', (Z.of_nat k <= dlv_max_attempts d - dlv_attempt_count d)%Z ∧
    w_deliveries (rounds handler_of dies id k w) !! id = Some d' ∧
    dlv_status d' ∈ DELIVERY_TERMINAL_STATUSES ∧
    dlv_attempt_count d' = (dlv_attempt_count d + Z.of_nat k)%Z.
Proof.
  intros Hh Hof Hdies Hlast Hwf Hfk Hd Hs. assert (Hleft : attempts_left d).
  { split; [by left|]. by apply ok_due; [apply (wf_delivery _ _ _ Hwf id d Hd)|]. }
  clear Hs. remember (Z.to_nat (dlv_max_attempts d - dlv_attempt_count d)) as n eqn:Hn.
  revert d w Hn Hof Hlast Hwf Hfk Hd Hleft.
  induction n as [|n IH]; intros d w Hn Hof Hlast Hwf Hfk Hd Hleft; [destruct Hleft; lia|].
  destruct (round_attempts handler_of h dies id d w Hh Hof Hdies Hlast Hwf Hfk Hd Hleft)
    as (Hwf1 & Hfk1 & d1 & Hd1 & Hch & Hmax & Hcount & Ht).
  destruct Hleft as [_ Hlt]. destruct Ht as [Ht|Ht].
  - exists 1%nat, d1. split_and!; [lia|done..|lia].
  - destruct (IH d1 (round handler_of dies id w)) as (k & d' & Hk & Hd' & Ht' & Hc');
      [lia|by rewrite Hch|by rewrite Hmax|done..|].
    exists (S k), d'. split_and!; [lia|done..|lia].
Qed.

(** A worker that dies during the last allowed attempt: the delivery stays
    claimed under a lease that has expired, the sweeper keeps publishing it, and
    no run of its task, at any later time, ever claims it or settles it. *)
Theorem exhausted_claim_is_stuck handler_of id d w now :
  w_deliveries w !! id = Some d → dlv_status d = DeliveryStatus.CLAIMED →
  dlv_attempt_count d = dlv_max_attempts d →
  (process_claimed_delivery handler_of id {| w with w_now := now |}).2
    = {| w with w_now := now |} ∧
  (∀ lease, dlv_lease_expires_at d = Some lease → (lease <= now)%Z →
     (id, d) ∈ expired_claimed_deliveries now w).
Proof.
  intros Hd Hs Hc. split.
  - apply (process_not_claimable handler_of id d); [done|..];
      unfold claimable; rewrite Hc, Z.ltb_irrefl; apply andb_false_r.
  - intros lease Hl Hle. unfold expired_claimed_deliveries.
    rewrite (merge_sort_Permutation _ _), in_select_rows. split; [done|].
    unfold expired_claim_eligible. rewrite Hs, Hl. simpl. by apply Z.leb_le.
Qed.

End Delivery.

(** ** Automation for the clients

    A leaf of a client's service that touches neither table frames the delivery
    relation; one that leaves the webhook tables alone keeps the foreign keys. *)
#[export] Hint Resolve claim_delivery_included reclaim_expired_delivery_included
  complete_delivery_success_included complete_delivery_failure_included
  create_delivery_included publish_included
  complete_delivery_success_keys complete_delivery_failure_keys : included.
#[export] Hint Extern 5 (included delivery_rel _) =>
  solve [intros ?; apply delivery_rel_frame; simpl; (reflexivity || lia)] : included.
#[export] Hint Extern 5 (included (keeps foreign_keys) _) =>
  solve [intros ? Hkeys; exact Hkeys] : included.

(** ** Concrete instances *)

Module DeliveryExamples.
#[local] Existing Instance default_settings.

(** A channel whose every attempt fails in a retryable way. *)
Definition failing : DeliveryHandler := λ i _ t,
  complete_delivery_failure i t "integration_timeout" true None None None;; mret ().

#[local] Instance failing_handler : ChannelHandler failing.
Proof.
  split.
  - intros i d t. apply included_bind; [apply _|apply complete_delivery_failure_included|].
    intros ?. apply included_ret, _.
  - intros i d t. apply included_bind; [apply _|apply complete_delivery_failure_keys|].
    intros ?. apply included_ret, _.
  - intros i d t w Hwf _ Hd Ht. unfold failing, mbind, M_bind.
    pose proof (complete_delivery_failure_run i t d "integration_timeout" true None None None w
                  Hwf Hd Ht) as (Hr & Hd' & Hc).
    destruct (complete_delivery_failure _ _ _ _ _ _ _ _) as [r w']. simpl in *. subst r. simpl.
    eauto.
Qed.

Definition channels (c : DeliveryChannel.t) : option DeliveryHandler :=
  match c with DeliveryChannel.NOTIFICATION => Some failing | _ => None end.

Lemma channels_ok c h : channels c = Some h → ChannelHandler h.
Proof. destruct c; intros [= <-]. apply _. Qed.

Lemma empty_deliveries_wf : deliveries_wf empty_world.
Proof. split; intros; done. Qed.

(** One delivery with three attempts, just created. *)
Definition created : World :=
  (create_delivery 7 DeliveryChannel.NOTIFICATION (Some 3%Z) None empty_world).2.
Definition row0 : Delivery :=
  {| dlv_workspace := 7; dlv_channel := DeliveryChannel.NOTIFICATION;
     dlv_status := DeliveryStatus.PENDING; dlv_attempt_count := 0; dlv_max_attempts := 3;
     dlv_next_attempt_at := 1000000000; dlv_claimed_at := None; dlv_lease_expires_at := None;
     dlv_claim_token := None; dlv_first_attempt_at := None; dlv_delivered_at := None;
     dlv_failed_at := None; dlv_last_error_code := "" |}.

Lemma created_wf : deliveries_wf created.
Proof.
  apply (create_delivery_included 7 DeliveryChannel.NOTIFICATION (Some 3%Z) None empty_world).
  apply empty_deliveries_wf.
Qed.

Lemma created_keys : foreign_keys created.
Proof. intros i wd Hwd. done. Qed.

Example failing_delivery_fails_after_three :
  (λ d, (dlv_status d, dlv_attempt_count d)) <$> w_deliveries (rounds channels (λ _, None) 1 3 created) !! 1%N
  = Some (DeliveryStatus.FAILED, 3%Z).
Proof. vm_compute. reflexivity. Qed.

Lemma claim_is_exclusive_witness :
  ∃ d w', claim_row 1 due_eligible None 1000000000 created = (inr (d, 2%N), w') ∧
    active_claim d 2 = true ∧
    complete_delivery_success 1 9 None None w' = (inl StaleClaimError, w').
Proof.
  eexists _, _. split; [reflexivity|].
  destruct (claim_is_exclusive 1 due_eligible None 1000000000 created _ 2 _ 9 1000000001
              created_wf (or_introl eq_refl) eq_refl) as (_ & _ & Ha & _ & _ & _ & Hs & _);
    [discriminate|reflexivity|].
  split; [exact Ha|apply (Hs None None)].
Defined.

Lemma process_claimed_delivery_safe_witness :
  ∃ r w', process_claimed_delivery channels 1 created = (r, w') ∧ deliveries_wf w'.
Proof.
  eexists _, _. split; [reflexivity|].
  apply (process_claimed_delivery_safe channels 1 created _ _ channels_ok created_wf eq_refl).
Defined.

Lemma delivery_lifecycle_witness :
  rtc delivery_step row0 (claimed_row row0 2 1000000000 300) ∧
  (dlv_attempt_count row0 <= dlv_attempt_count (claimed_row row0 2 1000000000 300))%Z.
Proof.
  assert (Hr : rtc delivery_step row0 (claimed_row row0 2 1000000000 300))
    by (apply rtc_once, step_claim; reflexivity).
  split; [exact Hr|]. apply (delivery_lifecycle _ _ Hr).
Defined.

Lemma compute_retry_delay_bounds_witness :
  (0 < compute_retry_delay_seconds 3 (Some 30) (Some 3600) <= 3600)%Z ∧
  compute_retry_delay_seconds 3 (Some 30%Z) (Some 3600%Z) = 120%Z.
Proof.
  split; [|reflexivity]. apply (compute_retry_delay_bounds 3 30 3600); reflexivity || discriminate.
Defined.

(** The worker of the first attempt dies. *)
Definition lost : DeliveryHandler := λ _ _ _, mret ().
#[local] Instance lost_interrupted : Interrupted lost.
Proof. split; [intros i d t; apply included_ret, _..|done]. Qed.
Definition first_dies (n : Z) : option DeliveryHandler :=
  if bool_decide (n = 1%Z) then Some lost else None.

Lemma delivery_settles_witness :
  (dlv_status <$> w_deliveries (rounds channels first_dies 1 1 created) !! 1%N)
    = Some DeliveryStatus.CLAIMED ∧
  ∃ (k : nat) d', w_deliveries (rounds channels first_dies 1 k created) !! 1%N = Some d' ∧
    dlv_status d' ∈ DELIVERY_TERMINAL_STATUSES.
Proof.
  split; [reflexivity|].
  destruct (delivery_settles channels failing first_dies 1 row0 created failing_handler eq_refl)
    as (k & d' & _ & Hd & Hs & _);
    [|reflexivity|exact created_wf|exact created_keys|reflexivity|by mem_decide|].
  { intros n g. unfold first_dies. case_bool_decide; [|done]. intros [= <-]. exact lost_interrupted. }
  exists k, d'. split; [exact Hd|exact Hs].
Defined.

Definition exhausted_row : Delivery :=
  let d := claimed_row row0 5 1000000000 300 in {| d with dlv_attempt_count := 3%Z |}.
Definition exhausted : World :=
  {| empty_world with w_deliveries :=
       {[ 1%N := exhausted_row ]} |}.

Lemma exhausted_claim_is_stuck_witness :
  (process_claimed_delivery channels 1 {| exhausted with w_now := 5000000000%Z |}).2
    = {| exhausted with w_now := 5000000000%Z |}.
Proof.
  apply (exhausted_claim_is_stuck channels 1
           exhausted_row exhausted);
    reflexivity.
Defined.
End DeliveryExamples.
