(* ===== verification/Network.v ===== *)
(** * Outbound requests

    [webhooks/security.py], [webhooks/signing.py], [webhooks/transport.py] and
    [webhooks/classification.py]: which destinations a webhook may reach, how a
    request is signed, how it is sent and how its outcome is classified; and
    [integrations/crypto.py], which encrypts what is stored. *)

From stdpp Require Import base strings list pretty.
From Stdlib Require Import ZArith String Lia.
From S2P Require Import Prelude Json Domain Policy Models Store.

(** ** Addresses

    [ipaddress] of the Standard Library: an IPv4 address is a 32-bit, an IPv6
    address a 128-bit integer. *)

Inductive ip_address := IPv4 (a : Z) | IPv6 (a : Z).

(** A network of [w]-bit addresses: its base and prefix length. *)
Definition in_network (w : Z) (net : Z * Z) (a : Z) : bool :=
  (Z.shiftr a (w - net.2) =? Z.shiftr net.1 (w - net.2))%Z.

Definition v4 (a b c d : Z) : Z := (((a * 256 + b) * 256 + c) * 256 + d)%Z.
(** An IPv6 address from its first four and its last two 16-bit groups. *)
Definition v6 (a b c d y z : Z) : Z :=
  (Z.shiftl (((a * 65536 + b) * 65536 + c) * 65536 + d) 64 + y * 65536 + z)%Z.

(** [IPv4Address.is_private], [is_global] and [is_multicast]. *)
Definition ipv4_private_networks : list (Z * Z) :=
  [(v4 0 0 0 0, 8); (v4 10 0 0 0, 8); (v4 127 0 0 0, 8); (v4 169 254 0 0, 16);
   (v4 172 16 0 0, 12); (v4 192 0 0 0, 24); (v4 192 0 0 170, 31); (v4 192 0 2 0, 24);
   (v4 192 168 0 0, 16); (v4 198 18 0 0, 15); (v4 198 51 100 0, 24); (v4 203 0 113 0, 24);
   (v4 240 0 0 0, 4); (v4 255 255 255 255, 32)]%Z.
Definition ipv4_private_exceptions : list (Z * Z) :=
  [(v4 192 0 0 9, 32); (v4 192 0 0 10, 32)]%Z.
Definition ipv4_is_private (a : Z) : bool :=
  existsb (λ n, in_network 32 n a) ipv4_private_networks
  && negb (existsb (λ n, in_network 32 n a) ipv4_private_exceptions).
Definition ipv4_is_global (a : Z) : bool :=
  negb (in_network 32 (v4 100 64 0 0, 10%Z) a) && negb (ipv4_is_private a).
Definition ipv4_is_multicast (a : Z) : bool := in_network 32 (v4 224 0 0 0, 4%Z) a.

(** [IPv6Address.ipv4_mapped]: [::ffff:0:0/96]. *)
Definition ipv4_mapped (a : Z) : option Z :=
  if (Z.shiftr a 32 =? 65535)%Z then Some (Z.land a (Z.ones 32)) else None.

Definition ipv6_private_networks : list (Z * Z) :=
  [(v6 0 0 0 0 0 1, 128); (v6 0 0 0 0 0 0, 128); (Z.shiftl 65535 32, 96);
   (v6 100 65435 1 0 0 0, 48); (v6 256 0 0 0 0 0, 64); (v6 8193 0 0 0 0 0, 23);
   (v6 8193 3512 0 0 0 0, 32); (v6 8194 0 0 0 0 0, 16); (v6 16383 0 0 0 0 0, 20);
   (v6 64512 0 0 0 0 0, 7); (v6 65152 0 0 0 0 0, 10)]%Z.
Definition ipv6_private_exceptions : list (Z * Z) :=
  [(v6 8193 1 0 0 0 1, 128); (v6 8193 1 0 0 0 2, 128); (v6 8193 3 0 0 0 0, 32);
   (v6 8193 4 274 0 0 0, 48); (v6 8193 32 0 0 0 0, 28); (v6 8193 48 0 0 0 0, 28)]%Z.
Definition ipv6_is_private (a : Z) : bool :=
  match ipv4_mapped a with
  | Some b => ipv4_is_private b
  | None => existsb (λ n, in_network 128 n a) ipv6_private_networks
            && negb (existsb (λ n, in_network 128 n a) ipv6_private_exceptions)
  end.
Definition ipv6_is_multicast (a : Z) : bool := in_network 128 (v6 65280 0 0 0 0 0, 8%Z) a.

(** [_DEPRECATED_SITE_LOCAL_IPV6]: [fec0::/10]. *)
Definition DEPRECATED_SITE_LOCAL_IPV6 : Z * Z := (v6 65216 0 0 0 0 0, 10%Z).

Definition is_blocked_ipv4 (a : Z) : bool :=
  if ipv4_is_multicast a then true else negb (ipv4_is_global a).

Definition is_blocked_address (address : ip_address) : bool :=
  match address with
  | IPv4 a => is_blocked_ipv4 a
  | IPv6 a =>
      match ipv4_mapped a with
      | Some b => is_blocked_ipv4 b
      | None =>
          if ipv6_is_multicast a then true
          else if in_network 128 DEPRECATED_SITE_LOCAL_IPV6 a then true
          else ipv6_is_private a
      end
  end.

(** ** What the network and the cryptography provide *)

(** [urllib.parse.urlsplit]'s result; [None] in [port] is the [ValueError] of the
    attribute. *)
Record split_result := {
  sr_scheme : string;
  sr_fragment : string;
  sr_userinfo : bool;
  sr_hostname : option string;
  sr_port : option (option Z);
  sr_path : string;
  sr_query : string;
}.

(** How a [urllib3] request ends. *)
Inductive http_outcome :=
  | HttpResponse (status : Z)
  | SSLError | NewConnectionError | ConnectTimeoutError | ReadTimeoutError
  | ProtocolError | HTTPError
  | OtherFailure (n : N).

Record http_request := {
  rq_scheme : string;
  rq_ip : string;
  rq_port : Z;
  rq_hostname : string;
  rq_path_and_query : string;
  rq_headers : list (string * string);
  rq_body : string;
}.

Class Network := {
  urlsplit : string → option split_result;
  (** [socket.getaddrinfo]: [None] is a [gaierror]; per result, the literal
      without its zone, as [ipaddress.ip_address] reads it *)
  getaddrinfo : string → Z → World → option (list (string * option ip_address));
  (** one pinned [urllib3] request *)
  pool_request : http_request → World → http_outcome;
  (** [json.dumps(.., sort_keys=True, separators=(",", ":"))] *)
  json_dumps : json → string;
  (** [hmac.new(key, message, sha256).hexdigest()] *)
  hmac_sha256 : string → string → string;
  (** [secrets.token_hex(32)], from a fresh number *)
  token_hex : N → string;
  (** [cryptography.fernet]: whether a text is a key; [None] is an [InvalidToken] *)
  fernet_key : string → bool;
  fernet_encrypt : string → string → string;
  fernet_decrypt : string → string → option string;
  (** [json.loads(plaintext.decode("utf-8"))]: [None] is one of its errors *)
  parse_plaintext : string → option json;
  (** [datetime.isoformat()] *)
  isoformat : Z → string;
}.

Section Network.
Context `{Settings} `{Network}.

(** ** Credentials at rest ([integrations/crypto.py])

    [None] is a [CredentialEncryptionError]. *)

(** [_multi_fernet()]: the configured keys, when they all are keys. *)
Definition multi_fernet (keys : list string) : option (list string) :=
  match keys with
  | [] => None
  | _ => if forallb fernet_key keys then Some keys else None
  end.

(** [MultiFernet.encrypt] uses the first key, [MultiFernet.decrypt] tries each in turn. *)
Definition encrypt_with (keys : list string) (data : list (string * json)) : option string :=
  fernets ← multi_fernet keys;
  first ← head fernets;
  Some (fernet_encrypt first (json_dumps (JObj data))).

Fixpoint first_decryption (fernets : list string) (ciphertext : string) : option string :=
  match fernets with
  | [] => None
  | key :: fernets =>
      match fernet_decrypt key ciphertext with
      | Some plaintext => Some plaintext
      | None => first_decryption fernets ciphertext
      end
  end.

Definition decrypt_with (keys : list string) (ciphertext : string)
    : option (list (string * json)) :=
  if String.eqb ciphertext "" then None
  else
    fernets ← multi_fernet keys;
    plaintext ← first_decryption fernets ciphertext;
    match parse_plaintext plaintext with Some (JObj decoded) => Some decoded | _ => None end.

Definition encrypt_credentials : list (string * json) → option string :=
  encrypt_with INTEGRATIONS_CREDENTIAL_ENCRYPTION_KEYS.
Definition decrypt_credentials : string → option (list (string * json)) :=
  decrypt_with INTEGRATIONS_CREDENTIAL_ENCRYPTION_KEYS.

(** ** Destinations ([webhooks/security.py]) *)

Definition WebhookInvalidURLError : exn := WebhookExc "webhook_invalid_url" false.
Definition WebhookDestinationBlockedError : exn := WebhookExc "webhook_destination_blocked" false.
Definition WebhookDnsResolutionError : exn := WebhookExc "webhook_dns_resolution_failed" true.

Record ParsedWebhookURL := {
  pu_scheme : string;
  pu_hostname : string;
  pu_port : Z;
  pu_path_and_query : string;
}.

Definition allowed_schemes : list string :=
  if WEBHOOKS_ALLOW_INSECURE_HTTP then ["http"; "https"] else ["https"].

Definition parse_webhook_url (url : string) : exn + ParsedWebhookURL :=
  if String.eqb url "" || (WEBHOOKS_MAX_URL_LENGTH <? String.length url)%nat
  then inl WebhookInvalidURLError
  else match urlsplit url with
  | None => inl WebhookInvalidURLError
  | Some parts =>
      if negb (str_in (sr_scheme parts) allowed_schemes) then inl WebhookInvalidURLError
      else if negb (String.eqb (sr_fragment parts) "") then inl WebhookInvalidURLError
      else if sr_userinfo parts then inl WebhookInvalidURLError
      else match sr_hostname parts, sr_port parts with
      | Some hostname, Some port =>
          if String.eqb hostname "" then inl WebhookInvalidURLError
          else
            let default_port := if String.eqb (sr_scheme parts) "https" then 443%Z else 80%Z in
            let port := default default_port port in
            if negb ((0 <? port) && (port <=? 65535))%Z then inl WebhookInvalidURLError
            else
              let path := str_or (sr_path parts) "/" in
              inr {| pu_scheme := sr_scheme parts; pu_hostname := str_lower hostname;
                     pu_port := port;
                     pu_path_and_query :=
                       if String.eqb (sr_query parts) "" then path
                       else path +:+ "?" +:+ sr_query parts |}
      | _, _ => inl WebhookInvalidURLError
      end
  end.

Definition resolve_and_validate (hostname : string) (port : Z) (w : World) : exn + string :=
  let normalized := str_lower (str_strip hostname) in
  if str_in normalized ["localhost"; "localhost."] then inl WebhookDestinationBlockedError
  else match getaddrinfo normalized port w with
  | None | Some [] => inl WebhookDnsResolutionError
  | Some ((first, ip) :: results) =>
      match mapM snd ((first, ip) :: results) with
      | None => inl WebhookDnsResolutionError
      | Some addresses =>
          if existsb is_blocked_address addresses then inl WebhookDestinationBlockedError
          else inr first
      end
  end.

(** ** Signing ([webhooks/signing.py]) *)

Definition SIGNATURE_VERSION : string := "v1".
Definition USER_AGENT : string := "SupportPilot-Webhook/1".

Record SignedRequest := {
  raw_body : string;
  headers : list (string * string);
  timestamp : Z;
  signature : string;
}.

Definition canonical_body (envelope : json) : string := json_dumps envelope.

Definition sign (secret : string) (timestamp : Z) (raw_body : string) : string :=
  let signed_payload := pretty timestamp +:+ "." +:+ raw_body in
  SIGNATURE_VERSION +:+ "=" +:+ hmac_sha256 secret signed_payload.

(** [int(time.time())] is the clock in whole seconds. *)
Definition build_signed_request (secret : string) (envelope : json) (event_id delivery_id : string)
    (now : Z) : SignedRequest :=
  let raw_body := canonical_body envelope in
  let signature := sign secret now raw_body in
  {| raw_body := raw_body;
     headers :=
       [("Content-Type", "application/json"); ("User-Agent", USER_AGENT);
        ("X-SupportPilot-Event-Id", event_id); ("X-SupportPilot-Delivery-Id", delivery_id);
        ("X-SupportPilot-Timestamp", pretty now); ("X-SupportPilot-Signature", signature);
        ("Idempotency-Key", delivery_id)];
     timestamp := now; signature := signature |}.

(** ** Transport ([webhooks/transport.py]) *)

Definition MIN_REDIRECT_STATUS : Z := 300.
Definition MAX_REDIRECT_STATUS : Z := 399.

Definition send_pinned_request (rq : http_request) (w : World) : exn + Z :=
  let rq := {| rq with rq_headers :=
    if existsb (λ h, String.eqb h.1 "Host") (rq_headers rq) then rq_headers rq
    else rq_headers rq ++ [("Host", rq_hostname rq)] |} in
  match pool_request rq w with
  | SSLError => inl (WebhookExc "webhook_tls_error" false)
  | NewConnectionError => inl (WebhookExc "webhook_connection_failed" true)
  | ConnectTimeoutError => inl (WebhookExc "webhook_timeout" true)
  | ReadTimeoutError => inl (WebhookExc "webhook_timeout" true)
  | ProtocolError => inl (WebhookExc "webhook_connection_failed" true)
  | HTTPError => inl (WebhookExc "webhook_unexpected_transport_error" false)
  | OtherFailure n => inl (OtherExc n)
  | HttpResponse status_code =>
      if (MIN_REDIRECT_STATUS <=? status_code)%Z && (status_code <=? MAX_REDIRECT_STATUS)%Z
      then inl (WebhookExc "webhook_redirect_rejected" false)
      else inr status_code
  end.

(** ** Classification ([webhooks/classification.py]) *)

Definition RETRYABLE_4XX_STATUS_CODES : list Z := [408; 425; 429]%Z.

Definition classify_http_status (status_code : Z) : bool * string :=
  let safe_error_code := "webhook_http_" +:+ pretty status_code in
  if bool_decide (status_code ∈ RETRYABLE_4XX_STATUS_CODES)
     || ((500 <=? status_code) && (status_code <=? 599))%Z
  then (true, safe_error_code)
  else (false, safe_error_code).

(** ** Theorems *)

(** No request leaves for an address that is not globally routable: when a name
    resolves, every one of its addresses was acceptable and the pinned address
    is the first of them; a name with a single blocked address among public
    ones is refused. *)
Theorem resolve_and_validate_safe hostname port w ip :
  resolve_and_validate hostname port w = inr ip →
  ∃ results, getaddrinfo (str_lower (str_strip hostname)) port w = Some results ∧
    (fst <$> head results) = Some ip ∧
    ∀ raw a, (raw, a) ∈ results → ∃ address, a = Some address ∧
      is_blocked_address address = false.
Proof.
  unfold resolve_and_validate. destruct (str_in _ _); [done|].
  destruct (getaddrinfo _ port w) as [[|[first a0] results]|] eqn:Hg; [done| |done].
  destruct (mapM snd _) as [addresses|] eqn:Hm; [|done].
  destruct (existsb is_blocked_address addresses) eqn:He; [done|]. intros [= <-].
  eexists. split_and!; [done|done|]. intros raw a Hin.
  apply mapM_Some in Hm. apply list_elem_of_lookup in Hin as [i Hi].
  destruct (Forall2_lookup_l _ _ _ _ _ Hm Hi) as (address & Hl & Ha). simpl in Ha.
  exists address. split; [done|]. apply not_true_is_false. intros Hb.
  assert (existsb is_blocked_address addresses = true); [|congruence].
  apply existsb_exists. exists address. split; [|done].
  apply list_elem_of_In. by eapply list_elem_of_lookup_2.
Qed.
(** The ranges a webhook must never reach. *)
Definition internal_networks : list (Z * Z) :=
  [(v4 0 0 0 0, 8); (v4 10 0 0 0, 8); (v4 100 64 0 0, 10); (v4 127 0 0 0, 8);
   (v4 169 254 0 0, 16); (v4 172 16 0 0, 12); (v4 192 0 2 0, 24); (v4 192 168 0 0, 16);
   (v4 198 18 0 0, 15); (v4 198 51 100 0, 24); (v4 203 0 113 0, 24); (v4 224 0 0 0, 4);
   (v4 240 0 0 0, 4)]%Z.

#[local] Ltac in_list := solve [repeat first [left; reflexivity|right]].

Lemma in_host_network base a : in_network 32 (base, 32%Z) a = true → a = base.
Proof. unfold in_network. simpl. by intros ?%Z.eqb_eq. Qed.

Lemma internal_not_exception n a :
  n ∈ internal_networks → in_network 32 n a = true →
  existsb (λ n, in_network 32 n a) ipv4_private_exceptions = false.
Proof.
  intros Hn Ha. apply not_true_is_false. intros (e & He & Hea)%existsb_exists.
  assert (Hall : forallb (λ n, forallb (λ e, negb (in_network 32 n e.1)
                   && (e.2 =? 32)%Z) ipv4_private_exceptions) internal_networks = true)
    by (vm_compute; reflexivity).
  rewrite forallb_forall in Hall. specialize (Hall n (proj1 (list_elem_of_In _ _) Hn)).
  rewrite forallb_forall in Hall. specialize (Hall e He).
  apply andb_true_iff in Hall as [Hne H32%Z.eqb_eq]. destruct e as [base len]. simpl in *.
  subst len. apply in_host_network in Hea as ->. by rewrite Ha in Hne.
Qed.

(** The destination filter refuses every loopback, private, link-local (the
    cloud metadata address among them), shared, benchmarking, documentation,
    multicast and reserved IPv4 address, also when it is written as an
    IPv4-mapped IPv6 address; and IPv6 loopback, unique-local, link-local,
    site-local and multicast addresses. *)
Theorem internal_destinations_blocked :
  (∀ n a, n ∈ internal_networks → in_network 32 n a = true →
     is_blocked_address (IPv4 a) = true ∧
     ∀ m, ipv4_mapped m = Some a → is_blocked_address (IPv6 m) = true) ∧
  (∀ n a, n ∈ [(v6 0 0 0 0 0 1, 128); (v6 64512 0 0 0 0 0, 7); (v6 65152 0 0 0 0 0, 10);
               (v6 65216 0 0 0 0 0, 10); (v6 65280 0 0 0 0 0, 8)]%Z →
     in_network 128 n a = true → ipv4_mapped a = None →
     existsb (λ n, in_network 128 n a) ipv6_private_exceptions = false →
     is_blocked_address (IPv6 a) = true).
Proof.
  split.
  - intros n a Hn Ha.
    assert (Hb : is_blocked_ipv4 a = true).
    { pose proof (internal_not_exception n a Hn Ha) as Hex.
      unfold is_blocked_ipv4, ipv4_is_multicast, ipv4_is_global, ipv4_is_private.
      rewrite Hex, andb_true_r.
      destruct (in_network 32 (v4 224 0 0 0, 4%Z) a) eqn:Hm; [done|].
      destruct (in_network 32 (v4 100 64 0 0, 10%Z) a) eqn:Hs; [done|]. simpl negb at 2.
      rewrite andb_true_l, negb_involutive. apply existsb_exists. exists n. split; [|exact Ha].
      unfold internal_networks in Hn.
      repeat (apply elem_of_cons in Hn as [->|Hn]; [first [congruence|in_list]|]).
      by apply elem_of_nil in Hn. }
    split; [exact Hb|]. intros m Hm. unfold is_blocked_address. rewrite Hm. exact Hb.
  - intros n a Hn Ha Hmap Hex. unfold is_blocked_address. rewrite Hmap.
    unfold ipv6_is_multicast, ipv6_is_private, DEPRECATED_SITE_LOCAL_IPV6. rewrite Hmap, Hex.
    destruct (in_network 128 (v6 65280 0 0 0 0 0, 8%Z) a) eqn:Hm; [done|].
    destruct (in_network 128 (v6 65216 0 0 0 0 0, 10%Z) a) eqn:Hs; [done|].
    rewrite andb_true_r. apply existsb_exists. exists n. split; [|exact Ha].
    repeat (apply elem_of_cons in Hn as [->|Hn]; [first [congruence|in_list]|]).
    by apply elem_of_nil in Hn.
Qed.

End Network.

(** ** A concrete network *)

(** One public host; every request to it is answered with [status]. *)
Definition example_network (status : Z) : Network := {|
  urlsplit url :=
    if String.eqb url "https://hooks.example/x" then
      Some {| sr_scheme := "https"; sr_fragment := ""; sr_userinfo := false;
              sr_hostname := Some "hooks.example"; sr_port := Some None;
              sr_path := "/x"; sr_query := "" |}
    else None;
  getaddrinfo host _ _ :=
    if String.eqb host "hooks.example" then Some [("93.184.216.34", Some (IPv4 (v4 93 184 216 34)))]
    else None;
  pool_request _ _ := HttpResponse status;
  json_dumps v :=
    match v with
    | JObj l => match obj_get "secret" l with Some (JStr s) => s | _ => "{}" end
    | _ => "{}"
    end;
  hmac_sha256 key message := key +:+ message;
  token_hex n := "s" +:+ pretty n;
  fernet_key _ := true;
  fernet_encrypt _ plaintext := plaintext;
  fernet_decrypt _ ciphertext := Some ciphertext;
  parse_plaintext s := Some (JObj [("secret", JStr s)]);
  isoformat _ := "";
|}.

Module NetworkExamples.
#[local] Existing Instance default_settings.
#[local] Instance net : Network := example_network 200.

Lemma resolve_and_validate_safe_witness :
  resolve_and_validate "hooks.example" 443 empty_world = inr "93.184.216.34" ∧
  is_blocked_address (IPv4 (v4 93 184 216 34)) = false.
Proof.
  assert (H0 : resolve_and_validate "hooks.example" 443 empty_world = inr "93.184.216.34")
    by reflexivity.
  split; [exact H0|].
  destruct (resolve_and_validate_safe "hooks.example" 443 empty_world "93.184.216.34" H0)
    as (results & Hr & _ & Hall).
  injection Hr as <-. destruct (Hall "93.184.216.34" (Some (IPv4 (v4 93 184 216 34))))
    as (a & Ha & Hb); [left|]. injection Ha as <-. exact Hb.
Defined.

Example metadata_blocked :
  is_blocked_address (IPv4 (v4 169 254 169 254)) = true ∧
  is_blocked_address (IPv6 (Z.shiftl 65535 32 + v4 169 254 169 254)) = true ∧
  is_blocked_address (IPv4 (v4 8 8 8 8)) = false.
Proof. vm_compute. auto. Qed.
End NetworkExamples.
