(* ===== verification/Schemas.v ===== *)
(** * Typed documents

    The pydantic models of the back end: a model is a list of fields, each with its
    default and its check; validating a document yields the dump of the instance in
    JSON mode.  What pydantic and Django's validators do with a single value (lax
    coercion of numbers and instants, the grammar of addresses) is a parameter.
    [integrations/schemas.py] follows. *)

From stdpp Require Import base strings list countable pretty.
From Stdlib Require Import ZArith String Ascii SpecFloat Lia.
From S2P Require Import Prelude Json Domain Policy Models.

(** A [datetime]: an instant in microseconds with its offset, or a local time. *)
Record moment := { mo_micros : Z; mo_offset : option Z }.

(** [value.tzinfo is not None]. *)
Definition aware (m : moment) : bool := match mo_offset m with Some _ => true | None => false end.
Definition utc (t : Z) : moment := {| mo_micros := t; mo_offset := Some 0%Z |}.

Class Pydantic := {
  pydantic_int : json → option Z;
  pydantic_bool : json → option bool;
  pydantic_float : json → option spec_float;
  pydantic_datetime : json → option moment;
  (** [datetime.isoformat()], which a dump in JSON mode writes *)
  dump_datetime : moment → string;
  (** [django.core.validators.validate_email] *)
  validate_email : string → bool;
  (** [Model.model_json_schema()], by the name of the class *)
  model_json_schema : string → json;
}.

(** A value of the type itself is left as it is, and an instant that was written
    reads back. *)
Class PydanticLaws `{Pydantic} : Prop := {
  pydantic_int_int z : pydantic_int (JInt z) = Some z;
  pydantic_bool_bool b : pydantic_bool (JBool b) = Some b;
  pydantic_datetime_dump m : pydantic_datetime (JStr (dump_datetime m)) = Some m;
}.

(** ** Models *)

Record field := {
  f_name : string;
  f_default : option json;
  f_check : json → option json;
}.

(** A default is not validated. *)
Definition check_field (data : list (string * json)) (f : field) : option json :=
  match obj_get (f_name f) data with Some v => f_check f v | None => f_default f end.

Fixpoint check_fields (fields : list field) (data : list (string * json))
    : option (list (string * json)) :=
  match fields with
  | [] => Some []
  | f :: fields =>
      v ← check_field data f;
      rest ← check_fields fields data;
      Some ((f_name f, v) :: rest)
  end.

(** [Model.model_validate(v).model_dump(mode="json")] with [extra="forbid"]. *)
Definition validate_model (fields : list field) (v : json) : option (list (string * json)) :=
  match v with
  | JObj data =>
      if forallb (λ kv, str_in kv.1 (map f_name fields)) data then check_fields fields data
      else None
  | _ => None
  end.

(** The same with a [model_validator(mode="after")]. *)
Definition validate_with (fields : list field) (valid : list (string * json) → bool) (v : json)
    : option (list (string * json)) :=
  data ← validate_model fields v;
  if valid data then Some data else None.

Section Checks.
Context `{Pydantic}.

Definition check_str (min_length max_length : nat) (v : json) : option json :=
  match v with
  | JStr s =>
      if (min_length <=? String.length s)%nat && (String.length s <=? max_length)%nat
      then Some v else None
  | _ => None
  end.

(** [str] without a constraint. *)
Definition check_text (v : json) : option json :=
  match v with JStr _ => Some v | _ => None end.

Definition check_optional (check : json → option json) (v : json) : option json :=
  match v with JNull => Some JNull | _ => check v end.

Definition check_choice (values : list string) (v : json) : option json :=
  match v with JStr s => if str_in s values then Some v else None | _ => None end.

Definition check_email (v : json) : option json :=
  match v with JStr s => if validate_email s then Some v else None | _ => None end.

Definition check_int (low high : option Z) (v : json) : option json :=
  z ← pydantic_int v;
  if match low with Some l => (l <=? z)%Z | None => true end
     && match high with Some h => (z <=? h)%Z | None => true end
  then Some (JInt z) else None.

Definition check_bool (v : json) : option json := JBool <$> pydantic_bool v.

Definition check_datetime (v : json) : option json :=
  (JStr ∘ dump_datetime) <$> pydantic_datetime v.

(** [dict[str, Any]] and [dict[str, dict[str, Any]]]. *)
Definition check_dict (v : json) : option json :=
  match v with JObj _ => Some v | _ => None end.
Definition check_dict_of_dicts (v : json) : option json :=
  match v with
  | JObj l => if forallb (λ kv, match kv.2 with JObj _ => true | _ => false end) l
              then Some v else None
  | _ => None
  end.

Definition required (name : string) (check : json → option json) : field :=
  {| f_name := name; f_default := None; f_check := check |}.
Definition optional (name : string) (def : json) (check : json → option json) : field :=
  {| f_name := name; f_default := Some def; f_check := check |}.
End Checks.

(** ** Validating a dump gives the dump *)

Definition stable_check (check : json → option json) : Prop :=
  ∀ v v', check v = Some v' → check v' = Some v'.

Record stable_field (f : field) : Prop := {
  stable_value : stable_check (f_check f);
  stable_default d : f_default f = Some d → f_check f d = Some d;
}.

Lemma check_fields_names fields data d :
  check_fields fields data = Some d → map fst d = map f_name fields.
Proof.
  revert d. induction fields as [|f fields IH]; intros d; simpl; [by intros [= <-]|].
  destruct (check_field data f); simpl; [|done].
  destruct (check_fields fields data) as [l|]; simpl; [|done]. intros [= <-]. simpl.
  by rewrite (IH l).
Qed.

Lemma obj_get_app k a b :
  k ∉ map fst a → obj_get k (a ++ b) = obj_get k b.
Proof.
  induction a as [|[k' v] a IH]; [done|]. intros [Hk Ha]%not_elem_of_cons. simpl in *.
  destruct (String.eqb_spec k' k) as [->|_]; [done|by apply IH].
Qed.

Lemma check_fields_stable fields data d prefix :
  Forall stable_field fields → NoDup (map fst prefix ++ map f_name fields) →
  check_fields fields data = Some d →
  check_fields fields (prefix ++ d) = Some d.
Proof.
  revert d prefix. induction fields as [|f fields IH]; intros d prefix Hf Hn; simpl;
    [by intros [= <-]|].
  inversion Hf as [|? ? [Hval Hdef] Hfs]; subst.
  destruct (check_field data f) as [v|] eqn:Hv; simpl; [|done].
  destruct (check_fields fields data) as [l|] eqn:Hl; simpl; [|done]. intros [= <-]. simpl.
  assert (Hnot : f_name f ∉ map fst prefix).
  { apply NoDup_app in Hn as (_ & Hd & _). intros Hin. apply (Hd _ Hin). left. }
  assert (check_field (prefix ++ (f_name f, v) :: l) f = Some v) as ->.
  { unfold check_field. rewrite obj_get_app by done. simpl. rewrite String.eqb_refl.
    revert Hv. unfold check_field. destruct (obj_get (f_name f) data); [by apply Hval|by apply Hdef]. }
  simpl. specialize (IH l (prefix ++ [(f_name f, v)])). rewrite <-(assoc_L (++)) in IH. simpl in IH.
  rewrite IH; [done|done| |done]. rewrite map_app, <-(assoc_L (++)). exact Hn.
Qed.

Lemma validate_model_stable fields v d :
  Forall stable_field fields → NoDup (map f_name fields) →
  validate_model fields v = Some d → validate_model fields (JObj d) = Some d.
Proof.
  intros Hf Hn. unfold validate_model. destruct v as [| | | | | |data]; try done.
  destruct (forallb _ data); [|done]. intros Hd.
  assert (forallb (λ kv, str_in kv.1 (map f_name fields)) d = true) as ->.
  { apply forallb_forall. intros kv Hkv%list_elem_of_In. apply str_in_true.
    rewrite <-(check_fields_names fields data d) by done.
    apply list_elem_of_fmap. by exists kv. }
  by apply (check_fields_stable fields data d []).
Qed.

Lemma validate_with_stable fields valid v d :
  Forall stable_field fields → NoDup (map f_name fields) →
  validate_with fields valid v = Some d → validate_with fields valid (JObj d) = Some d.
Proof.
  intros Hf Hn. unfold validate_with. intros (d' & Hv & Hd)%bind_Some.
  destruct (valid d') eqn:Hd'; [|done]. injection Hd as ->.
  rewrite (validate_model_stable fields v d Hf Hn Hv). cbn. by rewrite Hd'.
Qed.

Create HintDb schemas discriminated.

Section StableChecks.
Context `{PydanticLaws}.

Lemma check_str_stable low high : stable_check (check_str low high).
Proof.
  intros [| | | |s| |] v'; try done. simpl. destruct (_ && _) eqn:Hs; [|done].
  intros [= <-]. simpl. by rewrite Hs.
Qed.
Lemma check_text_stable : stable_check check_text.
Proof. intros [| | | |s| |] v'; try done. by intros [= <-]. Qed.
Lemma check_optional_stable check : stable_check check → stable_check (check_optional check).
Proof.
  intros Hc v v'. destruct v; simpl; try (intros [= <-]; done); intros Hv;
    destruct v'; simpl; try done; by eapply Hc.
Qed.
Lemma check_choice_stable values : stable_check (check_choice values).
Proof.
  intros [| | | |s| |] v'; try done. simpl. destruct (str_in s values) eqn:Hs; [|done].
  intros [= <-]. simpl. by rewrite Hs.
Qed.
Lemma check_email_stable : stable_check check_email.
Proof.
  intros [| | | |s| |] v'; try done. simpl. destruct (validate_email s) eqn:Hs; [|done].
  intros [= <-]. simpl. by rewrite Hs.
Qed.
Lemma check_int_stable low high : stable_check (check_int low high).
Proof.
  intros v v'. unfold check_int. intros (z & Hz & Hv)%bind_Some. destruct (_ && _) eqn:Hb; [|done].
  injection Hv as <-. rewrite pydantic_int_int. simpl. by rewrite Hb.
Qed.
Lemma check_bool_stable : stable_check check_bool.
Proof.
  intros v v' (b & Hb & ->)%fmap_Some. unfold check_bool. by rewrite pydantic_bool_bool.
Qed.
Lemma check_datetime_stable : stable_check check_datetime.
Proof.
  intros v v' (m & Hm & ->)%fmap_Some. unfold check_datetime. simpl.
  by rewrite pydantic_datetime_dump.
Qed.
Lemma check_dict_stable : stable_check check_dict.
Proof. intros v v'. destruct v; try done. by intros [= <-]. Qed.
Lemma check_dict_of_dicts_stable : stable_check check_dict_of_dicts.
Proof.
  intros v v'. destruct v as [| | | | | |l]; try done. simpl. destruct (forallb _ l) eqn:Hl; [|done].
  intros [= <-]. simpl. by rewrite Hl.
Qed.

Lemma required_stable name check : stable_check check → stable_field (required name check).
Proof. intros Hc. by split. Qed.
Lemma optional_stable name def check :
  stable_check check → check def = Some def → stable_field (optional name def check).
Proof. intros Hc Hd. split; [done|]. by intros d [= <-]. Qed.
End StableChecks.

#[export] Hint Resolve check_str_stable check_text_stable check_optional_stable
  check_choice_stable check_email_stable check_int_stable check_bool_stable
  check_datetime_stable check_dict_stable check_dict_of_dicts_stable required_stable : schemas.

(** Closes [Forall stable_field fields] for fields built with the combinators. *)
Ltac stable_fields :=
  repeat apply Forall_cons_2; [..|apply Forall_nil_2];
  (apply required_stable || (apply optional_stable; [|reflexivity])); auto 4 with schemas.

(** ** Credentials and configurations ([integrations/schemas.py]) *)

Section ConnectionSchemas.
Context `{PyLib} `{Pydantic}.

(** [schema_version: int = 1]. *)
Definition schema_version : field := optional "schema_version" (JInt 1) (check_int None None).

Definition CREDENTIAL_SCHEMAS (provider : IntegrationProvider.t) : list field :=
  match provider with
  | IntegrationProvider.STRIPE =>
      [schema_version; required "secret_key" (check_str 8 500)]
  | IntegrationProvider.GOOGLE_CALENDAR =>
      [schema_version; required "service_account_info" check_dict]
  | IntegrationProvider.EMAIL =>
      [schema_version; required "host" (check_str 1 255);
       optional "port" (JInt 587) (check_int (Some 1%Z) (Some 65535%Z));
       required "username" (check_str 1 255); required "password" (check_str 1 500);
       optional "use_tls" (JBool true) check_bool]
  | IntegrationProvider.DEMO_COMMERCE => [schema_version]
  end.

Definition CONFIGURATION_SCHEMAS (provider : IntegrationProvider.t) : list field :=
  match provider with
  | IntegrationProvider.STRIPE => []
  | IntegrationProvider.GOOGLE_CALENDAR =>
      [optional "calendar_id" (JStr "primary") (check_str 0 255)]
  | IntegrationProvider.EMAIL => [required "from_email" check_email]
  | IntegrationProvider.DEMO_COMMERCE =>
      [optional "orders" (JObj []) check_dict_of_dicts;
       optional "shipments" (JObj []) check_dict_of_dicts]
  end.

Definition configuration_error (message : string) : exn :=
  IntegrationExc IntegrationErr.Configuration message.

Definition validate_credentials (provider : string) (data : json)
    : exn + list (string * json) :=
  match IntegrationProvider.of_value provider with
  | None => inl (configuration_error ("No credential schema for provider " +:+ py_repr (JStr provider) +:+ "."))
  | Some p =>
      match validate_model (CREDENTIAL_SCHEMAS p) data with
      | None => inl (configuration_error "Credentials failed validation.")
      | Some validated => inr validated
      end
  end.

Definition validate_configuration (provider : string) (data : json)
    : exn + list (string * json) :=
  match IntegrationProvider.of_value provider with
  | None => inl (configuration_error ("No configuration schema for provider " +:+ py_repr (JStr provider) +:+ "."))
  | Some p =>
      (* [data or {}] *)
      match validate_model (CONFIGURATION_SCHEMAS p) (if falsy data then JObj [] else data) with
      | None => inl (configuration_error "Configuration failed validation.")
      | Some validated => inr validated
      end
  end.
End ConnectionSchemas.

(** ** A concrete library *)

(** Values of the type itself only; an instant is written as the number of its pair. *)
Definition example_dump (m : moment) : string := pretty (Npos (encode (mo_micros m, mo_offset m))).
Definition example_instant (s : string) : option moment :=
  match read_key s with
  | Some (Npos p) => (λ x, {| mo_micros := x.1; mo_offset := x.2 |}) <$> decode p
  | _ => None
  end.
Definition example_pydantic : Pydantic := {|
  pydantic_int v := match v with JInt z => Some z | _ => None end;
  pydantic_bool v := match v with JBool b => Some b | _ => None end;
  pydantic_float v := match v with JInt z => float_of_Z z | JFloat f => Some f | _ => None end;
  pydantic_datetime v := match v with JStr s => example_instant s | _ => None end;
  dump_datetime := example_dump;
  validate_email s := str_contains "@" s;
  model_json_schema _ := JObj [] |}.

Lemma example_pydantic_laws : @PydanticLaws example_pydantic.
Proof.
  split; [done|done|]. intros [t o]. cbn. unfold example_instant, example_dump.
  rewrite read_pretty, decode_encode. done.
Qed.
