(* ===== verification/Adapters.v ===== *)
(** * Provider adapters

    [integrations/providers/] and [integrations/security.py]: the operations a
    business tool asks of a provider, and the adapters that carry them out: the
    deterministic fakes, the demonstration catalog, Stripe, Google Calendar and SMTP.
    A fake is a state machine over its own attributes; what the vendors' libraries do
    with a request is a parameter. *)

From stdpp Require Import base gmap strings list pretty.
From Stdlib Require Import ZArith String SpecFloat Lia.
From S2P Require Import Prelude Json Domain Policy Models Store PolicyAdmin Network Schemas.

(** ** Results ([providers/base.py]) *)

Record NormalizedPayment := {
  np_payment_id : string;
  np_external_payment_id : string;
  np_status : string;
  np_amount_minor : Z;
  np_currency : string;
  np_created_at : moment;
  np_refunded_amount_minor : Z;
  np_provider_request_id : option string;
}.

Record NormalizedRefund := {
  nr_refund_id : string;
  nr_payment_id : string;
  nr_status : string;
  nr_amount_minor : Z;
  nr_currency : string;
  nr_created_at : moment;
  nr_provider_request_id : option string;
}.

Record AvailabilitySlot := { slot_start : moment; slot_end : moment }.

Record NormalizedBooking := {
  nb_booking_id : string;
  nb_external_event_id : string;
  nb_start : moment;
  nb_end : moment;
  nb_status : string;
  nb_provider_request_id : option string;
}.

Record NormalizedNotification := {
  nn_message_id : string;
  nn_status : string;
  nn_provider_request_id : option string;
}.

(** The columns a catalog supplies as they are stand here as documents. *)
Record NormalizedOrder := {
  no_order_id : string;
  no_external_order_id : string;
  no_status : json;
  no_created_at : moment;
  no_amount_minor : Z;
  no_currency : string;
  no_shipment_status : json;
  no_tracking_reference : json;
}.

Record NormalizedShipment := {
  ns_shipment_id : string;
  ns_order_id : json;
  ns_status : json;
  ns_tracking_reference : json;
  ns_carrier : json;
  ns_estimated_delivery : option moment;
}.

(** ** Protocols *)

Abbreviation document := (list (string * json)).

Record PaymentProvider := {
  pp_probe : document → spec_float → service ();
  get_payment : document → string → spec_float → service NormalizedPayment;
  (** reference, amount, currency, reason, idempotency key *)
  refund_payment : document → string → Z → string → string → string → spec_float →
    service NormalizedRefund;
}.

Record CalendarProvider := {
  cp_probe : document → spec_float → service ();
  get_availability : document → document → moment → moment → spec_float →
    service (list AvailabilitySlot);
  (** start, end, title, attendee, idempotency key *)
  create_booking : document → document → moment → moment → string → option string → string →
    spec_float → service NormalizedBooking;
}.

Record NotificationProvider := {
  ntp_probe : document → spec_float → service ();
  (** recipient, subject, body, idempotency key *)
  send : document → document → string → string → string → string → spec_float →
    service NormalizedNotification;
}.

Record OrderProvider := {
  op_probe : document → spec_float → service ();
  get_order : document → document → string → spec_float → service NormalizedOrder;
  get_shipment : document → document → string → spec_float → service NormalizedShipment;
}.

(** [SomeIntegrationError()] and [SomeIntegrationError(message)]. *)
Definition integration_error (cls : IntegrationErr.t) : exn :=
  IntegrationExc cls (IntegrationErr.safe_message cls).
Definition integration_error_with (cls : IntegrationErr.t) (message : string) : exn :=
  IntegrationExc cls (str_or message (IntegrationErr.safe_message cls)).

(** ** Destinations of a raw connection ([security.py]) *)

Section Security.
Context `{Network}.

Definition blocked_destination : exn :=
  integration_error_with IntegrationErr.InvalidRequest "This destination is not allowed.".
Definition unresolved_destination : exn :=
  integration_error_with IntegrationErr.InvalidRequest "This destination could not be resolved.".

Definition validate_outbound_host (hostname : option string) (port : Z) (w : World) : exn + string :=
  match hostname with
  | None => inl (integration_error_with IntegrationErr.InvalidRequest
                   "No destination host is configured.")
  | Some hostname =>
      let normalized := str_lower (str_strip hostname) in
      if String.eqb (str_strip hostname) "" then
        inl (integration_error_with IntegrationErr.InvalidRequest
               "No destination host is configured.")
      else if str_in normalized ["localhost"; "localhost."] then inl blocked_destination
      else
        match getaddrinfo normalized port w with
        | None | Some [] => inl unresolved_destination
        | Some ((first, ip) :: results) =>
            match mapM snd ((first, ip) :: results) with
            | None => inl unresolved_destination
            | Some addresses =>
                if existsb is_blocked_address addresses then inl blocked_destination
                else inr first
            end
        end
  end.
End Security.

(** ** Fakes ([providers/fakes.py])

    An operation of a fake is a computation over its attributes. *)

Module FakePayment.
Record t := {
  payments : gmap string NormalizedPayment;
  get_payment_errors : list exn;
  (** each with whether the refund was committed before the error *)
  refund_errors : list (exn * bool);
  probe_error : option exn;
  get_payment_call_count : N;
  refund_call_count : N;
  refunds_by_key : gmap string NormalizedRefund;
}.

Definition empty : t := {|
  payments := ∅; get_payment_errors := []; refund_errors := []; probe_error := None;
  get_payment_call_count := 0; refund_call_count := 0; refunds_by_key := ∅ |}.

Definition probe : M t exn () :=
  error ← gets probe_error;
  match error with Some e => raise e | None => mret () end.

Definition get_payment (payment_reference : string) : M t exn NormalizedPayment :=
  modify (λ s, {| s with get_payment_call_count := (get_payment_call_count s + 1)%N |});;
  errors ← gets get_payment_errors;
  match errors with
  | e :: rest => modify (λ s, {| s with get_payment_errors := rest |});; raise e
  | [] =>
      payment ← gets (λ s, payments s !! payment_reference);
      or_raise payment (integration_error IntegrationErr.PaymentNotFound)
  end.

Definition refunded (amount_minor : Z) (p : NormalizedPayment) : NormalizedPayment :=
  let new_refunded := (np_refunded_amount_minor p + amount_minor)%Z in
  {| p with np_refunded_amount_minor := new_refunded;
            np_status := if (np_amount_minor p <=? new_refunded)%Z then "refunded"
                         else "partially_refunded" |}.

Definition commit_refund (now : Z) (idempotency_key payment_reference : string)
    (amount_minor : Z) (currency : string) : M t exn NormalizedRefund :=
  payment ← gets (λ s, payments s !! payment_reference);
  payment ← or_raise payment KeyError;
  let refund := {|
    nr_refund_id := "re_fake_" +:+ idempotency_key; nr_payment_id := np_payment_id payment;
    nr_status := "succeeded"; nr_amount_minor := amount_minor; nr_currency := currency;
    nr_created_at := utc now;
    nr_provider_request_id := Some ("req_fake_" +:+ idempotency_key) |} in
  modify (λ s, {| s with refunds_by_key := <[idempotency_key := refund]> (refunds_by_key s) |});;
  modify (λ s, {| s with
    payments := <[payment_reference := refunded amount_minor payment]> (payments s) |});;
  mret refund.

Definition refund_payment (now : Z) (payment_reference : string) (amount_minor : Z)
    (currency idempotency_key : string) : M t exn NormalizedRefund :=
  let commit := commit_refund now idempotency_key payment_reference amount_minor currency in
  existing ← gets (λ s, refunds_by_key s !! idempotency_key);
  match existing with
  | Some existing => mret existing
  | None =>
      modify (λ s, {| s with refund_call_count := (refund_call_count s + 1)%N |});;
      errors ← gets refund_errors;
      match errors with
      | (e, committed_before_raising) :: rest =>
          modify (λ s, {| s with refund_errors := rest |});;
          (if committed_before_raising : bool then commit;; mret () else mret ());;
          raise e
      | [] =>
          payment ← gets (λ s, payments s !! payment_reference);
          payment ← or_raise payment (integration_error IntegrationErr.PaymentNotFound);
          raise_if (np_amount_minor payment - np_refunded_amount_minor payment <? amount_minor)%Z
            (integration_error_with IntegrationErr.RefundNotAllowedByProvider
               "Refund amount exceeds refundable balance.");;
          commit
      end
  end.
End FakePayment.

Module FakeCalendar.
Record t := {
  busy_slots : list AvailabilitySlot;
  availability_errors : list exn;
  booking_errors : list (exn * bool);
  get_availability_call_count : N;
  create_booking_call_count : N;
  bookings_by_key : gmap string NormalizedBooking;
}.

Definition empty : t := {|
  busy_slots := []; availability_errors := []; booking_errors := [];
  get_availability_call_count := 0; create_booking_call_count := 0; bookings_by_key := ∅ |}.

(** [slot.start < end and slot.end > start]; the instants are timezone-aware. *)
Definition overlaps (first last : moment) (slot : AvailabilitySlot) : bool :=
  ((mo_micros (slot_start slot) <? mo_micros last)
   && (mo_micros first <? mo_micros (slot_end slot)))%Z.

Definition get_availability (window_start window_end : moment)
    : M t exn (list AvailabilitySlot) :=
  modify (λ s, {| s with get_availability_call_count := (get_availability_call_count s + 1)%N |});;
  errors ← gets availability_errors;
  match errors with
  | e :: rest => modify (λ s, {| s with availability_errors := rest |});; raise e
  | [] =>
      busy ← gets busy_slots;
      if existsb (overlaps window_start window_end) busy then mret []
      else mret [{| slot_start := window_start; slot_end := window_end |}]
  end.

Definition commit_booking (idempotency_key : string) (first last : moment)
    : M t exn NormalizedBooking :=
  let booking := {|
    nb_booking_id := "bk_fake_" +:+ idempotency_key;
    nb_external_event_id := "evt_fake_" +:+ idempotency_key;
    nb_start := first; nb_end := last; nb_status := "confirmed";
    nb_provider_request_id := Some ("req_fake_" +:+ idempotency_key) |} in
  modify (λ s, {| s with
    bookings_by_key := <[idempotency_key := booking]> (bookings_by_key s);
    busy_slots := busy_slots s ++ [{| slot_start := first; slot_end := last |}] |});;
  mret booking.

Definition create_booking (first last : moment) (idempotency_key : string)
    : M t exn NormalizedBooking :=
  existing ← gets (λ s, bookings_by_key s !! idempotency_key);
  match existing with
  | Some existing => mret existing
  | None =>
      modify (λ s, {| s with create_booking_call_count := (create_booking_call_count s + 1)%N |});;
      errors ← gets booking_errors;
      match errors with
      | (e, committed_before_raising) :: rest =>
          modify (λ s, {| s with booking_errors := rest |});;
          (if committed_before_raising : bool
           then commit_booking idempotency_key first last;; mret () else mret ());;
          raise e
      | [] =>
          busy ← gets busy_slots;
          raise_if (existsb (overlaps first last) busy)
            (integration_error IntegrationErr.CalendarSlotUnavailable);;
          commit_booking idempotency_key first last
      end
  end.
End FakeCalendar.

Module FakeNotification.
Record t := {
  send_errors : list (exn * bool);
  send_call_count : N;
  sent_by_key : gmap string NormalizedNotification;
  (** recipient, subject and body *)
  outbox : list (string * string * string);
}.

Definition empty : t :=
  {| send_errors := []; send_call_count := 0; sent_by_key := ∅; outbox := [] |}.

Definition commit_send (idempotency_key recipient_email subject body : string)
    : M t exn NormalizedNotification :=
  let message := {| nn_message_id := "msg_fake_" +:+ idempotency_key; nn_status := "sent";
                    nn_provider_request_id := Some ("req_fake_" +:+ idempotency_key) |} in
  modify (λ s, {| s with
    sent_by_key := <[idempotency_key := message]> (sent_by_key s);
    outbox := outbox s ++ [(recipient_email, subject, body)] |});;
  mret message.

Definition send (recipient_email subject body idempotency_key : string)
    : M t exn NormalizedNotification :=
  let commit := commit_send idempotency_key recipient_email subject body in
  existing ← gets (λ s, sent_by_key s !! idempotency_key);
  match existing with
  | Some existing => mret existing
  | None =>
      modify (λ s, {| s with send_call_count := (send_call_count s + 1)%N |});;
      errors ← gets send_errors;
      match errors with
      | (e, committed_before_raising) :: rest =>
          modify (λ s, {| s with send_errors := rest |});;
          (if committed_before_raising : bool then commit;; mret () else mret ());;
          raise e
      | [] => commit
      end
  end.
End FakeNotification.

Module FakeOrder.
Record t := {
  orders : gmap string NormalizedOrder;
  shipments : gmap string NormalizedShipment;
  order_errors : list exn;
  shipment_errors : list exn;
  get_order_call_count : N;
  get_shipment_call_count : N;
}.

Definition get_order (order_reference : string) : M t exn NormalizedOrder :=
  modify (λ s, {| s with get_order_call_count := (get_order_call_count s + 1)%N |});;
  errors ← gets order_errors;
  match errors with
  | e :: rest => modify (λ s, {| s with order_errors := rest |});; raise e
  | [] =>
      order ← gets (λ s, orders s !! order_reference);
      or_raise order (integration_error IntegrationErr.OrderNotFound)
  end.

Definition get_shipment (shipment_reference : string) : M t exn NormalizedShipment :=
  modify (λ s, {| s with get_shipment_call_count := (get_shipment_call_count s + 1)%N |});;
  errors ← gets shipment_errors;
  match errors with
  | e :: rest => modify (λ s, {| s with shipment_errors := rest |});; raise e
  | [] =>
      shipment ← gets (λ s, shipments s !! shipment_reference);
      or_raise shipment (integration_error IntegrationErr.ShipmentNotFound)
  end.
End FakeOrder.

(** A call on a fake that was constructed for it, whose attributes nobody reads
    afterwards. *)
Definition on_fresh {S A} (s : S) (m : M S exn A) : service A := of_sum (m s).1.

Definition fake_payment_provider : PaymentProvider := {|
  pp_probe _ _ := on_fresh FakePayment.empty FakePayment.probe;
  get_payment _ payment_reference _ :=
    on_fresh FakePayment.empty (FakePayment.get_payment payment_reference);
  refund_payment _ payment_reference amount_minor currency _ idempotency_key _ :=
    now ← get_now;
    on_fresh FakePayment.empty
      (FakePayment.refund_payment now payment_reference amount_minor currency idempotency_key) |}.

Definition fake_calendar_provider : CalendarProvider := {|
  cp_probe _ _ := mret ();
  get_availability _ _ window_start window_end _ :=
    on_fresh FakeCalendar.empty (FakeCalendar.get_availability window_start window_end);
  create_booking _ _ first last _ _ idempotency_key _ :=
    on_fresh FakeCalendar.empty (FakeCalendar.create_booking first last idempotency_key) |}.

Definition fake_notification_provider : NotificationProvider := {|
  ntp_probe _ _ := mret ();
  send _ _ recipient_email subject body idempotency_key _ :=
    on_fresh FakeNotification.empty
      (FakeNotification.send recipient_email subject body idempotency_key) |}.

(** ** What the vendors' libraries answer *)

(** The classes of [stripe.StripeError] the adapter tells apart, and any other
    exception. *)
Inductive stripe_result (A : Type) :=
  | StripeOk (a : A)
  | StripeAuthenticationError | StripePermissionError | StripeRateLimitError
  | StripeAPIConnectionError
  | StripeInvalidRequestError (code : option string)
  | StripeAPIError | OtherStripeError | StripeCrash.
Arguments StripeOk {A} _.
Arguments StripeAuthenticationError {A}.
Arguments StripePermissionError {A}.
Arguments StripeRateLimitError {A}.
Arguments StripeAPIConnectionError {A}.
Arguments StripeInvalidRequestError {A} _.
Arguments StripeAPIError {A}.
Arguments OtherStripeError {A}.
Arguments StripeCrash {A}.

Record PaymentIntent := {
  pi_id : string; pi_status : string; pi_amount : Z; pi_currency : string; pi_created : Z }.
Record StripeRefund := {
  rf_id : string; rf_payment_intent : option string; rf_status : option string; rf_amount : Z;
  rf_currency : option string; rf_created : Z }.

Inductive google_result (A : Type) :=
  | GoogleOk (a : A)
  | GoogleHttpError (status : option Z)
  | GoogleOSError
  | GoogleCrash.
Arguments GoogleOk {A} _.
Arguments GoogleHttpError {A} _.
Arguments GoogleOSError {A}.
Arguments GoogleCrash {A}.

(** [SmtpOSError]: an [SMTPException] or an [OSError] that is none of the others. *)
Inductive smtp_outcome :=
  | SmtpOk | SMTPAuthenticationError | SMTPRecipientsRefused | BadHeaderError | SmtpTimeoutError
  | SmtpOSError.

(** The socket is connected to [sm_ip]; TLS verifies [sm_host]. *)
Record smtp_connection := {
  sm_ip : string;
  sm_host : string;
  sm_port : Z;
  sm_username : json;
  sm_password : json;
  sm_use_tls : bool;
  sm_timeout : spec_float;
}.

Record email_message := {
  em_subject : string; em_body : string; em_from : json; em_to : string;
  em_message_id : string; em_idempotency_key : string }.

Class Vendors := {
  (** secret key, time limit, and the request *)
  stripe_balance_retrieve : string → spec_float → World → stripe_result ();
  stripe_payment_intents_retrieve : string → spec_float → string → World →
    stripe_result PaymentIntent;
  stripe_refunds_create : string → spec_float → document → string → World →
    stripe_result StripeRefund;
  (** service account, time limit, and the request *)
  google_calendar_list : json → spec_float → World → google_result ();
  google_freebusy_query : json → spec_float → document → World → google_result json;
  (** the id of the new event, when the answer has one *)
  google_events_insert : json → spec_float → json → document → World →
    google_result (option string);
  smtp_open : smtp_connection → World → smtp_outcome;
  smtp_send : smtp_connection → email_message → World → smtp_outcome;
  make_msgid : N → string;
  (** [int(v)] of a document's value *)
  int_of_value : json → exn + Z;
  (** [datetime.fromisoformat], with the offset *)
  moment_of_isoformat : string → option moment;
}.

Section Live.
Context `{Settings} `{PyLib} `{Network} `{Pydantic} `{Vendors}.

(** ** Stripe ([providers/stripe_provider.py]) *)

Definition STRIPE_REFUND_REASONS : list string :=
  ["duplicate"; "fraudulent"; "requested_by_customer"].

Definition stripe_map_error {A} (r : stripe_result A) : exn :=
  match r with
  | StripeAuthenticationError => integration_error IntegrationErr.AuthenticationFailed
  | StripePermissionError => integration_error IntegrationErr.PermissionDenied
  | StripeRateLimitError => integration_error IntegrationErr.RateLimited
  | StripeAPIConnectionError => integration_error IntegrationErr.Timeout
  | StripeInvalidRequestError code =>
      if bool_decide (code = Some "resource_missing") then
        integration_error IntegrationErr.PaymentNotFound
      else integration_error IntegrationErr.InvalidRequest
  | StripeAPIError | OtherStripeError => integration_error IntegrationErr.TemporarilyUnavailable
  | StripeOk _ | StripeCrash => integration_error IntegrationErr.MalformedResponse
  end.

Definition of_stripe {A} (r : stripe_result A) : exn + A :=
  match r with StripeOk a => inr a | r => inl (stripe_map_error r) end.

(** The bounds are those of [datetime] and of a 64-bit [time_t]. *)
Definition epoch_to_datetime (value : Z) : exn + moment :=
  if ((-62135596800 <=? value) && (value <=? 253402300799))%Z then inr (utc (seconds value))
  else if ((- 2 ^ 63 <=? value) && (value <? 2 ^ 63))%Z then
    inl (integration_error_with IntegrationErr.MalformedResponse
           "Stripe returned an invalid timestamp.")
  else inl OverflowError.

(** [str(credentials.get("secret_key") or "")]. *)
Definition secret_key (credentials : document) : string :=
  match obj_get "secret_key" credentials with
  | Some (JStr s) => s
  | Some v => if falsy v then "" else py_str v
  | None => ""
  end.

Definition normalize_payment (intent : PaymentIntent) : exn + NormalizedPayment :=
  match epoch_to_datetime (pi_created intent) with
  | inl e => inl e
  | inr created_at => inr {|
      np_payment_id := pi_id intent; np_external_payment_id := pi_id intent;
      np_status := pi_status intent; np_amount_minor := pi_amount intent;
      np_currency := str_upper (pi_currency intent); np_created_at := created_at;
      np_refunded_amount_minor := 0; np_provider_request_id := Some (pi_id intent) |}
  end.

Definition refund_params (payment_reference : string) (amount_minor : Z) (reason : string)
    : document :=
  [("payment_intent", JStr payment_reference); ("amount", JInt amount_minor)]
  ++ (if str_in reason STRIPE_REFUND_REASONS then [("reason", JStr reason)] else []).

Definition normalize_refund (currency : string) (refund : StripeRefund)
    : exn + NormalizedRefund :=
  match epoch_to_datetime (rf_created refund) with
  | inl e => inl e
  | inr created_at => inr {|
      nr_refund_id := rf_id refund;
      nr_payment_id := default "None" (rf_payment_intent refund);
      nr_status := str_or (default "" (rf_status refund)) "pending";
      nr_amount_minor := rf_amount refund;
      nr_currency := str_upper (str_or (default "" (rf_currency refund)) currency);
      nr_created_at := created_at; nr_provider_request_id := Some (rf_id refund) |}
  end.

Definition of_refund (r : stripe_result StripeRefund) : exn + StripeRefund :=
  match r with
  | StripeInvalidRequestError (Some "charge_already_refunded") =>
      inl (integration_error_with IntegrationErr.RefundNotAllowedByProvider
             "This payment has already been fully refunded.")
  | r => of_stripe r
  end.

Definition stripe_provider : PaymentProvider := {|
  pp_probe credentials timeout_seconds :=
    r ← gets (stripe_balance_retrieve (secret_key credentials) timeout_seconds);
    of_sum (of_stripe r);
  get_payment credentials payment_reference timeout_seconds :=
    r ← gets (stripe_payment_intents_retrieve (secret_key credentials) timeout_seconds
                payment_reference);
    intent ← of_sum (of_stripe r);
    of_sum (normalize_payment intent);
  refund_payment credentials payment_reference amount_minor currency reason idempotency_key
      timeout_seconds :=
    r ← gets (stripe_refunds_create (secret_key credentials) timeout_seconds
                (refund_params payment_reference amount_minor reason) idempotency_key);
    refund ← of_sum (of_refund r);
    of_sum (normalize_refund currency refund) |}.

(** ** Google Calendar ([providers/google_calendar.py]) *)

Definition google_map_error (status : option Z) : exn :=
  integration_error
    match status with
    | Some status =>
        if (status =? 401)%Z then IntegrationErr.AuthenticationFailed
        else if (status =? 403)%Z then IntegrationErr.PermissionDenied
        else if (status =? 429)%Z then IntegrationErr.RateLimited
        else if (500 <=? status)%Z then IntegrationErr.TemporarilyUnavailable
        else IntegrationErr.InvalidRequest
    | None => IntegrationErr.InvalidRequest
    end.

Definition of_google {A} (r : google_result A) : exn + A :=
  match r with
  | GoogleOk a => inr a
  | GoogleHttpError status => inl (google_map_error status)
  | GoogleOSError => inl (integration_error IntegrationErr.Timeout)
  | GoogleCrash => inl (integration_error IntegrationErr.MalformedResponse)
  end.

(** The credential [_service] builds its client from. *)
Definition service_account (credentials : document) : exn + json :=
  match obj_get "service_account_info" credentials with
  | Some info =>
      if falsy info then
        inl (integration_error_with IntegrationErr.InvalidRequest
               "No Google service-account credential is configured.")
      else inr info
  | None => inl (integration_error_with IntegrationErr.InvalidRequest
                   "No Google service-account credential is configured.")
  end.

Definition rfc3339 (value : moment) : exn + json :=
  if aware value then inr (JStr (dump_datetime value))
  else inl (integration_error_with IntegrationErr.InvalidRequest
              "Calendar times must be timezone-aware.").

Definition calendar_id (configuration : document) : json :=
  default (JStr "primary") (obj_get "calendar_id" configuration).

(** [response["calendars"][calendar_id]["busy"]]. *)
Definition busy_of (response calendar : json) : option json :=
  match response, calendar with
  | JObj response, JStr calendar =>
      match obj_get "calendars" response with
      | Some (JObj calendars) =>
          match obj_get calendar calendars with
          | Some (JObj entry) => obj_get "busy" entry
          | _ => None
          end
      | _ => None
      end
  | _, _ => None
  end.

Definition google_get_availability (credentials configuration : document)
    (window_start window_end : moment) (timeout_seconds : spec_float)
    : service (list AvailabilitySlot) :=
  let calendar := calendar_id configuration in
  info ← of_sum (service_account credentials);
  time_min ← of_sum (rfc3339 window_start);
  time_max ← of_sum (rfc3339 window_end);
  r ← gets (google_freebusy_query info timeout_seconds
              [("timeMin", time_min); ("timeMax", time_max);
               ("items", JList [JObj [("id", calendar)]])]);
  response ← of_sum (of_google r);
  busy ← or_raise (busy_of response calendar) (integration_error IntegrationErr.MalformedResponse);
  if falsy busy then mret [{| slot_start := window_start; slot_end := window_end |}]
  else mret [].

Definition event_body (title : string) (first last : json) (attendee_email : option string)
    (idempotency_key : string) : document :=
  [("summary", JStr title); ("start", JObj [("dateTime", first)]);
   ("end", JObj [("dateTime", last)]);
   ("extendedProperties",
      JObj [("private", JObj [("supportpilot_idempotency_key", JStr idempotency_key)])])]
  ++ match attendee_email with
     | Some email => if String.eqb email "" then []
                     else [("attendees", JList [JObj [("email", JStr email)]])]
     | None => []
     end.

Definition of_insert {A} (r : google_result A) : exn + A :=
  match r with
  | GoogleHttpError (Some 409%Z) => inl (integration_error IntegrationErr.CalendarSlotUnavailable)
  | r => of_google r
  end.

Definition google_create_booking (credentials configuration : document) (first last : moment)
    (title : string) (attendee_email : option string) (idempotency_key : string)
    (timeout_seconds : spec_float) : service NormalizedBooking :=
  start_time ← of_sum (rfc3339 first);
  end_time ← of_sum (rfc3339 last);
  info ← of_sum (service_account credentials);
  r ← gets (google_events_insert info timeout_seconds (calendar_id configuration)
              (event_body title start_time end_time attendee_email idempotency_key));
  event ← of_sum (of_insert r);
  event_id ← or_raise event (integration_error IntegrationErr.MalformedResponse);
  mret {| nb_booking_id := "bk_" +:+ event_id; nb_external_event_id := event_id;
          nb_start := first; nb_end := last; nb_status := "confirmed";
          nb_provider_request_id := Some event_id |}.

Definition google_provider : CalendarProvider := {|
  cp_probe credentials timeout_seconds :=
    info ← of_sum (service_account credentials);
    r ← gets (google_calendar_list info timeout_seconds);
    of_sum (of_google r);
  get_availability := google_get_availability;
  create_booking := google_create_booking |}.

(** ** The demonstration catalog ([providers/demo_commerce.py]) *)

Definition REQUIRED_ORDER_FIELDS : list string :=
  ["status"; "created_at"; "amount_minor"; "currency"].

(** [str(v)]. *)
Definition str_of (v : json) : string := match v with JStr s => s | v => py_str v end.

(** [configuration.get(name, {}).get(reference)]; the schema stores objects of objects. *)
Definition catalog_entry (name : string) (configuration : document) (reference : string)
    (missing : IntegrationErr.t) : exn + document :=
  match default (JObj []) (obj_get name configuration) with
  | JObj catalog =>
      match obj_get reference catalog with
      | None | Some JNull => inl (integration_error missing)
      | Some (JObj raw) => inr raw
      | Some _ => inl TypeError
      end
  | _ => inl AttributeError
  end.

(** [datetime.fromisoformat(v)], whose [ValueError] becomes the error [e]. *)
Definition instant_of (v : json) (e : exn) : exn + moment :=
  match v with
  | JStr s => match moment_of_isoformat s with Some m => inr m | None => inl e end
  | _ => inl TypeError
  end.

Definition demo_get_order (configuration : document) (order_reference : string)
    : service NormalizedOrder :=
  raw ← of_sum (catalog_entry "orders" configuration order_reference IntegrationErr.OrderNotFound);
  raise_if (negb (forallb (λ k, bool_decide (is_Some (obj_get k raw))) REQUIRED_ORDER_FIELDS))
    (integration_error_with IntegrationErr.MalformedResponse
       "Demo order catalog entry is incomplete.");;
  created_at ← of_sum (instant_of (args_get raw "created_at")
    (integration_error_with IntegrationErr.MalformedResponse
       "Demo order has an invalid timestamp."));
  amount_minor ← of_sum (int_of_value (args_get raw "amount_minor"));
  mret {| no_order_id := "ord_" +:+ order_reference; no_external_order_id := order_reference;
          no_status := args_get raw "status"; no_created_at := created_at;
          no_amount_minor := amount_minor;
          no_currency := str_upper (str_of (args_get raw "currency"));
          no_shipment_status := args_get raw "shipment_status";
          no_tracking_reference := args_get raw "tracking_reference" |}.

Definition demo_get_shipment (configuration : document) (shipment_reference : string)
    : service NormalizedShipment :=
  raw ← of_sum (catalog_entry "shipments" configuration shipment_reference
                  IntegrationErr.ShipmentNotFound);
  estimated_delivery ←
    (if falsy (args_get raw "estimated_delivery") then mret None
     else
       m ← of_sum (instant_of (args_get raw "estimated_delivery")
         (integration_error_with IntegrationErr.MalformedResponse
            "Demo shipment has an invalid delivery timestamp."));
       mret (Some m));
  mret {| ns_shipment_id := "shp_" +:+ shipment_reference;
          ns_order_id := default (JStr "") (obj_get "order_id" raw);
          ns_status := default (JStr "label_created") (obj_get "status" raw);
          ns_tracking_reference := default (JStr shipment_reference) (obj_get "tracking_reference" raw);
          ns_carrier := args_get raw "carrier"; ns_estimated_delivery := estimated_delivery |}.

Definition demo_commerce_provider : OrderProvider := {|
  op_probe _ _ := mret ();
  get_order _ configuration order_reference _ := demo_get_order configuration order_reference;
  get_shipment _ configuration shipment_reference _ :=
    demo_get_shipment configuration shipment_reference |}.

(** ** SMTP ([providers/email_provider.py], [providers/_smtp_transport.py]) *)

(** [credentials.get("host")], as [validate_outbound_host] reads it. *)
Definition smtp_host (credentials : document) : exn + option string :=
  match args_get credentials "host" with
  | JStr s => inr (Some s)
  | v => if falsy v then inr None else inl AttributeError
  end.

Definition smtp_port (credentials : document) : exn + Z :=
  int_of_value (default (JInt 587) (obj_get "port" credentials)).

Definition use_tls (credentials : document) : bool :=
  negb (falsy (default (JBool true) (obj_get "use_tls" credentials))).

(** [get_connection(...)] with [open()]: the address is validated again, and the socket
    goes to the address this validation returned. *)
Definition open_pinned (credentials : document) (host : option string) (port : Z)
    (timeout_seconds : spec_float) : service (smtp_connection * smtp_outcome) :=
  pinned_ip ← gets (validate_outbound_host host port);
  pinned_ip ← of_sum pinned_ip;
  let connection := {|
    sm_ip := pinned_ip; sm_host := default "" host; sm_port := port;
    sm_username := args_get credentials "username";
    sm_password := args_get credentials "password";
    sm_use_tls := use_tls credentials; sm_timeout := timeout_seconds |} in
  r ← gets (smtp_open connection);
  mret (connection, r).

Definition smtp_destination (credentials : document) : service (option string * Z) :=
  host ← of_sum (smtp_host credentials);
  port ← of_sum (smtp_port credentials);
  checked ← gets (validate_outbound_host host port);
  of_sum checked;;
  mret (host, port).

(** What the two operations make of an [SMTPException] or an [OSError]. *)
Definition smtp_error (r : smtp_outcome) : exn + () :=
  match r with
  | SmtpOk => inr ()
  | SMTPAuthenticationError => inl (integration_error IntegrationErr.AuthenticationFailed)
  | SmtpTimeoutError => inl (integration_error IntegrationErr.Timeout)
  | SMTPRecipientsRefused | SmtpOSError =>
      inl (integration_error IntegrationErr.TemporarilyUnavailable)
  | BadHeaderError => inl ValueError
  end.

Definition smtp_send_error (r : smtp_outcome) : exn + () :=
  match r with
  | SMTPRecipientsRefused =>
      inl (integration_error_with IntegrationErr.InvalidRequest
             "The recipient address was refused.")
  | BadHeaderError =>
      inl (integration_error_with IntegrationErr.InvalidRequest
             "The message could not be sent: an address or header was invalid.")
  | r => smtp_error r
  end.

Definition smtp_probe (credentials : document) (timeout_seconds : spec_float) : service () :=
  destination ← smtp_destination credentials;
  r ← open_pinned credentials destination.1 destination.2 timeout_seconds;
  of_sum (smtp_error r.2).

(** [configuration.get("from_email") or credentials.get("username")]. *)
Definition sender (credentials configuration : document) : json :=
  let from_email := args_get configuration "from_email" in
  if falsy from_email then args_get credentials "username" else from_email.

Definition smtp_deliver (credentials configuration : document)
    (recipient_email subject body idempotency_key : string) (timeout_seconds : spec_float)
    : service NormalizedNotification :=
  let from_email := sender credentials configuration in
  raise_if (falsy from_email)
    (integration_error_with IntegrationErr.InvalidRequest "No sender address is configured.");;
  destination ← smtp_destination credentials;
  n ← fresh;
  let message := {|
    em_subject := subject; em_body := body; em_from := from_email; em_to := recipient_email;
    em_message_id := make_msgid n; em_idempotency_key := idempotency_key |} in
  opened ← open_pinned credentials destination.1 destination.2 timeout_seconds;
  of_sum (smtp_send_error opened.2);;
  r ← gets (smtp_send opened.1 message);
  of_sum (smtp_send_error r);;
  mret {| nn_message_id := make_msgid n; nn_status := "sent"; nn_provider_request_id := None |}.

Definition smtp_provider : NotificationProvider :=
  {| ntp_probe := smtp_probe; send := smtp_deliver |}.

(** ** The factory ([providers/factory.py]) *)

Definition unsupported {A} (kind : string) (provider : IntegrationProvider.t) : exn + A :=
  inl (integration_error_with IntegrationErr.ProviderNotSupported
         ("No " +:+ kind +:+ " provider for "
          +:+ py_repr (JStr (IntegrationProvider.value provider)) +:+ ".")).

Definition get_payment_provider (provider : IntegrationProvider.t) : exn + PaymentProvider :=
  if bool_decide (provider = IntegrationProvider.STRIPE) then
    inr (if INTEGRATIONS_LIVE_PROVIDERS_ENABLED then stripe_provider else fake_payment_provider)
  else unsupported "payment" provider.

Definition get_calendar_provider (provider : IntegrationProvider.t) : exn + CalendarProvider :=
  if bool_decide (provider = IntegrationProvider.GOOGLE_CALENDAR) then
    inr (if INTEGRATIONS_LIVE_PROVIDERS_ENABLED then google_provider else fake_calendar_provider)
  else unsupported "calendar" provider.

Definition get_notification_provider (provider : IntegrationProvider.t)
    : exn + NotificationProvider :=
  if bool_decide (provider = IntegrationProvider.EMAIL) then
    inr (if INTEGRATIONS_LIVE_PROVIDERS_ENABLED then smtp_provider
         else fake_notification_provider)
  else unsupported "notification" provider.

Definition get_order_provider (provider : IntegrationProvider.t) : exn + OrderProvider :=
  if bool_decide (provider = IntegrationProvider.DEMO_COMMERCE) then inr demo_commerce_provider
  else unsupported "order" provider.
End Live.

(** ** Concrete vendors *)

(** Vendors that answer every request: one payment, a free calendar, and a mail server. *)
Definition example_vendors : Vendors := {|
  stripe_balance_retrieve _ _ _ := StripeOk ();
  stripe_payment_intents_retrieve _ _ reference _ :=
    StripeOk {| pi_id := reference; pi_status := "succeeded"; pi_amount := 2500;
                pi_currency := "usd"; pi_created := 1000 |};
  stripe_refunds_create _ _ _ key _ :=
    StripeOk {| rf_id := "re_" +:+ key; rf_payment_intent := Some "pi_1";
                rf_status := Some "succeeded"; rf_amount := 500; rf_currency := Some "usd";
                rf_created := 1000 |};
  google_calendar_list _ _ _ := GoogleOk ();
  google_freebusy_query _ _ _ _ :=
    GoogleOk (JObj [("calendars", JObj [("primary", JObj [("busy", JList [])])])]);
  google_events_insert _ _ _ _ _ := GoogleOk (Some "e1");
  smtp_open _ _ := SmtpOk;
  smtp_send _ _ _ := SmtpOk;
  make_msgid n := "<" +:+ pretty n +:+ "@supportpilot>";
  int_of_value v := match v with JInt z => inr z | _ => inl ValueError end;
  moment_of_isoformat _ := Some (utc 0) |}.
