(* ===== verification/Integrations.v ===== *)
(** * Integrations

    [integrations/services.py] and [integrations/selectors.py]: the connections of a
    workspace to its providers, and the one path from a business operation to a
    provider: the connection is resolved on the server, its credentials are decrypted
    for the call, and the outcome is recorded as the health of the connection. *)

From stdpp Require Import base gmap strings list.
From Stdlib Require Import ZArith SpecFloat Lia.
From S2P Require Import Prelude Json Domain Policy Models Store PolicyAdmin Network Schemas Adapters.

Section Integrations.
Context `{Settings} `{PyLib} `{Network} `{Pydantic} `{Vendors}.

(** ** Selectors *)

Definition connection_for (workspace : N) (provider : IntegrationProvider.t) (_ : N)
    (c : IntegrationConnection) : bool :=
  bool_decide (ic_workspace c = workspace) && bool_decide (ic_provider c = provider).

Definition resolve_connection_for_tool (workspace : N) (provider : IntegrationProvider.t)
    : service (option (N * IntegrationConnection)) :=
  first_row (connection_for workspace provider).

(** ** Connection management *)

(** [uniq_integration_conn_ws_provider]. *)
Definition connection_clash (a b : IntegrationConnection) : bool :=
  bool_decide (ic_workspace a = ic_workspace b) && bool_decide (ic_provider a = ic_provider b).

Definition connection_event (action : string) (workspace actor connection : N)
    (metadata : document) : service () :=
  record_event action "integration_connection" connection (Some actor) (Some workspace) metadata.

Definition provider_field (p : IntegrationProvider.t) : string * json :=
  ("provider", JStr (IntegrationProvider.value p)).

(** [connection.full_clean()], field by field, then the constraint; and the insert. *)
Definition save_new_connection (i : N) (c : IntegrationConnection) : service () :=
  raise_if (negb (fits 200 (ic_display_name c))) DjangoValidationError;;
  exists_already ← gets (exists_row (λ _ other, connection_clash c other));
  raise_if exists_already DjangoValidationError;;
  save_unique connection_clash i c.

Definition create_connection (workspace actor : N) (provider display_name environment : string)
    (credentials configuration : json) : service N :=
  atomic (
    validated_credentials ← of_sum (validate_credentials provider credentials);
    validated_configuration ← of_sum (validate_configuration provider configuration);
    encrypted ← or_raise (encrypt_credentials validated_credentials) CredentialEncryptionError;
    provider ← or_raise (IntegrationProvider.of_value provider) DjangoValidationError;
    environment ← or_raise (IntegrationEnvironment.of_value environment) DjangoValidationError;
    i ← fresh;
    save_new_connection i {|
      ic_workspace := workspace; ic_provider := provider; ic_display_name := display_name;
      ic_status := IntegrationConnectionStatus.ACTIVE; ic_environment := environment;
      ic_encrypted_credentials := encrypted; ic_credential_version := 1;
      ic_configuration := validated_configuration; ic_last_checked_at := None;
      ic_last_success_at := None; ic_last_error_code := ""; ic_created_by := Some actor |};;
    connection_event "integration.connection_created" workspace actor i
      [provider_field provider;
       ("environment", JStr (IntegrationEnvironment.value environment))];;
    mret i).

(** [connection.save(update_fields=...)] of the display name and the configuration. *)
Definition with_configuration (display_name : option string) (configuration : option document)
    (c : IntegrationConnection) : IntegrationConnection :=
  {| c with ic_display_name := default (ic_display_name c) display_name;
            ic_configuration := default (ic_configuration c) configuration |}.

Definition update_connection_configuration (workspace connection_id : N)
    (connection : IntegrationConnection) (actor : N) (display_name : option string)
    (configuration : option json) : service () :=
  atomic (
    validated ←
      match configuration with
      | Some data =>
          validated ← of_sum (validate_configuration
            (IntegrationProvider.value (ic_provider connection)) data);
          mret (Some validated)
      | None => mret None
      end;
    raise_if (negb (fits_opt 200 display_name)) DataError;;
    save_fields connection_id (with_configuration display_name validated);;
    connection_event "integration.connection_updated" workspace actor connection_id
      [provider_field (ic_provider connection)]).

(** The columns are written from the object in memory, whichever row is current. *)
Definition rotated (encrypted : string) (connection c : IntegrationConnection)
    : IntegrationConnection :=
  {| c with
     ic_encrypted_credentials := encrypted;
     ic_credential_version := (ic_credential_version connection + 1)%N;
     ic_last_error_code := "";
     ic_status := if bool_decide (ic_status connection =
                      IntegrationConnectionStatus.INVALID_CREDENTIALS)
                  then IntegrationConnectionStatus.ACTIVE else ic_status connection |}.

Definition rotate_credentials (workspace connection_id : N) (connection : IntegrationConnection)
    (actor : N) (credentials : json) : service () :=
  atomic (
    validated ← of_sum (validate_credentials
      (IntegrationProvider.value (ic_provider connection)) credentials);
    encrypted ← or_raise (encrypt_credentials validated) CredentialEncryptionError;
    (* a positive integer column *)
    raise_if (2147483647 <? ic_credential_version connection + 1)%N DataError;;
    save_fields connection_id (rotated encrypted connection);;
    connection_event "integration.credentials_rotated" workspace actor connection_id
      [provider_field (ic_provider connection);
       ("credential_version", id_json (ic_credential_version connection + 1))]).

Definition with_connection_status (status : IntegrationConnectionStatus.t)
    (c : IntegrationConnection) : IntegrationConnection := {| c with ic_status := status |}.

Definition set_connection_enabled (workspace connection_id : N)
    (connection : IntegrationConnection) (actor : N) (enabled : bool) : service () :=
  atomic (
    save_fields connection_id (with_connection_status
      (if enabled then IntegrationConnectionStatus.ACTIVE
       else IntegrationConnectionStatus.DISABLED));;
    connection_event
      (if enabled then "integration.connection_enabled" else "integration.connection_disabled")
      workspace actor connection_id [provider_field (ic_provider connection)]).

(** ** The boundary of a provider call *)

Definition half_second : spec_float := S754_finite false 4503599627370496 (-53).
Definition MIN_PROVIDER_TIMEOUT_SECONDS : spec_float := half_second.

(** [max(a, b)] and [min(a, b)] of Python. *)
Definition py_max (a b : spec_float) : spec_float := if SFltb a b then b else a.
Definition py_min (a b : spec_float) : spec_float := if SFltb b a then b else a.

Definition effective_provider_timeout (remaining_seconds : spec_float) : spec_float :=
  let margin := half_second in
  let bounded :=
    py_min (py_min INTEGRATIONS_DEFAULT_TIMEOUT_SECONDS INTEGRATIONS_MAX_TIMEOUT_SECONDS)
      (py_max (SFsub 53 1024 remaining_seconds margin) MIN_PROVIDER_TIMEOUT_SECONDS) in
  py_max bounded MIN_PROVIDER_TIMEOUT_SECONDS.

Definition require_usable_connection (workspace : N) (provider : IntegrationProvider.t)
    : service (N * IntegrationConnection) :=
  connection ← resolve_connection_for_tool workspace provider;
  connection ← or_raise connection (integration_error IntegrationErr.NotConfigured);
  raise_if (bool_decide (ic_status connection.2 = IntegrationConnectionStatus.DISABLED))
    (integration_error IntegrationErr.Disabled);;
  raise_if (negb (credentials_configured connection.2))
    (integration_error IntegrationErr.NotConfigured);;
  mret connection.

(** The status an outcome writes, from the status the caller's object has. *)
Definition health_status (known : IntegrationConnectionStatus.t) (error : option IntegrationErr.t)
    : option IntegrationConnectionStatus.t :=
  match error with
  | None =>
      if bool_decide (known ∈ [IntegrationConnectionStatus.DEGRADED;
                               IntegrationConnectionStatus.INVALID_CREDENTIALS])
      then Some IntegrationConnectionStatus.ACTIVE else None
  | Some e =>
      if bool_decide (known = IntegrationConnectionStatus.DISABLED) then None
      else match e with
           | IntegrationErr.AuthenticationFailed | IntegrationErr.PermissionDenied =>
               Some IntegrationConnectionStatus.INVALID_CREDENTIALS
           | IntegrationErr.Timeout | IntegrationErr.TemporarilyUnavailable
           | IntegrationErr.RateLimited => Some IntegrationConnectionStatus.DEGRADED
           | _ => None
           end
  end.

Definition with_health (now : Z) (error : option IntegrationErr.t)
    (status : option IntegrationConnectionStatus.t) (c : IntegrationConnection)
    : IntegrationConnection :=
  {| c with
     ic_last_checked_at := Some now;
     ic_last_success_at := match error with None => Some now | Some _ => ic_last_success_at c end;
     ic_last_error_code := match error with None => "" | Some e => IntegrationErr.code e end;
     ic_status := default (ic_status c) status |}.

(** One update of the row, then of the object in memory. *)
Definition record_health (connection_id : N) (connection : IntegrationConnection)
    (error : option IntegrationErr.t) : service IntegrationConnection :=
  now ← get_now;
  let fields := with_health now error (health_status (ic_status connection) error) in
  update_rows (λ i _, bool_decide (i = connection_id)) fields;;
  mret (fields connection).

(** The result of the operation, with the object in memory. *)
Definition provider_call {A} (connection_id : N) (connection : IntegrationConnection)
    (operation : document → service A) : service ((exn + A) * IntegrationConnection) :=
  let credentials :=
    if credentials_configured connection
    then decrypt_credentials (ic_encrypted_credentials connection) else Some [] in
  match credentials with
  | None =>
      connection ← record_health connection_id connection (Some IntegrationErr.Configuration);
      mret (inl (integration_error IntegrationErr.Configuration), connection)
  | Some credentials =>
      r ← attempt (operation credentials);
      match r with
      | inl (IntegrationExc cls message) =>
          connection ← record_health connection_id connection (Some cls);
          mret (inl (IntegrationExc cls message), connection)
      | inl e => mret (inl e, connection)
      | inr result =>
          connection ← record_health connection_id connection None;
          mret (inr result, connection)
      end
  end.

Definition execute_provider_call {A} (connection : N * IntegrationConnection)
    (operation : document → service A) : service A :=
  r ← provider_call connection.1 connection.2 operation;
  of_sum r.1.

(** [_resolve_probe_provider(connection.provider)] and its [probe]. *)
Definition resolve_probe (provider : IntegrationProvider.t)
    : exn + (document → spec_float → service ()) :=
  match provider with
  | IntegrationProvider.STRIPE =>
      match get_payment_provider provider with inl e => inl e | inr p => inr (pp_probe p) end
  | IntegrationProvider.GOOGLE_CALENDAR =>
      match get_calendar_provider provider with inl e => inl e | inr p => inr (cp_probe p) end
  | IntegrationProvider.EMAIL =>
      match get_notification_provider provider with inl e => inl e | inr p => inr (ntp_probe p) end
  | IntegrationProvider.DEMO_COMMERCE =>
      match get_order_provider provider with inl e => inl e | inr p => inr (op_probe p) end
  end.

Record ConnectionTest := {
  ct_ok : bool;
  ct_status : IntegrationConnectionStatus.t;
  ct_error_code : option string;
}.

Definition test_connection (workspace connection_id : N) (connection : IntegrationConnection)
    (actor : N) : service ConnectionTest :=
  raise_if (bool_decide (ic_status connection = IntegrationConnectionStatus.DISABLED))
    (integration_error IntegrationErr.Disabled);;
  r ← provider_call connection_id connection (λ credentials,
        probe ← of_sum (resolve_probe (ic_provider connection));
        probe credentials INTEGRATIONS_DEFAULT_TIMEOUT_SECONDS);
  let finish (error : option IntegrationErr.t) : service ConnectionTest :=
    let ok := match error with None => true | Some _ => false end in
    connection_event "integration.connection_tested" workspace actor connection_id
      [provider_field (ic_provider connection); ("ok", JBool ok)];;
    mret {| ct_ok := ok; ct_status := ic_status r.2;
            ct_error_code := IntegrationErr.code <$> error |} in
  match r.1 with
  | inr _ => finish None
  | inl (IntegrationExc cls _) => finish (Some cls)
  | inl e => raise e
  end.

(** ** Business operations *)

Definition get_payment (workspace : N) (remaining_seconds : spec_float)
    (payment_reference : string) : service NormalizedPayment :=
  connection ← require_usable_connection workspace IntegrationProvider.STRIPE;
  provider ← of_sum (get_payment_provider (ic_provider connection.2));
  execute_provider_call connection (λ credentials,
    Adapters.get_payment provider credentials payment_reference
      (effective_provider_timeout remaining_seconds)).

Definition refund_payment (workspace : N) (remaining_seconds : spec_float)
    (payment_reference : string) (amount_minor : Z) (currency reason idempotency_key : string)
    : service NormalizedRefund :=
  connection ← require_usable_connection workspace IntegrationProvider.STRIPE;
  provider ← of_sum (get_payment_provider (ic_provider connection.2));
  execute_provider_call connection (λ credentials,
    Adapters.refund_payment provider credentials payment_reference amount_minor currency reason
      idempotency_key (effective_provider_timeout remaining_seconds)).

Definition get_availability (workspace : N) (remaining_seconds : spec_float)
    (window_start window_end : moment) : service (list AvailabilitySlot) :=
  connection ← require_usable_connection workspace IntegrationProvider.GOOGLE_CALENDAR;
  provider ← of_sum (get_calendar_provider (ic_provider connection.2));
  execute_provider_call connection (λ credentials,
    Adapters.get_availability provider credentials (ic_configuration connection.2)
      window_start window_end (effective_provider_timeout remaining_seconds)).

Definition create_booking (workspace : N) (remaining_seconds : spec_float) (first last : moment)
    (title : string) (attendee_email : option string) (idempotency_key : string)
    : service NormalizedBooking :=
  connection ← require_usable_connection workspace IntegrationProvider.GOOGLE_CALENDAR;
  provider ← of_sum (get_calendar_provider (ic_provider connection.2));
  execute_provider_call connection (λ credentials,
    Adapters.create_booking provider credentials (ic_configuration connection.2) first last title
      attendee_email idempotency_key (effective_provider_timeout remaining_seconds)).

Definition ensure_notification_provider_configured (workspace : N) : service () :=
  require_usable_connection workspace IntegrationProvider.EMAIL;;
  mret ().

Definition send_notification (workspace : N) (remaining_seconds : spec_float)
    (recipient_email subject body idempotency_key : string) : service NormalizedNotification :=
  connection ← require_usable_connection workspace IntegrationProvider.EMAIL;
  provider ← of_sum (get_notification_provider (ic_provider connection.2));
  execute_provider_call connection (λ credentials,
    send provider credentials (ic_configuration connection.2) recipient_email subject body
      idempotency_key (effective_provider_timeout remaining_seconds)).

Definition get_order (workspace : N) (remaining_seconds : spec_float) (order_reference : string)
    : service NormalizedOrder :=
  connection ← require_usable_connection workspace IntegrationProvider.DEMO_COMMERCE;
  provider ← of_sum (get_order_provider (ic_provider connection.2));
  execute_provider_call connection (λ credentials,
    Adapters.get_order provider credentials (ic_configuration connection.2) order_reference
      (effective_provider_timeout remaining_seconds)).

Definition get_shipment (workspace : N) (remaining_seconds : spec_float)
    (shipment_reference : string) : service NormalizedShipment :=
  connection ← require_usable_connection workspace IntegrationProvider.DEMO_COMMERCE;
  provider ← of_sum (get_order_provider (ic_provider connection.2));
  execute_provider_call connection (λ credentials,
    Adapters.get_shipment provider credentials (ic_configuration connection.2) shipment_reference
      (effective_provider_timeout remaining_seconds)).
End Integrations.

(** ** What a provider call writes

    The adapters take fresh identifiers; around them, the health of one connection of
    the workspace is written, whatever the provider answers. *)

Definition next_frame : relation World := λ w w',
  ∃ n, w' = {| w with w_next := n |} ∧ (w_next w <= n)%N.
#[export] Instance next_frame_preorder : PreOrder next_frame.
Proof.
  split; [intros w; exists (w_next w); split; [by destruct w|done]|].
  intros w1 w2 w3 (n & -> & Hn) (n' & -> & Hn'). exists n'. split; [done|]. simpl in *. lia.
Qed.

(** Only the row of one connection is written, and it stays in its workspace. *)
Definition health_frame (i : N) : relation World := λ w w',
  ∃ connections n,
    w' = {| w with w_integration_connections := connections; w_next := n |} ∧ (w_next w <= n)%N ∧
    ∀ j, (j ≠ i → connections !! j = w_integration_connections w !! j) ∧
         ic_workspace <$> connections !! j = ic_workspace <$> w_integration_connections w !! j.
#[export] Instance health_frame_preorder i : PreOrder (health_frame i).
Proof.
  split.
  - intros w. exists (w_integration_connections w), (w_next w). split; [by destruct w|done].
  - intros w1 w2 w3 (m & n & -> & Hn & Hm) (m' & n' & -> & Hn' & Hm'). exists m', n'. simpl in *.
    split; [done|]. split; [lia|]. intros j. destruct (Hm j), (Hm' j).
    split; [intros; etrans; auto|by etrans].
Qed.
Lemma next_health i w w' : next_frame w w' → health_frame i w w'.
Proof. intros (n & -> & Hn). exists (w_integration_connections w), n. split; [by destruct w|done]. Qed.

(** Only connections of the workspace are written. *)
Definition integration_frame (workspace : N) : relation World := λ w w',
  ∃ connections n,
    w' = {| w with w_integration_connections := connections; w_next := n |} ∧ (w_next w <= n)%N ∧
    ∀ j c, ic_workspace c ≠ workspace →
      connections !! j = Some c ↔ w_integration_connections w !! j = Some c.
#[export] Instance integration_frame_preorder ws : PreOrder (integration_frame ws).
Proof.
  split.
  - intros w. exists (w_integration_connections w), (w_next w). split; [by destruct w|done].
  - intros w1 w2 w3 (m & n & -> & Hn & Hm) (m' & n' & -> & Hn' & Hm'). exists m', n'. simpl in *.
    split; [done|]. split; [lia|]. intros j c Hc. rewrite Hm' by done. by apply Hm.
Qed.
Lemma health_integration ws i c w w' :
  w_integration_connections w !! i = Some c → ic_workspace c = ws →
  health_frame i w w' → integration_frame ws w w'.
Proof.
  intros Hi Hc (m & n & -> & Hn & Hm). exists m, n. split_and!; [done..|]. intros j c' Hc'.
  destruct (Hm j) as [Ho Hw]. destruct (decide (j = i)) as [->|Hj]; [|by rewrite Ho].
  rewrite Hi in Hw |- *. split; [|by intros [= <-]].
  intros Hj. rewrite Hj in Hw. by simplify_eq/=.
Qed.

Section Frame.
Context `{Settings} `{PyLib} `{Network} `{Pydantic} `{Vendors}.

Lemma fresh_framed : included next_frame fresh.
Proof. intros w. exists (N.succ (w_next w)). split; [by destruct w|lia]. Qed.
Lemma on_fresh_framed {S A} (s : S) (m : M S exn A) : included next_frame (on_fresh s m).
Proof. apply included_of_sum, _. Qed.
Hint Resolve fresh_framed on_fresh_framed : included.

Lemma record_health_framed i c error : included (health_frame i) (record_health i c error).
Proof.
  unfold record_health, get_now. included_step; [included_step|]. included_step; [|included_step].
  intros w. simpl.
  eexists _, (w_next w). split; [by destruct w|]. split; [done|]. intros j.
  rewrite (rows_update (A := IntegrationConnection)). simpl.
  destruct (w_integration_connections w !! j); [|done]. simpl.
  by case_bool_decide.
Qed.
Hint Resolve record_health_framed : included.

Lemma provider_call_framed {A} i c (operation : document → service A) :
  (∀ credentials, included next_frame (operation credentials)) →
  included (health_frame i) (provider_call i c operation).
Proof.
  intros Ho. unfold provider_call. included_steps; intros w; apply next_health, Ho.
Qed.

Lemma payment_framed p provider :
  get_payment_provider p = inr provider →
  (∀ a b, included next_frame (pp_probe provider a b)) ∧
  (∀ a b c, included next_frame (Adapters.get_payment provider a b c)) ∧
  (∀ a b c d e f g, included next_frame (Adapters.refund_payment provider a b c d e f g)).
Proof.
  unfold get_payment_provider, unsupported. case_match; [|done]. intros [= <-].
  destruct INTEGRATIONS_LIVE_PROVIDERS_ENABLED; split_and!; intros; simpl; unfold get_now;
    included_steps.
Qed.

Lemma calendar_framed p provider :
  get_calendar_provider p = inr provider →
  (∀ a b, included next_frame (cp_probe provider a b)) ∧
  (∀ a b c d e, included next_frame (Adapters.get_availability provider a b c d e)) ∧
  (∀ a b c d e f g h, included next_frame (Adapters.create_booking provider a b c d e f g h)).
Proof.
  unfold get_calendar_provider, unsupported. case_match; [|done]. intros [= <-].
  destruct INTEGRATIONS_LIVE_PROVIDERS_ENABLED; split_and!; intros; simpl;
    unfold google_get_availability, google_create_booking; included_steps.
Qed.

Lemma notification_framed p provider :
  get_notification_provider p = inr provider →
  (∀ a b, included next_frame (ntp_probe provider a b)) ∧
  (∀ a b c d e f g, included next_frame (send provider a b c d e f g)).
Proof.
  unfold get_notification_provider, unsupported. case_match; [|done]. intros [= <-].
  destruct INTEGRATIONS_LIVE_PROVIDERS_ENABLED; split_and!; intros; simpl;
    unfold smtp_probe, smtp_deliver, smtp_destination, open_pinned; included_steps.
Qed.

Lemma order_framed p provider :
  get_order_provider p = inr provider →
  (∀ a b, included next_frame (op_probe provider a b)) ∧
  (∀ a b c d, included next_frame (Adapters.get_order provider a b c d)) ∧
  (∀ a b c d, included next_frame (Adapters.get_shipment provider a b c d)).
Proof.
  unfold get_order_provider, unsupported. case_match; [|done]. intros [= <-].
  split_and!; intros; simpl; unfold demo_get_order, demo_get_shipment; included_steps.
Qed.

(** [of_sum r ≫= k], when [k] is framed for every value [r] can be. *)
Lemma of_sum_framed {A B} (R : relation World) `{!PreOrder R} (r : exn + A) (k : A → service B) :
  (∀ a, r = inr a → included R (k a)) → included R (of_sum r ≫= k).
Proof. intros Hk w. destruct r as [e|a]; [reflexivity|]. by apply Hk. Qed.

(** A usable connection is a row of the workspace, for the provider. *)
Lemma require_usable_spec ws p w :
  wp (require_usable_connection ws p) (λ r w', w' = w ∧
    ∀ i c, r = inr (i, c) → w_integration_connections w !! i = Some c ∧
      ic_workspace c = ws ∧ ic_provider c = p ∧ ic_status c ≠ IntegrationConnectionStatus.DISABLED ∧
      credentials_configured c = true) w.
Proof.
  unfold require_usable_connection, resolve_connection_for_tool.
  destruct (head (select_rows (connection_for ws p) w)) as [[i c]|] eqn:Hh.
  - apply first_row_some in Hh as Hrow. destruct Hrow as [Hi Hc].
    apply andb_true_iff in Hc as [Hw Hp]. apply bool_decide_eq_true in Hw, Hp.
    unfold wp, first_row, gets, mbind, M_bind. rewrite Hh. simpl. unfold raise_if. simpl.
    case_bool_decide as Hs; [by split|]. destruct (credentials_configured c) eqn:Hconf; [|by split].
    split; [done|]. intros ? ? [= <- <-]. done.
  - unfold wp, first_row, gets, mbind, M_bind. rewrite Hh. by split.
Qed.

(** What runs on a usable connection stays in the workspace. *)
Lemma usable_framed {A} ws p (k : N * IntegrationConnection → service A) :
  (∀ x, included (health_frame x.1) (k x)) →
  included (integration_frame ws) (require_usable_connection ws p ≫= k).
Proof.
  intros Hk w. change (wp (require_usable_connection ws p ≫= k) (λ _, integration_frame ws w) w).
  apply wp_bind. eapply wp_mono; [apply require_usable_spec|].
  intros [e|[i c]] w' [-> Hr]; wp_beta; [reflexivity|]. destruct (Hr i c eq_refl) as (Hi & Hw & _).
  by apply (health_integration ws i c), (Hk (i, c)).
Qed.

Lemma business_operations_framed ws t :
  (∀ a, included (integration_frame ws) (get_payment ws t a)) ∧
  (∀ a b c d e, included (integration_frame ws) (refund_payment ws t a b c d e)) ∧
  (∀ a b, included (integration_frame ws) (get_availability ws t a b)) ∧
  (∀ a b c d e, included (integration_frame ws) (create_booking ws t a b c d e)) ∧
  (∀ a b c d, included (integration_frame ws) (send_notification ws t a b c d)) ∧
  (∀ a, included (integration_frame ws) (get_order ws t a)) ∧
  (∀ a, included (integration_frame ws) (get_shipment ws t a)).
Proof.
  split_and!; intros; apply usable_framed; intros x; apply of_sum_framed; try apply _;
    intros provider Hp; unfold execute_provider_call; included_step; try included_step;
    apply provider_call_framed; intros; first
      [apply (payment_framed _ _ Hp)|apply (calendar_framed _ _ Hp)
      |apply (notification_framed _ _ Hp)|apply (order_framed _ _ Hp)].
Qed.

Lemma ensure_configured_framed ws p : included (integration_frame ws) (require_usable_connection ws p).
Proof.
  intros w. destruct (require_usable_spec ws p w) as [Hw _]. by rewrite Hw.
Qed.
End Frame.
