(* ===== verification/Webhooks.v ===== *)
(** * Webhooks

    [webhooks/services.py] and [webhooks/selectors.py]: endpoints and their
    secrets, the fan-out of an event, the manual redrive of an exhausted
    delivery, and the webhook channel's handler, which discharges the interface
    of [Delivery]. *)

From stdpp Require Import base gmap strings list pretty relations.
From Stdlib Require Import ZArith Lia.
From S2P Require Import Prelude Json Domain Policy Models Store Delivery Network.

Section Webhooks.
Context `{Settings} `{Network}.

(** ** Errors and constants *)

Definition WebhookEndpointDisabledError : exn := WebhookExc "webhook_endpoint_disabled" false.
Definition WebhookSigningNotConfiguredError : exn :=
  WebhookExc "webhook_signing_not_configured" false.
Definition WebhookInvalidEventTypeError : exn := WebhookExc "webhook_invalid_event_type" false.
Definition WebhookDeliveryNotRedrivableError : exn :=
  WebhookExc "webhook_delivery_not_redrivable" false.

Definition UNEXPECTED_ERROR_CODE : string := "webhook_delivery_unexpected_error".
Definition MISSING_WEBHOOK_DELIVERY_ERROR_CODE : string := "webhook_delivery_missing".
Definition MAX_NAME_LENGTH : nat := 200.

Definition valid_event_types : list string :=
  ["approval.requested"; "approval.approved"; "approval.rejected"; "approval.expired";
   "handoff.created"].

(** ** Validation *)

Definition validate_event_types (event_types : json) : service () :=
  match event_types with
  | JList l =>
      raise_if (bool_decide (length l = 0)) WebhookInvalidEventTypeError;;
      match mapM (λ v, match v with JStr s => Some s | _ => None end) l with
      | None => raise WebhookInvalidEventTypeError
      | Some names =>
          raise_if (negb (bool_decide (NoDup names))) WebhookInvalidEventTypeError;;
          raise_if (negb (forallb (λ s, str_in s valid_event_types) names))
            WebhookInvalidEventTypeError
      end
  | _ => raise WebhookInvalidEventTypeError
  end.

Definition best_effort_ssrf_check (url : string) : service () :=
  parsed ← of_sum (parse_webhook_url url);
  r ← gets (resolve_and_validate (pu_hostname parsed) (pu_port parsed));
  of_sum r;;
  mret ().

(** The list a validated document holds. *)
Definition event_type_list (event_types : json) : list string :=
  match event_types with
  | JList l => omap (λ v, match v with JStr s => Some s | _ => None end) l
  | _ => []
  end.

(** ** Endpoints *)

(** A failure to encrypt is an exception no caller catches. *)
Definition encrypted_secret (plaintext : string) : service string :=
  or_raise (encrypt_credentials [("secret", JStr plaintext)]) (OtherExc 0).

Definition create_endpoint (workspace actor : N) (name url : string)
    (subscribed_event_types : json) : service (N * string) :=
  of_sum (parse_webhook_url url);;
  best_effort_ssrf_check url;;
  validate_event_types subscribed_event_types;;
  n ← fresh;
  let plaintext_secret := token_hex n in
  encrypted ← encrypted_secret plaintext_secret;
  now ← get_now;
  atomic (
    (* the check constraints [webhook_endpoint_name_not_blank], [.._url_not_blank] *)
    raise_if (String.eqb name "" || String.eqb url "") IntegrityError;;
    endpoint ← create_row {|
      we_workspace := workspace; we_name := str_take MAX_NAME_LENGTH name; we_url := url;
      we_status := WebhookEndpointStatus.ACTIVE;
      we_subscribed_event_types := event_type_list subscribed_event_types;
      we_encrypted_signing_secret := encrypted; we_secret_created_at := Some now |};
    record_event "webhook_endpoint.created" "webhook_endpoint" endpoint (Some actor)
      (Some workspace)
      [("name", JStr (str_take MAX_NAME_LENGTH name)); ("event_types", subscribed_event_types)];;
    mret (endpoint, plaintext_secret)).

(** The endpoint is the caller's object: the columns named by [update_fields] are
    written over the current row. *)
Definition update_endpoint (workspace endpoint actor : N) (name url : option string)
    (subscribed_event_types : option json) : service () :=
  match url with
  | Some url => of_sum (parse_webhook_url url);; best_effort_ssrf_check url
  | None => mret ()
  end;;
  match subscribed_event_types with
  | Some types => validate_event_types types
  | None => mret ()
  end;;
  let fields :=
    (match name with Some _ => [JStr "name"] | None => [] end)
    ++ (match url with Some _ => [JStr "url"] | None => [] end)
    ++ (match subscribed_event_types with
        | Some _ => [JStr "subscribed_event_types"] | None => [] end) in
  when (negb (bool_decide (length fields = 0))) (atomic (
    row ← get_row endpoint;
    raise_if (match name with Some n => String.eqb n "" | None => false end) IntegrityError;;
    save_row endpoint
      {| row with
         we_name := match name with
                    | Some n => str_take MAX_NAME_LENGTH n | None => we_name row end;
         we_url := default (we_url row) url;
         we_subscribed_event_types :=
           match subscribed_event_types with
           | Some types => event_type_list types
           | None => we_subscribed_event_types row
           end |};;
    record_event "webhook_endpoint.updated" "webhook_endpoint" endpoint (Some actor)
      (Some workspace) [("fields", JList fields)])).

Definition set_endpoint_status (workspace endpoint actor : N) (status : WebhookEndpointStatus.t)
    : service () :=
  atomic (
    row ← get_row endpoint;
    save_row endpoint {| row with we_status := status |};;
    record_event
      (if bool_decide (status = WebhookEndpointStatus.DISABLED)
       then "webhook_endpoint.disabled" else "webhook_endpoint.updated")
      "webhook_endpoint" endpoint (Some actor) (Some workspace)
      [("status", JStr (WebhookEndpointStatus.value status))]).

Definition rotate_secret (workspace endpoint actor : N) : service string :=
  n ← fresh;
  let plaintext_secret := token_hex n in
  encrypted ← encrypted_secret plaintext_secret;
  atomic (
    now ← get_now;
    row ← get_row endpoint;
    save_row endpoint {| row with we_encrypted_signing_secret := encrypted;
                                  we_secret_created_at := Some now |};;
    record_event "webhook_endpoint.secret_rotated" "webhook_endpoint" endpoint (Some actor)
      (Some workspace) [];;
    mret plaintext_secret).

Definition current_secret (endpoint : WebhookEndpoint) : exn + string :=
  if String.eqb (we_encrypted_signing_secret endpoint) "" then
    inl WebhookSigningNotConfiguredError
  else match decrypt_credentials (we_encrypted_signing_secret endpoint) with
  | None => inl WebhookSigningNotConfiguredError
  | Some data =>
      match obj_get "secret" data with
      | Some (JStr secret) =>
          if String.eqb secret "" then inl WebhookSigningNotConfiguredError else inr secret
      | _ => inl WebhookSigningNotConfiguredError
      end
  end.

(** ** Events *)

Definition build_event_envelope (event_id : N) (event : WebhookEvent) : json :=
  JObj [("id", JStr (pretty event_id)); ("type", JStr (wev_event_type event));
        ("version", JInt (wev_version event));
        ("created_at", JStr (isoformat (wev_created_at event)));
        ("workspace_id", JStr (pretty (wev_workspace event)));
        ("data", wev_payload_snapshot event)].

Definition subscribed (workspace : N) (event_type : string) (_ : N) (e : WebhookEndpoint) : bool :=
  bool_decide (we_workspace e = workspace)
  && bool_decide (we_status e = WebhookEndpointStatus.ACTIVE)
  && str_in event_type (we_subscribed_event_types e).

Definition active_endpoints_subscribed_to (workspace : N) (event_type : string) (w : World)
    : list (N * WebhookEndpoint) := select_rows (subscribed workspace event_type) w.

(** [WebhookDelivery.objects.create]: one per delivery, one per endpoint and
    event. *)
Definition create_webhook_delivery (delivery : N) (row : WebhookDelivery) : service () :=
  taken ← gets (exists_row (λ i wd,
    bool_decide (i = delivery)
    || bool_decide (wd_endpoint wd = wd_endpoint row)
       && bool_decide (wd_event wd = wd_event row)));
  raise_if taken IntegrityError;;
  save_row delivery row.

Definition fan_out (workspace event : N) (endpoint : N * WebhookEndpoint) : service () :=
  delivery ← create_delivery workspace DeliveryChannel.WEBHOOK None None;
  catch
    (create_webhook_delivery delivery
       {| wd_workspace := workspace; wd_endpoint := endpoint.1; wd_event := event |})
    (λ e, match e with IntegrityError => mret () | e => raise e end).

Definition emit_event (workspace : N) (event_type : string) (data : json) (version : Z)
    : service N :=
  raise_if (negb (str_in event_type valid_event_types)) WebhookInvalidEventTypeError;;
  atomic (
    now ← get_now;
    event ← create_row {|
      wev_workspace := workspace; wev_event_type := event_type; wev_version := version;
      wev_payload_snapshot := data; wev_created_at := now |};
    endpoints ← gets (active_endpoints_subscribed_to workspace event_type);
    for_each endpoints (fan_out workspace event);;
    mret event).

(** ** Manual redrive *)

Definition redrive_webhook_delivery (workspace delivery_id actor : N) (wd : WebhookDelivery)
    : service () :=
  endpoint ← get_row (wd_endpoint wd);
  raise_if (negb (bool_decide (we_status endpoint = WebhookEndpointStatus.ACTIVE)))
    WebhookEndpointDisabledError;;
  atomic (
    locked ← get_row delivery_id;
    raise_if (negb (bool_decide (dlv_status locked = DeliveryStatus.FAILED)
                    || bool_decide (dlv_status locked = DeliveryStatus.DEAD)))
      WebhookDeliveryNotRedrivableError;;
    now ← get_now;
    save_row delivery_id (redriven_row locked now);;
    record_event "webhook_delivery.manually_redriven" "webhook_delivery" delivery_id
      (Some actor) (Some workspace) [("endpoint_id", id_json (wd_endpoint wd))];;
    dispatch_delivery_for_processing delivery_id).

(** ** The channel handler *)

(** The body of the [try]: one signed request to a validated address. *)
Definition send_attempt (delivery_id : N) (endpoint : WebhookEndpoint) (event_id : N)
    (event : WebhookEvent) : service Z :=
  secret ← of_sum (current_secret endpoint);
  parsed ← of_sum (parse_webhook_url (we_url endpoint));
  resolved ← gets (resolve_and_validate (pu_hostname parsed) (pu_port parsed));
  ip ← of_sum resolved;
  now ← get_now;
  let envelope := build_event_envelope event_id event in
  let signed := build_signed_request secret envelope (pretty event_id) (pretty delivery_id)
                  (now / 1000000)%Z in
  result ← gets (send_pinned_request
    {| rq_scheme := pu_scheme parsed; rq_ip := ip; rq_port := pu_port parsed;
       rq_hostname := pu_hostname parsed; rq_path_and_query := pu_path_and_query parsed;
       rq_headers := headers signed; rq_body := raw_body signed |});
  of_sum result.

Definition handle_webhook_delivery_attempt : DeliveryHandler := λ delivery_id delivery claim_token,
  let fail code retryable response :=
    complete_delivery_failure delivery_id claim_token code retryable None None response;;
    mret () in
  webhook_delivery ← find_row delivery_id;
  match webhook_delivery with
  | None => fail MISSING_WEBHOOK_DELIVERY_ERROR_CODE false None
  | Some webhook_delivery =>
      endpoint ← get_row (wd_endpoint webhook_delivery);
      event ← get_row (wd_event webhook_delivery);
      if negb (bool_decide (we_status endpoint = WebhookEndpointStatus.ACTIVE)) then
        fail "webhook_endpoint_disabled" false None
      else
        result ← attempt (send_attempt delivery_id endpoint (wd_event webhook_delivery) event);
        match result with
        | inl (WebhookExc code retryable) => fail code retryable None
        | inl _ => fail UNEXPECTED_ERROR_CODE false None
        | inr status_code =>
            if (200 <=? status_code)%Z && (status_code <=? 299)%Z then
              complete_delivery_success delivery_id claim_token None (Some status_code);;
              mret ()
            else
              let (retryable, safe_error_code) := classify_http_status status_code in
              fail safe_error_code retryable (Some status_code)
        end
  end.

(** ** The handler discharges the interface of [Delivery] *)

Lemma send_attempt_pure delivery_id endpoint event_id event w :
  (send_attempt delivery_id endpoint event_id event w).2 = w.
Proof.
  unfold send_attempt, of_sum, gets, get_now, mbind, M_bind.
  repeat (simpl; match goal with |- context [match ?x with _ => _ end] => destruct x end; try done).
Qed.

Lemma handle_webhook_delivery_attempt_included i d t :
  included delivery_rel (handle_webhook_delivery_attempt i d t).
Proof.
  unfold handle_webhook_delivery_attempt, get_row, send_attempt. included_steps.
Qed.

Lemma handle_webhook_delivery_attempt_keys i d t :
  included (keeps foreign_keys) (handle_webhook_delivery_attempt i d t).
Proof.
  unfold handle_webhook_delivery_attempt, get_row, send_attempt. included_steps.
Qed.

(** What the outcome of an attempt makes of the claimed row. *)
Definition settled_status (d : Delivery) (retryable : bool) : DeliveryStatus.t :=
  if retryable then
    if (dlv_attempt_count d <? dlv_max_attempts d)%Z then DeliveryStatus.RETRY_SCHEDULED
    else DeliveryStatus.FAILED
  else DeliveryStatus.DEAD.

Definition outcome_status (d : Delivery) (result : exn + Z) : DeliveryStatus.t :=
  match result with
  | inr status =>
      if (200 <=? status)%Z && (status <=? 299)%Z then DeliveryStatus.DELIVERED
      else settled_status d (classify_http_status status).1
  | inl (WebhookExc _ retryable) => settled_status d retryable
  | inl _ => DeliveryStatus.DEAD
  end.

Lemma failed_row_status d code retryable delay now :
  dlv_status (failed_row d code retryable delay now) = settled_status d retryable.
Proof.
  unfold failed_row, settled_status. destruct retryable; simpl; [|done]. by case_match.
Qed.

(** A run that returns normally and leaves the row completed with this status. *)
Definition settles_to (i : N) (d : Delivery) (status : DeliveryStatus.t)
    (run : (exn + ()) * World) : Prop :=
  run.1 = inr () ∧
  ∃ d', w_deliveries run.2 !! i = Some d' ∧ completion d d' ∧ dlv_status d' = status.

(** A completion followed by the handler's [return]. *)
Lemma failing_run i t d code retryable response w :
  deliveries_wf w → w_deliveries w !! i = Some d → active_claim d t = true →
  settles_to i d (settled_status d retryable)
    ((complete_delivery_failure i t code retryable None None response;; mret ()) w).
Proof.
  intros Hwf Hd Ht. unfold mbind, M_bind.
  destruct (complete_delivery_failure_run i t d code retryable None None response w Hwf Hd Ht)
    as (Hr & Hd' & Hc).
  destruct (complete_delivery_failure _ _ _ _ _ _ _ _) as [r w']. simpl in *. subst r. simpl.
  split; [done|]. eexists. split_and!; [done..|apply failed_row_status].
Qed.

Lemma succeeding_run i t d response w :
  deliveries_wf w → w_deliveries w !! i = Some d → active_claim d t = true →
  settles_to i d DeliveryStatus.DELIVERED
    ((complete_delivery_success i t None response;; mret ()) w).
Proof.
  intros Hwf Hd Ht. unfold mbind, M_bind.
  destruct (complete_delivery_success_run i t d None response w Hwf Hd Ht) as (Hr & Hd' & Hc).
  destruct (complete_delivery_success _ _ _ _ _) as [r w']. simpl in *. subst r. simpl.
  split; [done|]. by eexists.
Qed.

(** The status one attempt of delivery [i] leaves behind. *)
Definition attempt_status (i : N) (d : Delivery) (w : World) : DeliveryStatus.t :=
  match w_webhook_deliveries w !! i with
  | None => DeliveryStatus.DEAD
  | Some wd =>
      match w_webhook_endpoints w !! wd_endpoint wd, w_webhook_events w !! wd_event wd with
      | Some endpoint, Some event =>
          if bool_decide (we_status endpoint = WebhookEndpointStatus.ACTIVE)
          then outcome_status d (send_attempt i endpoint (wd_event wd) event w).1
          else DeliveryStatus.DEAD
      | _, _ => DeliveryStatus.DEAD
      end
  end.

Lemma webhook_attempt_run i d t w :
  deliveries_wf w → foreign_keys w → w_deliveries w !! i = Some d → active_claim d t = true →
  settles_to i d (attempt_status i d w) (handle_webhook_delivery_attempt i d t w).
Proof.
  intros Hwf Hfk Hd Ht. unfold handle_webhook_delivery_attempt, attempt_status.
  unfold find_row, get_row, gets. unfold mbind at 1, M_bind at 1. simpl.
  destruct (w_webhook_deliveries w !! i) as [wd|] eqn:Hwd; [|by apply failing_run].
  destruct (Hfk i wd Hwd) as [[endpoint Hep] [event Hev]].
  unfold find_row, gets. unfold mbind at 1, M_bind at 1. unfold mbind at 1, M_bind at 1. simpl.
  rewrite Hep. simpl. unfold mbind at 1, M_bind at 1. unfold mbind at 1, M_bind at 1. simpl.
  rewrite Hev. simpl.
  destruct (bool_decide _); simpl; [|by apply failing_run].
  unfold mbind at 1, M_bind at 1, attempt.
  pose proof (send_attempt_pure i endpoint (wd_event wd) event w) as Hpure.
  destruct (send_attempt i endpoint (wd_event wd) event w) as [r w0]. simpl in *. subst w0.
  destruct r as [e|status]; simpl.
  - destruct e; by apply failing_run.
  - destruct ((200 <=? status)%Z && (status <=? 299)%Z); [by apply succeeding_run|].
    destruct (classify_http_status status) as [retryable code]. by apply failing_run.
Qed.

#[export] Instance webhook_channel_handler : ChannelHandler handle_webhook_delivery_attempt.
Proof.
  split.
  - apply handle_webhook_delivery_attempt_included.
  - apply handle_webhook_delivery_attempt_keys.
  - intros i d t w Hwf Hfk Hd Ht.
    destruct (webhook_attempt_run i d t w Hwf Hfk Hd Ht) as (_ & d' & Hd' & Hc & _). eauto.
Qed.

(** ** One attempt *)

(** The outcome of the request of an attempt; [None] when no request is made. *)
Definition attempt_result (i : N) (w : World) : option (exn + Z) :=
  wd ← w_webhook_deliveries w !! i;
  endpoint ← w_webhook_endpoints w !! wd_endpoint wd;
  event ← w_webhook_events w !! wd_event wd;
  if bool_decide (we_status endpoint = WebhookEndpointStatus.ACTIVE)
  then Some (send_attempt i endpoint (wd_event wd) event w).1 else None.

Definition accepted (result : option (exn + Z)) : Prop :=
  ∃ status, result = Some (inr status) ∧ (200 <= status <= 299)%Z.

Definition worth_retrying (result : option (exn + Z)) : Prop :=
  (∃ status, result = Some (inr status) ∧
     (status ∈ RETRYABLE_4XX_STATUS_CODES ∨ (500 <= status <= 599)%Z)) ∨
  (∃ code, result = Some (inl (WebhookExc code true))).

#[local] Ltac dead :=
  do 3 right; split_and!; [by intros (? & [=] & ?)|by intros [(? & [=] & ?)|(? & [=])]|done].

Lemma attempt_status_cases i d w :
  let status := attempt_status i d w in
  let exhausted := (dlv_max_attempts d <= dlv_attempt_count d)%Z in
  (accepted (attempt_result i w) ∧ status = DeliveryStatus.DELIVERED) ∨
  (worth_retrying (attempt_result i w) ∧ ¬ exhausted ∧ status = DeliveryStatus.RETRY_SCHEDULED) ∨
  (worth_retrying (attempt_result i w) ∧ exhausted ∧ status = DeliveryStatus.FAILED) ∨
  (¬ accepted (attempt_result i w) ∧ ¬ worth_retrying (attempt_result i w) ∧
   status = DeliveryStatus.DEAD).
Proof.
  unfold attempt_status, attempt_result, accepted, worth_retrying.
  destruct (w_webhook_deliveries w !! i) as [wd|]; simpl; [|dead].
  destruct (w_webhook_endpoints w !! wd_endpoint wd) as [endpoint|]; simpl; [|dead].
  destruct (w_webhook_events w !! wd_event wd) as [event|]; simpl; [|dead].
  case_bool_decide; [|dead].
  destruct (send_attempt _ _ _ _ w).1 as [e|s]; simpl.
  - destruct e; try dead. destruct retryable; simpl; [|dead].
    destruct (Z.ltb_spec (dlv_attempt_count d) (dlv_max_attempts d));
      right; [left|right; left]; (split_and!; [by right; eexists|lia|done]).
  - destruct ((200 <=? s)%Z && (s <=? 299)%Z) eqn:H2.
    { left. split; [exists s; split; [done|lia]|done]. }
    assert (¬ (200 <= s <= 299)%Z) by lia.
    unfold classify_http_status, settled_status.
    destruct (bool_decide (s ∈ RETRYABLE_4XX_STATUS_CODES) || _) eqn:Hr; simpl.
    + assert (s ∈ RETRYABLE_4XX_STATUS_CODES ∨ (500 <= s <= 599)%Z).
      { apply orb_true_iff in Hr as [Hr%bool_decide_eq_true|Hr]; [by left|right; lia]. }
      destruct (Z.ltb_spec (dlv_attempt_count d) (dlv_max_attempts d));
        right; [left|right; left]; (split_and!; [left; by eexists|lia|done]).
    + apply orb_false_iff in Hr as [Hr1%bool_decide_eq_false Hr2].
      do 3 right. split_and!; [|intros [(s' & [= <-] & [?|?])|(c & [=])]|done];
        [intros (s' & [= <-] & ?); done|done|lia].
Qed.

(** One attempt of a webhook delivery by the worker that holds its claim always
    completes the claim, and what it leaves is decided by the request alone: a
    2xx answer delivers; a retryable failure (DNS, connection or timeout errors,
    408, 425, 429, 5xx) is rescheduled while attempts remain and fails the
    delivery after that; anything else, a redirect, a TLS failure, a blocked
    destination, a disabled endpoint or an unexpected exception, is never
    retried. *)
Theorem webhook_attempt_outcome i d t w :
  deliveries_wf w → foreign_keys w → w_deliveries w !! i = Some d → active_claim d t = true →
  ∃ w' d', handle_webhook_delivery_attempt i d t w = (inr (), w') ∧
    w_deliveries w' !! i = Some d' ∧ dlv_claim_token d' = None ∧
    dlv_attempt_count d' = dlv_attempt_count d ∧
    ((accepted (attempt_result i w) ∧ dlv_status d' = DeliveryStatus.DELIVERED) ∨
     (worth_retrying (attempt_result i w) ∧ (dlv_attempt_count d < dlv_max_attempts d)%Z ∧
        dlv_status d' = DeliveryStatus.RETRY_SCHEDULED) ∨
     (worth_retrying (attempt_result i w) ∧ (dlv_max_attempts d <= dlv_attempt_count d)%Z ∧
        dlv_status d' = DeliveryStatus.FAILED) ∨
     (¬ accepted (attempt_result i w) ∧ ¬ worth_retrying (attempt_result i w) ∧
        dlv_status d' = DeliveryStatus.DEAD)).
Proof.
  intros Hwf Hfk Hd Ht.
  destruct (webhook_attempt_run i d t w Hwf Hfk Hd Ht) as (Hr & d' & Hd' & Hc & Hs).
  destruct (handle_webhook_delivery_attempt i d t w) as [r w'] eqn:Hrun. simpl in *. subst r.
  exists w', d'. split; [done|]. split; [done|].
  assert (Hrel : releases d d').
  { destruct Hc as [now [->|(c & b & dl & ->)]];
      [apply delivered_releases|apply failed_releases]. }
  destruct Hrel as (Hcount & _ & _ & _ & _ & Htok & _). split; [done|]. split; [done|].
  rewrite Hs. destruct (attempt_status_cases i d w) as [?|[(?&?&?)|[(?&?&?)|?]]].
  - by left.
  - right; left. split_and!; [done|lia|done].
  - right; right; left. by split_and!.
  - right; right; right. done.
Qed.

(** ** Redrive *)

(** A redrive is accepted exactly for an exhausted delivery of an enabled
    endpoint.  It then grants further attempts without giving any used one back,
    schedules the delivery for now, hands it to the broker and is audited;
    otherwise nothing changes. *)
Theorem redrive_spec workspace id actor wd d w :
  (0 < WEBHOOKS_REDRIVE_ATTEMPT_ALLOWANCE)%Z →
  deliveries_wf w → w_deliveries w !! id = Some d →
  let run := redrive_webhook_delivery workspace id actor wd w in
  let open := ∃ endpoint, w_webhook_endpoints w !! wd_endpoint wd = Some endpoint ∧
                we_status endpoint = WebhookEndpointStatus.ACTIVE ∧
                (dlv_status d = DeliveryStatus.FAILED ∨ dlv_status d = DeliveryStatus.DEAD) in
  (run.1 = inr () ↔ open) ∧
  (run.1 ≠ inr () → run.2 = w) ∧
  (run.1 = inr () →
     deliveries_wf run.2 ∧
     w_published run.2 = w_published w ++ [process_delivery_task id] ∧
     length (w_audit run.2) = S (length (w_audit w)) ∧
     ∃ d', w_deliveries run.2 !! id = Some d' ∧ delivery_step d d' ∧
       claimable due_eligible (w_now w) d' = true ∧
       dlv_attempt_count d' = dlv_attempt_count d).
Proof.
  intros Hallow Hwf Hd run open. unfold run, open. clear run open.
  unfold redrive_webhook_delivery, get_row, find_row, gets, atomic, raise_if, mbind, M_bind. simpl.
  destruct (w_webhook_endpoints w !! wd_endpoint wd) as [endpoint|]; simpl;
    [|split_and!; [split; [done|by intros (? & ? & _)]|done|done]].
  case_bool_decide as Hact; simpl; 
    [|split_and!; [split; [done|by intros (? & [= <-] & ? & _)]|done|done]].
  rewrite Hd. simpl.
  destruct (bool_decide (dlv_status d = DeliveryStatus.FAILED)
            || bool_decide (dlv_status d = DeliveryStatus.DEAD)) eqn:Hst; simpl.
  2: { split_and!; [split; [done|]|done|done].
       apply orb_false_iff in Hst as [H1%bool_decide_eq_false H2%bool_decide_eq_false].
       intros (? & ? & ? & [?|?]); done. }
  assert (Hs : dlv_status d = DeliveryStatus.FAILED ∨ dlv_status d = DeliveryStatus.DEAD).
  { apply orb_true_iff in Hst. by rewrite !bool_decide_eq_true in Hst. }
  destruct (wf_delivery _ _ _ Hwf id d Hd) as [[Hc Hm Hcl _] Hid].
  split_and!; [split; [eauto|done]|done|]. intros _. split_and!; [|done|by rewrite length_app, Nat.add_comm|].
  - apply (reopen_wf w id d); [done|done|by destruct Hs as [-> | ->]| |done|done].
    split; simpl; [lia|lia| |intros _; lia]. unfold claim_fields_consistent in *. simpl.
    rewrite decide_False in Hcl by (destruct Hs; congruence). exact Hcl.
  - exists (redriven_row d (w_now w)). rewrite lookup_insert_eq. split_and!; [done| | |done].
    + by apply step_redriven.
    + unfold claimable, due_eligible. simpl. rewrite Z.leb_refl. simpl. apply Z.ltb_lt. lia.
Qed.

(** ** Fan-out *)

(** No row is stored under an identifier that has not been handed out. *)
Definition keys_fresh (w : World) : Prop :=
  ∀ i, (w_next w <= i)%N →
    w_deliveries w !! i = None ∧ w_webhook_deliveries w !! i = None.

Definition new_delivery (workspace : N) (now : Z) : Delivery :=
  {| dlv_workspace := workspace; dlv_channel := DeliveryChannel.WEBHOOK;
     dlv_status := DeliveryStatus.PENDING; dlv_attempt_count := 0;
     dlv_max_attempts := DELIVERY_DEFAULT_MAX_ATTEMPTS; dlv_next_attempt_at := now;
     dlv_claimed_at := None; dlv_lease_expires_at := None; dlv_claim_token := None;
     dlv_first_attempt_at := None; dlv_delivered_at := None; dlv_failed_at := None;
     dlv_last_error_code := "" |}.

Definition fan_world (workspace event endpoint : N) (w : World) : World :=
  {| w with
     w_next := N.succ (w_next w);
     w_deliveries := <[w_next w := new_delivery workspace (w_now w)]> (w_deliveries w);
     w_published := w_published w ++ [process_delivery_task (w_next w)];
     w_webhook_deliveries :=
       <[w_next w := {| wd_workspace := workspace; wd_endpoint := endpoint; wd_event := event |}]>
         (w_webhook_deliveries w) |}.

Lemma fan_out_run workspace event e row w :
  (0 < DELIVERY_DEFAULT_MAX_ATTEMPTS)%Z → keys_fresh w →
  (∀ i wd, w_webhook_deliveries w !! i = Some wd → wd_event wd = event → wd_endpoint wd ≠ e) →
  fan_out workspace event (e, row) w = (inr (), fan_world workspace event e w).
Proof.
  intros Hmax Hfresh Hnew. unfold fan_out, create_delivery, atomic, raise_if, mbind, M_bind.
  simpl. rewrite (proj2 (Z.leb_gt _ _)) by done. simpl.
  unfold catch, create_webhook_delivery, gets, raise_if, mbind, M_bind.
  assert (Hex : ∀ w0, w_webhook_deliveries w0 = w_webhook_deliveries w →
    exists_row (λ i wd, bool_decide (i = w_next w)
      || bool_decide (wd_endpoint wd = e) && bool_decide (wd_event wd = event)) w0 = false).
  { intros w0 Hw0. apply exists_row_false. intros i wd Hi. simpl in Hi. rewrite Hw0 in Hi.
    apply orb_false_iff. split; [|apply andb_false_iff].
    - apply bool_decide_eq_false. intros ->. destruct (Hfresh (w_next w)) as [_ Hn]; [lia|].
      congruence.
    - rewrite !bool_decide_eq_false. destruct (decide (wd_event wd = event)); [|by right].
      left. by eapply Hnew. }
  cbn [wd_endpoint wd_event]. by rewrite Hex.
Qed.

Lemma fan_world_fresh workspace event e w :
  keys_fresh w → keys_fresh (fan_world workspace event e w).
Proof.
  intros Hf i. simpl. intros Hi. rewrite !lookup_insert_ne by lia. apply Hf. lia.
Qed.

Lemma fan_out_all workspace event l w :
  (0 < DELIVERY_DEFAULT_MAX_ATTEMPTS)%Z → keys_fresh w → NoDup l.*1 →
  (∀ i wd, w_webhook_deliveries w !! i = Some wd → wd_event wd = event →
     wd_endpoint wd ∉ l.*1) →
  ∃ w', for_each l (fan_out workspace event) w = (inr (), w') ∧
    w_webhook_events w' = w_webhook_events w ∧
    w_webhook_endpoints w' = w_webhook_endpoints w ∧
    w_published w' = w_published w ++
      map (λ k, process_delivery_task (w_next w + N.of_nat k)%N) (seq 0 (length l)) ∧
    (∀ i, (i < w_next w)%N → w_deliveries w' !! i = w_deliveries w !! i ∧
                             w_webhook_deliveries w' !! i = w_webhook_deliveries w !! i) ∧
    (∀ k e row, l !! k = Some (e, row) →
       w_deliveries w' !! (w_next w + N.of_nat k)%N = Some (new_delivery workspace (w_now w)) ∧
       w_webhook_deliveries w' !! (w_next w + N.of_nat k)%N
         = Some {| wd_workspace := workspace; wd_endpoint := e; wd_event := event |}) ∧
    (∀ i, (w_next w + N.of_nat (length l) <= i)%N → w_webhook_deliveries w' !! i = None).
Proof.
  intros Hmax. revert w. induction l as [|[e row] l IH]; intros w Hf Hnd Hnew.
  { exists w. split_and!; try done; [by rewrite app_nil_r|].
    intros i Hi. apply Hf. simpl in Hi. lia. }
  simpl in Hnd. apply NoDup_cons in Hnd as [He Hnd].
  simpl. unfold mbind, M_bind. rewrite fan_out_run; [|done|done|].
  2: { intros i wd Hi Hev Heq. apply (Hnew i wd Hi Hev). simpl. rewrite Heq. left. }
  destruct (IH (fan_world workspace event e w)) as (w' & Hrun & Hevs & Heps & Hpub & Hold & Hrows & Hnone);
    [by apply fan_world_fresh|done| |].
  { intros i wd. simpl. intros [[_ <-]|[_ Hi]]%lookup_insert_Some Hev; [done|].
    intros Hin. apply (Hnew i wd Hi Hev). simpl. by right. }
  exists w'. split; [exact Hrun|]. split; [done|]. split; [done|]. simpl in *. split_and!.
  - rewrite Hpub, <-app_assoc. f_equal. simpl. rewrite N.add_0_r. f_equal.
    rewrite <-seq_shift, map_map. apply map_ext. intros k. f_equal. lia.
  - intros i Hi. destruct (Hold i) as [-> ->]; [lia|]. by rewrite !lookup_insert_ne by lia.
  - intros [|k] e0 row0 Hk; simpl in Hk.
    + simplify_eq. simpl. rewrite N.add_0_r. destruct (Hold (w_next w)) as [-> ->]; [lia|].
      by rewrite !lookup_insert_eq.
    + replace (w_next w + N.of_nat (S k))%N with (N.succ (w_next w) + N.of_nat k)%N by lia.
      by eapply Hrows.
  - intros i Hi. apply Hnone. lia.
Qed.

(** The rows of the event are the new ones. *)
Lemma fan_out_rows workspace event (l : list (N * WebhookEndpoint)) w w' :
  (∀ i, (i < w_next w)%N → w_deliveries w' !! i = w_deliveries w !! i ∧
                           w_webhook_deliveries w' !! i = w_webhook_deliveries w !! i) →
  (∀ k e row, l !! k = Some (e, row) →
     w_deliveries w' !! (w_next w + N.of_nat k)%N = Some (new_delivery workspace (w_now w)) ∧
     w_webhook_deliveries w' !! (w_next w + N.of_nat k)%N
       = Some {| wd_workspace := workspace; wd_endpoint := e; wd_event := event |}) →
  (∀ i, (w_next w + N.of_nat (length l) <= i)%N → w_webhook_deliveries w' !! i = None) →
  ∀ i wd, (∀ i wd, w_webhook_deliveries w !! i = Some wd → wd_event wd ≠ event) →
    w_webhook_deliveries w' !! i = Some wd → wd_event wd = event →
    ∃ k e row, l !! k = Some (e, row) ∧ i = (w_next w + N.of_nat k)%N ∧
      wd = {| wd_workspace := workspace; wd_endpoint := e; wd_event := event |}.
Proof.
  intros Hold Hrows Hnone i wd Hne Hi Hev.
  destruct (N.lt_ge_cases i (w_next w)) as [Hlt|Hge].
  { destruct (Hold i Hlt) as [_ Heq]. rewrite Heq in Hi. by apply Hne in Hi. }
  destruct (N.lt_ge_cases i (w_next w + N.of_nat (length l))) as [Hlt|Hge'].
  2: { by rewrite Hnone in Hi. }
  destruct (l !! N.to_nat (i - w_next w)) as [[e row]|] eqn:Hk.
  2: { apply lookup_ge_None in Hk. lia. }
  exists (N.to_nat (i - w_next w)), e, row. split; [done|].
  destruct (Hrows _ _ _ Hk) as [_ Hwd].
  replace (w_next w + N.of_nat (N.to_nat (i - w_next w)))%N with i in Hwd by lia.
  split; [lia|congruence].
Qed.

Lemma emit_event_run workspace event_type data version w :
  (0 < DELIVERY_DEFAULT_MAX_ATTEMPTS)%Z → keys_fresh w →
  (∀ i wd, w_webhook_deliveries w !! i = Some wd → (wd_event wd < w_next w)%N) →
  str_in event_type valid_event_types = true →
  ∃ event w', emit_event workspace event_type data version w = (inr event, w') ∧
    w_webhook_events w' !! event = Some {| wev_workspace := workspace;
      wev_event_type := event_type; wev_version := version; wev_payload_snapshot := data;
      wev_created_at := w_now w |} ∧
    (∀ e, (∃ i wd, w_webhook_deliveries w' !! i = Some wd ∧ wd_event wd = event ∧
                   wd_endpoint wd = e) ↔
          ∃ row, w_webhook_endpoints w !! e = Some row ∧
                 subscribed workspace event_type e row = true) ∧
    (∀ i j wd wd', w_webhook_deliveries w' !! i = Some wd → wd_event wd = event →
       w_webhook_deliveries w' !! j = Some wd' → wd_event wd' = event →
       wd_endpoint wd = wd_endpoint wd' → i = j) ∧
    (∀ i wd, w_webhook_deliveries w' !! i = Some wd → wd_event wd = event →
       w_deliveries w' !! i = Some (new_delivery workspace (w_now w)) ∧
       process_delivery_task i ∈ w_published w') ∧
    (∀ i, (i < w_next w)%N → w_deliveries w' !! i = w_deliveries w !! i ∧
                             w_webhook_deliveries w' !! i = w_webhook_deliveries w !! i).
Proof.
  intros Hmax Hf Hev Htype. unfold emit_event, raise_if, atomic, gets, get_now, mbind, M_bind.
  rewrite Htype. simpl.
  set (w1 := {| w with w_next := _; w_webhook_events := _ |}).
  set (l := active_endpoints_subscribed_to workspace event_type w1).
  destruct (fan_out_all workspace (w_next w) l w1) as
    (w' & Hrun & Hevs & Heps & Hpub & Hold & Hrows & Hnone); [done| | | |].
  { intros i. simpl. intros Hi. apply Hf. lia. }
  { apply select_rows_nodup. }
  { intros i wd Hi Heq. apply Hev in Hi. simpl in Hi. lia. }
  rewrite Hrun. exists (w_next w), w'. split; [done|].
  pose proof (fan_out_rows workspace (w_next w) l w1 w' Hold Hrows Hnone) as Hinv.
  assert (Hold' : ∀ i wd, w_webhook_deliveries w1 !! i = Some wd → wd_event wd ≠ w_next w).
  { intros i wd Hi. apply Hev in Hi. lia. }
  split_and!.
  - rewrite Hevs. simpl. by rewrite lookup_insert_eq.
  - intros e.  split.
    + intros (i & wd & Hi & Hwev & <-).
      destruct (Hinv i wd Hold' Hi Hwev) as (k & e & row & Hk & _ & ->).
      apply list_elem_of_lookup_2, in_select_rows in Hk. simpl in *. eauto.
    + intros (row & Hrow & Hsub).
      assert ((e, row) ∈ l) as [k Hk]%list_elem_of_lookup by by apply in_select_rows.
      destruct (Hrows k e row Hk) as [_ Hwd]. by eexists _, _.
  - intros i j wd wd' Hi Hwev Hj Hwev' Heq.
    destruct (Hinv i wd Hold' Hi Hwev) as (k & e & row & Hk & -> & ->).
    destruct (Hinv j wd' Hold' Hj Hwev') as (k' & e' & row' & Hk' & -> & ->).
    simpl in Heq. subst e'. assert (k = k') as ->; [|done].
    eapply (NoDup_lookup l.*1); [apply select_rows_nodup|..];
      by rewrite list_lookup_fmap, ?Hk, ?Hk'.
  - intros i wd Hi Hwev. destruct (Hinv i wd Hold' Hi Hwev) as (k & e & row & Hk & -> & ->).
    destruct (Hrows k e row Hk) as [Hd _]. split; [done|]. rewrite Hpub.
    apply elem_of_app. right. apply list_elem_of_In, in_map_iff. exists k. split; [done|].
    apply in_seq. apply lookup_lt_Some in Hk. lia.
  - intros i Hi. apply (Hold i). simpl. lia.
Qed.

(** C19. Emitting an event stores it and creates, for every enabled endpoint of the
    workspace subscribed to its type, exactly one delivery of that event: due
    now, unattempted and handed to the broker; no other endpoint gets one, and
    no other row changes. *)
Theorem emit_event_fans_out workspace event_type data version w :
  (0 < DELIVERY_DEFAULT_MAX_ATTEMPTS)%Z → keys_fresh w →
  (∀ i wd, w_webhook_deliveries w !! i = Some wd → (wd_event wd < w_next w)%N) →
  str_in event_type valid_event_types = true →
  ∃ event w', emit_event workspace event_type data version w = (inr event, w') ∧
    w_webhook_events w' !! event = Some {| wev_workspace := workspace;
      wev_event_type := event_type; wev_version := version; wev_payload_snapshot := data;
      wev_created_at := w_now w |} ∧
    (∀ e, (∃ i wd, w_webhook_deliveries w' !! i = Some wd ∧ wd_event wd = event ∧
                   wd_endpoint wd = e) ↔
          ∃ row, w_webhook_endpoints w !! e = Some row ∧
                 subscribed workspace event_type e row = true) ∧
    (∀ i j wd wd', w_webhook_deliveries w' !! i = Some wd → wd_event wd = event →
       w_webhook_deliveries w' !! j = Some wd' → wd_event wd' = event →
       wd_endpoint wd = wd_endpoint wd' → i = j) ∧
    (∀ i wd, w_webhook_deliveries w' !! i = Some wd → wd_event wd = event →
       w_deliveries w' !! i = Some (new_delivery workspace (w_now w)) ∧
       process_delivery_task i ∈ w_published w') ∧
    (∀ i, (i < w_next w)%N → w_deliveries w' !! i = w_deliveries w !! i ∧
                             w_webhook_deliveries w' !! i = w_webhook_deliveries w !! i).
Proof. apply emit_event_run. Qed.

(** ** What an event leaves alone *)

(** Emitting an event only adds webhook rows, deliveries and published
    deliveries. *)
Definition webhook_effect (w w' : World) : Prop :=
  ∃ n e d x ids, (w_next w <= n)%N ∧
    w' = {| w with w_next := n; w_webhook_events := e; w_deliveries := d;
                   w_webhook_deliveries := x;
                   w_published := w_published w ++ map process_delivery_task ids |}.

Lemma webhook_effect_refl w : webhook_effect w w.
Proof.
  exists (w_next w), (w_webhook_events w), (w_deliveries w), (w_webhook_deliveries w), [].
  split; [lia|]. simpl. rewrite app_nil_r. by destruct w.
Qed.

#[export] Instance webhook_effect_preorder : PreOrder webhook_effect.
Proof.
  split; [intros w; apply webhook_effect_refl|].
  intros w w1 w2 (n & e & d & x & ids & Hn & ->) (n' & e' & d' & x' & ids' & Hn' & ->).
  simpl in *. exists n', e', d', x', (ids ++ ids'). split; [lia|].
  by rewrite map_app, app_assoc.
Qed.

Lemma create_delivery_effect workspace channel max_attempts now :
  included webhook_effect (create_delivery workspace channel max_attempts now).
Proof.
  apply included_bind; [apply _|apply or_now_included, _|]. intros t w.
  unfold atomic, raise_if, mbind, M_bind. simpl.
  destruct (Z.leb_spec (default DELIVERY_DEFAULT_MAX_ATTEMPTS max_attempts) 0); simpl;
    [apply webhook_effect_refl|].
  eexists _, (w_webhook_events w), _, (w_webhook_deliveries w), [w_next w].
  split; [|reflexivity]. simpl. lia.
Qed.

Lemma emit_event_effect workspace event_type data version :
  included webhook_effect (emit_event workspace event_type data version).
Proof.
  assert (Hsave : ∀ i (r : WebhookDelivery), included webhook_effect (save_row i r)).
  { intros i r w. eexists (w_next w), (w_webhook_events w), (w_deliveries w), _, [].
    split; [lia|]. simpl. rewrite app_nil_r. by destruct w. }
  assert (Hcreate : ∀ r : WebhookEvent, included webhook_effect (create_row r)).
  { intros r w. eexists _, _, (w_deliveries w), (w_webhook_deliveries w), [].
    split; [|simpl; rewrite app_nil_r; by destruct w]. lia. }
  pose proof create_delivery_effect as Hdelivery.
  unfold emit_event, fan_out, create_webhook_delivery, get_now.
  included_steps; auto.
Qed.

(** Every identifier stored in the webhook tables has been handed out. *)
Definition webhooks_fresh (w : World) : Prop :=
  keys_fresh w ∧
  ∀ i wd, w_webhook_deliveries w !! i = Some wd → (wd_event wd < w_next w)%N.

Lemma fan_out_fresh workspace event endpoint :
  included (keeps (λ w, webhooks_fresh w ∧ (event < w_next w)%N)) (fan_out workspace event endpoint).
Proof.
  intros w [[Hf Hev] He]. unfold fan_out, create_delivery, atomic, raise_if, mbind, M_bind.
  simpl. destruct (_ <=? 0)%Z; simpl; [done|].
  unfold catch, create_webhook_delivery, gets, raise_if, mbind, M_bind.
  destruct (exists_row _ _); simpl; (split; [|lia]); split.
  - intros i. simpl. intros Hi. rewrite lookup_insert_ne by lia. apply Hf. lia.
  - intros i wd Hi. simpl in *. apply Hev in Hi. lia.
  - intros i. simpl. intros Hi. rewrite !lookup_insert_ne by lia. apply Hf. lia.
  - intros i wd. simpl. intros [[_ <-]|[_ Hi]]%lookup_insert_Some; simpl; [lia|].
    apply Hev in Hi. lia.
Qed.

Lemma emit_event_fresh workspace event_type data version :
  included (keeps webhooks_fresh) (emit_event workspace event_type data version).
Proof.
  intros w [Hf Hev].
  change (wp (emit_event workspace event_type data version) (λ _, webhooks_fresh) w).
  unfold emit_event. svc_steps; [done|]. apply (wp_for_each _ _
    (λ w1, webhooks_fresh w1 ∧ (w_next w < w_next w1)%N)).
  - split; [split|simpl; lia].
    + intros i. simpl. intros Hi. apply Hf. lia.
    + intros i wd Hi. simpl in *. apply Hev in Hi. lia.
  - intros ep w1 _ Hw1. by apply fan_out_fresh.
  - intros [e|[]] w' [Hw' _]; wp_beta; [by split|]. svc_steps. done.
Qed.

(** With valid settings an event of a known type is always stored. *)
Lemma emit_event_succeeds workspace event_type data version w :
  (0 < DELIVERY_DEFAULT_MAX_ATTEMPTS)%Z → webhooks_fresh w →
  str_in event_type valid_event_types = true →
  ∃ event w', emit_event workspace event_type data version w = (inr event, w') ∧
              webhook_effect w w' ∧ webhooks_fresh w'.
Proof.
  intros Hmax Hfresh Ht. destruct Hfresh as [Hf Hev] eqn:Hw.
  destruct (emit_event_run workspace event_type data version w Hmax Hf Hev Ht)
    as (event & w' & Hrun & _).
  exists event, w'. split; [done|].
  pose proof (emit_event_effect workspace event_type data version w) as He.
  pose proof (emit_event_fresh workspace event_type data version w Hfresh) as Hk.
  by rewrite Hrun in He, Hk.
Qed.

Lemma wp_emit_event workspace event_type data version (Q : exn + N → World → Prop) w :
  (0 < DELIVERY_DEFAULT_MAX_ATTEMPTS)%Z → webhooks_fresh w →
  str_in event_type valid_event_types = true →
  (∀ event w', webhook_effect w w' → webhooks_fresh w' → Q (inr event) w') →
  wp (emit_event workspace event_type data version) Q w.
Proof.
  intros Hmax Hf Ht HQ. unfold wp.
  destruct (emit_event_succeeds workspace event_type data version w Hmax Hf Ht)
    as (event & w' & -> & He & Hk). by apply HQ.
Qed.

End Webhooks.

(** ** Concrete instances *)

Module WebhookExamples.
#[local] Existing Instance default_settings.
#[local] Instance net : Network := example_network 503.

Definition endpoint : WebhookEndpoint :=
  {| we_workspace := 7; we_name := "hook"; we_url := "https://hooks.example/x";
     we_status := WebhookEndpointStatus.ACTIVE;
     we_subscribed_event_types := ["handoff.created"];
     we_encrypted_signing_secret := "k"; we_secret_created_at := None |}.

(** A workspace with one subscribed endpoint, before and after an event. *)
Definition configured : World :=
  {| empty_world with w_webhook_endpoints := {[ 3%N := endpoint ]}; w_next := 10 |}.
Definition emitted : World :=
  (emit_event 7 "handoff.created" (JObj []) 1 configured).2.

Lemma emit_event_fans_out_witness :
  ∃ event w', emit_event 7 "handoff.created" (JObj []) 1 configured = (inr event, w') ∧
    ∃ i wd, w_webhook_deliveries w' !! i = Some wd ∧ wd_event wd = event ∧ wd_endpoint wd = 3%N.
Proof.
  destruct (emit_event_fans_out 7 "handoff.created" (JObj []) 1 configured)
    as (event & w' & Hrun & _ & Hall & _); [reflexivity| | |reflexivity|].
  - intros i _. split; reflexivity.
  - intros i wd Hi. discriminate Hi.
  - exists event, w'. split; [exact Hrun|]. apply Hall. exists endpoint.
    split; reflexivity.
Defined.

(** The emitted delivery claimed by a worker. *)
Definition claimed_world : World := (claim_delivery 11 None None emitted).2.

Lemma emitted_wf : deliveries_wf emitted.
Proof.
  assert (Hinc : included delivery_rel (emit_event 7 "handoff.created" (JObj []) 1)).
  { unfold emit_event, fan_out, create_webhook_delivery, raise_if. simpl. included_steps. }
  apply (Hinc configured). split; intros; done.
Qed.

Lemma claimed_world_wf : deliveries_wf claimed_world.
Proof. apply (claim_delivery_included 11 None None emitted), emitted_wf. Qed.

Lemma claimed_world_keys : foreign_keys claimed_world.
Proof.
  intros i wd Hi. change (w_webhook_deliveries claimed_world)
    with ({[ 11%N := {| wd_workspace := 7; wd_endpoint := 3; wd_event := 10 |} ]}
            : gmap N WebhookDelivery) in Hi.
  apply lookup_singleton_Some in Hi as [<- <-]. split; eexists; reflexivity.
Qed.

Definition claimed_delivery : Delivery :=
  claimed_row (new_delivery 7 1000000000) 12 1000000000 300.

Lemma webhook_attempt_outcome_witness :
  ∃ w' d', handle_webhook_delivery_attempt 11%N claimed_delivery 12%N claimed_world = (inr (), w') ∧
    w_deliveries w' !! 11%N = Some d' ∧ dlv_claim_token d' = None.
Proof.
  destruct (webhook_attempt_outcome 11 claimed_delivery 12 claimed_world claimed_world_wf
              claimed_world_keys eq_refl eq_refl) as (w' & d' & Hrun & Hd & Ht & _).
  exists w', d'. split; [exact Hrun|split; [exact Hd|exact Ht]].
Defined.

Example server_error_is_retried :
  dlv_status <$> w_deliveries (handle_webhook_delivery_attempt 11%N claimed_delivery 12%N
                                 claimed_world).2 !! 11%N
  = Some DeliveryStatus.RETRY_SCHEDULED.
Proof. vm_compute. reflexivity. Qed.

(** A delivery that ended dead, redriven. *)
Definition dead : World :=
  (complete_delivery_failure 11 12 "webhook_tls_error" false None None None claimed_world).2.

Lemma dead_wf : deliveries_wf dead.
Proof.
  apply (complete_delivery_failure_included 11 12 "webhook_tls_error" false None None None
           claimed_world), claimed_world_wf.
Qed.

Lemma redrive_spec_witness :
  let wd := {| wd_workspace := 7; wd_endpoint := 3; wd_event := 10 |} in
  (redrive_webhook_delivery 7 11 1 wd dead).1 = inr () ∧
  deliveries_wf (redrive_webhook_delivery 7 11 1 wd dead).2.
Proof.
  intros wd.
  assert (H0 : (0 < WEBHOOKS_REDRIVE_ATTEMPT_ALLOWANCE)%Z) by reflexivity.
  destruct (redrive_spec 7 11 1 wd
    (failed_row claimed_delivery "webhook_tls_error" false None 1000000000) dead H0 dead_wf eq_refl)
    as (_ & _ & Hok).
  assert (Hr : (redrive_webhook_delivery 7 11 1 wd dead).1 = inr ()) by reflexivity.
  split; [exact Hr|]. apply (Hok Hr).
Defined.
End WebhookExamples.
