(* ===== verification/Notifications.v ===== *)
(** * Notifications

    [notifications/notification_delivery.py]: the durable counterpart of the
    [notification.send] tool, and the notification channel's handler, which
    discharges the interface of [Delivery]. *)

From stdpp Require Import base gmap strings list pretty relations.
From Stdlib Require Import ZArith Lia.
From S2P Require Import Prelude Json Domain Policy Models Store Delivery Network Schemas Adapters Integrations.

Section Notifications.
Context `{Settings} `{PyLib} `{Network} `{Pydantic} `{Vendors}.

Definition UNEXPECTED_ERROR_CODE : string := "notification_delivery_unexpected_error".
Definition MISSING_SNAPSHOT_ERROR_CODE : string := "notification_delivery_missing".

(** One notification per source tool execution: the row is keyed by the
    execution. *)
Definition create_or_reuse_notification_delivery (tool_execution workspace : N)
    (recipient_email subject body : string) : service NotificationDelivery :=
  existing ← find_row tool_execution;
  match existing with
  | Some existing => mret existing
  | None =>
      delivery ← create_delivery workspace DeliveryChannel.NOTIFICATION None None;
      (* the check constraint [notification_delivery_recipient_not_blank] *)
      raise_if (String.eqb recipient_email "") IntegrityError;;
      let row :=
        {| nd_delivery := delivery; nd_recipient_email := recipient_email;
           nd_subject := subject; nd_body := body;
           nd_idempotency_key := "notification.send:" +:+ pretty tool_execution;
           nd_provider_message_id := "" |} in
      save_row tool_execution row;;
      mret row
  end.

Definition of_delivery (delivery_id : N) (_ : N) (nd : NotificationDelivery) : bool :=
  bool_decide (nd_delivery nd = delivery_id).

Definition handle_notification_delivery_attempt : DeliveryHandler :=
  λ delivery_id delivery claim_token,
  let fail code retryable :=
    complete_delivery_failure delivery_id claim_token code retryable None None None;;
    mret () in
  notification_delivery ← first_row (of_delivery delivery_id);
  match notification_delivery with
  | None => fail MISSING_SNAPSHOT_ERROR_CODE false
  | Some (pk, nd) =>
      r ← attempt (send_notification (dlv_workspace delivery) INTEGRATIONS_MAX_TIMEOUT_SECONDS
                     (nd_recipient_email nd) (nd_subject nd) (nd_body nd) (nd_idempotency_key nd));
      match r with
      | inl (IntegrationExc cls _) => fail (IntegrationErr.code cls) (IntegrationErr.retryable cls)
      | inl _ => fail UNEXPECTED_ERROR_CODE false
      | inr message =>
          when (negb (String.eqb (nn_message_id message) ""))
            (update_rows (λ i _, bool_decide (i = pk))
               (λ row, {| row with nd_provider_message_id := nn_message_id message |}));;
          complete_delivery_success delivery_id claim_token None None;;
          mret ()
      end
  end.

(** ** The interface of [Delivery] *)

Lemma update_notification_included P f :
  included delivery_rel (update_rows (A:=NotificationDelivery) P f).
Proof. intros w. apply delivery_rel_frame; simpl; (reflexivity || lia). Qed.

(** A provider call leaves the deliveries alone. *)
Lemma frame_delivery_rel ws w w' : integration_frame ws w w' → delivery_rel w w'.
Proof. intros (m & n & -> & Hn & _). apply delivery_rel_frame; simpl; (reflexivity || done). Qed.
Lemma frame_deliveries_wf ws w w' : integration_frame ws w w' → deliveries_wf w → deliveries_wf w'.
Proof. intros Hf Hwf. by apply (frame_delivery_rel _ _ _ Hf). Qed.

Lemma frame_keys ws w w' : integration_frame ws w w' → keeps foreign_keys w w'.
Proof. intros (connections & k & -> & _). by unfold keeps, foreign_keys. Qed.

Lemma send_included R ws t a b c d :
  (∀ w w', integration_frame ws w w' → R w w') → included R (send_notification ws t a b c d).
Proof. intros HR w. apply HR, business_operations_framed. Qed.

Lemma handle_notification_included i d t :
  included delivery_rel (handle_notification_delivery_attempt i d t).
Proof.
  unfold handle_notification_delivery_attempt, first_row. included_steps.
  eapply send_included, frame_delivery_rel.
Qed.

Lemma handle_notification_keys i d t :
  included (keeps foreign_keys) (handle_notification_delivery_attempt i d t).
Proof.
  unfold handle_notification_delivery_attempt, first_row. included_steps.
  eapply send_included, frame_keys.
Qed.

Lemma failure_settles i t d code retryable w :
  deliveries_wf w → w_deliveries w !! i = Some d → active_claim d t = true →
  ∃ d', w_deliveries ((complete_delivery_failure i t code retryable None None None;;
                       mret ()) w).2 !! i = Some d' ∧ completion d d'.
Proof.
  intros Hwf Hd Ht. unfold mbind, M_bind.
  destruct (complete_delivery_failure_run i t d code retryable None None None w Hwf Hd Ht)
    as (Hr & Hd' & Hc).
  destruct (complete_delivery_failure _ _ _ _ _ _ _ _) as [r w']. simpl in *. subst r. eauto.
Qed.

Lemma success_settles i t d w :
  deliveries_wf w → w_deliveries w !! i = Some d → active_claim d t = true →
  ∃ d', w_deliveries ((complete_delivery_success i t None None;; mret ()) w).2 !! i = Some d' ∧
        completion d d'.
Proof.
  intros Hwf Hd Ht. unfold mbind, M_bind.
  destruct (complete_delivery_success_run i t d None None w Hwf Hd Ht) as (Hr & Hd' & Hc).
  destruct (complete_delivery_success _ _ _ _ _) as [r w']. simpl in *. subst r. eauto.
Qed.

#[export] Instance notification_channel_handler :
  ChannelHandler handle_notification_delivery_attempt.
Proof.
  split.
  - apply handle_notification_included.
  - apply handle_notification_keys.
  - intros i d t w Hwf _ Hd Ht. unfold handle_notification_delivery_attempt, first_row, gets.
    unfold mbind at 1, M_bind at 1.
    destruct (head (select_rows (of_delivery i) w)) as [[pk nd]|]; [|by apply failure_settles].
    unfold mbind at 1, M_bind at 1, attempt.
    pose proof (send_included (integration_frame (dlv_workspace d)) (dlv_workspace d) INTEGRATIONS_MAX_TIMEOUT_SECONDS
      (nd_recipient_email nd) (nd_subject nd) (nd_body nd) (nd_idempotency_key nd) (λ _ _ Hf, Hf) w) as Hf.
    destruct (send_notification _ _ _ _ _ _ w) as [r w1]. simpl in Hf.
    apply (frame_deliveries_wf _ _ _ Hf) in Hwf as Hwf1. destruct Hf as (m & n & -> & Hn & _).
    destruct r as [e|message].
    + destruct e; by apply failure_settles.
    + unfold mbind at 1, M_bind at 1, when.
      destruct (negb _); by apply success_settles.
Qed.

(** A tool execution sends at most one notification: however often its handler
    runs, with whatever content, the first snapshot is returned unchanged, no
    second delivery is created and nothing is handed to the broker again. *)
Theorem notification_created_once tool_execution workspace r1 s1 b1 r2 s2 b2 nd w w1 :
  create_or_reuse_notification_delivery tool_execution workspace r1 s1 b1 w = (inr nd, w1) →
  create_or_reuse_notification_delivery tool_execution workspace r2 s2 b2 w1 = (inr nd, w1).
Proof.
  intros Hrun.
  assert (Hrow : w_notification_deliveries w1 !! tool_execution = Some nd).
  { revert Hrun. unfold create_or_reuse_notification_delivery, find_row, gets, mbind, M_bind.
    simpl. destruct (w_notification_deliveries w !! tool_execution) as [e|] eqn:He.
    { by intros [= -> ->]. }
    destruct (create_delivery _ _ _ _ w) as [[e|i] w0]; [done|].
    unfold raise_if. destruct (String.eqb r1 ""); [done|].
    unfold save_row, modify. intros [= <- <-]. simpl. by rewrite lookup_insert_eq. }
  unfold create_or_reuse_notification_delivery, find_row, gets, mbind, M_bind. simpl.
  by rewrite Hrow.
Qed.

End Notifications.

Module NotificationExamples.
#[local] Existing Instance default_settings.

Lemma notification_created_once_witness :
  ∃ nd w1, create_or_reuse_notification_delivery 5 7 "a@b.c" "s" "b" empty_world = (inr nd, w1) ∧
    create_or_reuse_notification_delivery 5 7 "x@y.z" "t" "u" w1 = (inr nd, w1).
Proof.
  assert (Hrun : ∃ nd w1, create_or_reuse_notification_delivery 5 7 "a@b.c" "s" "b" empty_world
                          = (inr nd, w1)) by (vm_compute; eauto).
  destruct Hrun as (nd & w1 & Hrun). exists nd, w1. split; [exact Hrun|].
  exact (notification_created_once 5 7 "a@b.c" "s" "b" "x@y.z" "t" "u" nd empty_world w1 Hrun).
Defined.
End NotificationExamples.
