(* ===== verification/Approvals.v ===== *)
(** * Human approvals

    [approvals/services.py]: the request a policy gate creates, the decision of a
    human, expiry and cancellation.  A service that must commit what it found
    before it reports an error returns the error from its transaction and raises
    it afterwards, as the code does. *)

From stdpp Require Import base gmap strings list pretty sorting relations.
From Stdlib Require Import ZArith Lia.
From S2P Require Import Prelude Json Domain Policy Models Store Delivery Network Webhooks.

Section Approvals.
Context `{Settings} `{PyLib} `{Network}.

(** ** Authority *)

(** [_APPROVAL_ROLE_RANK.get(role, default)]. *)
Definition APPROVAL_ROLE_RANK (role : string) (default : nat) : nat :=
  if String.eqb role "support_manager" then 1
  else if String.eqb role "admin" then 2
  else if String.eqb role "owner" then 3
  else default.

Definition role_satisfies_requirement (actor_role required_role : string) : bool :=
  (APPROVAL_ROLE_RANK required_role 99 <=? APPROVAL_ROLE_RANK actor_role 0)%nat.

(** ** Creation *)

Definition MAX_SUMMARY_ARGUMENT_CHARS : nat := 300.

Definition name_le (x y : string * json) : Prop := String.leb x.1 y.1 = true.
#[local] Instance name_le_dec x y : Decision (name_le x y).
Proof. unfold name_le. apply _. Defined.

Fixpoint join (sep : string) (l : list string) : string :=
  match l with
  | [] => ""
  | [x] => x
  | x :: l => x +:+ sep +:+ join sep l
  end.

Definition build_summary (tool_key : string) (arguments : list (string * json)) : string :=
  let parts := map (λ kv, kv.1 +:+ "=" +:+ py_str kv.2) (merge_sort name_le arguments) in
  let body := str_take MAX_SUMMARY_ARGUMENT_CHARS (join ", " parts) in
  str_take 500 (tool_key +:+ ": " +:+ body).

Definition for_execution (execution_id : N) (_ : N) (a : ApprovalRequest) : bool :=
  bool_decide (ar_tool_execution a = execution_id).

Definition create_or_reuse_approval_request (execution_id : N) (execution : ToolExecution)
    (requested_by : option N) (evaluation : PolicyEvaluation) (risk : RiskAssessment)
    (required_role : string) (ttl_seconds : Z) (canonical_arguments : list (string * json))
    (spec : ToolSpec) : service N :=
  existing ← first_row (for_execution execution_id);
  match existing with
  | Some (approval, _) => mret approval
  | None =>
      let safe_arguments :=
        Redaction.redact_fields (input_sensitive_fields spec) canonical_arguments in
      let summary := build_summary (ts_key spec) safe_arguments in
      let safe_context :=
        JObj [("tool_key", JStr (ts_key spec));
              ("tool_display_name", JStr (ts_display_name spec));
              ("risk_level", JStr (RiskLevel.value (ra_effective_risk risk)));
              ("side_effect_type", JStr (SideEffectType.value (ra_side_effect_type risk)));
              ("policy_reason", JStr (pe_safe_reason evaluation));
              ("arguments", JObj safe_arguments)] in
      atomic (
        now ← get_now;
        let expires_at := (now + seconds ttl_seconds)%Z in
        (* the check constraint [approval_expires_after_created] *)
        raise_if (expires_at <=? now)%Z IntegrityError;;
        approval ← create_row {|
          ar_workspace := te_workspace execution; ar_tool_execution := execution_id;
          ar_status := ApprovalStatus.PENDING; ar_requested_by := requested_by;
          ar_required_role := required_role; ar_summary := summary;
          ar_safe_context := safe_context;
          ar_arguments_fingerprint := te_arguments_fingerprint execution;
          ar_expires_at := expires_at; ar_resolved_at := None |};
        record_event "approval.requested" "approval_request" approval requested_by
          (Some (te_workspace execution))
          [("approval_request_id", id_json approval);
           ("tool_execution_id", id_json execution_id);
           ("tool_key", JStr (ts_key spec)); ("required_role", JStr required_role)];;
        emit_event (te_workspace execution) "approval.requested"
          (JObj [("approval_id", id_json approval); ("tool_key", JStr (ts_key spec));
                 ("risk_level", JStr (RiskLevel.value (ra_effective_risk risk)));
                 ("required_role", JStr required_role); ("summary", JStr summary);
                 ("expires_at", JStr (isoformat expires_at))]) 1;;
        mret approval)
  end.

(** ** Resolution *)

Definition dispatch_resume (approval_id : N) : service () :=
  publish (resume_approved_action_task approval_id).

Definition waiting_execution (execution_id : N) (i : N) (te : ToolExecution) : bool :=
  bool_decide (i = execution_id)
  && bool_decide (te_status te = ToolExecutionStatus.WAITING_FOR_APPROVAL).

Definition terminated_execution (error_code error_message : string) (now : Z)
    (te : ToolExecution) : ToolExecution :=
  {| te with te_status := ToolExecutionStatus.APPROVAL_TERMINATED;
             te_error_code := error_code; te_error_message_safe := error_message;
             te_completed_at := Some now |}.

Definition terminate_execution (approval : ApprovalRequest) (error_code error_message : string)
    : service () :=
  now ← get_now;
  update_rows (waiting_execution (ar_tool_execution approval))
    (terminated_execution error_code error_message now).

Definition emit_expired_event (approval_id : N) (locked : ApprovalRequest) (resolved_at : Z)
    : service () :=
  emit_event (ar_workspace locked) "approval.expired"
    (JObj [("approval_id", id_json approval_id);
           ("required_role", JStr (ar_required_role locked));
           ("expired_at", JStr (isoformat resolved_at))]) 1;;
  mret ().

Definition resolved (a : ApprovalRequest) (status : ApprovalStatus.t) (now : Z)
    : ApprovalRequest :=
  {| a with ar_status := status; ar_resolved_at := Some now |}.

(** The transition both expiry paths perform. *)
Definition expire (approval_id : N) (locked : ApprovalRequest) : service () :=
  now ← get_now;
  let locked := resolved locked ApprovalStatus.EXPIRED now in
  save_row approval_id locked;;
  terminate_execution locked "approval_expired" "The approval request expired.";;
  record_event "approval.expired" "approval_request" approval_id None
    (Some (ar_workspace locked)) [("approval_request_id", id_json approval_id)];;
  emit_expired_event approval_id locked now;;
  dispatch_resume approval_id.

Definition expire_if_stale (approval_id : N) (locked : ApprovalRequest) : service bool :=
  now ← get_now;
  if negb (bool_decide (ar_status locked = ApprovalStatus.PENDING)) then mret false
  else if (now <? ar_expires_at locked)%Z then mret false
  else expire approval_id locked;; mret true.

(** [ApprovalDecision.objects.create]: one per request. *)
Definition create_decision (approval_id : N) (row : ApprovalDecision) : service () :=
  taken ← gets (λ w : World, bool_decide (is_Some (w_approval_decisions w !! approval_id)));
  raise_if taken IntegrityError;;
  save_row approval_id row.

Definition decided_status (decision : ApprovalDecisionValue.t) : ApprovalStatus.t :=
  match decision with
  | ApprovalDecisionValue.APPROVE => ApprovalStatus.APPROVED
  | ApprovalDecisionValue.REJECT => ApprovalStatus.REJECTED
  end.

(** What a recorded decision does. *)
Definition apply_decision (workspace approval_id : N) (locked : ApprovalRequest) (actor : N)
    (decision : ApprovalDecisionValue.t) : service () :=
  now ← get_now;
  let locked := resolved locked (decided_status decision) now in
  let event := match decision with
               | ApprovalDecisionValue.APPROVE => "approval.approved"
               | ApprovalDecisionValue.REJECT => "approval.rejected" end in
  save_row approval_id locked;;
  record_event event "approval_request" approval_id (Some actor) (Some workspace)
    [("approval_request_id", id_json approval_id)];;
  emit_event workspace event
    (JObj [("approval_id", id_json approval_id);
           ("required_role", JStr (ar_required_role locked));
           ("decided_at", JStr (isoformat now))]) 1;;
  when (bool_decide (decision = ApprovalDecisionValue.REJECT))
    (terminate_execution locked "approval_rejected" "This action was rejected.");;
  dispatch_resume approval_id.

(** The body of the transaction: the error to raise once it has committed. *)
Definition decide_locked (workspace approval_id actor : N) (actor_role : string)
    (decision : ApprovalDecisionValue.t) (comment : string) : service (option ApprovalErr.t) :=
  locked ← get_row approval_id;
  stale ← expire_if_stale approval_id locked;
  if (stale : bool) then mret (Some ApprovalErr.Expired)
  else match ar_status locked with
  | ApprovalStatus.EXPIRED => mret (Some ApprovalErr.Expired)
  | ApprovalStatus.CANCELLED => mret (Some ApprovalErr.Cancelled)
  | ApprovalStatus.APPROVED | ApprovalStatus.REJECTED =>
      if bool_decide (ar_status locked = decided_status decision) then mret None
      else mret (Some ApprovalErr.AlreadyResolved)
  | ApprovalStatus.PENDING =>
      if bool_decide (ar_requested_by locked = Some actor) then
        mret (Some ApprovalErr.SelfApprovalForbidden)
      else if negb (role_satisfies_requirement actor_role (ar_required_role locked)) then
        mret (Some ApprovalErr.PermissionDenied)
      else
        pending_error ← catch
          (atomic (create_decision approval_id
             {| ad_decision := decision; ad_decided_by := actor;
                ad_safe_comment := str_take 1000 comment |});;
           mret None)
          (λ e, match e with
                | IntegrityError => mret (Some ApprovalErr.AlreadyResolved)
                | e => raise e
                end);
        match pending_error with
        | Some e => mret (Some e)
        | None => apply_decision workspace approval_id locked actor decision;; mret None
        end
  end.

Definition decide_approval (workspace approval_id actor : N) (actor_role : string)
    (decision : ApprovalDecisionValue.t) (comment : string) : service () :=
  pending_error ← atomic (decide_locked workspace approval_id actor actor_role decision comment);
  match pending_error with
  | Some e => raise (ApprovalExc e)
  | None => mret ()
  end.

(** ** Sweep and cancellation *)

Definition stale_pending (now : Z) (_ : N) (a : ApprovalRequest) : bool :=
  bool_decide (ar_status a = ApprovalStatus.PENDING) && (ar_expires_at a <=? now)%Z.

(** One round of the sweep. *)
Definition expire_round (approval_id : N) : service bool :=
  atomic (
    locked ← get_row approval_id;
    clock ← get_now;
    if negb (bool_decide (ar_status locked = ApprovalStatus.PENDING))
       || (clock <? ar_expires_at locked)%Z
    then mret false
    else expire approval_id locked;; mret true).

Fixpoint expire_each (ids : list N) (count : nat) : service nat :=
  match ids with
  | [] => mret count
  | approval_id :: ids =>
      done ← expire_round approval_id;
      expire_each ids (if (done : bool) then S count else count)
  end.

Definition expire_stale_approvals (now : option Z) : service nat :=
  now ← or_now now;
  stale ← gets (select_rows (stale_pending now));
  expire_each (map fst stale) 0.

Definition cancel_approval_for_execution (execution_id : N) (reason : string) : service () :=
  atomic (
    approval ← first_row (for_execution execution_id);
    match approval with
    | None => mret ()
    | Some (approval_id, approval) =>
        if negb (bool_decide (ar_status approval = ApprovalStatus.PENDING)) then mret ()
        else
          now ← get_now;
          save_row approval_id (resolved approval ApprovalStatus.CANCELLED now);;
          record_event "approval.cancelled" "approval_request" approval_id None
            (Some (ar_workspace approval))
            [("approval_request_id", id_json approval_id); ("reason", JStr reason)]
    end).

(** ** What resolving a request writes *)

(** The tool executions once the one waiting for the request is terminated. *)
Definition terminate_map (a : ApprovalRequest) (code message : string) (now : Z)
    (m : gmap N ToolExecution) : gmap N ToolExecution :=
  map_imap (λ i te, Some (if waiting_execution (ar_tool_execution a) i te
                          then terminated_execution code message now te else te)) m.

(** A resolution without a decision: the request row, the waiting execution, the
    audit trail and the broker. *)
Record resolution (id : N) (a : ApprovalRequest) (status : ApprovalStatus.t)
    (executions : gmap N ToolExecution) (decisions : gmap N ApprovalDecision) (w w' : World)
    : Prop := {
  res_approvals : w_approvals w' = <[id := resolved a status (w_now w)]> (w_approvals w);
  res_executions : w_tool_executions w' = executions;
  res_decisions : w_approval_decisions w' = decisions;
  res_runs : w_agent_runs w' = w_agent_runs w;
  res_audit : ∃ e, w_audit w' = w_audit w ++ [e];
  res_resume : ∃ ids, w_published w' =
    (w_published w ++ map process_delivery_task ids) ++ [resume_approved_action_task id];
  res_clock : w_now w' = w_now w ∧ (w_next w <= w_next w')%N;
  res_fresh : webhooks_fresh w';
}.

(** What an event in the middle of a transaction leaves alone. *)
Record event_frame (w w' : World) : Prop := {
  ef_approvals : w_approvals w' = w_approvals w;
  ef_executions : w_tool_executions w' = w_tool_executions w;
  ef_decisions : w_approval_decisions w' = w_approval_decisions w;
  ef_runs : w_agent_runs w' = w_agent_runs w;
  ef_audit : w_audit w' = w_audit w;
  ef_published : ∃ ids, w_published w' = w_published w ++ map process_delivery_task ids;
  ef_clock : w_now w' = w_now w ∧ (w_next w <= w_next w')%N;
}.

Lemma wp_emit_event_frame workspace event_type data version (Q : exn + N → World → Prop) w :
  (0 < DELIVERY_DEFAULT_MAX_ATTEMPTS)%Z → webhooks_fresh w →
  str_in event_type valid_event_types = true →
  (∀ event w', event_frame w w' → webhooks_fresh w' → Q (inr event) w') →
  wp (emit_event workspace event_type data version) Q w.
Proof.
  intros Hmax Hf Ht HQ. apply wp_emit_event; [done..|].
  intros event w' (n & e & d & x & ids & Hn & ->) Hf'. apply HQ; [|done]. split; simpl; eauto.
Qed.

Ltac approval_step :=
  match goal with
  | |- wp (emit_event _ _ _ _) _ _ =>
      apply wp_emit_event_frame; [assumption|try assumption|reflexivity|
        intros ? ? [] ?]
  | _ => svc_step
  end.
Ltac approval_steps := repeat approval_step.

(** The steps of a resolution, put together. *)
Ltac resolution_done :=
  split; [done|]; split; simpl in *; eauto;
  match goal with
  | Hp : ∃ ids, w_published _ = _ |- ∃ _, _ = _ => destruct Hp as [ids Hp]; exists ids; by rewrite Hp
  | Hx : w_tool_executions ?w = _, Hc : w_now ?w = _ ∧ _ |- map_imap _ (w_tool_executions ?w) = _ =>
      destruct Hc as [Hc _]; by rewrite Hx, Hc
  end.

Lemma expire_run id a w :
  (0 < DELIVERY_DEFAULT_MAX_ATTEMPTS)%Z → webhooks_fresh w →
  wp (expire id a)
    (λ r w', r = inr () ∧
       resolution id a ApprovalStatus.EXPIRED
         (terminate_map a "approval_expired" "The approval request expired." (w_now w)
            (w_tool_executions w))
         (w_approval_decisions w) w w') w.
Proof.
  intros Hmax Hf. unfold expire, terminate_execution, emit_expired_event, dispatch_resume.
  approval_steps. resolution_done.
Qed.

Definition recorded (actor : N) (decision : ApprovalDecisionValue.t) (comment : string)
    : ApprovalDecision :=
  {| ad_decision := decision; ad_decided_by := actor; ad_safe_comment := str_take 1000 comment |}.

(** The executions after a decision: a rejection terminates the waiting one. *)
Definition decided_executions (a : ApprovalRequest) (decision : ApprovalDecisionValue.t)
    (now : Z) (m : gmap N ToolExecution) : gmap N ToolExecution :=
  match decision with
  | ApprovalDecisionValue.APPROVE => m
  | ApprovalDecisionValue.REJECT =>
      terminate_map a "approval_rejected" "This action was rejected." now m
  end.

Lemma apply_decision_run workspace id a actor decision w :
  (0 < DELIVERY_DEFAULT_MAX_ATTEMPTS)%Z → webhooks_fresh w →
  wp (apply_decision workspace id a actor decision)
    (λ r w', r = inr () ∧
       resolution id a (decided_status decision)
         (decided_executions a decision (w_now w) (w_tool_executions w))
         (w_approval_decisions w) w w') w.
Proof.
  intros Hmax Hf. unfold apply_decision, terminate_execution, dispatch_resume.
  destruct decision; approval_steps; try discriminate; resolution_done.
Qed.

(** ** The decision protocol *)

(** What the protocol makes of a decision on a request. *)
Inductive verdict :=
  | Expire            (* the request is found stale *)
  | Refuse (e : ApprovalErr.t)
  | Replay            (* the same decision was made before *)
  | Record_decision.

Definition judge (a : ApprovalRequest) (now : Z) (actor : N) (actor_role : string)
    (decision : ApprovalDecisionValue.t) : verdict :=
  match ar_status a with
  | ApprovalStatus.PENDING =>
      if (ar_expires_at a <=? now)%Z then Expire
      else if bool_decide (ar_requested_by a = Some actor) then
        Refuse ApprovalErr.SelfApprovalForbidden
      else if role_satisfies_requirement actor_role (ar_required_role a) then Record_decision
      else Refuse ApprovalErr.PermissionDenied
  | ApprovalStatus.EXPIRED => Refuse ApprovalErr.Expired
  | ApprovalStatus.CANCELLED => Refuse ApprovalErr.Cancelled
  | s => if bool_decide (s = decided_status decision) then Replay
         else Refuse ApprovalErr.AlreadyResolved
  end.

(** A request has a decision exactly when it was approved or rejected, and the
    decision is the one its status shows; an execution has at most one request. *)
Definition approvals_wf (w : World) : Prop :=
  (∀ id a, w_approvals w !! id = Some a → (id < w_next w)%N ∧
    ∀ decision, ar_status a = decided_status decision ↔
      ∃ d, w_approval_decisions w !! id = Some d ∧ ad_decision d = decision) ∧
  (∀ id d, w_approval_decisions w !! id = Some d → is_Some (w_approvals w !! id)) ∧
  (∀ i j a b, w_approvals w !! i = Some a → w_approvals w !! j = Some b →
     ar_tool_execution a = ar_tool_execution b → i = j).

Lemma pending_undecided w id a :
  approvals_wf w → w_approvals w !! id = Some a →
  ar_status a ∉ [ApprovalStatus.APPROVED; ApprovalStatus.REJECTED] →
  w_approval_decisions w !! id = None.
Proof.
  intros [Hwf _] Ha Hs. destruct (w_approval_decisions w !! id) as [d|] eqn:Hd; [|done].
  destruct Hs. rewrite (proj2 (proj2 (Hwf id a Ha) (ad_decision d))) by eauto.
  destruct (ad_decision d); simpl; by mem_decide.
Qed.

Lemma wp_expire_if_stale id a (Q : exn + bool → World → Prop) w :
  (0 < DELIVERY_DEFAULT_MAX_ATTEMPTS)%Z → webhooks_fresh w →
  (if bool_decide (ar_status a = ApprovalStatus.PENDING) && (ar_expires_at a <=? w_now w)%Z
   then ∀ w', resolution id a ApprovalStatus.EXPIRED
          (terminate_map a "approval_expired" "The approval request expired." (w_now w)
             (w_tool_executions w)) (w_approval_decisions w) w w' → Q (inr true) w'
   else Q (inr false) w) →
  wp (expire_if_stale id a) Q w.
Proof.
  intros Hmax Hf HQ. unfold expire_if_stale. apply wp_bind, wp_get_now. wp_beta.
  destruct (bool_decide (ar_status a = ApprovalStatus.PENDING)); simpl in *; [|by apply wp_ret].
  rewrite Z.leb_antisym in HQ. destruct (w_now w <? ar_expires_at a)%Z; simpl in *;
    [by apply wp_ret|].
  apply wp_bind. eapply wp_mono; [by apply expire_run|]. intros r w' [-> Hres]. wp_beta.
  by apply wp_ret, HQ.
Qed.

(** The abstract view of the transaction of [decide_approval]: its result and
    the world it commits. *)
Definition decided (id : N) (a : ApprovalRequest) (actor : N) (actor_role : string)
    (decision : ApprovalDecisionValue.t) (comment : string) (w : World)
    (r : option ApprovalErr.t) (w' : World) : Prop :=
  match judge a (w_now w) actor actor_role decision with
  | Expire =>
      r = Some ApprovalErr.Expired ∧
      resolution id a ApprovalStatus.EXPIRED
        (terminate_map a "approval_expired" "The approval request expired." (w_now w)
           (w_tool_executions w)) (w_approval_decisions w) w w'
  | Refuse e => r = Some e ∧ w' = w
  | Replay => r = None ∧ w' = w
  | Record_decision =>
      r = None ∧
      resolution id a (decided_status decision)
        (decided_executions a decision (w_now w) (w_tool_executions w))
        (<[id := recorded actor decision comment]> (w_approval_decisions w)) w w'
  end.

Lemma wp_create_decision id row (Q : exn + () → World → Prop) w :
  w_approval_decisions w !! id = None →
  Q (inr ()) {| w with w_approval_decisions := <[id := row]> (w_approval_decisions w) |} →
  wp (create_decision id row) Q w.
Proof.
  intros Hnone HQ. unfold create_decision. apply wp_bind, wp_gets. wp_beta.
  rewrite Hnone. exact HQ.
Qed.

Lemma decide_locked_run workspace id a actor actor_role decision comment w :
  (0 < DELIVERY_DEFAULT_MAX_ATTEMPTS)%Z → webhooks_fresh w → approvals_wf w →
  w_approvals w !! id = Some a →
  wp (decide_locked workspace id actor actor_role decision comment)
    (λ r w', ∃ o, r = inr o ∧ decided id a actor actor_role decision comment w o w') w.
Proof.
  intros Hmax Hf Hwf Ha. unfold decide_locked, decided, judge.
  apply wp_bind, wp_get_row. unfold rows. simpl. rewrite Ha. wp_beta.
  apply wp_bind, wp_expire_if_stale; [done..|].
  destruct (ar_status a) eqn:Hs; simpl; wp_beta;
    try (apply wp_ret; eauto; fail); try (case_bool_decide; apply wp_ret; eauto; fail).
  destruct (ar_expires_at a <=? w_now w)%Z; [intros w' Hres|]; wp_beta; [by apply wp_ret; eauto|].
  case_bool_decide; [apply wp_ret; eauto|].
  destruct (role_satisfies_requirement _ _); simpl; [|apply wp_ret; eauto].
  apply wp_bind, wp_catch, wp_bind, wp_atomic, wp_create_decision.
  { apply (pending_undecided w id a Hwf Ha). rewrite Hs. by absurd_mem. }
  do 2 wp_beta. apply wp_ret. do 2 wp_beta. apply wp_bind.
  eapply wp_mono; [by apply apply_decision_run|]. intros r w' [-> Hres]. wp_beta.
  apply wp_ret. eexists. split; [done|]. split; [done|].
  destruct Hres. by split.
Qed.

(** C18. The protocol of [decide_approval], the abstract view of its transaction: a
    stale request expires and its waiting execution is terminated, even though
    the caller gets an error; a refused decision changes nothing; repeating a
    decision changes nothing; an accepted one records who decided what, resolves
    the request, terminates the execution when it is a rejection and leaves it
    waiting when it is an approval, and hands the continuation to the broker
    exactly once. *)
Theorem decide_approval_spec workspace id a actor actor_role decision comment w :
  (0 < DELIVERY_DEFAULT_MAX_ATTEMPTS)%Z → webhooks_fresh w → approvals_wf w →
  w_approvals w !! id = Some a →
  ∃ o w', decided id a actor actor_role decision comment w o w' ∧
    decide_approval workspace id actor actor_role decision comment w =
      (match o with Some e => inl (ApprovalExc e) | None => inr () end, w').
Proof.
  intros Hmax Hf Hwf Ha.
  pose proof (decide_locked_run workspace id a actor actor_role decision comment w
                Hmax Hf Hwf Ha) as Hrun.
  unfold wp in Hrun. unfold decide_approval, atomic, mbind, M_bind.
  destruct (decide_locked _ _ _ _ _ _ w) as [r w']. simpl in Hrun.
  destruct Hrun as (o & -> & Hd). exists o, w'. split; [done|]. by destruct o.
Qed.

(** ** The life cycle *)

(** What any operation may do to a request: nothing, or resolve it once. *)
Definition approval_step (a a' : ApprovalRequest) : Prop :=
  a' = a ∨
  ar_status a = ApprovalStatus.PENDING ∧
  ∃ status t, status ∈ APPROVAL_TERMINAL_STATUSES ∧ a' = resolved a status t.

Definition approvals_ok (w : World) : Prop := approvals_wf w ∧ webhooks_fresh w.

Definition approval_rel (w w' : World) : Prop :=
  approvals_ok w → approvals_ok w' ∧
  ∀ id a, w_approvals w !! id = Some a →
    ∃ a', w_approvals w' !! id = Some a' ∧ approval_step a a'.

#[export] Instance approval_rel_preorder : PreOrder approval_rel.
Proof.
  split.
  - intros w Hok. split; [done|]. intros id a Ha. exists a. split; [done|by left].
  - intros w1 w2 w3 H12 H23 Hok. destruct (H12 Hok) as [Hok2 Hs12].
    destruct (H23 Hok2) as [Hok3 Hs23]. split; [done|]. intros id a Ha.
    destruct (Hs12 id a Ha) as (a2 & Ha2 & Hst). destruct (Hs23 id a2 Ha2) as (a3 & Ha3 & Hst').
    exists a3. split; [done|]. destruct Hst as [->|(Hp & st & t & Hst & ->)]; [done|].
    right. destruct Hst' as [->|(Hp' & _)]; [by eauto|]. simpl in Hp'. subst st. by revert Hst; absurd_mem.
Qed.

(** The decisions table once a pending request got [status]. *)
Definition decides (id : N) (status : ApprovalStatus.t) (m m' : gmap N ApprovalDecision) : Prop :=
  m' = m ∧ status ∈ [ApprovalStatus.EXPIRED; ApprovalStatus.CANCELLED] ∨
  ∃ d, m' = <[id := d]> m ∧ status = decided_status (ad_decision d).

Lemma decided_status_terminal d : decided_status d ∈ APPROVAL_TERMINAL_STATUSES.
Proof. destruct d; simpl; by mem_decide. Qed.

Lemma decided_status_inj d d' : decided_status d = decided_status d' → d = d'.
Proof. by destruct d, d'. Qed.

(** Resolving a pending request is a step of the life cycle. *)
Lemma resolve_rel id a status t w w' :
  w_approvals w !! id = Some a → ar_status a = ApprovalStatus.PENDING →
  w_approvals w' = <[id := resolved a status t]> (w_approvals w) →
  decides id status (w_approval_decisions w) (w_approval_decisions w') →
  (w_next w <= w_next w')%N → (webhooks_fresh w → webhooks_fresh w') →
  approval_rel w w'.
Proof.
  intros Ha Hp Heq Hdec Hnext Hfr [Hwf Hf].
  assert (Hund : w_approval_decisions w !! id = None).
  { apply (pending_undecided w id a); [done..|]. rewrite Hp. by absurd_mem. }
  destruct Hwf as (Hwf & Hhas & Huniq). split; [split; [split_and!|by apply Hfr]|].
  - intros i b. rewrite Heq. intros [[<- <-]|[Hi Hb]]%lookup_insert_Some.
    + destruct (Hwf id a Ha) as [Hlt _]. split; [lia|]. intros decision. simpl.
      destruct Hdec as [[-> Hst]|(d & -> & ->)].
      * split; [intros ->; destruct decision; revert Hst; absurd_mem|].
        intros (d & Hd & _). congruence.
      * rewrite lookup_insert_eq. split; [intros Hd%decided_status_inj; eauto|].
        by intros (? & [= <-] & ->).
    + destruct (Hwf i b Hb) as [Hlt Hiff]. split; [lia|]. intros decision. rewrite Hiff.
      destruct Hdec as [[-> _]|(d & -> & _)]; [done|]. by rewrite lookup_insert_ne.
  - intros i d Hd. rewrite Heq. destruct (decide (i = id)) as [->|Hne];
      [by rewrite lookup_insert_eq|]. rewrite lookup_insert_ne by done.
    destruct Hdec as [[Hm _]|(d' & Hm & _)]; rewrite Hm in Hd; [by eauto|].
    rewrite lookup_insert_ne in Hd by done. by eauto.
  - assert (Hback : ∀ i b, w_approvals w' !! i = Some b → ∃ b0, w_approvals w !! i = Some b0 ∧
      ar_tool_execution b0 = ar_tool_execution b).
    { intros i b. rewrite Heq. intros [[<- <-]|[_ Hb]]%lookup_insert_Some; eauto. }
    intros i j b c Hb Hc He. destruct (Hback i b Hb) as (b0 & Hb0 & ?).
    destruct (Hback j c Hc) as (c0 & Hc0 & ?). apply (Huniq i j b0 c0); congruence.
  - intros i b Hb. rewrite Heq. destruct (decide (i = id)) as [->|Hne].
    + rewrite lookup_insert_eq. eexists. split; [done|]. assert (b = a) as -> by congruence.
      right. split; [done|]. exists status, t. split; [|done].
      destruct Hdec as [[_ Hst]|(d & _ & ->)]; [|apply decided_status_terminal].
      rewrite elem_of_cons, list_elem_of_singleton in Hst.
      destruct Hst as [-> | ->]; by mem_decide.
    + rewrite lookup_insert_ne by done. exists b. split; [done|by left].
Qed.

Lemma included_when_ok {A} (m : service A) :
  (∀ w, approvals_ok w → wp m (λ _ w', approval_rel w w') w) → included approval_rel m.
Proof. intros Hm w Hok. by apply (Hm w Hok). Qed.

Lemma resolution_rel id a status executions decisions w w' :
  w_approvals w !! id = Some a → ar_status a = ApprovalStatus.PENDING →
  decides id status (w_approval_decisions w) decisions →
  resolution id a status executions decisions w w' → approval_rel w w'.
Proof.
  intros Ha Hp Hdec []. apply (resolve_rel id a status (w_now w)); try done; [congruence|].
  by destruct res_clock0.
Qed.

Context (Hmax : (0 < DELIVERY_DEFAULT_MAX_ATTEMPTS)%Z).

Lemma decided_rel id a actor actor_role decision comment w o w' :
  w_approvals w !! id = Some a →
  decided id a actor actor_role decision comment w o w' → approval_rel w w'.
Proof.
  intros Ha. unfold decided. destruct (judge _ _ _ _ _) eqn:Hj.
  2,3: by intros [_ ->].
  all: assert (ar_status a = ApprovalStatus.PENDING) as Hp by
    (revert Hj; unfold judge; destruct (ar_status a), decision; simpl; by repeat case_match).
  - intros [_ Hres]. eapply resolution_rel; [done..| |done]. left. split; [done|]. by mem_decide.
  - intros [_ Hres]. eapply resolution_rel; [done..| |done]. right. by eexists.
Qed.

Lemma decide_approval_included workspace id actor actor_role decision comment :
  included approval_rel (decide_approval workspace id actor actor_role decision comment).
Proof.
  apply included_when_ok. intros w [Hwf Hf]. destruct (w_approvals w !! id) as [a|] eqn:Ha.
  - pose proof (decide_locked_run workspace id a actor actor_role decision comment w Hmax Hf Hwf Ha)
      as Hrun.
    unfold decide_approval. apply wp_bind, wp_atomic. eapply wp_mono; [exact Hrun|].
    intros r w' (o & -> & Hd). simpl. apply (decided_rel _ _ _ _ _ _ _ _ _ Ha) in Hd.
    by destruct o.
  - unfold decide_approval, decide_locked. apply wp_bind, wp_atomic, wp_bind, wp_get_row.
    unfold rows. simpl. by rewrite Ha.
Qed.

Lemma expire_round_run id w :
  webhooks_fresh w →
  wp (expire_round id) (λ r w', match w_approvals w !! id with
    | None => r = inl DoesNotExist ∧ w' = w
    | Some a =>
        if stale_pending (w_now w) id a then
          r = inr true ∧ resolution id a ApprovalStatus.EXPIRED
            (terminate_map a "approval_expired" "The approval request expired." (w_now w)
               (w_tool_executions w)) (w_approval_decisions w) w w'
        else r = inr false ∧ w' = w
    end) w.
Proof.
  intros Hf. apply wp_atomic, wp_bind, wp_get_row. unfold rows. simpl.
  destruct (w_approvals w !! id) as [a|] eqn:Ha; [|done]. wp_beta. apply wp_bind, wp_get_now.
  wp_beta. unfold stale_pending. rewrite Z.leb_antisym.
  destruct (bool_decide (ar_status a = ApprovalStatus.PENDING)); simpl; [|done].
  destruct (w_now w <? ar_expires_at a)%Z; simpl; [done|].
  apply wp_bind. eapply wp_mono; [by apply expire_run|]. intros r w' [-> Hres]. wp_beta.
  apply wp_ret. by split.
Qed.

Lemma expire_round_included id : included approval_rel (expire_round id).
Proof.
  apply included_when_ok. intros w [Hwf Hf]. eapply wp_mono; [by apply expire_round_run|].
  intros r w'. simpl. destruct (w_approvals w !! id) as [a|] eqn:Ha; [|by intros [_ ->]].
  destruct (stale_pending (w_now w) id a) eqn:Hs; [|by intros [_ ->]]. intros [_ Hres].
  apply andb_true_iff in Hs as [Hp%bool_decide_eq_true _].
  eapply resolution_rel; [done..| |done]. left. split; [done|]. by mem_decide.
Qed.

Lemma expire_each_included ids count : included approval_rel (expire_each ids count).
Proof.
  revert count. induction ids as [|id ids IH]; intros count; simpl.
  - apply included_ret, _.
  - apply included_bind; [apply _|apply expire_round_included|]. intros done. apply IH.
Qed.

Lemma cancel_approval_included execution reason :
  included approval_rel (cancel_approval_for_execution execution reason).
Proof.
  apply included_when_ok. intros w [Hwf Hf]. unfold cancel_approval_for_execution.
  svc_steps; try done. apply first_row_some in Heqo as [Ha _].
  apply negb_false_iff, bool_decide_eq_true in Heqb.
  apply (resolve_rel n a ApprovalStatus.CANCELLED (w_now w)); try done.
  left. split; [done|]. by mem_decide.
Qed.

Lemma create_approval_included execution_id execution requested_by evaluation risk required_role
    ttl_seconds arguments spec :
  included approval_rel (create_or_reuse_approval_request execution_id execution requested_by
    evaluation risk required_role ttl_seconds arguments spec).
Proof.
  apply included_when_ok. intros w [Hwf Hf]. unfold create_or_reuse_approval_request.
  approval_steps; try done.
  { destruct Hf as [Hk Hev]. split.
    - intros i. simpl. intros Hi. apply Hk. lia.
    - intros i wd Hi. apply Hev in Hi. simpl. lia. }
  intros _. destruct Hwf as (Hwf & Hhas & Huniq).
  rewrite first_row_none in Heqo. unfold rows, for_execution in Heqo. simpl in *.
  assert (Hnone : w_approvals w !! w_next w = None).
  { destruct (w_approvals w !! w_next w) eqn:Ha; [|done]. apply Hwf in Ha as [? _]. lia. }
  match goal with H : w_now _ = _ ∧ _ |- _ => destruct H as [_ Hnext] end.
  split; [split; [|done]|]; unfold approvals_wf; rewrite ?ef_approvals0, ?ef_decisions0; simpl in *;
    [split_and!|].
  - intros i a. intros [[<- <-]|[Hi Ha]]%lookup_insert_Some; simpl.
    + split; [lia|]. intros decision. split; [by destruct decision|].
      intros (d & Hd & _). apply Hhas in Hd as [? ?]. congruence.
    + destruct (Hwf i a Ha). split; [lia|done].
  - intros i d Hd. destruct (Hhas i d Hd) as [a Ha]. rewrite lookup_insert_is_Some'. by right.
  - intros i j a b. intros [[<- <-]|[Hi Ha]]%lookup_insert_Some [[<- <-]|[Hj Hb]]%lookup_insert_Some;
      simpl; intros He; [done|..|by eapply Huniq].
    + apply Heqo in Hb. apply bool_decide_eq_false in Hb. congruence.
    + apply Heqo in Ha. apply bool_decide_eq_false in Ha. congruence.
  - intros i a Ha. exists a. rewrite lookup_insert_ne by congruence. split; [done|by left].
Qed.

(** ** The theorems *)

(** The operations of the service, with any arguments. *)
Inductive approval_op : World → World → Prop :=
  | Op_create execution_id execution requested_by evaluation risk role ttl arguments spec w :
      approval_op w (create_or_reuse_approval_request execution_id execution requested_by
                       evaluation risk role ttl arguments spec w).2
  | Op_decide workspace id actor role decision comment w :
      approval_op w (decide_approval workspace id actor role decision comment w).2
  | Op_sweep now w : approval_op w (expire_stale_approvals now w).2
  | Op_cancel execution reason w :
      approval_op w (cancel_approval_for_execution execution reason w).2.

Lemma approval_op_rel w w' : approval_op w w' → approval_rel w w'.
Proof.
  destruct 1.
  - apply create_approval_included.
  - apply decide_approval_included.
  - revert w. change (included approval_rel (expire_stale_approvals now)).
    apply included_bind; [apply _|destruct now; included_steps; apply included_gets, _|].
    intros clock. apply included_bind; [apply _|apply included_gets, _|].
    intros stale. apply expire_each_included.
  - apply cancel_approval_included.
Qed.

(** C37. Whatever the order in which requests are created, decided, swept and
    cancelled, an execution has at most one request, a request has a decision
    exactly when its status shows that decision, and a request is resolved at
    most once: its other columns never change, and a resolved request never
    changes again. *)
Theorem approvals_lifecycle w w' :
  rtc approval_op w w' → approvals_wf w → webhooks_fresh w →
  approvals_wf w' ∧
  ∀ id a, w_approvals w !! id = Some a →
    ∃ a', w_approvals w' !! id = Some a' ∧ approval_step a a' ∧
          (ar_status a ≠ ApprovalStatus.PENDING → a' = a).
Proof.
  intros Hops Hwf Hf.
  assert (approval_rel w w') as Hrel
    by (clear Hwf Hf; induction Hops; [done|]; etrans; [by apply approval_op_rel|done]).
  destruct (Hrel (conj Hwf Hf)) as [[Hwf' _] Hs]. split; [done|]. intros id a Ha.
  destruct (Hs id a Ha) as (a' & Ha' & Hst). exists a'. split_and!; [done..|].
  intros Hp. by destruct Hst as [->|[? _]].
Qed.

Lemma expire_each_run ids count w :
  webhooks_fresh w → NoDup ids →
  (∀ id, id ∈ ids → ∃ a, w_approvals w !! id = Some a ∧ stale_pending (w_now w) id a = true) →
  wp (expire_each ids count) (λ r w', r = inr (count + length ids) ∧
    (∀ id, w_approvals w' !! id =
      (λ a, if bool_decide (id ∈ ids) then resolved a ApprovalStatus.EXPIRED (w_now w) else a)
        <$> w_approvals w !! id) ∧
    (∀ id, id ∈ ids → resume_approved_action_task id ∈ w_published w') ∧
    (∀ t, t ∈ w_published w → t ∈ w_published w')) w.
Proof.
  revert count w. induction ids as [|id ids IH]; intros count w Hf Hnd Hids; simpl.
  { apply wp_ret. split_and!; [by rewrite Nat.add_0_r| |by intros ? ?%elem_of_nil|done].
    intros id. by destruct (w_approvals w !! id). }
  apply NoDup_cons in Hnd as [Hni Hnd]. apply wp_bind.
  eapply wp_mono; [by apply expire_round_run|]. intros r w1. simpl.
  destruct (Hids id) as (a & Ha & Hst); [left|]. rewrite Ha, Hst. intros [-> Hres]. wp_beta.
  destruct Hres as [Hreq _ _ _ _ [tasks Hpub] [Hnow _] Hf1]. eapply wp_mono; [apply IH; [done..|]|].
  - intros i Hi. rewrite Hreq, Hnow, lookup_insert_ne by (by intros ->). apply Hids. by right.
  - intros r w' (-> & Happ & Hres & Hkeep). rewrite Hpub in Hkeep. split_and!.
    + f_equal. lia.
    + intros i. rewrite Happ, Hreq, Hnow. destruct (decide (i = id)) as [->|Hne].
      * rewrite lookup_insert_eq, Ha. simpl.
        rewrite (bool_decide_eq_false_2 (id ∈ ids)) by done.
        rewrite bool_decide_eq_true_2 by left. done.
      * rewrite lookup_insert_ne by done. destruct (w_approvals w !! i); simpl; [|done].
        assert (bool_decide (i ∈ id :: ids) = bool_decide (i ∈ ids)) as ->; [|done].
        apply bool_decide_ext. rewrite elem_of_cons. split; [by intros [?|?]|by right].
    + intros i [->|Hi]%elem_of_cons; [|by apply Hres]. apply Hkeep, elem_of_app. right. left.
    + intros t Ht. apply Hkeep, elem_of_app. left. apply elem_of_app. by left.
Qed.

(** The sweep resolves every pending request whose time is over, and only those,
    reports how many it resolved, and hands every one of them to the broker, so
    that the run that waits for it is told. *)
Theorem expire_stale_approvals_spec w :
  webhooks_fresh w →
  let run := expire_stale_approvals None w in
  run.1 = inr (length (select_rows (stale_pending (w_now w)) w)) ∧
  ∀ id a, w_approvals w !! id = Some a →
    if bool_decide (ar_status a = ApprovalStatus.PENDING) && (ar_expires_at a <=? w_now w)%Z
    then w_approvals run.2 !! id = Some (resolved a ApprovalStatus.EXPIRED (w_now w)) ∧
         resume_approved_action_task id ∈ w_published run.2
    else w_approvals run.2 !! id = Some a.
Proof.
  intros Hf run. set (stale := select_rows (stale_pending (w_now w)) w).
  pose proof (expire_each_run (map fst stale) 0 w Hf) as Hrun.
  destruct Hrun as (Hr & Happ & Hpub & _).
  { apply select_rows_nodup. }
  { intros id ([i a] & -> & [Ha Hs]%in_select_rows)%list_elem_of_fmap. by exists a. }
  change run with (expire_each (map fst stale) 0 w). split; [by rewrite Hr, length_map|].
  intros id a Ha. change (bool_decide _ && _) with (stale_pending (w_now w) id a).
  assert (Hin : id ∈ map fst stale ↔ stale_pending (w_now w) id a = true).
  { unfold stale. rewrite list_elem_of_fmap. split.
    - intros ([i b] & -> & [Hb Hs]%in_select_rows). simpl in *. by assert (b = a) as -> by congruence.
    - intros Hs. exists (id, a). split; [done|]. by apply in_select_rows. }
  specialize (Happ id). rewrite Ha in Happ. simpl in Happ.
  destruct (stale_pending (w_now w) id a).
  - rewrite bool_decide_eq_true_2 in Happ by by apply Hin. split; [done|]. by apply Hpub, Hin.
  - rewrite bool_decide_eq_false_2 in Happ; [done|]. by rewrite Hin.
Qed.

End Approvals.

(** ** Concrete instances *)

Module ApprovalExamples.
#[local] Existing Instance default_settings.
#[local] Existing Instance trivial_pylib.
#[local] Instance net : Network := example_network 200.

(** An execution that waits, the request for it, made by user 40. *)
Definition waiting : ToolExecution :=
  {| te_workspace := 7; te_agent_run := 4; te_agent_version := 2; te_tool_definition := 3;
     te_tool_binding := 3; te_status := ToolExecutionStatus.WAITING_FOR_APPROVAL;
     te_idempotency_key := "k"; te_arguments_fingerprint := "f"; te_arguments_redacted := JNull;
     te_result_redacted := JNull; te_attempt_count := 0; te_started_at := None;
     te_completed_at := None; te_error_code := ""; te_error_message_safe := "";
     te_duration_ms := None |}.
Definition request : ApprovalRequest :=
  {| ar_workspace := 7; ar_tool_execution := 5; ar_status := ApprovalStatus.PENDING;
     ar_requested_by := Some 40%N; ar_required_role := "support_manager"; ar_summary := "";
     ar_safe_context := JNull; ar_arguments_fingerprint := "f"; ar_expires_at := 2000000000;
     ar_resolved_at := None |}.
Definition requested : World :=
  {| empty_world with w_next := 20; w_tool_executions := {[ 5%N := waiting ]};
                      w_approvals := {[ 9%N := request ]} |}.
(** The same, an hour later. *)
Definition late : World := {| requested with w_now := 5000000000 |}.

Lemma settings_ok : (0 < DELIVERY_DEFAULT_MAX_ATTEMPTS)%Z.
Proof. reflexivity. Qed.

Lemma requested_wf w :
  w_approvals w = {[ 9%N := request ]} → w_approval_decisions w = ∅ → w_next w = 20%N →
  approvals_wf w.
Proof.
  intros Ha Hd Hn. unfold approvals_wf. rewrite Ha, Hd, Hn. split_and!.
  - intros id a [<- <-]%lookup_singleton_Some. split; [lia|]. intros decision.
    split; [by destruct decision|]. by intros (d & ? & _).
  - intros id d [=].
  - by intros i j a b [<- <-]%lookup_singleton_Some [<- <-]%lookup_singleton_Some.
Qed.

Lemma requested_fresh w :
  w_deliveries w = ∅ → w_webhook_deliveries w = ∅ → webhooks_fresh w.
Proof.
  intros Hd Hw. unfold webhooks_fresh, keys_fresh. rewrite Hd, Hw. split; [done|].
  intros i wd [=].
Qed.

(** User 41, a manager, rejects the request. *)
Lemma decide_approval_spec_witness :
  ∃ w', decide_approval 7 9 41 "support_manager" ApprovalDecisionValue.REJECT "no" requested
          = (inr (), w') ∧
    w_approval_decisions w' = {[ 9%N := recorded 41 ApprovalDecisionValue.REJECT "no" ]}.
Proof.
  destruct (decide_approval_spec 7 9 request 41 "support_manager" ApprovalDecisionValue.REJECT
    "no" requested settings_ok (requested_fresh requested eq_refl eq_refl)
    (requested_wf requested eq_refl eq_refl eq_refl) eq_refl) as (o & w' & [-> Hres] & Hrun).
  exists w'. split; [exact Hrun|]. destruct Hres as [_ _ Hd _ _ _ _ _]. exact Hd.
Defined.

Lemma approvals_lifecycle_witness :
  approvals_wf (expire_stale_approvals None late).2.
Proof.
  apply (approvals_lifecycle settings_ok late (expire_stale_approvals None late).2).
  - apply rtc_once, Op_sweep.
  - apply requested_wf; reflexivity.
  - apply requested_fresh; reflexivity.
Defined.

Lemma expire_stale_approvals_spec_witness :
  (expire_stale_approvals None late).1 = inr 1 ∧
  resume_approved_action_task 9 ∈ w_published (expire_stale_approvals None late).2.
Proof.
  destruct (expire_stale_approvals_spec settings_ok late (requested_fresh late eq_refl eq_refl))
    as [Hcount Hall].
  split; [rewrite Hcount; vm_compute; reflexivity|]. apply (Hall 9%N request eq_refl).
Defined.
End ApprovalExamples.
