(* ===== verification/ToolExec.v ===== *)
(** * Tool execution

    [tools/execution.py] with the selectors it uses: the
    only path from a tool request to a handler.  The registered handlers, the
    JSON encoder and the hash are parameters. *)

From stdpp Require Import base gmap strings list pretty relations.
From Stdlib Require Import ZArith Lia.
From S2P Require Import Prelude Json Domain Policy Models Store PolicyAdmin Delivery Network Webhooks Approvals.

(** ** Contracts ([tools/contracts.py]) *)

Record ToolExecutionContext := {
  tx_workspace : N;
  tx_tool_execution : N;
  tx_deadline : Z;
  tx_agent_run : N;
  tx_agent_version : N;
  tx_actor_user : option N;
}.

(** What a handler hands back: an instance of the output model (its dump), a
    dict, or something else. *)
Inductive raw_result :=
  | Instance (dump : json)
  | Document (v : json)
  | OtherResult.

(** [StillRunning]: no result within the time limit, or a [TimeoutError]. *)
Inductive handler_outcome :=
  | Returned (r : raw_result)
  | StillRunning.

Abbreviation ToolHandler :=
  (ToolExecutionContext → list (string * json) → service handler_outcome).

Record Tool := { spec : ToolSpec; handler : ToolHandler }.

(** The registered tools, by key. *)
Abbreviation Registry := (string → option Tool).

(** [json.dumps], whose length is [None] when it raises [RecursionError], and the
    fingerprint of [tools/idempotency.py], the hash of a canonical text. *)
Class Encoding := {
  json_length : json → option N;
  fingerprint_arguments : json → string;
}.

(** ** Errors ([tools/errors.py]) *)

Definition safe_message (e : ToolErr.t) : string :=
  match e with
  | ToolErr.NotRegistered => "The requested tool is not registered."
  | ToolErr.NotBound => "This agent version is not bound to the requested tool."
  | ToolErr.Disabled => "The requested tool is currently disabled."
  | ToolErr.InvalidInput => "The tool arguments failed validation."
  | ToolErr.InvalidOutput => "The tool produced an invalid result."
  | ToolErr.Timeout => "The tool did not complete within its allotted time."
  | ToolErr.ExecutionFailed => "The tool failed to execute."
  | ToolErr.RetryExhausted => "The tool failed after exhausting its retry budget."
  | ToolErr.IdempotencyConflict =>
      "This idempotency key was already used with different arguments."
  | ToolErr.ExecutionInProgress => "A matching tool execution is already in progress."
  | ToolErr.BudgetExceeded => "The run's tool-call budget has been exhausted."
  | ToolErr.PermissionDenied => "You do not have permission to use this tool."
  | ToolErr.Configuration => "The tool is misconfigured."
  | ToolErr.RunNotExecutable =>
      "The agent run is not in a state that allows tool execution."
  | ToolErr.AmbiguousOutcome =>
      "The previous attempt's outcome could not be confirmed and this action cannot be safely retried automatically. Reconciliation is required before retrying."
  | ToolErr.PolicyDenied => "This action is denied by workspace policy."
  | ToolErr.PolicyEvaluationFailed =>
      "The action could not be safely evaluated against workspace policy."
  | ToolErr.ApprovalRequired => "This action requires human approval before it can execute."
  | ToolErr.ApprovalRejected => "This action was rejected by an approver."
  | ToolErr.ApprovalExpired =>
      "The approval request for this action expired before it was decided."
  | ToolErr.ApprovalCancelled => "The approval request for this action was cancelled."
  | ToolErr.ApprovalActionChanged =>
      "The approved action no longer matches what was requested."
  | ToolErr.Handler _ => "The tool request could not be completed."
  end.

(** [cls(message)]: an empty message keeps the class's own. *)
Definition tool_error (e : ToolErr.t) (message : string) : exn :=
  ToolExc e (str_or message (safe_message e)).
Definition tool_error_default (e : ToolErr.t) : exn := ToolExc e (safe_message e).

Section ToolExec.
Context `{Settings} `{PyLib} `{Network} `{Encoding}.

Definition MAX_ARGUMENTS_BYTES : N := 8000.
Definition MAX_OUTPUT_BYTES : N := 16000.
Definition MAX_IDEMPOTENCY_KEY_LENGTH : nat := 200.

Definition POLICY_TERMINAL_STATUSES : list ToolExecutionStatus.t :=
  [ToolExecutionStatus.BLOCKED_BY_POLICY; ToolExecutionStatus.APPROVAL_TERMINATED].

Definition APPROVAL_TERMINATION_ERRORS (code : string) : option ToolErr.t :=
  if String.eqb code "approval_rejected" then Some ToolErr.ApprovalRejected
  else if String.eqb code "approval_expired" then Some ToolErr.ApprovalExpired
  else if String.eqb code "approval_cancelled" then Some ToolErr.ApprovalCancelled
  else None.

(** [record_step(step_type=, status=, safe_metadata=, error_code=)]. *)
Definition StepRecorder : Type :=
  AgentStepType.t → AgentStepStatus.t → list (string * json) → string → service ().

Definition no_step : StepRecorder := λ _ _ _ _, mret ().

Record ToolExecutionResult := {
  tr_execution : N;
  tr_output : json;
  tr_reused : bool;
}.

(** ** Registry and bindings *)

Definition registry_get (tool_registry : Registry) (key : string) : service Tool :=
  match tool_registry key with
  | Some tool => mret tool
  | None => raise (tool_error ToolErr.NotRegistered ("Tool " +:+ py_repr (JStr key) +:+ " is not registered."))
  end.

Definition definition_with_key (key : string) (_ : N) (td : ToolDefinition) : bool :=
  String.eqb (td_key td) key.

Definition enabled_binding (agent_version : N) (tool_key : string) (w : World) (_ : N)
    (tb : ToolBinding) : bool :=
  bool_decide (tb_agent_version tb = agent_version) && tb_enabled tb
  && match w_tool_definitions w !! tb_tool_definition tb with
     | Some td => String.eqb (td_key td) tool_key
                  && bool_decide (td_status td = ToolDefinitionStatus.ACTIVE)
     | None => false
     end.

Definition resolve_enabled_binding (agent_version : N) (tool_key : string)
    : service (option (N * ToolBinding)) :=
  gets (λ w, head (select_rows (enabled_binding agent_version tool_key w) w)).

Definition any_binding (agent_version tool_definition : N) (_ : N) (tb : ToolBinding) : bool :=
  bool_decide (tb_agent_version tb = agent_version)
  && bool_decide (tb_tool_definition tb = tool_definition).

(** ** Timeout *)

Definition effective_timeout (agent_run : AgentRun) (agent_version : AgentVersion)
    (binding : ToolBinding) (s : ToolSpec) : service (option Z) :=
  let candidate := match tb_timeout_seconds binding with
                   | Some t => if (t =? 0)%Z then default_timeout s else t
                   | None => default_timeout s
                   end in
  let effective := Z.min candidate (max_timeout s) in
  match run_started_at agent_run with
  | None => mret (Some effective)
  | Some started_at =>
      now ← get_now;
      let remaining := (seconds (av_wall_time_limit_seconds agent_version) - (now - started_at))%Z in
      mret (if (remaining <=? 0)%Z then None else Some (Z.min effective remaining))
  end.

(** ** Idempotency claim *)

Definition same_key (workspace tool_definition : N) (idempotency_key : string) (_ : N)
    (te : ToolExecution) : bool :=
  bool_decide (te_workspace te = workspace)
  && bool_decide (te_tool_definition te = tool_definition)
  && String.eqb (te_idempotency_key te) idempotency_key.

(** [tool_exec_idempotency_uniq]. *)
Definition execution_clash (a b : ToolExecution) : bool :=
  bool_decide (te_workspace a = te_workspace b)
  && bool_decide (te_tool_definition a = te_tool_definition b)
  && String.eqb (te_idempotency_key a) (te_idempotency_key b)
  && negb (String.eqb (te_idempotency_key a) "").

Definition reset_execution (te : ToolExecution) : ToolExecution :=
  {| te with te_status := ToolExecutionStatus.PENDING; te_error_code := "";
             te_error_message_safe := ""; te_completed_at := None |}.

(** The claimed row, whether to execute it, and whether it is a replay. *)
Record Claim := {
  cl_id : N;
  cl_execution : ToolExecution;
  cl_should_execute : bool;
  cl_reused : bool;
}.

Definition resolve_existing (existing_id : N) (existing : ToolExecution) (fingerprint : string)
    (retry : RetryPolicy) : service Claim :=
  raise_if (negb (String.eqb (te_arguments_fingerprint existing) fingerprint))
    (tool_error_default ToolErr.IdempotencyConflict);;
  match te_status existing with
  | ToolExecutionStatus.PENDING | ToolExecutionStatus.RUNNING =>
      raise (tool_error_default ToolErr.ExecutionInProgress)
  | ToolExecutionStatus.WAITING_FOR_APPROVAL =>
      mret {| cl_id := existing_id; cl_execution := existing; cl_should_execute := false;
              cl_reused := false |}
  | ToolExecutionStatus.SUCCEEDED | ToolExecutionStatus.BLOCKED_BY_POLICY
  | ToolExecutionStatus.APPROVAL_TERMINATED =>
      mret {| cl_id := existing_id; cl_execution := existing; cl_should_execute := false;
              cl_reused := true |}
  | ToolExecutionStatus.FAILED | ToolExecutionStatus.TIMED_OUT | ToolExecutionStatus.CANCELLED =>
      raise_if (str_in (te_error_code existing) (ambiguous_outcome_error_codes retry))
        (tool_error_default ToolErr.AmbiguousOutcome);;
      raise_if (max_retries retry + 1 <=? te_attempt_count existing)%N
        (tool_error_default ToolErr.RetryExhausted);;
      save_row existing_id (reset_execution existing);;
      mret {| cl_id := existing_id; cl_execution := reset_execution existing;
              cl_should_execute := true; cl_reused := false |}
  end.

Definition new_execution (workspace run_id agent_version tool_definition tool_binding : N)
    (idempotency_key fingerprint : string) (arguments_redacted : json) : ToolExecution :=
  {| te_workspace := workspace; te_agent_run := run_id; te_agent_version := agent_version;
     te_tool_definition := tool_definition; te_tool_binding := tool_binding;
     te_status := ToolExecutionStatus.PENDING; te_idempotency_key := idempotency_key;
     te_arguments_fingerprint := if String.eqb idempotency_key "" then "" else fingerprint;
     te_arguments_redacted := arguments_redacted; te_result_redacted := JObj [];
     te_attempt_count := 0; te_started_at := None; te_completed_at := None;
     te_error_code := ""; te_error_message_safe := ""; te_duration_ms := None |}.

Definition create_execution (row : ToolExecution) : service Claim :=
  i ← fresh;
  save_unique execution_clash i row;;
  mret {| cl_id := i; cl_execution := row; cl_should_execute := true; cl_reused := false |}.

Definition claim_execution (row : ToolExecution) (fingerprint : string) (retry : RetryPolicy)
    : service Claim :=
  let by_key := same_key (te_workspace row) (te_tool_definition row) (te_idempotency_key row) in
  atomic (
    existing ← (if String.eqb (te_idempotency_key row) "" then mret None
                else first_row by_key);
    match existing with
    | Some (existing_id, existing) => resolve_existing existing_id existing fingerprint retry
    | None =>
        catch (atomic (create_execution row))
          (λ e, match e with
                | IntegrityError =>
                    existing ← get_where by_key;
                    resolve_existing (fst existing) (snd existing) fingerprint retry
                | e => raise e
                end)
    end).

(** ** State transitions *)

Definition running_execution (now : Z) (te : ToolExecution) : ToolExecution :=
  {| te with te_status := ToolExecutionStatus.RUNNING; te_started_at := Some now |}.

Definition transition_running (execution_id : N) : service () :=
  atomic (
    locked ← get_row execution_id;
    raise_if (negb (bool_decide (te_status locked ∈
        [ToolExecutionStatus.PENDING; ToolExecutionStatus.WAITING_FOR_APPROVAL])))
      (tool_error_default ToolErr.ExecutionInProgress);;
    now ← get_now;
    save_row execution_id (running_execution now locked)).

Definition raise_policy_terminal_outcome {A} (execution : ToolExecution) : service A :=
  if bool_decide (te_status execution = ToolExecutionStatus.BLOCKED_BY_POLICY) then
    raise (tool_error ToolErr.PolicyDenied (te_error_message_safe execution))
  else
    raise (tool_error
      (default ToolErr.ApprovalRejected (APPROVAL_TERMINATION_ERRORS (te_error_code execution)))
      (te_error_message_safe execution)).

Definition transition_blocked_by_policy (execution_id : N) (message : string) : service () :=
  atomic (
    locked ← get_row execution_id;
    raise_if (negb (bool_decide (te_status locked = ToolExecutionStatus.PENDING)))
      (tool_error_default ToolErr.ExecutionInProgress);;
    now ← get_now;
    let locked := {| locked with
      te_status := ToolExecutionStatus.BLOCKED_BY_POLICY;
      te_error_code := "policy_action_denied"; te_error_message_safe := str_take 500 message;
      te_completed_at := Some now |} in
    save_row execution_id locked).

Definition transition_waiting_for_approval (execution_id : N) : service () :=
  atomic (
    locked ← get_row execution_id;
    raise_if (negb (bool_decide (te_status locked = ToolExecutionStatus.PENDING)))
      (tool_error_default ToolErr.ExecutionInProgress);;
    let locked := {| locked with te_status := ToolExecutionStatus.WAITING_FOR_APPROVAL |} in
    save_row execution_id locked).

Definition duration_ms (started_at : option Z) (completed_at : Z) : option Z :=
  match started_at with
  | None => None
  | Some t => Some (Z.max 0 (millis (completed_at - t)))
  end.

Definition succeeded_execution (output : json) (now : Z) (te : ToolExecution) : ToolExecution :=
  {| te with te_status := ToolExecutionStatus.SUCCEEDED; te_result_redacted := output;
             te_completed_at := Some now; te_duration_ms := duration_ms (te_started_at te) now |}.

Definition finalize_success (execution_id : N) (output : json) : service () :=
  atomic (
    locked ← get_row execution_id;
    if negb (bool_decide (te_status locked = ToolExecutionStatus.RUNNING)) then mret ()
    else now ← get_now; save_row execution_id (succeeded_execution output now locked)).

Definition failed_execution (status : ToolExecutionStatus.t) (code message : string) (now : Z)
    (te : ToolExecution) : ToolExecution :=
  {| te with te_status := status; te_error_code := code; te_error_message_safe := message;
             te_completed_at := Some now; te_duration_ms := duration_ms (te_started_at te) now |}.

Definition finalize_failure (execution_id : N) (status : ToolExecutionStatus.t)
    (code message : string) : service () :=
  atomic (
    locked ← get_row execution_id;
    if negb (bool_decide (te_status locked = ToolExecutionStatus.RUNNING)) then mret ()
    else now ← get_now;
         save_row execution_id (failed_execution status code message now locked)).

(** ** Budget *)

(** One conditional UPDATE, whose row count is the result. *)
Definition reserve_budget_slot (run_id : N) (max_tool_calls : N) : service bool :=
  run ← find_row run_id;
  match run with
  | Some r =>
      if (run_tool_call_count r <? max_tool_calls)%N then
        save_row run_id {| r with run_tool_call_count := (run_tool_call_count r + 1)%N |};;
        mret true
      else mret false
  | None => mret false
  end.

(** ** Bounded execution *)

Definition validate_output (s : ToolSpec) (raw : raw_result) : service json :=
  validated ← match raw with
              | Instance dump => mret dump
              | Document v => or_raise (output_model s v) (tool_error_default ToolErr.InvalidOutput)
              | OtherResult => raise (tool_error_default ToolErr.InvalidOutput)
              end;
  let dumped := Redaction.redact (map str_lower (output_sensitive_fields s)) validated in
  match json_length dumped with
  | None => raise (OtherExc 1)
  | Some n =>
      raise_if (MAX_OUTPUT_BYTES <? n)%N
        (tool_error ToolErr.InvalidOutput "Tool output exceeds the maximum allowed size.");;
      mret dumped
  end.

Definition invoke_with_timeout (tool : Tool) (context : ToolExecutionContext)
    (arguments : list (string * json)) : service json :=
  outcome ← handler tool context arguments;
  match outcome with
  | StillRunning => raise (tool_error_default ToolErr.Timeout)
  | Returned raw => validate_output (spec tool) raw
  end.

Definition set_attempt_count (n : N) (te : ToolExecution) : ToolExecution :=
  {| te with te_attempt_count := n |}.

(** [max_retries + 1]. *)
Definition max_attempts (retry : RetryPolicy) : N := (max_retries retry + 1)%N.

Definition is_retryable (retry : RetryPolicy) (e : ToolErr.t) : bool :=
  str_in (ToolErr.code e) (retryable_error_codes retry).

(** [attempt_count] is the counter of the row in memory; the fuel is the number
    of attempts it leaves, so that the guard ends the loop first. *)
Fixpoint run_attempts (fuel : nat) (execution_id : N) (tool : Tool)
    (context : ToolExecutionContext) (arguments : list (string * json)) (attempt_count : N)
    : service (json * N) :=
  let retry := retry_policy (spec tool) in
  raise_if (max_attempts retry <=? attempt_count)%N (tool_error_default ToolErr.RetryExhausted);;
  let attempt_count := (attempt_count + 1)%N in
  update_rows (λ i _, bool_decide (i = execution_id)) (set_attempt_count attempt_count);;
  r ← attempt (invoke_with_timeout tool context arguments);
  match r with
  | inr output => mret (output, attempt_count)
  | inl (ToolExc ToolErr.Timeout message) => raise (ToolExc ToolErr.Timeout message)
  | inl (ToolExc e message) =>
      let attempts_remain := (attempt_count <? max_attempts retry)%N in
      if is_retryable retry e && attempts_remain then
        match fuel with
        | S fuel => run_attempts fuel execution_id tool context arguments attempt_count
        | O => raise (tool_error_default ToolErr.RetryExhausted)
        end
      else if is_retryable retry e then raise (tool_error_default ToolErr.RetryExhausted)
      else raise (ToolExc e message)
  | inl e => raise e
  end.

Definition run_with_retries (execution_id : N) (tool : Tool) (context : ToolExecutionContext)
    (arguments : list (string * json)) (attempt_count : N) : service (json * N) :=
  run_attempts (N.to_nat (max_attempts (retry_policy (spec tool)) - attempt_count)) execution_id
    tool context arguments attempt_count.

(** ** The policy gate *)

Definition already_policy_evaluated (execution_id : N) : service bool :=
  gets (λ w, bool_decide (is_Some (w_policy_evaluations w !! execution_id))).

Inductive gate_outcome :=
  | GateAllow
  | GateEvaluationFailed (reason : string)
  | GateDeny (reason : string)
  | GateRequireApproval (reason : string).

(** The active version with its rules, as [evaluate_policy] reads them. *)
Definition active_rules (workspace : N) : service (option (N * list PolicyRule)) :=
  active_version ← resolve_active_version workspace;
  match active_version with
  | None => mret None
  | Some (version, _) => gets (λ w, Some (version, version_rules version w))
  end.

Definition evaluation_error : string := "policy_evaluation_failed".

(** The transaction of the gate. *)
Definition decide_gate (execution_id : N) (execution : ToolExecution) (s : ToolSpec)
    (requested_by : option N) (risk : RiskOutcome) (canonical_arguments : list (string * json))
    : service gate_outcome :=
  active ← active_rules (te_workspace execution);
  match evaluate_policy (ts_key s) risk canonical_arguments active with
  | Crash => raise (OtherExc 2)
  | PolicyEvaluationFailed message =>
      persist_risk_assessment execution_id execution (ts_key s) risk;;
      persist_policy_evaluation execution_id execution None PolicyEffect.DENY evaluation_error
        message [];;
      transition_blocked_by_policy execution_id message;;
      mret (GateEvaluationFailed message)
  | Ok d =>
      risk_row ← persist_risk_assessment execution_id execution (ts_key s) risk;
      evaluation_row ← persist_policy_evaluation execution_id execution (policy_version d)
        (decision d) (decision_code d) (safe_reason d) (matched_rule_ids d);
      match decision d with
      | PolicyEffect.ALLOW => mret GateAllow
      | PolicyEffect.DENY =>
          transition_blocked_by_policy execution_id (safe_reason d);;
          mret (GateDeny (safe_reason d))
      | PolicyEffect.REQUIRE_APPROVAL =>
          create_or_reuse_approval_request execution_id execution requested_by evaluation_row
            risk_row (required_role d) (approval_ttl_seconds d) canonical_arguments s;;
          transition_waiting_for_approval execution_id;;
          mret (GateRequireApproval (safe_reason d))
      end
  end.

Definition key_field (k : string) : string * json := ("tool_key", JStr k).
Definition execution_field (i : N) : string * json := ("tool_execution_id", id_json i).

Definition run_policy_gate (step : StepRecorder) (execution_id : N) (execution : ToolExecution)
    (s : ToolSpec) (td : ToolDefinition) (requested_by : option N)
    (canonical_arguments : list (string * json)) : service () :=
  let risk := assess_risk (ts_key s) (td_risk_level td) (td_side_effect_type td)
                canonical_arguments in
  step AgentStepType.RISK_ASSESSED AgentStepStatus.SUCCEEDED
    [key_field (ts_key s); ("effective_risk", JStr (RiskLevel.value (effective_risk risk)))] "";;
  outcome ← atomic (decide_gate execution_id execution s requested_by risk canonical_arguments);
  match outcome with
  | GateAllow =>
      step AgentStepType.POLICY_EVALUATED AgentStepStatus.SUCCEEDED
        [key_field (ts_key s); ("decision", JStr "allow")] ""
  | GateEvaluationFailed reason =>
      step AgentStepType.POLICY_EVALUATED AgentStepStatus.FAILED [key_field (ts_key s)]
        "policy_evaluation_failed";;
      raise (tool_error ToolErr.PolicyEvaluationFailed reason)
  | GateDeny reason =>
      step AgentStepType.POLICY_EVALUATED AgentStepStatus.SUCCEEDED
        [key_field (ts_key s); ("decision", JStr "deny")] "";;
      raise (tool_error ToolErr.PolicyDenied reason)
  | GateRequireApproval reason =>
      step AgentStepType.POLICY_EVALUATED AgentStepStatus.SUCCEEDED
        [key_field (ts_key s); ("decision", JStr "require_approval")] "";;
      step AgentStepType.APPROVAL_REQUESTED AgentStepStatus.SUCCEEDED [key_field (ts_key s)] "";;
      raise (tool_error ToolErr.ApprovalRequired reason)
  end.
(** ** [execute_tool] *)

(** What is checked before anything is written: the tool, its definition, its
    binding, and the effective timeout. *)
Record Resolved := {
  rs_tool : Tool;
  rs_definition_id : N;
  rs_definition : ToolDefinition;
  rs_binding_id : N;
  rs_agent_version : AgentVersion;
  rs_arguments : list (string * json);
  rs_timeout : Z;
}.

Definition resolve_binding (agent_version tool_definition : N) (tool_key : string)
    : service (N * ToolBinding) :=
  binding ← resolve_enabled_binding agent_version tool_key;
  match binding with
  | Some b => mret b
  | None =>
      any ← first_row (any_binding agent_version tool_definition);
      match any with
      | None => raise (tool_error_default ToolErr.NotBound)
      | Some _ => raise (tool_error_default ToolErr.Disabled)
      end
  end.

Definition check_advisory_budget (run_id : N) (agent_run : AgentRun) (version : AgentVersion)
    : service () :=
  live ← find_row (A := AgentRun) run_id;
  let count := match live with
               | Some r => run_tool_call_count r | None => run_tool_call_count agent_run end in
  raise_if (av_max_tool_calls version <=? count)%N (tool_error_default ToolErr.BudgetExceeded).

Definition validate_arguments (step : StepRecorder) (tool_key : string) (s : ToolSpec)
    (arguments : json) (idempotency_key : option string) : service (list (string * json)) :=
  match json_length arguments with
  | None => raise (tool_error ToolErr.InvalidInput "Tool arguments payload is too large.")
  | Some n =>
      raise_if (MAX_ARGUMENTS_BYTES <? n)%N
        (tool_error ToolErr.InvalidInput "Tool arguments payload is too large.")
  end;;
  raise_if (MAX_IDEMPOTENCY_KEY_LENGTH <? String.length (default "" idempotency_key))%nat
    (tool_error ToolErr.InvalidInput "Idempotency key is too long.");;
  match input_model s arguments with
  | Some validated => mret validated
  | None =>
      step AgentStepType.TOOL_VALIDATION_FAILED AgentStepStatus.FAILED [key_field tool_key]
        "tool_invalid_input";;
      raise (tool_error_default ToolErr.InvalidInput)
  end.

Definition resolve_request (step : StepRecorder) (tool_registry : Registry) (run_id : N)
    (agent_run : AgentRun) (tool_key : string) (arguments : json)
    (idempotency_key : option string) : service Resolved :=
  version ← get_row (run_agent_version agent_run);
  step AgentStepType.TOOL_REQUESTED AgentStepStatus.STARTED [key_field tool_key] "";;
  raise_if (negb (bool_decide (run_status agent_run = AgentRunStatus.RUNNING)))
    (tool_error_default ToolErr.RunNotExecutable);;
  tool ← registry_get tool_registry tool_key;
  tool_definition ← first_row (definition_with_key tool_key);
  match tool_definition with
  | None => raise (tool_error ToolErr.Configuration
                     "Tool is registered but not published to the catalog.")
  | Some (td_id, td) =>
      binding ← resolve_binding (run_agent_version agent_run) td_id tool_key;
      check_advisory_budget run_id agent_run version;;
      validated ← validate_arguments step tool_key (spec tool) arguments idempotency_key;
      timeout ← effective_timeout agent_run version (snd binding) (spec tool);
      match timeout with
      | None => raise (tool_error ToolErr.BudgetExceeded
                         "The run's remaining wall time is exhausted.")
      | Some t =>
          mret {| rs_tool := tool; rs_definition_id := td_id; rs_definition := td;
                  rs_binding_id := fst binding; rs_agent_version := version;
                  rs_arguments := validated; rs_timeout := t |}
      end
  end.

(** The handler, and what its outcome makes of the execution. *)
Definition run_handler (on_failure : AgentStepType.t → string → service ()) (execution_id : N)
    (tool : Tool) (context : ToolExecutionContext) (arguments : list (string * json))
    (attempt_count : N) : service (json * N) :=
  r ← attempt (run_with_retries execution_id tool context arguments attempt_count);
  match r with
  | inl (ToolExc ToolErr.Timeout message) =>
      finalize_failure execution_id ToolExecutionStatus.TIMED_OUT (ToolErr.code ToolErr.Timeout)
        message;;
      on_failure AgentStepType.TOOL_EXECUTION_TIMED_OUT (ToolErr.code ToolErr.Timeout);;
      raise (ToolExc ToolErr.Timeout message)
  | inl (ToolExc e message) =>
      finalize_failure execution_id ToolExecutionStatus.FAILED (ToolErr.code e) message;;
      on_failure AgentStepType.TOOL_EXECUTION_FAILED (ToolErr.code e);;
      raise (ToolExc e message)
  | inl e => raise e
  | inr (output, attempts) =>
      finalize_success execution_id output;;
      mret (output, attempts)
  end.

Definition budget_message : string :=
  "The run's tool-call budget was exhausted by a concurrent call.".

(** From a claimed execution that is authorised to run to its result. *)
Definition execute_claimed (step : StepRecorder) (run_id : N) (agent_run : AgentRun)
    (tool_key : string) (rs : Resolved) (execution_id : N) (execution : ToolExecution)
    : service ToolExecutionResult :=
  let fields := [key_field tool_key; execution_field execution_id] in
  transition_running execution_id;;
  reserved ← reserve_budget_slot run_id (av_max_tool_calls (rs_agent_version rs));
  if negb reserved then
    finalize_failure execution_id ToolExecutionStatus.FAILED (ToolErr.code ToolErr.BudgetExceeded)
      budget_message;;
    step AgentStepType.TOOL_EXECUTION_FAILED AgentStepStatus.FAILED fields
      (ToolErr.code ToolErr.BudgetExceeded);;
    raise (tool_error_default ToolErr.BudgetExceeded)
  else
    step AgentStepType.TOOL_EXECUTION_STARTED AgentStepStatus.STARTED fields "";;
    now ← get_now;
    let context := {|
      tx_workspace := run_workspace agent_run; tx_tool_execution := execution_id;
      tx_deadline := (now + rs_timeout rs)%Z; tx_agent_run := run_id;
      tx_agent_version := run_agent_version agent_run;
      tx_actor_user := run_created_by agent_run |} in
    result ← run_handler (λ step_type code, step step_type AgentStepStatus.FAILED fields code)
               execution_id (rs_tool rs) context (rs_arguments rs) (te_attempt_count execution);
    step AgentStepType.TOOL_EXECUTION_SUCCEEDED AgentStepStatus.SUCCEEDED
      (fields ++ [("attempt_count", id_json (snd result))]) "";;
    mret {| tr_execution := execution_id; tr_output := fst result; tr_reused := false |}.

Definition execute_tool (step : StepRecorder) (tool_registry : Registry) (run_id : N)
    (agent_run : AgentRun) (tool_key : string) (arguments : json)
    (idempotency_key : option string) : service ToolExecutionResult :=
  rs ← resolve_request step tool_registry run_id agent_run tool_key arguments idempotency_key;
  let s := spec (rs_tool rs) in
  let document := JObj (rs_arguments rs) in
  let fingerprint := fingerprint_arguments document in
  claim ← claim_execution
    (new_execution (run_workspace agent_run) run_id (run_agent_version agent_run)
       (rs_definition_id rs) (rs_binding_id rs) (default "" idempotency_key) fingerprint
       (Redaction.redact (map str_lower (input_sensitive_fields s)) document))
    fingerprint (retry_policy s);
  let execution_id := cl_id claim in
  let execution := cl_execution claim in
  if cl_reused claim then
    if bool_decide (te_status execution = ToolExecutionStatus.SUCCEEDED) then
      step AgentStepType.TOOL_IDEMPOTENCY_REUSED AgentStepStatus.SUCCEEDED
        [key_field tool_key; execution_field execution_id] "";;
      mret {| tr_execution := execution_id; tr_output := te_result_redacted execution;
              tr_reused := true |}
    else raise_policy_terminal_outcome execution
  else if bool_decide (te_status execution = ToolExecutionStatus.WAITING_FOR_APPROVAL) then
    raise (tool_error_default ToolErr.ApprovalRequired)
  else if negb (cl_should_execute claim) then
    mret {| tr_execution := execution_id; tr_output := te_result_redacted execution;
            tr_reused := false |}
  else
    evaluated ← already_policy_evaluated execution_id;
    (if (evaluated : bool) then mret ()
     else run_policy_gate step execution_id execution s (rs_definition rs)
            (run_created_by agent_run) (rs_arguments rs));;
    execute_claimed step run_id agent_run tool_key rs execution_id execution.

(** ** [resume_after_approval] *)

Definition claim_resume (execution_id : N) : service (option ToolExecution) :=
  atomic (
    locked ← get_row execution_id;
    if negb (bool_decide (te_status locked = ToolExecutionStatus.WAITING_FOR_APPROVAL)) then
      mret None
    else
      now ← get_now;
      save_row execution_id (running_execution now locked);;
      mret (Some (running_execution now locked))).

(** A resume that lost the claim. *)
Definition resume_lost (execution_id : N) : service ToolExecutionResult :=
  execution ← get_row execution_id;
  match te_status execution with
  | ToolExecutionStatus.SUCCEEDED =>
      mret {| tr_execution := execution_id; tr_output := te_result_redacted execution;
              tr_reused := true |}
  | ToolExecutionStatus.RUNNING => raise (tool_error_default ToolErr.ExecutionInProgress)
  | _ => raise_policy_terminal_outcome execution
  end.

Definition fail_and_raise {A} (execution_id : N) (code message : string) (e : ToolErr.t)
    : service A :=
  finalize_failure execution_id ToolExecutionStatus.FAILED code message;;
  raise (tool_error_default e).

(** [approval_request.arguments_fingerprint and ... != execution...]. *)
Definition action_changed (approval : option (N * ApprovalRequest)) (execution : ToolExecution)
    : bool :=
  match approval with
  | Some (_, a) =>
      negb (String.eqb (ar_arguments_fingerprint a) "")
      && negb (String.eqb (ar_arguments_fingerprint a) (te_arguments_fingerprint execution))
  | None => false
  end.

(** A resume that owns the claim, once the action is verified. *)
Definition resume_claimed (step : StepRecorder) (execution_id : N) (execution : ToolExecution)
    (tool : Tool) (arguments : list (string * json)) : service ToolExecutionResult :=
  run ← get_row (te_agent_run execution);
  version ← get_row (te_agent_version execution);
  now ← get_now;
  let timeout := Z.min (default_timeout (spec tool)) (max_timeout (spec tool)) in
  let context := {|
    tx_workspace := te_workspace execution; tx_tool_execution := execution_id;
    tx_deadline := (now + timeout)%Z; tx_agent_run := te_agent_run execution;
    tx_agent_version := te_agent_version execution; tx_actor_user := run_created_by run |} in
  reserved ← reserve_budget_slot (te_agent_run execution) (av_max_tool_calls version);
  if negb reserved then
    fail_and_raise execution_id (ToolErr.code ToolErr.BudgetExceeded) budget_message
      ToolErr.BudgetExceeded
  else
    step AgentStepType.EXECUTION_RESUMED AgentStepStatus.STARTED [execution_field execution_id] "";;
    result ← run_handler (λ _ _, mret ()) execution_id tool context arguments
               (te_attempt_count execution);
    step AgentStepType.TOOL_EXECUTION_SUCCEEDED AgentStepStatus.SUCCEEDED
      [execution_field execution_id] "";;
    mret {| tr_execution := execution_id; tr_output := fst result; tr_reused := false |}.

Definition resume_after_approval (step : StepRecorder) (tool_registry : Registry)
    (tool_execution_id : N) : service ToolExecutionResult :=
  _ ← get_row (A := ToolExecution) tool_execution_id;
  claimed ← claim_resume tool_execution_id;
  match claimed with
  | None => resume_lost tool_execution_id
  | Some execution =>
      approval ← first_row (for_execution tool_execution_id);
      if action_changed approval execution then
        fail_and_raise tool_execution_id "approval_action_changed"
          "The approved action no longer matches what was requested."
          ToolErr.ApprovalActionChanged
      else
        td ← get_row (te_tool_definition execution);
        tool ← registry_get tool_registry (td_key td);
        binding ← get_row (te_tool_binding execution);
        if negb (tb_enabled binding)
           || negb (bool_decide (td_status td = ToolDefinitionStatus.ACTIVE)) then
          fail_and_raise tool_execution_id "tool_disabled"
            "The tool was disabled while this action was awaiting approval." ToolErr.Disabled
        else
          match input_model (spec tool) (te_arguments_redacted execution) with
          | None =>
              fail_and_raise tool_execution_id "tool_invalid_input"
                "The approved action's arguments could not be safely reconstructed."
                ToolErr.InvalidInput
          | Some arguments =>
              resume_claimed step tool_execution_id execution tool arguments
          end
  end.

End ToolExec.
