(* ===== verification/ToolSafety.v ===== *)
(** * What tool execution guarantees

    The theorems on [ToolExec]: a handler runs only when it is authorised, at most
    as often as the budget, the retry policy and the approval allow; a decided
    request is replayed; nothing is left running. *)

From stdpp Require Import base gmap strings list pretty relations.
From Stdlib Require Import ZArith Lia.
From S2P Require Import Prelude Json Domain Policy Models Store PolicyAdmin Delivery Network Webhooks Approvals ToolExec.

Section ToolSafety.
Context `{Settings} `{PyLib} `{Network} `{Encoding}.

(** ** What handlers and step recorders leave alone

    A handler acts on the outside world and on its own tables; the recorder
    appends steps.  Neither writes the tables of the gate. *)

Definition gate_frame : relation World := λ w w',
  w_policy_evaluations w' = w_policy_evaluations w ∧ w_approvals w' = w_approvals w ∧
  w_approval_decisions w' = w_approval_decisions w ∧
  w_tool_executions w' = w_tool_executions w ∧ w_agent_runs w' = w_agent_runs w ∧
  w_agent_versions w' = w_agent_versions w ∧
  (w_next w <= w_next w')%N ∧ (webhooks_fresh w → webhooks_fresh w').

#[export] Instance gate_frame_preorder : PreOrder gate_frame.
Proof.
  unfold gate_frame. split; [intros w; split_and!; done|].
  intros w1 w2 w3 (?&?&?&?&?&?&?&?) (?&?&?&?&?&?&?&?). split_and!; try congruence; [lia|auto].
Qed.

Definition recorder_frame (step : StepRecorder) : Prop :=
  ∀ step_type status metadata code, included gate_frame (step step_type status metadata code).
Definition registry_frame (tool_registry : Registry) : Prop :=
  ∀ key tool context arguments, tool_registry key = Some tool →
    included gate_frame (handler tool context arguments).

Lemma no_step_frame : recorder_frame no_step.
Proof. intros a b c d w. unfold no_step. simpl. reflexivity. Qed.

Lemma wp_frame {A} (m : service A) (Q : exn + A → World → Prop) w :
  included gate_frame m → (∀ r w', gate_frame w w' → Q r w') → wp m Q w.
Proof. intros Hm HQ. apply HQ, Hm. Qed.

Lemma validate_output_pure s raw w : (validate_output s raw w).2 = w.
Proof.
  change (wp (validate_output s raw) (λ _ w', w' = w) w). unfold validate_output.
  svc_steps; done.
Qed.

Lemma invoke_frame tool context arguments :
  included gate_frame (handler tool context arguments) →
  included gate_frame (invoke_with_timeout tool context arguments).
Proof.
  intros Hh. unfold invoke_with_timeout. apply included_bind; [apply _|exact Hh|].
  intros [raw|]; [|apply included_raise, _]. intros w. by rewrite validate_output_pure.
Qed.

(** ** Bounded retries *)

Definition bumped (execution_id n : N) (m : gmap N ToolExecution) : gmap N ToolExecution :=
  map_imap (λ i te, Some (if bool_decide (i = execution_id) then set_attempt_count n te else te)) m.

Lemma bumped_lookup execution_id n m i :
  bumped execution_id n m !! i =
  (λ te, if bool_decide (i = execution_id) then set_attempt_count n te else te) <$> m !! i.
Proof. unfold bumped. by rewrite rows_update. Qed.

Lemma bumped_bumped execution_id n n' m :
  bumped execution_id n' (bumped execution_id n m) = bumped execution_id n' m.
Proof.
  apply map_eq. intros i. rewrite !bumped_lookup. destruct (m !! i); [|done]. simpl.
  by case_bool_decide.
Qed.

(** Everything but the attempt counter of the execution. *)
Definition retry_frame (execution_id : N) (n : N) (w w' : World) : Prop :=
  gate_frame {| w with w_tool_executions := bumped execution_id n (w_tool_executions w) |} w'.

Definition invocation_ok (retry : RetryPolicy) (n : N) (r : exn + (json * N)) : Prop :=
  match r with
  | inr (_, n') => n' = n
  | inl (ToolExc e message) =>
      (e = ToolErr.RetryExhausted ∧ n = max_attempts retry) ∨
      e = ToolErr.Timeout ∨ is_retryable retry e = false
  | inl _ => True
  end.

(** Whatever the handler does, it is invoked at least once and at most as often
    as the attempts left allow; the counter of the row is the number of
    invocations; an error that is reported is a time-out, a non-retryable error,
    or the exhaustion of all the attempts. *)
Lemma run_attempts_ok fuel execution_id tool context arguments a w :
  included gate_frame (handler tool context arguments) →
  (a < max_attempts (retry_policy (spec tool)))%N →
  N.to_nat (max_attempts (retry_policy (spec tool)) - a) ≤ fuel →
  wp (run_attempts fuel execution_id tool context arguments a)
    (λ r w', ∃ n, (a < n)%N ∧ (n <= max_attempts (retry_policy (spec tool)))%N ∧
       retry_frame execution_id n w w' ∧ invocation_ok (retry_policy (spec tool)) n r) w.
Proof.
  intros Hh. set (retry := retry_policy (spec tool)).
  revert a w. induction fuel as [|fuel IH]; intros a w Ha Hfuel; [lia|].
  cbn [run_attempts]. fold retry.
  rewrite (proj2 (N.leb_gt _ _)) by done. svc_steps. apply wp_frame; [by apply invoke_frame|].
  intros r w1 Hw1. fold (bumped execution_id (a + 1)) in Hw1.
  change (retry_frame execution_id (a + 1) w w1) in Hw1. wp_beta.
  assert (Hdone : ∀ r : exn + (json * N), invocation_ok retry (a + 1) r →
    ∃ n, (a < n)%N ∧ (n <= max_attempts retry)%N ∧ retry_frame execution_id n w w1 ∧
      invocation_ok retry n r) by (intros r' Hr'; exists (a + 1)%N; split_and!; [lia..|done|done]).
  destruct r as [ex|output]; [|by apply wp_ret, Hdone].
  destruct ex; try (apply wp_raise, Hdone; done). rename cls into e, safe_message into m.
  assert (Hgoal : wp (if is_retryable retry e && (a + 1 <? max_attempts retry)%N
      then run_attempts fuel execution_id tool context arguments (a + 1)
      else if is_retryable retry e then raise (tool_error_default ToolErr.RetryExhausted)
      else raise (ToolExc e m))
    (λ r w', ∃ n, (a < n)%N ∧ (n <= max_attempts retry)%N ∧ retry_frame execution_id n w w' ∧
       invocation_ok retry n r) w1).
  { destruct (is_retryable retry e) eqn:He; [|apply wp_raise, Hdone; simpl; auto].
    destruct (N.ltb_spec (a + 1) (max_attempts retry)) as [Hlt|Hge]; simpl.
    - eapply wp_mono; [apply IH; lia|]. intros r w' (n & Hn1 & Hn2 & Hw' & Hr).
      exists n. split_and!; [lia|done| |done]. unfold retry_frame in *.
      etrans; [|exact Hw']. destruct Hw1 as (?&?&?&Hte&?&?&?&?).
      split_and!; simpl; try done. by rewrite Hte; simpl; rewrite bumped_bumped.
    - apply wp_raise, Hdone. left. split; [done|]. unfold max_attempts in *. lia. }
  destruct e; try exact Hgoal. apply wp_raise, Hdone. simpl. auto.
Qed.

(** ** Authorisation *)

(** The stored decision allows the execution, or a human approved it. *)
Definition approved_for (execution_id : N) (_ : N) (a : ApprovalRequest) : bool :=
  bool_decide (ar_tool_execution a = execution_id)
  && bool_decide (ar_status a = ApprovalStatus.APPROVED).

Definition authorizedb (w : World) (execution_id : N) : bool :=
  match w_policy_evaluations w !! execution_id with
  | Some e => bool_decide (pe_decision e = PolicyEffect.ALLOW)
              || exists_row (approved_for execution_id) w
  | None => false
  end.

Definition ready (w : World) (execution_id : N) : bool :=
  authorizedb w execution_id
  && match w_tool_executions w !! execution_id with
     | Some te => bool_decide (te_status te = ToolExecutionStatus.RUNNING)
     | None => false
     end.

(** A handler that first checks something of the world and of its execution. *)
Definition guard_tool (check : World → N → bool) (tool : Tool) : Tool :=
  {| spec := spec tool;
     handler := λ context arguments w,
       if check w (tx_tool_execution context) then handler tool context arguments w
       else (inl (OtherExc 99), w) |}.
Definition guard_registry (check : World → N → bool) (tool_registry : Registry) : Registry :=
  λ key, guard_tool check <$> tool_registry key.

(** A check that handlers and the count of attempts do not change. *)
Record stable (check : World → N → bool) : Prop := {
  st_frame : ∀ w w' id, gate_frame w w' → check w' id = check w id;
  st_bump : ∀ id n w,
    check (update_rows (λ i _, bool_decide (i = id)) (set_attempt_count n) w).2 id = check w id;
}.

Lemma authorizedb_frame w w' id :
  w_policy_evaluations w' = w_policy_evaluations w → w_approvals w' = w_approvals w →
  authorizedb w' id = authorizedb w id.
Proof.
  intros He Ha. unfold authorizedb, exists_row, select_rows, rows. simpl. by rewrite He, Ha.
Qed.

Lemma ready_frame w w' id : gate_frame w w' → ready w' id = ready w id.
Proof.
  intros (He & Ha & _ & Ht & _). unfold ready. by rewrite (authorizedb_frame w w'), Ht.
Qed.

(** Both runs agree where their first part does. *)
Lemma bind_agree {A B} (m : service A) (k k' : A → service B) w :
  (∀ a w1, m w = (inr a, w1) → k a w1 = k' a w1) → (m ≫= k) w = (m ≫= k') w.
Proof.
  intros Hk. unfold mbind, M_bind. destruct (m w) as [[e|a] w1] eqn:Hm; [done|by apply Hk].
Qed.

Lemma ready_stable : stable ready.
Proof.
  split; [apply ready_frame|]. intros id n w. unfold ready.
  rewrite (authorizedb_frame w) by done. simpl.
  rewrite rows_update. by destruct (w_tool_executions w !! id); simpl; [case_match|].
Qed.

Section Guard.
Context (check : World → N → bool) (Hcheck : stable check).

Lemma bump_check execution_id n w r w2 :
  update_rows (λ i _, bool_decide (i = execution_id)) (set_attempt_count n) w = (r, w2) →
  check w2 execution_id = check w execution_id.
Proof. intros Hw. pose proof (st_bump _ Hcheck execution_id n w) as Hb. by rewrite Hw in Hb. Qed.

Lemma invoke_guard tool context arguments w :
  check w (tx_tool_execution context) = true →
  invoke_with_timeout (guard_tool check tool) context arguments w =
  invoke_with_timeout tool context arguments w.
Proof. intros Hr. unfold invoke_with_timeout, mbind, M_bind. simpl. by rewrite Hr. Qed.

Lemma run_attempts_guard fuel tool context arguments a w :
  included gate_frame (handler tool context arguments) →
  check w (tx_tool_execution context) = true →
  run_attempts fuel (tx_tool_execution context) (guard_tool check tool) context arguments a w =
  run_attempts fuel (tx_tool_execution context) tool context arguments a w.
Proof.
  intros Hh. revert a w. induction fuel as [|fuel IH]; intros a w Hready; cbn [run_attempts];
    change (spec (guard_tool check tool)) with (spec tool);
    apply bind_agree; intros [] w1 Hw1;
    (assert (w1 = w) as -> by (revert Hw1; unfold raise_if; case_match; by intros [=]));
    apply bind_agree; intros [] w2 Hw2; apply bump_check in Hw2; rewrite Hready in Hw2;
    unfold mbind, M_bind, attempt; rewrite invoke_guard by done; [done|].
  pose proof (invoke_frame tool context arguments Hh w2) as Hf.
  destruct (invoke_with_timeout tool context arguments w2) as [r w3]. simpl in Hf.
  assert (Hr3 : check w3 (tx_tool_execution context) = true) by by rewrite (st_frame _ Hcheck w2 w3).
  destruct r as [e|]; [destruct e|]; try done.
  destruct cls; try done; by repeat case_match; auto.
Qed.

Lemma run_handler_guard on_failure id tool context arguments a w :
  tx_tool_execution context = id →
  included gate_frame (handler tool context arguments) → check w id = true →
  run_handler on_failure id (guard_tool check tool) context arguments a w =
  run_handler on_failure id tool context arguments a w.
Proof.
  intros <- Hh Hready. unfold run_handler, run_with_retries, mbind, M_bind, attempt.
  change (spec (guard_tool check tool)) with (spec tool).
  by rewrite run_attempts_guard.
Qed.

End Guard.

(** Statuses an execution gets only by running. *)
Definition RAN : list ToolExecutionStatus.t :=
  [ToolExecutionStatus.RUNNING; ToolExecutionStatus.SUCCEEDED; ToolExecutionStatus.FAILED;
   ToolExecutionStatus.TIMED_OUT].

(** Every execution that runs or ran is authorised, and so is one that was cancelled once
    its decision was stored (see [cancelled_request_skips_gate] for one that is not);
    an approval is asked for only once the decision is stored. *)
Record auth_inv (w : World) : Prop := {
  ai_ran : ∀ id te, w_tool_executions w !! id = Some te → te_status te ∈ RAN →
    authorizedb w id = true;
  ai_cancelled : ∀ id te, w_tool_executions w !! id = Some te →
    te_status te = ToolExecutionStatus.CANCELLED → is_Some (w_policy_evaluations w !! id) →
    authorizedb w id = true;
  ai_fresh : ∀ id, (w_next w <= id)%N →
    w_tool_executions w !! id = None ∧ w_policy_evaluations w !! id = None;
  ai_approvals : approvals_ok w;
  ai_evaluated : ∀ i a, w_approvals w !! i = Some a →
    is_Some (w_policy_evaluations w !! ar_tool_execution a);
}.

(** An approved request authorises its execution. *)
Lemma approved_authorized w i a :
  auth_inv w → w_approvals w !! i = Some a → ar_status a = ApprovalStatus.APPROVED →
  authorizedb w (ar_tool_execution a) = true.
Proof.
  intros Hw Hi Ha. destruct (ai_evaluated w Hw i a Hi) as [e He]. unfold authorizedb. rewrite He.
  apply orb_true_iff. right. apply exists_row_true. exists i, a. split; [done|].
  unfold approved_for. by rewrite !bool_decide_eq_true_2.
Qed.

Lemma approvals_ok_frame w w' :
  w_approvals w' = w_approvals w → w_approval_decisions w' = w_approval_decisions w →
  (w_next w <= w_next w')%N → (webhooks_fresh w → webhooks_fresh w') →
  approvals_ok w → approvals_ok w'.
Proof.
  intros Ha Hd Hn Hf [(Hwf & Hhas & Hu) Hfr]. split; [|auto]. unfold approvals_wf.
  rewrite Ha, Hd. split_and!; [|done|done]. intros id a Hid. destruct (Hwf id a Hid).
  split; [lia|done].
Qed.

Lemma auth_inv_frame w w' : gate_frame w w' → auth_inv w → auth_inv w'.
Proof.
  intros (He & Ha & Hd & Ht & _ & _ & Hn & Hf) [Hran Hc Hfr Hok Hev]. split.
  - intros id te. rewrite Ht, (authorizedb_frame w w') by done. apply Hran.
  - intros id te. rewrite Ht, He, (authorizedb_frame w w') by done. apply Hc.
  - intros id Hid. rewrite Ht, He. apply Hfr. lia.
  - by apply (approvals_ok_frame w).
  - intros i a. rewrite Ha, He. apply Hev.
Qed.

Lemma frame_keeps {A} (m : service A) : included gate_frame m → included (keeps auth_inv) m.
Proof. intros Hm w Hw. by apply (auth_inv_frame w), Hw. Qed.

(** Writing an execution. *)
Lemma auth_inv_save w id te :
  auth_inv w → (id < w_next w)%N → (te_status te ∈ RAN → authorizedb w id = true) →
  te_status te ≠ ToolExecutionStatus.CANCELLED →
  auth_inv {| w with w_tool_executions := <[id := te]> (w_tool_executions w) |}.
Proof.
  intros [Hran Hc Hfr Hok Hev] Hid Hte Hne. split; simpl.
  - intros i t Hi. rewrite (authorizedb_frame w) by done. revert Hi.
    intros [[<- <-]|[_ Hi]]%lookup_insert_Some; [done|by apply Hran].
  - intros i t. rewrite (authorizedb_frame w) by done.
    intros [[_ <-]|[_ Hi]]%lookup_insert_Some; [done|by eapply Hc].
  - intros i Hi. rewrite lookup_insert_ne by lia. by apply Hfr.
  - by apply (approvals_ok_frame w).
  - done.
Qed.

Lemma auth_inv_lt w id te :
  auth_inv w → w_tool_executions w !! id = Some te → (id < w_next w)%N.
Proof.
  intros Hinv Hid. destruct (N.lt_ge_cases id (w_next w)) as [|Hge]; [done|].
  destruct (ai_fresh _ Hinv id Hge) as [Hnone _]. congruence.
Qed.

(** A transaction that locks an execution and writes it back. *)
Lemma keeps_locked id (k : ToolExecution → service ()) :
  (∀ w te, auth_inv w → w_tool_executions w !! id = Some te → auth_inv (k te w).2) →
  included (keeps auth_inv) (atomic (locked ← get_row id; k locked)).
Proof.
  intros Hk w Hw. change (wp (atomic (locked ← get_row id; k locked)) (λ _, auth_inv) w).
  apply wp_atomic, wp_bind, wp_get_row. unfold rows. simpl.
  destruct (w_tool_executions w !! id) as [te|] eqn:Hte; [|done]. wp_beta.
  eapply (wp_mono _ (λ _, auth_inv)); [exact (Hk w te Hw Hte)|]. by intros [] w'.
Qed.

Lemma finalize_success_keeps id output : included (keeps auth_inv) (finalize_success id output).
Proof.
  apply keeps_locked. intros w te Hw Hte. case_bool_decide as Hr; simpl; [|done].
  apply auth_inv_save; [done|by eapply auth_inv_lt| |done].
  intros _. eapply ai_ran; [done..|]. rewrite Hr. by mem_decide.
Qed.

Lemma finalize_failure_keeps id status code message :
  status ∈ RAN → included (keeps auth_inv) (finalize_failure id status code message).
Proof.
  intros Hs. apply keeps_locked. intros w te Hw Hte. case_bool_decide as Hr; simpl; [|done].
  apply auth_inv_save; [done|by eapply auth_inv_lt| |].
  - intros _. eapply ai_ran; [done..|]. rewrite Hr. by mem_decide.
  - simpl. intros ->. revert Hs. by absurd_mem.
Qed.

Lemma transition_waiting_keeps id : included (keeps auth_inv) (transition_waiting_for_approval id).
Proof.
  apply keeps_locked. intros w te Hw Hte. unfold raise_if.
  destruct (negb _); simpl; [done|]. unfold mbind, M_bind. simpl.
  apply auth_inv_save; [done|by eapply auth_inv_lt| |done]. simpl. by absurd_mem.
Qed.

Lemma transition_blocked_keeps id message :
  included (keeps auth_inv) (transition_blocked_by_policy id message).
Proof.
  apply keeps_locked. intros w te Hw Hte. unfold raise_if.
  destruct (negb _); simpl; [done|]. unfold mbind, M_bind, get_now, gets. simpl.
  apply auth_inv_save; [done|by eapply auth_inv_lt| |done]. simpl. by absurd_mem.
Qed.

Lemma reserve_keeps run_id m : included (keeps auth_inv) (reserve_budget_slot run_id m).
Proof.
  intros w Hw. change (wp (reserve_budget_slot run_id m) (λ _, auth_inv) w).
  unfold reserve_budget_slot. svc_steps; try done. destruct Hw as [Hran Hc Hfr Hok Hev].
  split; simpl; [| |done|by apply (approvals_ok_frame w)|done].
  all: intros id te; rewrite (authorizedb_frame w) by done; first [apply Hran|apply Hc].
Qed.

Lemma bump_keeps id n :
  included (keeps auth_inv) (update_rows (λ i _, bool_decide (i = id)) (set_attempt_count n)).
Proof.
  intros w [Hran Hc Hfr Hok Hev]. split; simpl.
  - intros i te. rewrite rows_update, (authorizedb_frame w) by done.
    destruct (w_tool_executions w !! i) as [te0|] eqn:Hi; [|done]. simpl. intros [= <-] Hs.
    apply (Hran i te0 Hi). by revert Hs; case_match.
  - intros i te. rewrite rows_update, (authorizedb_frame w) by done.
    destruct (w_tool_executions w !! i) as [te0|] eqn:Hi; [|done].
    simpl. intros [= <-]. pose proof (Hc i te0 Hi). by case_match.
  - intros i Hi. rewrite rows_update. by destruct (Hfr i Hi) as [-> ->].
  - by apply (approvals_ok_frame w).
  - done.
Qed.

Lemma get_row_eq {A} `{Table A} i w :
  get_row (A := A) i w =
  (match rows w !! i with Some r => inr r | None => inl DoesNotExist end, w).
Proof.
  unfold get_row, find_row, gets, or_raise, mbind, M_bind. by destruct (rows w !! i).
Qed.

Lemma get_row_pure {A} `{Table A} i w : (get_row (A := A) i w).2 = w.
Proof. by rewrite get_row_eq. Qed.

(** ** What a computation returns *)

Definition returns {A} (P : A → Prop) (m : service A) : Prop :=
  ∀ w, match (m w).1 with inl _ => True | inr a => P a end.

Lemma returns_run {A} (P : A → Prop) (m : service A) w a w' :
  returns P m → m w = (inr a, w') → P a.
Proof. intros Hm Hrun. specialize (Hm w). by rewrite Hrun in Hm. Qed.
Lemma returns_ret {A} (P : A → Prop) a : P a → returns P (mret a).
Proof. by intros HP w. Qed.
Lemma returns_raise {A} (P : A → Prop) e : returns P (raise e).
Proof. by intros w. Qed.
Lemma returns_bind {A B} (P : B → Prop) (m : service A) k :
  (∀ a, returns P (k a)) → returns P (m ≫= k).
Proof.
  intros Hk w. unfold mbind, M_bind. destruct (m w) as [[e|a] w']; [done|apply Hk].
Qed.
Lemma returns_ret_bind {A B} (P : B → Prop) (a : A) k :
  returns P (k a) → returns P (mret a ≫= k).
Proof. done. Qed.
Lemma returns_catch {A} (P : A → Prop) (m : service A) h :
  returns P m → (∀ e, returns P (h e)) → returns P (catch m h).
Proof.
  intros Hm Hh w. specialize (Hm w). unfold catch. destruct (m w) as [[e|a] w']; [apply Hh|done].
Qed.
Lemma returns_atomic {A} (P : A → Prop) (m : service A) : returns P m → returns P (atomic m).
Proof. intros Hm w. specialize (Hm w). unfold atomic. by destruct (m w) as [[e|a] w']. Qed.

Ltac returns_step :=
  lazymatch goal with
  | |- returns _ (_ ≫= _) => apply returns_bind; intro
  | |- returns _ (catch _ _) => apply returns_catch; [|intro]
  | |- returns _ (atomic _) => apply returns_atomic
  | |- returns _ (raise _) => apply returns_raise
  | |- returns _ (mret _) => apply returns_ret
  | |- returns _ (let '_ := ?x in _) => destruct x eqn:?
  | |- returns _ (match ?x with _ => _ end) => destruct x eqn:?
  end.
Ltac returns_steps := repeat (cbv zeta; returns_step).

(** ** The claim *)

(** What a claim that is to be executed guarantees. *)
Definition claim_ok (w w' : World) (c : Claim) : Prop :=
  w_policy_evaluations w' = w_policy_evaluations w ∧
  w_tool_executions w' !! cl_id c = Some (cl_execution c) ∧
  te_status (cl_execution c) = ToolExecutionStatus.PENDING ∧
  (is_Some (w_policy_evaluations w !! cl_id c) → authorizedb w' (cl_id c) = true).

Definition claim_post (w : World) (r : exn + Claim) (w' : World) : Prop :=
  auth_inv w' ∧
  match r with
  | inl _ => True
  | inr c => (cl_reused c = true → cl_should_execute c = false) ∧
             (cl_should_execute c = true → claim_ok w w' c)
  end.

Lemma resolve_existing_claim id existing fingerprint retry w :
  auth_inv w → w_tool_executions w !! id = Some existing →
  wp (resolve_existing id existing fingerprint retry) (claim_post w) w.
Proof.
  intros Hw Hid. unfold resolve_existing, claim_post. svc_steps; try by (split; [done|]); simpl.
  all: assert (auth_inv {| w with w_tool_executions :=
      <[id := reset_execution existing]> (w_tool_executions w) |}) as Hinv by
    (apply auth_inv_save; [done|by eapply auth_inv_lt| |done]; simpl; by absurd_mem).
  all: (split; [exact Hinv|split; [done|]]); intros _; split_and!; simpl;
    [done|by rewrite lookup_insert_eq|done|]; intros Hdecided; rewrite (authorizedb_frame w) by done.
  1,2: eapply ai_ran; [done..|]; rewrite Heqt; by mem_decide.
  by eapply ai_cancelled.
Qed.

Lemma claim_execution_claim row fingerprint retry w :
  auth_inv w → te_status row = ToolExecutionStatus.PENDING →
  wp (claim_execution row fingerprint retry) (claim_post w) w.
Proof.
  intros Hw Hrow. unfold claim_execution. apply wp_atomic, wp_bind.
  assert (Hexisting : ∀ id existing, w_tool_executions w !! id = Some existing →
    wp (resolve_existing id existing fingerprint retry)
      (atomic_post w (claim_post w)) w).
  { intros id existing Hid. eapply wp_mono; [by apply resolve_existing_claim|].
    intros [e|c] w'; [by intros _; split|done]. }
  assert (Hcreate : wp (catch (atomic (create_execution row))
      (λ e, match e with
            | IntegrityError =>
                existing ← get_where (same_key (te_workspace row) (te_tool_definition row)
                                        (te_idempotency_key row));
                resolve_existing (fst existing) (snd existing) fingerprint retry
            | e => raise e
            end)) (atomic_post w (claim_post w)) w).
  { apply wp_catch, wp_atomic. unfold create_execution. svc_steps. apply wp_save_unique.
    destruct (clashes _ _ _ _).
    - wp_beta. apply wp_bind, wp_get_where.
      destruct (select_rows _ w) as [|[id existing] [|]] eqn:Hs; wp_beta; [by split|simpl|by split].
      apply Hexisting. assert ((id, existing) ∈ select_rows (same_key (te_workspace row)
        (te_tool_definition row) (te_idempotency_key row)) w) as Hin by (rewrite Hs; left).
      apply in_select_rows in Hin. apply Hin.
    - wp_beta. svc_steps. split.
      + apply (auth_inv_save {| w with w_next := N.succ (w_next w) |}).
        * apply (auth_inv_frame w); [|done]. split_and!; simpl; try done; [lia|].
          intros [Hk Hev]. split; [intros i Hi; apply Hk; simpl in Hi; lia|].
          intros i wd Hi. apply Hev in Hi. simpl. lia.
        * simpl. lia.
        * rewrite Hrow. by absurd_mem.
        * by rewrite Hrow.
      + split; [done|]. intros _. split_and!; simpl; [done|by rewrite lookup_insert_eq|done|].
        destruct (ai_fresh _ Hw (w_next w)) as [_ ->]; [lia|]. by intros [? ?]. }
  destruct (String.eqb (te_idempotency_key row) ""); [apply wp_ret; exact Hcreate|].
  apply wp_first_row. wp_beta. destruct (head _) as [[id existing]|] eqn:Hh; [|exact Hcreate].
  apply Hexisting. by apply first_row_some in Hh as [Hn _].
Qed.

(** ** The gate *)

(** What the creation of an approval request leaves alone. *)
Definition other_frame : relation World := λ w w',
  w_policy_evaluations w' = w_policy_evaluations w ∧
  w_tool_executions w' = w_tool_executions w ∧ w_agent_runs w' = w_agent_runs w ∧
  (w_next w <= w_next w')%N.

#[export] Instance other_frame_preorder : PreOrder other_frame.
Proof.
  unfold other_frame. split; [intros w; split_and!; done|].
  intros w1 w2 w3 (?&?&?&?) (?&?&?&?). split_and!; try congruence. lia.
Qed.

Lemma create_approval_other id execution by_ ev risk role ttl args s :
  included other_frame (create_or_reuse_approval_request id execution by_ ev risk role ttl args s).
Proof.
  assert (Hemit : ∀ ws ty d v, included other_frame (emit_event ws ty d v)).
  { intros ws ty d v w. destruct (emit_event_effect ws ty d v w)
      as (n & e & dd & x & ids & Hn & Heq). rewrite Heq. by split_and!. }
  assert (Hcreate : ∀ r : ApprovalRequest, included other_frame (create_row r)).
  { intros r w. split_and!; simpl; [done..|lia]. }
  assert (Hrec : ∀ a tt ti ac ws md, included other_frame (record_event a tt ti ac ws md)).
  { intros a tt ti ac ws md w. split_and!; done. }
  unfold create_or_reuse_approval_request, first_row, get_now. cbv zeta.
  included_steps; auto.
Qed.

(** An approved request stays approved. *)
Lemma authorizedb_mono w w' id :
  w_policy_evaluations w' = w_policy_evaluations w → approvals_ok w → approval_rel w w' →
  authorizedb w id = true → authorizedb w' id = true.
Proof.
  intros He Hok Hrel. unfold authorizedb. rewrite He.
  destruct (w_policy_evaluations w !! id) as [e|]; [|done].
  rewrite !orb_true_iff. intros [Ha|Ha]; [by left|right].
  apply exists_row_true in Ha as (i & a & Hi & Ha). apply exists_row_true.
  destruct (Hrel Hok) as [_ Hs]. destruct (Hs i a Hi) as (a' & Hi' & Hst). exists i, a'.
  split; [done|]. destruct Hst as [->|[Hp _]]; [done|].
  apply andb_true_iff in Ha as [_ Ha%bool_decide_eq_true]. congruence.
Qed.

(** Deciding a request keeps the invariant. *)
Lemma auth_inv_approvals w w' :
  auth_inv w → approval_rel w w' → w_policy_evaluations w' = w_policy_evaluations w →
  w_tool_executions w' = w_tool_executions w → (w_next w <= w_next w')%N →
  (∀ i a', w_approvals w' !! i = Some a' → ∃ a, w_approvals w !! i = Some a ∧
     ar_tool_execution a = ar_tool_execution a') →
  auth_inv w'.
Proof.
  intros [Hran Hc Hfr Hok Hev] Hrel He Ht Hn Hreq. split.
  - intros i te. rewrite Ht. intros Hi Hs. eapply authorizedb_mono; [done..|by eapply Hran].
  - intros i te. rewrite Ht, He. intros Hi Hs Hd. eapply authorizedb_mono; [done..|by eapply Hc].
  - intros i Hi. rewrite Ht, He. apply Hfr. lia.
  - by apply Hrel.
  - intros i a Ha. rewrite He. destruct (Hreq i a Ha) as (a0 & Ha0 & <-). by eapply Hev.
Qed.

(** The only new request is for the execution. *)
Definition requests_for (id : N) : relation World := λ w w',
  ∀ i a', w_approvals w' !! i = Some a' →
    ar_tool_execution a' = id ∨ ∃ a, w_approvals w !! i = Some a ∧
      ar_tool_execution a = ar_tool_execution a'.

#[export] Instance requests_for_preorder id : PreOrder (requests_for id).
Proof.
  split.
  - intros w i a Ha. right. by exists a.
  - intros w1 w2 w3 H12 H23 i a3 Ha3. destruct (H23 i a3 Ha3) as [?|(a2 & Ha2 & Heq)]; [by left|].
    destruct (H12 i a2 Ha2) as [?|(a1 & Ha1 & Heq1)]; [left; congruence|].
    right. exists a1. split; [done|congruence].
Qed.

Lemma create_approval_requests id execution by_ ev risk role ttl args s :
  included (requests_for id)
    (create_or_reuse_approval_request id execution by_ ev risk role ttl args s).
Proof.
  assert (Hsame : ∀ w w', w_approvals w' = w_approvals w → requests_for id w w').
  { intros w w' Heq i a. rewrite Heq. intros Ha. right. by exists a. }
  assert (Hemit : ∀ ws ty d v, included (requests_for id) (emit_event ws ty d v)).
  { intros ws ty d v w. destruct (emit_event_effect ws ty d v w)
      as (n & e & dd & x & ids & Hn & Heq). rewrite Heq. by apply Hsame. }
  assert (Hcreate : ∀ r : ApprovalRequest, ar_tool_execution r = id →
    included (requests_for id) (create_row r)).
  { intros r Hr w i a. simpl. intros [[<- <-]|[_ Hi]]%lookup_insert_Some; [by left|].
    right. by exists a. }
  assert (Hrec : ∀ a tt ti ac ws md, included (requests_for id) (record_event a tt ti ac ws md)).
  { intros a tt ti ac ws md w. by apply Hsame. }
  unfold create_or_reuse_approval_request, first_row, get_now. cbv zeta.
  included_steps; auto.
Qed.

Lemma create_approval_keeps id execution by_ ev risk role ttl args s w :
  (0 < DELIVERY_DEFAULT_MAX_ATTEMPTS)%Z → is_Some (w_policy_evaluations w !! id) →
  keeps auth_inv w
    (create_or_reuse_approval_request id execution by_ ev risk role ttl args s w).2.
Proof.
  intros Hmax Hid [Hran Hc Hfr Hok Hev].
  destruct (create_approval_other id execution by_ ev risk role ttl args s w) as (He & Ht & _ & Hn).
  pose proof (create_approval_included Hmax id execution by_ ev risk role ttl args s w) as Hrel.
  pose proof (create_approval_requests id execution by_ ev risk role ttl args s w) as Hreq.
  split.
  - intros i te. rewrite Ht. intros Hi Hs. eapply authorizedb_mono; [done..|by eapply Hran].
  - intros i te. rewrite Ht, He. intros Hi Hs Hd. eapply authorizedb_mono; [done..|by eapply Hc].
  - intros i Hi. rewrite Ht, He. apply Hfr. lia.
  - by apply Hrel.
  - intros i a Ha. rewrite He. destruct (Hreq i a Ha) as [->|(a0 & Ha0 & <-)]; [done|by eapply Hev].
Qed.

(** The execution is there, and it was not cancelled. *)
Definition live (w : World) (id : N) : Prop :=
  ∃ te, w_tool_executions w !! id = Some te ∧ te_status te ≠ ToolExecutionStatus.CANCELLED.

Lemma auth_inv_evaluate w id e :
  auth_inv w → live w id → w_policy_evaluations w !! id = None →
  auth_inv {| w with w_policy_evaluations := <[id := e]> (w_policy_evaluations w) |}.
Proof.
  intros Hw (te & Hte & Hlive) Hnone. pose proof (auth_inv_lt w id te Hw Hte) as Hlt.
  destruct Hw as [Hran Hc Hfr Hok Hev].
  assert (Hauth : ∀ i, authorizedb w i = true → authorizedb
    {| w with w_policy_evaluations := <[id := e]> (w_policy_evaluations w) |} i = true).
  { intros i. unfold authorizedb. simpl.
    destruct (decide (i = id)) as [->|Hne]; [by rewrite Hnone|]. by rewrite lookup_insert_ne. }
  split; simpl; [| | |by apply (approvals_ok_frame w)|].
  - intros i t Hi Hs. apply Hauth. by eapply Hran.
  - intros i t Hi Hs Hd. apply Hauth. eapply Hc; [done..|].
    destruct (decide (i = id)) as [->|Hne]; [congruence|]. by rewrite lookup_insert_ne in Hd.
  - intros i Hi. rewrite lookup_insert_ne by lia. by apply Hfr.
  - intros i a Ha. destruct (decide (ar_tool_execution a = id)) as [->|Hne];
      [rewrite lookup_insert_eq; by eexists|]. rewrite lookup_insert_ne by done. by eapply Hev.
Qed.

Lemma wp_active_rules ws (Q : exn + option (N * list PolicyRule) → World → Prop) w :
  (∀ o, Q (inr o) w) → wp (active_rules ws) Q w.
Proof. intros HQ. unfold active_rules, resolve_active_version. svc_steps; apply HQ. Qed.

(** A computation whose successful runs keep the invariant. *)
Definition keeps_ok {A} (m : service A) (P : A → World → Prop) (w : World) : Prop :=
  wp m (λ r w', match r with inl _ => True | inr a => auth_inv w' ∧ P a w' end) w.

Lemma keeps_ok_bind {A B} (m : service A) (k : A → service B) P Q w :
  keeps_ok m P w → (∀ a w', auth_inv w' → P a w' → keeps_ok (k a) Q w') → keeps_ok (m ≫= k) Q w.
Proof.
  intros Hm Hk. unfold keeps_ok in *. apply wp_bind. eapply wp_mono; [exact Hm|].
  intros [e|a] w'; wp_beta; [done|]. intros [Hw' HP]. by apply Hk.
Qed.

Lemma keeps_ok_included {A} (m : service A) w :
  included (keeps auth_inv) m → auth_inv w → keeps_ok m (λ _ _, True) w.
Proof.
  intros Hm Hw. unfold keeps_ok, wp. destruct (m w) as [[e|a] w'] eqn:E; [done|]. split; [|done].
  specialize (Hm w Hw). by rewrite E in Hm.
Qed.

Lemma keeps_ok_run {A} (m : service A) w :
  keeps auth_inv w (m w).2 → auth_inv w → keeps_ok m (λ _ _, True) w.
Proof.
  intros Hm Hw. unfold keeps_ok, wp. destruct (m w) as [[e|a] w'] eqn:E; [done|]. split; [|done].
  by apply Hm.
Qed.

(** The rows of the gate, then the decision. *)
Lemma persist_ok {B} id execution s risk version d code reason ids
    (k : RiskAssessment → PolicyEvaluation → service B) Q w :
  auth_inv w → live w id → w_policy_evaluations w !! id = None →
  (∀ a e w', auth_inv w' → pe_decision e = d → w_policy_evaluations w' !! id = Some e →
     keeps_ok (k a e) Q w') →
  keeps_ok (a ← persist_risk_assessment id execution s risk;
            e ← persist_policy_evaluation id execution version d code reason ids;
            k a e) Q w.
Proof.
  intros Hw Hid Hnone Hk. unfold keeps_ok, persist_risk_assessment, persist_policy_evaluation,
    create_once. cbv zeta. svc_steps; try done.
  apply Hk; [|done|simpl; by rewrite lookup_insert_eq].
  match goal with |- auth_inv (set_rows _ ?w1) => apply (auth_inv_evaluate w1 id) end; [|done..].
  by apply (auth_inv_frame w).
Qed.

Context (Hmax : (0 < DELIVERY_DEFAULT_MAX_ATTEMPTS)%Z).

Lemma decide_gate_ok id execution s by_ risk args w :
  auth_inv w → live w id → w_policy_evaluations w !! id = None →
  keeps_ok (decide_gate id execution s by_ risk args)
    (λ o w', o = GateAllow → authorizedb w' id = true) w.
Proof.
  intros Hw Hid Hnone. unfold decide_gate. unfold keeps_ok at 1.
  apply wp_bind, wp_active_rules. intros active. wp_beta.
  destruct (evaluate_policy _ _ _ _) as [d|m|]; [|..|by apply wp_raise].
  - apply persist_ok; [done..|]. intros a e w' Hw' He Hev. destruct (decision d) eqn:Hd.
    + split; [done|]. intros _. change (authorizedb w' id = true). unfold authorizedb.
      by rewrite Hev, He, bool_decide_eq_true_2.
    + eapply keeps_ok_bind; [by apply keeps_ok_included; [apply transition_blocked_keeps|]|].
      intros [] w1 Hw1 _. by split.
    + eapply keeps_ok_bind; [by apply keeps_ok_run; [apply create_approval_keeps; [done|by eexists]|]|].
      intros _ w1 Hw1 _.
      eapply keeps_ok_bind; [by apply keeps_ok_included; [apply transition_waiting_keeps|]|].
      intros [] w2 Hw2 _. by split.
  - apply persist_ok; [done..|]. intros a e w' Hw' He Hev.
    eapply keeps_ok_bind; [by apply keeps_ok_included; [apply transition_blocked_keeps|]|].
    intros [] w1 Hw1 _. by split.
Qed.

Section Recorded.
Context (step : StepRecorder) (step_frame : recorder_frame step).

Lemma step_keeps a b c d : included (keeps auth_inv) (step a b c d).
Proof. apply frame_keeps, step_frame. Qed.

Lemma run_policy_gate_ok id execution s td by_ args w :
  auth_inv w → live w id → w_policy_evaluations w !! id = None →
  wp (run_policy_gate step id execution s td by_ args)
    (λ r w', auth_inv w' ∧ (r = inr () → authorizedb w' id = true)) w.
Proof.
  intros Hw Hid Hnone. unfold run_policy_gate. cbv zeta. apply wp_bind.
  apply wp_frame; [apply step_frame|]. intros r w1 Hf.
  assert (Hw1 : auth_inv w1) by by apply (auth_inv_frame w). destruct r as [e|[]]; wp_beta; [done|].
  destruct Hf as (He & _ & _ & Ht & _). unfold live in Hid. rewrite <-Ht in Hid. rewrite <-He in Hnone.
  apply wp_bind, wp_atomic. eapply wp_mono; [by apply decide_gate_ok|].
  intros [e|o] w2; wp_beta; [done|]. intros [Hw2 Ho].
  assert (Hstep : ∀ a b c d (k : () → service ()), (∀ w3, auth_inv w3 →
      wp (k ()) (λ r w', auth_inv w' ∧ (r = inr () → authorizedb w' id = true)) w3) →
    ∀ w3, auth_inv w3 →
    wp (step a b c d ≫= k) (λ r w', auth_inv w' ∧ (r = inr () → authorizedb w' id = true)) w3).
  { intros a b c d k Hk w3 Hw3. apply wp_bind, wp_frame; [apply step_frame|].
    intros r w4 Hf4. assert (auth_inv w4) by by apply (auth_inv_frame w3).
    destruct r as [e|[]]; wp_beta; [done|by apply Hk]. }
  destruct o; [| | |]; try (repeat (apply Hstep; [|assumption]; intros ? ?); by apply wp_raise).
  apply wp_frame; [apply step_frame|]. intros r w3 Hf3. split; [by apply (auth_inv_frame w2)|].
  intros _. destruct Hf3 as (? & ? & _). rewrite (authorizedb_frame w2) by done. by apply Ho.
Qed.

(** ** Agreement of the guarded and the plain runs *)

Definition guard_rs (check : World → N → bool) (rs : Resolved) : Resolved :=
  {| rs_tool := guard_tool check (rs_tool rs); rs_definition_id := rs_definition_id rs;
     rs_definition := rs_definition rs; rs_binding_id := rs_binding_id rs;
     rs_agent_version := rs_agent_version rs; rs_arguments := rs_arguments rs;
     rs_timeout := rs_timeout rs |}.

Definition map_result {A B} (f : A → B) (x : (exn + A) * World) : (exn + B) * World :=
  match x with (inl e, w) => (inl e, w) | (inr a, w) => (inr (f a), w) end.

Lemma bind_map {A B C} (m : service A) (k : A → service B) (k' : A → service C) f w :
  (∀ a w1, k' a w1 = map_result f (k a w1)) → (m ≫= k') w = map_result f ((m ≫= k) w).
Proof.
  intros Hk. unfold mbind, M_bind. by destruct (m w) as [[e|a] w1].
Qed.

Lemma bind_map_both {A A' B C} (g : A → A') (m : service A) (m' : service A') (k : A → service B)
    (k' : A' → service C) f w :
  m' w = map_result g (m w) → (∀ a w1, k' (g a) w1 = map_result f (k a w1)) →
  (m' ≫= k') w = map_result f ((m ≫= k) w).
Proof.
  intros Hm Hk. unfold mbind, M_bind. rewrite Hm. destruct (m w) as [[e|a] w1]; [done|apply Hk].
Qed.

Lemma bind_agree_map {A A' B} (g : A → A') (m : service A) (m' : service A') (k : A → service B)
    (k' : A' → service B) w :
  m' w = map_result g (m w) → (∀ a w1, m w = (inr a, w1) → k' (g a) w1 = k a w1) →
  (m' ≫= k') w = (m ≫= k) w.
Proof.
  intros Hm Hk. unfold mbind, M_bind. rewrite Hm.
  destruct (m w) as [[e|a] w1]; [done|by apply Hk].
Qed.

Lemma bind_agree_l {A B} (m m' : service A) (k : A → service B) w :
  m' w = m w → (m' ≫= k) w = (m ≫= k) w.
Proof. intros Hm. unfold mbind, M_bind. by rewrite Hm. Qed.

Lemma resolve_request_guard check tool_registry run_id agent_run key arguments ikey w :
  resolve_request step (guard_registry check tool_registry) run_id agent_run key arguments ikey w =
  map_result (guard_rs check)
    (resolve_request step tool_registry run_id agent_run key arguments ikey w).
Proof.
  unfold resolve_request. apply bind_map; intros version w1. apply bind_map; intros [] w2.
  apply bind_map; intros [] w3.
  apply (bind_map_both (guard_tool check));
    [by unfold registry_get, guard_registry; destruct (tool_registry key)|].
  intros tool w3'.
  apply bind_map; intros [[td_id td]|] w4; [|done].
  apply bind_map; intros binding w5. apply bind_map; intros [] w6.
  apply bind_map; intros validated w7. apply bind_map; intros [t|] w8; done.
Qed.

Lemma resolve_request_returns tool_registry run_id agent_run key arguments ikey w rs w' :
  resolve_request step tool_registry run_id agent_run key arguments ikey w = (inr rs, w') →
  tool_registry key = Some (rs_tool rs) ∧
  w_agent_versions w !! run_agent_version agent_run = Some (rs_agent_version rs).
Proof.
  unfold resolve_request, mbind at 1, M_bind at 1. rewrite get_row_eq. unfold rows. simpl.
  destruct (w_agent_versions w !! run_agent_version agent_run) as [version|]; [|done].
  intros Hrun. refine (returns_run (λ rs, tool_registry key = Some (rs_tool rs) ∧
    Some version = Some (rs_agent_version rs)) _ w rs w' _ Hrun).
  apply returns_bind; intros []. apply returns_bind; intros []. unfold registry_get.
  destruct (tool_registry key) as [tool|]; [|by intros w0]. apply returns_ret_bind.
  returns_steps. done.
Qed.

Lemma resolve_request_tool tool_registry run_id agent_run key arguments ikey w rs w' :
  resolve_request step tool_registry run_id agent_run key arguments ikey w = (inr rs, w') →
  tool_registry key = Some (rs_tool rs).
Proof. intros Hrun. apply resolve_request_returns in Hrun. apply Hrun. Qed.

Lemma resolve_request_frame tool_registry run_id agent_run key arguments ikey :
  included gate_frame
    (resolve_request step tool_registry run_id agent_run key arguments ikey).
Proof.
  unfold resolve_request, resolve_binding, resolve_enabled_binding, check_advisory_budget,
    validate_arguments, effective_timeout, registry_get, get_row, find_row, first_row, get_now.
  cbv zeta. included_steps; auto.
Qed.

Lemma transition_running_ok id w :
  auth_inv w → authorizedb w id = true →
  wp (transition_running id) (λ r w', auth_inv w' ∧ (r = inr () → ready w' id = true)) w.
Proof.
  intros Hw Ha. unfold transition_running. apply wp_atomic, wp_bind, wp_get_row. unfold rows. simpl.
  destruct (w_tool_executions w !! id) as [te|] eqn:Hte; wp_beta; [|done].
  svc_steps; [done|]. split.
  - apply auth_inv_save; [done|by eapply auth_inv_lt|done|done].
  - intros _. unfold ready. rewrite (authorizedb_frame w) by done. simpl.
    by rewrite Ha, lookup_insert_eq.
Qed.

Lemma reserve_ready run_id m w r w' id :
  reserve_budget_slot run_id m w = (r, w') → ready w' id = ready w id.
Proof.
  intros Hrun.
  assert (wp (reserve_budget_slot run_id m) (λ _ w', ready w' id = ready w id) w) as Hwp.
  { unfold reserve_budget_slot. svc_steps; done. }
  by apply (wp_run _ _ _ _ _ Hwp Hrun).
Qed.

Lemma frame_ready {A} (m : service A) w r w' id :
  included gate_frame m → m w = (r, w') → ready w' id = ready w id.
Proof. intros Hm Hrun. apply ready_frame. specialize (Hm w). by rewrite Hrun in Hm. Qed.

(** From [ready] on, the guard changes nothing. *)
Lemma execute_claimed_guard run_id agent_run key rs id execution w :
  (∀ context arguments, included gate_frame (handler (rs_tool rs) context arguments)) →
  auth_inv w → authorizedb w id = true →
  execute_claimed step run_id agent_run key (guard_rs ready rs) id execution w =
  execute_claimed step run_id agent_run key rs id execution w.
Proof.
  intros Hh Hw Ha. unfold execute_claimed. cbv zeta. apply bind_agree. intros [] w1 Hr1.
  pose proof (transition_running_ok id w Hw Ha) as Ht. apply (wp_run _ _ _ _ _) with (2 := Hr1) in Ht.
  destruct Ht as [_ Hready]. specialize (Hready eq_refl).
  apply bind_agree. intros [] w2 Hr2; apply (reserve_ready _ _ _ _ _ id) in Hr2; [|done].
  rewrite Hready in Hr2. apply bind_agree. intros [] w3 Hr3.
  apply (frame_ready _ _ _ _ id) in Hr3; [|apply step_frame]. rewrite Hr2 in Hr3.
  apply bind_agree. intros now w4 [= <- <-]. apply bind_agree_l. by apply run_handler_guard; [apply ready_stable|..].
Qed.

(** Running a handler moves the world along any relation that the frame of a
    handler and the writes to the execution's own row satisfy. *)
Record tolerates (R : relation World) (id : N) : Prop := {
  tol_frame : ∀ w w', gate_frame w w' → R w w';
  tol_bump : ∀ n, included R (update_rows (λ i _, bool_decide (i = id)) (set_attempt_count n));
  tol_success : ∀ output, included R (finalize_success id output);
  tol_failure : ∀ status code message, status ∈ RAN →
    included R (finalize_failure id status code message);
}.

Lemma run_handler_included R `{!PreOrder R} on_failure id tool context arguments a :
  tolerates R id →
  (∀ context arguments, included gate_frame (handler tool context arguments)) →
  (∀ t c, included R (on_failure t c)) →
  included R (run_handler on_failure id tool context arguments a).
Proof.
  intros [Htf Htb Hts Htl] Hh Hf. unfold run_handler, run_with_retries.
  apply included_bind; [apply _|apply included_attempt|].
  - generalize (N.to_nat (max_attempts (retry_policy (spec tool)) - a)). intros fuel.
    revert a. pose proof (invoke_frame tool context arguments (Hh context arguments)) as Hi.
    assert (included R (invoke_with_timeout tool context arguments)) by (intros w; apply Htf, Hi).
    induction fuel as [|fuel IH]; intros a; cbn [run_attempts]; cbv zeta; included_steps; auto.
  - intros r. included_steps; auto; apply Htl; by mem_decide.
Qed.

Lemma auth_inv_tolerates id : tolerates (keeps auth_inv) id.
Proof.
  split; [intros w w' Hf Hw; by apply (auth_inv_frame w)|apply bump_keeps|
    apply finalize_success_keeps|apply finalize_failure_keeps].
Qed.

Lemma run_handler_keeps on_failure id tool context arguments a :
  (∀ context arguments, included gate_frame (handler tool context arguments)) →
  (∀ t c, included (keeps auth_inv) (on_failure t c)) →
  included (keeps auth_inv) (run_handler on_failure id tool context arguments a).
Proof. apply run_handler_included; [apply _|apply auth_inv_tolerates]. Qed.

Lemma execute_claimed_keeps run_id agent_run key rs id execution w :
  (∀ context arguments, included gate_frame (handler (rs_tool rs) context arguments)) →
  auth_inv w → authorizedb w id = true →
  auth_inv (execute_claimed step run_id agent_run key rs id execution w).2.
Proof.
  intros Hh Hw Ha.
  change (wp (execute_claimed step run_id agent_run key rs id execution) (λ _, auth_inv) w).
  unfold execute_claimed. cbv zeta. apply wp_bind.
  eapply wp_mono; [by apply transition_running_ok|]. intros r w1 [Hw1 _]. destruct r as [e|[]]; wp_beta;
    [done|]. revert w1 Hw1. pose proof reserve_keeps. pose proof step_keeps.
  assert (Hfail : ∀ c m, included (keeps auth_inv) (finalize_failure id ToolExecutionStatus.FAILED c m))
    by (intros; apply finalize_failure_keeps; by mem_decide).
  assert (Hrun : ∀ f ctx args a, (∀ t c, included (keeps auth_inv) (f t c)) →
    included (keeps auth_inv) (run_handler f id (rs_tool rs) ctx args a))
    by (intros; by apply run_handler_keeps).
  match goal with |- ∀ w1, auth_inv w1 → wp ?m _ w1 => change (included (keeps auth_inv) m) end.
  unfold get_now. included_steps; auto.
Qed.

Context (tool_registry : Registry) (handlers_frame : registry_frame tool_registry).

(** From the claim to the gate: what holds when the execution is about to run. *)
Definition gated (execution_id : N) (execution : ToolExecution) (rs : Resolved)
    (agent_run : AgentRun) : service () :=
  evaluated ← already_policy_evaluated execution_id;
  if (evaluated : bool) then mret ()
  else run_policy_gate step execution_id execution (spec (rs_tool rs)) (rs_definition rs)
         (run_created_by agent_run) (rs_arguments rs).

Lemma gated_ok w0 w c rs agent_run :
  auth_inv w → claim_ok w0 w c →
  wp (gated (cl_id c) (cl_execution c) rs agent_run)
    (λ r w', auth_inv w' ∧ (r = inr () → authorizedb w' (cl_id c) = true)) w.
Proof.
  intros Hw (He & Ht & Hs & Ha). unfold gated, already_policy_evaluated. rewrite <-He in Ha.
  apply wp_bind, wp_gets. wp_beta. case_bool_decide as Hev.
  - apply wp_ret. auto.
  - apply run_policy_gate_ok; [done|by eexists; rewrite Hs|]. by apply eq_None_not_Some.
Qed.

Definition claim_of (run_id : N) (agent_run : AgentRun) (rs : Resolved)
    (idempotency_key : option string) : service Claim :=
  let s := spec (rs_tool rs) in
  let document := JObj (rs_arguments rs) in
  let fingerprint := fingerprint_arguments document in
  claim_execution
    (new_execution (run_workspace agent_run) run_id (run_agent_version agent_run)
       (rs_definition_id rs) (rs_binding_id rs) (default "" idempotency_key) fingerprint
       (Redaction.redact (map str_lower (input_sensitive_fields s)) document))
    fingerprint (retry_policy s).

Lemma execute_tool_guard run_id agent_run key arguments ikey w :
  auth_inv w →
  execute_tool step (guard_registry ready tool_registry) run_id agent_run key arguments ikey w =
  execute_tool step tool_registry run_id agent_run key arguments ikey w.
Proof.
  intros Hw. unfold execute_tool.
  apply (bind_agree_map (guard_rs ready)); [apply resolve_request_guard|]. intros rs w1 Hrs.
  pose proof (resolve_request_frame tool_registry run_id agent_run key arguments ikey w) as Hf.
  rewrite Hrs in Hf. simpl in Hf. apply resolve_request_tool in Hrs.
  apply (auth_inv_frame w w1 Hf) in Hw. cbv zeta.
  change (spec (rs_tool (guard_rs ready rs))) with (spec (rs_tool rs)).
  change (rs_arguments (guard_rs ready rs)) with (rs_arguments rs).
  apply bind_agree. intros c w2 Hc.
  assert (Hclaim : claim_post w1 (inr c) w2).
  { refine (wp_run _ _ _ _ _ _ Hc). by apply claim_execution_claim. }
  destruct Hclaim as (Hw2 & Hre & Hok). destruct (cl_reused c); [done|].
  destruct (bool_decide _); [done|]. destruct (cl_should_execute c); [|done]. simpl.
  pose proof (gated_ok w1 w2 c rs agent_run Hw2 (Hok eq_refl)) as Hg.
  unfold gated in Hg. apply bind_agree. intros evaluated w3 [= <- <-].
  unfold wp, already_policy_evaluated, gets, mbind, M_bind in Hg.
  apply bind_agree. intros [] w4 Hw4. rewrite Hw4 in Hg. destruct Hg as [Hinv Ha].
  apply execute_claimed_guard; [|done|by apply Ha]. intros ctx args. by eapply handlers_frame.
Qed.

Lemma execute_tool_keeps run_id agent_run key arguments ikey :
  included (keeps auth_inv)
    (execute_tool step tool_registry run_id agent_run key arguments ikey).
Proof.
  intros w Hw. change (wp (execute_tool step tool_registry run_id agent_run key arguments ikey)
    (λ _, auth_inv) w).
  unfold execute_tool. apply wp_bind. unfold wp at 1.
  pose proof (resolve_request_frame tool_registry run_id agent_run key arguments ikey w) as Hf.
  destruct (resolve_request step tool_registry run_id agent_run key arguments ikey w)
    as [[e|rs] w1] eqn:Hrs; simpl in Hf; apply (auth_inv_frame w w1 Hf) in Hw; wp_beta; [done|].
  apply resolve_request_tool in Hrs. cbv zeta. apply wp_bind.
  eapply wp_mono; [by apply claim_execution_claim|]. intros [e|c] w2 [Hw2 Hc]; wp_beta; [done|].
  destruct Hc as [_ Hok]. pose proof step_keeps as Hstep.
  destruct (cl_reused c).
  { case_bool_decide; [|by unfold raise_policy_terminal_outcome; case_bool_decide].
    apply wp_bind. eapply (wp_mono _ (λ _, auth_inv)); [by apply Hstep|].
    intros [e|[]] w3; wp_beta; done. }
  case_bool_decide; [by apply wp_raise|]. destruct (cl_should_execute c); [|by apply wp_ret]. simpl.
  pose proof (gated_ok w1 w2 c rs agent_run Hw2 (Hok eq_refl)) as Hg.
  unfold gated in Hg. apply wp_bind. unfold wp, already_policy_evaluated, gets, mbind, M_bind in Hg.
  apply wp_gets. wp_beta. apply wp_bind. 
  eapply (wp_mono _ (λ r w', auth_inv w' ∧ (r = inr () → authorizedb w' (cl_id c) = true)));
    [exact Hg|].
  intros [e|[]] w3; wp_beta; [by intros [? _]|]. intros [Hw3 Ha].
  apply execute_claimed_keeps; [|done|by apply Ha]. intros ctx args. by eapply handlers_frame.
Qed.

(** ** The same for a resume *)

Lemma claim_resume_ok id w :
  auth_inv w → authorizedb w id = true →
  wp (claim_resume id)
    (λ r w', auth_inv w' ∧ ∀ execution, r = inr (Some execution) → ready w' id = true) w.
Proof.
  intros Hw Ha. unfold claim_resume. apply wp_atomic, wp_bind, wp_get_row. unfold rows. simpl.
  destruct (w_tool_executions w !! id) as [te|] eqn:Hte; wp_beta; [|done].
  svc_steps; [done|]. split.
  - apply auth_inv_save; [done|by eapply auth_inv_lt|done|done].
  - intros _ _. unfold ready. rewrite (authorizedb_frame w) by done. simpl.
    by rewrite Ha, lookup_insert_eq.
Qed.

Lemma read_agree {A B} (m : service A) (k k' : A → service B) w :
  (m w).2 = w → (∀ a, k a w = k' a w) → (m ≫= k) w = (m ≫= k') w.
Proof.
  intros Hm Hk. apply bind_agree. intros a w1 Ha. rewrite Ha in Hm. simpl in Hm. by subst.
Qed.

Lemma included_ret_bind {A B} (R : relation World) (a : A) (k : A → service B) :
  included R (k a) → included R (mret a ≫= k).
Proof. done. Qed.

Lemma resume_claimed_guard id execution tool arguments w :
  (∀ context arguments, included gate_frame (handler tool context arguments)) →
  ready w id = true →
  resume_claimed step id execution (guard_tool ready tool) arguments w =
  resume_claimed step id execution tool arguments w.
Proof.
  intros Hh Hready. unfold resume_claimed. cbv zeta.
  apply read_agree; [apply get_row_pure|]. intros run.
  apply read_agree; [apply get_row_pure|]. intros version.
  apply read_agree; [done|]. intros now.
  apply bind_agree. intros [] w2 Hr2; apply (reserve_ready _ _ _ _ _ id) in Hr2; [|done].
  rewrite Hready in Hr2. apply bind_agree. intros [] w3 Hr3.
  apply (frame_ready _ _ _ _ id) in Hr3; [|apply step_frame]. rewrite Hr2 in Hr3.
  apply bind_agree_l. by apply run_handler_guard; [apply ready_stable|..].
Qed.

Lemma resume_guard id w :
  auth_inv w → authorizedb w id = true →
  resume_after_approval step (guard_registry ready tool_registry) id w =
  resume_after_approval step tool_registry id w.
Proof.
  intros Hw Ha. unfold resume_after_approval.
  apply read_agree; [apply get_row_pure|]. intros _.
  apply bind_agree. intros [execution|] w1 Hc; [|done].
  pose proof (wp_run _ _ _ _ _ (claim_resume_ok id w Hw Ha) Hc) as [_ Hready].
  specialize (Hready _ eq_refl). apply read_agree; [done|]. intros approval.
  destruct (action_changed approval execution); [done|].
  apply read_agree; [apply get_row_pure|]. intros td.
  apply (bind_agree_map (guard_tool ready));
    [by unfold registry_get, guard_registry; destruct (tool_registry (td_key td))|].
  intros tool w2 Htool.
  assert (tool_registry (td_key td) = Some tool ∧ w2 = w1) as [Hreg ->].
  { revert Htool. unfold registry_get. destruct (tool_registry (td_key td)); by intros [= -> ->]. }
  apply read_agree; [apply get_row_pure|]. intros binding.
  destruct (_ || _); [done|]. change (spec (guard_tool ready tool)) with (spec tool).
  destruct (input_model _ _) as [arguments|]; [|done].
  apply resume_claimed_guard; [|done]. intros ctx args. by eapply handlers_frame.
Qed.

Lemma resume_keeps id w :
  auth_inv w → authorizedb w id = true →
  auth_inv (resume_after_approval step tool_registry id w).2.
Proof.
  intros Hw Ha.
  change (wp (resume_after_approval step tool_registry id) (λ _, auth_inv) w).
  unfold resume_after_approval. apply wp_bind, wp_get_row.
  destruct (rows w !! id); wp_beta; [|done].
  apply wp_bind. eapply wp_mono; [by apply claim_resume_ok|]. intros [e|o] w1 [Hw1 _]; wp_beta; [done|].
  revert w1 Hw1. pose proof reserve_keeps. pose proof step_keeps.
  assert (Hfail : ∀ c m, included (keeps auth_inv) (finalize_failure id ToolExecutionStatus.FAILED c m))
    by (intros; apply finalize_failure_keeps; by mem_decide).
  assert (Hget : ∀ A (Ht : Table A) i, included (keeps auth_inv) (get_row (A := A) i)).
  { intros A Ht i w1 Hw1. by rewrite get_row_pure. }
  match goal with |- ∀ w1, auth_inv w1 → wp ?m _ w1 => change (included (keeps auth_inv) m) end.
  destruct o as [execution|].
  2: { unfold resume_lost, raise_policy_terminal_outcome. included_steps; auto. }
  apply included_bind; [apply _|apply included_gets, _|]. intros approval.
  destruct (action_changed _ _); [unfold fail_and_raise; included_steps; auto|].
  apply included_bind; [apply _|auto|]. intros td. unfold registry_get.
  destruct (tool_registry (td_key td)) as [tool|] eqn:Hreg; [|by intros w1].
  apply included_ret_bind.
  assert (Hrun : ∀ f ctx args a, (∀ t c, included (keeps auth_inv) (f t c)) →
    included (keeps auth_inv) (run_handler f id tool ctx args a)).
  { intros f ctx args a Hf. apply run_handler_keeps; [|done].
    intros c2 a2. by eapply handlers_frame. }
  unfold resume_claimed, fail_and_raise, get_now. cbv zeta. included_steps; auto.
  apply Hrun. intros. apply included_ret, _.
Qed.

(** C1. A tool handler is invoked only for an execution that is running and whose stored
    policy decision is an ALLOW, or for which a human approval was given: a registry
    whose handlers check exactly that before they act behaves the same, for every request
    (a first execution, an idempotent retry) and for the resume of an approved request,
    the only kind [resume_agent_run_after_approval] asks for.  The invariant that makes it
    so holds again afterwards: whatever runs or ran is authorised, an approval is asked
    for only once the decision is stored, and nothing was cancelled after its decision
    was stored without being allowed or approved.  Cancelling what waits for an approval
    breaks that last part: [cancelled_request_skips_gate]. *)
Theorem handler_needs_authorisation run_id agent_run key arguments ikey w :
  auth_inv w →
  (let executed := execute_tool step tool_registry run_id agent_run key arguments ikey w in
   execute_tool step (guard_registry ready tool_registry) run_id agent_run key arguments ikey w = executed ∧
   auth_inv executed.2) ∧
  (∀ i a, w_approvals w !! i = Some a → ar_status a = ApprovalStatus.APPROVED →
   let id := ar_tool_execution a in
   let resumed := resume_after_approval step tool_registry id w in
   resume_after_approval step (guard_registry ready tool_registry) id w = resumed ∧ auth_inv resumed.2).
Proof.
  intros Hw. split; [split; [by apply execute_tool_guard|by apply execute_tool_keeps]|].
  intros i a Hi Ha. pose proof (approved_authorized w i a Hw Hi Ha).
  split; [by apply resume_guard|by apply resume_keeps].
Qed.

(** ** Resuming *)

(** The execution is not waiting for an approval. *)
Definition settled (id : N) (w : World) : Prop :=
  ∀ te, w_tool_executions w !! id = Some te →
    te_status te ≠ ToolExecutionStatus.WAITING_FOR_APPROVAL.

(** A transaction that writes one execution back as [f] makes it. *)
Lemma locked_included (R : relation World) `{!PreOrder R} id (k : ToolExecution → service ()) :
  (∀ te, included R (k te)) → included R (atomic (locked ← get_row id; k locked)).
Proof.
  intros Hk. apply included_atomic; [apply _|]. apply included_bind; [apply _| |exact Hk].
  intros w. by rewrite get_row_pure.
Qed.

Lemma settled_save id te :
  te_status te ≠ ToolExecutionStatus.WAITING_FOR_APPROVAL →
  included (keeps (settled id)) (save_row id te).
Proof. intros Hne w _ te'. simpl. rewrite lookup_insert_eq. by intros [= <-]. Qed.

Lemma settled_tolerates id : tolerates (keeps (settled id)) id.
Proof.
  split.
  - intros w w' (_ & _ & _ & Ht & _) Hw te. rewrite Ht. apply Hw.
  - intros n w Hw te. simpl. rewrite rows_update.
    destruct (w_tool_executions w !! id) as [te0|] eqn:Hte; [|done]. simpl. intros [= <-].
    pose proof (Hw te0 Hte). by case_match.
  - intros output. apply locked_included; [apply _|]. intros te. unfold get_now.
    included_steps. by apply settled_save.
  - intros status code message Hs. apply locked_included; [apply _|]. intros te. unfold get_now.
    included_steps. apply settled_save. simpl. intros ->. revert Hs. by absurd_mem.
Qed.

Lemma settled_reserve id run_id m : included (keeps (settled id)) (reserve_budget_slot run_id m).
Proof.
  unfold reserve_budget_slot, find_row. included_steps. intros w Hw te. apply Hw.
Qed.

Lemma claim_resume_settles id w :
  wp (claim_resume id) (λ r w', settled id w') w.
Proof.
  unfold claim_resume. apply wp_atomic, wp_bind, wp_get_row. unfold rows. simpl.
  destruct (w_tool_executions w !! id) as [te|] eqn:Hte; wp_beta.
  2: { intros te. simpl. by rewrite Hte. }
  case_bool_decide as Hs; simpl; [|by intros te'; simpl; rewrite Hte; intros [= <-]].
  svc_steps. intros te'. simpl. rewrite lookup_insert_eq. by intros [= <-].
Qed.

Lemma resume_settles id w : settled id (resume_after_approval step tool_registry id w).2.
Proof.
  change (wp (resume_after_approval step tool_registry id) (λ _, settled id) w).
  unfold resume_after_approval. apply wp_bind, wp_get_row.
  destruct (rows w !! id) eqn:Hid; wp_beta.
  2: { intros te Hte. unfold rows in Hid. simpl in Hid. congruence. }
  apply wp_bind. eapply wp_mono; [by apply claim_resume_settles|].
  intros [e|o] w1 Hw1; wp_beta; [done|].
  revert w1 Hw1. pose proof (settled_reserve id).
  assert (Hstep : ∀ a b c d, included (keeps (settled id)) (step a b c d))
    by (intros a b c d w' Hw'; by apply (tol_frame _ _ (settled_tolerates id) w'); [apply step_frame|]).
  assert (Hfail : ∀ c m, included (keeps (settled id))
    (finalize_failure id ToolExecutionStatus.FAILED c m))
    by (intros; apply (tol_failure _ _ (settled_tolerates id)); by mem_decide).
  assert (Hget : ∀ A (Ht : Table A) i, included (keeps (settled id)) (get_row (A := A) i)).
  { intros A Ht i w1 Hw1. by rewrite get_row_pure. }
  match goal with |- ∀ w1, settled id w1 → wp ?m _ w1 =>
    change (included (keeps (settled id)) m) end.
  destruct o as [execution|].
  2: { unfold resume_lost, raise_policy_terminal_outcome. included_steps; auto. }
  apply included_bind; [apply _|apply included_gets, _|]. intros approval.
  destruct (action_changed _ _); [unfold fail_and_raise; included_steps; auto|].
  apply included_bind; [apply _|auto|]. intros td. unfold registry_get.
  destruct (tool_registry (td_key td)) as [tool|] eqn:Hreg; [|by intros w1].
  apply included_ret_bind.
  assert (Hrun : ∀ ctx args a,
    included (keeps (settled id)) (run_handler (λ _ _, mret ()) id tool ctx args a)).
  { intros ctx args a. apply run_handler_included; [apply _|apply settled_tolerates| |].
    - intros c2 a2. by eapply handlers_frame.
    - intros. apply included_ret, _. }
  unfold resume_claimed, fail_and_raise, get_now. cbv zeta. included_steps; auto.
Qed.

Lemma claim_resume_settled id w :
  settled id w →
  claim_resume id w = match w_tool_executions w !! id with
                      | Some _ => (inr None, w) | None => (inl DoesNotExist, w) end.
Proof.
  intros Hw.
  assert (Hwp : wp (claim_resume id) (λ r w', (r, w') = match w_tool_executions w !! id with
                      | Some _ => (inr None, w) | None => (inl DoesNotExist, w) end) w).
  { unfold claim_resume. apply wp_atomic, wp_bind, wp_get_row. unfold rows. simpl.
    destruct (w_tool_executions w !! id) as [te|] eqn:Hte; wp_beta; [|done].
    rewrite bool_decide_eq_false_2 by (by apply Hw). done. }
  unfold wp in Hwp. by destruct (claim_resume id w).
Qed.

(** A resume that finds the execution no longer waiting reads it and stops. *)
Lemma resume_settled_stops step' tool_registry' id w :
  settled id w →
  resume_after_approval step' tool_registry' id w =
  (_ ← get_row (A := ToolExecution) id; resume_lost id) w.
Proof.
  intros Hw. unfold resume_after_approval. apply read_agree; [apply get_row_pure|]. intros _.
  unfold mbind at 1, M_bind at 1. rewrite claim_resume_settled by done.
  destruct (w_tool_executions w !! id) as [te|] eqn:Hte; [done|].
  unfold resume_lost, mbind at 1, M_bind at 1. rewrite get_row_eq. unfold rows. simpl.
  by rewrite Hte.
Qed.

Lemma resume_lost_pure id w : (resume_lost id w).2 = w.
Proof.
  change (wp (resume_lost id) (λ _ w', w' = w) w). unfold resume_lost, raise_policy_terminal_outcome.
  svc_steps; done.
Qed.

(** C5. An approved action runs at most once: after one resume, however it ended,
    another resume of the same execution -- with any handlers, so without calling
    any -- changes nothing and reports the state it finds. *)
Theorem resume_at_most_once step' tool_registry' id w :
  let w1 := (resume_after_approval step tool_registry id w).2 in
  resume_after_approval step' tool_registry' id w1 =
  resume_after_approval no_step (λ _, None) id w1 ∧
  (resume_after_approval step' tool_registry' id w1).2 = w1.
Proof.
  intros w1. pose proof (resume_settles id w) as Hs. fold w1 in Hs.
  rewrite !resume_settled_stops by done. split; [done|].
  unfold mbind, M_bind. pose proof (get_row_pure (A := ToolExecution) id w1) as Hp.
  destruct (get_row (A := ToolExecution) id w1) as [[e|te] w2]; simpl in *; subst; [done|].
  apply resume_lost_pure.
Qed.

(** ** The budget *)

(** One slot of the run's budget was reserved. *)
Definition slot_used (run_id max : N) (w w' : World) : Prop :=
  ∃ r, w_agent_runs w !! run_id = Some r ∧ (run_tool_call_count r < max)%N ∧
    w_agent_runs w' =
      <[run_id := {| r with run_tool_call_count := (run_tool_call_count r + 1)%N |}]> (w_agent_runs w).

Lemma runs_tolerates id : tolerates (same w_agent_runs) id.
Proof.
  assert (Hsave : ∀ te, included (same w_agent_runs) (save_row (A := ToolExecution) id te))
    by (intros te w; done).
  split.
  - by intros w w' (_ & _ & _ & _ & Hr & _).
  - intros n w. done.
  - intros output. apply locked_included; [apply _|]. intros te. unfold get_now. included_steps; auto.
  - intros status code message _. apply locked_included; [apply _|]. intros te. unfold get_now.
    included_steps; auto.
Qed.

Lemma step_runs a b c d : included (same w_agent_runs) (step a b c d).
Proof. intros w. apply (tol_frame _ _ (runs_tolerates 0)), step_frame. Qed.

Lemma run_handler_runs on_failure id tool context arguments a :
  (∀ context arguments, included gate_frame (handler tool context arguments)) →
  (∀ t c, included (same w_agent_runs) (on_failure t c)) →
  included (same w_agent_runs) (run_handler on_failure id tool context arguments a).
Proof. apply run_handler_included; [apply _|apply runs_tolerates]. Qed.

Lemma wp_reserve run_id max (Q : exn + bool → World → Prop) w :
  Q (inr false) w → (∀ w', slot_used run_id max w w' → Q (inr true) w') →
  wp (reserve_budget_slot run_id max) Q w.
Proof.
  intros Hf Ht. unfold reserve_budget_slot. svc_steps; try done. apply Ht. eexists.
  split_and!; [done|by apply N.ltb_lt|done].
Qed.

Definition slot_post (run_id max : N) (w : World) (r : exn + ToolExecutionResult) (w' : World)
    : Prop :=
  slot_used run_id max w w' ∨ w_agent_runs w' = w_agent_runs w ∧
    (∀ res, r = inr res → tr_reused res = true).

Lemma slot_post_tail run_id max w w1 (m : service ToolExecutionResult) :
  slot_used run_id max w w1 → included (same w_agent_runs) m → wp m (slot_post run_id max w) w1.
Proof.
  intros (r & Hr & Hlt & Heq) Hm. left. exists r. split_and!; [done|done|].
  rewrite <-Heq. apply Hm.
Qed.

Lemma execute_claimed_budget run_id agent_run key rs id execution w :
  (∀ context arguments, included gate_frame (handler (rs_tool rs) context arguments)) →
  wp (execute_claimed step run_id agent_run key rs id execution)
    (slot_post run_id (av_max_tool_calls (rs_agent_version rs)) w) w.
Proof.
  intros Hh. unfold execute_claimed. cbv zeta.
  assert (Htr : included (same w_agent_runs) (transition_running id)).
  { apply locked_included; [apply _|]. intros te. unfold get_now. included_steps. by intros w'. }
  pose proof step_runs as Hstep.
  pose proof (tol_failure _ _ (runs_tolerates id)) as Hfail.
  apply wp_bind. unfold wp at 1. specialize (Htr w).
  destruct (transition_running id w) as [[e|[]] w1]; wp_beta; simpl in Htr; [by right|].
  assert (Hmove : ∀ r w', slot_post run_id (av_max_tool_calls (rs_agent_version rs)) w1 r w' →
    slot_post run_id (av_max_tool_calls (rs_agent_version rs)) w r w').
  { intros r w' [(x & Hx)|Hs]; [left; exists x|right]; by rewrite <-Htr. }
  eapply wp_mono; [|exact Hmove]. apply wp_bind, wp_reserve; wp_beta; simpl.
  - right. unfold mbind, M_bind.
    pose proof (Hfail ToolExecutionStatus.FAILED (ToolErr.code ToolErr.BudgetExceeded) budget_message
      ltac:(by mem_decide) w1) as Hf1.
    destruct (finalize_failure _ _ _ _ w1) as [[e|[]] w2]; [done|].
    match goal with |- context [step ?a ?b ?c ?d w2] => pose proof (Hstep a b c d w2) as Hs end.
    destruct (step _ _ _ _ w2) as [[e|[]] w3]; unfold same in *; simpl in *; split; congruence.
  - intros w2 Hw2. apply slot_post_tail; [done|]. unfold get_now.
    assert (Hrun : ∀ f ctx args a, (∀ t c, included (same w_agent_runs) (f t c)) →
      included (same w_agent_runs) (run_handler f id (rs_tool rs) ctx args a))
      by (intros; by apply run_handler_runs).
    included_steps; auto.
Qed.

Lemma slot_post_bind {A} run_id max (m : service A) k w :
  included (same w_agent_runs) m →
  (∀ a w1, m w = (inr a, w1) → wp (k a) (slot_post run_id max w1) w1) →
  wp (m ≫= k) (slot_post run_id max w) w.
Proof.
  intros Hm Hk. apply wp_bind. unfold wp at 1. specialize (Hm w).
  destruct (m w) as [[e|a] w1] eqn:Hrun; simpl in *; [by right|].
  eapply wp_mono; [by apply Hk|]. intros r w' [(x & Hx)|Hs]; [left; exists x|right];
    by rewrite <-Hm.
Qed.

Lemma resolve_existing_runs id existing fingerprint retry :
  included (same w_agent_runs) (resolve_existing id existing fingerprint retry).
Proof.
  assert (Hsave : ∀ te, included (same w_agent_runs) (save_row (A := ToolExecution) id te))
    by (intros te w; done).
  unfold resolve_existing. included_steps; auto.
Qed.

Lemma claim_execution_runs row fingerprint retry :
  included (same w_agent_runs) (claim_execution row fingerprint retry).
Proof.
  assert (Hsave : ∀ i te, included (same w_agent_runs) (save_row (A := ToolExecution) i te))
    by (intros i te w; done).
  assert (Hfresh : included (same w_agent_runs) fresh) by (intros w; done).
  pose proof resolve_existing_runs.
  unfold claim_execution, create_execution, save_unique, first_row, get_where. cbv zeta.
  included_steps; auto.
Qed.

Lemma claim_execution_shape row fingerprint retry :
  returns (λ c, cl_reused c = false → cl_should_execute c = false →
                te_status (cl_execution c) = ToolExecutionStatus.WAITING_FOR_APPROVAL)
    (claim_execution row fingerprint retry).
Proof.
  unfold claim_execution, create_execution, resolve_existing. returns_steps; done.
Qed.

Lemma run_policy_gate_runs id execution s td by_ args :
  included (same w_agent_runs) (run_policy_gate step id execution s td by_ args).
Proof.
  pose proof step_runs.
  assert (Hsave : ∀ A (Ht : Table A) i (r : A), (∀ m w, w_agent_runs (set_rows (A := A) m w) = w_agent_runs w) →
    included (same w_agent_runs) (save_row i r)) by (intros A Ht i r Hs w; apply Hs).
  assert (Hrisk : ∀ a b c d, included (same w_agent_runs) (persist_risk_assessment a b c d)).
  { intros a b c d. unfold persist_risk_assessment, create_once. included_steps; by apply Hsave. }
  assert (Hev : ∀ a b c d e f g, included (same w_agent_runs) (persist_policy_evaluation a b c d e f g)).
  { intros a b c d e f g. unfold persist_policy_evaluation, create_once. included_steps; by apply Hsave. }
  assert (Hblock : ∀ m, included (same w_agent_runs) (transition_blocked_by_policy id m)).
  { intros m. apply locked_included; [apply _|]. intros te. unfold get_now. included_steps;
    by apply Hsave. }
  assert (Hwait : included (same w_agent_runs) (transition_waiting_for_approval id)).
  { apply locked_included; [apply _|]. intros te. included_steps; by apply Hsave. }
  assert (Hreq : ∀ a b c d e f g h, included (same w_agent_runs)
    (create_or_reuse_approval_request id a b c d e f g h)).
  { intros a b c d e f g h w. apply create_approval_other. }
  unfold run_policy_gate, decide_gate, active_rules, resolve_active_version, first_row. cbv zeta.
  included_steps; auto.
Qed.

Lemma budget_spent run_id agent_run version key arguments ikey w :
  w_agent_versions w !! run_agent_version agent_run = Some version →
  slot_post run_id (av_max_tool_calls version) w
    (execute_tool step tool_registry run_id agent_run key arguments ikey w).1
    (execute_tool step tool_registry run_id agent_run key arguments ikey w).2.
Proof.
  intros Hversion. change (wp (execute_tool step tool_registry run_id agent_run key arguments ikey)
    (slot_post run_id (av_max_tool_calls version) w) w).
  unfold execute_tool. apply slot_post_bind.
  { intros w0. apply (tol_frame _ _ (runs_tolerates 0)), resolve_request_frame. }
  intros rs w1 [Hreg Hrs]%resolve_request_returns. assert (version = rs_agent_version rs) as ->
    by congruence. cbv zeta.
  apply slot_post_bind; [apply claim_execution_runs|]. intros c w2 Hc.
  pose proof (returns_run _ _ _ _ _ (claim_execution_shape _ _ _) Hc) as Hshape.
  cbv beta in Hshape.
  destruct (cl_reused c).
  { case_bool_decide.
    - apply slot_post_bind; [apply step_runs|]. intros [] w3 _. right. split; [done|].
      by intros result [= <-].
    - unfold raise_policy_terminal_outcome. right. split; case_bool_decide; done. }
  case_bool_decide as Hw; [by right|].
  destruct (cl_should_execute c); simpl; [|destruct Hw; by apply Hshape].
  apply slot_post_bind; [apply included_gets, _|]. intros evaluated w3 _.
  apply slot_post_bind.
  { destruct evaluated; [apply included_ret, _|apply run_policy_gate_runs]. }
  intros [] w4 _. apply execute_claimed_budget. intros ctx args. by eapply handlers_frame.
Qed.


(** The slot of a request that started in the world [w0] is taken. *)
Definition slot_taken (run_id max : N) (w0 w : World) (_ : N) : bool :=
  match w_agent_runs w0 !! run_id, w_agent_runs w !! run_id with
  | Some r0, Some r =>
      (run_tool_call_count r0 <? max)%N
      && bool_decide (run_tool_call_count r = (run_tool_call_count r0 + 1)%N)
  | _, _ => false
  end.

Lemma slot_stable run_id max w0 : stable (slot_taken run_id max w0).
Proof.
  split; [|done]. intros w w' id (_ & _ & _ & _ & Hr & _). unfold slot_taken. by rewrite Hr.
Qed.
Lemma slot_used_taken run_id max w0 w id :
  slot_used run_id max w0 w → slot_taken run_id max w0 w id = true.
Proof.
  intros (r & Hr & Hlt & Hw). unfold slot_taken. rewrite Hr, Hw, lookup_insert_eq. simpl.
  rewrite (proj2 (N.ltb_lt _ _)) by done. by apply bool_decide_eq_true.
Qed.

Lemma execute_claimed_slot run_id agent_run key rs id execution w0 w :
  (∀ context arguments, included gate_frame (handler (rs_tool rs) context arguments)) →
  w_agent_runs w = w_agent_runs w0 →
  let check := slot_taken run_id (av_max_tool_calls (rs_agent_version rs)) w0 in
  execute_claimed step run_id agent_run key (guard_rs check rs) id execution w =
  execute_claimed step run_id agent_run key rs id execution w.
Proof.
  intros Hh Hw check. pose proof (slot_stable run_id (av_max_tool_calls (rs_agent_version rs)) w0) as Hst.
  fold check in Hst. unfold execute_claimed. cbv zeta. apply bind_agree. intros [] w1 Hr1.
  assert (Htr : included (same w_agent_runs) (transition_running id)).
  { apply locked_included; [apply _|]. intros te. unfold get_now. included_steps. by intros w'. }
  specialize (Htr w). rewrite Hr1 in Htr. unfold same in Htr. simpl in Htr.
  apply bind_agree. intros [] w2 Hr2; [|done].
  assert (Hslot : check w2 id = true).
  { apply slot_used_taken.
    assert (Hwp : wp (reserve_budget_slot run_id (av_max_tool_calls (rs_agent_version rs)))
      (λ r w', r = inr true → slot_used run_id (av_max_tool_calls (rs_agent_version rs)) w1 w') w1).
    { by apply wp_reserve; [|intros w' ? _]. }
    destruct (wp_run _ _ _ _ _ Hwp Hr2 eq_refl) as (r & Hr & ?). exists r.
    rewrite <-Hw, <-Htr. by split. }
  apply bind_agree. intros [] w3 Hr3.
  assert (Hslot3 : check w3 id = true).
  { rewrite (st_frame _ Hst w2 w3); [done|].
    match type of Hr3 with step ?a ?b ?c ?d w2 = _ => pose proof (step_frame a b c d w2) as Hf end.
    by rewrite Hr3 in Hf. }
  apply bind_agree. intros now w4 [= <- <-]. apply bind_agree_l. by apply run_handler_guard.
Qed.

(** A registry whose handlers first check that the slot is taken behaves the same. *)
Lemma execute_tool_slot run_id agent_run version key arguments ikey w :
  w_agent_versions w !! run_agent_version agent_run = Some version →
  execute_tool step (guard_registry (slot_taken run_id (av_max_tool_calls version) w) tool_registry)
    run_id agent_run key arguments ikey w =
  execute_tool step tool_registry run_id agent_run key arguments ikey w.
Proof.
  intros Hversion. set (check := slot_taken run_id (av_max_tool_calls version) w). unfold execute_tool.
  apply (bind_agree_map (guard_rs check)); [apply resolve_request_guard|]. intros rs w1 Hrs.
  pose proof (tol_frame _ _ (runs_tolerates 0) w _
    (resolve_request_frame tool_registry run_id agent_run key arguments ikey w)) as Hw1.
  rewrite Hrs in Hw1. unfold same in Hw1. simpl in Hw1.
  apply resolve_request_returns in Hrs as [Hreg Hrs]. cbv zeta.
  change (spec (rs_tool (guard_rs check rs))) with (spec (rs_tool rs)).
  change (rs_arguments (guard_rs check rs)) with (rs_arguments rs).
  apply bind_agree. intros c w2 Hc.
  match type of Hc with claim_execution ?a ?b ?d w1 = _ =>
    pose proof (claim_execution_runs a b d w1) as Hw2 end.
  rewrite Hc in Hw2. unfold same in Hw2. simpl in Hw2.
  destruct (cl_reused c); [done|]. destruct (bool_decide _); [done|].
  destruct (cl_should_execute c); [|done]. simpl.
  apply bind_agree. intros evaluated w3 [= <- <-].
  apply bind_agree. intros [] w4 Hw4.
  assert (Hw4' : w_agent_runs w4 = w_agent_runs w2).
  { destruct (bool_decide _) in Hw4; [by injection Hw4 as <-|].
    match type of Hw4 with run_policy_gate _ ?a ?b ?c ?d ?e ?f w2 = _ =>
      pose proof (run_policy_gate_runs a b c d e f w2) as Hg end.
    by rewrite Hw4 in Hg. }
  assert (version = rs_agent_version rs) as -> by congruence.
  apply execute_claimed_slot; [|congruence]. intros ctx args. by eapply handlers_frame.
Qed.

(** C7. The tool-call budget of a run is a hard ceiling, also for concurrent callers: a
    request takes at most one slot, only while the counter is below the limit of the
    run's version; a handler is invoked only when the slot of its request is taken -- a
    registry whose handlers check that before they act behaves the same -- and a request
    that returns a result which is not replayed took one.  A request that takes none, as
    when it is denied or has to wait, returns an error or a replayed result. *)
Theorem tool_budget_ceiling run_id agent_run version key arguments ikey w :
  w_agent_versions w !! run_agent_version agent_run = Some version →
  let run := execute_tool step tool_registry run_id agent_run key arguments ikey w in
  (slot_used run_id (av_max_tool_calls version) w run.2 ∨
   w_agent_runs run.2 = w_agent_runs w ∧ (∀ result, run.1 = inr result → tr_reused result = true)) ∧
  execute_tool step (guard_registry (slot_taken run_id (av_max_tool_calls version) w) tool_registry)
    run_id agent_run key arguments ikey w = run.
Proof.
  intros Hversion. split; [by apply budget_spent|by apply execute_tool_slot].
Qed.

End Recorded.

(** ** Retries *)

(** One call invokes the handler at least once and at most as often as the
    tool's retry policy leaves: the row's counter counts the invocations and
    never passes [max_retries + 1].  The error it reports is a time-out, which is
    never retried, an error the policy does not allow to retry, or the
    exhaustion of every attempt. *)
Theorem retries_are_bounded execution_id tool context arguments te w :
  included gate_frame (handler tool context arguments) →
  w_tool_executions w !! execution_id = Some te →
  (te_attempt_count te <= max_retries (retry_policy (spec tool)))%N →
  let run := run_with_retries execution_id tool context arguments (te_attempt_count te) w in
  ∃ n, w_tool_executions run.2 !! execution_id = Some (set_attempt_count n te) ∧
    (te_attempt_count te < n <= max_retries (retry_policy (spec tool)) + 1)%N ∧
    invocation_ok (retry_policy (spec tool)) n run.1.
Proof.
  intros Hh Hte Ha run.
  destruct (run_attempts_ok (N.to_nat (max_attempts (retry_policy (spec tool)) - te_attempt_count te))
    execution_id tool context arguments (te_attempt_count te) w Hh) as (n & H1' & H2' & Hf & Hr);
    [unfold max_attempts; lia|done|].
  exists n. split_and!; [|lia|by unfold max_attempts in *|done].
  destruct Hf as (_ & _ & _ & Ht & _). unfold run, run_with_retries. rewrite Ht. simpl.
  rewrite bumped_lookup, Hte. simpl. by rewrite bool_decide_eq_true_2.
Qed.

(** ** Idempotent replay *)

(** The answer to a request whose key an execution already carries. *)
Definition replay_outcome (id : N) (te : ToolExecution) (fingerprint : string)
    : exn + ToolExecutionResult :=
  if negb (String.eqb (te_arguments_fingerprint te) fingerprint) then
    inl (tool_error_default ToolErr.IdempotencyConflict)
  else match te_status te with
  | ToolExecutionStatus.SUCCEEDED =>
      inr {| tr_execution := id; tr_output := te_result_redacted te; tr_reused := true |}
  | ToolExecutionStatus.BLOCKED_BY_POLICY =>
      inl (tool_error ToolErr.PolicyDenied (te_error_message_safe te))
  | ToolExecutionStatus.APPROVAL_TERMINATED =>
      inl (tool_error (default ToolErr.ApprovalRejected (APPROVAL_TERMINATION_ERRORS (te_error_code te)))
             (te_error_message_safe te))
  | ToolExecutionStatus.WAITING_FOR_APPROVAL => inl (tool_error_default ToolErr.ApprovalRequired)
  | _ => inl (tool_error_default ToolErr.ExecutionInProgress)
  end.

Definition FAILED_STATUSES : list ToolExecutionStatus.t :=
  [ToolExecutionStatus.FAILED; ToolExecutionStatus.TIMED_OUT; ToolExecutionStatus.CANCELLED].

Lemma same_key_unique w workspace td ikey i j a b :
  unique execution_clash (w_tool_executions w) → ikey ≠ "" →
  w_tool_executions w !! i = Some a → w_tool_executions w !! j = Some b →
  same_key workspace td ikey i a = true → same_key workspace td ikey j b = true → i = j.
Proof.
  intros Hu Hne Hi Hj Ha Hb. destruct (decide (i = j)) as [|Hij]; [done|].
  pose proof (Hu i j a b Hij Hi Hj) as Hc. unfold same_key in *.
  apply andb_true_iff in Ha as [[Ha1%bool_decide_eq_true Ha2%bool_decide_eq_true]%andb_true_iff
    Ha3%String.eqb_eq].
  apply andb_true_iff in Hb as [[Hb1%bool_decide_eq_true Hb2%bool_decide_eq_true]%andb_true_iff
    Hb3%String.eqb_eq].
  revert Hc. unfold execution_clash. rewrite Ha1, Hb1, Ha2, Hb2, Ha3, Hb3.
  rewrite !bool_decide_eq_true_2 by done. rewrite String.eqb_refl.
  by rewrite (proj2 (String.eqb_neq _ _) Hne).
Qed.

Lemma claim_existing row fingerprint retry id te w :
  unique execution_clash (w_tool_executions w) → te_idempotency_key row ≠ "" →
  w_tool_executions w !! id = Some te →
  same_key (te_workspace row) (te_tool_definition row) (te_idempotency_key row) id te = true →
  claim_execution row fingerprint retry w = atomic (resolve_existing id te fingerprint retry) w.
Proof.
  intros Hu Hne Hid Hkey. unfold claim_execution, atomic, mbind, M_bind.
  rewrite (proj2 (String.eqb_neq _ _) Hne). unfold first_row, gets.
  assert (head (select_rows (same_key (te_workspace row) (te_tool_definition row)
    (te_idempotency_key row)) w) = Some (id, te)) as ->; [|done].
  rewrite (select_rows_unique _ w id te); [done|done|done|].
  intros j te' Hj Hkey'. by apply (same_key_unique w _ _ _ j id te' te Hu Hne Hj Hid Hkey').
Qed.

Definition decided_claim (id : N) (te : ToolExecution) (fingerprint : string) : exn + Claim :=
  if negb (String.eqb (te_arguments_fingerprint te) fingerprint) then
    inl (tool_error_default ToolErr.IdempotencyConflict)
  else match te_status te with
  | ToolExecutionStatus.PENDING | ToolExecutionStatus.RUNNING =>
      inl (tool_error_default ToolErr.ExecutionInProgress)
  | s => inr {| cl_id := id; cl_execution := te; cl_should_execute := false;
                cl_reused := negb (bool_decide (s = ToolExecutionStatus.WAITING_FOR_APPROVAL)) |}
  end.

Lemma resolve_existing_decided id te fingerprint retry w :
  te_status te ∉ FAILED_STATUSES →
  atomic (resolve_existing id te fingerprint retry) w = (decided_claim id te fingerprint, w).
Proof.
  intros Hst. unfold resolve_existing, decided_claim, atomic, raise_if, mbind, M_bind.
  destruct (String.eqb _ _); simpl; [|done].
  destruct (te_status te) eqn:Hs; try done; by destruct Hst; mem_decide.
Qed.

(** Repeating a request under the same idempotency key, once it has been decided
    or is in progress, changes nothing and calls no handler: it answers with the
    stored result, the stored refusal, or the state the execution is in; other
    arguments under the same key are a conflict. *)
Theorem idempotent_replay tool_registry run_id agent_run key arguments ikey rs id te w :
  resolve_request no_step tool_registry run_id agent_run key arguments (Some ikey) w = (inr rs, w) →
  unique execution_clash (w_tool_executions w) → ikey ≠ "" →
  w_tool_executions w !! id = Some te →
  same_key (run_workspace agent_run) (rs_definition_id rs) ikey id te = true →
  te_status te ∉ FAILED_STATUSES →
  execute_tool no_step tool_registry run_id agent_run key arguments (Some ikey) w =
  (replay_outcome id te (fingerprint_arguments (JObj (rs_arguments rs))), w).
Proof.
  intros Hrs Hu Hne Hid Hkey Hst. unfold execute_tool, mbind, M_bind. rewrite Hrs. cbv zeta.
  erewrite claim_existing by done.
  rewrite resolve_existing_decided by done. unfold decided_claim, replay_outcome.
  destruct (String.eqb _ _); simpl; [|done].
  destruct (te_status te) eqn:Hs; simpl; rewrite ?Hs; try done;
    try (by destruct Hst; rewrite ?Hs; mem_decide);
    rewrite bool_decide_eq_false_2 by done; unfold raise_policy_terminal_outcome; by rewrite Hs.
Qed.

(** ** Nothing is left running *)

(** No execution but [id] started running. *)
Definition only_starts (id : N) (w w' : World) : Prop :=
  ∀ j te, j ≠ id → w_tool_executions w' !! j = Some te →
    te_status te = ToolExecutionStatus.RUNNING →
    ∃ te0, w_tool_executions w !! j = Some te0 ∧ te_status te0 = ToolExecutionStatus.RUNNING.
#[local] Instance only_starts_preorder id : PreOrder (only_starts id).
Proof.
  split; [intros w j te _ ??; eauto|]. intros w1 w2 w3 H12 H23 j te Hj Hte Hs.
  destruct (H23 j te Hj Hte Hs) as (te2 & Hte2 & Hs2). by apply (H12 j te2 Hj).
Qed.

Definition not_running (id : N) (w : World) : Prop :=
  ∀ te, w_tool_executions w !! id = Some te → te_status te ≠ ToolExecutionStatus.RUNNING.

(** No execution started running. *)
Definition none_starts (w w' : World) : Prop :=
  ∀ j te, w_tool_executions w' !! j = Some te → te_status te = ToolExecutionStatus.RUNNING →
    ∃ te0, w_tool_executions w !! j = Some te0 ∧ te_status te0 = ToolExecutionStatus.RUNNING.
#[local] Instance none_starts_preorder : PreOrder none_starts.
Proof.
  split; [intros w j te ??; eauto|]. intros w1 w2 w3 H12 H23 j te Hte Hs.
  destruct (H23 j te Hte Hs) as (te2 & Hte2 & Hs2). by apply (H12 j te2).
Qed.

Lemma none_starts_of id w w' : only_starts id w w' → not_running id w' → none_starts w w'.
Proof.
  intros Ho Hn j te Hte Hs. destruct (decide (j = id)) as [->|Hne]; [by destruct (Hn te)|].
  by apply (Ho j te).
Qed.

Lemma frame_none_starts w w' : gate_frame w w' → none_starts w w'.
Proof. intros (_ & _ & _ & Ht & _) j te. rewrite Ht. eauto. Qed.

Lemma none_starts_only id w w' : none_starts w w' → only_starts id w w'.
Proof. intros Hn j te _. apply Hn. Qed.

Lemma save_only_starts id (te : ToolExecution) : included (only_starts id) (save_row id te).
Proof. intros w j te' Hj. simpl. rewrite lookup_insert_ne by done. eauto. Qed.

Lemma save_none_starts id (te : ToolExecution) :
  te_status te ≠ ToolExecutionStatus.RUNNING → included none_starts (save_row id te).
Proof.
  intros Hs w. apply (none_starts_of id); [apply save_only_starts|].
  intros te'. simpl. rewrite lookup_insert_eq. by intros [= <-].
Qed.

Lemma only_starts_tolerates id : tolerates (only_starts id) id.
Proof.
  split.
  - intros w w' Hf. by apply none_starts_only, frame_none_starts.
  - intros n w j te Hj. simpl. rewrite rows_update. destruct (w_tool_executions w !! j); [|done].
    simpl. rewrite bool_decide_eq_false_2 by done. intros [= <-]. eauto.
  - intros output. apply locked_included; [apply _|]. intros te. unfold get_now.
    included_steps; apply save_only_starts.
  - intros status code message _. apply locked_included; [apply _|]. intros te. unfold get_now.
    included_steps; apply save_only_starts.
Qed.

(** Finalising an execution leaves it in a final status. *)
Lemma finalize_stops id (f : Z → ToolExecution → ToolExecution) w :
  (∀ now te, te_status (f now te) ≠ ToolExecutionStatus.RUNNING) →
  wp (atomic (locked ← get_row id;
      if negb (bool_decide (te_status locked = ToolExecutionStatus.RUNNING)) then mret ()
      else now ← get_now; save_row id (f now locked)))
    (λ r w', not_running id w') w.
Proof.
  intros Hf. apply wp_atomic, wp_bind, wp_get_row. unfold rows. simpl.
  destruct (w_tool_executions w !! id) as [te|] eqn:Hte; wp_beta.
  2: { intros te. simpl. by rewrite Hte. }
  case_bool_decide as Hs; simpl; [|by intros te'; simpl; rewrite Hte; intros [= <-]].
  svc_steps. intros te'. simpl. rewrite lookup_insert_eq. by intros [= <-].
Qed.

(** Computations that raise only tool errors. *)
Definition raises_tool {A} (m : service A) : Prop :=
  ∀ w e w', m w = (inl e, w') → ∃ cls message, e = ToolExc cls message.

Lemma raises_ret {A} (a : A) : raises_tool (mret a).
Proof. by intros w e w' [=]. Qed.
Lemma raises_raise {A} cls message : raises_tool (raise (A := A) (ToolExc cls message)).
Proof. intros w e w' [= <- _]. by eexists _, _. Qed.
Lemma raises_raise_if b cls message : raises_tool (raise_if b (ToolExc cls message)).
Proof. destruct b; [apply raises_raise|apply raises_ret]. Qed.
Lemma raises_bind {A B} (m : service A) (k : A → service B) :
  raises_tool m → (∀ a, raises_tool (k a)) → raises_tool (m ≫= k).
Proof.
  intros Hm Hk w e w'. unfold mbind, M_bind. destruct (m w) as [[ex|a] w1] eqn:Hrun; [|apply Hk].
  intros [= <- _]. by apply (Hm w ex w1).
Qed.
Lemma raises_attempt {A B} (m : service A) (k : exn + A → service B) :
  raises_tool m → (∀ a, raises_tool (k (inr a))) →
  (∀ cls message, raises_tool (k (inl (ToolExc cls message)))) → raises_tool (attempt m ≫= k).
Proof.
  intros Hm Hr Hl w e w'. unfold attempt, mbind, M_bind.
  destruct (m w) as [[ex|a] w1] eqn:Hrun; [|apply Hr].
  destruct (Hm _ _ _ Hrun) as (cls & message & ->). apply Hl.
Qed.

Lemma validate_output_raises s raw :
  (∀ v, is_Some (json_length v)) → raises_tool (validate_output s raw).
Proof.
  intros Hl. unfold validate_output. apply raises_bind.
  - destruct raw as [dump|v|]; [apply raises_ret| |apply raises_raise].
    destruct (output_model s v); [apply raises_ret|apply raises_raise].
  - intros dump. destruct (Hl (Redaction.redact (map str_lower (output_sensitive_fields s)) dump))
      as [n ->].
    apply raises_bind; [apply raises_raise_if|intros []; apply raises_ret].
Qed.

Lemma invoke_raises tool context arguments :
  (∀ v, is_Some (json_length v)) → raises_tool (handler tool context arguments) →
  raises_tool (invoke_with_timeout tool context arguments).
Proof.
  intros Hl Hh. apply raises_bind; [done|]. intros [raw|]; [|apply raises_raise].
  by apply validate_output_raises.
Qed.

Lemma run_attempts_raises fuel id tool context arguments a :
  (∀ v, is_Some (json_length v)) → raises_tool (handler tool context arguments) →
  raises_tool (run_attempts fuel id tool context arguments a).
Proof.
  intros Hl Hh. pose proof (invoke_raises tool context arguments Hl Hh) as Hi.
  revert a. induction fuel as [|fuel IH]; intros a; cbn [run_attempts]; cbv zeta;
    (apply raises_bind; [apply raises_raise_if|intros []]);
    (apply raises_bind; [by intros w e w' [=]|intros []]);
    (apply raises_attempt; [done|intros output; apply raises_ret|]);
    intros cls message; destruct cls; repeat case_match; apply raises_raise || apply IH.
Qed.

Lemma frame_not_running id : ∀ w w', gate_frame w w' → not_running id w → not_running id w'.
Proof. intros w w' (_ & _ & _ & Ht & _) Hn te. rewrite Ht. apply Hn. Qed.

Lemma frame_keeps_not_running {A} id (m : service A) :
  included gate_frame m → included (keeps (not_running id)) m.
Proof. intros Hm w Hw. by apply (frame_not_running id w). Qed.

(** Sequencing a part that stops the execution and a rest that keeps it so. *)
Lemma stops_bind {A B} id (m : service A) (k : A → service B) w :
  wp m (λ _, not_running id) w → (∀ a, included (keeps (not_running id)) (k a)) →
  wp (m ≫= k) (λ _, not_running id) w.
Proof.
  intros Hm Hk. apply wp_bind. eapply wp_mono; [exact Hm|].
  intros [e|a] w' Hw'; wp_beta; [done|by apply Hk].
Qed.

Definition recorder_total (step : StepRecorder) : Prop :=
  ∀ step_type status metadata code w, (step step_type status metadata code w).1 = inr ().

Lemma run_handler_stops on_failure id tool context arguments a w :
  (∀ v, is_Some (json_length v)) → raises_tool (handler tool context arguments) →
  (∀ t c, included gate_frame (on_failure t c)) →
  wp (run_handler on_failure id tool context arguments a) (λ _, not_running id) w.
Proof.
  intros Hl Hh Hf. unfold run_handler. apply wp_bind, wp_attempt. unfold wp at 1.
  pose proof (run_attempts_raises (N.to_nat (max_attempts (retry_policy (spec tool)) - a))
    id tool context arguments a Hl Hh w) as Hr.
  change (run_attempts _ id tool context arguments a)
    with (run_with_retries id tool context arguments a) in Hr.
  destruct (run_with_retries id tool context arguments a w) as [[ex|[out n]] w1]; wp_beta.
  - destruct (Hr ex w1 eq_refl) as (cls & message & ->).
    assert (Htail : ∀ status t c e, status ≠ ToolExecutionStatus.RUNNING →
      wp (finalize_failure id status c message;; on_failure t c;; raise (A := json * N) e)
        (λ _, not_running id) w1).
    { intros status t c e Hs. apply stops_bind.
      - by apply (finalize_stops id (failed_execution status c message)).
      - intros []. apply frame_keeps_not_running. apply included_bind; [apply _|apply Hf|].
        intros []. apply included_raise, _. }
    simpl. destruct cls; by apply Htail.
  - apply stops_bind; [by apply (finalize_stops id (succeeded_execution out))|].
    intros []. apply included_ret, _.
Qed.

Lemma transition_starts id w :
  wp (transition_running id) (λ r w', match r with
    | inl _ => w' = w | inr () => only_starts id w w' end) w.
Proof.
  unfold transition_running. apply wp_atomic, wp_bind, wp_get_row.
  destruct (rows w !! id); wp_beta; [|done]. svc_steps; [done|].
  intros j te Hj. simpl. rewrite lookup_insert_ne by done. eauto.
Qed.

Lemma reserve_starts id run_id m : included (only_starts id) (reserve_budget_slot run_id m).
Proof.
  unfold reserve_budget_slot, find_row. included_steps. intros w j te _. simpl. eauto.
Qed.

Section Total.
Context (step : StepRecorder) (step_frame : recorder_frame step) (step_total : recorder_total step).
Context (lengths : ∀ v, is_Some (json_length v)).

Lemma wp_total_step a b c d (Q : exn + () → World → Prop) w :
  (∀ w', gate_frame w w' → Q (inr ()) w') → wp (step a b c d) Q w.
Proof.
  intros HQ. unfold wp. rewrite step_total. apply HQ, step_frame.
Qed.

Lemma execute_claimed_stops run_id agent_run key rs id execution w :
  (∀ context arguments, included gate_frame (handler (rs_tool rs) context arguments)) →
  (∀ context arguments, raises_tool (handler (rs_tool rs) context arguments)) →
  none_starts w (execute_claimed step run_id agent_run key rs id execution w).2.
Proof.
  intros Hh Hr. change (wp (execute_claimed step run_id agent_run key rs id execution)
    (λ _ w', none_starts w w') w).
  unfold execute_claimed. cbv zeta. apply wp_bind. eapply wp_mono; [apply transition_starts|].
  intros [e|[]] w1 Hw1; wp_beta; [by subst|].
  apply wp_bind. unfold wp at 1. pose proof (reserve_starts id run_id
    (av_max_tool_calls (rs_agent_version rs)) w1) as Hw2.
  assert (Htotal : ∃ b, (reserve_budget_slot run_id (av_max_tool_calls (rs_agent_version rs)) w1).1
    = inr b).
  { change (wp (reserve_budget_slot run_id (av_max_tool_calls (rs_agent_version rs)))
      (λ r _, ∃ b, r = inr b) w1). unfold reserve_budget_slot. svc_steps; eauto. }
  destruct Htotal as [reserved ->]. set (w2 := (reserve_budget_slot _ _ w1).2) in *. wp_beta.
  assert (H12 : only_starts id w w2) by (etrans; done).
  assert (Hend : ∀ (m : service ToolExecutionResult) w3, only_starts id w w3 →
    included (only_starts id) m → wp m (λ _, not_running id) w3 →
    wp m (λ _ w', none_starts w w') w3).
  { intros m w3 Hw3 Hm Hn. apply (none_starts_of id); [|exact Hn]. etrans; [exact Hw3|apply Hm]. }
  assert (Hstep : ∀ a b c d, included (only_starts id) (step a b c d))
    by (intros a b c d w'; apply (tol_frame _ _ (only_starts_tolerates id)), step_frame).
  destruct reserved; simpl.
  - apply wp_bind, wp_total_step. intros w3 Hf. wp_beta. apply wp_bind, wp_get_now. wp_beta.
    apply Hend.
    + etrans; [exact H12|]. by apply none_starts_only, frame_none_starts.
    + apply included_bind; [apply _| |intros; included_steps; auto].
      apply run_handler_included; [apply _|apply only_starts_tolerates|done|auto].
    + apply stops_bind; [|intros; apply frame_keeps_not_running; included_steps; auto].
      apply run_handler_stops; [done|apply Hr|auto].
  - apply Hend; [done| |].
    + pose proof (tol_failure _ _ (only_starts_tolerates id) ToolExecutionStatus.FAILED
        (ToolErr.code ToolErr.BudgetExceeded) budget_message ltac:(by mem_decide)).
      included_steps; auto.
    + apply stops_bind; [by apply (finalize_stops id (failed_execution _ _ _))|].
      intros []. apply frame_keeps_not_running. included_steps; auto.
Qed.

Lemma claim_execution_starts row fingerprint retry :
  te_status row = ToolExecutionStatus.PENDING →
  included none_starts (claim_execution row fingerprint retry).
Proof.
  intros Hrow. assert (Hnew : ∀ i, included none_starts (save_row i row))
    by (intros i; apply save_none_starts; congruence).
  assert (Hreset : ∀ i te, included none_starts (save_row i (reset_execution te)))
    by (intros i te; by apply save_none_starts).
  assert (Hfresh : included none_starts fresh) by (intros w j te; simpl; eauto).
  unfold claim_execution, create_execution, resolve_existing, save_unique, first_row, get_where.
  cbv zeta. included_steps; auto.
Qed.

Lemma run_policy_gate_starts id execution s td by_ args :
  included none_starts (run_policy_gate step id execution s td by_ args).
Proof.
  assert (Hstep : ∀ a b c d, included none_starts (step a b c d))
    by (intros a b c d w; apply frame_none_starts, step_frame).
  assert (Hrisk : ∀ i (r : RiskAssessment), included none_starts (save_row i r))
    by (intros i r w j te; simpl; eauto).
  assert (Hev : ∀ i (r : PolicyEvaluation), included none_starts (save_row i r))
    by (intros i r w j te; simpl; eauto).
  assert (Hreq : ∀ a b c d e f g h, included none_starts
    (create_or_reuse_approval_request id a b c d e f g h)).
  { intros a b c d e f g h w j te.
    destruct (create_approval_other id a b c d e f g h w) as (_ & Ht & _). rewrite Ht. eauto. }
  assert (Hblock : ∀ m, included none_starts (transition_blocked_by_policy id m)).
  { intros m. apply locked_included; [apply _|]. intros te. unfold get_now. cbv zeta.
    included_steps; by apply save_none_starts. }
  assert (Hwait : included none_starts (transition_waiting_for_approval id)).
  { apply locked_included; [apply _|]. intros te. cbv zeta. included_steps; by apply save_none_starts. }
  unfold run_policy_gate, decide_gate, active_rules, resolve_active_version, first_row,
    persist_risk_assessment, persist_policy_evaluation, create_once. cbv zeta.
  included_steps; auto.
Qed.

Lemma included_bind_run {A B} (R : relation World) `{!PreOrder R} (m : service A) (k : A → service B) w :
  included R m → (∀ a w1, m w = (inr a, w1) → R w1 (k a w1).2) → R w ((m ≫= k) w).2.
Proof.
  intros Hm Hk. specialize (Hm w). unfold mbind, M_bind.
  destruct (m w) as [[e|a] w1] eqn:Hrun; [exact Hm|]. etrans; [exact Hm|]. by apply Hk.
Qed.

(** When handlers report their failures as tool errors, a request leaves no
    execution behind that is still marked as running: whatever happens to the
    handler, its execution is finalised. *)
Theorem no_execution_left_running tool_registry run_id agent_run key arguments ikey w id te :
  registry_frame tool_registry →
  (∀ key tool context arguments, tool_registry key = Some tool →
     raises_tool (handler tool context arguments)) →
  let run := execute_tool step tool_registry run_id agent_run key arguments ikey w in
  w_tool_executions run.2 !! id = Some te → te_status te = ToolExecutionStatus.RUNNING →
  ∃ te0, w_tool_executions w !! id = Some te0 ∧ te_status te0 = ToolExecutionStatus.RUNNING.
Proof.
  intros Hh Hr run. revert id te. change (none_starts w run.2). unfold run, execute_tool.
  assert (Hstep : ∀ a b c d, included none_starts (step a b c d))
    by (intros a b c d w'; apply frame_none_starts, step_frame).
  apply (included_bind_run none_starts).
  { intros w'. apply frame_none_starts, resolve_request_frame, step_frame. }
  intros rs w1 Hrs%resolve_request_tool. cbv zeta.
  apply (included_bind_run none_starts); [by apply claim_execution_starts|]. intros c w2 _.
  destruct (cl_reused c).
  { case_bool_decide; [|unfold raise_policy_terminal_outcome; by case_bool_decide].
    apply (included_bind none_starts); [auto|intros []; apply included_ret, _]. }
  case_bool_decide; [done|]. destruct (cl_should_execute c); simpl; [|done].
  apply (included_bind_run none_starts); [apply included_gets, _|]. intros evaluated w3 _.
  apply (included_bind_run none_starts).
  { destruct evaluated; [apply included_ret, _|apply run_policy_gate_starts]. }
  intros [] w4 _. apply execute_claimed_stops.
  - intros ctx args. by eapply Hh.
  - intros ctx args. by eapply Hr.
Qed.

End Total.
(** ** A cancelled request *)

(** An execution that was cancelled while it waited for an approval is reopened
    by the next request with its key, in whatever run, and goes straight to its
    handler: the decision stored for it, an approval that nobody gave included,
    is not looked at again. *)
Theorem cancelled_request_skips_gate tool_registry run_id agent_run key arguments ikey rs id te e w :
  resolve_request no_step tool_registry run_id agent_run key arguments (Some ikey) w = (inr rs, w) →
  unique execution_clash (w_tool_executions w) → ikey ≠ "" →
  w_tool_executions w !! id = Some te →
  same_key (run_workspace agent_run) (rs_definition_id rs) ikey id te = true →
  te_status te = ToolExecutionStatus.CANCELLED →
  te_arguments_fingerprint te = fingerprint_arguments (JObj (rs_arguments rs)) →
  str_in (te_error_code te) (ambiguous_outcome_error_codes (retry_policy (spec (rs_tool rs)))) = false →
  (te_attempt_count te <= max_retries (retry_policy (spec (rs_tool rs))))%N →
  w_policy_evaluations w !! id = Some e →
  execute_tool no_step tool_registry run_id agent_run key arguments (Some ikey) w =
  execute_claimed no_step run_id agent_run key rs id (reset_execution te)
    {| w with w_tool_executions := <[id := reset_execution te]> (w_tool_executions w) |}.
Proof.
  intros Hrs Hu Hne Hid Hkey Hst Hfp Hamb Hatt He. unfold execute_tool.
  unfold mbind at 1, M_bind at 1. rewrite Hrs. cbv zeta. unfold mbind at 1, M_bind at 1.
  erewrite claim_existing by done.
  unfold atomic, resolve_existing, raise_if, mbind, M_bind. rewrite Hfp, String.eqb_refl. simpl.
  rewrite Hst, Hamb. rewrite (proj2 (N.leb_gt _ _)) by lia. simpl.
  rewrite bool_decide_eq_true_2 by (rewrite He; by eexists). done.
Qed.

End ToolSafety.

(** ** Concrete instances *)

Module ToolExamples.
#[local] Existing Instance default_settings.
#[local] Existing Instance trivial_pylib.
#[local] Instance net : Network := example_network 200.
#[local] Instance encoding : Encoding :=
  {| json_length _ := Some 10%N; fingerprint_arguments _ := "fp" |}.

Definition refund_spec : ToolSpec :=
  {| ts_key := "payment.refund"; ts_display_name := "Refund"; ts_description := ""; ts_input_schema := JObj [];
     input_model v := match v with JObj l => Some l | _ => None end;
     output_model v := Some v; ts_risk_level := RiskLevel.CRITICAL;
     ts_side_effect_type := SideEffectType.FINANCIAL;
     default_timeout := seconds 5; max_timeout := seconds 10;
     retry_policy := {| max_retries := 1; retryable_error_codes := ["provider_busy"];
                        ambiguous_outcome_error_codes := [] |};
     ts_idempotency_mode := IdempotencyMode.REQUIRED;
     input_sensitive_fields := []; output_sensitive_fields := []; ts_enabled := true |}.
Definition refund_definition : ToolDefinition :=
  {| td_key := "payment.refund"; td_display_name := "Refund"; td_description := "";
     td_status := ToolDefinitionStatus.ACTIVE; td_risk_level := RiskLevel.MEDIUM;
     td_side_effect_type := SideEffectType.FINANCIAL; td_handler_key := "payment.refund";
     td_default_timeout_seconds := 5; td_max_timeout_seconds := 10; td_max_retries := 1;
     td_idempotency_mode := IdempotencyMode.REQUIRED |}.
Definition refunds : Registry := λ key,
  if String.eqb key "payment.refund" then
    Some {| spec := refund_spec; handler _ _ := mret (Returned (Instance (JObj []))) |}
  else None.

Definition run : AgentRun :=
  {| run_workspace := 7; run_agent_version := 2; run_conversation := None; run_ticket := None;
     run_trigger_message := None; run_output_message := None; run_trigger := "manual"; run_status := AgentRunStatus.RUNNING;
     run_input_message := ""; run_input_metadata := JObj []; run_final_response := ""; run_started_at := None;
     run_completed_at := None; run_cancelled_at := None; run_failure_code := "";
     run_failure_message_safe := ""; run_model_call_count := 0; run_step_count := 0;
     run_tool_call_count := 0; run_input_tokens := 0; run_output_tokens := 0;
     run_total_tokens := 0; run_estimated_cost_usd := None; run_correlation_id := "";
     run_created_by := Some 40%N; run_created_at := 0; run_updated_at := 0 |}.
Definition version : AgentVersion :=
  {| av_workspace := 7; av_definition := 1; av_version := 1; av_provider := "fake";
     av_model := "model"; av_system_prompt := ""; av_temperature := QArith_base.Qmake 0 1;
     av_max_output_tokens := 512; av_status := AgentVersionStatus.PUBLISHED; av_max_model_calls := 3;
     av_max_steps := 20; av_wall_time_limit_seconds := 30; av_provider_timeout_seconds := 30;
     av_max_total_tokens := None; av_max_estimated_cost_usd := None; av_max_retry_attempts := 1;
     av_max_tool_calls := 3; av_runtime_config := JObj []; av_published_at := None |}.
Definition start : World :=
  {| empty_world with
     w_next := 20; w_agent_runs := {[ 4%N := run ]}; w_agent_versions := {[ 2%N := version ]};
     w_tool_definitions := {[ 3%N :=
refund_definition ]};
     w_tool_bindings := {[ 5%N :=
       {| tb_agent_version := 2; tb_tool_definition := 3; tb_enabled := true;
          tb_timeout_seconds := None |} ]} |}.

Definition refund (amount : Z) : json :=
  JObj [("amount_minor", JInt amount); ("currency", JStr "USD")].
Definition request (amount : Z) (ikey : option string) (w : World) :=
  execute_tool no_step refunds 4 run "payment.refund" (refund amount) ikey w.

Lemma refunds_frame : registry_frame refunds.
Proof.
  intros key tool context arguments. unfold refunds. case_match; [|done].
  intros [= <-] w. simpl. reflexivity.
Qed.

Lemma start_inv : auth_inv start.
Proof.
  split.
  - intros id te Hid. simpl in Hid. rewrite lookup_empty in Hid. discriminate.
  - intros id te Hid. simpl in Hid. rewrite lookup_empty in Hid. discriminate.
  - intros id _. simpl. by rewrite !lookup_empty.
  - split; [split_and!|split].
    + intros id a Hid. simpl in Hid. rewrite lookup_empty in Hid. discriminate.
    + intros id d Hid. simpl in Hid. rewrite lookup_empty in Hid. discriminate.
    + intros i j a b Hid. simpl in Hid. rewrite lookup_empty in Hid. discriminate.
    + intros i _. simpl. by rewrite !lookup_empty.
    + intros i wd Hid. simpl in Hid. rewrite lookup_empty in Hid. discriminate.
  - intros i a Hid. simpl in Hid. rewrite lookup_empty in Hid. discriminate.
Qed.

(** A small refund runs, a large one waits for an approval, a huge one is denied. *)
Example refunds_by_size :
  map (λ amount, match (request amount None start).1 with
                 | inr _ => "executed" | inl (ToolExc e _) => ToolErr.code e | _ => "?" end)
    [5000; 5001; 50001]%Z = ["executed"; "approval_required"; "policy_action_denied"].
Proof. vm_compute. reflexivity. Qed.

Lemma max_ok : (0 < DELIVERY_DEFAULT_MAX_ATTEMPTS)%Z.
Proof. reflexivity. Qed.

(** A refund that waits, and its approval. *)
Definition waiting_world : World := (request 5001 (Some "key") start).2.
Definition approved_world : World :=
  (decide_approval 7 21 41 "owner" ApprovalDecisionValue.APPROVE "" waiting_world).2.

Lemma waiting_inv : auth_inv waiting_world.
Proof.
  exact (execute_tool_keeps max_ok no_step no_step_frame refunds refunds_frame 4 run "payment.refund"
    (refund 5001) (Some "key") start start_inv).
Qed.
Lemma approved_inv : auth_inv approved_world.
Proof.
  apply (auth_inv_approvals waiting_world); [exact waiting_inv|apply decide_approval_included; exact max_ok
    |vm_compute; reflexivity|vm_compute; reflexivity|vm_compute; discriminate|].
  assert (Hm : w_approvals approved_world = (λ a, {| a with ar_status := ApprovalStatus.APPROVED;
    ar_resolved_at := Some (w_now waiting_world) |}) <$> w_approvals waiting_world)
    by (vm_compute; reflexivity).
  intros i a'. rewrite Hm, lookup_fmap. destruct (w_approvals waiting_world !! i) as [a|]; [|discriminate].
  simpl. intros [= <-]. by exists a.
Qed.
Definition the_request : ApprovalRequest :=
  match w_approvals approved_world !! 21%N with
  | Some a => a
  | None => {| ar_workspace := 0; ar_tool_execution := 0; ar_status := ApprovalStatus.PENDING;
               ar_requested_by := None; ar_required_role := ""; ar_summary := "";
               ar_safe_context := JNull; ar_arguments_fingerprint := ""; ar_expires_at := 0%Z;
               ar_resolved_at := None |}
  end.

(** With the checks, a small refund runs at once and an approved one when it is resumed;
    a large one is not run. *)
Lemma handler_needs_authorisation_witness :
  let guarded amount := (execute_tool no_step (guard_registry ready refunds) 4 run "payment.refund"
    (refund amount) None start).1 in
  guarded 10%Z = inr {| tr_execution := 20; tr_output := JObj []; tr_reused := false |} ∧
  guarded 5001%Z = inl (tool_error ToolErr.ApprovalRequired
    "Refund exceeds the automatic refund threshold and requires approval.") ∧
  (resume_after_approval no_step (guard_registry ready refunds) 20 approved_world).1 =
    inr {| tr_execution := 20; tr_output := JObj []; tr_reused := false |}.
Proof.
  pose proof (λ amount, proj1 (proj1 (handler_needs_authorisation max_ok no_step no_step_frame refunds
    refunds_frame 4 run "payment.refund" (refund amount) None start start_inv))) as Hs.
  pose proof (proj1 (proj2 (handler_needs_authorisation max_ok no_step no_step_frame refunds
    refunds_frame 4 run "payment.refund" (refund 10) None approved_world approved_inv) 21%N the_request
    ltac:(vm_compute; reflexivity) ltac:(vm_compute; reflexivity))) as Hr.
  cbv beta zeta in Hs |- *. rewrite (Hs 10%Z), (Hs 5001%Z).
  assert (H20 : ar_tool_execution the_request = 20%N) by (vm_compute; reflexivity).
  rewrite H20 in Hr. rewrite Hr. split; [|split]; vm_compute; reflexivity.
Defined.


Lemma resume_at_most_once_witness :
  let w1 := (resume_after_approval no_step refunds 20 waiting_world).2 in
  (resume_after_approval no_step refunds 20 w1).2 = w1.
Proof.
  apply (resume_at_most_once no_step no_step_frame refunds refunds_frame no_step refunds 20
           waiting_world).
Defined.

(** A small refund takes a slot and runs, also when its handler checks for it. *)
Lemma tool_budget_ceiling_witness :
  let check := slot_taken 4 3 start in
  (slot_used 4 3 start (request 10 None start).2 ∨
   w_agent_runs (request 10 None start).2 = w_agent_runs start) ∧
  (execute_tool no_step (guard_registry check refunds) 4 run "payment.refund" (refund 10) None start).1 =
    inr {| tr_execution := 20; tr_output := JObj []; tr_reused := false |} ∧
  run_tool_call_count <$> w_agent_runs (request 10 None start).2 !! 4%N = Some 1%N.
Proof.
  destruct (tool_budget_ceiling no_step no_step_frame refunds refunds_frame 4 run version
    "payment.refund" (refund 10) None start eq_refl) as [Hs Hg].
  split; [destruct Hs as [Hs|[Hs _]]; [left|right]; exact Hs|].
  change (av_max_tool_calls version) with 3%N in Hg. cbv zeta. rewrite Hg.
  split; vm_compute; reflexivity.
Defined.

Definition refund_tool : Tool :=
  {| spec := refund_spec; handler _ _ := mret (Returned (Instance (JObj []))) |}.
Definition running : ToolExecution :=
  running_execution 5 (new_execution 7 4 2 3 5 "" "" (JObj [])).
Definition running_world : World := {| start with w_tool_executions := {[ 9%N := running ]} |}.
Definition context : ToolExecutionContext :=
  {| tx_workspace := 7; tx_tool_execution := 9; tx_deadline := 0; tx_agent_run := 4;
     tx_agent_version := 2; tx_actor_user := None |}.

Lemma retries_are_bounded_witness :
  ∃ n, w_tool_executions (run_with_retries 9 refund_tool context [] 0 running_world).2 !! 9%N
         = Some (set_attempt_count n running) ∧ (0 < n <= 2)%N.
Proof.
  destruct (retries_are_bounded 9 refund_tool context [] running running_world)
    as (n & Hn & Hb & _).
  - intros w. reflexivity.
  - reflexivity.
  - vm_compute. discriminate.
  - exists n. split; [exact Hn|exact Hb].
Defined.

Lemma no_execution_left_running_witness :
  ∃ te0, w_tool_executions running_world !! 9%N = Some te0 ∧
         te_status te0 = ToolExecutionStatus.RUNNING.
Proof.
  assert (Htotal : recorder_total no_step) by (intros a b c d w; reflexivity).
  assert (Hl : ∀ v, is_Some (json_length v)) by (intros v; exists 10%N; reflexivity).
  apply (no_execution_left_running no_step no_step_frame Htotal Hl refunds 4 run "payment.refund" (refund 10) None running_world
    9 running refunds_frame).
  - intros key tool ctx args. unfold refunds. destruct (String.eqb key "payment.refund"); [|discriminate].
    intros [= <-] w e w' Hrun. discriminate Hrun.
  - vm_compute. reflexivity.
  - reflexivity.
Defined.

(** A refund that succeeded under a key, and its repetition. *)
Definition resolved_refund (amount : Z) : Resolved :=
  {| rs_tool := refund_tool; rs_definition_id := 3;
     rs_definition := refund_definition;
     rs_binding_id := 5; rs_agent_version := version;
     rs_arguments := [("amount_minor", JInt amount); ("currency", JStr "USD")];
     rs_timeout := seconds 5 |}.

Definition done_world : World := (request 10 (Some "key") start).2.

Definition stored (w : World) (id : N) : ToolExecution :=
  default running (w_tool_executions w !! id).

Lemma one_unique w id te : w_tool_executions w = {[ id := te ]} → unique execution_clash (w_tool_executions w).
Proof.
  intros -> i j a b Hne [<- <-]%lookup_singleton_Some [<- <-]%lookup_singleton_Some. by destruct Hne.
Qed.

Lemma idempotent_replay_witness :
  request 10 (Some "key") done_world =
  (inr {| tr_execution := 20; tr_output := JObj []; tr_reused := true |}, done_world).
Proof.
  assert (Hrs : resolve_request no_step refunds 4 run "payment.refund" (refund 10) (Some "key")
    done_world = (inr (resolved_refund 10), done_world)) by (vm_compute; reflexivity).
  assert (Hm : w_tool_executions done_world = {[ 20%N := stored done_world 20 ]})
    by (vm_compute; reflexivity).
  assert (Hid : w_tool_executions done_world !! 20%N = Some (stored done_world 20))
    by (rewrite Hm; apply lookup_singleton_eq).
  unfold request.
  rewrite (idempotent_replay refunds 4 run "payment.refund" (refund 10) "key" (resolved_refund 10)
    20 (stored done_world 20) done_world Hrs (one_unique _ _ _ Hm)).
  - vm_compute. reflexivity.
  - discriminate.
  - exact Hid.
  - vm_compute. reflexivity.
  - assert (Hs : te_status (stored done_world 20) = ToolExecutionStatus.SUCCEEDED)
      by (vm_compute; reflexivity).
    rewrite Hs. absurd_mem.
Defined.

(** The refund that waits is cancelled together with its approval request. *)
Definition cancelled_world : World :=
  {| waiting_world with
     w_tool_executions := (λ te, {| te with te_status := ToolExecutionStatus.CANCELLED |})
                            <$> w_tool_executions waiting_world;
     w_approvals := (λ a, {| a with ar_status := ApprovalStatus.CANCELLED |})
                      <$> w_approvals waiting_world |}.

(** The same request is then executed: nobody approved it. *)
Lemma cancelled_request_skips_gate_witness :
  (request 5001 (Some "key") cancelled_world).1 =
    inr {| tr_execution := 20; tr_output := JObj []; tr_reused := false |} ∧
  authorizedb cancelled_world 20 = false.
Proof.
  assert (Hrs : resolve_request no_step refunds 4 run "payment.refund" (refund 5001) (Some "key")
    cancelled_world = (inr (resolved_refund 5001), cancelled_world)) by (vm_compute; reflexivity).
  assert (Hm : w_tool_executions cancelled_world = {[ 20%N := stored cancelled_world 20 ]})
    by (vm_compute; reflexivity).
  assert (Hid : w_tool_executions cancelled_world !! 20%N = Some (stored cancelled_world 20))
    by (rewrite Hm; apply lookup_singleton_eq).
  split; [|vm_compute; reflexivity]. unfold request.
  destruct (w_policy_evaluations cancelled_world !! 20%N) as [e|] eqn:He; [|vm_compute in He; discriminate].
  rewrite (cancelled_request_skips_gate refunds 4 run "payment.refund" (refund 5001) "key"
    (resolved_refund 5001) 20 (stored cancelled_world 20) e cancelled_world Hrs (one_unique _ _ _ Hm));
    [vm_compute; reflexivity|discriminate|exact Hid|vm_compute; reflexivity..|
     vm_compute; discriminate|exact He].
Defined.
End ToolExamples.
