(* ===== verification/Graph.v ===== *)
(** * The agent runtime graph

    [agents/runtime/graph.py] with [budgets.py], [state.py], the request and
    response types of [agents/providers/schemas.py] and the tool results of
    [agents/tool_runtime.py].  A node takes the state and returns it updated; the
    conditional edges are [route].  The provider, the tool boundary, the step
    recorder and the cancellation check are computations the graph is given;
    LangGraph itself is reduced to what its documentation says of a graph with
    one active node: it runs the nodes along the edges and raises
    [GraphRecursionError] when the recursion limit is reached before the end. *)

From stdpp Require Import base gmap strings list pretty.
From Stdlib Require Import ZArith QArith Lia.
From S2P Require Import Prelude Json Decimals Domain Policy Models Store Delivery Network Webhooks Approvals ToolExec.

#[local] Close Scope Q_scope.
#[local] Open Scope nat_scope.

(** [json.dumps(..., sort_keys=True, separators=(",", ":"), default=str)] and
    [hashlib.sha256(...).hexdigest()]. *)
Class TextEncoding := {
  json_dumps : json → string;
  sha256_hexdigest : string → string;
}.

(** A string that is neither [None] nor empty. *)
Definition truthy (s : option string) : bool :=
  match s with Some s => negb (String.eqb s "") | None => false end.

(** ** Budgets *)

Record Budgets := {
  max_model_calls : N;
  max_steps : N;
  wall_time_limit_seconds : Z;
  provider_timeout_seconds : Z;
  max_total_tokens : option N;
  max_estimated_cost_usd : option Q;
  max_retry_attempts : N;
}.

Record BudgetCheckResult := { bc_allowed : bool; bc_reason : option string }.

Definition refuse (reason : string) : BudgetCheckResult :=
  {| bc_allowed := false; bc_reason := Some reason |}.

(** [now] is the reading of the monotonic clock, in microseconds. *)
Definition check_budget (b : Budgets) (model_call_count step_count total_tokens : N)
    (estimated_cost_usd : option Q) (started_monotonic now : Z) : BudgetCheckResult :=
  if (max_model_calls b <=? model_call_count)%N then refuse "max_model_calls_reached"
  else if (max_steps b <=? step_count)%N then refuse "max_steps_reached"
  else if (seconds (wall_time_limit_seconds b) <=? now - started_monotonic)%Z then
    refuse "wall_time_limit_reached"
  else if match max_total_tokens b with Some m => (m <=? total_tokens)%N | None => false end then
    refuse "max_total_tokens_reached"
  else if match max_estimated_cost_usd b, estimated_cost_usd with
          | Some m, Some c => Qle_bool m c
          | _, _ => false
          end then refuse "max_estimated_cost_reached"
  else {| bc_allowed := true; bc_reason := None |}.

(** ** Providers ([agents/providers]) *)

Record LLMMessage := { lm_role : string; lm_content : string }.

Record ToolDescriptor := {
  tdesc_key : string;
  tdesc_display_name : string;
  tdesc_description : string;
  tdesc_input_schema : json;
}.

Record LLMRequest := {
  lq_messages : list LLMMessage;
  lq_model : string;
  lq_tools : list ToolDescriptor;
  lq_temperature : Q;
  lq_max_output_tokens : N;
  lq_timeout_seconds : Z;
  lq_correlation_id : option string;
}.

Record LLMUsage := { use_input_tokens : N; use_output_tokens : N; use_total_tokens : N }.

Record NormalizedToolCall := {
  tc_call_id : string;
  tc_tool_name : string;
  tc_arguments : list (string * json);
  tc_normalization_error : option string;
}.

Record NormalizedHandoffRequest := { hr_reason_code : string; hr_summary : string }.

Record LLMResponse := {
  lr_text : string;
  lr_finish_reason : string;
  lr_usage : LLMUsage;
  lr_provider_request_id : option string;
  lr_structured_output : option json;
  lr_estimated_cost_usd : option Q;
  lr_tool_calls : list NormalizedToolCall;
  lr_handoff_request : option NormalizedHandoffRequest;
}.

(** A [ProviderError]: its code, its safe message and whether it is retryable. *)
Record ProviderError := {
  pf_code : string;
  pf_safe_message : string;
  pf_retryable : bool;
}.

(** ** State ([agents/runtime/state.py]) *)

Record PendingToolCall := {
  ptc_call : NormalizedToolCall;
  ptc_idempotency_key : option string;
}.

Record RuntimeState := {
  st_input_message : string;
  st_model_call_count : N;
  st_step_count : N;
  st_input_tokens : N;
  st_output_tokens : N;
  st_total_tokens : N;
  st_estimated_cost_usd : option Q;
  st_attempt : N;
  st_final_response : string;
  st_finish_reason : string;
  st_structured_output : option json;
  st_provider_request_id : option string;
  st_budget_exceeded : bool;
  st_budget_exceeded_reason : option string;
  st_safe_error_code : option string;
  st_safe_error_message : option string;
  st_retryable_error : bool;
  st_cancelled : bool;
  st_pending_tool_call : option PendingToolCall;
  st_tool_result_summary : option string;
  st_pending_handoff_request : option NormalizedHandoffRequest;
  st_handoff_request : option NormalizedHandoffRequest;
}.

Definition initial_state (input_message : string) : RuntimeState := {|
  st_input_message := input_message;
  st_model_call_count := 0; st_step_count := 0; st_input_tokens := 0;
  st_output_tokens := 0; st_total_tokens := 0; st_estimated_cost_usd := None;
  st_attempt := 0; st_final_response := ""; st_finish_reason := "";
  st_structured_output := None; st_provider_request_id := None;
  st_budget_exceeded := false; st_budget_exceeded_reason := None;
  st_safe_error_code := None; st_safe_error_message := None;
  st_retryable_error := false; st_cancelled := false; st_pending_tool_call := None;
  st_tool_result_summary := None; st_pending_handoff_request := None;
  st_handoff_request := None |}.

(** What the tool boundary answers: the dictionaries of
    [agents/services.py:_execute_tool_factory]. *)
Inductive ToolOutcome :=
  | ApprovalRequiredOutcome (error_code error_message : string)
  | BudgetExceededOutcome (budget_reason : option string)
  | TerminalOutcome (error_code error_message : string)
  | ModelResult (model_result : string) (error_code result_status : string) (reused : bool).

(** What the handoff validator answers. *)
Inductive HandoffAnswer :=
  | HandoffOk (request : NormalizedHandoffRequest)
  | HandoffRefused (error_code error_message : string).

Record RunContext := {
  ctx_generate : LLMRequest → service (ProviderError + LLMResponse);
  ctx_budgets : Budgets;
  ctx_model : string;
  ctx_temperature : Q;
  ctx_max_output_tokens : N;
  ctx_system_prompt : string;
  ctx_correlation_id : option string;
  ctx_record_step : StepRecorder;
  ctx_started_monotonic : Z;
  ctx_execute_tool : option (string → list (string * json) → option string → service ToolOutcome);
  ctx_initial_messages : option (list LLMMessage);
  ctx_tool_descriptors : list ToolDescriptor;
  ctx_agent_run_id : option string;
  ctx_is_cancelled : option (service bool);
  ctx_request_handoff : option (string → string → HandoffAnswer);
}.

Section Graph.
Context `{TextEncoding} `{Settings}.

(** ** Tool results ([agents/tool_runtime.py]) *)

Record ToolResultContext := {
  trc_tool_key : string;
  trc_status : string;
  trc_result : option json;
  trc_error_code : option string;
}.

(** Bytes: the dash of the source is one character of three bytes. *)
Definition TOOL_RESULT_PREAMBLE : string := "TOOL RESULT — UNTRUSTED EXTERNAL DATA".
Definition TOOL_RESULT_END : string := "END TOOL RESULT".

Definition newline : string := String (Ascii.ascii_of_nat 10) EmptyString.

Definition as_model_message (c : ToolResultContext) : string :=
  let safe_result := Redaction.redact [] (default (JObj []) (trc_result c)) in
  let payload := json_dumps (JObj [
    ("tool", JStr (trc_tool_key c)); ("status", JStr (trc_status c));
    ("error_code", JStr (default "" (trc_error_code c))); ("data", safe_result)]) in
  let prefix := TOOL_RESULT_PREAMBLE +:+ newline in
  let suffix := newline +:+ TOOL_RESULT_END in
  (* [len(prefix) + len(suffix)] is 38 + 16 characters *)
  let available := N.to_nat (AGENTS_TOOL_RESULT_MAX_CHARACTERS - 54) in
  prefix +:+ str_take available payload +:+ suffix.

(** ** Nodes *)

(** The state with one more step. *)
Definition next_step (s : RuntimeState) : RuntimeState :=
  {| s with st_step_count := (st_step_count s + 1)%N |}.

(** [ctx.is_cancelled is not None and ctx.is_cancelled()]. *)
Definition cancelled_now (ctx : RunContext) : service bool :=
  match ctx_is_cancelled ctx with Some check => check | None => mret false end.

Definition prepare_run (ctx : RunContext) (s : RuntimeState) : service RuntimeState :=
  ctx_record_step ctx AgentStepType.RUN_STARTED AgentStepStatus.SUCCEEDED [] "";;
  mret (next_step s).

(** [Decimal(str(cost)) if cost else None]. *)
Definition nonzero_cost (cost : option Q) : option Q :=
  match cost with Some c => if Qeq_bool c 0 then None else Some c | None => None end.

(** The update after a budget check. *)
Definition budget_checked (result : BudgetCheckResult) (s : RuntimeState) : RuntimeState :=
  let s := next_step s in
  if bc_allowed result then s
  else {| s with st_budget_exceeded := true; st_budget_exceeded_reason := bc_reason result |}.

Definition check_budget_node (ctx : RunContext) (s : RuntimeState) : service RuntimeState :=
  stop ← cancelled_now ctx;
  if (stop : bool) then mret {| s with st_cancelled := true |}
  else
    now ← get_now;
    let result := check_budget (ctx_budgets ctx) (st_model_call_count s) (st_step_count s)
                    (st_total_tokens s) (nonzero_cost (st_estimated_cost_usd s))
                    (ctx_started_monotonic ctx) now in
    ctx_record_step ctx AgentStepType.BUDGET_CHECKED
      (if bc_allowed result then AgentStepStatus.SUCCEEDED else AgentStepStatus.FAILED)
      [("allowed", JBool (bc_allowed result));
       ("reason", match bc_reason result with Some r => JStr r | None => JNull end)] "";;
    mret (budget_checked result s).

Definition request_messages (ctx : RunContext) (s : RuntimeState) : list LLMMessage :=
  match ctx_initial_messages ctx with
  | Some messages => messages
  | None =>
      (if String.eqb (ctx_system_prompt ctx) "" then []
       else [{| lm_role := "system"; lm_content := ctx_system_prompt ctx |}])
      ++ [{| lm_role := "user"; lm_content := st_input_message s |}]
  end
  ++ match st_tool_result_summary s with
     | Some summary =>
         if String.eqb summary "" then []
         else [{| lm_role := "user"; lm_content := "[tool_result] " +:+ summary |}]
     | None => []
     end.

Definition llm_request (ctx : RunContext) (s : RuntimeState) : LLMRequest := {|
  lq_messages := request_messages ctx s; lq_model := ctx_model ctx;
  lq_tools := ctx_tool_descriptors ctx; lq_temperature := ctx_temperature ctx;
  lq_max_output_tokens := ctx_max_output_tokens ctx;
  lq_timeout_seconds := provider_timeout_seconds (ctx_budgets ctx);
  lq_correlation_id := ctx_correlation_id ctx |}.

(** [f"agent:{run or 'unknown'}:turn:{turn}:{digest}"]. *)
Definition idempotency_key (ctx : RunContext) (model_turn : N) (call : NormalizedToolCall) : string :=
  let canonical := json_dumps (JObj (tc_arguments call)) in
  let digest := str_take 24 (sha256_hexdigest (tc_tool_name call +:+ ":" +:+ canonical)) in
  "agent:" +:+ str_or (default "" (ctx_agent_run_id ctx)) "unknown" +:+ ":turn:"
    +:+ pretty model_turn +:+ ":" +:+ digest.

(** [float(Decimal(str(prior_cost or 0)) + Decimal(str(turn_cost or 0)))]: a cost of the
    state or of a response, a float, is kept as the decimal [Decimal(str(cost))] that
    every reader of it takes. *)
Definition accumulated_cost (prior turn : option Q) : option Q :=
  match prior, turn with
  | None, None => None
  | _, _ => Some (through_float (decimal_add (default 0%Q prior) (default 0%Q turn)))
  end.

Definition nat_json (n : nat) : json := JInt (Z.of_nat n).

(** The update after a provider failure. *)
Definition failed_turn (e : ProviderError) (s : RuntimeState) : RuntimeState :=
  {| s with
     st_model_call_count := (st_model_call_count s + 1)%N;
     st_step_count := (st_step_count s + 1)%N;
     st_attempt := (st_attempt s + 1)%N;
     st_safe_error_code := Some (pf_code e);
     st_safe_error_message := Some (pf_safe_message e);
     st_retryable_error := pf_retryable e |}.

(** The update after an answer. *)
Definition answered_turn (response : LLMResponse) (tool_call : option PendingToolCall)
    (handoff_call : option NormalizedHandoffRequest) (s : RuntimeState) : RuntimeState :=
  {| s with
     st_model_call_count := (st_model_call_count s + 1)%N;
     st_step_count := (st_step_count s + 1)%N;
     st_attempt := (st_attempt s + 1)%N;
     st_input_tokens := (st_input_tokens s + use_input_tokens (lr_usage response))%N;
     st_output_tokens := (st_output_tokens s + use_output_tokens (lr_usage response))%N;
     st_total_tokens := (st_total_tokens s + use_total_tokens (lr_usage response))%N;
     st_estimated_cost_usd :=
       accumulated_cost (st_estimated_cost_usd s) (lr_estimated_cost_usd response);
     st_final_response := lr_text response;
     st_finish_reason := lr_finish_reason response;
     st_structured_output := lr_structured_output response;
     st_provider_request_id := lr_provider_request_id response;
     st_safe_error_code := None; st_safe_error_message := None; st_retryable_error := false;
     st_pending_tool_call := tool_call;
     st_tool_result_summary := None;
     st_pending_handoff_request := handoff_call |}.

Definition handle_answer (ctx : RunContext) (s : RuntimeState) (response : LLMResponse)
    : service RuntimeState :=
  let received := length (lr_tool_calls response) in
  ctx_record_step ctx AgentStepType.PROVIDER_CALL_SUCCEEDED AgentStepStatus.SUCCEEDED
    [("input_tokens", id_json (use_input_tokens (lr_usage response)));
     ("output_tokens", id_json (use_output_tokens (lr_usage response)));
     ("finish_reason", JStr (lr_finish_reason response));
     ("tool_calls_received", nat_json received);
     ("tool_calls_considered", nat_json (Nat.min 1 received));
     ("ignored_tool_call_count", nat_json (received - 1))] "";;
  let handoff_call := match ctx_request_handoff ctx with
                      | Some _ => lr_handoff_request response | None => None end in
  (match handoff_call with
   | Some _ => ctx_record_step ctx AgentStepType.HANDOFF_REQUESTED AgentStepStatus.SUCCEEDED
                 [("event", JStr "handoff_requested")] ""
   | None => mret ()
   end);;
  let tool_call := match handoff_call with
                   | Some _ => None | None => head (lr_tool_calls response) end in
  (match tool_call with
   | Some call => ctx_record_step ctx AgentStepType.REQUEST_NORMALIZED AgentStepStatus.SUCCEEDED
       [("event", JStr "tool_call_received"); ("tool_key", JStr (tc_tool_name call));
        ("tool_calls_received", nat_json received);
        ("ignored_tool_call_count", nat_json (received - 1))] ""
   | None => mret ()
   end);;
  let model_turn := (st_model_call_count s + 1)%N in
  mret (answered_turn response
          ((λ call, {| ptc_call := call;
                       ptc_idempotency_key := Some (idempotency_key ctx model_turn call) |})
             <$> tool_call) handoff_call s).

Definition generate_response (ctx : RunContext) (s : RuntimeState) : service RuntimeState :=
  if st_budget_exceeded s then mret s
  else
    ctx_record_step ctx AgentStepType.PROVIDER_CALL_STARTED AgentStepStatus.STARTED [] "";;
    answer ← ctx_generate ctx (llm_request ctx s);
    match answer with
    | inl e =>
        ctx_record_step ctx AgentStepType.PROVIDER_CALL_FAILED AgentStepStatus.FAILED []
          (pf_code e);;
        mret (failed_turn e s)
    | inr response => handle_answer ctx s response
    end.

Definition safe_error (code message : string) (s : RuntimeState) : RuntimeState :=
  {| s with st_safe_error_code := Some code; st_safe_error_message := Some message;
            st_retryable_error := false |}.

Definition tool_result_step (ctx : RunContext) (tool_key status error_code : string)
    (more : list (string * json)) : service () :=
  ctx_record_step ctx AgentStepType.REQUEST_NORMALIZED AgentStepStatus.SUCCEEDED
    ([("event", JStr "tool_result_prepared"); ("tool_key", JStr tool_key);
      ("status", JStr status); ("error_code", JStr error_code)] ++ more) "".

Definition apply_tool_outcome (ctx : RunContext) (tool_key : string) (outcome : ToolOutcome)
    (s : RuntimeState) : service RuntimeState :=
  match outcome with
  | ApprovalRequiredOutcome code message | TerminalOutcome code message =>
      mret (safe_error (str_or code "tool_execution_failed")
              (str_or message "The requested tool failed.") s)
  | BudgetExceededOutcome reason =>
      mret {| s with st_budget_exceeded := true; st_budget_exceeded_reason := reason |}
  | ModelResult model_result error_code result_status reused =>
      tool_result_step ctx tool_key result_status error_code [("reused", JBool reused)];;
      mret {| s with st_tool_result_summary := Some model_result |}
  end.

Definition execute_tool_call (ctx : RunContext) (s : RuntimeState) : service RuntimeState :=
  let s' := {| s with st_pending_tool_call := None |} in
  match st_pending_tool_call s, ctx_execute_tool ctx with
  | Some pending, Some execute_tool =>
      let call := ptc_call pending in
      stop ← cancelled_now ctx;
      if (stop : bool) then mret {| s' with st_cancelled := true |}
      else if truthy (tc_normalization_error call) then
        let code := default "" (tc_normalization_error call) in
        let model_result := as_model_message
          {| trc_tool_key := tc_tool_name call; trc_status := "failed"; trc_result := None;
             trc_error_code := Some code |} in
        tool_result_step ctx (tc_tool_name call) "failed" code [];;
        let s' := next_step s' in
        mret {| s' with st_tool_result_summary := Some model_result |}
      else
        outcome ← execute_tool (tc_tool_name call) (tc_arguments call)
                    (ptc_idempotency_key pending);
        apply_tool_outcome ctx (tc_tool_name call) outcome (next_step s')
  | _, _ => mret s'
  end.

Definition execute_handoff_request (ctx : RunContext) (s : RuntimeState) : service RuntimeState :=
  let s' := {| s with st_pending_handoff_request := None |} in
  match st_pending_handoff_request s, ctx_request_handoff ctx with
  | Some request, Some request_handoff =>
      stop ← cancelled_now ctx;
      if (stop : bool) then mret {| s' with st_cancelled := true |}
      else
        let s' := next_step s' in
        match request_handoff (hr_reason_code request) (hr_summary request) with
        | HandoffRefused code message =>
            mret (safe_error (str_or code "invalid_handoff_request")
                    (str_or message "The handoff request was invalid.") s')
        | HandoffOk validated => mret {| s' with st_handoff_request := Some validated |}
        end
  | _, _ => mret s'
  end.

Definition validate_provider_result (s : RuntimeState) : RuntimeState :=
  if String.eqb (st_final_response s) "" then
    safe_error "provider_malformed_response" "The AI provider returned an empty response." s
  else s.

Definition finalize_response (ctx : RunContext) (s : RuntimeState) : service RuntimeState :=
  ctx_record_step ctx AgentStepType.RESPONSE_FINALIZED AgentStepStatus.SUCCEEDED [] "";;
  mret (next_step s).

(** ** The graph *)

Inductive Node :=
  | Prepare | CheckBudget | Generate | ExecuteTool | ExecuteHandoff | Validate | Finalize.
#[export] Instance node_eq_dec : EqDecision Node.
Proof. solve_decision. Defined.

Definition run_node (ctx : RunContext) (n : Node) (s : RuntimeState) : service RuntimeState :=
  match n with
  | Prepare => prepare_run ctx s
  | CheckBudget => check_budget_node ctx s
  | Generate => generate_response ctx s
  | ExecuteTool => execute_tool_call ctx s
  | ExecuteHandoff => execute_handoff_request ctx s
  | Validate => mret (validate_provider_result s)
  | Finalize => finalize_response ctx s
  end.

Definition can_retry (ctx : RunContext) (s : RuntimeState) : bool :=
  st_retryable_error s
  && (st_attempt s <? max_retry_attempts (ctx_budgets ctx))%N
  && (st_model_call_count s <? max_model_calls (ctx_budgets ctx))%N.

Definition is_some {A} (o : option A) : bool := match o with Some _ => true | None => false end.

Definition route_after_generate (ctx : RunContext) (s : RuntimeState) : option Node :=
  if st_budget_exceeded s then None
  else if truthy (st_safe_error_code s) then
    if can_retry ctx s then Some CheckBudget else None
  else if is_some (st_pending_handoff_request s) && is_some (ctx_request_handoff ctx) then
    Some ExecuteHandoff
  else if is_some (st_pending_tool_call s) && is_some (ctx_execute_tool ctx) then
    Some ExecuteTool
  else Some Validate.

Definition route_after_tool (s : RuntimeState) : option Node :=
  if truthy (st_safe_error_code s) || st_budget_exceeded s || st_cancelled s
  then None else Some CheckBudget.

(** The edges of [build_graph] and [build_resume_graph]; [None] is [END]. *)
Definition route (ctx : RunContext) (n : Node) (s : RuntimeState) : option Node :=
  match n with
  | Prepare => Some CheckBudget
  | CheckBudget => if st_budget_exceeded s || st_cancelled s then None else Some Generate
  | Generate => route_after_generate ctx s
  | ExecuteTool => route_after_tool s
  | ExecuteHandoff => None
  | Validate => if truthy (st_safe_error_code s) then None else Some Finalize
  | Finalize => None
  end.

Definition GraphRecursionError : exn := OtherExc 3.

(** [graph.invoke(state, {"recursion_limit": limit})]; reaching the end takes one
    of the [limit] steps, the stricter reading of the limit. *)
Fixpoint invoke (limit : nat) (ctx : RunContext) (n : option Node) (s : RuntimeState)
    : service RuntimeState :=
  match limit with
  | O => raise GraphRecursionError
  | S limit =>
      match n with
      | None => mret s
      | Some n => s' ← run_node ctx n s; invoke limit ctx (route ctx n s') s'
      end
  end.

Definition recursion_limit (b : Budgets) : nat :=
  N.to_nat (N.max 25 (max_steps b * 4 + max_model_calls b * 4)).

Definition run_graph (ctx : RunContext) (input_message : string) : service RuntimeState :=
  invoke (recursion_limit (ctx_budgets ctx)) ctx (Some Prepare) (initial_state input_message).

Definition resume_state_after_tool (input_message : string)
    (model_call_count step_count input_tokens output_tokens total_tokens : N)
    (estimated_cost_usd : option Q) (tool_result_summary : string) : RuntimeState :=
  let s := initial_state input_message in
  {| s with
     st_model_call_count := model_call_count; st_step_count := step_count;
     st_input_tokens := input_tokens; st_output_tokens := output_tokens;
     st_total_tokens := total_tokens; st_estimated_cost_usd := estimated_cost_usd;
     st_tool_result_summary := Some tool_result_summary |}.

Definition run_resume_graph (ctx : RunContext) (s : RuntimeState) : service RuntimeState :=
  invoke (recursion_limit (ctx_budgets ctx)) ctx (Some CheckBudget) s.

(** ** Metering

    Two counters of the world: the calls of the provider and the calls of the
    tool boundary.  What else the graph is given leaves both alone. *)

Definition advances (p t : World → N) (dp dt : N) {A} (m : service A) : Prop :=
  ∀ w, p (m w).2 = (p w + dp)%N ∧ t (m w).2 = (t w + dt)%N.

Record metered (ctx : RunContext) (p t : World → N) : Prop := {
  metered_generate : ∀ request, advances p t 1 0 (ctx_generate ctx request);
  metered_step : ∀ a b c d, advances p t 0 0 (ctx_record_step ctx a b c d);
  metered_tool : ∀ f k a i, ctx_execute_tool ctx = Some f → advances p t 0 1 (f k a i);
  metered_cancelled : advances p t 0 0 (cancelled_now ctx);
}.

(** A computation that returns whatever the world. *)
Definition never_raises {A} (m : service A) : Prop := ∀ w, ∃ a, (m w).1 = inr a.

(** None of the computations the graph is given raises. *)
Record quiet (ctx : RunContext) : Prop := {
  quiet_generate : ∀ request, never_raises (ctx_generate ctx request);
  quiet_step : ∀ a b c d, never_raises (ctx_record_step ctx a b c d);
  quiet_tool : ∀ f k a i, ctx_execute_tool ctx = Some f → never_raises (f k a i);
  quiet_cancelled : never_raises (cancelled_now ctx);
}.
End Graph.

(** ** The run is bounded *)

Section Bounds.
Context `{TextEncoding} `{Settings}.
Context (ctx : RunContext) (p t : World → N) (Hm : metered ctx p t).

#[local] Abbreviation MC := (max_model_calls (ctx_budgets ctx)).

(** Provider calls and tool calls of a node. *)
Definition node_calls (n : Node) : N := match n with Generate => 1 | _ => 0 end.
Definition node_tools (n : Node) : N := match n with ExecuteTool => 1 | _ => 0 end.

(** What a node may rely on: a model call is only scheduled below the budget. *)
Definition ready (n : option Node) (s : RuntimeState) : Prop :=
  n = Some Generate → (st_model_call_count s < MC)%N ∧ st_budget_exceeded s = false.

Definition node_post (n : Node) (s : RuntimeState) (w : World) (r : exn + RuntimeState)
    (w' : World) : Prop :=
  (p w <= p w' <= p w + node_calls n)%N ∧ (t w' <= t w + node_tools n)%N ∧
  match r with
  | inl _ => ¬ quiet ctx
  | inr s' => p w' = (p w + node_calls n)%N ∧
      st_model_call_count s' = (st_model_call_count s + node_calls n)%N ∧
      ready (route ctx n s') s'
  end.

Lemma wp_metered {A} (m : service A) dp dt (Q : exn + A → World → Prop) w :
  advances p t dp dt m → (quiet ctx → never_raises m) →
  (∀ r w', p w' = (p w + dp)%N → t w' = (t w + dt)%N →
     match r with inl _ => ¬ quiet ctx | inr _ => True end → Q r w') →
  wp m Q w.
Proof.
  intros Ha Hq HQ. destruct (Ha w) as [Hp Ht]. unfold wp. apply HQ; [done..|].
  destruct (m w).1 eqn:E; [|done]. intros Hc. destruct (Hq Hc w) as [a Ha']. congruence.
Qed.

Lemma wp_step_recorded a b c d (Q : exn + () → World → Prop) w :
  (∀ r w', p w' = p w → t w' = t w →
     match r with inl _ => ¬ quiet ctx | inr _ => True end → Q r w') →
  wp (ctx_record_step ctx a b c d) Q w.
Proof.
  intros HQ. eapply wp_metered; [apply (metered_step _ _ _ Hm)|intros Hq; apply Hq|].
  intros r w' Hp Ht. apply HQ; lia.
Qed.

Lemma wp_cancelled_now (Q : exn + bool → World → Prop) w :
  (∀ r w', p w' = p w → t w' = t w →
     match r with inl _ => ¬ quiet ctx | inr _ => True end → Q r w') →
  wp (cancelled_now ctx) Q w.
Proof.
  intros HQ. eapply wp_metered; [apply (metered_cancelled _ _ _ Hm)|intros Hq; apply Hq|].
  intros r w' Hp Ht. apply HQ; lia.
Qed.
End Bounds.

(** Symbolic execution of a node. *)
Ltac node_step Hm :=
  lazymatch goal with
  | |- wp (ctx_record_step _ _ _ _ _) _ _ =>
      apply (wp_step_recorded _ _ _ Hm); intros [?|[]] ? ? ? ?; wp_beta
  | |- wp (cancelled_now _) _ _ =>
      apply (wp_cancelled_now _ _ _ Hm); intros [?|?] ? ? ? ?; wp_beta
  | |- wp (tool_result_step _ _ _ _ _) _ _ => unfold tool_result_step
  | |- _ => svc_step
  end.

Section Bounded.
Context `{TextEncoding} `{Settings}.
Context (ctx : RunContext) (p t : World → N) (Hm : metered ctx p t).
#[local] Abbreviation MC := (max_model_calls (ctx_budgets ctx)).

Lemma check_budget_allowed b mc sc tt c st now :
  bc_allowed (check_budget b mc sc tt c st now) = true → (mc < max_model_calls b)%N.
Proof. unfold check_budget. destruct (N.leb_spec (max_model_calls b) mc); [done|]. done. Qed.

Lemma route_generate n s : route ctx n s = Some Generate → n = CheckBudget.
Proof.
  destruct n; simpl; unfold route_after_generate, route_after_tool; repeat case_match; done.
Qed.

Lemma ready_other n s : n ≠ CheckBudget → ready ctx (route ctx n s) s.
Proof. by intros Hn ?%route_generate. Qed.

Lemma budget_checked_calls r s :
  st_model_call_count (budget_checked r s) = st_model_call_count s.
Proof. unfold budget_checked. by destruct (bc_allowed r). Qed.

Lemma budget_checked_ready s now :
  let result := check_budget (ctx_budgets ctx) (st_model_call_count s) (st_step_count s)
                  (st_total_tokens s) (nonzero_cost (st_estimated_cost_usd s))
                  (ctx_started_monotonic ctx) now in
  ready ctx (route ctx CheckBudget (budget_checked result s)) (budget_checked result s).
Proof.
  intros result Hr. rewrite budget_checked_calls. unfold budget_checked in *.
  destruct (bc_allowed result) eqn:Ha; simpl in *; [|done].
  apply check_budget_allowed in Ha. split; [done|]. by destruct (st_budget_exceeded s).
Qed.

#[local] Ltac node_done :=
  unfold node_post; cbn [node_calls node_tools]; split_and?; try (simpl; lia); try done;
  try (by apply ready_other).

Lemma prepare_post s w : wp (prepare_run ctx s) (node_post ctx p t Prepare s w) w.
Proof. unfold prepare_run. repeat node_step Hm; node_done. Qed.

Lemma check_budget_post s w :
  wp (check_budget_node ctx s) (node_post ctx p t CheckBudget s w) w.
Proof.
  unfold check_budget_node. repeat node_step Hm; node_done.
  - intros Hr. exfalso. revert Hr. simpl. by destruct (st_budget_exceeded s).
  - by rewrite budget_checked_calls, N.add_0_r.
  - apply budget_checked_ready.
Qed.

Lemma generate_post s w :
  st_budget_exceeded s = false →
  wp (generate_response ctx s) (node_post ctx p t Generate s w) w.
Proof.
  intros Hb. unfold generate_response. rewrite Hb. repeat node_step Hm; [node_done|].
  eapply wp_metered; [apply (metered_generate _ _ _ Hm)|intros Hq; apply Hq|].
  intros [e|[e|response]] w1 Hp1 Ht1 Hr1; wp_beta; [node_done| |].
  - repeat node_step Hm; node_done.
  - unfold handle_answer. repeat node_step Hm; node_done.
Qed.

Lemma tool_post s w : wp (execute_tool_call ctx s) (node_post ctx p t ExecuteTool s w) w.
Proof.
  unfold execute_tool_call.
  destruct (st_pending_tool_call s) as [pending|]; [|apply wp_ret; node_done].
  destruct (ctx_execute_tool ctx) as [f|] eqn:Hf; [|apply wp_ret; node_done].
  repeat node_step Hm; try (node_done; fail).
  eapply wp_metered; [by apply (metered_tool _ _ _ Hm)|intros Hq; by apply Hq|].
  intros [e|outcome] w1 Hp1 Ht1 Hr1; wp_beta; [node_done|].
  unfold apply_tool_outcome. repeat node_step Hm; node_done.
Qed.

Lemma handoff_post s w : wp (execute_handoff_request ctx s) (node_post ctx p t ExecuteHandoff s w) w.
Proof.
  unfold execute_handoff_request.
  destruct (st_pending_handoff_request s) as [request|]; [|apply wp_ret; node_done].
  destruct (ctx_request_handoff ctx) as [f|] eqn:Hf; [|apply wp_ret; node_done].
  repeat node_step Hm; node_done.
Qed.

Lemma finalize_post s w : wp (finalize_response ctx s) (node_post ctx p t Finalize s w) w.
Proof. unfold finalize_response. repeat node_step Hm; node_done. Qed.

Lemma node_bounded n s w :
  ready ctx (Some n) s → wp (run_node ctx n s) (node_post ctx p t n s w) w.
Proof.
  intros Hr. destruct n; simpl.
  - apply prepare_post.
  - apply check_budget_post.
  - by apply generate_post, Hr.
  - apply tool_post.
  - apply handoff_post.
  - apply wp_ret. unfold validate_provider_result. case_match; node_done.
  - apply finalize_post.
Qed.

(** The model calls a state leaves. *)
Definition calls_left (s : RuntimeState) : N := (MC - st_model_call_count s)%N.

(** The steps a run needs from a node on, the end included. *)
Definition steps_needed (n : option Node) (s : RuntimeState) : N :=
  (match n with
  | None => 1 | Some Finalize | Some ExecuteHandoff => 2 | Some Validate => 3
  | Some CheckBudget => 3 * calls_left s + 2
  | Some Generate => 3 * calls_left s + 1
  | Some Prepare | Some ExecuteTool => 3 * calls_left s + 3
  end)%N.

Lemma steps_decrease n s s' :
  ready ctx (Some n) s → ready ctx (route ctx n s') s' →
  st_model_call_count s' = (st_model_call_count s + node_calls n)%N →
  (steps_needed (route ctx n s') s' + 1 <= steps_needed (Some n) s)%N.
Proof.
  unfold steps_needed, calls_left, ready. intros Hr Hr' Hc. destruct n; cbn [route node_calls] in *.
  1: lia.
  1: { revert Hr'. destruct (st_budget_exceeded s' || st_cancelled s'); [lia|].
       intros Hr'. destruct (Hr' eq_refl). lia. }
  1: { destruct (Hr eq_refl). unfold route_after_generate. repeat case_match; simplify_eq; lia. }
  1: { unfold route_after_tool. repeat case_match; simplify_eq; lia. }
  all: repeat case_match; simplify_eq; lia.
Qed.

Lemma route_tool n s : route ctx n s = Some ExecuteTool → n = Generate.
Proof.
  destruct n; simpl; unfold route_after_generate, route_after_tool; repeat case_match; done.
Qed.

(** What a run does from a node on. *)
Definition invoke_post (n : option Node) (s : RuntimeState) (w : World)
    (r : exn + RuntimeState) (w' : World) : Prop :=
  (p w' <= p w + calls_left s)%N ∧
  (t w' + p w <= t w + p w' + match n with Some n => node_tools n | None => 0 end)%N ∧
  match r with
  | inl _ => ¬ quiet ctx
  | inr s' => (p w' + st_model_call_count s = p w + st_model_call_count s')%N ∧
              (st_model_call_count s' <= N.max (st_model_call_count s) MC)%N
  end.

Lemma invoke_bounded limit n s w :
  ready ctx n s → (steps_needed n s <= N.of_nat limit)%N →
  wp (invoke limit ctx n s) (invoke_post n s w) w.
Proof.
  revert n s w. induction limit as [|limit IH]; intros n s w Hr Hl; cbn [invoke].
  { exfalso. destruct n as [[]|]; simpl in Hl; lia. }
  destruct n as [n|].
  2: { apply wp_ret. unfold invoke_post. split_and!; lia. }
  apply wp_bind. eapply wp_mono; [by apply node_bounded|].
  intros [e|s'] w' (Hp & Ht & Hpost); wp_beta; unfold invoke_post.
  - assert (node_calls n <= calls_left s)%N.
    { unfold calls_left. destruct n; simpl; try lia. destruct (Hr eq_refl). lia. }
    by split_and!; [lia|lia|].
  - destruct Hpost as (Hp' & Hc & Hr'). pose proof (steps_decrease n s s' Hr Hr' Hc).
    eapply wp_mono; [apply IH; [done|lia]|]. unfold invoke_post, calls_left.
    intros r w2 (Hp2 & Ht2 & Hres).
    assert (match route ctx n s' with Some n => node_tools n | None => 0 end <= node_calls n)%N.
    { destruct (route ctx n s') as [[]|] eqn:Hn; simpl; try lia.
      by rewrite (route_tool n s' Hn). }
    assert (node_calls n <= MC - st_model_call_count s)%N.
    { destruct n; simpl; try lia. destruct (Hr eq_refl). lia. }
    split_and!; [lia..|]. destruct r as [e|s2]; [done|]. lia.
Qed.
End Bounded.

(** ** What a run ends with *)

Section Outcomes.
Context `{TextEncoding} `{Settings}.
Context (ctx : RunContext).

(** The request the handoff validator accepted. *)
Definition handoff_accepted (request : NormalizedHandoffRequest) : Prop :=
  ∃ validator proposed, ctx_request_handoff ctx = Some validator ∧
    validator (hr_reason_code proposed) (hr_summary proposed) = HandoffOk request.

(** A state the graph may end in. *)
Definition settled (s : RuntimeState) : Prop :=
  (∀ request, st_handoff_request s = Some request → handoff_accepted request) ∧
  (st_cancelled s = false → st_handoff_request s = None → st_budget_exceeded s = false →
   truthy (st_safe_error_code s) = false → st_final_response s ≠ "").

(** A state a node may be entered with. *)
Definition entering (n : option Node) (s : RuntimeState) : Prop :=
  match n with
  | None => settled s
  | Some n =>
      st_handoff_request s = None ∧
      (n = Finalize → st_final_response s ≠ "") ∧
      (n = ExecuteHandoff →
         is_some (st_pending_handoff_request s) && is_some (ctx_request_handoff ctx) = true)
  end.

(** Every value a computation returns. *)
Definition returning {A} (P : A → Prop) (m : service A) : Prop :=
  ∀ w a w', m w = (inr a, w') → P a.

Lemma returning_ret {A} (P : A → Prop) a : P a → returning P (mret a).
Proof. by intros ? w a' w' [= <- _]. Qed.
Lemma returning_bind {A B} (P : B → Prop) (m : service A) (k : A → service B) :
  (∀ a, returning P (k a)) → returning P (m ≫= k).
Proof.
  intros Hk w b w'. unfold mbind, M_bind. destruct (m w) as [[e|a] w1]; [done|]. apply Hk.
Qed.

#[local] Ltac returning_step :=
  lazymatch goal with
  | |- returning _ (mret _) => apply returning_ret
  | |- returning _ (_ ≫= _) => apply returning_bind; intro
  | |- returning _ (match ?x with _ => _ end) => destruct x eqn:?
  | |- returning _ _ => progress cbv beta zeta
  end.

Lemma settled_early s :
  st_handoff_request s = None →
  st_cancelled s || st_budget_exceeded s || truthy (st_safe_error_code s) = true → settled s.
Proof.
  intros Hn Hf. split; [congruence|]. intros Hc _ Hb He. by rewrite Hc, Hb, He in Hf.
Qed.

Lemma str_or_truthy code fallback : fallback ≠ "" → truthy (Some (str_or code fallback)) = true.
Proof.
  intros Hf. unfold truthy, str_or. destruct (String.eqb_spec code ""); simpl.
  - by destruct (String.eqb_spec fallback "").
  - by destruct (String.eqb_spec code "").
Qed.

Lemma entering_some n s :
  st_handoff_request s = None → n ≠ Finalize → n ≠ ExecuteHandoff → entering (Some n) s.
Proof. done. Qed.

Lemma edge_entering n s :
  n ≠ ExecuteHandoff → st_handoff_request s = None →
  (n = Validate → truthy (st_safe_error_code s) = false → st_final_response s ≠ "") →
  (n = Finalize → st_final_response s ≠ "") → entering (route ctx n s) s.
Proof.
  intros Hne Hn Hv Hf. destruct n; simpl; try done.
  - destruct (st_budget_exceeded s) eqn:Hb; simpl.
    { apply settled_early; [done|]. by rewrite Hb, orb_true_r. }
    destruct (st_cancelled s) eqn:Hc; simpl; [apply settled_early; [done|by rewrite Hc]|done].
  - unfold route_after_generate. destruct (st_budget_exceeded s) eqn:Hb.
    { apply settled_early; [done|]. by rewrite Hb, orb_true_r. }
    destruct (truthy _) eqn:He.
    { destruct (can_retry _ _); [done|]. apply settled_early; [done|]. by rewrite He, orb_true_r. }
    destruct (is_some (st_pending_handoff_request s) && is_some (ctx_request_handoff ctx)) eqn:Hh;
      [by split_and!|].
    by destruct (is_some (st_pending_tool_call s) && is_some (ctx_execute_tool ctx));
      apply entering_some.
  - unfold route_after_tool. destruct (_ || _) eqn:Hr; simpl; [|done].
    apply settled_early; [done|]. revert Hr. by destruct (truthy _), (st_budget_exceeded s), (st_cancelled s).
  - destruct (truthy _) eqn:He; simpl; [|by split_and!; auto].
    apply settled_early; [done|]. by rewrite He, orb_true_r.
  - split; [congruence|]. intros _ _ _ _. by apply Hf.
Qed.

Lemma node_keeps_handoff n s :
  n ≠ ExecuteHandoff → st_handoff_request s = None →
  returning (λ s', st_handoff_request s' = None) (run_node ctx n s).
Proof.
  intros Hne Hn. destruct n; simpl; try done;
    unfold prepare_run, check_budget_node, generate_response, execute_tool_call, handle_answer,
      apply_tool_outcome, finalize_response, validate_provider_result, budget_checked, tool_result_step;
    repeat returning_step; simpl; repeat case_match; done.
Qed.

Lemma validated_response s :
  truthy (st_safe_error_code (validate_provider_result s)) = false →
  st_final_response (validate_provider_result s) ≠ "".
Proof. unfold validate_provider_result. by destruct (String.eqb_spec (st_final_response s) ""). Qed.

Lemma handoff_settles s :
  entering (Some ExecuteHandoff) s → returning settled (execute_handoff_request ctx s).
Proof.
  intros (Hn & _ & Hh). specialize (Hh eq_refl). unfold execute_handoff_request.
  destruct (st_pending_handoff_request s) as [request|]; [|done].
  destruct (ctx_request_handoff ctx) as [validator|] eqn:Hval; [|done].
  repeat returning_step.
  - by apply settled_early.
  - split; simpl; [|done]. intros r [= <-]. by exists validator, request.
  - apply settled_early; [done|].
    assert (Ht := str_or_truthy error_code "invalid_handoff_request" ltac:(done)).
    simpl in Ht |- *. by rewrite Ht, orb_true_r.
Qed.

Lemma node_entering n s :
  entering (Some n) s → returning (λ s', entering (route ctx n s') s') (run_node ctx n s).
Proof.
  intros He w s' w' Hrun. destruct (decide (n = ExecuteHandoff)) as [->|Hne].
  { by apply (handoff_settles s He w s' w'). }
  destruct He as (Hn & Hf & _).
  apply edge_entering; [done|by apply (node_keeps_handoff n s Hne Hn w s' w')| |].
  - intros ->. simpl in Hrun. injection Hrun as <- _. apply validated_response.
  - intros ->. revert Hrun. simpl. unfold finalize_response, mbind, M_bind.
    destruct (ctx_record_step ctx _ _ _ _ w) as [[e|[]] w1]; [done|].
    intros [= <- _]. by apply Hf.
Qed.

Lemma invoke_settles limit n s w s' w' :
  entering n s → invoke limit ctx n s w = (inr s', w') → settled s'.
Proof.
  revert n s w. induction limit as [|limit IH]; intros n s w Hn; [done|]. cbn [invoke].
  destruct n as [n|]; [|by intros [= <- _]].
  unfold mbind, M_bind. destruct (run_node ctx n s w) as [[e|s1] w1] eqn:Hrun; [done|].
  apply IH. by apply (node_entering n s Hn w s1 w1).
Qed.
End Outcomes.

(** ** The properties *)

Section GraphProperties.
Context `{TextEncoding} `{Settings}.

(** A run that starts with [used] model calls behind it. *)
Definition bounded_run (ctx : RunContext) (p t : World → N) (used : N) (w : World)
    (run : (exn + RuntimeState) * World) : Prop :=
  let budget := max_model_calls (ctx_budgets ctx) in
  (p run.2 - p w <= budget - used)%N ∧ (t run.2 + p w <= t w + p run.2)%N ∧
  (quiet ctx → ∃ s', run.1 = inr s' ∧
     (p run.2 + used = p w + st_model_call_count s')%N ∧
     (st_model_call_count s' <= N.max used budget)%N).

Lemma recursion_limit_enough ctx n s :
  n = Prepare ∨ n = CheckBudget →
  (steps_needed ctx (Some n) s <= N.of_nat (recursion_limit (ctx_budgets ctx)))%N.
Proof. unfold recursion_limit, steps_needed, calls_left. intros [-> | ->]; lia. Qed.

Lemma invoke_run ctx p t n s w :
  metered ctx p t → n = Prepare ∨ n = CheckBudget →
  bounded_run ctx p t (st_model_call_count s) w
    (invoke (recursion_limit (ctx_budgets ctx)) ctx (Some n) s w).
Proof.
  intros Hm Hn.
  assert (Hpost : invoke_post ctx p t (Some n) s w
    (invoke (recursion_limit (ctx_budgets ctx)) ctx (Some n) s w).1
    (invoke (recursion_limit (ctx_budgets ctx)) ctx (Some n) s w).2).
  { apply invoke_bounded; [done| |by apply recursion_limit_enough].
    destruct Hn as [-> | ->]; by intros [=]. }
  destruct (invoke _ _ _ _ w) as [r w']. unfold bounded_run. simpl in *.
  destruct Hpost as (Hp & Ht & Hr). unfold calls_left in Hp.
  assert (match n with ExecuteTool => 1 | _ => 0 end = 0)%N by by destruct Hn as [-> | ->].
  split_and!; [lia| |].
  - destruct Hn as [-> | ->]; simpl in Ht; lia.
  - intros Hq. destruct r as [e|s']; [done|]. exists s'. by destruct Hr.
Qed.

(** C26. A run of the graph, fresh or resumed, never calls the provider more often
    than the model-call budget leaves, nor the tool boundary more often than the
    provider, whatever the provider answers or the steps do.  Where these
    computations do not raise, the run returns: the recursion limit is never
    reached, and the call count it reports is the number of calls made. *)
Theorem run_graph_bounded ctx p t w :
  metered ctx p t →
  (∀ input_message, bounded_run ctx p t 0 w (run_graph ctx input_message w)) ∧
  (∀ s, bounded_run ctx p t (st_model_call_count s) w (run_resume_graph ctx s w)).
Proof.
  intros Hm. split.
  - intros input_message.
    apply (invoke_run ctx p t Prepare (initial_state input_message) w Hm). by left.
  - intros s. apply (invoke_run ctx p t CheckBudget s w Hm). by right.
Qed.

(** When the graph returns, a recorded handoff request is one its validator
    accepted; and a run that was neither cancelled, nor handed off, nor stopped
    by a budget, nor failed ends with a response that is not empty. *)
Theorem run_graph_settles ctx w s' w' :
  ((∃ input_message, run_graph ctx input_message w = (inr s', w')) ∨
   (∃ s, st_handoff_request s = None ∧ run_resume_graph ctx s w = (inr s', w'))) →
  (∀ request, st_handoff_request s' = Some request → handoff_accepted ctx request) ∧
  (st_cancelled s' = false → st_handoff_request s' = None → st_budget_exceeded s' = false →
   truthy (st_safe_error_code s') = false → st_final_response s' ≠ "").
Proof.
  intros [[input_message Hrun]|(s & Hs & Hrun)]; by eapply invoke_settles in Hrun.
Qed.
End GraphProperties.

(** ** Examples *)

Module GraphExamples.
#[local] Instance text_encoding : TextEncoding :=
  {| json_dumps _ := "{}"; sha256_hexdigest s := s |}.
#[local] Existing Instance default_settings.

Definition response (text : string) (calls : list NormalizedToolCall) : LLMResponse := {|
  lr_text := text; lr_finish_reason := "stop";
  lr_usage := {| use_input_tokens := 5; use_output_tokens := 7; use_total_tokens := 12 |};
  lr_provider_request_id := None; lr_structured_output := None; lr_estimated_cost_usd := None;
  lr_tool_calls := calls; lr_handoff_request := None |}.

Definition lookup_call : NormalizedToolCall := {|
  tc_call_id := "call"; tc_tool_name := "order.lookup"; tc_arguments := [];
  tc_normalization_error := None |}.

(** Asks for a tool first and answers then; every call takes an identifier. *)
Definition provider (_ : LLMRequest) : service (ProviderError + LLMResponse) :=
  i ← fresh;
  mret (inr (if (i =? 1)%N then response "" [lookup_call] else response "Your order is on its way." [])).

(** A tool whose calls are seen at the broker. *)
Definition tool (_ : string) (_ : list (string * json)) (_ : option string)
    : service ToolOutcome :=
  publish (execute_agent_run_task 0);;
  mret (ModelResult "shipped" "" "succeeded" false).

Definition budgets : Budgets := {|
  max_model_calls := 2; max_steps := 20; wall_time_limit_seconds := 30;
  provider_timeout_seconds := 30; max_total_tokens := None; max_estimated_cost_usd := None;
  max_retry_attempts := 1 |}.

Definition context : RunContext := {|
  ctx_generate := provider; ctx_budgets := budgets; ctx_model := "model";
  ctx_temperature := 0%Q; ctx_max_output_tokens := 512; ctx_system_prompt := "";
  ctx_correlation_id := None; ctx_record_step := no_step;
  ctx_started_monotonic := w_now empty_world; ctx_execute_tool := Some tool;
  ctx_initial_messages := None; ctx_tool_descriptors := []; ctx_agent_run_id := Some "run";
  ctx_is_cancelled := None; ctx_request_handoff := None |}.

Definition published_count (w : World) : N := N.of_nat (length (w_published w)).

Lemma context_metered : metered context w_next published_count.
Proof.
  split.
  - intros request w. unfold published_count. simpl. lia.
  - intros a b c d w. unfold published_count. simpl. lia.
  - intros f k a i [= <-] w. unfold published_count. simpl. rewrite length_app. simpl. lia.
  - intros w. unfold published_count. simpl. lia.
Qed.

Lemma context_quiet : quiet context.
Proof.
  split; [intros request w|intros a b c d w|intros f k a i [= <-] w|intros w]; by eexists.
Qed.

Definition final_state (run : (exn + RuntimeState) * World) : RuntimeState :=
  match run.1 with inr s => s | inl _ => initial_state "" end.

(** Two model calls and one tool call, then an answer. *)
Lemma run_graph_bounded_witness :
  bounded_run context w_next published_count 0 empty_world
    (run_graph context "Where is my order?" empty_world) ∧
  st_model_call_count (final_state (run_graph context "Where is my order?" empty_world)) = 2%N ∧
  published_count (run_graph context "Where is my order?" empty_world).2 = 1%N.
Proof.
  split; [|split; vm_compute; reflexivity].
  exact (proj1 (run_graph_bounded context w_next published_count empty_world context_metered)
           "Where is my order?").
Defined.

Lemma run_graph_settles_witness :
  st_cancelled (final_state (run_graph context "hi" empty_world)) = false ∧
  st_final_response (final_state (run_graph context "hi" empty_world)) ≠ "".
Proof.
  split; [vm_compute; reflexivity|].
  assert (Hrun : run_graph context "hi" empty_world
    = (inr (final_state (run_graph context "hi" empty_world)),
       (run_graph context "hi" empty_world).2)) by (vm_compute; reflexivity).
  refine (proj2 (run_graph_settles context empty_world _ _ (or_introl (ex_intro _ "hi" Hrun)))
            _ _ _ _); vm_compute; reflexivity.
Defined.
End GraphExamples.
