(* ===== verification/Workspaces.v ===== *)
(** * Workspaces and memberships

    [workspaces/services.py] and [workspaces/permissions.py].  A service is handed
    membership objects that the view loaded earlier: each is an argument beside
    its identifier, and may differ from the row when the service runs.  Where the
    service locks and re-reads a row, the model reads it; a [save] with
    [update_fields] writes those columns only. *)

From stdpp Require Import base gmap strings list relations.
From Stdlib Require Import ZArith Ascii String Lia.
From S2P Require Import Prelude Json Domain Policy Models Store.

(** ** Text *)

(** [s.split()]; [cur] is the word being read. *)
Fixpoint split_words (cur s : string) : list string :=
  match s with
  | EmptyString => if String.eqb cur "" then [] else [cur]
  | String c r =>
      if is_space c then if String.eqb cur "" then split_words "" r else cur :: split_words "" r
      else split_words (cur +:+ String c "") r
  end.

(** [" ".join(s.split())]. *)
Definition squeeze (s : string) : string := String.concat " " (split_words "" s).

(** ** Constraints of the tables *)

(** [Workspace.slug] is unique. *)
Definition workspace_clash (a b : Workspace) : bool := String.eqb (ws_slug a) (ws_slug b).

Definition active_owner (m : WorkspaceMembership) : bool :=
  bool_decide (mb_role m = WorkspaceRole.OWNER) && mb_is_active m.

(** [uniq_member_workspace_user] and [uniq_active_owner_per_ws]. *)
Definition membership_clash (a b : WorkspaceMembership) : bool :=
  bool_decide (mb_workspace a = mb_workspace b)
  && (bool_decide (mb_user a = mb_user b) || (active_owner a && active_owner b)).

(** [membership.save(update_fields=[...])]. *)
Definition save_membership (i : N) (f : WorkspaceMembership → WorkspaceMembership)
    : service () :=
  row ← get_row i;
  save_unique membership_clash i (f row).

Definition with_role (role : WorkspaceRole.t) (m : WorkspaceMembership) : WorkspaceMembership :=
  {| m with mb_role := role |}.
Definition deactivated (m : WorkspaceMembership) : WorkspaceMembership :=
  {| m with mb_is_active := false |}.
Definition reactivated (role : WorkspaceRole.t) (m : WorkspaceMembership)
    : WorkspaceMembership :=
  {| m with mb_role := role; mb_is_active := true |}.

(** ** Permissions *)

Definition can_manage_target_role (actor_role target_role : WorkspaceRole.t) : bool :=
  if bool_decide (target_role = WorkspaceRole.OWNER) then false
  else if bool_decide (actor_role = WorkspaceRole.OWNER) then true
  else if bool_decide (actor_role = WorkspaceRole.ADMIN) then
    negb (bool_decide (target_role = WorkspaceRole.ADMIN))
  else false.

(** ** Services *)

Section Workspaces.

(** Django's [slugify] and [normalize_email]. *)
Context (slugify normalize_email : string → string).

Definition MAX_WORKSPACE_NAME_LENGTH : nat := 200.

Definition normalize_name (name : string) : service string :=
  let normalized := squeeze name in
  raise_if (String.eqb normalized "") (ValidationError "name");;
  mret normalized.

(** [Workspace.objects.create(name=...)], with the model's own [save]. *)
Definition insert_workspace (name : string) : service N :=
  let name := squeeze name in
  raise_if (MAX_WORKSPACE_NAME_LENGTH <? String.length name)%nat DataError;;
  let slug := str_take 220 (slugify name) in
  (* an empty slug is stored as NULL, which the column refuses *)
  raise_if (String.eqb slug "") IntegrityError;;
  i ← fresh;
  save_unique workspace_clash i {| ws_name := name; ws_slug := slug; ws_is_active := true |};;
  mret i.

(** [WorkspaceMembership.objects.create(...)]. *)
Definition insert_membership (workspace user : N) (role : WorkspaceRole.t) : service N :=
  i ← fresh;
  save_unique membership_clash i
    {| mb_workspace := workspace; mb_user := user; mb_role := role; mb_is_active := true |};;
  mret i.

Definition create_workspace (actor : N) (name : string) : service N :=
  atomic (
    normalized ← normalize_name name;
    workspace ← insert_workspace normalized;
    insert_membership workspace actor WorkspaceRole.OWNER;;
    record_event "workspace.created" "workspace" workspace (Some actor) (Some workspace)
      [("name", JStr (squeeze normalized))];;
    mret workspace).

Definition update_workspace (workspace actor : N) (name : option string) : service () :=
  atomic (
    match name with
    | None => mret ()
    | Some name =>
        normalized ← normalize_name name;
        raise_if (MAX_WORKSPACE_NAME_LENGTH <? String.length normalized)%nat DataError;;
        row ← get_row workspace;
        save_row workspace {| row with ws_name := normalized |};;
        record_event "workspace.updated" "workspace" workspace (Some actor) (Some workspace)
          [("name", JStr normalized)]
    end).

Definition user_with_email (email : string) (_ : N) (u : User) : bool :=
  String.eqb (str_upper (usr_email u)) (str_upper email) && usr_is_active u.

Definition membership_of (workspace user : N) (_ : N) (m : WorkspaceMembership) : bool :=
  bool_decide (mb_workspace m = workspace) && bool_decide (mb_user m = user).

Definition add_workspace_member (workspace actor : N) (actor_role : WorkspaceRole.t)
    (email : string) (role : WorkspaceRole.t) : service N :=
  atomic (
    raise_if (bool_decide (role = WorkspaceRole.OWNER)) (ValidationError "role");;
    raise_if (negb (can_manage_target_role actor_role role)) PermissionDenied;;
    let normalized_email := normalize_email (str_strip email) in
    target_user ← first_row (user_with_email normalized_email);
    match target_user with
    | None => raise (ValidationError "email")
    | Some (target_user, _) =>
        existing ← first_row (membership_of workspace target_user);
        membership ← match existing with
          | Some (i, existing) =>
              raise_if (mb_is_active existing) ConflictError;;
              save_membership i (reactivated role);;
              mret i
          | None =>
              catch (insert_membership workspace target_user role)
                (λ e, match e with IntegrityError => raise ConflictError | e => raise e end)
          end;
        record_event "workspace.member_added" "workspace_membership" membership (Some actor)
          (Some workspace)
          [("user_id", id_json target_user); ("role", JStr (WorkspaceRole.value role))];;
        mret membership
    end).

Definition change_workspace_member_role (workspace actor : N) (actor_role : WorkspaceRole.t)
    (target_id : N) (target : WorkspaceMembership) (new_role : WorkspaceRole.t) : service () :=
  atomic (
    raise_if (negb (bool_decide (mb_workspace target = workspace))) (ValidationError "membership");;
    raise_if (bool_decide (new_role = WorkspaceRole.OWNER)) (ValidationError "role");;
    raise_if (bool_decide (mb_role target = WorkspaceRole.OWNER)) (ValidationError "role");;
    raise_if (negb (can_manage_target_role actor_role new_role)) PermissionDenied;;
    raise_if (negb (can_manage_target_role actor_role (mb_role target))) PermissionDenied;;
    save_membership target_id (with_role new_role);;
    record_event "workspace.member_role_changed" "workspace_membership" target_id (Some actor)
      (Some workspace)
      [("old_role", JStr (WorkspaceRole.value (mb_role target)));
       ("new_role", JStr (WorkspaceRole.value new_role))]).

Definition remove_workspace_member (workspace actor : N) (actor_role : WorkspaceRole.t)
    (target_id : N) (target : WorkspaceMembership) : service () :=
  atomic (
    raise_if (negb (bool_decide (mb_workspace target = workspace))) (ValidationError "membership");;
    raise_if (bool_decide (mb_role target = WorkspaceRole.OWNER)) (ValidationError "membership");;
    raise_if (negb (can_manage_target_role actor_role (mb_role target))) PermissionDenied;;
    save_membership target_id deactivated;;
    record_event "workspace.member_removed" "workspace_membership" target_id (Some actor)
      (Some workspace)
      [("user_id", id_json (mb_user target)); ("role", JStr (WorkspaceRole.value (mb_role target)))]).

(** [locked[...]]: a row that is gone is a [KeyError]. *)
Definition locked_membership (i : N) : service WorkspaceMembership :=
  row ← find_row i;
  or_raise row (OtherExc 4).

Definition transfer_workspace_ownership (workspace actor : N)
    (actor_id : N) (actor_membership : WorkspaceMembership)
    (new_owner_id : N) (new_owner_membership : WorkspaceMembership) : service () :=
  atomic (
    raise_if (negb (bool_decide (mb_role actor_membership = WorkspaceRole.OWNER))) PermissionDenied;;
    raise_if (negb (bool_decide (mb_workspace new_owner_membership = workspace)))
      (ValidationError "membership");;
    raise_if (negb (mb_is_active new_owner_membership)) (ValidationError "membership");;
    raise_if (bool_decide (mb_user new_owner_membership = mb_user actor_membership))
      (ValidationError "membership");;
    current_owner ← locked_membership actor_id;
    new_owner ← locked_membership new_owner_id;
    raise_if (negb (bool_decide (mb_role current_owner = WorkspaceRole.OWNER))) ConflictError;;
    raise_if (negb (mb_is_active new_owner)) (ValidationError "membership");;
    save_membership actor_id (with_role WorkspaceRole.ADMIN);;
    save_membership new_owner_id (with_role WorkspaceRole.OWNER);;
    record_event "workspace.ownership_transferred" "workspace" workspace (Some actor)
      (Some workspace)
      [("previous_owner_user_id", id_json (mb_user current_owner));
       ("new_owner_user_id", id_json (mb_user new_owner))]).

End Workspaces.

(** ** The invariant *)

(** Membership [i] is the active owner of [workspace]. *)
Definition owns (w : World) (workspace i : N) : Prop :=
  ∃ m, w_memberships w !! i = Some m ∧ mb_workspace m = workspace ∧ active_owner m = true.

(** What the constraints of the table and its foreign key guarantee. *)
Definition memberships_wf (w : World) : Prop :=
  unique membership_clash (w_memberships w) ∧
  ∀ i m, w_memberships w !! i = Some m →
    (i < w_next w)%N ∧ is_Some (w_workspaces w !! mb_workspace m).

Definition workspaces_ok (w : World) : Prop :=
  memberships_wf w ∧ ∀ ws, is_Some (w_workspaces w !! ws) → ∃ i, owns w ws i.

Lemma membership_clash_sym a b : membership_clash a b = membership_clash b a.
Proof.
  unfold membership_clash. rewrite (andb_comm (active_owner b)).
  f_equal; [|f_equal]; by apply bool_decide_ext.
Qed.

Lemma owns_unique w ws i j : memberships_wf w → owns w ws i → owns w ws j → i = j.
Proof.
  intros [Hu _] (a & Ha & Hwa & Hoa) (b & Hb & Hwb & Hob).
  destruct (decide (i = j)) as [|Hne]; [done|]. specialize (Hu i j a b Hne Ha Hb).
  unfold membership_clash in Hu. rewrite Hoa, Hob, orb_true_r, andb_true_r in Hu.
  apply bool_decide_eq_false in Hu. congruence.
Qed.

Lemma wp_save_membership i f (Q : exn + () → World → Prop) w :
  (∀ row, w_memberships w !! i = Some row → clashes membership_clash i (f row) w = false →
     Q (inr ()) {| w with w_memberships := <[i := f row]> (w_memberships w) |}) →
  (∀ e, Q (inl e) w) →
  wp (save_membership i f) Q w.
Proof.
  intros HQ He. unfold save_membership. apply wp_bind, wp_get_row.
  destruct (rows w !! i) as [row|] eqn:Hi; wp_beta; [|apply He].
  apply wp_save_unique. destruct (clashes _ _ _ _) eqn:Hc; [apply He|by apply HQ].
Qed.

(** Saving a row that clashes with no other. *)
Lemma save_wf w i m :
  memberships_wf w → clashes membership_clash i m w = false →
  (i < w_next w)%N → is_Some (w_workspaces w !! mb_workspace m) →
  memberships_wf {| w with w_memberships := <[i := m]> (w_memberships w) |}.
Proof.
  intros [Hu Hrow] Hc Hi Hws. split; simpl.
  - exact (unique_insert membership_clash membership_clash_sym i m w Hu Hc).
  - intros j r [[<- <-]|[? ?]]%lookup_insert_Some; [done|by apply Hrow].
Qed.

(** What an operation that is not a transfer does: whoever owns a workspace
    keeps the row that makes them its owner. *)
Definition owners_stay : relation World := λ w w',
  workspaces_ok w → workspaces_ok w' ∧
    ∀ i m, w_memberships w !! i = Some m → active_owner m = true →
      w_memberships w' !! i = Some m.
#[export] Instance owners_stay_preorder : PreOrder owners_stay.
Proof.
  split; [done|]. intros w1 w2 w3 H12 H23 Hok. destruct (H12 Hok) as [Hok2 Hs].
  destruct (H23 Hok2) as [Hok3 Hs']. split; [done|]. auto.
Qed.

(** Saving a row that is not an active owner's. *)
Lemma save_stays w i m :
  clashes membership_clash i m w = false →
  (workspaces_ok w → (i < w_next w)%N ∧ is_Some (w_workspaces w !! mb_workspace m) ∧
     ∀ old, w_memberships w !! i = Some old → active_owner old = false) →
  owners_stay w {| w with w_memberships := <[i := m]> (w_memberships w) |}.
Proof.
  intros Hc Hi [Hwf Hown]. destruct (Hi (conj Hwf Hown)) as (Hlt & Hws & Hold).
  assert (Hkeep : ∀ j r, w_memberships w !! j = Some r → active_owner r = true →
    <[i := m]> (w_memberships w) !! j = Some r).
  { intros j r Hj Hr. rewrite lookup_insert_ne; [done|]. intros ->.
    specialize (Hold r Hj). congruence. }
  split; [split; [by apply save_wf|]|by apply Hkeep]. simpl. intros ws Hw.
  destruct (Hown ws Hw) as (j & r & Hj & Hr & Ho). exists j, r. split_and!; auto.
Qed.

(** Writes elsewhere change no owner. *)
Lemma elsewhere_stays w w' :
  w_memberships w' = w_memberships w → w_workspaces w' = w_workspaces w →
  (w_next w <= w_next w')%N → owners_stay w w'.
Proof.
  intros Hm Hw Hn [[Hu Hrow] Hown]. unfold workspaces_ok, memberships_wf, owns.
  rewrite Hm, Hw. split_and!; try done. intros i m Hi. destruct (Hrow i m Hi). split; [lia|done].
Qed.

Section Ownership.
Context (slugify normalize_email : string → string).

#[local] Ltac stay := solve [reflexivity | apply elsewhere_stays; simpl; (done || lia)].

(** Taking an identifier and saving a row under it. *)
Lemma fresh_save_stays w m :
  let w1 := {| w with w_next := N.succ (w_next w) |} in
  clashes membership_clash (w_next w) m w1 = false →
  (workspaces_ok w → is_Some (w_workspaces w !! mb_workspace m)) →
  owners_stay w {| w1 with w_memberships := <[w_next w := m]> (w_memberships w1) |}.
Proof.
  intros w1 Hc Hws Hok. assert (owners_stay w w1) as Hs by stay.
  destruct (Hs Hok) as [Hok1 Hk1].
  assert (Hnone : w_memberships w !! w_next w = None).
  { destruct (w_memberships w !! w_next w) as [r|] eqn:Hr; [|done].
    destruct Hok as [[_ Hrow] _]. destruct (Hrow _ _ Hr). lia. }
  destruct (save_stays w1 (w_next w) m Hc) as [Hok2 Hk2]; [|done|].
  - intros _. simpl. split_and!; [lia|by apply Hws|]. intros old. by rewrite Hnone.
  - split; [done|]. intros i r Hi Ho. by apply Hk2, Ho; apply Hk1.
Qed.

Lemma insert_membership_stays ws user role w :
  (workspaces_ok w → is_Some (w_workspaces w !! ws)) →
  wp (insert_membership ws user role) (λ _, owners_stay w) w.
Proof.
  intros Hws. unfold insert_membership. apply wp_bind, wp_fresh. wp_beta.
  apply wp_bind, wp_save_unique. destruct (clashes _ _ _ _) eqn:Hc; wp_beta; [stay|].
  apply wp_ret. by apply fresh_save_stays.
Qed.

Lemma save_membership_stays i f w :
  (∀ m, mb_workspace (f m) = mb_workspace m) →
  (∀ m, w_memberships w !! i = Some m → active_owner m = false) →
  wp (save_membership i f) (λ _, owners_stay w) w.
Proof.
  intros Hf Hold. apply wp_save_membership; [|done]. intros row Hrow Hc.
  apply save_stays; [done|]. intros [[_ Hwf] _]. destruct (Hwf i row Hrow).
  rewrite Hf. split_and!; [done..|apply Hold].
Qed.

Lemma audit_stays a tt ti ac ws md : included owners_stay (record_event a tt ti ac ws md).
Proof. intros w. stay. Qed.
Hint Resolve audit_stays : included.

Lemma normalize_name_stays name : included owners_stay (normalize_name name).
Proof. unfold normalize_name. included_steps. Qed.

(** A creation, seen from the world before: the creator owns the new workspace. *)
Lemma new_workspace_stays w w' i x j m :
  w_workspaces w' = <[i := x]> (w_workspaces w) →
  w_memberships w' = <[j := m]> (w_memberships w) →
  (w_next w <= j)%N → (j < w_next w')%N →
  (unique membership_clash (w_memberships w) → unique membership_clash (w_memberships w')) →
  mb_workspace m = i → active_owner m = true → owners_stay w w'.
Proof.
  intros Hws Hms Hj Hj' Hu Hm Ho [[Hun Hrow] Hown]. unfold workspaces_ok, memberships_wf, owns.
  specialize (Hu Hun). rewrite Hms, Hws in *.
  assert (Hkeep : ∀ k r, w_memberships w !! k = Some r → <[j := m]> (w_memberships w) !! k = Some r).
  { intros k r Hk. rewrite lookup_insert_ne; [done|]. intros ->. destruct (Hrow k r Hk). lia. }
  split_and!; [done| | |by auto].
  - intros k r [[<- <-]|[Hne Hk]]%lookup_insert_Some.
    + split; [done|]. by rewrite Hm, lookup_insert_eq.
    + destruct (Hrow k r Hk). split; [lia|]. by apply lookup_insert_is_Some'; right.
  - intros ws [<-|Hw]%lookup_insert_is_Some'.
    + exists j, m. by rewrite lookup_insert_eq.
    + destruct (Hown ws Hw) as (k & r & Hk & Hr). exists k, r. by split; [apply Hkeep|].
Qed.

Lemma create_workspace_stays actor name :
  included owners_stay (create_workspace slugify actor name).
Proof.
  apply included_of_wp. intros w. unfold create_workspace. apply wp_atomic.
  unfold normalize_name, insert_workspace, insert_membership.
  repeat (svc_step || apply wp_save_unique); try stay.
  destruct (clashes workspace_clash _ _ _) eqn:?; repeat (svc_step || apply wp_save_unique); try stay.
  destruct (clashes membership_clash _ _ _) eqn:Hc; repeat svc_step; try stay.
  eapply new_workspace_stays; [done|done|simpl; lia|simpl; lia| |done|done].
  intros Hu. exact (unique_insert membership_clash membership_clash_sym _ _ _ Hu Hc).
Qed.

Lemma update_workspace_stays ws actor name : included owners_stay (update_workspace ws actor name).
Proof.
  apply included_of_wp. intros w. unfold update_workspace. apply wp_atomic.
  unfold normalize_name. repeat svc_step; try stay. simpl in *.
  intros [[Hu Hrow] Hown]. unfold workspaces_ok, memberships_wf, owns. simpl. split_and!; try done.
  - intros i m Hi. destruct (Hrow i m Hi). split; [done|]. by apply lookup_insert_is_Some'; right.
  - intros ws' [<-|?]%lookup_insert_is_Some'; by apply Hown.
Qed.

(** A member who is not the owner, as loaded and as stored. *)
Lemma save_other_stays i m f w :
  (∀ m, mb_workspace (f m) = mb_workspace m) →
  w_memberships w !! i = Some m → mb_role m ≠ WorkspaceRole.OWNER →
  wp (save_membership i f) (λ _, owners_stay w) w.
Proof.
  intros Hf Hm Hr. apply save_membership_stays; [done|]. intros m'. rewrite Hm. intros [= <-].
  unfold active_owner. by rewrite bool_decide_eq_false_2.
Qed.

Lemma change_role_stays ws actor actor_role i m new_role w :
  w_memberships w !! i = Some m →
  owners_stay w (change_workspace_member_role ws actor actor_role i m new_role w).2.
Proof.
  intros Hm. change (wp (change_workspace_member_role ws actor actor_role i m new_role)
                       (λ _, owners_stay w) w).
  unfold change_workspace_member_role. repeat svc_step; try stay.
  eapply wp_mono; [eapply save_other_stays; [done|exact Hm|by case_bool_decide]|].
  intros [e|[]] w1 Hs; wp_beta; [done|]. apply wp_record_event.
  etrans; [exact Hs|stay].
Qed.

Lemma remove_stays ws actor actor_role i m w :
  w_memberships w !! i = Some m →
  owners_stay w (remove_workspace_member ws actor actor_role i m w).2.
Proof.
  intros Hm. change (wp (remove_workspace_member ws actor actor_role i m)
                       (λ _, owners_stay w) w).
  unfold remove_workspace_member. repeat svc_step; try stay.
  eapply wp_mono; [eapply save_other_stays; [done|exact Hm|by case_bool_decide]|].
  intros [e|[]] w1 Hs; wp_beta; [done|]. apply wp_record_event.
  etrans; [exact Hs|stay].
Qed.

Lemma add_member_stays ws actor actor_role email role w :
  is_Some (w_workspaces w !! ws) →
  owners_stay w (add_workspace_member normalize_email ws actor actor_role email role w).2.
Proof.
  intros Hws. change (wp (add_workspace_member normalize_email ws actor actor_role email role)
                       (λ _, owners_stay w) w).
  unfold add_workspace_member. repeat svc_step; try stay.
  - apply first_row_some in Heqo0 as [Hrow _].
    eapply wp_mono; [apply save_membership_stays; [done|]|].
    + intros m. change (rows w !! n0 = Some m → active_owner m = false). rewrite Hrow.
      intros [= <-]. unfold active_owner. by rewrite Heqb1, andb_false_r.
    + intros [e|[]] w1 Hs; wp_beta; [stay|]. repeat svc_step. etrans; [exact Hs|stay].
  - eapply wp_mono; [by apply insert_membership_stays|].
    intros [e|i] w1 Hs; wp_beta; [destruct e; apply wp_raise; stay|].
    repeat svc_step. etrans; [exact Hs|stay].
Qed.

(** Membership object [m] was loaded from row [i]: the columns no service writes
    still agree; its role and its active flag may be out of date. *)
Definition loaded (w : World) (i : N) (m : WorkspaceMembership) : Prop :=
  ∃ row, w_memberships w !! i = Some row ∧
    mb_workspace row = mb_workspace m ∧ mb_user row = mb_user m.

(** The roles a transfer leaves. *)
Lemma transfer_run ws actor a_id a n_id n w :
  memberships_wf w → loaded w a_id a → loaded w n_id n → mb_workspace a = ws →
  wp (transfer_workspace_ownership ws actor a_id a n_id n)
     (λ r w', match r with
       | inl _ => w' = w
       | inr _ => ∃ current target,
           w_memberships w !! a_id = Some current ∧ w_memberships w !! n_id = Some target ∧
           a_id ≠ n_id ∧ mb_workspace current = ws ∧
           mb_is_active target = true ∧ mb_workspace target = ws ∧
           w_memberships w' = <[n_id := with_role WorkspaceRole.OWNER target]>
             (<[a_id := with_role WorkspaceRole.ADMIN current]> (w_memberships w)) ∧
           w_workspaces w' = w_workspaces w ∧ memberships_wf w'
       end) w.
Proof.
  intros Hwf (ra & Ha & Hwa & Hua) (rn & Hn & Hwn & Hun) Hws.
  unfold transfer_workspace_ownership, locked_membership. repeat svc_step; try done.
  change (w_memberships w !! a_id = Some w0) in Heqo.
  change (w_memberships w !! n_id = Some w1) in Heqo0. simplify_eq.
  apply negb_false_iff, bool_decide_eq_true in Heqb0. apply bool_decide_eq_false in Heqb2.
  apply negb_false_iff in Heqb4. assert (a_id ≠ n_id) as Hne by (intros ->; congruence).
  apply wp_save_membership; [|done]. intros row Hrow Hc. simplify_eq. wp_beta.
  destruct Hwf as [Hu Hrows].
  assert (memberships_wf {| w with w_memberships :=
            <[a_id := with_role WorkspaceRole.ADMIN ra]> (w_memberships w) |}) as Hwf1.
  { destruct (Hrows a_id ra Ha). by apply save_wf. }
  apply wp_bind, wp_save_membership; [|done]. simpl. intros row' Hrow' Hc'.
  rewrite lookup_insert_ne in Hrow' by done. simplify_eq. wp_beta. apply wp_record_event.
  exists ra, rn. split_and!; try done; [congruence|].
  destruct (Hrows n_id rn Hn) as [Hlt Hex].
  exact (save_wf _ n_id (with_role WorkspaceRole.OWNER rn) Hwf1 Hc' Hlt Hex).
Qed.

Lemma transfer_ok ws actor a_id a n_id n w :
  workspaces_ok w → loaded w a_id a → loaded w n_id n → mb_workspace a = ws →
  workspaces_ok (transfer_workspace_ownership ws actor a_id a n_id n w).2.
Proof.
  intros [Hwf Hown] Ha Hn Hws.
  change (wp (transfer_workspace_ownership ws actor a_id a n_id n) (λ _ w', workspaces_ok w') w).
  eapply wp_mono; [by apply transfer_run|]. intros [e|[]] w'; [by intros ->|].
  intros (cur & tgt & Hc & Ht & Hne & Hcw & Hta & Htw & Hm & Hw & Hwf').
  split; [done|]. intros ws'. rewrite Hw. intros Hex. unfold owns. rewrite Hm.
  destruct (decide (ws' = ws)) as [->|Hws'].
  - exists n_id, (with_role WorkspaceRole.OWNER tgt). rewrite lookup_insert_eq.
    split_and!; [done..|]. unfold active_owner. simpl. exact Hta.
  - destruct (Hown ws' Hex) as (k & r & Hk & Hr & Ho). exists k, r.
    rewrite !lookup_insert_ne; [done|..]; intros ->; congruence.
Qed.

(** ** The operations *)

(** Every operation but the transfer, on objects that are up to date. *)
Inductive member_op : World → World → Prop :=
  | Op_create_workspace actor name w :
      member_op w (create_workspace slugify actor name w).2
  | Op_update_workspace ws actor name w : member_op w (update_workspace ws actor name w).2
  | Op_add_member ws actor actor_role email role w :
      is_Some (w_workspaces w !! ws) →
      member_op w (add_workspace_member normalize_email ws actor actor_role email role w).2
  | Op_change_role ws actor actor_role i m new_role w :
      w_memberships w !! i = Some m →
      member_op w (change_workspace_member_role ws actor actor_role i m new_role w).2
  | Op_remove_member ws actor actor_role i m w :
      w_memberships w !! i = Some m →
      member_op w (remove_workspace_member ws actor actor_role i m w).2.

(** The transfer, on objects whose role and active flag may be out of date. *)
Inductive transfer_op : World → World → Prop :=
  | Op_transfer ws actor a_id a n_id n w :
      loaded w a_id a → loaded w n_id n → mb_workspace a = ws →
      transfer_op w (transfer_workspace_ownership ws actor a_id a n_id n w).2.

Definition workspace_op (w w' : World) : Prop := member_op w w' ∨ transfer_op w w'.

Lemma member_op_stays w w' : member_op w w' → owners_stay w w'.
Proof.
  destruct 1.
  - apply create_workspace_stays.
  - apply update_workspace_stays.
  - by apply add_member_stays.
  - by apply change_role_stays.
  - by apply remove_stays.
Qed.

Lemma workspace_op_ok w w' : workspace_op w w' → workspaces_ok w → workspaces_ok w'.
Proof.
  intros [Hop|[]] Hok; [by apply (member_op_stays _ _ Hop)|by apply transfer_ok].
Qed.

(** C38. Over any sequence of operations every workspace has exactly one active
    owner, and nothing but an ownership transfer touches the row of an owner:
    nobody can remove, demote or duplicate them, whatever role the caller has. *)
Theorem one_owner_per_workspace w w' :
  rtc workspace_op w w' → workspaces_ok w →
  (∀ ws, is_Some (w_workspaces w' !! ws) →
     ∃ i, owns w' ws i ∧ ∀ j, owns w' ws j → j = i) ∧
  (∀ w'' i m, member_op w' w'' → w_memberships w' !! i = Some m → active_owner m = true →
     w_memberships w'' !! i = Some m).
Proof.
  intros Hops Hok.
  assert (workspaces_ok w') as Hok' by (induction Hops; eauto using workspace_op_ok).
  split.
  - intros ws Hws. destruct Hok' as [Hwf Hown]. destruct (Hown ws Hws) as [i Hi].
    exists i. split; [done|]. intros j Hj. by eapply owns_unique.
  - intros w'' i m Hop. by apply (member_op_stays _ _ Hop).
Qed.

(** Removing a member who was loaded as an ordinary one. *)
Lemma removal_run ws actor i m row w :
  mb_workspace m = ws → mb_role m ≠ WorkspaceRole.OWNER → w_memberships w !! i = Some row →
  clashes membership_clash i (deactivated row) w = false →
  ∃ w', remove_workspace_member ws actor WorkspaceRole.OWNER i m w = (inr (), w') ∧
        w_memberships w' = <[i := deactivated row]> (w_memberships w).
Proof.
  intros Hws Hr Hrow Hc.
  assert (wp (remove_workspace_member ws actor WorkspaceRole.OWNER i m) (λ r w', r = inr () ∧
            w_memberships w' = <[i := deactivated row]> (w_memberships w)) w) as Hwp.
  { unfold remove_workspace_member, can_manage_target_role, save_membership.
    rewrite (bool_decide_eq_true_2 (mb_workspace m = ws)), !bool_decide_eq_false_2 by done.
    repeat svc_step; try discriminate.
    - change (w_memberships w !! i = Some w0) in Heqo. simplify_eq.
      apply wp_save_unique. rewrite Hc. by repeat svc_step.
    - change (w_memberships w !! i = None) in Heqo. congruence. }
  unfold wp in Hwp. destruct (remove_workspace_member _ _ _ _ _ _) as [r w'].
  destruct Hwp as [Hr' Hw']. simpl in *. subst r. eauto.
Qed.

(** The services that remove a member or change a role trust the object they
    were handed: when a member loaded as an ordinary one has become the owner in
    the meantime, removing them succeeds and leaves the workspace without any
    active owner. *)
Theorem stale_removal_leaves_no_owner ws actor a_id a n_id n w w1 :
  workspaces_ok w →
  w_memberships w !! a_id = Some a → mb_workspace a = ws → 
  w_memberships w !! n_id = Some n → mb_workspace n = ws → mb_role n ≠ WorkspaceRole.OWNER →
  transfer_workspace_ownership ws actor a_id a n_id n w = (inr (), w1) →
  ∃ w2, remove_workspace_member ws actor WorkspaceRole.OWNER n_id n w1 = (inr (), w2) ∧
        ∀ i, ¬ owns w2 ws i.
Proof.
  intros [Hwf Hown] Ha Hwa Hn Hwn Hr Hrun.
  pose proof (transfer_run ws actor a_id a n_id n w Hwf (ex_intro _ a (conj Ha (conj eq_refl eq_refl)))
    (ex_intro _ n (conj Hn (conj eq_refl eq_refl))) Hwa) as Hwp.
  unfold wp in Hwp. rewrite Hrun in Hwp. simpl in Hwp.
  destruct Hwp as (cur & tgt & Hc & Ht & Hne & Hcw & Hta & Htw & Hm & Hw & Hwf1). simplify_eq.
  set (owner := with_role WorkspaceRole.OWNER n) in *.
  assert (Hrow : w_memberships w1 !! n_id = Some owner) by by rewrite Hm, lookup_insert_eq.
  assert (Howner : owns w1 (mb_workspace n) n_id).
  { exists owner. split_and!; [done..|]. unfold active_owner, owner. simpl.
    by rewrite Hta. }
  assert (Hclash : clashes membership_clash n_id (deactivated owner) w1 = false).
  { apply clashes_false. intros j q Hj Hne'. destruct Hwf1 as [Hu _].
    specialize (Hu n_id j owner q (not_eq_sym Hne') Hrow Hj). revert Hu.
    unfold membership_clash, active_owner. simpl.
    destruct (bool_decide (mb_workspace n = mb_workspace q)); [|done]. simpl.
    by destruct (bool_decide (mb_user n = mb_user q)). }
  destruct (removal_run (mb_workspace n) actor n_id n owner w1) as (w2 & Hrun2 & Hm2);
    [done|done|done|done|].
  exists w2. split; [congruence|]. intros i (m & Hi & Hwi & Ho). rewrite Hm2 in Hi.
  apply lookup_insert_Some in Hi as [[<- <-]|[Hni Hi]].
  - done.
  - apply Hni. apply (owns_unique w1 (mb_workspace n)); [done|done|].
    exists m. split_and!; [done|congruence|done].
Qed.
End Ownership.

(** ** Examples *)

Module WorkspaceExamples.
Definition member (user : N) (role : WorkspaceRole.t) : WorkspaceMembership :=
  {| mb_workspace := 1; mb_user := user; mb_role := role; mb_is_active := true |}.

(** Workspace 1, owned by user 10 and administered by user 20. *)
Definition world : World :=
  let w := empty_world in
  {| w with w_next := 4;
     w_workspaces := {[1%N := {| ws_name := "Acme"; ws_slug := "acme"; ws_is_active := true |}]};
     w_memberships := {[2%N := member 10 WorkspaceRole.OWNER; 3%N := member 20 WorkspaceRole.ADMIN]} |}.

Lemma world_ok : workspaces_ok world.
Proof.
  assert (Hrows : ∀ i m, w_memberships world !! i = Some m →
    (i = 2%N ∧ m = member 10 WorkspaceRole.OWNER) ∨ (i = 3%N ∧ m = member 20 WorkspaceRole.ADMIN)).
  { intros i m. simpl. intros [[<- <-]|[_ Hm]]%lookup_insert_Some; [by left|].
    apply lookup_singleton_Some in Hm as [<- <-]. by right. }
  split; [split|].
  - intros i j a b Hne [[-> ->]|[-> ->]]%Hrows [[-> ->]|[-> ->]]%Hrows; by vm_compute.
  - intros i m [[-> ->]|[-> ->]]%Hrows; simpl; (split; [lia|by eexists]).
  - intros ws [x Hx]. simpl in Hx. apply lookup_singleton_Some in Hx as [<- _].
    exists 2%N, (member 10 WorkspaceRole.OWNER). by vm_compute.
Qed.

Definition transferred : World :=
  (transfer_workspace_ownership 1 10 2 (member 10 WorkspaceRole.OWNER)
     3 (member 20 WorkspaceRole.ADMIN) world).2.

Lemma transferred_op : workspace_op (λ s, s) (λ s, s) world transferred.
Proof. right. apply Op_transfer; [by eexists..|done]. Qed.

Lemma one_owner_per_workspace_witness :
  ∃ i, owns transferred 1 i ∧ ∀ j, owns transferred 1 j → j = i.
Proof.
  assert (Hops : rtc (workspace_op (λ s, s) (λ s, s)) world transferred)
    by (apply rtc_once, transferred_op).
  assert (Hws : is_Some (w_workspaces transferred !! 1%N)) by (vm_compute; eauto).
  exact (proj1 (one_owner_per_workspace (λ s, s) (λ s, s) world transferred Hops world_ok) 1%N Hws).
Defined.

Lemma stale_removal_leaves_no_owner_witness :
  ∃ w2, remove_workspace_member 1 10 WorkspaceRole.OWNER 3 (member 20 WorkspaceRole.ADMIN)
          transferred = (inr (), w2) ∧ ∀ i, ¬ owns w2 1 i.
Proof.
  apply (stale_removal_leaves_no_owner 1 10 2 (member 10 WorkspaceRole.OWNER)
           3 (member 20 WorkspaceRole.ADMIN) world transferred); try reflexivity; [apply world_ok|].
  by intros [=].
Defined.
End WorkspaceExamples.
