(* ===== verification/Conversations.v ===== *)
(** * Customers and conversations

    [customers/services.py] and [conversations/services.py], with the columns'
    normalisation of the models' [save] and the constraints of their tables.  The
    services are handed objects loaded earlier: an object is an argument beside
    the identifier of its row and may be out of date, as it may be in the code,
    which locks none of these rows.  A [save] with [update_fields] writes those
    columns; a plain [save] writes the whole object. *)

From stdpp Require Import base gmap strings list relations.
From Stdlib Require Import ZArith Ascii String Lia.
From S2P Require Import Prelude Json Domain Policy Models Store.

(** A transaction whose body moves the world along a reflexive relation. *)
Lemma wp_atomic_rel {A} (R : relation World) `{!Reflexive R} (m : service A) w :
  wp m (λ _, R w) w → wp (atomic m) (λ _, R w) w.
Proof. intros Hm. apply wp_atomic. eapply wp_mono; [exact Hm|]. by intros [e|a] w' Hr; simpl. Qed.

Lemma wp_bind_inv {A B} (m : service A) (k : A → service B) Q w :
  wp (m ≫= k) Q w → wp m (bind_post k Q) w.
Proof. unfold wp, bind_post, mbind, M_bind. by destruct (m w) as [[e|a] w']. Qed.

(** A computation followed by one that only extends what it did. *)
Lemma wp_bind_rel {A B} (R : relation World) `{!PreOrder R} (m : service A) (k : A → service B) w :
  wp m (λ _, R w) w → (∀ a w', wp (k a) (λ _, R w') w') → wp (m ≫= k) (λ _, R w) w.
Proof.
  intros Hm Hk. apply wp_bind. eapply wp_mono; [exact Hm|]. intros [e|a] w' Hr; wp_beta; [done|].
  eapply wp_mono; [apply Hk|]. intros r w2 Hr2. by etrans.
Qed.

(** [s.strip() or None] of a column that is not [None]. *)
Definition strip_or_none (s : string) : option string :=
  if String.eqb (str_strip s) "" then None else Some (str_strip s).

(** Two rows of a workspace with the same external identifier. *)
Definition same_external (ws ws' : N) (a b : option string) : bool :=
  bool_decide (ws = ws')
  && match a, b with Some x, Some y => String.eqb x y | _, _ => false end.

(** ** Customers *)

(** [if self.email: self.email = self.email.strip().lower() or None]. *)
Definition clean_email (e : option string) : option string :=
  match e with
  | Some s => if String.eqb s "" then Some s else str_lower <$> strip_or_none s
  | None => None
  end.
Definition clean_phone (p : option string) : option string :=
  match p with
  | Some s => if String.eqb s "" then Some s else strip_or_none s
  | None => None
  end.

Definition full_name (first_name last_name : string) : string :=
  String.concat " " (List.filter (λ part, negb (String.eqb part "")) [first_name; last_name]).

(** The formatting of [Customer.save]. *)
Definition formatted_customer (c : Customer) : Customer :=
  let first_name := str_strip (cu_first_name c) in
  let last_name := str_strip (cu_last_name c) in
  let company := str_strip (cu_company c) in
  let email := clean_email (cu_email c) in
  let display_name := str_strip (cu_display_name c) in
  {| c with
     cu_first_name := first_name; cu_last_name := last_name; cu_company := company;
     cu_email := email; cu_phone := clean_phone (cu_phone c);
     cu_external_id := cu_external_id c ≫= strip_or_none;
     cu_display_name :=
       str_or display_name
         (str_or (full_name first_name last_name) (str_or (default "" email) company)) |}.

(** [uniq_customer_workspace_external_id]. *)
Definition customer_clash (a b : Customer) : bool :=
  same_external (cu_workspace a) (cu_workspace b) (cu_external_id a) (cu_external_id b).

Definition customer_fits (c : Customer) : bool :=
  fits_opt 255 (cu_external_id c) && fits 150 (cu_first_name c) && fits 150 (cu_last_name c)
  && fits 300 (cu_display_name c) && fits_opt 254 (cu_email c) && fits_opt 32 (cu_phone c)
  && fits 200 (cu_company c).

(** [customer.save()]. *)
Definition save_customer (i : N) (c : Customer) : service () :=
  let c := formatted_customer c in
  raise_if (negb (customer_fits c)) DataError;;
  save_unique customer_clash i c.

(** The writable keys of [data] that are present. *)
Record CustomerData := {
  cud_external_id : option (option string);
  cud_first_name : option string;
  cud_last_name : option string;
  cud_display_name : option string;
  cud_email : option (option string);
  cud_phone : option (option string);
  cud_company : option string;
  cud_notes : option string;
  cud_metadata : option json;
  cud_is_active : option bool;
}.

Definition apply_customer_data (data : CustomerData) (c : Customer) : Customer :=
  {| c with
     cu_external_id := default (cu_external_id c) (cud_external_id data);
     cu_first_name := default (cu_first_name c) (cud_first_name data);
     cu_last_name := default (cu_last_name c) (cud_last_name data);
     cu_display_name := default (cu_display_name c) (cud_display_name data);
     cu_email := default (cu_email c) (cud_email data);
     cu_phone := default (cu_phone c) (cud_phone data);
     cu_company := default (cu_company c) (cud_company data);
     cu_notes := default (cu_notes c) (cud_notes data);
     cu_metadata := default (cu_metadata c) (cud_metadata data);
     cu_is_active := default (cu_is_active c) (cud_is_active data) |}.

Definition new_customer (workspace : N) : Customer :=
  {| cu_workspace := workspace; cu_external_id := None; cu_first_name := "";
     cu_last_name := ""; cu_display_name := ""; cu_email := None; cu_phone := None;
     cu_company := ""; cu_notes := ""; cu_metadata := JObj []; cu_is_active := true |}.

(** [except IntegrityError: raise ConflictError]. *)
Definition as_conflict {A} (m : service A) : service A :=
  catch m (λ e, match e with IntegrityError => raise ConflictError | e => raise e end).

Definition create_customer (workspace : N) (data : CustomerData) : service N :=
  atomic (as_conflict (
    i ← fresh;
    save_customer i (apply_customer_data data (new_customer workspace));;
    mret i)).

Definition update_customer (workspace customer_id : N) (customer : Customer) (actor : N)
    (data : CustomerData) : service () :=
  atomic (
    let was_active := cu_is_active customer in
    let customer := apply_customer_data data customer in
    as_conflict (save_customer customer_id customer);;
    when (was_active && negb (cu_is_active customer))
      (record_event "customer.deactivated" "customer" customer_id (Some actor) (Some workspace)
         [("customer_id", id_json customer_id)])).

Definition deactivation : CustomerData :=
  {| cud_external_id := None; cud_first_name := None; cud_last_name := None;
     cud_display_name := None; cud_email := None; cud_phone := None; cud_company := None;
     cud_notes := None; cud_metadata := None; cud_is_active := Some false |}.

Definition deactivate_customer (workspace customer_id : N) (customer : Customer) (actor : N)
    : service () :=
  atomic (update_customer workspace customer_id customer actor deactivation).

(** ** Conversations *)

Definition CONVERSATION_REASSIGN_ROLES : list WorkspaceRole.t :=
  [WorkspaceRole.OWNER; WorkspaceRole.ADMIN; WorkspaceRole.SUPPORT_MANAGER].

Definition CONVERSATION_STATUS_TRANSITIONS (s : ConversationStatus.t)
    : list ConversationStatus.t :=
  match s with
  | ConversationStatus.OPEN => [ConversationStatus.PENDING; ConversationStatus.CLOSED]
  | ConversationStatus.PENDING => [ConversationStatus.OPEN; ConversationStatus.CLOSED]
  | ConversationStatus.CLOSED => [ConversationStatus.OPEN]
  end.

(** The membership the caller acts under, with its identifier. *)
Abbreviation Actor := (N * WorkspaceMembership)%type.

Definition ensure_conversation_mutation_allowed (conversation : Conversation)
    (actor_membership : Actor) : service () :=
  if bool_decide (mb_role actor_membership.2 ∈ CONVERSATION_REASSIGN_ROLES) then mret ()
  else if bool_decide (mb_role actor_membership.2 = WorkspaceRole.SUPPORT_AGENT)
       && bool_decide (cv_assigned_to conversation = Some actor_membership.1) then mret ()
  else raise PermissionDenied.

(** [uniq_conversation_workspace_external_id]. *)
Definition conversation_clash (a b : Conversation) : bool :=
  same_external (cv_workspace a) (cv_workspace b) (cv_external_id a) (cv_external_id b).

Definition create_conversation (workspace customer_id : N) (customer : Customer)
    (channel subject : string) (external_id : option string) (metadata : json) : service N :=
  atomic (
    raise_if (negb (bool_decide (cu_workspace customer = workspace))) (ValidationError "customer");;
    let row := {|
      cv_workspace := workspace; cv_customer := customer_id; cv_channel := channel;
      cv_status := ConversationStatus.OPEN; cv_subject := str_strip subject;
      cv_assigned_to := None; cv_external_id := external_id ≫= strip_or_none;
      cv_last_message_at := None; cv_closed_at := None; cv_metadata := metadata |} in
    raise_if (negb (fits 300 (cv_subject row) && fits 16 channel
                    && fits_opt 255 (cv_external_id row))) DataError;;
    i ← fresh;
    save_unique conversation_clash i row;;
    mret i).

Definition set_conversation_assignee (target : option N) (c : Conversation) : Conversation :=
  {| c with cv_assigned_to := target |}.

Definition assign_conversation (workspace actor : N) (actor_membership : Actor)
    (conversation_id : N) (conversation : Conversation) (target_membership : Actor) : service () :=
  atomic (
    raise_if (negb (bool_decide (mb_workspace target_membership.2 = workspace)))
      (ValidationError "membership");;
    let is_self_assign := bool_decide (target_membership.1 = actor_membership.1) in
    when (negb (bool_decide (mb_role actor_membership.2 ∈ CONVERSATION_REASSIGN_ROLES)))
      (raise_if (negb is_self_assign) PermissionDenied;;
       raise_if (bool_decide (cv_assigned_to conversation ≠ None)
                 && bool_decide (cv_assigned_to conversation ≠ Some actor_membership.1))
         PermissionDenied);;
    save_fields conversation_id (set_conversation_assignee (Some target_membership.1));;
    record_event
      (if bool_decide (cv_assigned_to conversation = None) then "conversation.assigned"
       else "conversation.reassigned")
      "conversation" conversation_id (Some actor) (Some workspace)
      [("assigned_to_membership_id", id_json target_membership.1)]).

Definition self_assign_conversation (workspace actor : N) (actor_membership : Actor)
    (conversation_id : N) (conversation : Conversation) : service () :=
  assign_conversation workspace actor actor_membership conversation_id conversation
    actor_membership.

(** [closed_at] after a change from [old] to [new]. *)
Definition closed_at_after (old new : ConversationStatus.t) (closed_at : option Z) (now : Z)
    : option Z :=
  if bool_decide (new = ConversationStatus.CLOSED) then Some now
  else if bool_decide (old = ConversationStatus.CLOSED) then None
  else closed_at.

Definition set_conversation_status (status : ConversationStatus.t) (closed_at : option Z)
    (c : Conversation) : Conversation :=
  {| c with cv_status := status; cv_closed_at := closed_at |}.

Definition change_conversation_status (workspace actor : N) (actor_membership : Actor)
    (conversation_id : N) (conversation : Conversation) (new_status : ConversationStatus.t)
    : service () :=
  atomic (
    ensure_conversation_mutation_allowed conversation actor_membership;;
    let old_status := cv_status conversation in
    raise_if (negb (bool_decide (new_status ∈ CONVERSATION_STATUS_TRANSITIONS old_status)))
      (ValidationError "status");;
    now ← get_now;
    save_fields conversation_id (set_conversation_status new_status
      (closed_at_after old_status new_status (cv_closed_at conversation) now));;
    let audit action :=
      record_event action "conversation" conversation_id (Some actor) (Some workspace)
        [("old_status", JStr (ConversationStatus.value old_status));
         ("new_status", JStr (ConversationStatus.value new_status))] in
    if bool_decide (new_status = ConversationStatus.CLOSED) then audit "conversation.closed"
    else if bool_decide (old_status = ConversationStatus.CLOSED) then
      audit "conversation.reopened"
    else mret ()).

Definition close_conversation (workspace actor : N) (actor_membership : Actor)
    (conversation_id : N) (conversation : Conversation) : service () :=
  change_conversation_status workspace actor actor_membership conversation_id conversation
    ConversationStatus.CLOSED.

Definition reopen_conversation (workspace actor : N) (actor_membership : Actor)
    (conversation_id : N) (conversation : Conversation) : service () :=
  change_conversation_status workspace actor actor_membership conversation_id conversation
    ConversationStatus.OPEN.

(** ** Messages *)

(** What a message does to its conversation; an inbound one reopens it. *)
Definition message_received (reopens : bool) (now : Z) (c : Conversation) : Conversation :=
  let c := {| c with cv_last_message_at := Some now |} in
  if reopens then {| c with cv_status := ConversationStatus.OPEN; cv_closed_at := None |} else c.

Definition create_message (workspace conversation_id : N) (conversation : Conversation)
    (sender_type : MessageSenderType.t) (direction : MessageDirection.t) (body : string)
    (sender_membership : option Actor) (external_id : option string) (metadata : json)
    : service N :=
  atomic (
    raise_if (negb (bool_decide (cv_workspace conversation = workspace)))
      (ValidationError "conversation");;
    raise_if (match sender_membership with
              | Some m => negb (bool_decide (mb_workspace m.2 = workspace)) | None => false end)
      (ValidationError "sender_membership");;
    raise_if (negb (fits_opt 255 external_id)) DataError;;
    now ← get_now;
    message ← create_row {|
      msg_workspace := workspace; msg_conversation := conversation_id;
      msg_sender_type := sender_type; msg_sender_membership := fst <$> sender_membership;
      msg_direction := direction; msg_body := body; msg_external_id := external_id;
      msg_metadata := metadata; msg_created_at := now |};
    save_fields conversation_id (message_received
      (bool_decide (direction = MessageDirection.INBOUND)
       && bool_decide (cv_status conversation = ConversationStatus.CLOSED)) now);;
    mret message).

Definition create_outbound_message (workspace : N) (actor_membership : Actor)
    (conversation_id : N) (conversation : Conversation) (body : string)
    (external_id : option string) (metadata : json) : service N :=
  create_message workspace conversation_id conversation MessageSenderType.HUMAN_AGENT
    MessageDirection.OUTBOUND body (Some actor_membership) external_id metadata.

Definition create_internal_message (workspace : N) (actor_membership : Actor)
    (conversation_id : N) (conversation : Conversation) (body : string)
    (external_id : option string) (metadata : json) : service N :=
  create_message workspace conversation_id conversation MessageSenderType.HUMAN_AGENT
    MessageDirection.INTERNAL body (Some actor_membership) external_id metadata.

Definition create_ai_agent_message (workspace conversation_id : N) (conversation : Conversation)
    (body : string) (external_id : option string) (metadata : json) : service N :=
  create_message workspace conversation_id conversation MessageSenderType.AI_AGENT
    MessageDirection.OUTBOUND body None external_id metadata.

Definition create_inbound_message (workspace conversation_id : N) (conversation : Conversation)
    (body : string) (external_id : option string) (metadata : json) : service N :=
  create_message workspace conversation_id conversation MessageSenderType.CUSTOMER
    MessageDirection.INBOUND body None external_id metadata.

(** ** Tenancy and history *)

(** A closed conversation, and no other, has a closing time. *)
Definition closing_consistent (c : Conversation) : Prop :=
  cv_status c = ConversationStatus.CLOSED ↔ is_Some (cv_closed_at c).

(** Membership [a] belongs to workspace [ws]. *)
Definition staff_of (w : World) (ws a : N) : Prop :=
  ∃ m, w_memberships w !! a = Some m ∧ mb_workspace m = ws.

Definition conversation_ok (w : World) (c : Conversation) : Prop :=
  closing_consistent c ∧
  (∃ cu, w_customers w !! cv_customer c = Some cu ∧ cu_workspace cu = cv_workspace c) ∧
  ∀ a, cv_assigned_to c = Some a → staff_of w (cv_workspace c) a.

Definition message_ok (w : World) (m : Message) : Prop :=
  (∃ c, w_conversations w !! msg_conversation m = Some c ∧ cv_workspace c = msg_workspace m) ∧
  (∀ a, msg_sender_membership m = Some a → staff_of w (msg_workspace m) a) ∧
  (msg_sender_type m = MessageSenderType.HUMAN_AGENT ↔ is_Some (msg_sender_membership m)).

Definition conversations_ok (w : World) : Prop :=
  unique conversation_clash (w_conversations w) ∧
  (∀ i c, w_conversations w !! i = Some c → (i < w_next w)%N ∧ conversation_ok w c) ∧
  (∀ i m, w_messages w !! i = Some m → (i < w_next w)%N ∧ message_ok w m).

(** The objects a service is handed: loaded from a row, whose other columns may
    have changed since, but not the workspace. *)
Definition loaded_customer (w : World) (i : N) (c : Customer) : Prop :=
  ∃ row, w_customers w !! i = Some row ∧ cu_workspace row = cu_workspace c.
Definition loaded_member (w : World) (a : Actor) : Prop := staff_of w (mb_workspace a.2) a.1.
Definition loaded_conversation (w : World) (i : N) (c : Conversation) : Prop :=
  closing_consistent c ∧
  ∃ row, w_conversations w !! i = Some row ∧ cv_workspace row = cv_workspace c.

(** What an operation may do: messages are only added, and a conversation stays
    with its workspace and its customer. *)
Definition history_kept (w w' : World) : Prop :=
  (∀ i m, w_messages w !! i = Some m → w_messages w' !! i = Some m) ∧
  (∀ i c, w_conversations w !! i = Some c → ∃ c', w_conversations w' !! i = Some c' ∧
     cv_workspace c' = cv_workspace c ∧ cv_customer c' = cv_customer c ∧
     cv_external_id c' = cv_external_id c).

Definition conversation_rel (w w' : World) : Prop :=
  conversations_ok w → conversations_ok w' ∧ history_kept w w'.

#[export] Instance history_kept_preorder : PreOrder history_kept.
Proof.
  split.
  - intros w. split; [done|]. intros i c Hc. by exists c.
  - intros w1 w2 w3 [Hm1 Hc1] [Hm2 Hc2]. split; [by eauto|]. intros i c Hc.
    destruct (Hc1 i c Hc) as (c2 & Hi2 & ? & ? & ?).
    destruct (Hc2 i c2 Hi2) as (c3 & Hi3 & ? & ? & ?). exists c3. split_and!; congruence.
Qed.
#[export] Instance conversation_rel_preorder : PreOrder conversation_rel.
Proof.
  split; [by intros w; split|]. intros w1 w2 w3 H12 H23 Hok.
  destruct (H12 Hok) as [Hok2 Hh]. destruct (H23 Hok2) as [Hok3 Hh']. split; [done|by etrans].
Qed.

Lemma conversation_clash_sym a b : conversation_clash a b = conversation_clash b a.
Proof.
  unfold conversation_clash, same_external. f_equal; [by apply bool_decide_ext|].
  destruct (cv_external_id a), (cv_external_id b); try done. apply String.eqb_sym.
Qed.

(** Writing the row of a conversation. *)
Definition with_conversation (i : N) (c : Conversation) (w : World) : World :=
  {| w with w_conversations := <[i := c]> (w_conversations w) |}.

Lemma write_conversation w i row c :
  w_conversations w !! i = Some row →
  cv_workspace c = cv_workspace row → cv_customer c = cv_customer row →
  cv_external_id c = cv_external_id row →
  (conversations_ok w → conversation_ok w c) →
  conversation_rel w (with_conversation i c w).
Proof.
  intros Hrow Hws Hcu Hex Hc Hok. specialize (Hc Hok). destruct Hok as (Hu & Hcs & Hms).
  assert (Hkept : history_kept w (with_conversation i c w)).
  { split; [done|]. intros j r Hj. simpl. destruct (decide (i = j)) as [<-|Hne].
    - rewrite lookup_insert_eq. exists c. split_and!; congruence.
    - rewrite lookup_insert_ne by done. by exists r. }
  split; [|done]. split_and!; simpl.
  - refine (unique_insert conversation_clash conversation_clash_sym i c w Hu _).
    apply clashes_false. intros j q Hj Hne.
    assert (conversation_clash row q = false) as Hrq by (apply (Hu i j); done).
    revert Hrq. unfold conversation_clash. by rewrite Hws, Hex.
  - intros j r [[<- <-]|[? Hj]]%lookup_insert_Some; [|by apply Hcs].
    split; [by apply (Hcs i row)|done].
  - intros j m Hm. destruct (Hms j m Hm) as (Hlt & (cm & Hcm & Hwm) & Hs). split; [done|].
    split; [|done]. destruct (proj2 Hkept _ _ Hcm) as (c' & Hc' & Hw' & _).
    exists c'. split; [done|congruence].
Qed.

Lemma set_status_ok w row obj status now :
  conversation_ok w row → closing_consistent obj →
  conversation_ok w (set_conversation_status status
    (closed_at_after (cv_status obj) status (cv_closed_at obj) now) row).
Proof.
  intros (_ & Hcu & Ha) Hobj. split; [|done]. unfold closing_consistent, closed_at_after in *.
  simpl. case_bool_decide; [by split|]. split; [done|].
  case_bool_decide; [by intros []|]. intros Hs. by apply Hobj in Hs.
Qed.

Lemma message_received_ok w row reopens now :
  conversation_ok w row → conversation_ok w (message_received reopens now row).
Proof.
  intros (Hcl & Hcu & Ha). split; [|by destruct reopens].
  unfold closing_consistent in *. destruct reopens; simpl; [|done]. by split; [|intros []].
Qed.

Lemma wp_save_fields {A} `{Table A} i (f : A → A) (Q : exn + () → World → Prop) w :
  match rows w !! i with
  | Some row => Q (inr ()) (set_rows (<[i := f row]> (rows w)) w)
  | None => Q (inl DoesNotExist) w
  end → wp (save_fields i f) Q w.
Proof.
  intros HQ. unfold save_fields. apply wp_bind, wp_get_row.
  by destruct (rows w !! i); wp_beta; [apply wp_save_row|].
Qed.

(** ** The operations *)

#[local] Ltac kept := intros ?; split; [done|by split; [done|eauto]].

Lemma audit_kept a tt ti ac ws md w :
  wp (record_event a tt ti ac ws md) (λ _, conversation_rel w) w.
Proof. apply wp_record_event. kept. Qed.

(** A write followed by its audit event. *)
Lemma saved_and_audited w i c a tt ti ac ws md :
  conversation_rel w (with_conversation i c w) →
  wp (record_event a tt ti ac ws md) (λ _, conversation_rel w) (with_conversation i c w).
Proof.
  intros Hrel. eapply wp_mono; [apply audit_kept|]. intros r w' Hw'. by etrans.
Qed.

Lemma assign_rel ws actor a i c t w :
  loaded_conversation w i c → cv_workspace c = ws → loaded_member w t →
  conversation_rel w (assign_conversation ws actor a i c t w).2.
Proof.
  intros (Hcl & row & Hrow & Hws) Hcw Ht.
  change (wp (assign_conversation ws actor a i c t) (λ _, conversation_rel w) w).
  unfold assign_conversation. repeat svc_step; try reflexivity.
  all: apply wp_save_fields; unfold rows; simpl; rewrite Hrow; wp_beta.
  all: apply saved_and_audited, (write_conversation _ _ row); try done.
  all: intros (_ & Hcs & _); destruct (Hcs i row Hrow) as (_ & Hcr & Hcu & Ha).
  all: split; [done|split; [done|]]; simpl; intros b [= <-].
  all: apply negb_false_iff, bool_decide_eq_true in Heqb; unfold loaded_member in Ht.
  all: rewrite Hws, Hcw, <- Heqb; exact Ht.
Qed.

Lemma change_status_rel ws actor a i c new w :
  loaded_conversation w i c →
  conversation_rel w (change_conversation_status ws actor a i c new w).2.
Proof.
  intros (Hcl & row & Hrow & Hws).
  change (wp (change_conversation_status ws actor a i c new) (λ _, conversation_rel w) w).
  assert (conversation_rel w (with_conversation i (set_conversation_status new
    (closed_at_after (cv_status c) new (cv_closed_at c) (w_now w)) row) w)) as Hrel.
  { apply (write_conversation _ _ row); [done..|]. intros (_ & Hcs & _).
    apply set_status_ok; [by apply (Hcs i)|done]. }
  unfold change_conversation_status, ensure_conversation_mutation_allowed.
  repeat svc_step; try reflexivity.
  all: apply wp_save_fields; unfold rows; simpl; rewrite Hrow; wp_beta; repeat wp_step.
  all: first [by apply saved_and_audited|exact Hrel].
Qed.

(** A fresh identifier is in no table yet. *)
Lemma next_unused w :
  conversations_ok w → w_conversations w !! w_next w = None ∧ w_messages w !! w_next w = None.
Proof.
  intros (_ & Hcs & Hms). split.
  - destruct (w_conversations w !! w_next w) eqn:Hc; [|done]. apply Hcs in Hc as [? _]. lia.
  - destruct (w_messages w !! w_next w) eqn:Hm; [|done]. apply Hms in Hm as [? _]. lia.
Qed.

Lemma create_conversation_rel ws i c channel subject external_id metadata w :
  loaded_customer w i c →
  conversation_rel w (create_conversation ws i c channel subject external_id metadata w).2.
Proof.
  intros (row & Hrow & Hws).
  change (wp (create_conversation ws i c channel subject external_id metadata)
            (λ _, conversation_rel w) w).
  unfold create_conversation. repeat svc_step; try reflexivity.
  apply wp_save_unique. destruct (clashes _ _ _ _) eqn:Hc; repeat svc_step; try reflexivity.
  intros Hok. destruct (next_unused w Hok) as [Hnone _]. destruct Hok as (Hu & Hcs & Hms).
  assert (Hkeep : ∀ j r, w_conversations w !! j = Some r →
    ∀ x, <[w_next w := x]> (w_conversations w) !! j = Some r).
  { intros j r Hj x. rewrite lookup_insert_ne; [done|]. intros <-. congruence. }
  split; [split_and!|split; [done|]]; simpl.
  - exact (unique_insert conversation_clash conversation_clash_sym _ _ _ Hu Hc).
  - intros j r [[<- <-]|[_ Hj]]%lookup_insert_Some.
    + split; [lia|]. split_and!; [by split; [|intros []]| |done].
      exists row. split; [done|]. simpl. apply negb_false_iff, bool_decide_eq_true in Heqb. congruence.
    + destruct (Hcs j r Hj). split; [lia|done].
  - intros j m Hm. destruct (Hms j m Hm) as (? & (cm & Hcm & ?) & ?). split; [lia|].
    split; [exists cm; by split; [apply Hkeep|]|done].
  - intros j r Hj. exists r. split; [by apply Hkeep|done].
Qed.

(** Adding a message. *)
Lemma add_message_rel w m :
  (∃ c, w_conversations w !! msg_conversation m = Some c ∧ cv_workspace c = msg_workspace m) →
  (∀ a, msg_sender_membership m = Some a → staff_of w (msg_workspace m) a) →
  (msg_sender_type m = MessageSenderType.HUMAN_AGENT ↔ is_Some (msg_sender_membership m)) →
  conversation_rel w {| w with w_next := N.succ (w_next w);
                               w_messages := <[w_next w := m]> (w_messages w) |}.
Proof.
  intros Hc Hs Ht Hok. destruct (next_unused w Hok) as [_ Hnone]. destruct Hok as (Hu & Hcs & Hms).
  split; [split_and!|split]; simpl.
  - done.
  - intros j c Hj. destruct (Hcs j c Hj). split; [lia|done].
  - intros j r [[<- <-]|[_ Hj]]%lookup_insert_Some; [by split; [lia|]|].
    destruct (Hms j r Hj). split; [lia|done].
  - intros j r Hj. rewrite lookup_insert_ne; [done|]. intros <-. congruence.
  - intros j c Hj. by exists c.
Qed.

Lemma create_message_rel ws i c sender_type direction body sender external_id metadata w :
  loaded_conversation w i c → (∀ a, sender = Some a → loaded_member w a) →
  (sender_type = MessageSenderType.HUMAN_AGENT ↔ is_Some sender) →
  conversation_rel w
    (create_message ws i c sender_type direction body sender external_id metadata w).2.
Proof.
  intros (Hcl & row & Hrow & Hws) Hs Ht.
  change (wp (create_message ws i c sender_type direction body sender external_id metadata)
            (λ _, conversation_rel w) w).
  unfold create_message. repeat svc_step; try reflexivity.
  apply negb_false_iff, bool_decide_eq_true in Heqb.
  apply wp_save_fields. unfold rows. simpl. rewrite Hrow. wp_beta. repeat svc_step.
  set (m := Build_Message ws i sender_type (fst <$> sender) direction body external_id metadata
              (w_now w)).
  set (w1 := {| w with w_next := N.succ (w_next w);
                       w_messages := <[w_next w := m]> (w_messages w) |}).
  set (b := bool_decide (direction = _) && _).
  change (conversation_rel w (with_conversation i (message_received b (w_now w) row) w1)).
  trans w1.
  - apply add_message_rel; simpl; [by exists row; split; [|congruence]|..].
    + intros x. destruct sender as [a|]; simpl; [|done]. intros [= <-].
      apply negb_false_iff, bool_decide_eq_true in Heqb0. rewrite <- Heqb0. by apply Hs.
    + rewrite Ht. by destruct sender; split; intros []; simplify_eq/=; eauto.
  - apply (write_conversation w1 i row); [done|by destruct b..|].
    intros (_ & Hcs & _). apply message_received_ok. by apply (Hcs i).
Qed.

(** Every service on objects that may be out of date. *)
Inductive conversation_op : World → World → Prop :=
  | Op_create_conversation ws i c channel subject external_id metadata w :
      loaded_customer w i c →
      conversation_op w (create_conversation ws i c channel subject external_id metadata w).2
  | Op_assign_conversation ws actor a i c t w :
      loaded_conversation w i c → cv_workspace c = ws → loaded_member w t →
      conversation_op w (assign_conversation ws actor a i c t w).2
  | Op_change_conversation_status ws actor a i c new w :
      loaded_conversation w i c →
      conversation_op w (change_conversation_status ws actor a i c new w).2
  | Op_outbound ws a i c body external_id metadata w :
      loaded_conversation w i c → loaded_member w a →
      conversation_op w (create_outbound_message ws a i c body external_id metadata w).2
  | Op_internal ws a i c body external_id metadata w :
      loaded_conversation w i c → loaded_member w a →
      conversation_op w (create_internal_message ws a i c body external_id metadata w).2
  | Op_ai_agent ws i c body external_id metadata w :
      loaded_conversation w i c →
      conversation_op w (create_ai_agent_message ws i c body external_id metadata w).2
  | Op_inbound ws i c body external_id metadata w :
      loaded_conversation w i c →
      conversation_op w (create_inbound_message ws i c body external_id metadata w).2.

Lemma conversation_op_rel w w' : conversation_op w w' → conversation_rel w w'.
Proof.
  destruct 1.
  - by apply create_conversation_rel.
  - by apply assign_rel.
  - by apply change_status_rel.
  - unfold create_outbound_message. apply create_message_rel; [done|by intros ? [= <-]|by split; eauto].
  - unfold create_internal_message. apply create_message_rel; [done|by intros ? [= <-]|by split; eauto].
  - unfold create_ai_agent_message. apply create_message_rel; [done|done|]. split; [done|by intros []].
  - unfold create_inbound_message. apply create_message_rel; [done|done|]. split; [done|by intros []].
Qed.

(** C40. Over any sequence of conversation services, even on objects that are out of
    date: a message never changes or disappears, a conversation never moves to
    another workspace or customer, every message, sender, assignee and customer
    belongs to the workspace of its conversation, only staff messages name a
    sender, and a conversation has a closing time exactly while it is closed. *)
Theorem conversations_keep_tenancy w w' :
  rtc conversation_op w w' → conversations_ok w → conversations_ok w' ∧ history_kept w w'.
Proof.
  intros Hops. change (conversation_rel w w'). induction Hops; [reflexivity|].
  etrans; [by apply conversation_op_rel|done].
Qed.

(** ** Examples *)

Module ConversationExamples.
Definition customer : Customer := apply_customer_data deactivation (new_customer 1).
Definition agent : WorkspaceMembership :=
  {| mb_workspace := 1; mb_user := 10; mb_role := WorkspaceRole.SUPPORT_AGENT;
     mb_is_active := true |}.
Definition closed : Conversation :=
  {| cv_workspace := 1; cv_customer := 2; cv_channel := "web";
     cv_status := ConversationStatus.CLOSED; cv_subject := ""; cv_assigned_to := Some 3%N;
     cv_external_id := None; cv_last_message_at := None; cv_closed_at := Some 5%Z;
     cv_metadata := JObj [] |}.
Definition world : World :=
  let w := empty_world in
  {| w with w_next := 5; w_memberships := {[3%N := agent]}; w_customers := {[2%N := customer]};
            w_conversations := {[4%N := closed]} |}.

Lemma tenant_world_ok : conversations_ok world.
Proof.
  split_and!.
  - intros i j a b Hne Hi Hj. simpl in *. apply lookup_singleton_Some in Hi as [<- _].
    apply lookup_singleton_Some in Hj as [<- _]. done.
  - intros i c Hi. simpl in Hi. apply lookup_singleton_Some in Hi as [<- <-].
    split; [simpl; lia|]. split; [done|]. split; [by exists customer|].
    intros a [= <-]. by exists agent.
  - intros i m Hi. simpl in Hi. by rewrite lookup_empty in Hi.
Qed.

(** A message of the customer reopens the conversation. *)
Definition reopened : World :=
  (create_inbound_message 1 4 closed "Are you there?" None (JObj []) world).2.

Lemma conversations_keep_tenancy_witness :
  conversations_ok reopened ∧ history_kept world reopened ∧
  cv_status <$> w_conversations reopened !! 4%N = Some ConversationStatus.OPEN.
Proof.
  assert (Hload : loaded_conversation world 4 closed) by (split; [done|by exists closed]).
  assert (Hops : rtc conversation_op world reopened)
    by (apply rtc_once; exact (Op_inbound 1 4 closed "Are you there?" None (JObj []) world Hload)).
  pose proof (conversations_keep_tenancy world reopened Hops tenant_world_ok) as [Hok Hkept].
  split; [exact Hok|split; [exact Hkept|vm_compute; reflexivity]].
Defined.
End ConversationExamples.
