(* ===== verification/Tickets.v ===== *)
(** * Tickets and human handoffs

    [tickets/services.py].  Ticket services work on objects loaded earlier, as the
    conversation services do; the handoff services lock and re-read their row. *)

From stdpp Require Import base gmap strings list relations.
From Stdlib Require Import ZArith Ascii String Lia.
From S2P Require Import Prelude Json Domain Policy Models Store Delivery Network Webhooks Conversations.

Section Tickets.
Context `{Settings} `{PyLib} `{Network}.

(** ** Tickets *)

Definition TICKET_REASSIGN_ROLES : list WorkspaceRole.t :=
  [WorkspaceRole.OWNER; WorkspaceRole.ADMIN; WorkspaceRole.SUPPORT_MANAGER].

Definition TICKET_STATUS_TRANSITIONS (s : TicketStatus.t) : list TicketStatus.t :=
  match s with
  | TicketStatus.OPEN => [TicketStatus.IN_PROGRESS; TicketStatus.PENDING; TicketStatus.RESOLVED;
                          TicketStatus.CLOSED]
  | TicketStatus.IN_PROGRESS => [TicketStatus.OPEN; TicketStatus.PENDING; TicketStatus.RESOLVED;
                                 TicketStatus.CLOSED]
  | TicketStatus.PENDING => [TicketStatus.OPEN; TicketStatus.IN_PROGRESS; TicketStatus.RESOLVED;
                             TicketStatus.CLOSED]
  | TicketStatus.RESOLVED => [TicketStatus.OPEN; TicketStatus.IN_PROGRESS; TicketStatus.CLOSED]
  | TicketStatus.CLOSED => [TicketStatus.OPEN]
  end.

(** [Ticket.save] strips the subject; the column is [varchar(300)]. *)
Definition stripped_ticket (t : Ticket) : Ticket := {| t with tk_subject := str_strip (tk_subject t) |}.
Definition save_ticket (i : N) (t : Ticket) : service () :=
  let t := stripped_ticket t in
  raise_if (negb (fits 300 (tk_subject t))) DataError;;
  save_row i t.

Definition ensure_ticket_mutation_allowed (ticket : Ticket) (actor_membership : Actor)
    : service () :=
  if bool_decide (mb_role actor_membership.2 ∈ TICKET_REASSIGN_ROLES) then mret ()
  else if bool_decide (mb_role actor_membership.2 = WorkspaceRole.SUPPORT_AGENT)
       && bool_decide (tk_assigned_to ticket = Some actor_membership.1) then mret ()
  else raise PermissionDenied.

Definition create_ticket (workspace customer_id : N) (customer : Customer)
    (subject description : string) (priority : option TicketPriority.t)
    (conversation : option (N * Conversation)) (due_at : option Z) (metadata : json)
    : service N :=
  atomic (
    raise_if (negb (bool_decide (cu_workspace customer = workspace))) (ValidationError "customer");;
    raise_if (match conversation with
              | Some c => negb (bool_decide (cv_workspace c.2 = workspace)) | None => false end)
      (ValidationError "conversation");;
    i ← fresh;
    save_ticket i {|
      tk_workspace := workspace; tk_customer := customer_id;
      tk_conversation := fst <$> conversation; tk_subject := subject;
      tk_description := description; tk_status := TicketStatus.OPEN;
      tk_priority := default TicketPriority.NORMAL priority; tk_assigned_to := None;
      tk_due_at := due_at; tk_resolved_at := None; tk_metadata := metadata |};;
    mret i).

(** The writable keys of [data] that are present. *)
Record TicketData := {
  tkd_subject : option string;
  tkd_description : option string;
  tkd_priority : option TicketPriority.t;
  tkd_due_at : option (option Z);
  tkd_metadata : option json;
}.

Definition apply_ticket_data (data : TicketData) (t : Ticket) : Ticket :=
  {| t with
     tk_subject := default (tk_subject t) (tkd_subject data);
     tk_description := default (tk_description t) (tkd_description data);
     tk_priority := default (tk_priority t) (tkd_priority data);
     tk_due_at := default (tk_due_at t) (tkd_due_at data);
     tk_metadata := default (tk_metadata t) (tkd_metadata data) |}.

Definition update_ticket (ticket_id : N) (ticket : Ticket) (actor_membership : Actor)
    (data : TicketData) : service () :=
  atomic (
    ensure_ticket_mutation_allowed ticket actor_membership;;
    save_ticket ticket_id (apply_ticket_data data ticket)).

Definition set_ticket_assignee (target : option N) (t : Ticket) : Ticket :=
  {| t with tk_assigned_to := target |}.

Definition assign_ticket (workspace actor : N) (actor_membership : Actor)
    (ticket_id : N) (ticket : Ticket) (target_membership : Actor) : service () :=
  atomic (
    raise_if (negb (bool_decide (mb_workspace target_membership.2 = workspace)))
      (ValidationError "membership");;
    let is_self_assign := bool_decide (target_membership.1 = actor_membership.1) in
    when (negb (bool_decide (mb_role actor_membership.2 ∈ TICKET_REASSIGN_ROLES)))
      (raise_if (negb is_self_assign) PermissionDenied;;
       raise_if (bool_decide (tk_assigned_to ticket ≠ None)
                 && bool_decide (tk_assigned_to ticket ≠ Some actor_membership.1))
         PermissionDenied);;
    save_fields ticket_id (set_ticket_assignee (Some target_membership.1));;
    record_event
      (if bool_decide (tk_assigned_to ticket = None) then "ticket.assigned"
       else "ticket.reassigned")
      "ticket" ticket_id (Some actor) (Some workspace)
      [("assigned_to_membership_id", id_json target_membership.1)]).

Definition self_assign_ticket (workspace actor : N) (actor_membership : Actor)
    (ticket_id : N) (ticket : Ticket) : service () :=
  assign_ticket workspace actor actor_membership ticket_id ticket actor_membership.

Definition unassign_ticket (workspace actor : N) (actor_membership : Actor) (ticket_id : N)
    : service () :=
  atomic (
    raise_if (negb (bool_decide (mb_role actor_membership.2 ∈ TICKET_REASSIGN_ROLES)))
      PermissionDenied;;
    save_fields ticket_id (set_ticket_assignee None);;
    record_event "ticket.reassigned" "ticket" ticket_id (Some actor) (Some workspace)
      [("assigned_to_membership_id", JNull)]).

(** [resolved_at] after a change from [old] to [new]. *)
Definition resolved_at_after (old new : TicketStatus.t) (resolved_at : option Z) (now : Z)
    : option Z :=
  if bool_decide (new = TicketStatus.RESOLVED) then Some now
  else if bool_decide (old = TicketStatus.RESOLVED) then None
  else resolved_at.

Definition set_ticket_status (status : TicketStatus.t) (resolved_at : option Z) (t : Ticket)
    : Ticket :=
  {| t with tk_status := status; tk_resolved_at := resolved_at |}.

Definition ticket_action (old new : TicketStatus.t) : string :=
  if bool_decide (new = TicketStatus.RESOLVED) then "ticket.resolved"
  else if bool_decide (old = TicketStatus.RESOLVED) && bool_decide (new = TicketStatus.OPEN)
  then "ticket.reopened" else "ticket.status_changed".

Definition status_metadata (old new : TicketStatus.t) : list (string * json) :=
  [("old_status", JStr (TicketStatus.value old)); ("new_status", JStr (TicketStatus.value new))].

Definition change_ticket_status (workspace actor : N) (actor_membership : Actor)
    (ticket_id : N) (ticket : Ticket) (new_status : TicketStatus.t) : service () :=
  atomic (
    ensure_ticket_mutation_allowed ticket actor_membership;;
    let old_status := tk_status ticket in
    raise_if (negb (bool_decide (new_status ∈ TICKET_STATUS_TRANSITIONS old_status)))
      (ValidationError "status");;
    now ← get_now;
    save_fields ticket_id (set_ticket_status new_status
      (resolved_at_after old_status new_status (tk_resolved_at ticket) now));;
    record_event (ticket_action old_status new_status) "ticket" ticket_id (Some actor)
      (Some workspace) (status_metadata old_status new_status)).

Definition resolve_ticket (workspace actor : N) (actor_membership : Actor) (ticket_id : N)
    (ticket : Ticket) : service () :=
  change_ticket_status workspace actor actor_membership ticket_id ticket TicketStatus.RESOLVED.

Definition reopen_ticket (workspace actor : N) (actor_membership : Actor) (ticket_id : N)
    (ticket : Ticket) : service () :=
  change_ticket_status workspace actor actor_membership ticket_id ticket TicketStatus.OPEN.

Definition two_newlines : string :=
  String (Ascii.ascii_of_nat 10) (String (Ascii.ascii_of_nat 10) EmptyString).

(** The priority and the note of an agent's update; the note is appended and the
    description cut at 20000 characters. *)
Definition annotated_ticket (priority : option TicketPriority.t) (note : option string)
    (t : Ticket) : Ticket :=
  let t := {| t with tk_priority := default (tk_priority t) priority |} in
  match note with
  | Some n =>
      if String.eqb n "" then t
      else
        let separator := if String.eqb (tk_description t) "" then "" else two_newlines in
        {| t with tk_description :=
             str_take (N.to_nat 20000) (tk_description t +:+ separator +:+ n) |}
  | None => t
  end.

Definition apply_agent_ticket_update (workspace ticket_id : N) (ticket : Ticket)
    (actor : option N) (priority : option TicketPriority.t) (status : option TicketStatus.t)
    (note : option string) : service () :=
  atomic (
    let t := annotated_ticket priority note ticket in
    let old_status := tk_status t in
    match status with
    | Some new_status =>
        if bool_decide (new_status = old_status) then save_ticket ticket_id t
        else
          raise_if (negb (bool_decide (new_status ∈ TICKET_STATUS_TRANSITIONS old_status)))
            (ValidationError "status");;
          now ← get_now;
          save_ticket ticket_id (set_ticket_status new_status
            (resolved_at_after old_status new_status (tk_resolved_at t) now) t);;
          record_event (ticket_action old_status new_status) "ticket" ticket_id actor
            (Some workspace) (status_metadata old_status new_status ++ [("via", JStr "agent_tool")])
    | None => save_ticket ticket_id t
    end).

(** ** Human handoffs *)

Definition HANDOFF_MANAGE_ROLES : list WorkspaceRole.t :=
  [WorkspaceRole.OWNER; WorkspaceRole.ADMIN; WorkspaceRole.SUPPORT_MANAGER].

Definition handoff_active (h : HumanHandoff) : bool :=
  bool_decide (ho_status h ∈ HUMAN_HANDOFF_ACTIVE_STATUSES).

(** [handoff_one_active_per_conversation]. *)
Definition handoff_clash (a b : HumanHandoff) : bool :=
  bool_decide (ho_conversation a = ho_conversation b) && (handoff_active a && handoff_active b).

Definition active_for (conversation_id : N) (_ : N) (h : HumanHandoff) : bool :=
  bool_decide (ho_conversation h = conversation_id) && handoff_active h.

(** [active_handoff_for_conversation] of [tickets/selectors.py]. *)
Definition active_handoff_for_conversation (conversation_id : N)
    : service (option (N * HumanHandoff)) :=
  first_row (active_for conversation_id).

Definition new_handoff (workspace conversation_id : N) (reason_code : HumanHandoffReason.t)
    (safe_summary : string) (agent_run ticket : option N) : HumanHandoff :=
  {| ho_workspace := workspace; ho_conversation := conversation_id; ho_agent_run := agent_run;
     ho_ticket := ticket; ho_status := HumanHandoffStatus.PENDING; ho_reason_code := reason_code;
     ho_safe_summary := str_take 500 (str_strip safe_summary); ho_assigned_to := None;
     ho_resolved_at := None |}.

(** [HumanHandoff.objects.create(...)]. *)
Definition insert_handoff (row : HumanHandoff) : service N :=
  i ← fresh;
  save_unique handoff_clash i row;;
  mret i.

(** The row's identifier and whether this call created it.  The workspaces of the
    run and the ticket are those of the objects the caller holds. *)
Definition create_or_reuse_handoff (workspace conversation_id : N) (conversation : Conversation)
    (reason_code : HumanHandoffReason.t) (safe_summary : string)
    (agent_run ticket : option (N * N)) : service (N * bool) :=
  let foreign o := match o with Some x => negb (bool_decide (snd x = workspace)) | None => false end in
  atomic (
    raise_if (negb (bool_decide (cv_workspace conversation = workspace)))
      (ValidationError "conversation");;
    raise_if (foreign agent_run) (ValidationError "agent_run");;
    raise_if (foreign ticket) (ValidationError "ticket");;
    existing ← first_row (active_for conversation_id);
    match existing with
    | Some (handoff, _) => mret (handoff, false)
    | None =>
        created ← catch
          (atomic (
             i ← insert_handoff (new_handoff workspace conversation_id reason_code safe_summary
                                   (fst <$> agent_run) (fst <$> ticket));
             mret (i, true)))
          (λ e, match e with
                | IntegrityError =>
                    winner ← get_where (active_for conversation_id);
                    mret (fst winner, false)
                | e => raise e
                end);
        let (handoff, fresh_row) := created : N * bool in
        if fresh_row then
          record_event "human_handoff.created" "human_handoff" handoff None (Some workspace)
            [("conversation_id", id_json conversation_id);
             ("reason_code", JStr (HumanHandoffReason.value reason_code))];;
          emit_event workspace "handoff.created"
            (JObj [("handoff_id", id_json handoff); ("conversation_id", id_json conversation_id);
                   ("reason_code", JStr (HumanHandoffReason.value reason_code));
                   ("summary", JStr safe_summary)]) 1;;
          mret (handoff, true)
        else mret (handoff, false)
    end).

Definition assigned_handoff (target : N) (h : HumanHandoff) : HumanHandoff :=
  {| h with ho_assigned_to := Some target; ho_status := HumanHandoffStatus.ASSIGNED |}.
Definition resolved_handoff (now : Z) (h : HumanHandoff) : HumanHandoff :=
  {| h with ho_status := HumanHandoffStatus.RESOLVED; ho_resolved_at := Some now |}.
Definition cancelled_handoff (h : HumanHandoff) : HumanHandoff :=
  {| h with ho_status := HumanHandoffStatus.CANCELLED |}.

Definition assign_handoff (workspace actor : N) (actor_membership : Actor) (handoff_id : N)
    (target_membership : option Actor) : service () :=
  atomic (
    raise_if (negb (bool_decide (mb_role actor_membership.2 ∈ HANDOFF_MANAGE_ROLES)))
      PermissionDenied;;
    let target := default actor_membership target_membership in
    raise_if (negb (bool_decide (mb_workspace target.2 = workspace))) (ValidationError "membership");;
    locked ← get_row handoff_id;
    raise_if (negb (handoff_active locked)) (ValidationError "status");;
    save_unique handoff_clash handoff_id (assigned_handoff target.1 locked);;
    record_event "human_handoff.assigned" "human_handoff" handoff_id (Some actor) (Some workspace)
      [("assigned_to_membership_id", id_json target.1)]).

Definition resolve_handoff (workspace actor : N) (actor_membership : Actor) (handoff_id : N)
    : service () :=
  atomic (
    raise_if (negb (bool_decide (mb_role actor_membership.2 ∈ HANDOFF_MANAGE_ROLES)))
      PermissionDenied;;
    locked ← get_row handoff_id;
    raise_if (negb (handoff_active locked)) (ValidationError "status");;
    now ← get_now;
    save_row handoff_id (resolved_handoff now locked);;
    record_event "human_handoff.resolved" "human_handoff" handoff_id (Some actor) (Some workspace)
      []).

Definition active_for_run (run_id : N) (_ : N) (h : HumanHandoff) : bool :=
  bool_decide (ho_agent_run h = Some run_id) && handoff_active h.

Definition cancel_handoff (reason : string) (handoff : N * HumanHandoff) : service () :=
  save_row (fst handoff) (cancelled_handoff (snd handoff));;
  record_event "human_handoff.cancelled" "human_handoff" (fst handoff) None
    (Some (ho_workspace (snd handoff))) [("reason", JStr reason)].

Definition cancel_handoffs_for_run (run_id : N) (reason : string) : service () :=
  atomic (
    handoffs ← gets (select_rows (active_for_run run_id));
    for_each handoffs (cancel_handoff reason)).

End Tickets.

(** ** The life of a ticket *)

(** A ticket has a resolution time exactly while it is resolved. *)
Definition resolution_consistent (t : Ticket) : Prop :=
  tk_status t = TicketStatus.RESOLVED ↔ is_Some (tk_resolved_at t).

(** The moves of a ticket: any change of status, except that a resolved ticket does not
    become pending, and a closed one is only reopened. *)
Definition may_move (s s' : TicketStatus.t) : Prop :=
  s' ≠ s ∧ (s = TicketStatus.RESOLVED → s' ≠ TicketStatus.PENDING) ∧
  (s = TicketStatus.CLOSED → s' = TicketStatus.OPEN).
Lemma may_move_iff s s' : s' ∈ TICKET_STATUS_TRANSITIONS s ↔ may_move s s'.
Proof.
  unfold may_move. split.
  - destruct s, s'; intros Hin; try (mem_decide_in Hin; done); by split_and!.
  - destruct s, s'; intros (? & ? & ?); try mem_decide; by intuition.
Qed.

(** What one service may make of a ticket: its status stays or makes one move. *)
Definition ticket_step (t t' : Ticket) : Prop :=
  tk_workspace t' = tk_workspace t ∧ tk_customer t' = tk_customer t ∧
  tk_conversation t' = tk_conversation t ∧
  (tk_status t' = tk_status t ∨ may_move (tk_status t) (tk_status t')) ∧
  (resolution_consistent t → resolution_consistent t').

Definition tickets_wf (w : World) : Prop :=
  ∀ i t, w_tickets w !! i = Some t → (i < w_next w)%N ∧ resolution_consistent t.

(** What one service may do. *)
Definition ticket_rel (w w' : World) : Prop :=
  tickets_wf w → tickets_wf w' ∧
  ∀ i t, w_tickets w !! i = Some t → ∃ t', w_tickets w' !! i = Some t' ∧ ticket_step t t'.

#[export] Instance ticket_step_reflexive : Reflexive ticket_step.
Proof. intros t. by split_and!; [..|left|]. Qed.
#[export] Instance ticket_rel_reflexive : Reflexive ticket_rel.
Proof. intros w Hwf. split; [done|]. intros i t Hi. by exists t. Qed.

(** The tickets are left alone. *)
Definition tickets_untouched (w w' : World) : Prop :=
  w_tickets w' = w_tickets w ∧ (w_next w <= w_next w')%N.
Lemma rel_untouched w w1 w2 : ticket_rel w w1 → tickets_untouched w1 w2 → ticket_rel w w2.
Proof.
  intros Hr [He Hn] Hwf. destruct (Hr Hwf) as [Hwf1 Hs]. split.
  - intros i t. rewrite He. intros Hi. destruct (Hwf1 i t Hi). split; [lia|done].
  - intros i t Hi. rewrite He. by apply Hs.
Qed.

(** A service that leaves the tickets alone after one that does not. *)
Lemma wp_then_untouched {A B} (m : service A) (k : A → service B) w :
  wp m (λ _, ticket_rel w) w → (∀ a w', wp (k a) (λ _, tickets_untouched w') w') →
  wp (m ≫= k) (λ _, ticket_rel w) w.
Proof.
  intros Hm Hk. apply wp_bind. eapply wp_mono; [exact Hm|]. intros [e|a] w' Hr; wp_beta; [done|].
  eapply wp_mono; [apply Hk|]. intros r w2. by apply rel_untouched.
Qed.

(** Writing a ticket. *)
Definition with_ticket (i : N) (t : Ticket) (w : World) : World :=
  {| w with w_tickets := <[i := t]> (w_tickets w) |}.

Lemma write_ticket w i t t' :
  w_tickets w !! i = Some t → ticket_step t t' → ticket_rel w (with_ticket i t' w).
Proof.
  intros Hi He Hwf. destruct (Hwf i t Hi) as [Hlt Hc].
  split; [unfold tickets_wf; simpl|].
  - intros j r [[<- <-]|[_ Hj]]%lookup_insert_Some; [|by apply Hwf].
    split; [done|]. by apply He.
  - intros j r Hj. simpl. destruct (decide (i = j)) as [<-|Hne].
    + rewrite lookup_insert_eq. exists t'. split; [done|]. by simplify_eq.
    + rewrite lookup_insert_ne by done. exists r. split; [done|reflexivity].
Qed.

Lemma evolves_same t t' :
  tk_workspace t' = tk_workspace t → tk_customer t' = tk_customer t →
  tk_conversation t' = tk_conversation t → tk_status t' = tk_status t →
  tk_resolved_at t' = tk_resolved_at t → ticket_step t t'.
Proof.
  intros Hw Hc Hv Hs Hr. unfold ticket_step, resolution_consistent. rewrite Hs, Hr.
  by split_and!; [..|left|].
Qed.

Lemma evolves_status t new now :
  new ∈ TICKET_STATUS_TRANSITIONS (tk_status t) →
  ticket_step t (set_ticket_status new
    (resolved_at_after (tk_status t) new (tk_resolved_at t) now) t).
Proof.
  intros Hnew%may_move_iff. split_and!; try done; [by right|].
  unfold resolution_consistent, resolved_at_after. simpl. intros Hc.
  case_bool_decide; [by split|]. case_bool_decide; [by split; [|intros []]|].
  split; [done|]. intros Hs. by apply Hc in Hs.
Qed.

Lemma ticket_audit_untouched a tt ti ac ws md w :
  wp (record_event a tt ti ac ws md) (λ _, tickets_untouched w) w.
Proof. by apply wp_record_event. Qed.

Lemma save_ticket_rel i t t' w :
  w_tickets w !! i = Some t → ticket_step t t' →
  wp (save_ticket i t') (λ _, ticket_rel w) w.
Proof.
  intros Hi He. unfold save_ticket. repeat svc_step; [reflexivity|].
  by apply (write_ticket w i t).
Qed.

Lemma save_ticket_fields_rel i t f w :
  w_tickets w !! i = Some t → ticket_step t (f t) →
  wp (save_fields i f) (λ _, ticket_rel w) w.
Proof.
  intros Hi He. apply wp_save_fields. unfold rows. simpl. rewrite Hi. by apply (write_ticket w i t).
Qed.

Lemma annotated_evolves priority note t : ticket_step t (annotated_ticket priority note t).
Proof.
  unfold annotated_ticket. destruct note as [n|]; [|by apply evolves_same].
  destruct (String.eqb n ""); by apply evolves_same.
Qed.

Lemma annotated_then priority note t t' :
  ticket_step (annotated_ticket priority note t) t' → ticket_step t t'.
Proof.
  unfold annotated_ticket. destruct note as [n|]; [|done]. by destruct (String.eqb n "").
Qed.

Section TicketLife.
Context `{Settings} `{PyLib} `{Network}.

Lemma create_ticket_rel ws cid c subject description priority conv due_at metadata w :
  ticket_rel w (create_ticket ws cid c subject description priority conv due_at metadata w).2.
Proof.
  change (wp (create_ticket ws cid c subject description priority conv due_at metadata)
            (λ _, ticket_rel w) w).
  unfold create_ticket, save_ticket. repeat svc_step; try reflexivity.
  intros Hwf.
  assert (Hnone : w_tickets w !! w_next w = None).
  { destruct (w_tickets w !! w_next w) eqn:Ht; [|done]. apply Hwf in Ht as [? _]. lia. }
  split; [unfold tickets_wf; simpl|simpl].
  - intros j r [[<- <-]|[_ Hj]]%lookup_insert_Some; [split; [lia|by split; [|intros []]]|].
    destruct (Hwf j r Hj). split; [lia|done].
  - intros j r Hj. exists r. split; [|reflexivity]. rewrite lookup_insert_ne; [done|].
    intros <-. congruence.
Qed.

(** Up to the write of the row. *)
#[local] Ltac to_write :=
  apply wp_atomic_rel; [apply _|];
  unfold ensure_ticket_mutation_allowed; repeat svc_step; try reflexivity.

Lemma update_ticket_rel i t a data w :
  w_tickets w !! i = Some t → ticket_rel w (update_ticket i t a data w).2.
Proof.
  intros Hi. change (wp (update_ticket i t a data) (λ _, ticket_rel w) w).
  to_write; apply (save_ticket_rel i t); by try apply evolves_same.
Qed.

(** The write of some columns and its audit event. *)
Lemma fields_then_audit i t f a tt ti ac ws md w :
  w_tickets w !! i = Some t → ticket_step t (f t) →
  wp (save_fields i f;; record_event a tt ti ac ws md) (λ _, ticket_rel w) w.
Proof.
  intros Hi He. apply wp_then_untouched; [by apply (save_ticket_fields_rel i t)|].
  intros _ w'. apply ticket_audit_untouched.
Qed.

Lemma assign_ticket_rel ws actor a i t target w :
  w_tickets w !! i = Some t → ticket_rel w (assign_ticket ws actor a i t target w).2.
Proof.
  intros Hi. change (wp (assign_ticket ws actor a i t target) (λ _, ticket_rel w) w).
  to_write; apply wp_bind_inv, (fields_then_audit i t); by try apply evolves_same.
Qed.

Lemma unassign_ticket_rel ws actor a i t w :
  w_tickets w !! i = Some t → ticket_rel w (unassign_ticket ws actor a i w).2.
Proof.
  intros Hi. change (wp (unassign_ticket ws actor a i) (λ _, ticket_rel w) w).
  to_write; apply wp_bind_inv, (fields_then_audit i t); by try apply evolves_same.
Qed.

Lemma change_ticket_status_rel ws actor a i t new w :
  w_tickets w !! i = Some t → ticket_rel w (change_ticket_status ws actor a i t new w).2.
Proof.
  intros Hi. change (wp (change_ticket_status ws actor a i t new) (λ _, ticket_rel w) w).
  to_write; apply wp_bind_inv, (fields_then_audit i t); try done;
    apply evolves_status;
    match goal with Hn : negb (bool_decide (new ∈ _)) = false |- _ =>
      by apply negb_false_iff, bool_decide_eq_true in Hn end.
Qed.

Lemma agent_update_rel ws i t actor priority status note w :
  w_tickets w !! i = Some t →
  ticket_rel w (apply_agent_ticket_update ws i t actor priority status note w).2.
Proof.
  intros Hi.
  change (wp (apply_agent_ticket_update ws i t actor priority status note) (λ _, ticket_rel w) w).
  unfold apply_agent_ticket_update. to_write.
  - apply (save_ticket_rel i t); [done|apply annotated_evolves].
  - apply wp_bind_inv, wp_then_untouched; [|intros; apply ticket_audit_untouched].
    apply (save_ticket_rel i t); [done|]. apply (annotated_then priority note), evolves_status.
    by apply negb_false_iff, bool_decide_eq_true in Heqb0.
  - apply (save_ticket_rel i t); [done|apply annotated_evolves].
Qed.

(** Every ticket service, on objects that are up to date. *)
Inductive ticket_op : World → World → Prop :=
  | Op_create_ticket ws cid c subject description priority conv due_at metadata w :
      ticket_op w (create_ticket ws cid c subject description priority conv due_at metadata w).2
  | Op_update_ticket i t a data w :
      w_tickets w !! i = Some t → ticket_op w (update_ticket i t a data w).2
  | Op_assign_ticket ws actor a i t target w :
      w_tickets w !! i = Some t → ticket_op w (assign_ticket ws actor a i t target w).2
  | Op_unassign_ticket ws actor a i t w :
      w_tickets w !! i = Some t → ticket_op w (unassign_ticket ws actor a i w).2
  | Op_change_ticket_status ws actor a i t new w :
      w_tickets w !! i = Some t → ticket_op w (change_ticket_status ws actor a i t new w).2
  | Op_agent_update ws i t actor priority status note w :
      w_tickets w !! i = Some t →
      ticket_op w (apply_agent_ticket_update ws i t actor priority status note w).2.

Lemma ticket_op_rel w w' : ticket_op w w' → ticket_rel w w'.
Proof.
  destruct 1.
  - apply create_ticket_rel.
  - by apply update_ticket_rel.
  - by apply assign_ticket_rel.
  - by eapply unassign_ticket_rel.
  - by apply change_ticket_status_rel.
  - by apply agent_update_rel.
Qed.

Lemma ticket_ops_wf w w' : rtc ticket_op w w' → tickets_wf w → tickets_wf w'.
Proof. induction 1 as [|w1 w2 w3 Hop _ IH]; [done|]. intros Hwf. by apply IH, (ticket_op_rel w1 w2). Qed.

(** C39. At every step of any sequence of ticket services, each on an object that is up
    to date, a ticket stays, with its workspace, customer and conversation, and its status
    is what it was or makes one move: a resolved ticket does not become pending, and a
    closed one is only reopened (so it is never resolved without being reopened first).
    Before and after each step a ticket has a resolution time exactly while it is
    resolved, whether staff or an agent made the change. *)
Theorem tickets_follow_transitions w w1 w2 :
  tickets_wf w → rtc ticket_op w w1 → ticket_op w1 w2 →
  tickets_wf w1 ∧ tickets_wf w2 ∧
  ∀ i t, w_tickets w1 !! i = Some t → ∃ t', w_tickets w2 !! i = Some t' ∧
    tk_workspace t' = tk_workspace t ∧ tk_customer t' = tk_customer t ∧
    tk_conversation t' = tk_conversation t ∧
    (tk_status t' = tk_status t ∨ may_move (tk_status t) (tk_status t')).
Proof.
  intros Hwf Hops Hop. pose proof (ticket_ops_wf w w1 Hops Hwf) as Hwf1.
  destruct (ticket_op_rel w1 w2 Hop Hwf1) as [Hwf2 Hs]. split_and!; [done..|].
  intros i t Hi. destruct (Hs i t Hi) as (t' & Hi' & ? & ? & ? & ? & _). by exists t'.
Qed.
End TicketLife.

(** ** The life of a handoff *)

(** What the services may make of a handoff: its facts never change, and once it
    is resolved or cancelled neither does anything else. *)
Definition handoff_evolves (h h' : HumanHandoff) : Prop :=
  h' = h ∨
  handoff_active h = true ∧
  ho_status h' ≠ HumanHandoffStatus.PENDING ∧
  ho_workspace h' = ho_workspace h ∧ ho_conversation h' = ho_conversation h ∧
  ho_agent_run h' = ho_agent_run h ∧ ho_ticket h' = ho_ticket h ∧
  ho_reason_code h' = ho_reason_code h ∧ ho_safe_summary h' = ho_safe_summary h.

#[export] Instance handoff_evolves_preorder : PreOrder handoff_evolves.
Proof.
  split; [by left|]. intros h1 h2 h3 [->|(?&?&?&?&?&?&?&?)] [->|(?&?&?&?&?&?&?&?)];
    [by left|by right; split_and!..|].
  right. split_and!; congruence.
Qed.

Definition handoffs_wf (w : World) : Prop :=
  unique handoff_clash (w_handoffs w) ∧
  ∀ i h, w_handoffs w !! i = Some h → (i < w_next w)%N.

Definition handoff_rel (w w' : World) : Prop :=
  handoffs_wf w → handoffs_wf w' ∧
  ∀ i h, w_handoffs w !! i = Some h → ∃ h', w_handoffs w' !! i = Some h' ∧ handoff_evolves h h'.

#[export] Instance handoff_rel_preorder : PreOrder handoff_rel.
Proof.
  split.
  - intros w Hwf. split; [done|]. intros i h Hi. exists h. split; [done|reflexivity].
  - intros w1 w2 w3 H12 H23 Hwf. destruct (H12 Hwf) as [Hwf2 Hs]. destruct (H23 Hwf2) as [Hwf3 Hs'].
    split; [done|]. intros i h Hi. destruct (Hs i h Hi) as (h2 & Hi2 & He).
    destruct (Hs' i h2 Hi2) as (h3 & Hi3 & He'). exists h3. split; [done|by etrans].
Qed.

Lemma handoff_clash_sym a b : handoff_clash a b = handoff_clash b a.
Proof.
  unfold handoff_clash. rewrite (andb_comm (handoff_active b)). f_equal. by apply bool_decide_ext.
Qed.

(** A world with the same handoffs. *)
Lemma handoffs_untouched w w' :
  w_handoffs w' = w_handoffs w → (w_next w <= w_next w')%N → handoff_rel w w'.
Proof.
  intros Hh Hn [Hu Hlt]. unfold handoffs_wf. rewrite Hh. split_and!; [done| |].
  - intros i h Hi. specialize (Hlt i h Hi). lia.
  - intros i h Hi. exists h. split; [done|reflexivity].
Qed.

(** Writing a handoff that clashes with no other. *)
Lemma write_handoff w i h :
  (handoffs_wf w → clashes handoff_clash i h w = false) →
  (handoffs_wf w → (i < w_next w)%N) →
  (∀ old, w_handoffs w !! i = Some old → handoff_evolves old h) →
  handoff_rel w {| w with w_handoffs := <[i := h]> (w_handoffs w) |}.
Proof.
  intros Hc Hi He Hwf. specialize (Hc Hwf). specialize (Hi Hwf). destruct Hwf as [Hu Hlt].
  split; [split|]; simpl.
  - exact (unique_insert handoff_clash handoff_clash_sym i h w Hu Hc).
  - intros j r [[<- <-]|[_ Hj]]%lookup_insert_Some; [done|by eapply Hlt].
  - intros j r Hj. destruct (decide (i = j)) as [<-|Hne].
    + rewrite lookup_insert_eq. exists h. split; [done|by apply He].
    + rewrite lookup_insert_ne by done. exists r. split; [done|reflexivity].
Qed.

(** Only the active handoff of a conversation can clash. *)
Lemma step_clashes_not w i old h :
  handoffs_wf w → w_handoffs w !! i = Some old → handoff_active old = true →
  ho_conversation h = ho_conversation old → clashes handoff_clash i h w = false.
Proof.
  intros [Hu _] Hi Ha Hc. apply clashes_false. intros j q Hj Hne.
  assert (handoff_clash old q = false) as Hq by (apply (Hu i j); done).
  revert Hq. unfold handoff_clash. rewrite Hc, Ha.
  destruct (bool_decide _); [|done]. simpl. intros ->. by rewrite andb_false_r.
Qed.

Lemma step_handoff w i old h :
  w_handoffs w !! i = Some old → handoff_active old = true → handoff_evolves old h →
  ho_conversation h = ho_conversation old →
  handoff_rel w {| w with w_handoffs := <[i := h]> (w_handoffs w) |}.
Proof.
  intros Hi Ha He Hc. apply write_handoff.
  - intros Hwf. by eapply step_clashes_not.
  - intros [_ Hlt]. by eapply Hlt.
  - intros old'. rewrite Hi. by intros [= <-].
Qed.

Section HandoffLife.
Context `{Settings} `{PyLib} `{Network}.

Lemma handoff_audit_rel a tt ti ac ws md w :
  wp (record_event a tt ti ac ws md) (λ _, handoff_rel w) w.
Proof. apply wp_record_event. by apply handoffs_untouched. Qed.

Lemma emit_event_rel ws event_type data version w :
  wp (emit_event ws event_type data version) (λ _, handoff_rel w) w.
Proof.
  destruct (emit_event_effect ws event_type data version w) as (n & e & d & x & ids & Hn & Hw).
  unfold wp. rewrite Hw. by apply handoffs_untouched.
Qed.

Lemma insert_handoff_rel w h :
  clashes handoff_clash (w_next w) h {| w with w_next := N.succ (w_next w) |} = false →
  handoff_rel w {| w with w_next := N.succ (w_next w);
                          w_handoffs := <[w_next w := h]> (w_handoffs w) |}.
Proof.
  intros Hc Hwf.
  assert (Hw1 : handoff_rel w {| w with w_next := N.succ (w_next w) |})
    by (apply handoffs_untouched; simpl; [done|lia]).
  refine ((_ : handoff_rel w _) Hwf). etrans; [exact Hw1|].
  apply (write_handoff {| w with w_next := N.succ (w_next w) |}); simpl; [done|lia|].
  intros old Hold. destruct Hwf as [_ Hlt]. specialize (Hlt _ _ Hold). lia.
Qed.

Lemma insert_handoff_included row : included handoff_rel (insert_handoff row).
Proof.
  apply included_of_wp. intros w. unfold insert_handoff. apply wp_bind, wp_fresh. wp_beta.
  apply wp_bind, wp_save_unique. destruct (clashes _ _ _ _) eqn:Hc; wp_beta.
  - apply handoffs_untouched; simpl; [done|lia].
  - exact (insert_handoff_rel w row Hc).
Qed.

Lemma handoff_audit_included a tt ti ac ws md :
  included handoff_rel (record_event a tt ti ac ws md).
Proof. intros w. apply handoff_audit_rel. Qed.

Lemma emit_event_included ws event_type data version :
  included handoff_rel (emit_event ws event_type data version).
Proof. intros w. apply emit_event_rel. Qed.

Hint Resolve insert_handoff_included handoff_audit_included emit_event_included : included.

Lemma create_or_reuse_handoff_included ws cid c reason summary run ticket :
  included handoff_rel (create_or_reuse_handoff ws cid c reason summary run ticket).
Proof. unfold create_or_reuse_handoff, first_row, get_where. included_steps. Qed.

(** A step on the locked row, followed by its audit event. *)
Lemma step_then_audit i old h a tt ti ac ws md w :
  w_handoffs w !! i = Some old → handoff_active old = true →
  ho_status h ≠ HumanHandoffStatus.PENDING →
  (ho_workspace h = ho_workspace old ∧ ho_conversation h = ho_conversation old ∧
   ho_agent_run h = ho_agent_run old ∧ ho_ticket h = ho_ticket old ∧
   ho_reason_code h = ho_reason_code old ∧ ho_safe_summary h = ho_safe_summary old) →
  wp (record_event a tt ti ac ws md) (λ _, handoff_rel w)
    {| w with w_handoffs := <[i := h]> (w_handoffs w) |}.
Proof.
  intros Hi Ha Hs Hsame. apply wp_record_event. etrans.
  - apply (step_handoff w i old h Hi Ha); [by right|by destruct Hsame as (_ & ? & _)].
  - by apply handoffs_untouched.
Qed.

Lemma assign_handoff_included ws actor a i target :
  included handoff_rel (assign_handoff ws actor a i target).
Proof.
  apply included_of_wp. intros w. unfold assign_handoff. apply wp_atomic_rel; [apply _|].
  repeat svc_step; try reflexivity. apply wp_save_unique.
  destruct (clashes _ _ _ _); wp_beta; [reflexivity|]. apply negb_false_iff in Heqb1.
  by apply (step_then_audit i h).
Qed.

Lemma resolve_handoff_included ws actor a i :
  included handoff_rel (resolve_handoff ws actor a i).
Proof.
  apply included_of_wp. intros w. unfold resolve_handoff. apply wp_atomic_rel; [apply _|].
  repeat svc_step; try reflexivity. apply negb_false_iff in Heqb0.
  by apply (step_then_audit i h).
Qed.

(** The loop over the rows a query selected: none of them has changed before its turn. *)
Lemma cancel_loop_rel reason l w :
  NoDup l.*1 →
  (∀ x, x ∈ l → w_handoffs w !! x.1 = Some x.2 ∧ handoff_active x.2 = true) →
  wp (for_each l (cancel_handoff reason)) (λ _, handoff_rel w) w.
Proof.
  revert w. induction l as [|[i h] l IH]; intros w Hnd Hl; [by apply wp_ret|].
  apply NoDup_cons in Hnd as [Hi Hnd]. simpl in Hi.
  destruct (Hl (i, h)) as [Hrow Ha]; [left|]. simpl in Hrow, Ha.
  simpl. apply wp_bind. unfold cancel_handoff at 1. repeat svc_step.
  eapply wp_mono; [apply IH; [done|]|].
  - intros [j r] Hj. destruct (Hl (j, r)) as [Hr Har]; [by right|]. split; [|done]. simpl.
    rewrite lookup_insert_ne; [done|]. intros <-. apply Hi, list_elem_of_fmap. by exists (i, r).
  - intros r w' Hw'. etrans; [|exact Hw']. etrans.
    + apply (step_handoff w i h (cancelled_handoff h) Hrow Ha); [by right|done].
    + by apply handoffs_untouched.
Qed.

Lemma cancel_handoffs_for_run_included run_id reason :
  included handoff_rel (cancel_handoffs_for_run run_id reason).
Proof.
  apply included_of_wp. intros w. unfold cancel_handoffs_for_run.
  apply wp_atomic_rel; [apply _|]. repeat svc_step.
  apply cancel_loop_rel; [apply select_rows_nodup|]. intros [i h] [Hi Hp]%in_select_rows.
  split; [done|]. by apply andb_true_iff in Hp as [_ ?].
Qed.

(** Every handoff service. *)
Inductive handoff_op : World → World → Prop :=
  | Op_create_or_reuse_handoff ws cid c reason summary run ticket w :
      handoff_op w (create_or_reuse_handoff ws cid c reason summary run ticket w).2
  | Op_assign_handoff ws actor a i target w :
      handoff_op w (assign_handoff ws actor a i target w).2
  | Op_resolve_handoff ws actor a i w : handoff_op w (resolve_handoff ws actor a i w).2
  | Op_cancel_handoffs_for_run run_id reason w :
      handoff_op w (cancel_handoffs_for_run run_id reason w).2.

Lemma handoff_op_rel w w' : handoff_op w w' → handoff_rel w w'.
Proof.
  destruct 1.
  - apply create_or_reuse_handoff_included.
  - apply assign_handoff_included.
  - apply resolve_handoff_included.
  - apply cancel_handoffs_for_run_included.
Qed.

(** Over any sequence of handoff services a conversation has at most one active
    handoff; the workspace, conversation, run, ticket, reason and summary of a
    handoff never change, it never goes back to pending, and once it is resolved or
    cancelled it never changes again. *)
Theorem one_active_handoff w w' :
  rtc handoff_op w w' → handoffs_wf w →
  handoffs_wf w' ∧
  ∀ i h, w_handoffs w !! i = Some h → ∃ h', w_handoffs w' !! i = Some h' ∧ handoff_evolves h h'.
Proof.
  intros Hops. change (handoff_rel w w'). induction Hops; [reflexivity|].
  etrans; [by apply handoff_op_rel|done].
Qed.
End HandoffLife.

Module TicketExamples.
#[local] Existing Instance default_settings.
#[local] Existing Instance trivial_pylib.
#[local] Instance net : Network := example_network 200.

Definition manager : Actor :=
  (3%N, {| mb_workspace := 1; mb_user := 10; mb_role := WorkspaceRole.SUPPORT_MANAGER;
           mb_is_active := true |}).
Definition opened : Ticket :=
  {| tk_workspace := 1; tk_customer := 2; tk_conversation := None; tk_subject := "Refund";
     tk_description := ""; tk_status := TicketStatus.OPEN; tk_priority := TicketPriority.NORMAL;
     tk_assigned_to := None; tk_due_at := None; tk_resolved_at := None;
     tk_metadata := JObj [] |}.
Definition pending : HumanHandoff :=
  new_handoff 1 6 HumanHandoffReason.CUSTOMER_REQUESTED "Wants a person" (Some 9%N) None.
Definition world : World :=
  let w := empty_world in
  {| w with w_next := 20; w_tickets := {[4%N := opened]}; w_handoffs := {[5%N := pending]} |}.

Definition resolved : World :=
  (change_ticket_status 1 10 manager 4 opened TicketStatus.RESOLVED world).2.

Definition the_resolved : Ticket :=
  default opened (w_tickets resolved !! 4%N).
Definition reopened : World :=
  (change_ticket_status 1 10 manager 4 the_resolved TicketStatus.OPEN resolved).2.

(** A manager resolves the ticket and reopens it. *)
Lemma tickets_follow_transitions_witness :
  tickets_wf reopened ∧
  tk_status <$> w_tickets resolved !! 4%N = Some TicketStatus.RESOLVED ∧
  tk_status <$> w_tickets reopened !! 4%N = Some TicketStatus.OPEN.
Proof.
  assert (Hops : rtc ticket_op world resolved).
  { apply rtc_once. exact (Op_change_ticket_status 1 10 manager 4 opened TicketStatus.RESOLVED
      world eq_refl). }
  assert (Hwf : tickets_wf world).
  { intros i t Hi. simpl in Hi. apply lookup_singleton_Some in Hi as [<- <-].
    split; [simpl; lia|]. split; [discriminate|by intros [? [=]]]. }
  assert (Hop : ticket_op resolved reopened).
  { exact (Op_change_ticket_status 1 10 manager 4 the_resolved TicketStatus.OPEN
      resolved ltac:(vm_compute; reflexivity)). }
  split; [exact (proj1 (proj2 (tickets_follow_transitions world resolved reopened Hwf Hops Hop)))|
          vm_compute; split; reflexivity].
Defined.

(** The run the handoff came from is cancelled. *)
Definition cancelled : World := (cancel_handoffs_for_run 9 "run_cancelled" world).2.

Lemma one_active_handoff_witness :
  handoffs_wf cancelled ∧
  ho_status <$> w_handoffs cancelled !! 5%N = Some HumanHandoffStatus.CANCELLED.
Proof.
  assert (Hops : rtc handoff_op world cancelled)
    by (apply rtc_once; exact (Op_cancel_handoffs_for_run 9 "run_cancelled" world)).
  assert (Hwf : handoffs_wf world).
  { split.
    - intros i j a b Hne Hi Hj. simpl in *. apply lookup_singleton_Some in Hi as [<- _].
      apply lookup_singleton_Some in Hj as [<- _]. done.
    - intros i h Hi. simpl in Hi. apply lookup_singleton_Some in Hi as [<- _]. simpl. lia. }
  split; [exact (proj1 (one_active_handoff world cancelled Hops Hwf))|vm_compute; reflexivity].
Defined.
End TicketExamples.
