(* ===== verification/IntegrationTools.v ===== *)
(** * The tools

    [integrations/tools.py], [tools/demo_tools.py] and [tools/registry.py]: the tools
    the back end registers, each a document in, a handler, and a document out.  A
    handler takes its workspace and its actor from the execution's context, never from
    its arguments, and reaches a provider through [Integrations] only. *)

From stdpp Require Import base gmap strings list pretty.
From Stdlib Require Import ZArith SpecFloat Lia.
From S2P Require Import Prelude Json Domain Policy Models Store Network Schemas Adapters Integrations Notifications ToolExec Tickets.

(** [UUID(text)] as a key; a text that is not one is a [ValueError]. *)
Class KeyLib := { uuid_of_text : string → option N }.
(** [str(pk)] reads back as the key. *)
Definition texts_read_back `{KeyLib} : Prop := ∀ i : N, uuid_of_text (pretty i) = Some i.

Section Tools.
Context `{Settings} `{PyLib} `{Network} `{Pydantic} `{Vendors} `{KeyLib}.

Definition MAX_TEXT_LENGTH : nat := Z.to_nat 5000.

(** ** Errors *)

(** [IntegrationToolError(error)]. *)
Definition integration_tool_error (cls : IntegrationErr.t) (message : string) : exn :=
  ToolExc (ToolErr.Handler (IntegrationErr.code cls)) message.
Definition tool_error_of (cls : IntegrationErr.t) : exn :=
  integration_tool_error cls (IntegrationErr.safe_message cls).

(** [except IntegrationError as exc: raise IntegrationToolError(exc) from exc]. *)
Definition as_tool_error {A} (m : service A) : service A :=
  catch m (λ e, match e with
                | IntegrationExc cls message => raise (integration_tool_error cls message)
                | e => raise e
                end).

Definition WRITE_RETRYABLE_CODES : list string :=
  map IntegrationErr.code [IntegrationErr.RateLimited; IntegrationErr.TemporarilyUnavailable].
Definition READ_RETRYABLE_CODES : list string :=
  map IntegrationErr.code
    [IntegrationErr.RateLimited; IntegrationErr.TemporarilyUnavailable; IntegrationErr.Timeout].
Definition CALENDAR_AMBIGUOUS_OUTCOME_CODES : list string :=
  [IntegrationErr.code IntegrationErr.Timeout; IntegrationErr.code IntegrationErr.MalformedResponse;
   ToolErr.code ToolErr.Timeout].

(** ** The context *)

Definition require_workspace (context : ToolExecutionContext) : service N :=
  (get_row (A := Workspace) (tx_workspace context));;
  mret (tx_workspace context).

Definition remaining_seconds (context : ToolExecutionContext) : service spec_float :=
  now ← get_now;
  mret (py_max (total_seconds (tx_deadline context - now)) half_second).

(** [User.objects.filter(pk=...).first()]. *)
Definition actor_of (context : ToolExecutionContext) : service (option N) :=
  match tx_actor_user context with
  | None => mret None
  | Some i => user ← find_row (A := User) i; mret (match user with Some _ => Some i | None => None end)
  end.

(** ** Arguments and results

    A handler is given an instance of its input model; here it reads the dump of it. *)

Definition arg_str (arguments : document) (k : string) : string :=
  match args_get arguments k with JStr s => s | _ => "" end.
Definition arg_opt_str (arguments : document) (k : string) : option string :=
  match args_get arguments k with JStr s => Some s | _ => None end.
Definition arg_int (arguments : document) (k : string) : Z :=
  match args_get arguments k with JInt z => z | _ => 0%Z end.
Definition arg_datetime (arguments : document) (k : string) : moment :=
  default (utc 0) (pydantic_datetime (args_get arguments k)).

(** Constructing the output model, which validates what it is given. *)
Definition returns (output : list field) (values : document) : service handler_outcome :=
  match validate_model output (JObj values) with
  | Some dump => mret (Returned (Instance (JObj dump)))
  | None => raise PydanticValidationError
  end.

Definition json_opt_str (s : option string) : json :=
  match s with Some s => JStr s | None => JNull end.
Definition json_datetime (m : moment) : json := JStr (dump_datetime m).
Definition json_opt_datetime (m : option moment) : json :=
  match m with Some m => json_datetime m | None => JNull end.

Record ToolParts := {
  p_key : string;
  p_display_name : string;
  p_description : string;
  p_input : string * (json → option document);
  p_output : list field;
  p_risk : RiskLevel.t * SideEffectType.t;
  p_timeouts : Z * Z;
  p_retry : RetryPolicy;
  p_idempotency : IdempotencyMode.t;
  p_handler : ToolHandler;
}.

(** [Tool(spec=ToolSpec(...), handler=...)]. *)
Definition make_tool (p : ToolParts) : Tool := {|
  spec := {|
    ts_key := p_key p; ts_display_name := p_display_name p; ts_description := p_description p;
    ts_input_schema := model_json_schema (p_input p).1; input_model := (p_input p).2;
    output_model v := JObj <$> validate_model (p_output p) v;
    ts_risk_level := (p_risk p).1; ts_side_effect_type := (p_risk p).2;
    default_timeout := seconds (p_timeouts p).1; max_timeout := seconds (p_timeouts p).2;
    retry_policy := p_retry p; ts_idempotency_mode := p_idempotency p;
    input_sensitive_fields := []; output_sensitive_fields := [];
    ts_enabled := true |};
  handler := p_handler p |}.

Definition no_retries : RetryPolicy :=
  {| max_retries := 0; retryable_error_codes := []; ambiguous_outcome_error_codes := [] |}.
Definition two_retries (codes : list string) : RetryPolicy :=
  {| max_retries := 2; retryable_error_codes := codes; ambiguous_outcome_error_codes := [] |}.

(** ** Selectors ([customers/selectors.py], [tickets/selectors.py]) *)

Definition customer_in (workspace : N) (P : N → Customer → bool) (i : N) (c : Customer) : bool :=
  bool_decide (cu_workspace c = workspace) && P i c.

Definition customer_get_by_id_for_workspace (workspace : N) (customer_id : string)
    : service (option (N * Customer)) :=
  if String.eqb customer_id "" then mret None
  else match uuid_of_text customer_id with
       | None => mret None
       | Some pk => first_row (customer_in workspace (λ i _, bool_decide (i = pk)))
       end.

Definition customer_get_by_email_for_workspace (workspace : N) (email : string)
    : service (option (N * Customer)) :=
  let email := str_lower (str_strip email) in
  first_row (customer_in workspace (λ _ c, bool_decide (cu_email c = Some email))).

Definition customer_get_by_external_id_for_workspace (workspace : N) (external_id : string)
    : service (option (N * Customer)) :=
  first_row (customer_in workspace (λ _ c, bool_decide (cu_external_id c = Some external_id))).

Definition ticket_get_by_id_for_workspace (workspace : N) (ticket_id : string)
    : service (option (N * Ticket)) :=
  if String.eqb ticket_id "" then mret None
  else match uuid_of_text ticket_id with
       | None => mret None
       | Some pk => first_row (λ i t, bool_decide (tk_workspace t = workspace) && bool_decide (i = pk))
       end.

(** ** [customer.lookup] *)

Definition CustomerLookupInput : list field :=
  [optional "customer_id" JNull (check_optional (check_str 0 64));
   optional "email" JNull (check_optional check_email);
   optional "external_reference" JNull (check_optional (check_str 0 255))].

Definition exactly_one_identifier (data : document) : bool :=
  (List.length (List.filter (λ k, negb (falsy (args_get data k)))
     ["customer_id"; "email"; "external_reference"]) =? 1)%nat.

Definition CustomerLookupOutput : list field :=
  [required "customer_id" check_text; required "display_name" check_text;
   required "email" (check_optional check_text); required "company" check_text;
   required "is_active" check_bool; required "external_reference" (check_optional check_text)].

(** [v] when it is given and not empty. *)
Definition given (v : option string) : option string :=
  match v with Some s => if String.eqb s "" then None else Some s | None => None end.

Definition customer_lookup_handler : ToolHandler := λ context arguments,
  workspace ← require_workspace context;
  customer ←
    match given (arg_opt_str arguments "customer_id"), given (arg_opt_str arguments "email") with
    | Some customer_id, _ => customer_get_by_id_for_workspace workspace customer_id
    | None, Some email => customer_get_by_email_for_workspace workspace email
    | None, None =>
        customer_get_by_external_id_for_workspace workspace
          (arg_str arguments "external_reference")
    end;
  match customer with
  | None => raise (tool_error_of IntegrationErr.CustomerNotFound)
  | Some (i, c) =>
      returns CustomerLookupOutput
        [("customer_id", JStr (pretty i)); ("display_name", JStr (cu_display_name c));
         ("email", json_opt_str (cu_email c)); ("company", JStr (cu_company c));
         ("is_active", JBool (cu_is_active c));
         ("external_reference", json_opt_str (cu_external_id c))]
  end.

Definition CUSTOMER_LOOKUP_TOOL : Tool := make_tool {|
  p_key := "customer.lookup"; p_display_name := "Customer lookup";
  p_description := "Look up a workspace customer by ID, email, or external reference.";
  p_input := ("CustomerLookupInput", validate_with CustomerLookupInput exactly_one_identifier);
  p_output := CustomerLookupOutput; p_risk := (RiskLevel.READ_ONLY, SideEffectType.READ);
  p_idempotency := IdempotencyMode.SAFE; p_timeouts := (5, 10)%Z; p_retry := no_retries;
  p_handler := customer_lookup_handler |}.

(** ** [order.lookup] and [shipment.lookup] *)

Definition OrderLookupInput : list field := [required "order_reference" (check_str 1 128)].
Definition OrderLookupOutput : list field :=
  [required "order_id" check_text; required "external_order_id" check_text;
   required "status" check_text; required "created_at" check_datetime;
   required "amount_minor" (check_int None None); required "currency" check_text;
   required "shipment_status" (check_optional check_text);
   required "tracking_reference" (check_optional check_text)].

Definition order_lookup_handler : ToolHandler := λ context arguments,
  workspace ← require_workspace context;
  order ← as_tool_error (
    remaining ← remaining_seconds context;
    get_order workspace remaining (arg_str arguments "order_reference"));
  returns OrderLookupOutput
    [("order_id", JStr (no_order_id order)); ("external_order_id", JStr (no_external_order_id order));
     ("status", no_status order); ("created_at", json_datetime (no_created_at order));
     ("amount_minor", JInt (no_amount_minor order)); ("currency", JStr (no_currency order));
     ("shipment_status", no_shipment_status order);
     ("tracking_reference", no_tracking_reference order)].

Definition ORDER_LOOKUP_TOOL : Tool := make_tool {|
  p_key := "order.lookup"; p_display_name := "Order lookup";
  p_description := "Look up an order's status, amount, and shipment summary.";
  p_input := ("OrderLookupInput", validate_model OrderLookupInput);
  p_output := OrderLookupOutput; p_risk := (RiskLevel.READ_ONLY, SideEffectType.READ);
  p_idempotency := IdempotencyMode.SAFE; p_timeouts := (8, 15)%Z;
  p_retry := two_retries READ_RETRYABLE_CODES; p_handler := order_lookup_handler |}.

Definition ShipmentLookupInput : list field := [required "shipment_reference" (check_str 1 128)].
Definition ShipmentLookupOutput : list field :=
  [required "shipment_id" check_text; required "order_id" check_text;
   required "status" check_text; required "tracking_reference" (check_optional check_text);
   required "carrier" (check_optional check_text);
   required "estimated_delivery" (check_optional check_datetime)].

Definition shipment_lookup_handler : ToolHandler := λ context arguments,
  workspace ← require_workspace context;
  shipment ← as_tool_error (
    remaining ← remaining_seconds context;
    get_shipment workspace remaining (arg_str arguments "shipment_reference"));
  returns ShipmentLookupOutput
    [("shipment_id", JStr (ns_shipment_id shipment)); ("order_id", ns_order_id shipment);
     ("status", ns_status shipment); ("tracking_reference", ns_tracking_reference shipment);
     ("carrier", ns_carrier shipment);
     ("estimated_delivery", json_opt_datetime (ns_estimated_delivery shipment))].

Definition SHIPMENT_LOOKUP_TOOL : Tool := make_tool {|
  p_key := "shipment.lookup"; p_display_name := "Shipment lookup";
  p_description := "Look up a shipment's tracking status and carrier.";
  p_input := ("ShipmentLookupInput", validate_model ShipmentLookupInput);
  p_output := ShipmentLookupOutput; p_risk := (RiskLevel.READ_ONLY, SideEffectType.READ);
  p_idempotency := IdempotencyMode.SAFE; p_timeouts := (8, 15)%Z;
  p_retry := two_retries READ_RETRYABLE_CODES; p_handler := shipment_lookup_handler |}.

(** ** [payment.lookup] and [payment.refund] *)

Definition PaymentLookupInput : list field := [required "payment_reference" (check_str 1 128)].
Definition PaymentLookupOutput : list field :=
  [required "payment_id" check_text; required "external_payment_id" check_text;
   required "status" check_text; required "amount_minor" (check_int None None);
   required "currency" check_text; required "created_at" check_datetime;
   required "refunded_amount_minor" (check_int None None)].

Definition payment_lookup_handler : ToolHandler := λ context arguments,
  workspace ← require_workspace context;
  payment ← as_tool_error (
    remaining ← remaining_seconds context;
    get_payment workspace remaining (arg_str arguments "payment_reference"));
  returns PaymentLookupOutput
    [("payment_id", JStr (np_payment_id payment));
     ("external_payment_id", JStr (np_external_payment_id payment));
     ("status", JStr (np_status payment)); ("amount_minor", JInt (np_amount_minor payment));
     ("currency", JStr (np_currency payment));
     ("created_at", json_datetime (np_created_at payment));
     ("refunded_amount_minor", JInt (np_refunded_amount_minor payment))].

Definition PAYMENT_LOOKUP_TOOL : Tool := make_tool {|
  p_key := "payment.lookup"; p_display_name := "Payment lookup";
  p_description := "Look up a payment's status and refunded amount.";
  p_input := ("PaymentLookupInput", validate_model PaymentLookupInput);
  p_output := PaymentLookupOutput; p_risk := (RiskLevel.READ_ONLY, SideEffectType.READ);
  p_idempotency := IdempotencyMode.SAFE; p_timeouts := (8, 15)%Z;
  p_retry := two_retries READ_RETRYABLE_CODES; p_handler := payment_lookup_handler |}.

(** [str] of three characters, then [value.upper()]. *)
Definition check_currency (v : json) : option json :=
  match check_str 3 3 v with Some (JStr s) => Some (JStr (str_upper s)) | _ => None end.

Definition PaymentRefundInput : list field :=
  [required "payment_reference" (check_str 1 128);
   required "amount_minor" (check_int (Some 1%Z) (Some 100000000%Z));
   required "currency" check_currency;
   optional "reason" (JStr "requested_by_customer") (check_str 0 200)].
Definition PaymentRefundOutput : list field :=
  [required "refund_id" check_text; required "payment_id" check_text;
   required "status" check_text; required "amount_minor" (check_int None None);
   required "currency" check_text; required "created_at" check_datetime].

(** The same for every attempt of one execution. *)
Definition refund_key (context : ToolExecutionContext) : string :=
  "payment.refund:" +:+ pretty (tx_tool_execution context).

Definition payment_refund_handler : ToolHandler := λ context arguments,
  workspace ← require_workspace context;
  refund ← as_tool_error (
    remaining ← remaining_seconds context;
    refund_payment workspace remaining (arg_str arguments "payment_reference")
      (arg_int arguments "amount_minor") (arg_str arguments "currency")
      (arg_str arguments "reason") (refund_key context));
  actor ← actor_of context;
  record_event_on "payment.refund_executed" "payment" (nr_payment_id refund) actor
    (Some workspace)
    [("tool_execution_id", JStr (pretty (tx_tool_execution context)));
     ("agent_run_id", JStr (pretty (tx_agent_run context)));
     ("refund_id", JStr (nr_refund_id refund)); ("amount_minor", JInt (nr_amount_minor refund));
     ("currency", JStr (nr_currency refund))];;
  returns PaymentRefundOutput
    [("refund_id", JStr (nr_refund_id refund)); ("payment_id", JStr (nr_payment_id refund));
     ("status", JStr (nr_status refund)); ("amount_minor", JInt (nr_amount_minor refund));
     ("currency", JStr (nr_currency refund));
     ("created_at", json_datetime (nr_created_at refund))].

Definition PAYMENT_REFUND_TOOL : Tool := make_tool {|
  p_key := "payment.refund"; p_display_name := "Payment refund";
  p_description := "Execute a sandbox refund against a payment. Phase 7 proves execution mechanics only; deterministic authorization policy and human approval gates are added in Phase 8 — do not treat a successful call here as a business decision that this refund was permitted.";
  p_input := ("PaymentRefundInput", validate_model PaymentRefundInput);
  p_output := PaymentRefundOutput; p_risk := (RiskLevel.CRITICAL, SideEffectType.FINANCIAL);
  p_idempotency := IdempotencyMode.REQUIRED; p_timeouts := (10, 15)%Z;
  p_retry := two_retries WRITE_RETRYABLE_CODES; p_handler := payment_refund_handler |}.

(** ** [calendar.check_availability] and [calendar.create_booking] *)

(** [_require_tz_aware_range]. *)
Definition aware_range (data : document) : bool :=
  let first := arg_datetime data "start" in
  let last := arg_datetime data "end" in
  aware first && aware last && (mo_micros first <? mo_micros last)%Z.

Definition CalendarAvailabilityInput : list field :=
  [required "start" check_datetime; required "end" check_datetime].

(** [CalendarAvailabilityOutput], whose slots are each an [AvailabilitySlotOutput]. *)
Definition AvailabilitySlotOutput : list field :=
  [required "start" check_datetime; required "end" check_datetime].
Definition check_slots (v : json) : option json :=
  match v with
  | JList slots =>
      JList <$> mapM (λ slot, JObj <$> validate_model AvailabilitySlotOutput slot) slots
  | _ => None
  end.
Definition CalendarAvailabilityOutput : list field := [required "slots" check_slots].

Definition day : Z := seconds 86400.
Definition within_scheduling_horizon (m : moment) : service bool :=
  now ← get_now;
  mret (mo_micros m <=? now + INTEGRATIONS_CALENDAR_MAX_HORIZON_DAYS * day)%Z.

Definition calendar_availability_handler : ToolHandler := λ context arguments,
  workspace ← require_workspace context;
  let first := arg_datetime arguments "start" in
  let last := arg_datetime arguments "end" in
  near ← within_scheduling_horizon first;
  raise_if (negb near)
    (integration_tool_error IntegrationErr.InvalidRequest
       "Requested window exceeds the scheduling horizon.");;
  slots ← as_tool_error (
    remaining ← remaining_seconds context;
    get_availability workspace remaining first last);
  returns CalendarAvailabilityOutput
    [("slots", JList (map (λ slot, JObj [("start", json_datetime (slot_start slot));
                                         ("end", json_datetime (slot_end slot))]) slots))].

Definition CALENDAR_AVAILABILITY_TOOL : Tool := make_tool {|
  p_key := "calendar.check_availability"; p_display_name := "Calendar availability";
  p_description := "Check free/busy availability for a bounded time window.";
  p_input := ("CalendarAvailabilityInput", validate_with CalendarAvailabilityInput aware_range);
  p_output := CalendarAvailabilityOutput; p_risk := (RiskLevel.READ_ONLY, SideEffectType.READ);
  p_idempotency := IdempotencyMode.SAFE; p_timeouts := (8, 15)%Z;
  p_retry := two_retries READ_RETRYABLE_CODES; p_handler := calendar_availability_handler |}.

Definition CalendarBookingInput : list field :=
  [required "start" check_datetime; required "end" check_datetime;
   required "title" (check_str 1 200); required "customer_id" (check_str 1 64)].
Definition CalendarBookingOutput : list field :=
  [required "booking_id" check_text; required "external_event_id" check_text;
   required "start" check_datetime; required "end" check_datetime;
   required "status" check_text].

Definition booking_key (context : ToolExecutionContext) : string :=
  "calendar.create_booking:" +:+ pretty (tx_tool_execution context).

Definition calendar_booking_handler : ToolHandler := λ context arguments,
  workspace ← require_workspace context;
  let first := arg_datetime arguments "start" in
  let last := arg_datetime arguments "end" in
  let title := arg_str arguments "title" in
  near ← within_scheduling_horizon first;
  raise_if (negb near)
    (integration_tool_error IntegrationErr.InvalidRequest
       "Requested time exceeds the scheduling horizon.");;
  raise_if (INTEGRATIONS_CALENDAR_MAX_TITLE_LENGTH <? String.length title)%nat
    (integration_tool_error IntegrationErr.InvalidRequest "Title is too long.");;
  customer ← customer_get_by_id_for_workspace workspace (arg_str arguments "customer_id");
  customer ← or_raise customer (tool_error_of IntegrationErr.CustomerNotFound);
  booking ← as_tool_error (
    remaining ← remaining_seconds context;
    create_booking workspace remaining first last title (cu_email customer.2)
      (booking_key context));
  returns CalendarBookingOutput
    [("booking_id", JStr (nb_booking_id booking));
     ("external_event_id", JStr (nb_external_event_id booking));
     ("start", json_datetime (nb_start booking)); ("end", json_datetime (nb_end booking));
     ("status", JStr (nb_status booking))].

Definition CALENDAR_BOOKING_TOOL : Tool := make_tool {|
  p_key := "calendar.create_booking"; p_display_name := "Calendar booking";
  p_description := "Create a calendar booking for a workspace customer.";
  p_input := ("CalendarBookingInput", validate_with CalendarBookingInput aware_range);
  p_output := CalendarBookingOutput; p_risk := (RiskLevel.HIGH, SideEffectType.EXTERNAL_WRITE);
  p_idempotency := IdempotencyMode.REQUIRED; p_timeouts := (10, 15)%Z;
  p_retry := {| max_retries := 2; retryable_error_codes := WRITE_RETRYABLE_CODES;
                ambiguous_outcome_error_codes := CALENDAR_AMBIGUOUS_OUTCOME_CODES |};
  p_handler := calendar_booking_handler |}.

(** ** [ticket.create] and [ticket.update] *)

Definition TicketCreateInput : list field :=
  [required "customer_id" (check_str 1 64); required "subject" (check_str 1 300);
   optional "description" (JStr "") (check_str 0 MAX_TEXT_LENGTH);
   optional "priority" JNull (check_optional (check_choice TicketPriority.labels))].

Definition TicketSummary : list field :=
  [required "ticket_id" check_text; required "status" check_text;
   required "priority" check_text; required "subject" check_text].

(** The summary of a ticket that has just been saved. *)
Definition ticket_summary (ticket_id : N) : service handler_outcome :=
  ticket ← get_row (A := Ticket) ticket_id;
  returns TicketSummary
    [("ticket_id", JStr (pretty ticket_id));
     ("status", JStr (TicketStatus.value (tk_status ticket)));
     ("priority", JStr (TicketPriority.value (tk_priority ticket)));
     ("subject", JStr (tk_subject ticket))].

Definition arg_priority (arguments : document) : option TicketPriority.t :=
  s ← arg_opt_str arguments "priority"; TicketPriority.of_value s.
Definition arg_status (arguments : document) : option TicketStatus.t :=
  s ← arg_opt_str arguments "status"; TicketStatus.of_value s.

Definition ticket_create_handler : ToolHandler := λ context arguments,
  workspace ← require_workspace context;
  customer ← customer_get_by_id_for_workspace workspace (arg_str arguments "customer_id");
  customer ← or_raise customer (tool_error_of IntegrationErr.CustomerNotFound);
  ticket ← create_ticket workspace customer.1 customer.2 (arg_str arguments "subject")
             (arg_str arguments "description") (arg_priority arguments) None None (JObj []);
  ticket_summary ticket.

Definition TICKET_CREATE_TOOL : Tool := make_tool {|
  p_key := "ticket.create"; p_display_name := "Create ticket";
  p_description := "Create a support ticket for a workspace customer.";
  p_input := ("TicketCreateInput", validate_model TicketCreateInput);
  p_output := TicketSummary; p_risk := (RiskLevel.MEDIUM, SideEffectType.INTERNAL_WRITE);
  p_idempotency := IdempotencyMode.REQUIRED; p_timeouts := (5, 10)%Z; p_retry := no_retries;
  p_handler := ticket_create_handler |}.

Definition TicketUpdateInput : list field :=
  [required "ticket_id" (check_str 1 64);
   optional "status" JNull (check_optional (check_choice TicketStatus.labels));
   optional "priority" JNull (check_optional (check_choice TicketPriority.labels));
   optional "note" JNull (check_optional (check_str 0 MAX_TEXT_LENGTH))].

(** The first message of the error: the transition that is refused. *)
Definition transition_message (ticket : Ticket) (status : option TicketStatus.t) : string :=
  "Cannot transition from " +:+ TicketStatus.value (tk_status ticket) +:+ " to "
  +:+ TicketStatus.value (default (tk_status ticket) status) +:+ ".".

Definition ticket_update_handler : ToolHandler := λ context arguments,
  workspace ← require_workspace context;
  ticket ← ticket_get_by_id_for_workspace workspace (arg_str arguments "ticket_id");
  ticket ← or_raise ticket (tool_error_of IntegrationErr.TicketNotFound);
  catch (
    actor ← actor_of context;
    apply_agent_ticket_update workspace ticket.1 ticket.2 actor (arg_priority arguments)
      (arg_status arguments) (arg_opt_str arguments "note"))
    (λ e, match e with
          | ValidationError _ =>
              raise (integration_tool_error IntegrationErr.InvalidRequest
                       (transition_message ticket.2 (arg_status arguments)))
          | e => raise e
          end);;
  ticket_summary ticket.1.

Definition TICKET_UPDATE_TOOL : Tool := make_tool {|
  p_key := "ticket.update"; p_display_name := "Update ticket";
  p_description := "Update a support ticket's status, priority, or add a note.";
  p_input := ("TicketUpdateInput", validate_model TicketUpdateInput);
  p_output := TicketSummary; p_risk := (RiskLevel.MEDIUM, SideEffectType.INTERNAL_WRITE);
  p_idempotency := IdempotencyMode.REQUIRED; p_timeouts := (5, 10)%Z; p_retry := no_retries;
  p_handler := ticket_update_handler |}.

(** ** [notification.send] *)

Definition NotificationSendInput : list field :=
  [required "customer_id" (check_str 1 64); required "subject" (check_str 1 200);
   required "body" (check_str 1 MAX_TEXT_LENGTH)].
Definition NotificationSendOutput : list field :=
  [optional "status" (JStr "queued") check_text; required "delivery_id" check_text].

Definition notification_send_handler : ToolHandler := λ context arguments,
  workspace ← require_workspace context;
  let subject := arg_str arguments "subject" in
  let body := arg_str arguments "body" in
  raise_if (INTEGRATIONS_NOTIFICATION_MAX_SUBJECT_LENGTH <? String.length subject)%nat
    (integration_tool_error IntegrationErr.InvalidRequest "Subject is too long.");;
  raise_if (INTEGRATIONS_NOTIFICATION_MAX_BODY_LENGTH <? String.length body)%nat
    (integration_tool_error IntegrationErr.InvalidRequest "Body is too long.");;
  customer ← customer_get_by_id_for_workspace workspace (arg_str arguments "customer_id");
  customer ← or_raise customer (tool_error_of IntegrationErr.CustomerNotFound);
  email ← or_raise (given (cu_email customer.2))
            (integration_tool_error IntegrationErr.InvalidRequest "Customer has no email on file.");
  (* outside of any [except IntegrationError] *)
  ensure_notification_provider_configured workspace;;
  (get_row (A := ToolExecution) (tx_tool_execution context));;
  notification_delivery ←
    create_or_reuse_notification_delivery (tx_tool_execution context) workspace email subject body;
  returns NotificationSendOutput
    [("delivery_id", JStr (pretty (nd_delivery notification_delivery)))].

Definition NOTIFICATION_SEND_TOOL : Tool := make_tool {|
  p_key := "notification.send"; p_display_name := "Send customer notification";
  p_description := "Send an email notification to a workspace customer.";
  p_input := ("NotificationSendInput", validate_model NotificationSendInput);
  p_output := NotificationSendOutput; p_risk := (RiskLevel.MEDIUM, SideEffectType.EXTERNAL_WRITE);
  p_idempotency := IdempotencyMode.REQUIRED; p_timeouts := (8, 15)%Z;
  p_retry := two_retries WRITE_RETRYABLE_CODES; p_handler := notification_send_handler |}.

Definition ALL_INTEGRATION_TOOLS : list Tool :=
  [CUSTOMER_LOOKUP_TOOL; ORDER_LOOKUP_TOOL; SHIPMENT_LOOKUP_TOOL; PAYMENT_LOOKUP_TOOL;
   PAYMENT_REFUND_TOOL; CALENDAR_AVAILABILITY_TOOL; CALENDAR_BOOKING_TOOL; TICKET_CREATE_TOOL;
   TICKET_UPDATE_TOOL; NOTIFICATION_SEND_TOOL].

(** ** Demonstration tools ([tools/demo_tools.py]) *)

Definition EchoInput : list field := [required "message" (check_str 1 (Z.to_nat 2000))].
Definition EchoOutput : list field := [required "echoed" check_text].

Definition echo_handler : ToolHandler := λ _ arguments,
  returns EchoOutput [("echoed", JStr (arg_str arguments "message"))].

Definition ECHO_TOOL : Tool := make_tool {|
  p_key := "demo.echo"; p_display_name := "Echo";
  p_description :=
    "Deterministically echoes back the provided message. Read-only, no side effects.";
  p_input := ("EchoInput", validate_model EchoInput); p_output := EchoOutput;
  p_risk := (RiskLevel.READ_ONLY, SideEffectType.NONE);
  p_idempotency := IdempotencyMode.SAFE; p_timeouts := (5, 10)%Z; p_retry := no_retries; p_handler := echo_handler |}.

Definition AddInput : list field :=
  [required "a" (check_int (Some (-1000000)%Z) (Some 1000000%Z));
   required "b" (check_int (Some (-1000000)%Z) (Some 1000000%Z))].
Definition AddOutput : list field := [required "sum" (check_int None None)].

Definition add_handler : ToolHandler := λ _ arguments,
  returns AddOutput [("sum", JInt (arg_int arguments "a" + arg_int arguments "b"))].

Definition ADD_TOOL : Tool := make_tool {|
  p_key := "demo.add"; p_display_name := "Add";
  p_description := "Deterministically adds two integers. Read-only, no side effects.";
  p_input := ("AddInput", validate_model AddInput); p_output := AddOutput;
  p_risk := (RiskLevel.READ_ONLY, SideEffectType.NONE);
  p_idempotency := IdempotencyMode.SAFE; p_timeouts := (5, 10)%Z; p_retry := no_retries; p_handler := add_handler |}.

(** [float] between two bounds. *)
Definition check_float (low high : Z) (v : json) : option json :=
  f ← pydantic_float v;
  if SFleb (float_lit low) f && SFleb f (float_lit high) then Some (JFloat f) else None.

Definition FlakyInput : list field :=
  [optional "fail_attempts" (JInt 0) (check_int (Some 0%Z) (Some 5%Z));
   optional "sleep_seconds" (JInt 0) (check_float 0 5)].
Definition FlakyOutput : list field := [required "attempts_before_success" (check_int None None)].

Definition sleep_seconds (arguments : document) : spec_float :=
  default (float_lit 0) (pydantic_float (args_get arguments "sleep_seconds")).

(** [_FLAKY_ATTEMPTS] is an object of the worker's process; a handler that sleeps past
    the deadline is left running. *)
Definition flaky_handler : ToolHandler := λ context arguments,
  counted ← gets (λ w, default 0%N (w_flaky_attempts w !! tx_tool_execution context));
  let attempt := (counted + 1)%N in
  modify (λ w, {| w with
    w_flaky_attempts := <[tx_tool_execution context := attempt]> (w_flaky_attempts w) |});;
  now ← get_now;
  if SFltb (total_seconds (tx_deadline context - now)) (sleep_seconds arguments) then
    mret StillRunning
  else
    raise_if (Z.of_N attempt <=? arg_int arguments "fail_attempts")%Z
      (tool_error ToolErr.ExecutionFailed "Deterministic demo failure.");;
    returns FlakyOutput [("attempts_before_success", JInt (Z.of_N attempt))].

Definition FLAKY_TOOL : Tool := make_tool {|
  p_key := "demo.flaky"; p_display_name := "Flaky (test) tool";
  p_description := "Deterministically fails `fail_attempts` times before succeeding; can sleep to prove timeout enforcement. For platform verification only.";
  p_input := ("FlakyInput", validate_model FlakyInput); p_output := FlakyOutput;
  p_risk := (RiskLevel.READ_ONLY, SideEffectType.NONE);
  p_idempotency := IdempotencyMode.SAFE; p_timeouts := (1, 2)%Z;
  p_retry := {| max_retries := 3; retryable_error_codes := [ToolErr.code ToolErr.ExecutionFailed];
                ambiguous_outcome_error_codes := [] |};
  p_handler := flaky_handler |}.

(** ** The registry ([tools/registry.py]) *)

Definition tool_key (t : Tool) : string := ts_key (spec t).

(** [registry.register(tool)]. *)
Definition register (t : Tool) (tools : gmap string Tool) : exn + gmap string Tool :=
  if bool_decide (is_Some (tools !! tool_key t)) then inl ValueError
  else inr (<[tool_key t := t]> tools).

(** [if tool.spec.key not in target_registry: target_registry.register(tool)]. *)
Definition register_missing (tools : gmap string Tool) (t : Tool) : gmap string Tool :=
  match register t tools with inl _ => tools | inr tools => tools end.
Definition register_all (l : list Tool) (tools : gmap string Tool) : gmap string Tool :=
  foldl register_missing tools l.

(** What the two applications register when they start. *)
Definition registered_tools : gmap string Tool :=
  register_all ALL_INTEGRATION_TOOLS (register_all [ECHO_TOOL; ADD_TOOL; FLAKY_TOOL] ∅).
Definition registry : Registry := λ key, registered_tools !! key.
End Tools.
