(* ===== verification/AgentRuns.v ===== *)
(** * Agent configuration and runs

    [agents/services.py], [agents/failure_classification.py], [agents/recovery.py],
    [agents/tool_catalog.py] and [agents/providers/config.py]: agent definitions and
    versions, the life of a run from its creation to its end, the pause for an
    approval and the resume after it, and the sweep that finds runs whose worker
    died.  A transition locks and re-reads the run; what a worker holds of a run in
    between is an argument beside its identifier. *)

From stdpp Require Import base gmap strings list pretty sorting.
From Stdlib Require Import ZArith QArith Qround Qabs Ascii String Lia.
From S2P Require Import Prelude Json Decimals Domain Policy Models Store Delivery Network Webhooks Approvals ToolExec Graph Workspaces Conversations Tickets.

#[local] Close Scope Q_scope.
#[local] Open Scope nat_scope.

(** A provider: what [get_llm_provider] hands back. *)
Abbreviation Provider := (LLMRequest → service (ProviderError + LLMResponse)).

Class Providers := {
  fake_provider : Provider;
  openai_provider : Provider;
}.

Definition MAX_INPUT_MESSAGE_CHARS : nat := Nat.mul 80 100.

(** Bytes: the dash of the source is one character of three bytes. *)
Definition HANDOFF_ACKNOWLEDGEMENT_TEXT : string :=
  "I'm connecting you with a support specialist who can help with this — they'll follow up here.".

(** A [PositiveIntegerField]. *)
Definition fits_int (n : N) : bool := (n <=? 2147483647)%N.

(** What a [numeric(10, 4)] column keeps of a cost, and whether it fits. *)
Definition stored_cost (c : Q) : Q := Qmake (Qfloor (Qplus (Qmult c (Qmake 10000 1)) (Qmake 1 2))) 10000.
Definition cost_fits (c : option Q) : bool :=
  match c with
  | Some c => negb (Qle_bool (Qmake 1000000 1) (Qabs (stored_cost c)))
  | None => true
  end.

Section AgentRuns.
Context `{Settings} `{PyLib} `{Network} `{Encoding} `{TextEncoding} `{Providers}.

(** ** Definitions and versions *)

(** [agent_def_workspace_name_uniq]. *)
Definition definition_clash (a b : AgentDefinition) : bool :=
  bool_decide (adef_workspace a = adef_workspace b) && String.eqb (adef_name a) (adef_name b).

(** [definition.save()]. *)
Definition save_definition (i : N) (d : AgentDefinition) : service () :=
  let d := {| d with adef_name := squeeze (adef_name d) |} in
  raise_if (negb (fits 200 (adef_name d))) DataError;;
  raise_if (String.eqb (adef_name d) "") IntegrityError;;
  save_unique definition_clash i d.

Definition create_agent_definition (workspace actor : N) (name : string)
    (description : option string) : service N :=
  atomic (
    i ← fresh;
    save_definition i {|
      adef_workspace := workspace; adef_name := name;
      adef_description := default "" description;
      adef_status := AgentDefinitionStatus.ACTIVE |};;
    record_event "agent.definition_created" "agent_definition" i (Some actor) (Some workspace)
      [("agent_id", id_json i)];;
    mret i).

(** The keys of [data] that are present. *)
Record AgentDefinitionData := {
  add_name : option string;
  add_description : option string;
  add_status : option AgentDefinitionStatus.t;
}.

Definition apply_definition_data (data : AgentDefinitionData) (d : AgentDefinition)
    : AgentDefinition :=
  {| d with
     adef_name := default (adef_name d) (add_name data);
     adef_description := default (adef_description d) (add_description data);
     adef_status := default (adef_status d) (add_status data) |}.

Definition update_agent_definition (workspace definition_id : N) (definition : AgentDefinition)
    (actor : N) (data : AgentDefinitionData) : service () :=
  atomic (
    save_definition definition_id (apply_definition_data data definition);;
    record_event "agent.definition_updated" "agent_definition" definition_id (Some actor)
      (Some workspace) [("agent_id", id_json definition_id)]).

Record AgentVersionData := {
  avd_provider : string;
  avd_model : string;
  avd_system_prompt : option string;
  avd_temperature : option Q;
  avd_max_output_tokens : option N;
  avd_max_model_calls : option N;
  avd_max_steps : option N;
  avd_wall_time_limit_seconds : option N;
  avd_provider_timeout_seconds : option N;
  avd_max_total_tokens : option N;
  avd_max_estimated_cost_usd : option Q;
  avd_max_retry_attempts : option N;
  avd_max_tool_calls : option N;
  avd_runtime_config : option json;
}.

Definition new_version (workspace definition version : N) (data : AgentVersionData)
    : AgentVersion := {|
  av_workspace := workspace; av_definition := definition; av_version := version;
  av_provider := avd_provider data; av_model := avd_model data;
  av_system_prompt := default "" (avd_system_prompt data);
  av_temperature := default 0%Q (avd_temperature data);
  av_max_output_tokens := default 512%N (avd_max_output_tokens data);
  av_status := AgentVersionStatus.DRAFT;
  av_max_model_calls := default 1%N (avd_max_model_calls data);
  av_max_steps := default 20%N (avd_max_steps data);
  av_wall_time_limit_seconds := Z.of_N (default 30%N (avd_wall_time_limit_seconds data));
  av_provider_timeout_seconds := Z.of_N (default 30%N (avd_provider_timeout_seconds data));
  av_max_total_tokens := avd_max_total_tokens data;
  av_max_estimated_cost_usd := stored_cost <$> avd_max_estimated_cost_usd data;
  av_max_retry_attempts := default 1%N (avd_max_retry_attempts data);
  av_max_tool_calls := default 3%N (avd_max_tool_calls data);
  av_runtime_config := default (JObj []) (avd_runtime_config data);
  av_published_at := None |}.

(** The widths of the columns. *)
Definition version_fits (v : AgentVersion) : bool :=
  fits 32 (av_provider v) && fits 128 (av_model v)
  && forallb fits_int [av_max_output_tokens v; av_max_model_calls v; av_max_steps v;
                       Z.to_N (av_wall_time_limit_seconds v);
                       Z.to_N (av_provider_timeout_seconds v);
                       default 0%N (av_max_total_tokens v); av_max_retry_attempts v;
                       av_max_tool_calls v]
  && cost_fits (av_max_estimated_cost_usd v).

(** [agent_ver_definition_version_uniq]. *)
Definition version_clash (a b : AgentVersion) : bool :=
  bool_decide (av_definition a = av_definition b) && bool_decide (av_version a = av_version b).

Definition version_of (definition : N) (_ : N) (v : AgentVersion) : bool :=
  bool_decide (av_definition v = definition).

(** [... .order_by("-version").first()], of which only the number is used. *)
Definition last_version (definition : N) (w : World) : option N :=
  match select_rows (version_of definition) w with
  | [] => None
  | l => Some (foldr (λ v n, N.max (av_version v.2) n) 0%N l)
  end.

Definition create_agent_version (workspace definition_id : N) (definition : AgentDefinition)
    (actor : N) (data : AgentVersionData) : service N :=
  atomic (
    last ← gets (last_version definition_id);
    let next_version := match last with Some n => (n + 1)%N | None => 1%N end in
    let row := new_version (adef_workspace definition) definition_id next_version data in
    raise_if (negb (version_fits row)) DataError;;
    raise_if (av_max_model_calls row <? 1)%N IntegrityError;;
    i ← fresh;
    save_unique version_clash i row;;
    record_event "agent.version_created" "agent_version" i (Some actor) (Some workspace)
      [("agent_id", id_json definition_id); ("version", id_json next_version)];;
    mret i).

Definition published_version (now : Z) (v : AgentVersion) : AgentVersion :=
  {| v with av_status := AgentVersionStatus.PUBLISHED; av_published_at := Some now |}.

Definition publish_agent_version (workspace version_id actor : N) : service () :=
  atomic (
    locked ← get_row version_id;
    raise_if (negb (bool_decide (av_status locked = AgentVersionStatus.DRAFT)))
      (AgentExc AgentErr.VersionNotPublishable);;
    now ← get_now;
    save_row version_id (published_version now locked);;
    record_event "agent.version_published" "agent_version" version_id (Some actor)
      (Some workspace)
      [("agent_id", id_json (av_definition locked)); ("version", id_json (av_version locked))]).

(** ** Writing a run *)

(** [AgentRun.trigger_message] and [AgentRun.output_message] are one-to-one. *)
Definition same_message (a b : option N) : bool :=
  match a, b with Some x, Some y => (x =? y)%N | _, _ => false end.
Definition run_clash (a b : AgentRun) : bool :=
  same_message (run_trigger_message a) (run_trigger_message b)
  || same_message (run_output_message a) (run_output_message b).

Definition run_fits (r : AgentRun) : bool :=
  fits 20 (run_trigger r) && fits 64 (run_failure_code r) && fits 255 (run_failure_message_safe r)
  && fits 64 (run_correlation_id r)
  && forallb fits_int [run_model_call_count r; run_step_count r; run_input_tokens r;
                       run_output_tokens r; run_total_tokens r]
  && cost_fits (run_estimated_cost_usd r).

(** What the database keeps of a row saved at [now]. *)
Definition stored_run (now : Z) (r : AgentRun) : AgentRun :=
  {| r with run_updated_at := now;
            run_estimated_cost_usd := stored_cost <$> run_estimated_cost_usd r |}.

(** [locked.save()]. *)
Definition save_run (i : N) (r : AgentRun) : service () :=
  raise_if (negb (run_fits r)) DataError;;
  now ← get_now;
  save_unique run_clash i (stored_run now r).

Definition is_terminal (r : AgentRun) : bool :=
  bool_decide (run_status r ∈ AGENT_RUN_TERMINAL_STATUSES).
Definition has_status (s : AgentRunStatus.t) (r : AgentRun) : bool :=
  bool_decide (run_status r = s).

(** ** Steps *)

Definition last_sequence (run_id : N) (w : World) : N :=
  foldr (λ s n, if bool_decide (step_run s = run_id) then N.max (step_sequence s) n else n) 0%N
    (w_agent_steps w).

Definition next_sequence_and_create_step (run_id : N) (type : AgentStepType.t)
    (status : AgentStepStatus.t) (safe_metadata : list (string * json)) (error_code : string)
    : service () :=
  atomic (
    _ ← get_row (A := AgentRun) run_id;
    last ← gets (last_sequence run_id);
    raise_if (negb (fits 64 error_code)) DataError;;
    modify (λ w, {| w with w_agent_steps := w_agent_steps w ++
      [{| step_run := run_id; step_sequence := (last + 1)%N; step_type := type;
          step_status := status; step_safe_metadata := safe_metadata;
          step_error_code := error_code |}] |})).

Definition record_step (run_id : N) : StepRecorder :=
  λ type status safe_metadata error_code,
    next_sequence_and_create_step run_id type status safe_metadata error_code.

Definition record_agent_operational_step (run_id : N) (event : string)
    (safe_metadata : list (string * json)) : service () :=
  record_step run_id AgentStepType.REQUEST_NORMALIZED AgentStepStatus.SUCCEEDED
    (("event", JStr event) :: safe_metadata) "".

(** ** Creation, claim and cancellation *)

Definition dispatch_run (run_id : N) : service () := publish (execute_agent_run_task run_id).

Definition triggered_by (message : N) (_ : N) (r : AgentRun) : bool :=
  bool_decide (run_trigger_message r = Some message).

Definition new_run (workspace agent_version : N) (actor : option N) (input_message trigger : string)
    (conversation ticket trigger_message : option N) (input_metadata : option json)
    (request_id : option string) (now : Z) : AgentRun := {|
  run_workspace := workspace; run_agent_version := agent_version;
  run_conversation := conversation; run_ticket := ticket;
  run_trigger_message := trigger_message; run_output_message := None; run_trigger := trigger;
  run_status := AgentRunStatus.PENDING;
  run_input_message := str_take MAX_INPUT_MESSAGE_CHARS input_message;
  run_input_metadata := default (JObj []) input_metadata; run_final_response := "";
  run_started_at := None; run_completed_at := None; run_cancelled_at := None;
  run_failure_code := ""; run_failure_message_safe := ""; run_model_call_count := 0;
  run_step_count := 0; run_tool_call_count := 0; run_input_tokens := 0; run_output_tokens := 0;
  run_total_tokens := 0; run_estimated_cost_usd := None;
  run_correlation_id := default "" request_id; run_created_by := actor;
  run_created_at := now; run_updated_at := now |}.

(** [AgentRun.objects.create(...)]. *)
Definition insert_run (r : AgentRun) : service N :=
  i ← fresh;
  save_run i r;;
  mret i.

Definition create_agent_run (workspace agent_version_id : N) (agent_version : AgentVersion)
    (actor : option N) (input_message trigger : string)
    (conversation ticket trigger_message : option N) (input_metadata : option json)
    (request_id : option string) : service N :=
  raise_if (negb (bool_decide (av_status agent_version = AgentVersionStatus.PUBLISHED)))
    (AgentExc AgentErr.VersionNotPublished);;
  atomic (
    existing ← match trigger_message with
               | Some m => first_row (triggered_by m)
               | None => mret None
               end;
    match existing with
    | Some (i, _) => mret i
    | None =>
        now ← get_now;
        created ← catch
          (atomic (
             i ← insert_run (new_run workspace agent_version_id actor input_message trigger
                               conversation ticket trigger_message input_metadata request_id now);
             mret (i, true)))
          (λ e, match e, trigger_message with
                | IntegrityError, Some m =>
                    winner ← get_where (triggered_by m);
                    mret (fst winner, false)
                | e, _ => raise e
                end);
        let (i, inserted) := created : N * bool in
        when inserted (dispatch_run i);;
        mret i
    end).

Definition claimed_run (now : Z) (r : AgentRun) : AgentRun :=
  {| r with run_status := AgentRunStatus.RUNNING; run_started_at := Some now |}.

Definition run_field (run_id : N) : string * json := ("agent_run_id", id_json run_id).

Definition claim_agent_run (run_id : N) : service (option AgentRun) :=
  atomic (
    run ← get_row run_id;
    if negb (has_status AgentRunStatus.PENDING run) then mret None
    else
      now ← get_now;
      save_run run_id (claimed_run now run);;
      record_event "agent.run_started" "agent_run" run_id (run_created_by run)
        (Some (run_workspace run)) [run_field run_id];;
      mret (Some (claimed_run now run))).

Definition cancelled_run (now : Z) (r : AgentRun) : AgentRun :=
  {| r with run_status := AgentRunStatus.CANCELLED; run_cancelled_at := Some now |}.

Definition waiting_of (run_id : N) (_ : N) (te : ToolExecution) : bool :=
  bool_decide (te_agent_run te = run_id)
  && bool_decide (te_status te = ToolExecutionStatus.WAITING_FOR_APPROVAL).

Definition cancelled_execution (now : Z) (te : ToolExecution) : ToolExecution :=
  {| te with te_status := ToolExecutionStatus.CANCELLED; te_completed_at := Some now |}.

Definition cancel_waiting_executions (run_id : N) : service () :=
  cancelled_at ← get_now;
  executions ← gets (select_rows (waiting_of run_id));
  for_each executions (λ execution,
    cancel_approval_for_execution (fst execution) "run_cancelled";;
    update_rows (waiting_execution (fst execution)) (cancelled_execution cancelled_at)).

Definition cancel_agent_run (workspace run_id actor : N) : service () :=
  atomic (
    locked ← get_row run_id;
    raise_if (is_terminal locked) (AgentExc AgentErr.RunNotCancellable);;
    let was_waiting_for_approval := has_status AgentRunStatus.WAITING_FOR_APPROVAL locked in
    now ← get_now;
    save_run run_id (cancelled_run now locked);;
    next_sequence_and_create_step run_id AgentStepType.RUN_CANCELLED AgentStepStatus.SUCCEEDED [] "";;
    record_event "agent.run_cancelled" "agent_run" run_id (Some actor) (Some workspace)
      [run_field run_id];;
    when was_waiting_for_approval (cancel_waiting_executions run_id);;
    cancel_handoffs_for_run run_id "run_cancelled").

(** ** The boundaries the graph is given *)

(** The codes of a tool error that end the run. *)
Definition terminal_codes : list string :=
  ["tool_configuration_error"; "tool_invalid_output"; "tool_idempotency_conflict";
   "tool_execution_in_progress"; "tool_run_not_executable"; "policy_evaluation_failed"].

Definition denied_or_failed (e : ToolErr.t) : string :=
  match e with ToolErr.PolicyDenied => "denied" | _ => "failed" end.

Definition tool_outcome (tool_name : string) (r : exn + ToolExecutionResult)
    : service ToolOutcome :=
  match r with
  | inl (ToolExc ToolErr.ApprovalRequired message) =>
      mret (ApprovalRequiredOutcome (ToolErr.code ToolErr.ApprovalRequired) message)
  | inl (ToolExc ToolErr.BudgetExceeded _) =>
      mret (BudgetExceededOutcome (Some "max_tool_calls_reached"))
  | inl (ToolExc e message) =>
      if str_in (ToolErr.code e) terminal_codes then
        mret (TerminalOutcome (ToolErr.code e) message)
      else
        let model_result := as_model_message
          {| trc_tool_key := tool_name; trc_status := denied_or_failed e; trc_result := None;
             trc_error_code := Some (ToolErr.code e) |} in
        mret (ModelResult model_result (ToolErr.code e) (denied_or_failed e) false)
  | inl e => raise e
  | inr result =>
      let model_result := as_model_message
        {| trc_tool_key := tool_name; trc_status := "succeeded";
           trc_result := Some (tr_output result); trc_error_code := None |} in
      mret (ModelResult model_result "" "succeeded" (tr_reused result))
  end.

(** [_execute_tool_factory(run)], for the run as the worker holds it. *)
Definition bound_execute_tool (tool_registry : Registry) (run_id : N) (run : AgentRun)
    (tool_name : string) (arguments : list (string * json)) (idempotency_key : option string)
    : service ToolOutcome :=
  r ← attempt (execute_tool (record_step run_id) tool_registry run_id run tool_name
                 (JObj arguments) idempotency_key);
  tool_outcome tool_name r.

Definition handoff_reasons : list HumanHandoffReason.t :=
  [HumanHandoffReason.CUSTOMER_REQUESTED; HumanHandoffReason.UNSUPPORTED_ACTION;
   HumanHandoffReason.RUNTIME_FAILURE; HumanHandoffReason.LOW_CONFIDENCE;
   HumanHandoffReason.POLICY_ESCALATION].

Definition reason_of_code (code : string) : option HumanHandoffReason.t :=
  List.find (λ r, String.eqb (HumanHandoffReason.value r) code) handoff_reasons.

(** [_request_handoff_factory(run)]. *)
Definition bound_request_handoff (run : AgentRun) (reason_code summary : string) : HandoffAnswer :=
  match run_conversation run with
  | None => HandoffRefused "handoff_requires_conversation"
              "This run has no conversation to hand off."
  | Some _ =>
      let code := str_strip reason_code in
      if negb (str_in code (map HumanHandoffReason.value handoff_reasons)) then
        HandoffRefused "invalid_handoff_reason" "The requested handoff reason is not recognized."
      else
        let safe_summary := str_strip summary in
        if String.eqb safe_summary "" then
          HandoffRefused "invalid_handoff_summary" "A handoff summary is required."
        else HandoffOk {| hr_reason_code := code; hr_summary := safe_summary |}
  end.

Definition version_budgets (v : AgentVersion) : Budgets := {|
  max_model_calls := av_max_model_calls v; max_steps := av_max_steps v;
  wall_time_limit_seconds := av_wall_time_limit_seconds v;
  provider_timeout_seconds := av_provider_timeout_seconds v;
  max_total_tokens := av_max_total_tokens v;
  max_estimated_cost_usd := av_max_estimated_cost_usd v;
  max_retry_attempts := av_max_retry_attempts v |}.

(** ** Providers ([agents/providers/config.py]) *)

Definition ProviderConfigurationError : ProviderError := {|
  pf_code := "provider_configuration_error";
  pf_safe_message := "The AI provider is not configured correctly."; pf_retryable := false |}.

Definition get_llm_provider : ProviderError + Provider :=
  if String.eqb AGENTS_LLM_PROVIDER "fake" then inr fake_provider
  else if String.eqb AGENTS_LLM_PROVIDER "openai" then
    if String.eqb AGENTS_OPENAI_API_KEY "" then inl ProviderConfigurationError
    else inr openai_provider
  else inl ProviderConfigurationError.

Definition provider_for (v : AgentVersion) : ProviderError + Provider :=
  if negb (String.eqb AGENTS_LLM_PROVIDER (av_provider v)) then inl ProviderConfigurationError
  else get_llm_provider.

(** The choice [execute_claimed_agent_run] and the resume make. *)
Definition version_provider (v : AgentVersion) : ProviderError + Provider :=
  if String.eqb (av_provider v) "fake" then get_llm_provider else provider_for v.

(** ** The tool catalog ([agents/tool_catalog.py]) *)

Definition SERVER_OWNED_FIELDS : list string :=
  ["workspace_id"; "agent_run_id"; "agent_version_id"; "tool_execution_id"; "actor_role";
   "integration_credential"; "approved"; "approval_override"; "policy_decision"; "risk";
   "timeout_override"; "retry_override"].

(** An object whose [properties] name a server-owned field. *)
Definition exposes_field (members : list (string * json)) : bool :=
  match args_get members "properties" with
  | JObj properties => existsb (λ kv, str_in kv.1 SERVER_OWNED_FIELDS) properties
  | _ => false
  end.

(** Whether [_assert_schema_has_no_server_owned_fields] raises. *)
Fixpoint has_server_owned_fields (node : json) : bool :=
  match node with
  | JObj members =>
      exposes_field members || existsb (λ kv, has_server_owned_fields kv.2) members
  | JList items => existsb has_server_owned_fields items
  | _ => false
  end.

Definition usable_binding (workspace version_id : N) (w : World) (_ : N) (tb : ToolBinding) : bool :=
  bool_decide (tb_agent_version tb = version_id) && tb_enabled tb
  && bool_decide (av_workspace <$> w_agent_versions w !! version_id = Some workspace)
  && bool_decide (td_status <$> w_tool_definitions w !! tb_tool_definition tb
                  = Some ToolDefinitionStatus.ACTIVE).

Definition descriptor_of (s : ToolSpec) : ToolDescriptor := {|
  tdesc_key := ts_key s; tdesc_display_name := ts_display_name s;
  tdesc_description := ts_description s; tdesc_input_schema := ts_input_schema s |}.

(** The descriptor of one binding. *)
Definition bound_descriptor (tool_registry : Registry) (binding : N * ToolBinding)
    : service ToolDescriptor :=
  definition ← get_row (tb_tool_definition (snd binding));
  match tool_registry (td_key definition) with
  | None => raise (AgentExc AgentErr.ToolCatalogConfiguration)
  | Some tool =>
      raise_if (negb (ts_enabled (spec tool))
                || negb (String.eqb (td_handler_key definition) (ts_key (spec tool))))
        (AgentExc AgentErr.ToolCatalogConfiguration);;
      raise_if (has_server_owned_fields (ts_input_schema (spec tool)))
        (AgentExc AgentErr.ToolCatalogConfiguration);;
      mret (descriptor_of (spec tool))
  end.

Fixpoint bound_descriptors (tool_registry : Registry) (bindings : list (N * ToolBinding))
    : service (list ToolDescriptor) :=
  match bindings with
  | [] => mret []
  | b :: bindings =>
      d ← bound_descriptor tool_registry b;
      ds ← bound_descriptors tool_registry bindings;
      mret (d :: ds)
  end.

Definition descriptor_le (a b : ToolDescriptor) : Prop :=
  String.leb (tdesc_key a) (tdesc_key b) = true.
#[local] Instance descriptor_le_dec a b : Decision (descriptor_le a b).
Proof. unfold descriptor_le. apply _. Defined.

(** Bindings are read newest first. *)
Definition get_bound_tool_descriptors (tool_registry : Registry) (version_id : N)
    (version : AgentVersion) (workspace : N) : service (list ToolDescriptor) :=
  raise_if (negb (bool_decide (av_status version = AgentVersionStatus.PUBLISHED))
            || negb (bool_decide (av_workspace version = workspace)))
    (AgentExc AgentErr.ToolCatalogConfiguration);;
  bindings ← gets (λ w, rev (select_rows (usable_binding workspace version_id w) w));
  descriptors ← bound_descriptors tool_registry bindings;
  mret (merge_sort descriptor_le descriptors).

(** ** Ends and pauses *)

Definition apply_usage (result : RuntimeState) (r : AgentRun) : AgentRun :=
  {| r with
     run_model_call_count := st_model_call_count result;
     run_step_count := st_step_count result;
     run_input_tokens := st_input_tokens result;
     run_output_tokens := st_output_tokens result;
     run_total_tokens := st_total_tokens result;
     run_estimated_cost_usd := st_estimated_cost_usd result |}.

Definition with_usage (result : option RuntimeState) (r : AgentRun) : AgentRun :=
  match result with Some result => apply_usage result r | None => r end.

Definition failed_run (status : AgentRunStatus.t) (code message : string) (now : Z) (r : AgentRun)
    : AgentRun :=
  {| r with run_status := status; run_failure_code := code; run_failure_message_safe := message;
            run_completed_at := Some now |}.

(** The two failing ends; the services answer with the run, of which the callers
    use the status. *)
Definition finish_failed (run_id : N) (status : AgentRunStatus.t) (code message : string)
    (result : option RuntimeState) : service AgentRunStatus.t :=
  atomic (
    locked ← get_row run_id;
    if is_terminal locked then mret (run_status locked)
    else
      now ← get_now;
      save_run run_id (failed_run status code message now (with_usage result locked));;
      record_event "agent.run_failed" "agent_run" run_id (run_created_by locked)
        (Some (run_workspace locked)) [run_field run_id; ("failure_code", JStr code)];;
      mret status).

Definition fail_run (run_id : N) (code message : string) (result : option RuntimeState)
    : service AgentRunStatus.t :=
  finish_failed run_id AgentRunStatus.FAILED code message result.

Definition budget_exceeded_run (run_id : N) (reason : option string) (result : RuntimeState)
    : service AgentRunStatus.t :=
  finish_failed run_id AgentRunStatus.BUDGET_EXCEEDED
    ("budget_exceeded:" +:+ str_or (default "" reason) "unknown")
    "The run exceeded its configured execution budget." (Some result).

Definition fail_claimed_agent_run (run_id : N) (code message : string) : service AgentRunStatus.t :=
  fail_run run_id code message None.

Definition waiting_run (r : AgentRun) : AgentRun :=
  {| r with run_status := AgentRunStatus.WAITING_FOR_APPROVAL |}.

Definition pause_run_for_approval (run_id : N) (result : RuntimeState) : service AgentRunStatus.t :=
  atomic (
    locked ← get_row run_id;
    if negb (has_status AgentRunStatus.RUNNING locked) then mret (run_status locked)
    else
      save_run run_id (waiting_run (apply_usage result locked));;
      next_sequence_and_create_step run_id AgentStepType.RUN_WAITING_FOR_APPROVAL
        AgentStepStatus.SUCCEEDED [] "";;
      mret AgentRunStatus.WAITING_FOR_APPROVAL).

Definition completed_run (status : AgentRunStatus.t) (response : string) (output : option N)
    (now : Z) (r : AgentRun) : AgentRun :=
  {| r with run_status := status; run_final_response := response;
            run_output_message := output; run_completed_at := Some now |}.

(** The reply, unless the run has one already. *)
Definition output_of (run_id : N) (locked : AgentRun) (conversation : option (N * Conversation))
    (body : string) (metadata : list (string * json)) : service (option N) :=
  match conversation, run_output_message locked with
  | Some (cid, c), None =>
      if String.eqb body "" then mret None
      else
        message ← create_ai_agent_message (run_workspace locked) cid c body None
                    (JObj (run_field run_id :: metadata));
        mret (Some message)
  | _, output => mret output
  end.

Definition load_conversation (locked : AgentRun) : service (option (N * Conversation)) :=
  match run_conversation locked with
  | None => mret None
  | Some cid => c ← get_row cid; mret (Some (cid, c))
  end.

Definition route_response (run_id : N) : service () := publish (route_channel_response run_id).

Definition complete_run (run_id : N) (result : RuntimeState)
    (output_metadata : option (list (string * json))) : service AgentRunStatus.t :=
  atomic (
    locked ← get_row run_id;
    if negb (has_status AgentRunStatus.RUNNING locked) then mret (run_status locked)
    else
      now ← get_now;
      conversation ← load_conversation locked;
      let response := st_final_response result in
      output ← output_of run_id locked conversation response (default [] output_metadata);
      save_run run_id
        (completed_run AgentRunStatus.SUCCEEDED response output now (apply_usage result locked));;
      record_event "agent.run_completed" "agent_run" run_id (run_created_by locked)
        (Some (run_workspace locked)) [run_field run_id];;
      route_response run_id;;
      mret AgentRunStatus.SUCCEEDED).

(** The ticket a handoff names, with its workspace. *)
Definition load_ticket (locked : AgentRun) : service (option (N * N)) :=
  match run_ticket locked with
  | None => mret None
  | Some t => row ← get_row t; mret (Some (t, tk_workspace row))
  end.

Definition AssertionError : exn := OtherExc 5.

(** A request names one of the known reasons: its validator lets no other through. *)
Definition complete_run_as_handoff (run_id : N) (result : RuntimeState)
    (request : NormalizedHandoffRequest) : service AgentRunStatus.t :=
  atomic (
    locked ← get_row run_id;
    if negb (has_status AgentRunStatus.RUNNING locked) then mret (run_status locked)
    else
      loaded ← load_conversation locked;
      conversation ← or_raise loaded AssertionError;
      ticket ← load_ticket locked;
      reason ← or_raise (reason_of_code (hr_reason_code request)) ValueError;
      handoff ← create_or_reuse_handoff (run_workspace locked) (fst conversation)
                  (snd conversation) reason (hr_summary request)
                  (Some (run_id, run_workspace locked)) ticket;
      now ← get_now;
      let handoff_field := ("handoff_id", id_json (fst handoff)) in
      output ← output_of run_id locked (Some conversation) HANDOFF_ACKNOWLEDGEMENT_TEXT
                 [handoff_field];
      save_run run_id
        (completed_run AgentRunStatus.HANDED_OFF HANDOFF_ACKNOWLEDGEMENT_TEXT output now
           (apply_usage result locked));;
      next_sequence_and_create_step run_id AgentStepType.RUN_HANDED_OFF AgentStepStatus.SUCCEEDED
        [handoff_field; ("reused", JBool (negb (snd handoff)))] "";;
      record_event "agent.run_handed_off" "agent_run" run_id (run_created_by locked)
        (Some (run_workspace locked)) [run_field run_id; handoff_field];;
      route_response run_id;;
      mret AgentRunStatus.HANDED_OFF).

(** The counters a run has already. *)
Definition usage_of (r : AgentRun) : RuntimeState :=
  let s := initial_state "" in
  {| s with
     st_model_call_count := run_model_call_count r; st_step_count := run_step_count r;
     st_input_tokens := run_input_tokens r; st_output_tokens := run_output_tokens r;
     st_total_tokens := run_total_tokens r;
     st_estimated_cost_usd := through_float <$> run_estimated_cost_usd r |}.

Definition complete_run_via_existing_active_handoff (run_id : N) (run : AgentRun)
    : service AgentRunStatus.t :=
  complete_run_as_handoff run_id (usage_of run)
    {| hr_reason_code := HumanHandoffReason.value HumanHandoffReason.CUSTOMER_REQUESTED;
       hr_summary := "A new message arrived while this conversation was already awaiting a support specialist." |}.

(** ** Classification ([agents/failure_classification.py]) *)

Inductive RecoveryAction := FAIL | HANDOFF.

Definition RETRYABLE_PROVIDER_HANDOFF_CODES : list string :=
  ["provider_rate_limited"; "provider_timeout"; "provider_temporarily_unavailable"].

Definition classify_terminal_failure (error_code : string) (has_conversation : bool)
    : RecoveryAction :=
  if has_conversation && str_in error_code RETRYABLE_PROVIDER_HANDOFF_CODES then HANDOFF else FAIL.

Definition safe_failure (result : RuntimeState) : string :=
  str_or (default "" (st_safe_error_message result)) "The agent run failed.".

Definition handoff_for_runtime_failure (run_id : N) (run : AgentRun) (error_code : string)
    (result : RuntimeState) : service AgentRunStatus.t :=
  match bound_request_handoff run (HumanHandoffReason.value HumanHandoffReason.RUNTIME_FAILURE)
          ("Automated recovery after repeated " +:+ error_code +:+ ".") with
  | HandoffRefused _ _ => fail_run run_id error_code (safe_failure result) (Some result)
  | HandoffOk validated => complete_run_as_handoff run_id result validated
  end.

Definition fail_or_handoff (run_id : N) (run : AgentRun) (error_code : string)
    (result : RuntimeState) : service AgentRunStatus.t :=
  match classify_terminal_failure error_code (is_some (run_conversation run)) with
  | HANDOFF => handoff_for_runtime_failure run_id run error_code result
  | FAIL => fail_run run_id error_code (safe_failure result) (Some result)
  end.

(** ** Execution *)

(** What the end of the graph makes of the run. *)
Definition conclude (run_id : N) (run : AgentRun) (result : RuntimeState)
    (output_metadata : option (list (string * json))) : service AgentRunStatus.t :=
  match st_handoff_request result with
  | Some request => complete_run_as_handoff run_id result request
  | None =>
      if st_budget_exceeded result then
        budget_exceeded_run run_id (st_budget_exceeded_reason result) result
      else
        let error_code := default "" (st_safe_error_code result) in
        if String.eqb error_code "approval_required" then pause_run_for_approval run_id result
        else if negb (String.eqb error_code "") then fail_or_handoff run_id run error_code result
        else complete_run run_id result output_metadata
  end.

Definition current_status (run_id : N) : service AgentRunStatus.t :=
  run ← get_row run_id;
  mret (run_status run).

Definition run_is_cancelled (run_id : N) : service bool :=
  gets (λ w, match w_agent_runs w !! run_id with
             | Some r => has_status AgentRunStatus.CANCELLED r | None => false end).

Definition internal_failure (run_id : N) : service AgentRunStatus.t :=
  fail_run run_id "agent_internal_error" "The agent run failed unexpectedly." None.

(** [str(run.id)]. *)
Definition run_key (run_id : N) : string := pretty run_id.

(** [correlation_id or None]. *)
Definition correlation_of (run : AgentRun) : option string :=
  if String.eqb (run_correlation_id run) "" then None else Some (run_correlation_id run).

Definition execution_context (tool_registry : Registry) (run_id : N) (run : AgentRun)
    (version : AgentVersion) (provider : Provider) (initial_messages : option (list LLMMessage))
    (descriptors : list ToolDescriptor) (started : Z) : RunContext := {|
  ctx_generate := provider; ctx_budgets := version_budgets version; ctx_model := av_model version;
  ctx_temperature := av_temperature version;
  ctx_max_output_tokens := av_max_output_tokens version;
  ctx_system_prompt := av_system_prompt version; ctx_correlation_id := correlation_of run;
  ctx_record_step := record_step run_id; ctx_started_monotonic := started;
  ctx_execute_tool := Some (bound_execute_tool tool_registry run_id run);
  ctx_initial_messages := initial_messages; ctx_tool_descriptors := descriptors;
  ctx_agent_run_id := Some (run_key run_id);
  ctx_is_cancelled := Some (run_is_cancelled run_id);
  ctx_request_handoff := Some (bound_request_handoff run) |}.

(** The graph with the provider chosen and the tools found. *)
Definition execute_with (tool_registry : Registry) (run_id : N) (run : AgentRun)
    (version : AgentVersion) (provider : Provider) (initial_messages : option (list LLMMessage))
    (descriptors : list ToolDescriptor) (output_metadata : option (list (string * json)))
    : service AgentRunStatus.t :=
  started ← get_now;
  let ctx := execution_context tool_registry run_id run version provider initial_messages
               descriptors started in
  r ← attempt (run_graph ctx (run_input_message run));
  match r with
  | inl _ => internal_failure run_id
  | inr result =>
      if st_cancelled result then current_status run_id
      else conclude run_id run result output_metadata
  end.

Definition catalog_message : string := "The agent's tool catalog is misconfigured.".

(** The catalog of the run's version, or the failure of the run. *)
Definition descriptors_for (tool_registry : Registry) (run : AgentRun) (version : AgentVersion)
    (given : option (list ToolDescriptor)) : service (option (list ToolDescriptor)) :=
  match given with
  | Some d => mret (Some d)
  | None =>
      r ← attempt (get_bound_tool_descriptors tool_registry (run_agent_version run) version
                     (run_workspace run));
      match r with
      | inr d => mret (Some d)
      | inl (AgentExc AgentErr.ToolCatalogConfiguration) => mret None
      | inl e => raise e
      end
  end.

Definition execute_claimed_agent_run (tool_registry : Registry) (run_id : N) (run : AgentRun)
    (initial_messages : option (list LLMMessage))
    (output_metadata : option (list (string * json)))
    (tool_descriptors : option (list ToolDescriptor)) (provider : option Provider)
    : service AgentRunStatus.t :=
  version ← get_row (run_agent_version run);
  descriptors ← descriptors_for tool_registry run version tool_descriptors;
  match descriptors with
  | None => fail_run run_id "tool_catalog_configuration_error" catalog_message None
  | Some descriptors =>
      match match provider with Some p => inr p | None => version_provider version end with
      | inl e => fail_run run_id (pf_code e) (pf_safe_message e) None
      | inr provider =>
          execute_with tool_registry run_id run version provider initial_messages descriptors
            output_metadata
      end
  end.

Definition execute_agent_run (tool_registry : Registry) (run_id : N)
    : service AgentRunStatus.t :=
  run ← claim_agent_run run_id;
  match run with
  | None => current_status run_id
  | Some run => execute_claimed_agent_run tool_registry run_id run None None None None
  end.

(** ** Resume after a decision *)

Definition resumed_run (now : Z) (r : AgentRun) : AgentRun :=
  {| r with run_status := AgentRunStatus.RUNNING; run_updated_at := now |}.

Definition claim_run_for_resume (run_id : N) : service (option AgentRun) :=
  atomic (
    run ← get_row run_id;
    if negb (has_status AgentRunStatus.WAITING_FOR_APPROVAL run) then mret None
    else
      now ← get_now;
      save_row run_id (resumed_run now run);;
      mret (Some (resumed_run now run))).

(** The context of a resumed run: no descriptors, no run identifier and no
    cancellation check. *)
Definition resume_context (tool_registry : Registry) (run_id : N) (run : AgentRun)
    (version : AgentVersion) (provider : Provider) (started : Z) : RunContext :=
  let ctx := execution_context tool_registry run_id run version provider None [] started in
  {| ctx with ctx_agent_run_id := None; ctx_is_cancelled := None |}.

Definition continue_run_after_resumed_tool (tool_registry : Registry) (run_id : N)
    (run : AgentRun) (tool_result_summary : string) : service AgentRunStatus.t :=
  version ← get_row (run_agent_version run);
  match version_provider version with
  | inl e => fail_run run_id (pf_code e) (pf_safe_message e) None
  | inr provider =>
      started ← get_now;
      let ctx := resume_context tool_registry run_id run version provider started in
      let state := resume_state_after_tool (run_input_message run) (run_model_call_count run)
                     (run_step_count run) (run_input_tokens run) (run_output_tokens run)
                     (run_total_tokens run) (through_float <$> run_estimated_cost_usd run)
                     tool_result_summary in
      r ← attempt (run_resume_graph ctx state);
      match r with
      | inl _ => internal_failure run_id
      | inr result => conclude run_id run result None
      end
  end.

(** The strings the resume answers with. *)
Inductive ResumeResult := Skipped | AlreadyResumed | Resumed (status : AgentRunStatus.t).

Definition denial_message (tool_key error_code : string) : string :=
  as_model_message {| trc_tool_key := tool_key; trc_status := "denied"; trc_result := None;
                      trc_error_code := Some error_code |}.

(** What follows the claim, for an approved request. *)
Definition resume_approved (tool_registry : Registry) (run_id : N) (run : AgentRun)
    (tool_execution_id : N) (tool_key : string) : service ResumeResult :=
  record_step run_id AgentStepType.APPROVAL_APPROVED AgentStepStatus.SUCCEEDED [] "";;
  tool_result ← attempt (resume_after_approval (record_step run_id) tool_registry tool_execution_id);
  match tool_result with
  | inl (ToolExc ToolErr.ExecutionInProgress _) => mret AlreadyResumed
  | inl (ToolExc e message) =>
      status ← fail_run run_id (ToolErr.code e) message None;
      mret (Resumed status)
  | inl e => raise e
  | inr tool_result =>
      let summary := as_model_message
        {| trc_tool_key := tool_key; trc_status := "succeeded";
           trc_result := Some (tr_output tool_result); trc_error_code := None |} in
      status ← continue_run_after_resumed_tool tool_registry run_id run summary;
      mret (Resumed status)
  end.

(** And for one that was rejected or expired. *)
Definition resume_denied (tool_registry : Registry) (run_id : N) (run : AgentRun)
    (tool_key : string) (type : AgentStepType.t) (error_code : string) : service ResumeResult :=
  record_step run_id type AgentStepStatus.SUCCEEDED [] "";;
  status ← continue_run_after_resumed_tool tool_registry run_id run
             (denial_message tool_key error_code);
  mret (Resumed status).

Definition resume_agent_run_after_approval (tool_registry : Registry) (approval_request_id : N)
    : service ResumeResult :=
  approval ← get_row approval_request_id;
  execution ← get_row (ar_tool_execution approval);
  definition ← get_row (te_tool_definition execution);
  if negb (bool_decide (ar_status approval ∈
        [ApprovalStatus.APPROVED; ApprovalStatus.REJECTED; ApprovalStatus.EXPIRED]))
  then mret Skipped
  else
    let run_id := te_agent_run execution in
    claimed ← claim_run_for_resume run_id;
    match claimed with
    | None => mret AlreadyResumed
    | Some run =>
        match ar_status approval with
        | ApprovalStatus.APPROVED =>
            resume_approved tool_registry run_id run (ar_tool_execution approval)
              (td_key definition)
        | ApprovalStatus.REJECTED =>
            resume_denied tool_registry run_id run (td_key definition)
              AgentStepType.APPROVAL_REJECTED "approval_rejected"
        | _ =>
            resume_denied tool_registry run_id run (td_key definition)
              AgentStepType.APPROVAL_EXPIRED "approval_expired"
        end
    end.

(** ** Recovery ([agents/recovery.py]) *)

Definition in_flight_of (run_id : N) (_ : N) (te : ToolExecution) : bool :=
  bool_decide (te_agent_run te = run_id)
  && bool_decide (te_status te ∈ [ToolExecutionStatus.PENDING; ToolExecutionStatus.RUNNING]).

Definition orphaned_execution (now : Z) (te : ToolExecution) : ToolExecution :=
  {| te with te_status := ToolExecutionStatus.FAILED; te_error_code := "stuck_worker_recovered";
             te_completed_at := Some now |}.

Definition fail_in_flight_tool_executions (run_id : N) (now : Z) : service () :=
  update_rows (in_flight_of run_id) (orphaned_execution now).

Definition stuck_message : string :=
  "Recovered: no worker progress was observed before the staleness threshold.".

Definition recover_one_stuck_run (run_id : N) (cutoff now : Z) : service bool :=
  atomic (
    locked ← get_row run_id;
    if negb (has_status AgentRunStatus.RUNNING locked) then mret false
    else if (cutoff <? run_updated_at locked)%Z then mret false
    else
      save_run run_id
        (failed_run AgentRunStatus.FAILED "stuck_worker_recovered" stuck_message now locked);;
      next_sequence_and_create_step run_id AgentStepType.RUN_FAILED AgentStepStatus.FAILED []
        "stuck_worker_recovered";;
      record_event "agent.run_failed" "agent_run" run_id (run_created_by locked)
        (Some (run_workspace locked))
        [run_field run_id; ("failure_code", JStr "stuck_worker_recovered")];;
      fail_in_flight_tool_executions run_id now;;
      mret true).

(** Rows ordered by a time column, ties by identifier. *)
Definition time_order {A} (t : A → Z) (x y : N * A) : Prop :=
  (t x.2 < t y.2)%Z ∨ t x.2 = t y.2 ∧ (x.1 <= y.1)%N.
#[local] Instance time_order_dec {A} (t : A → Z) x y : Decision (time_order t x y).
Proof. unfold time_order. apply _. Defined.

Definition stuck_running (cutoff : Z) (_ : N) (r : AgentRun) : bool :=
  has_status AgentRunStatus.RUNNING r && (run_updated_at r <=? cutoff)%Z.
Definition stuck_pending (cutoff : Z) (_ : N) (r : AgentRun) : bool :=
  has_status AgentRunStatus.PENDING r && (run_created_at r <=? cutoff)%Z.

Fixpoint recover_each (run_ids : list N) (cutoff now : Z) (recovered : nat) : service nat :=
  match run_ids with
  | [] => mret recovered
  | run_id :: run_ids =>
      done ← recover_one_stuck_run run_id cutoff now;
      recover_each run_ids cutoff now (if (done : bool) then S recovered else recovered)
  end.

Definition redispatch_stuck_pending_runs (batch_size : nat) (now : Z) : service nat :=
  let cutoff := (now - seconds AGENTS_STUCK_RUN_PENDING_STALE_SECONDS)%Z in
  runs ← gets (λ w, merge_sort (time_order run_created_at) (select_rows (stuck_pending cutoff) w));
  let run_ids := take batch_size (map fst runs) in
  for_each run_ids dispatch_run;;
  mret (List.length run_ids).

Definition decided_before (cutoff : Z) (a : ApprovalRequest) : bool :=
  bool_decide (ar_status a ∈
    [ApprovalStatus.APPROVED; ApprovalStatus.REJECTED; ApprovalStatus.EXPIRED])
  && match ar_resolved_at a with Some t => (t <=? cutoff)%Z | None => false end.

(** The run of an approval request. *)
Definition run_of (w : World) (a : ApprovalRequest) : option AgentRun :=
  te ← w_tool_executions w !! ar_tool_execution a;
  w_agent_runs w !! te_agent_run te.

(** The join of the waiting runs with their decided requests, oldest run first. *)
Definition stuck_waiting (cutoff : Z) (w : World) : list N :=
  let waiting _ a :=
    decided_before cutoff a
    && match run_of w a with
       | Some r => has_status AgentRunStatus.WAITING_FOR_APPROVAL r | None => false end in
  let updated a := match run_of w a with Some r => run_updated_at r | None => 0%Z end in
  map fst (merge_sort (time_order updated) (select_rows waiting w)).

Definition redispatch_stuck_waiting_for_approval_runs (batch_size : nat) (now : Z) : service nat :=
  let cutoff := (now - seconds AGENTS_STUCK_RUN_WAITING_FOR_APPROVAL_STALE_SECONDS)%Z in
  waiting ← gets (stuck_waiting cutoff);
  let candidates := take batch_size waiting in
  for_each candidates dispatch_resume;;
  mret (List.length candidates).

Definition recover_stuck_agent_runs (batch_size : option nat) (now : option Z) : service nat :=
  now ← or_now now;
  let cutoff := (now - seconds AGENTS_STUCK_RUN_STALE_SECONDS)%Z in
  let batch_size := default AGENTS_STUCK_RUN_SWEEP_BATCH_SIZE batch_size in
  runs ← gets (λ w, merge_sort (time_order run_updated_at) (select_rows (stuck_running cutoff) w));
  recovered ← recover_each (take batch_size (map fst runs)) cutoff now 0;
  pending ← redispatch_stuck_pending_runs batch_size now;
  waiting ← redispatch_stuck_waiting_for_approval_runs batch_size now;
  mret (recovered + pending + waiting)%nat.
End AgentRuns.
