(* ===== verification/AgentSafety.v ===== *)
(** * What the life of a run guarantees

    The theorems on [AgentRuns].  A worker holds a run for as long as a provider or
    a tool needs; what other workers do to the database in the meantime is part of
    what the provider and the handlers do to the world, which here is anything that
    moves the runs along their life cycle. *)

From stdpp Require Import base gmap strings list pretty sorting relations.
From Stdlib Require Import ZArith Lia.
From S2P Require Import Prelude Json Domain Policy Models Store PolicyAdmin Delivery Network Webhooks Approvals ToolExec ToolSafety Graph Workspaces Conversations Tickets AgentRuns.

#[local] Open Scope nat_scope.

(** ** What leaves the runs and the messages alone *)

Definition core_frame : relation World := λ w w',
  w_agent_runs w' = w_agent_runs w ∧ w_messages w' = w_messages w ∧
  w_outer w' = w_outer w ∧ (w_next w <= w_next w')%N.
#[export] Instance core_frame_preorder : PreOrder core_frame.
Proof.
  split; [intros w; by split_and!|].
  intros w1 w2 w3 (?&?&?&?) (?&?&?&?). split_and!; try congruence. lia.
Qed.

(** A table whose rows are neither runs nor messages. *)
Class Quiet (A : Type) `{Table A} := set_rows_quiet m w : core_frame w (set_rows m w).
Ltac quiet_table := intros m w; split_and!; [reflexivity..|simpl; lia].
#[export] Instance quiet_tool_executions : Quiet ToolExecution. Proof. quiet_table. Qed.
#[export] Instance quiet_approvals : Quiet ApprovalRequest. Proof. quiet_table. Qed.
#[export] Instance quiet_risk_assessments : Quiet RiskAssessment. Proof. quiet_table. Qed.
#[export] Instance quiet_policy_evaluations : Quiet PolicyEvaluation. Proof. quiet_table. Qed.
#[export] Instance quiet_handoffs : Quiet HumanHandoff. Proof. quiet_table. Qed.
#[export] Instance quiet_conversations : Quiet Conversation. Proof. quiet_table. Qed.
#[export] Instance quiet_definitions : Quiet AgentDefinition. Proof. quiet_table. Qed.
#[export] Instance quiet_versions : Quiet AgentVersion. Proof. quiet_table. Qed.
#[export] Instance quiet_webhook_events : Quiet WebhookEvent. Proof. quiet_table. Qed.
#[export] Instance quiet_webhook_deliveries : Quiet WebhookDelivery. Proof. quiet_table. Qed.
#[export] Instance quiet_deliveries : Quiet Delivery. Proof. quiet_table. Qed.

(** A relation that allows all of that. *)
Class Core (R : relation World) := {
  core_preorder :: PreOrder R;
  core_sub w w' : core_frame w w' → R w w';
}.
#[export] Instance core_frame_core : Core core_frame.
Proof. by split; [apply _|]. Qed.

Create HintDb core_frame discriminated.

Section Frame.
Context (R : relation World) `{!Core R}.

Lemma core_pure {A} (m : service A) : (∀ w, (m w).2 = w) → included R m.
Proof. intros Hm w. rewrite Hm. reflexivity. Qed.

Lemma core_find_row {A} `{Table A} i : included R (find_row (A := A) i).
Proof. apply core_pure. done. Qed.
Lemma core_get_row {A} `{Table A} i : included R (get_row (A := A) i).
Proof.
  apply core_pure. intros w. change (wp (get_row i) (λ _ w', w' = w) w).
  apply wp_get_row. by destruct (rows w !! i).
Qed.
Lemma core_first_row {A} `{Table A} P : included R (first_row (A := A) P).
Proof. apply core_pure. done. Qed.
Lemma core_get_where {A} `{Table A} P : included R (get_where (A := A) P).
Proof.
  apply core_pure. intros w. change (wp (get_where P) (λ _ w', w' = w) w).
  apply wp_get_where. by destruct (select_rows P w) as [|? []].
Qed.
Lemma core_get_now : included R get_now.
Proof. apply core_pure. done. Qed.
Lemma core_fresh : included R fresh.
Proof. intros w. apply core_sub. split_and!; [done..|simpl; lia]. Qed.
Lemma core_save_row {A} `{Quiet A} i r : included R (save_row (A := A) i r).
Proof. intros w. apply core_sub, set_rows_quiet. Qed.
Lemma core_update_rows {A} `{Quiet A} P f : included R (update_rows (A := A) P f).
Proof. intros w. apply core_sub, set_rows_quiet. Qed.
Lemma core_create_row {A} `{Quiet A} r : included R (create_row (A := A) r).
Proof. unfold create_row. included_steps; [apply core_fresh|apply core_save_row]. Qed.
Lemma core_save_unique {A} `{Quiet A} clash i r : included R (save_unique (A := A) clash i r).
Proof. unfold save_unique. included_steps. apply core_save_row. Qed.
Lemma core_create_once {A} `{Quiet A} i r : included R (create_once (A := A) i r).
Proof. unfold create_once. included_steps. apply core_save_row. Qed.
Lemma core_save_fields {A} `{Quiet A} i f : included R (save_fields (A := A) i f).
Proof. unfold save_fields. included_steps; [apply core_get_row|apply core_save_row]. Qed.
Lemma core_record_event a tt ti ac ws md : included R (record_event a tt ti ac ws md).
Proof. intros w. apply core_sub. by split_and!. Qed.
Lemma core_publish t : included R (publish t).
Proof. intros w. apply core_sub. by split_and!. Qed.
End Frame.

#[export] Hint Resolve core_find_row core_get_row core_first_row core_get_where core_get_now
  core_fresh core_save_row core_update_rows core_create_row core_save_unique core_create_once
  core_save_fields core_record_event core_publish : core_frame.

(** Walks through a service; what is left are the parts that are not framed. *)
Ltac core_step :=
  lazymatch goal with
  | |- included _ (or_now _) => unfold or_now
  | |- included _ (_ ≫= _) => apply included_bind; [apply _| |intro]
  | |- included _ (catch _ _) => apply included_catch; [apply _| |intro]
  | |- included _ (for_each _ _) => apply included_for_each; [apply _|intro]
  | |- included _ (atomic _) => apply included_atomic; [apply _|]
  | |- included _ (attempt _) => apply included_attempt
  | |- included _ (when _ _) => apply included_when; [apply _|]
  | |- included _ (mret _) => apply included_ret, _
  | |- included _ (raise _) => apply included_raise, _
  | |- included _ (gets _) => apply included_gets, _
  | |- included _ (raise_if _ _) => apply included_raise_if, _
  | |- included _ (or_raise _ _) => apply included_or_raise, _
  | |- included _ (of_sum _) => apply included_of_sum, _
  | |- included _ (let '_ := ?x in _) => destruct x
  | |- included _ (match ?x with _ => _ end) => destruct x
  | |- included _ (let _ := _ in _) => cbv zeta
  | |- included _ _ => solve [auto 3 with core_frame typeclass_instances]
  end.
Ltac core_steps := repeat core_step.

(** ** The services a run goes through *)

Section Services.
Context `{Settings} `{PyLib} `{Network} `{Encoding}.
Context (R : relation World) `{!Core R}.

Lemma core_emit_event ws event_type data version :
  included R (emit_event ws event_type data version).
Proof.
  intros w. destruct (emit_event_effect ws event_type data version w)
    as (n & e & d & x & ids & Hn & Hw). rewrite Hw. apply core_sub. by split_and!.
Qed.

Lemma core_create_step run_id type status md code :
  included R (next_sequence_and_create_step run_id type status md code).
Proof.
  unfold next_sequence_and_create_step. core_steps. intros w. apply core_sub. by split_and!.
Qed.
Hint Resolve core_emit_event core_create_step : core_frame.

Lemma core_record_step run_id type status md code :
  included R (record_step run_id type status md code).
Proof. apply core_create_step. Qed.

Lemma core_cancel_approval i reason : included R (cancel_approval_for_execution i reason).
Proof. unfold cancel_approval_for_execution. core_steps. Qed.

Lemma core_cancel_handoffs run_id reason : included R (cancel_handoffs_for_run run_id reason).
Proof. unfold cancel_handoffs_for_run, cancel_handoff. core_steps. Qed.

Lemma core_create_handoff ws cid c reason summary run ticket :
  included R (create_or_reuse_handoff ws cid c reason summary run ticket).
Proof. unfold create_or_reuse_handoff, insert_handoff. core_steps. Qed.

Lemma core_cancel_executions run_id : included R (cancel_waiting_executions run_id).
Proof.
  unfold cancel_waiting_executions. core_steps. apply core_cancel_approval.
Qed.

Lemma core_create_approval i te requested_by evaluation risk role ttl arguments s :
  included R (create_or_reuse_approval_request i te requested_by evaluation risk role ttl arguments s).
Proof. unfold create_or_reuse_approval_request. core_steps. Qed.

Lemma core_fail_in_flight run_id now : included R (fail_in_flight_tool_executions run_id now).
Proof. unfold fail_in_flight_tool_executions. core_steps. Qed.

(** ** Tool calls

    Only the recorder, the handlers and the run's own budget are not framed. *)

Context (step : StepRecorder) (step_included : ∀ a b c d, included R (step a b c d)).
Context (tool_registry : Registry).
Context (handlers_included : ∀ key tool context arguments, tool_registry key = Some tool →
  included R (handler tool context arguments)).
Context (reserve_included : ∀ run_id m, included R (reserve_budget_slot run_id m)).

#[local] Ltac framed f := unfold f; core_steps.

Lemma core_transition_running i : included R (transition_running i).
Proof. framed transition_running. Qed.
Lemma core_transition_blocked i message : included R (transition_blocked_by_policy i message).
Proof. framed transition_blocked_by_policy. Qed.
Lemma core_transition_waiting i : included R (transition_waiting_for_approval i).
Proof. framed transition_waiting_for_approval. Qed.
Lemma core_finalize_success i output : included R (finalize_success i output).
Proof. framed finalize_success. Qed.
Lemma core_finalize_failure i status code message :
  included R (finalize_failure i status code message).
Proof. framed finalize_failure. Qed.
Lemma core_claim_resume i : included R (claim_resume i).
Proof. framed claim_resume. Qed.
Lemma core_policy_outcome {A} te : included R (raise_policy_terminal_outcome (A := A) te).
Proof. framed @raise_policy_terminal_outcome. Qed.
Hint Resolve core_transition_running core_transition_blocked core_transition_waiting
  core_finalize_success core_finalize_failure core_claim_resume core_policy_outcome
  core_create_approval step_included reserve_included : core_frame.

Lemma core_run_attempts fuel i tool context arguments n :
  included R (handler tool context arguments) →
  included R (run_attempts fuel i tool context arguments n).
Proof.
  intros Hh. revert n. induction fuel as [|fuel IH]; intros n; cbn [run_attempts];
    unfold invoke_with_timeout, validate_output; core_steps; auto.
Qed.

Lemma core_run_handler on_failure i tool context arguments n :
  (∀ a b, included R (on_failure a b)) → included R (handler tool context arguments) →
  included R (run_handler on_failure i tool context arguments n).
Proof.
  intros Hf Hh. unfold run_handler, run_with_retries. core_steps; auto.
  by apply core_run_attempts.
Qed.

Lemma core_claim_execution row fingerprint retry :
  included R (claim_execution row fingerprint retry).
Proof. unfold claim_execution, resolve_existing, create_execution. core_steps. Qed.

Lemma core_policy_gate i te s td requested_by arguments :
  included R (run_policy_gate step i te s td requested_by arguments).
Proof.
  unfold run_policy_gate, decide_gate, active_rules, resolve_active_version,
    persist_risk_assessment, persist_policy_evaluation. core_steps.
Qed.

Lemma core_registry_get {B} key (k : Tool → service B) :
  (∀ tool, tool_registry key = Some tool → included R (k tool)) →
  included R (registry_get tool_registry key ≫= k).
Proof.
  intros Hk. unfold registry_get. destruct (tool_registry key) as [tool|].
  - intros w. exact (Hk tool eq_refl w).
  - intros w. reflexivity.
Qed.

Lemma core_resolve_request run_id run key arguments ikey :
  included R (resolve_request step tool_registry run_id run key arguments ikey).
Proof.
  unfold resolve_request, resolve_binding, resolve_enabled_binding, check_advisory_budget,
    validate_arguments, effective_timeout, registry_get. core_steps.
Qed.

Lemma core_execute_claimed run_id run key rs i te :
  tool_registry key = Some (rs_tool rs) →
  included R (execute_claimed step run_id run key rs i te).
Proof.
  intros Hkey. unfold execute_claimed. core_steps.
  apply core_run_handler; [intros; core_steps|by eapply handlers_included].
Qed.

Lemma core_execute_tool run_id run key arguments ikey :
  included R (execute_tool step tool_registry run_id run key arguments ikey).
Proof.
  intros w. unfold execute_tool. apply included_bind_run; [apply _|apply core_resolve_request|].
  intros rs w1 Hrs. apply resolve_request_tool in Hrs. revert w1.
  match goal with |- ∀ w1, R w1 (?m w1).2 => change (included R m) end.
  unfold already_policy_evaluated. core_steps.
  - apply core_claim_execution.
  - apply core_policy_gate.
  - by apply core_execute_claimed.
Qed.

Lemma core_resume_claimed i te tool key arguments :
  tool_registry key = Some tool → included R (resume_claimed step i te tool arguments).
Proof.
  intros Hkey. unfold resume_claimed, fail_and_raise. core_steps.
  apply core_run_handler; [intros; core_steps|by eapply handlers_included].
Qed.

Lemma core_resume_after_approval i :
  included R (resume_after_approval step tool_registry i).
Proof.
  assert (Hbind : ∀ A B (m : service A) (k : A → service B),
    included R m → (∀ a, included R (k a)) → included R (m ≫= k))
    by (intros; by apply included_bind; [apply _| |]).
  unfold resume_after_approval, resume_lost, fail_and_raise.
  apply Hbind; [core_steps|]. intros _. apply Hbind; [core_steps|].
  intros [te|]; [|core_steps]. apply Hbind; [core_steps|]. intros approval.
  destruct (action_changed approval te); [core_steps|]. apply Hbind; [core_steps|]. intros td.
  apply core_registry_get. intros tool Htool. core_steps. by eapply core_resume_claimed.
Qed.
End Services.

(** ** The graph *)

Section GraphFrame.
Context `{TextEncoding} `{Settings}.
Context (R : relation World) `{!PreOrder R}.

Record context_included (ctx : RunContext) : Prop := {
  ci_generate request : included R (ctx_generate ctx request);
  ci_step a b c d : included R (ctx_record_step ctx a b c d);
  ci_tool f k a i : ctx_execute_tool ctx = Some f → included R (f k a i);
  ci_cancelled : included R (cancelled_now ctx);
}.

Lemma node_included ctx n s : context_included ctx → included R (run_node ctx n s).
Proof.
  intros [Hg Hs Ht Hc].
  destruct n; simpl;
    unfold prepare_run, check_budget_node, generate_response, handle_answer, execute_tool_call,
      execute_handoff_request, finalize_response, apply_tool_outcome, tool_result_step, get_now;
    included_steps; auto; by eapply Ht.
Qed.

Lemma invoke_included ctx limit n s :
  context_included ctx → included R (invoke limit ctx n s).
Proof.
  intros Hctx. revert n s. induction limit as [|limit IH]; intros n s; simpl.
  - apply included_raise, _.
  - destruct n as [n|]; [|apply included_ret, _].
    apply included_bind; [apply _|by apply node_included|auto].
Qed.
End GraphFrame.

(** ** The life of a run *)

(** How the services may change the status of a run. *)
Definition run_transitions (s : AgentRunStatus.t) : list AgentRunStatus.t :=
  match s with
  | AgentRunStatus.PENDING | AgentRunStatus.WAITING_FOR_APPROVAL =>
      [AgentRunStatus.RUNNING; AgentRunStatus.FAILED; AgentRunStatus.BUDGET_EXCEEDED;
       AgentRunStatus.CANCELLED]
  | AgentRunStatus.RUNNING =>
      [AgentRunStatus.WAITING_FOR_APPROVAL; AgentRunStatus.SUCCEEDED; AgentRunStatus.HANDED_OFF;
       AgentRunStatus.FAILED; AgentRunStatus.BUDGET_EXCEEDED; AgentRunStatus.CANCELLED]
  | _ => []
  end.
Definition run_moves (s s' : AgentRunStatus.t) : Prop := s' ∈ run_transitions s.

(** What a run was asked. *)
Definition same_request (r r' : AgentRun) : Prop :=
  run_workspace r' = run_workspace r ∧ run_agent_version r' = run_agent_version r ∧
  run_conversation r' = run_conversation r ∧ run_ticket r' = run_ticket r ∧
  run_trigger_message r' = run_trigger_message r ∧ run_trigger r' = run_trigger r ∧
  run_input_message r' = run_input_message r ∧ run_created_by r' = run_created_by r.

(** What the services may make of a run: what it was asked never changes, its status
    follows the table, and of a run that has ended only the count of its tool calls
    may still change. *)
Record run_evolves (r r' : AgentRun) : Prop := {
  re_identity : same_request r r';
  re_status : rtc run_moves (run_status r) (run_status r');
  re_ended : is_terminal r = true →
    ∃ n, r' = let r := r in {| r with run_tool_call_count := n |};
}.

(** The run has ended and says when. *)
Definition ended_consistent (r : AgentRun) : Prop :=
  is_terminal r = true ↔ is_Some (run_completed_at r) ∨ is_Some (run_cancelled_at r).

(** The run has answered its customer. *)
Definition has_answered (r : AgentRun) : Prop :=
  run_status r ∈ [AgentRunStatus.SUCCEEDED; AgentRunStatus.HANDED_OFF] ∧
  is_Some (run_conversation r) ∧ run_final_response r ≠ "".

(** The reply is a message of the run's conversation, with the response as its text. *)
Definition reply_of (w : World) (r : AgentRun) (m : N) : Prop :=
  ∃ msg, w_messages w !! m = Some msg ∧ msg_sender_type msg = MessageSenderType.AI_AGENT ∧
    run_conversation r = Some (msg_conversation msg) ∧ msg_workspace msg = run_workspace r ∧
    msg_body msg = run_final_response r.

Definition run_ok (w : World) (r : AgentRun) : Prop :=
  ended_consistent r ∧ (has_answered r ↔ is_Some (run_output_message r)) ∧
  ∀ m, run_output_message r = Some m → reply_of w r m.

Definition runs_wf (w : World) : Prop :=
  unique run_clash (w_agent_runs w) ∧
  (∀ i r, w_agent_runs w !! i = Some r → (i < w_next w)%N ∧ run_ok w r) ∧
  (∀ m msg, w_messages w !! m = Some msg → (m < w_next w)%N).

Definition run_rel (w w' : World) : Prop :=
  runs_wf w → runs_wf w' ∧
  (∀ m msg, w_messages w !! m = Some msg → w_messages w' !! m = Some msg) ∧
  ∀ i r, w_agent_runs w !! i = Some r → ∃ r', w_agent_runs w' !! i = Some r' ∧ run_evolves r r'.

Lemma terminal_stays s s' :
  s ∈ AGENT_RUN_TERMINAL_STATUSES → rtc run_moves s s' → s' = s.
Proof.
  intros Ht Hs. destruct Hs as [|s1 s2 s3 Hm _]; [done|]. exfalso. unfold run_moves in Hm.
  revert Hm. destruct s1; try (by apply not_elem_of_nil); revert Ht; absurd_mem.
Qed.

Lemma is_terminal_true r : is_terminal r = true ↔ run_status r ∈ AGENT_RUN_TERMINAL_STATUSES.
Proof. apply bool_decide_eq_true. Qed.

#[export] Instance run_evolves_preorder : PreOrder run_evolves.
Proof.
  split.
  - intros r. split; [by split_and!|reflexivity|]. intros _. exists (run_tool_call_count r).
    by destruct r.
  - intros r1 r2 r3 [Hi1 Hs1 He1] [Hi2 Hs2 He2]. split.
    + destruct Hi1 as (?&?&?&?&?&?&?&?), Hi2 as (?&?&?&?&?&?&?&?). split_and!; congruence.
    + by etrans.
    + intros Ht. destruct (He1 Ht) as [n ->]. destruct He2 as [n' ->]; [done|]. by exists n'.
Qed.

#[export] Instance run_rel_preorder : PreOrder run_rel.
Proof.
  split.
  - intros w Hwf. split_and!; [done..|]. intros i r Hi. exists r. by split.
  - intros w1 w2 w3 H12 H23 Hwf. destruct (H12 Hwf) as (Hwf2 & Hm & Hr).
    destruct (H23 Hwf2) as (Hwf3 & Hm' & Hr'). split_and!; [done|by eauto|].
    intros i r Hi. destruct (Hr i r Hi) as (r2 & Hi2 & He). destruct (Hr' i r2 Hi2) as (r3 & Hi3 & He').
    exists r3. split; [done|by etrans].
Qed.

(** A run is fine wherever its message still is. *)
Lemma run_ok_messages w w' r :
  (∀ m msg, w_messages w !! m = Some msg → w_messages w' !! m = Some msg) →
  run_ok w r → run_ok w' r.
Proof.
  intros Hm (He & Ha & Ho). split_and!; [done|apply Ha..|].
  intros m Hr. destruct (Ho m Hr) as (msg & Hmsg & Hrest). exists msg. split; [by apply Hm|done].
Qed.

#[export] Instance run_rel_core : Core run_rel.
Proof.
  split; [apply _|]. intros w w' (Hr & Hm & Hn) (Hu & Hok & Hlt). unfold runs_wf. rewrite Hr, Hm.
  split_and!; [done| |by intros m msg Hmsg; specialize (Hlt m msg Hmsg); lia|done|].
  - intros i r Hi. destruct (Hok i r Hi) as [Hi' Hrok]. split; [lia|].
    apply (run_ok_messages w); [by rewrite Hm|done].
  - intros i r Hi. exists r. by split.
Qed.

(** Writing the row of a run. *)
Definition with_run (i : N) (r : AgentRun) (w : World) : World :=
  {| w with w_agent_runs := <[i := r]> (w_agent_runs w) |}.

Lemma run_clash_sym a b : run_clash a b = run_clash b a.
Proof.
  assert (Hs : ∀ x y, same_message x y = same_message y x)
    by (intros [x|] [y|]; simpl; try done; apply N.eqb_sym).
  unfold run_clash. by rewrite (Hs (run_trigger_message a)), (Hs (run_output_message a)).
Qed.

Lemma write_run w i r r' :
  w_agent_runs w !! i = Some r → run_evolves r r' →
  (run_ok w r → run_ok w r') →
  (runs_wf w → clashes run_clash i r' w = false) →
  run_rel w (with_run i r' w).
Proof.
  intros Hi He Hok' Hc Hwf. specialize (Hc Hwf). destruct Hwf as (Hu & Hok & Hlt).
  split; [split_and!; simpl|split; [done|]]; simpl.
  - exact (unique_insert run_clash run_clash_sym i r' w Hu Hc).
  - intros j q [[<- <-]|[_ Hj]]%lookup_insert_Some.
    + destruct (Hok i r Hi). split; [done|]. by apply Hok'.
    + by apply Hok.
  - exact Hlt.
  - intros j q Hj. destruct (decide (i = j)) as [<-|Hne].
    + rewrite lookup_insert_eq. exists r'. split; [done|]. by simplify_eq.
    + rewrite lookup_insert_ne by done. exists q. by split.
Qed.

(** A row that keeps its messages clashes with no other. *)
Lemma same_messages_no_clash w i r r' :
  w_agent_runs w !! i = Some r → run_trigger_message r' = run_trigger_message r →
  run_output_message r' = run_output_message r → runs_wf w → clashes run_clash i r' w = false.
Proof.
  intros Hi Ht Ho (Hu & _). apply clashes_false. intros j q Hj Hne.
  assert (run_clash r q = false) as Hq by (by apply (Hu i j)).
  unfold run_clash in *. by rewrite Ht, Ho.
Qed.

Lemma reserve_slot_rel run_id m : included run_rel (reserve_budget_slot run_id m).
Proof.
  intros w. change (wp (reserve_budget_slot run_id m) (λ _, run_rel w) w).
  unfold reserve_budget_slot. svc_steps; try reflexivity. rename a into r.
  apply (write_run w run_id r); [done| | |by apply (same_messages_no_clash w run_id r)].
  - split; [by split_and!|reflexivity|]. intros _. by eexists.
  - intros (He & Ha & Ho). by split_and!.
Qed.

(** ** Each transition *)

Lemma wp_save_run i r (Q : exn + () → World → Prop) w :
  Q (inl DataError) w → Q (inl IntegrityError) w →
  (clashes run_clash i (stored_run (w_now w) r) w = false →
   Q (inr ()) (with_run i (stored_run (w_now w) r) w)) →
  wp (save_run i r) Q w.
Proof.
  intros Hd Hi HQ. unfold save_run. svc_steps; [done|]. apply wp_save_unique.
  destruct (clashes _ _ _ _); [done|by apply HQ].
Qed.

(** Saving a row that evolves from the stored one. *)
Lemma save_run_rel i r r' w :
  w_agent_runs w !! i = Some r → run_evolves r (stored_run (w_now w) r') →
  (run_ok w r → run_ok w (stored_run (w_now w) r')) →
  wp (save_run i r') (λ _, run_rel w) w.
Proof.
  intros Hi He Hok. apply wp_save_run; [reflexivity..|]. intros Hc. by apply (write_run w i r).
Qed.

(** A transition of a run that has not ended: what it was asked stays, the status
    moves along the table. *)
Lemma live_evolves r r' :
  is_terminal r = false →
  same_request r r' →
  run_status r' ∈ run_transitions (run_status r) → run_evolves r r'.
Proof. intros Ht Hi Hs. split; [done|by apply rtc_once|congruence]. Qed.

(** An open run has not answered yet. *)
Lemma live_no_output w r : is_terminal r = false → run_ok w r → run_output_message r = None.
Proof.
  intros Ht (_ & Ha & _). destruct (run_output_message r) as [m|]; [|done].
  destruct (proj2 Ha) as (Hs & _); [by eexists|]. exfalso. revert Ht. unfold is_terminal.
  rewrite bool_decide_eq_true_2; [done|]. revert Hs. destruct (run_status r); absurd_mem || intros _; by mem_decide.
Qed.

(** A transition that answers nobody. *)
Lemma silent_ok w r r' :
  is_terminal r = false → run_output_message r' = run_output_message r →
  run_status r' ∉ [AgentRunStatus.SUCCEEDED; AgentRunStatus.HANDED_OFF] →
  ended_consistent r' → run_ok w r → run_ok w r'.
Proof.
  intros Ht Ho Hs He Hok. pose proof (live_no_output w r Ht Hok) as Hnone.
  split_and!; [done| |by intros m; rewrite Ho, Hnone].
  rewrite Ho, Hnone. split; [by intros (? & _)|by intros []].
Qed.

Lemma live_ended r : is_terminal r = false → ended_consistent r →
  run_completed_at r = None ∧ run_cancelled_at r = None.
Proof.
  unfold ended_consistent. intros Ht He.
  destruct (run_completed_at r), (run_cancelled_at r); try done.
  all: exfalso; assert (is_terminal r = true) by (apply He; eauto); congruence.
Qed.

(** The two saves: an ended run, and one that goes on. *)
Lemma save_ended i r status w f :
  w_agent_runs w !! i = Some r → is_terminal r = false →
  status ∈ [AgentRunStatus.FAILED; AgentRunStatus.BUDGET_EXCEEDED; AgentRunStatus.CANCELLED] →
  run_status f = status → (is_Some (run_completed_at f) ∨ is_Some (run_cancelled_at f)) →
  run_output_message f = run_output_message r →
  same_request r f →
  wp (save_run i f) (λ _, run_rel w) w.
Proof.
  intros Hi Ht Hs <- Hend Ho Hid. apply (save_run_rel i r); [done| |].
  - apply live_evolves; [done|done|]. simpl. revert Ht Hs. unfold is_terminal.
    destruct (run_status r); intros Ht Hs; try (exfalso; revert Ht; vm_compute; discriminate).
    all: revert Hs; destruct (run_status f); absurd_mem || intros _; by mem_decide.
  - intros Hok. apply (silent_ok w r); [done|done| | |done]; simpl.
    + intros Hin. revert Hs Hin. destruct (run_status f); absurd_mem || (intros _; absurd_mem).
    + unfold ended_consistent, is_terminal. simpl. rewrite bool_decide_eq_true_2; [done|].
      revert Hs. destruct (run_status f); absurd_mem || intros _; by mem_decide.
Qed.

(** A run that goes on. *)
Lemma open_evolves w r f :
  is_terminal r = false →
  run_status f ∈ run_transitions (run_status r) →
  run_status f ∈ [AgentRunStatus.RUNNING; AgentRunStatus.WAITING_FOR_APPROVAL] →
  run_completed_at f = run_completed_at r → run_cancelled_at f = run_cancelled_at r →
  run_output_message f = run_output_message r → same_request r f →
  run_evolves r f ∧ (run_ok w r → run_ok w f).
Proof.
  intros Ht Hs Hopen Hco Hca Ho Hid. split; [by apply live_evolves|].
  intros Hok. apply (silent_ok w r); [done|done| | |done].
  - intros Hin. revert Hopen Hin. destruct (run_status f); absurd_mem || (intros _; absurd_mem).
  - destruct Hok as (He & _). destruct (live_ended r Ht He) as [Hc Hx].
    unfold ended_consistent, is_terminal. rewrite Hco, Hca, Hc, Hx.
    rewrite bool_decide_eq_false_2; [by split; [|intros [[]|[]]]|].
    revert Hopen. destruct (run_status f); absurd_mem || (intros _; absurd_mem).
Qed.

Lemma still_open s r :
  negb (has_status s r) = false → s ∉ AGENT_RUN_TERMINAL_STATUSES →
  run_status r = s ∧ is_terminal r = false.
Proof.
  unfold has_status, is_terminal. intros Hs%negb_false_iff%bool_decide_eq_true Hn. subst s.
  split; [done|by apply bool_decide_eq_false_2].
Qed.

#[export] Hint Resolve core_create_step core_record_step core_emit_event core_cancel_executions
  core_cancel_handoffs core_create_handoff core_fail_in_flight : core_frame.

Section Transitions.
Context `{Settings} `{PyLib} `{Network} `{Encoding} `{TextEncoding} `{Providers}.

(** The locked row, up to its write. *)
#[local] Ltac to_save := apply included_of_wp; intros w; apply wp_atomic_rel; [apply _|];
  repeat svc_step; try reflexivity.
(** What follows the write is framed. *)
#[local] Ltac then_core :=
  apply wp_bind_inv, wp_bind_rel; [apply _| |intros; apply wp_of_included; core_steps].
(** The run goes on, in a status it may move to. *)
#[local] Ltac stays_open w a f :=
  match goal with Hs : negb (has_status _ a) = false |- _ =>
    let Hst := fresh in let Ht := fresh in
    apply still_open in Hs as [Hst Ht]; [|absurd_mem];
    destruct (open_evolves w a f) as [He Hok];
      [done|simpl; rewrite Hst; by mem_decide|by mem_decide|done..|by split_and!|]
  end.

Lemma claim_included i : included run_rel (claim_agent_run i).
Proof.
  unfold claim_agent_run. to_save. then_core.
  stays_open w a (stored_run (w_now w) (claimed_run (w_now w) a)). by apply (save_run_rel i a).
Qed.

Lemma claim_for_resume_included i : included run_rel (claim_run_for_resume i).
Proof.
  unfold claim_run_for_resume. to_save. stays_open w a (resumed_run (w_now w) a).
  apply (write_run w i a); [done..|]. by apply (same_messages_no_clash w i a).
Qed.

Lemma pause_included i result : included run_rel (pause_run_for_approval i result).
Proof.
  unfold pause_run_for_approval. to_save. then_core.
  stays_open w a (stored_run (w_now w) (waiting_run (apply_usage result a))).
  by apply (save_run_rel i a).
Qed.

Lemma finish_failed_included i status code message result :
  status ∈ [AgentRunStatus.FAILED; AgentRunStatus.BUDGET_EXCEEDED; AgentRunStatus.CANCELLED] →
  included run_rel (finish_failed i status code message result).
Proof.
  intros Hs. unfold finish_failed. to_save. then_core.
  by apply (save_ended i a status); [..|left; eexists|destruct result|destruct result].
Qed.

Lemma fail_run_included i code message result : included run_rel (fail_run i code message result).
Proof. unfold fail_run. apply finish_failed_included. by mem_decide. Qed.
Lemma budget_exceeded_included i reason result :
  included run_rel (budget_exceeded_run i reason result).
Proof. unfold budget_exceeded_run. apply finish_failed_included. by mem_decide. Qed.

Lemma cancel_included ws i actor : included run_rel (cancel_agent_run ws i actor).
Proof.
  unfold cancel_agent_run. to_save. then_core.
  by apply (save_ended i a AgentRunStatus.CANCELLED); [| |mem_decide| |right; eexists| |].
Qed.

Lemma recover_one_included i cutoff now : included run_rel (recover_one_stuck_run i cutoff now).
Proof.
  unfold recover_one_stuck_run. to_save. then_core.
  apply still_open in Heqb as [_ Ht]; [|absurd_mem].
  by apply (save_ended i a AgentRunStatus.FAILED); [| |mem_decide| |left; eexists| |].
Qed.

(** *** The reply *)

Definition reply (ws cid : N) (body : string) (msg : Message) : Prop :=
  msg_sender_type msg = MessageSenderType.AI_AGENT ∧ msg_conversation msg = cid ∧
  msg_workspace msg = ws ∧ msg_body msg = body.

(** Only a new message, and its conversation. *)
Definition message_added (w w' : World) (msg : Message) : Prop :=
  w_messages w' = <[w_next w := msg]> (w_messages w) ∧ w_agent_runs w' = w_agent_runs w ∧
  w_next w' = N.succ (w_next w) ∧ w_now w' = w_now w.

Lemma wp_create_reply ws cid c body md (Q : exn + N → World → Prop) w :
  (∀ e, Q (inl e) w) →
  (∀ msg w', reply ws cid body msg → message_added w w' msg → Q (inr (w_next w)) w') →
  wp (create_ai_agent_message ws cid c body None md) Q w.
Proof.
  intros He HQ. unfold create_ai_agent_message, create_message. repeat svc_step; auto.
  apply wp_save_fields. destruct (rows _ !! cid); wp_beta; [|apply He]. repeat svc_step.
  eapply HQ; [|by split_and!]. by split_and!.
Qed.

Lemma message_added_rel w w' msg : message_added w w' msg → run_rel w w'.
Proof.
  intros (Hm & Hr & Hn & _) (Hu & Hok & Hlt). unfold runs_wf. rewrite Hr, Hm, Hn.
  assert (Hkeep : ∀ m x, w_messages w !! m = Some x → <[w_next w := msg]> (w_messages w) !! m = Some x).
  { intros m x Hx. rewrite lookup_insert_ne; [done|]. intros <-. apply Hlt in Hx. lia. }
  split_and!; [done| | |done|].
  - intros i r Hi. destruct (Hok i r Hi). split; [lia|].
    apply (run_ok_messages w); [by rewrite Hm|done].
  - intros m x [[<- _]|[_ Hx]]%lookup_insert_Some; [lia|]. apply Hlt in Hx. lia.
  - intros i r Hi. exists r. by split.
Qed.

(** The output of a run that has none yet. *)
Lemma wp_output_of i r conversation body md (Q : exn + option N → World → Prop) w :
  run_output_message r = None →
  (∀ e, Q (inl e) w) →
  (conversation = None ∨ body = "" → Q (inr None) w) →
  (∀ cid c msg w', conversation = Some (cid, c) → body ≠ "" →
     reply (run_workspace r) cid body msg → message_added w w' msg →
     Q (inr (Some (w_next w))) w') →
  wp (output_of i r conversation body md) Q w.
Proof.
  intros Hnone He Hno Hyes. unfold output_of. rewrite Hnone.
  destruct conversation as [[cid c]|]; [|apply wp_ret; auto].
  destruct (String.eqb_spec body "") as [->|Hb]; [apply wp_ret; auto|].
  apply wp_bind, wp_create_reply; [auto|]. intros msg w' Hr Ha. wp_beta. apply wp_ret. eauto.
Qed.

(** An answering end: the reply and the run that names it. *)
Lemma completed_ok w r status response output now f :
  is_terminal r = false → run_ok w r →
  status ∈ [AgentRunStatus.SUCCEEDED; AgentRunStatus.HANDED_OFF] →
  same_request r f → run_cancelled_at f = run_cancelled_at r →
  (output = None ∧ (run_conversation r = None ∨ response = "") ∨
   ∃ m msg cid, output = Some m ∧ w_messages w !! m = Some msg ∧ response ≠ "" ∧
     run_conversation r = Some cid ∧ reply (run_workspace r) cid response msg) →
  run_ok w (completed_run status response output now f).
Proof.
  intros Ht Hok Hs (Hw & _ & Hcv & _) Hca Hout. split_and!.
  - unfold ended_consistent, is_terminal. simpl. rewrite bool_decide_eq_true_2; [by split; eauto|].
    revert Hs. destruct status; absurd_mem || intros _; by mem_decide.
  - unfold has_answered. simpl. rewrite Hcv. destruct Hout as [[-> Hno]|(m & msg & cid & -> & _ & Hb & -> & _)].
    + split; [|by intros []]. intros (_ & Hsome & Hne). destruct Hno as [Hno|Hno]; [|done].
      rewrite Hno in Hsome. by destruct Hsome.
    + by split; eauto.
  - simpl. intros m Hm. destruct Hout as [[-> _]|(m' & msg & cid & -> & Hmsg & _ & Hc & ?&?&?&?)]; [done|].
    injection Hm as ->. exists msg. simpl. rewrite Hcv, Hw. split_and!; congruence.
Qed.

(** Writing the reply, then the run. *)
Lemma answer_rel {A} i r status body md now f conversation (k : () → service A) w :
  w_agent_runs w !! i = Some r → run_status r = AgentRunStatus.RUNNING →
  status ∈ [AgentRunStatus.SUCCEEDED; AgentRunStatus.HANDED_OFF] →
  fst <$> conversation = run_conversation r →
  same_request r f → run_cancelled_at f = run_cancelled_at r →
  (∀ a, included run_rel (k a)) →
  wp (output ← output_of i r conversation body md;
      save_run i (completed_run status body output now f) ≫= k) (λ _, run_rel w) w.
Proof.
  intros Hi Hr Hs Hcv Hid Hca Hk Hwf. refine (_ Hwf).
  change (wp (output ← output_of i r conversation body md;
      save_run i (completed_run status body output now f) ≫= k) (λ _, run_rel w) w).
  assert (Ht : is_terminal r = false)
    by (unfold is_terminal; rewrite Hr; apply bool_decide_eq_false_2; absurd_mem).
  assert (Hok : run_ok w r) by (by apply Hwf in Hi as [_ ?]).
  assert (Hev : ∀ n output, run_evolves r (stored_run n (completed_run status body output now f))).
  { intros n output. apply live_evolves; [done|done|]. simpl. rewrite Hr.
    revert Hs. destruct status; absurd_mem || intros _; by mem_decide. }
  apply wp_bind, wp_output_of.
  - by apply (live_no_output w).
  - intros e. wp_beta. reflexivity.
  - intros Hno. wp_beta. apply wp_bind_rel; [apply _| |intros; by apply Hk].
    apply (save_run_rel i r); [done|done|]. intros _.
    apply (completed_ok w r); [done..|]. left. split; [done|].
    destruct Hno as [Hno|Hno]; [left; by rewrite <-Hcv, Hno|by right].
  - intros cid c msg w' Hc Hb Hmsg Hadd. wp_beta.
    eapply wp_mono; [|intros r' w2 Hw2; etrans; [by eapply message_added_rel|exact Hw2]].
    destruct Hadd as (Hm & Hruns & Hn & Hnow).
    apply wp_bind_rel; [apply _| |intros; by apply Hk].
    apply (save_run_rel i r); [by rewrite Hruns|done|]. intros Hok'.
    apply (completed_ok w' r); [done..|]. right. exists (w_next w), msg, cid.
    rewrite Hm, lookup_insert_eq. by split_and!; [..|rewrite <-Hcv, Hc|].
Qed.

Lemma load_conversation_run r Q w :
  (∀ e, Q (inl e) w) → (∀ conv, fst <$> conv = run_conversation r → Q (inr conv) w) →
  wp (load_conversation r) Q w.
Proof.
  intros He HQ. unfold load_conversation. destruct (run_conversation r) as [cid|]; [|by apply HQ].
  repeat svc_step; [by apply HQ|apply He].
Qed.

Lemma complete_run_included i result md : included run_rel (complete_run i result md).
Proof.
  unfold complete_run, route_response. to_save. apply still_open in Heqb as [Hr _]; [|absurd_mem].
  apply load_conversation_run; [intros e; wp_beta; reflexivity|]. intros conv Hconv. wp_beta. cbv zeta.
  apply answer_rel; [done|done|by mem_decide|done|by split_and!|done|].
  intros a'. core_steps.
Qed.

(** A framed computation before the rest. *)
Lemma core_bind {A B} (m : service A) (k : A → service B) w :
  included core_frame m →
  (∀ a w', w_agent_runs w' = w_agent_runs w → wp (k a) (λ _, run_rel w') w') →
  wp (m ≫= k) (λ _, run_rel w) w.
Proof.
  intros Hm Hk. apply wp_bind. eapply wp_mono; [by apply wp_of_included|].
  intros [e|a] w' Hw'; wp_beta; [by apply core_sub|].
  eapply wp_mono; [apply Hk, Hw'|]. intros r w2 Hw2. etrans; [by apply core_sub|done].
Qed.

Lemma complete_as_handoff_included i result request :
  included run_rel (complete_run_as_handoff i result request).
Proof.
  unfold complete_run_as_handoff, route_response. to_save.
  apply still_open in Heqb as [Hr _]; [|absurd_mem].
  apply load_conversation_run; [intros e; wp_beta; reflexivity|]. intros conv Hconv. wp_beta.
  destruct conv as [c|]; [|apply wp_bind, wp_raise; wp_beta; reflexivity].
  apply wp_bind, wp_ret. wp_beta.
  apply core_bind; [unfold load_ticket; core_steps|]. intros ticket w2 Hw2.
  apply core_bind; [core_steps|]. intros reason w3 Hw3.
  apply core_bind; [core_steps|]. intros handoff w4 Hw4.
  apply core_bind; [core_steps|]. intros now w5 Hw5. cbv zeta.
  apply answer_rel; [|done|by mem_decide|done|by split_and!|done|].
  - by rewrite Hw5, Hw4, Hw3, Hw2.
  - intros a'. core_steps.
Qed.

(** *** Creation *)

Lemma insert_run_included ws v actor input trigger cv tk tm md rid now :
  included run_rel (insert_run (new_run ws v actor input trigger cv tk tm md rid now)).
Proof.
  apply included_of_wp. intros w. unfold insert_run. apply wp_bind, wp_fresh. wp_beta.
  set (w1 := {| w with w_next := N.succ (w_next w) |}).
  assert (Hw1 : run_rel w w1) by (apply core_sub; split_and!; [done..|simpl; lia]).
  apply wp_bind, wp_save_run; wp_beta; [exact Hw1..|]. intros Hc.
  apply wp_ret. intros Hwf. destruct (Hw1 Hwf) as (Hwf1 & _ & _).
  assert (Hnone : w_agent_runs w !! w_next w = None).
  { destruct (w_agent_runs w !! w_next w) eqn:Hr; [|done]. apply Hwf in Hr as [? _]. lia. }
  destruct Hwf1 as (Hu & Hok & Hlt).
  split; [split_and!|split; [done|]]; simpl.
  - exact (unique_insert run_clash run_clash_sym _ _ w1 Hu Hc).
  - intros j r [[<- <-]|[_ Hj]]%lookup_insert_Some; [|by apply Hok].
    split; [lia|]. split_and!; [|split; [by intros (Hs & _); revert Hs; absurd_mem|by intros []]|done].
    unfold ended_consistent. simpl. split; [by intros Ht; revert Ht; vm_compute|by intros [[]|[]]].
  - exact Hlt.
  - intros j r Hj. exists r. rewrite lookup_insert_ne; [by split|]. intros <-. congruence.
Qed.

Lemma create_agent_run_included ws vid v actor input trigger cv tk tm md rid :
  included run_rel (create_agent_run ws vid v actor input trigger cv tk tm md rid).
Proof.
  unfold create_agent_run, dispatch_run. core_steps; apply insert_run_included.
Qed.
End Transitions.

(** ** Workers *)

Section Lifecycle.
Context `{Settings} `{PyLib} `{Network} `{Encoding} `{TextEncoding} `{Providers}.
Context (tool_registry : Registry).

(** What a handler, a provider, or another worker meanwhile, may do. *)
Definition handlers_allowed : Prop := ∀ key tool context arguments,
  tool_registry key = Some tool → included run_rel (handler tool context arguments).
Definition provider_allowed (p : Provider) : Prop := ∀ request, included run_rel (p request).

Context (handlers_ok : handlers_allowed).
Context (fake_ok : provider_allowed fake_provider) (openai_ok : provider_allowed openai_provider).

Lemma version_provider_ok v p : version_provider v = inr p → provider_allowed p.
Proof.
  unfold version_provider, provider_for, get_llm_provider.
  repeat case_match; intros [= <-]; done.
Qed.

Lemma bound_tool_included i run name arguments key :
  included run_rel (bound_execute_tool tool_registry i run name arguments key).
Proof.
  unfold bound_execute_tool. apply included_bind; [apply _| |].
  - apply included_attempt. apply core_execute_tool; [apply _| |exact handlers_ok|].
    + intros. apply core_record_step, _.
    + apply reserve_slot_rel.
  - intros r. unfold tool_outcome. core_steps.
Qed.

Lemma execution_context_included i run v p messages descriptors started :
  provider_allowed p →
  context_included run_rel
    (execution_context tool_registry i run v p messages descriptors started).
Proof.
  intros Hp. split; simpl.
  - exact Hp.
  - intros. apply core_record_step, _.
  - intros f k a n [= <-]. apply bound_tool_included.
  - apply included_gets, _.
Qed.

Lemma resume_context_included i run v p started :
  provider_allowed p →
  context_included run_rel (resume_context tool_registry i run v p started).
Proof.
  intros Hp. destruct (execution_context_included i run v p None [] started Hp).
  split; [done..|]. apply included_ret, _.
Qed.

Hint Resolve fail_run_included budget_exceeded_included complete_run_included
  complete_as_handoff_included pause_included claim_included claim_for_resume_included : core_frame.

Lemma fail_or_handoff_included i run code result :
  included run_rel (fail_or_handoff i run code result).
Proof. unfold fail_or_handoff, handoff_for_runtime_failure. core_steps. Qed.
Hint Resolve fail_or_handoff_included : core_frame.

Lemma conclude_included i run result md : included run_rel (conclude i run result md).
Proof. unfold conclude. core_steps. Qed.
Hint Resolve conclude_included : core_frame.

Lemma get_descriptors_included vid v ws :
  included run_rel (get_bound_tool_descriptors tool_registry vid v ws).
Proof.
  unfold get_bound_tool_descriptors. core_steps.
  match goal with |- included _ (bound_descriptors _ ?l) => induction l as [|b l IH] end; simpl;
    unfold bound_descriptor; core_steps.
Qed.

Lemma execute_with_included i run v p messages descriptors md :
  provider_allowed p →
  included run_rel (execute_with tool_registry i run v p messages descriptors md).
Proof.
  intros Hp. unfold execute_with, internal_failure, current_status. core_steps.
  apply invoke_included; [apply _|by apply execution_context_included].
Qed.

Lemma execute_claimed_included i run messages md descriptors p :
  (∀ q, p = Some q → provider_allowed q) →
  included run_rel (execute_claimed_agent_run tool_registry i run messages md descriptors p).
Proof.
  intros Hp. unfold execute_claimed_agent_run, descriptors_for. core_step; [core_step|].
  core_step; [core_steps; apply get_descriptors_included|].
  destruct a0 as [d|]; [|core_steps].
  destruct p as [q|]; [by apply execute_with_included, Hp|].
  destruct (version_provider a) as [e|q] eqn:Hq; [core_steps|].
  by eapply execute_with_included, version_provider_ok.
Qed.

Lemma execute_included i : included run_rel (execute_agent_run tool_registry i).
Proof.
  unfold execute_agent_run, current_status. core_steps. by apply execute_claimed_included.
Qed.

Lemma continue_included i run summary :
  included run_rel (continue_run_after_resumed_tool tool_registry i run summary).
Proof.
  unfold continue_run_after_resumed_tool, internal_failure. core_step; [core_step|].
  destruct (version_provider a) as [e|p] eqn:Hp; [core_steps|]. core_steps.
  apply invoke_included; [apply _|]. by eapply resume_context_included, version_provider_ok.
Qed.
Hint Resolve continue_included : core_frame.

Lemma resume_included a : included run_rel (resume_agent_run_after_approval tool_registry a).
Proof.
  unfold resume_agent_run_after_approval, resume_approved, resume_denied. core_steps.
  apply core_resume_after_approval; [apply _| |exact handlers_ok|apply reserve_slot_rel].
  intros. apply core_record_step, _.
Qed.

Lemma recover_each_included l cutoff now n : included run_rel (recover_each l cutoff now n).
Proof.
  revert n. induction l as [|i l IH]; intros n; simpl; core_steps. apply recover_one_included.
Qed.

Lemma recover_included batch now : included run_rel (recover_stuck_agent_runs batch now).
Proof.
  unfold recover_stuck_agent_runs, redispatch_stuck_pending_runs,
    redispatch_stuck_waiting_for_approval_runs, dispatch_run, dispatch_resume.
  core_steps. apply recover_each_included.
Qed.

Lemma operational_step_included i event md :
  included run_rel (record_agent_operational_step i event md).
Proof. apply core_record_step, _. Qed.

(** ** The operations on agents *)

Inductive agent_op : relation World :=
  | op_create_definition ws actor name description w :
      agent_op w (create_agent_definition ws actor name description w).2
  | op_update_definition ws i d actor data w :
      agent_op w (update_agent_definition ws i d actor data w).2
  | op_create_version ws i d actor data w :
      agent_op w (create_agent_version ws i d actor data w).2
  | op_publish_version ws i actor w : agent_op w (publish_agent_version ws i actor w).2
  | op_create_run ws i v actor input trigger cv tk tm md rid w :
      agent_op w (create_agent_run ws i v actor input trigger cv tk tm md rid w).2
  | op_claim i w : agent_op w (claim_agent_run i w).2
  | op_execute_claimed i run messages md descriptors p w :
      (∀ q, p = Some q → provider_allowed q) →
      agent_op w (execute_claimed_agent_run tool_registry i run messages md descriptors p w).2
  | op_execute i w : agent_op w (execute_agent_run tool_registry i w).2
  | op_resume a w : agent_op w (resume_agent_run_after_approval tool_registry a w).2
  | op_cancel ws i actor w : agent_op w (cancel_agent_run ws i actor w).2
  | op_fail_claimed i code message w : agent_op w (fail_claimed_agent_run i code message w).2
  | op_existing_handoff i run w :
      agent_op w (complete_run_via_existing_active_handoff i run w).2
  | op_operational_step i event md w :
      agent_op w (record_agent_operational_step i event md w).2
  | op_recover batch now w : agent_op w (recover_stuck_agent_runs batch now w).2
  | op_tick t w : agent_op w {| w with w_now := t |}.

Lemma definition_ops_included :
  (∀ ws actor name description, included run_rel (create_agent_definition ws actor name description))
  ∧ (∀ ws i d actor data, included run_rel (update_agent_definition ws i d actor data))
  ∧ (∀ ws i d actor data, included run_rel (create_agent_version ws i d actor data))
  ∧ (∀ ws i actor, included run_rel (publish_agent_version ws i actor)).
Proof.
  unfold create_agent_definition, update_agent_definition, create_agent_version,
    publish_agent_version, save_definition.
  split_and!; intros; core_steps.
Qed.

Lemma agent_op_rel w w' : agent_op w w' → run_rel w w'.
Proof.
  destruct definition_ops_included as (Hcd & Hud & Hcv & Hpv).
  intros Hop. destruct Hop.
  - apply Hcd.
  - apply Hud.
  - apply Hcv.
  - apply Hpv.
  - apply create_agent_run_included.
  - apply claim_included.
  - by apply execute_claimed_included.
  - apply execute_included.
  - apply resume_included.
  - apply cancel_included.
  - apply fail_run_included.
  - apply complete_as_handoff_included.
  - apply operational_step_included.
  - apply recover_included.
  - apply core_sub. by split_and!.
Qed.

(** C2. Runs keep what they were asked and follow their life cycle.  Along any
    sequence of the operations on agents, with handlers and providers during which
    other workers may act in the same way: a run is never lost; its workspace,
    version, conversation, ticket, trigger and input never change; its status moves
    along the table [run_transitions]; of a run that has ended nothing changes any
    more but the count of its tool calls; it has an end time exactly when it has
    ended; no two runs answer or were triggered by the same message; and a run names
    a reply exactly when it succeeded or was handed off in a conversation with
    something to say, the reply then being a message of that conversation, of the
    agent, with the run's response as its text. *)
Theorem agent_runs_lifecycle w w' :
  rtc agent_op w w' → runs_wf w →
  runs_wf w' ∧
  ∀ i r, w_agent_runs w !! i = Some r → ∃ r', w_agent_runs w' !! i = Some r' ∧ run_evolves r r'.
Proof.
  intros Hops.
  assert (Hrel : run_rel w w').
  { induction Hops as [|w1 w2 w3 Hop _ IH]; [reflexivity|]. etrans; [by apply agent_op_rel|done]. }
  intros Hwf. by destruct (Hrel Hwf) as (? & _ & ?).
Qed.
End Lifecycle.
