(* ===== verification/AgentOutcomes.v ===== *)
(** * How the work on a run ends

    More theorems on [AgentRuns]: a worker that returns has settled its run, an
    approval is not what a paused run waits for, and what one sweep of the recovery
    does.  None of them assumes anything of the providers and handlers. *)

From stdpp Require Import base gmap strings list pretty sorting relations.
From Stdlib Require Import ZArith Lia.
From S2P Require Import Prelude Json Domain Policy Models Store Delivery Network Webhooks Approvals ToolExec ToolSafety Graph Workspaces Conversations Tickets AgentRuns AgentSafety.

#[local] Open Scope nat_scope.

(** ** A worker settles its run *)

Section Settling.
Context `{Settings} `{PyLib} `{Network} `{Encoding} `{TextEncoding} `{Providers}.
Context (i : N).

(** The answer is the status the run is in, and the run is in nobody's hands. *)
Definition settled_as (s : AgentRunStatus.t) (w : World) : Prop :=
  run_status <$> w_agent_runs w !! i = Some s ∧ s ≠ AgentRunStatus.RUNNING.
Definition settled_post (r : exn + AgentRunStatus.t) (w : World) : Prop :=
  match r with inr s => settled_as s w | inl _ => True end.
Definition settles (m : service AgentRunStatus.t) : Prop := ∀ w, wp m settled_post w.

(** A computation of which nothing is known. *)
Lemma wp_any {A} (m : service A) (Q : exn + A → World → Prop) w :
  (∀ r w', Q r w') → wp m Q w.
Proof. intros HQ. apply HQ. Qed.

Lemma settles_bind {A} (m : service A) (k : A → service AgentRunStatus.t) :
  (∀ a, settles (k a)) → settles (m ≫= k).
Proof.
  intros Hk w. apply wp_bind, wp_any. intros [e|a] w'; wp_beta; [done|apply Hk].
Qed.

(** The transition's own postcondition, kept opaque while its body is walked through. *)
Definition settled_within (Q : exn + AgentRunStatus.t → World → Prop) : Prop :=
  ∀ r w, settled_post r w → Q r w.

Lemma settles_atomic (m : service AgentRunStatus.t) :
  (∀ Q, settled_within Q → ∀ w, wp m Q w) → settles (atomic m).
Proof. intros Hm w. apply wp_atomic, Hm. by intros [e|s] w'. Qed.

(** The last write of a transition, and what follows it. *)
Lemma save_settles f (k : () → service AgentRunStatus.t) Q w :
  settled_within Q →
  run_status f ≠ AgentRunStatus.RUNNING →
  (∀ u, included core_frame (k u)) → (∀ u, returning (λ s, s = run_status f) (k u)) →
  wp (save_run i f ≫= k) Q w.
Proof.
  intros HQ Hf Hk Hr. apply wp_bind, wp_save_run; wp_beta; [by apply HQ..|]. intros _.
  set (w1 := with_run i _ w). unfold wp. apply HQ. specialize (Hk () w1) as (Hruns & _ & _).
  specialize (Hr () w1). destruct (k () w1) as [[e|s] w2]; simpl in *; [done|].
  rewrite (Hr s w2 eq_refl). unfold settled_as. split; [|done].
  by rewrite Hruns, lookup_insert_eq.
Qed.

Ltac returning_steps := repeat first
  [apply returning_ret; reflexivity|apply returning_bind; intro].

(** A transition whose row is not in the state it wants answers with the status. *)
Lemma skip_settles w a :
  rows w !! i = Some a → run_status a ≠ AgentRunStatus.RUNNING → settled_as (run_status a) w.
Proof. intros Ha Hr. split; [|done]. change (w_agent_runs w !! i = Some a) in Ha. by rewrite Ha. Qed.

Lemma terminal_not_running a : is_terminal a = true → run_status a ≠ AgentRunStatus.RUNNING.
Proof. rewrite is_terminal_true. intros Ht Hr. rewrite Hr in Ht. revert Ht. absurd_mem. Qed.

Lemma not_running a :
  negb (has_status AgentRunStatus.RUNNING a) = true → run_status a ≠ AgentRunStatus.RUNNING.
Proof. unfold has_status. by intros Hr%negb_true_iff%bool_decide_eq_false. Qed.

(** Walks up to the write. *)
#[local] Ltac to_save HQ := repeat lazymatch goal with
  | |- wp (save_run _ _ ≫= _) _ _ => fail
  | |- _ => svc_step
  end; try (by apply HQ);
  try (apply HQ, skip_settles; [done|]; first [by apply terminal_not_running|by apply not_running]).
#[local] Ltac locked_row HQ := apply settles_atomic; intros Q HQ w; to_save HQ.
#[local] Ltac saved HQ := apply save_settles; [exact HQ| |intros; core_steps|intros; returning_steps].

Lemma finish_failed_settles status code message result :
  status ≠ AgentRunStatus.RUNNING → settles (finish_failed i status code message result).
Proof. intros Hs. unfold finish_failed. locked_row HQ. by saved HQ. Qed.

Lemma fail_run_settles code message result : settles (fail_run i code message result).
Proof. by apply finish_failed_settles. Qed.

Lemma pause_settles result : settles (pause_run_for_approval i result).
Proof. unfold pause_run_for_approval. locked_row HQ. by saved HQ. Qed.

(** The write comes after the reply, of which nothing is asked here. *)
Lemma answer_settles f locked conversation body md (k : () → service AgentRunStatus.t) Q w :
  settled_within Q → (∀ output, run_status (f output) ≠ AgentRunStatus.RUNNING) →
  (∀ u, included core_frame (k u)) →
  (∀ output u, returning (λ s, s = run_status (f output)) (k u)) →
  wp (output ← output_of i locked conversation body md; save_run i (f output) ≫= k) Q w.
Proof.
  intros HQ Hf Hk Hr. apply wp_bind, wp_any. intros [e|output] w'; wp_beta; [by apply HQ|].
  by apply save_settles.
Qed.
#[local] Ltac answered HQ :=
  apply (answer_settles (λ output, completed_run _ _ output _ _)); [exact HQ|done| |];
    [intros; core_steps|intros; returning_steps].

Lemma complete_run_settles result md : settles (complete_run i result md).
Proof.
  unfold complete_run, route_response. apply settles_atomic. intros Q HQ w.
  do 4 svc_step; [|by apply HQ]. svc_step; [to_save HQ|]. do 2 svc_step.
  apply wp_bind, wp_any. intros [e|c] w'; wp_beta; [by apply HQ|]. answered HQ.
Qed.

Lemma complete_as_handoff_settles result request :
  settles (complete_run_as_handoff i result request).
Proof.
  unfold complete_run_as_handoff, route_response. apply settles_atomic. intros Q HQ w.
  do 4 svc_step; [|by apply HQ]. svc_step; [to_save HQ|].
  do 6 (apply wp_bind, wp_any; intros [e|?] ?; wp_beta; [by apply HQ|]). answered HQ.
Qed.

Lemma fail_or_handoff_settles run code result : settles (fail_or_handoff i run code result).
Proof.
  unfold fail_or_handoff, handoff_for_runtime_failure.
  repeat case_match; first [apply fail_run_settles|apply complete_as_handoff_settles].
Qed.

Lemma conclude_settles run result md : settles (conclude i run result md).
Proof.
  unfold conclude, budget_exceeded_run. repeat case_match;
    [apply complete_as_handoff_settles|by apply finish_failed_settles|apply pause_settles
    |apply fail_or_handoff_settles|apply complete_run_settles].
Qed.

(** *** Cancellation

    The graph reports a cancellation only where it has just seen one. *)

Context (ctx : RunContext) (C : World → Prop).
Context (seen : ∀ w, wp (cancelled_now ctx) (λ r w', r = inr true → C w') w).

Definition cancel_post (n : Node) (r : exn + RuntimeState) (w : World) : Prop :=
  match r with
  | inr s => st_cancelled s = false ∨ st_cancelled s = true ∧ C w ∧ route ctx n s = None
  | inl _ => True
  end.

#[local] Ltac look_or_go :=
  lazymatch goal with
  | |- wp (cancelled_now ctx ≫= _) _ _ =>
      apply wp_bind; eapply wp_mono; [apply seen|]; intros [?|[]] ? ?; wp_beta; [exact I| |]
  | |- wp (mret _) _ _ => apply wp_ret
  | |- wp (_ ≫= _) _ _ => apply wp_bind, wp_any; intros [?|?] ?; wp_beta; [exact I|]
  | |- wp (let _ := _ in _) _ _ => cbv zeta
  | |- wp (match ?x with _ => _ end) _ _ => destruct x
  end.

Lemma node_cancelled n s w :
  st_cancelled s = false → wp (run_node ctx n s) (cancel_post n) w.
Proof.
  intros Hs. destruct n; simpl;
    unfold prepare_run, check_budget_node, generate_response, handle_answer, execute_tool_call,
      execute_handoff_request, finalize_response, apply_tool_outcome;
    repeat look_or_go; unfold cancel_post, budget_checked, validate_provider_result;
    repeat case_match;
    first [by left|right; split_and!; [done|auto|simpl; unfold route_after_tool; simpl; by rewrite ?orb_true_r]].
Qed.

Lemma invoke_cancelled limit n s w :
  st_cancelled s = false →
  wp (invoke limit ctx (Some n) s)
    (λ r w', match r with inr s' => st_cancelled s' = true → C w' | inl _ => True end) w.
Proof.
  revert n s w. induction limit as [|limit IH]; intros n s w Hs; [done|]. cbn [invoke].
  apply wp_bind. eapply wp_mono; [by apply node_cancelled|].
  intros [e|s'] w'; wp_beta; [done|]. intros Hpost.
  assert (Hend : (st_cancelled s' = true → C w') → route ctx n s' = None →
    wp (invoke limit ctx (route ctx n s') s')
      (λ r w', match r with inr s' => st_cancelled s' = true → C w' | inl _ => True end) w').
  { intros HC ->. by destruct limit. }
  destruct Hpost as [Hf|(_ & HC & Hr)]; [|by apply Hend].
  destruct (route ctx n s') as [n'|] eqn:Hr; [by apply IH|].
  apply Hend; [by rewrite Hf|done].
Qed.
End Settling.

Section Workers.
Context `{Settings} `{PyLib} `{Network} `{Encoding} `{TextEncoding} `{Providers}.

Definition run_cancelled (i : N) (w : World) : Prop :=
  ∃ r, w_agent_runs w !! i = Some r ∧ run_status r = AgentRunStatus.CANCELLED.

Lemma settled_cancelled i w :
  run_cancelled i w → wp (current_status i) (settled_post i) w.
Proof.
  intros (r & Hi & Hr). unfold current_status. apply wp_bind, wp_get_row. unfold rows. simpl.
  rewrite Hi. wp_beta. apply wp_ret. split; [by rewrite Hi|by rewrite Hr].
Qed.

(** What the cancellation check answers is what the row says. *)
Lemma check_seen i w :
  wp (run_is_cancelled i) (λ r w', r = inr true → run_cancelled i w') w.
Proof.
  unfold run_is_cancelled. apply wp_gets. destruct (w_agent_runs w !! i) as [q|] eqn:Hi; [|done].
  intros [= Hc]. exists q. split; [done|]. by apply bool_decide_eq_true in Hc.
Qed.

Lemma execute_with_settles tool_registry i run v p messages descriptors md :
  settles i (execute_with tool_registry i run v p messages descriptors md).
Proof.
  unfold execute_with. apply settles_bind. intros started w. apply wp_bind, wp_attempt.
  eapply wp_mono.
  - apply (invoke_cancelled
      (execution_context tool_registry i run v p messages descriptors started) (run_cancelled i));
      [exact (check_seen i)|done].
  - intros [e|s] w'; wp_beta; [intros _; apply fail_run_settles|]. intros Hc.
    destruct (st_cancelled s) eqn:Hs; [by apply settled_cancelled, Hc|apply conclude_settles].
Qed.

Lemma execute_claimed_settles tool_registry i run messages md descriptors p :
  settles i (execute_claimed_agent_run tool_registry i run messages md descriptors p).
Proof.
  unfold execute_claimed_agent_run. apply settles_bind. intros v. apply settles_bind.
  intros [d|]; [|apply fail_run_settles].
  destruct (match p with Some p => _ | None => _ end); [apply fail_run_settles|].
  apply execute_with_settles.
Qed.

Lemma continue_settles tool_registry i run summary :
  settles i (continue_run_after_resumed_tool tool_registry i run summary).
Proof.
  unfold continue_run_after_resumed_tool. apply settles_bind. intros v.
  destruct (version_provider v); [apply fail_run_settles|]. apply settles_bind. intros started.
  apply settles_bind. intros [e|result]; [apply fail_run_settles|apply conclude_settles].
Qed.

(** C25. A worker that returns has settled its run: the status it answers with is the
    status the run is in, and that is not running.  This holds of the execution of a
    claimed run and of a run that goes on after a decision, whatever the provider
    and the tools answer, raise or do to the database, whatever budget or loop limit
    stops the graph, and whoever cancelled the run meanwhile. *)
Theorem worker_settles_run tool_registry i run w s w' :
  (∃ messages md descriptors p,
     execute_claimed_agent_run tool_registry i run messages md descriptors p w = (inr s, w'))
  ∨ (∃ summary, continue_run_after_resumed_tool tool_registry i run summary w = (inr s, w')) →
  settled_as i s w'.
Proof.
  intros [(messages & md & descriptors & p & Hrun)|(summary & Hrun)].
  - exact (wp_run _ _ _ _ (settled_post i) (execute_claimed_settles _ _ _ _ _ _ _ _) Hrun).
  - exact (wp_run _ _ _ _ (settled_post i) (continue_settles _ _ _ _ _) Hrun).
Qed.
End Workers.

(** ** Going on after a decision *)

Section Resume.
Context `{Settings} `{PyLib} `{Network} `{Encoding} `{TextEncoding} `{Providers}.
Context (tool_registry : Registry).

Definition decided (a : ApprovalRequest) : bool :=
  bool_decide (ar_status a ∈
    [ApprovalStatus.APPROVED; ApprovalStatus.REJECTED; ApprovalStatus.EXPIRED]).

Definition waits (r : AgentRun) : bool := has_status AgentRunStatus.WAITING_FOR_APPROVAL r.

Lemma get_row_run {A} `{Table A} i (r : A) w :
  rows w !! i = Some r → get_row i w = (inr r, w).
Proof. intros Hi. unfold get_row, find_row, gets, mbind, M_bind. by rewrite Hi. Qed.

Lemma claim_for_resume_run i r w :
  w_agent_runs w !! i = Some r →
  claim_run_for_resume i w
  = if waits r then
      (inr (Some (resumed_run (w_now w) r)), with_run i (resumed_run (w_now w) r) w)
    else (inr None, w).
Proof.
  intros Hi. unfold claim_run_for_resume, waits, atomic, mbind, M_bind.
  rewrite (get_row_run i r w) by exact Hi. by destruct (has_status _ r).
Qed.

(** What a decision makes of a claimed run. *)
Definition after_decision (approval : ApprovalRequest) (run_id : N) (run : AgentRun)
    (tool_key : string) : service ResumeResult :=
  match ar_status approval with
  | ApprovalStatus.APPROVED =>
      resume_approved tool_registry run_id run (ar_tool_execution approval) tool_key
  | ApprovalStatus.REJECTED =>
      resume_denied tool_registry run_id run tool_key AgentStepType.APPROVAL_REJECTED
        "approval_rejected"
  | _ =>
      resume_denied tool_registry run_id run tool_key AgentStepType.APPROVAL_EXPIRED
        "approval_expired"
  end.

(** Whatever the decision, the run is settled before the resume says it went on. *)
Definition resumed_post (i : N) (r : exn + ResumeResult) (w : World) : Prop :=
  match r with inr (Resumed s) => settled_as i s w | _ => True end.

Lemma resumed_ret i (m : service AgentRunStatus.t) w :
  settles i m → wp (status ← m; mret (Resumed status)) (resumed_post i) w.
Proof. intros Hm. apply wp_bind. eapply wp_mono; [apply Hm|]. by intros [e|s] w'. Qed.

Lemma after_decision_settles approval i run key w :
  wp (after_decision approval i run key) (resumed_post i) w.
Proof.
  unfold after_decision, resume_approved, resume_denied.
  destruct (ar_status approval);
    (apply wp_bind, wp_any; intros [e|u] w1; wp_beta; [done|]);
    try apply resumed_ret, continue_settles.
  apply wp_bind, wp_any. intros [e|result] w2; wp_beta; [done|].
  repeat case_match; try done; apply resumed_ret; first [apply continue_settles|apply fail_run_settles].
Qed.

(** What a resume does.  An undecided request is skipped.  A decided one goes on
    with its run exactly when the run is waiting, and otherwise changes nothing: of
    two deliveries of the same resume only one finds the run waiting.  Nothing else
    is asked: not that the request's own execution is the one the run waits for, so
    any decided request of a run, however old, lets it go on past the request it is
    waiting for now.  When the resume says it went on, the run is in the status it
    names, and not running. *)
Theorem resume_goes_on_when_waiting a approval te td r w :
  w_approvals w !! a = Some approval →
  w_tool_executions w !! ar_tool_execution approval = Some te →
  w_tool_definitions w !! te_tool_definition te = Some td →
  w_agent_runs w !! te_agent_run te = Some r →
  resume_agent_run_after_approval tool_registry a w
  = (if negb (decided approval) then (inr Skipped, w)
     else if negb (waits r) then (inr AlreadyResumed, w)
     else
       let run := resumed_run (w_now w) r in
       after_decision approval (te_agent_run te) run (td_key td) (with_run (te_agent_run te) run w))
  ∧ ∀ s w', resume_agent_run_after_approval tool_registry a w = (inr (Resumed s), w') →
      settled_as (te_agent_run te) s w'.
Proof.
  intros Ha Hte Htd Hr.
  assert (Hrun : resume_agent_run_after_approval tool_registry a w
    = (if negb (decided approval) then (inr Skipped, w)
       else if negb (waits r) then (inr AlreadyResumed, w)
       else
         let run := resumed_run (w_now w) r in
         after_decision approval (te_agent_run te) run (td_key td)
           (with_run (te_agent_run te) run w))).
  { unfold resume_agent_run_after_approval, mbind, M_bind.
    rewrite (get_row_run a approval w) by exact Ha. rewrite (get_row_run _ te w) by exact Hte.
    rewrite (get_row_run _ td w) by exact Htd.
    fold (decided approval). destruct (decided approval); [|done].
    cbn [negb]. rewrite (claim_for_resume_run _ r w Hr). destruct (waits r); [|done].
    unfold after_decision. by destruct (ar_status approval). }
  split; [done|]. intros s w'. rewrite Hrun.
  destruct (decided approval), (waits r); try done. simpl. intros Hs.
  exact (wp_run _ _ _ _ (resumed_post (te_agent_run te)) (after_decision_settles _ _ _ _ _) Hs).
Qed.
End Resume.

(** ** One sweep *)

Section Sweep.
Context `{Settings} `{PyLib} `{Network} `{Encoding} `{TextEncoding} `{Providers}.
Context (cutoff now : Z).

Definition recovered_run (t : Z) (r : AgentRun) : AgentRun :=
  stored_run t (failed_run AgentRunStatus.FAILED "stuck_worker_recovered" stuck_message now r).

(** A run is left alone, or it was running without a sign of life and has failed. *)
Definition swept_run (w : World) (i : N) (o : option AgentRun) : Prop :=
  o = w_agent_runs w !! i ∨
  ∃ r, w_agent_runs w !! i = Some r ∧ stuck_running cutoff i r = true ∧
    o = Some (recovered_run (w_now w) r).

(** A tool call is left alone, or it was in flight for such a run and has failed. *)
Definition swept_execution (w : World) (e : N) (o : option ToolExecution) : Prop :=
  o = w_tool_executions w !! e ∨
  ∃ te r, w_tool_executions w !! e = Some te ∧ in_flight_of (te_agent_run te) e te = true ∧
    w_agent_runs w !! te_agent_run te = Some r ∧ stuck_running cutoff (te_agent_run te) r = true ∧
    o = Some (orphaned_execution now te).

Record sweep_rel (w w' : World) : Prop := {
  sw_now : w_now w' = w_now w;
  sw_published : w_published w `prefix_of` w_published w';
  sw_runs i : swept_run w i (w_agent_runs w' !! i);
  sw_executions e : swept_execution w e (w_tool_executions w' !! e);
}.

Lemma recovered_not_stuck t i r : stuck_running cutoff i (recovered_run t r) = false.
Proof. done. Qed.

#[export] Instance sweep_rel_preorder : PreOrder sweep_rel.
Proof.
  split.
  - intros w. split; [done|done|by left|by left].
  - intros w1 w2 w3 [Hn Hp Hr He] [Hn' Hp' Hr' He']. split; [congruence|by etrans| |].
    + intros i. destruct (Hr' i) as [->|(r & Hi & Hs & ->)]; [apply Hr|].
      destruct (Hr i) as [Heq|(r1 & Hi1 & Hs1 & Heq)]; rewrite Hi in Heq.
      * right. exists r. by rewrite <-Hn.
      * injection Heq as ->. by rewrite recovered_not_stuck in Hs.
    + intros e. destruct (He' e) as [->|(te & r & Hte & Hf & Hi & Hs & ->)]; [apply He|].
      destruct (He e) as [Heq|(te1 & r1 & _ & _ & _ & _ & Heq)]; rewrite Hte in Heq.
      * destruct (Hr (te_agent_run te)) as [Hq|(r1 & _ & _ & Hq)]; rewrite Hi in Hq.
        -- right. by exists te, r.
        -- injection Hq as ->. by rewrite recovered_not_stuck in Hs.
      * injection Heq as ->. exfalso. revert Hf. unfold in_flight_of.
        rewrite (bool_decide_eq_false_2 (te_status _ ∈ _)), andb_false_r; [done|simpl; absurd_mem].
Qed.

(** What a sweep needs to write: rows the database keeps, and no two runs with the
    same message. *)
Definition sweepable (w : World) : Prop :=
  unique run_clash (w_agent_runs w) ∧
  ∀ i r, w_agent_runs w !! i = Some r → stuck_running cutoff i r = true → run_fits r = true.

Lemma sweep_row_skips i r w :
  w_agent_runs w !! i = Some r → stuck_running cutoff i r = false →
  recover_one_stuck_run i cutoff now w = (inr false, w).
Proof.
  intros Hi Hs. unfold recover_one_stuck_run, atomic, mbind, M_bind.
  rewrite (get_row_run i r w) by exact Hi. unfold stuck_running in Hs.
  destruct (has_status AgentRunStatus.RUNNING r); [|done].
  cbn [negb andb] in *. by rewrite Z.ltb_antisym, Hs.
Qed.

(** The world after one recovery, up to its audit events and steps. *)
Definition row_swept (i : N) (r : AgentRun) (w w' : World) : Prop :=
  w_now w' = w_now w ∧ w_published w' = w_published w ∧
  w_agent_runs w' = <[i := recovered_run (w_now w) r]> (w_agent_runs w) ∧
  ∀ e, w_tool_executions w' !! e
    = (λ te, if in_flight_of i e te then orphaned_execution now te else te)
        <$> w_tool_executions w !! e.

Lemma recovered_no_clash i r t w :
  w_agent_runs w !! i = Some r → unique run_clash (w_agent_runs w) →
  clashes run_clash i (recovered_run t r) w = false.
Proof.
  intros Hi Hu. apply clashes_false. intros j q Hj Hne.
  assert (run_clash r q = false) as Hq by (by apply (Hu i j)). exact Hq.
Qed.

Lemma recovered_fits r : run_fits r = true →
  run_fits (failed_run AgentRunStatus.FAILED "stuck_worker_recovered" stuck_message now r) = true.
Proof.
  unfold run_fits. simpl. rewrite !andb_true_iff. intros (((((Ht & _) & _) & Hc) & Hn) & Hq).
  repeat split; first [apply Hn|assumption|reflexivity].
Qed.

Lemma wp_save_run_fits i r (Q : exn + () → World → Prop) w :
  run_fits r = true → clashes run_clash i (stored_run (w_now w) r) w = false →
  Q (inr ()) (with_run i (stored_run (w_now w) r) w) → wp (save_run i r) Q w.
Proof.
  intros Hf Hc HQ. unfold save_run. rewrite Hf. repeat svc_step; [done|]. apply wp_save_unique. by rewrite Hc.
Qed.

Lemma wp_create_step_at i type status md code (Q : exn + () → World → Prop) w :
  is_Some (w_agent_runs w !! i) → fits 64 code = true →
  (∀ s, Q (inr ()) {| w with w_agent_steps := s |}) →
  wp (next_sequence_and_create_step i type status md code) Q w.
Proof.
  intros [r Hi] Hf HQ. unfold next_sequence_and_create_step. apply wp_atomic, wp_bind, wp_get_row.
  unfold rows. simpl. rewrite Hi. wp_beta. apply wp_bind, wp_gets. wp_beta. rewrite Hf. simpl.
  apply HQ.
Qed.

Lemma sweep_row_recovers i r w :
  w_agent_runs w !! i = Some r → stuck_running cutoff i r = true → sweepable w →
  wp (recover_one_stuck_run i cutoff now) (λ res w', res = inr true ∧ row_swept i r w w') w.
Proof.
  intros Hi Hs [Hu Hfit]. pose proof (Hfit i r Hi Hs) as Hf. unfold stuck_running in Hs.
  apply andb_true_iff in Hs as [Hrun Hold].
  unfold recover_one_stuck_run. apply wp_atomic, wp_bind, wp_get_row. unfold rows at 1. simpl.
  rewrite Hi. wp_beta. rewrite Hrun. simpl. rewrite Z.ltb_antisym, Hold. simpl.
  apply wp_bind, wp_save_run_fits;
    [by apply recovered_fits|exact (recovered_no_clash i r (w_now w) w Hi Hu)|].
  wp_beta. apply wp_bind, wp_create_step_at; [simpl; by rewrite lookup_insert_eq|done|].
  intros steps. wp_beta. unfold fail_in_flight_tool_executions. repeat svc_step.
  split; [done|]. split_and!; [done..|]. intros e. simpl. apply rows_update.
Qed.

Lemma row_swept_rel i r w w' :
  w_agent_runs w !! i = Some r → stuck_running cutoff i r = true → row_swept i r w w' →
  sweep_rel w w'.
Proof.
  intros Hi Hs (Hn & Hp & Hr & He). split; [done|by rewrite Hp| |].
  - intros j. rewrite Hr. destruct (decide (i = j)) as [<-|Hne].
    + rewrite lookup_insert_eq. right. by exists r.
    + rewrite lookup_insert_ne by done. by left.
  - intros e. rewrite He. destruct (w_tool_executions w !! e) as [te|] eqn:Hte; [|by left].
    simpl. destruct (in_flight_of i e te) eqn:Hf; [|by left].
    assert (te_agent_run te = i) as <-
      by (apply andb_true_iff in Hf as [Hf _]; by apply bool_decide_eq_true in Hf).
    right. by exists te, r.
Qed.

(** No call of a run that has failed so is in flight any more. *)
Definition nothing_in_flight (i : N) (w : World) : Prop :=
  ∀ e te, w_tool_executions w !! e = Some te → in_flight_of i e te = false.

Lemma row_swept_settled i r w w' : row_swept i r w w' → nothing_in_flight i w'.
Proof.
  intros (_ & _ & _ & He) e te Hte. rewrite He in Hte.
  destruct (w_tool_executions w !! e) as [te0|]; [|done]. simpl in Hte. injection Hte as <-.
  destruct (in_flight_of i e te0) eqn:Hf; [|done]. unfold in_flight_of.
  by rewrite (bool_decide_eq_false_2 (te_status _ ∈ _)), andb_false_r; [|simpl; absurd_mem].
Qed.

Lemma sweep_keeps_settled i w w' :
  sweep_rel w w' → nothing_in_flight i w → nothing_in_flight i w'.
Proof.
  intros Hrel Hn e te Hte. destruct (sw_executions _ _ Hrel e) as [Heq|(te0 & r & _ & _ & _ & _ & Heq)];
    rewrite Hte in Heq; [by apply (Hn e)|].
  injection Heq as ->. unfold in_flight_of.
  by rewrite (bool_decide_eq_false_2 (te_status _ ∈ _)), andb_false_r; [|simpl; absurd_mem].
Qed.

Lemma sweepable_rel w w' : sweep_rel w w' → sweepable w → sweepable w'.
Proof.
  intros Hrel [Hu Hf]. split.
  - intros i j a b Hne Ha Hb.
    assert (Hclash : ∀ k c, w_agent_runs w' !! k = Some c → ∃ c0, w_agent_runs w !! k = Some c0 ∧
      run_trigger_message c = run_trigger_message c0 ∧ run_output_message c = run_output_message c0).
    { intros k c Hc. destruct (sw_runs _ _ Hrel k) as [Heq|(c0 & Hk & _ & Heq)]; rewrite Hc in Heq.
      - by exists c.
      - injection Heq as ->. by exists c0. }
    destruct (Hclash i a Ha) as (a0 & Ha0 & Ht & Ho), (Hclash j b Hb) as (b0 & Hb0 & Ht' & Ho').
    unfold run_clash. rewrite Ht, Ho, Ht', Ho'. exact (Hu i j a0 b0 Hne Ha0 Hb0).
  - intros i r Hi Hs. destruct (sw_runs _ _ Hrel i) as [Heq|(r0 & _ & _ & Heq)]; rewrite Hi in Heq.
    + by apply (Hf i).
    + injection Heq as ->. by rewrite recovered_not_stuck in Hs.
Qed.

(** A run that is not stuck any more, and has nothing in flight if it was. *)
Definition no_longer_stuck (w0 : World) (i : N) (w : World) : Prop :=
  ∀ r0, w_agent_runs w0 !! i = Some r0 → stuck_running cutoff i r0 = true →
    w_agent_runs w !! i = Some (recovered_run (w_now w0) r0) ∧ nothing_in_flight i w.

Lemma stays_recovered w0 i w w' :
  no_longer_stuck w0 i w → sweep_rel w w' → no_longer_stuck w0 i w'.
Proof.
  intros Hi Hrel r0 Hr0 Hs. destruct (Hi r0 Hr0 Hs) as [Hrow Hn].
  split; [|by eapply sweep_keeps_settled].
  destruct (sw_runs _ _ Hrel i) as [->|(r & Hr & Hs' & _)]; [done|].
  rewrite Hrow in Hr. injection Hr as <-. by rewrite recovered_not_stuck in Hs'.
Qed.

Lemma row_swept_done i r w w' :
  w_agent_runs w !! i = Some r → row_swept i r w w' → no_longer_stuck w i w'.
Proof.
  intros Hi Hrow r0 Hr0 _. rewrite Hi in Hr0. injection Hr0 as <-.
  split; [|by eapply row_swept_settled]. destruct Hrow as (_ & _ & -> & _).
  apply lookup_insert_eq.
Qed.

Definition swept_all (l : list N) (w : World) (res : exn + nat) (w' : World) : Prop :=
  (∃ m, res = inr m) ∧ sweep_rel w w' ∧ ∀ i, i ∈ l → no_longer_stuck w i w'.

Lemma recover_each_spec l n w :
  sweepable w → (∀ i, i ∈ l → is_Some (w_agent_runs w !! i)) →
  wp (recover_each l cutoff now n) (swept_all l w) w.
Proof.
  revert n w. induction l as [|i l IH]; intros n w Hw Hl; simpl.
  { apply wp_ret. split_and!; [by eexists|reflexivity|by intros i ?%not_elem_of_nil]. }
  destruct (Hl i) as [r Hi]; [left|]. apply wp_bind.
  destruct (stuck_running cutoff i r) eqn:Hs.
  - eapply wp_mono; [by apply (sweep_row_recovers i r)|]. intros res w1 [-> Hrow]. wp_beta.
    pose proof (row_swept_rel i r w w1 Hi Hs Hrow) as Hrel.
    eapply wp_mono; [apply IH; [by eapply sweepable_rel|]|].
    + intros j Hj. destruct (Hl j) as [q Hq]; [by right|].
      destruct (sw_runs _ _ Hrel j) as [->|(q0 & _ & _ & ->)]; by eexists.
    + intros res w2 (Hm & Hrel2 & Hall). split_and!; [done|by etrans|]. intros j Hj.
      destruct (decide (j = i)) as [->|Hne]; [by eapply stays_recovered, Hrel2; eapply row_swept_done|].
      apply elem_of_cons in Hj as [?|Hj]; [done|]. intros r0 Hr0 Hs0.
      destruct Hrow as (Hnow & _ & Hruns & _). rewrite <-Hnow. apply (Hall j Hj); [|done].
      by rewrite Hruns, lookup_insert_ne.
  - unfold wp. rewrite (sweep_row_skips i r w Hi Hs). wp_beta.
    eapply wp_mono; [apply IH; [done|]|]; [intros j Hj; apply Hl; by right|].
    intros res w2 (Hm & Hrel2 & Hall). split_and!; [done..|].
    intros j [->|Hj]%elem_of_cons; [|by apply Hall]. intros r0 Hr0. congruence.
Qed.

(** *** The whole sweep *)

Lemma publish_all_rel {A} (l : list A) f w :
  wp (for_each l (λ x, publish (f x)))
    (λ res w', res = inr () ∧ w_published w' = w_published w ++ map f l ∧ sweep_rel w w') w.
Proof.
  revert w. induction l as [|x l IH]; intros w; simpl.
  - apply wp_ret. by rewrite app_nil_r.
  - apply wp_bind, wp_publish. wp_beta. eapply wp_mono; [apply IH|]. intros res w' (-> & Hp & Hrel).
    split_and!; [done|by rewrite Hp; simpl; rewrite <-app_assoc|].
    etrans; [|exact Hrel]. split; [done|by eexists|by left|by left].
Qed.
End Sweep.

Section Recovery.
Context `{Settings} `{PyLib} `{Network} `{Encoding} `{TextEncoding} `{Providers}.

Definition stale_running (now : Z) : Z := (now - seconds AGENTS_STUCK_RUN_STALE_SECONDS)%Z.
Definition stale_pending (now : Z) : Z := (now - seconds AGENTS_STUCK_RUN_PENDING_STALE_SECONDS)%Z.

(** The runs a query selects, in the order of a column, up to the batch. *)
Lemma in_batch (t : AgentRun → Z) P batch w i r :
  w_agent_runs w !! i = Some r → P i r = true →
  List.length (select_rows P w) ≤ batch →
  i ∈ take batch (map fst (merge_sort (time_order t) (select_rows P w))).
Proof.
  intros Hi Hp Hlen.
  assert (Hin : (i, r) ∈ merge_sort (time_order t) (select_rows P w)).
  { rewrite (merge_sort_Permutation _ _). by apply in_select_rows. }
  rewrite take_ge; [exact (list_elem_of_fmap_2 fst _ _ Hin)|].
  rewrite length_map. by rewrite (Permutation_length (merge_sort_Permutation _ _)).
Qed.

Lemma batch_stored (t : AgentRun → Z) P batch w i :
  i ∈ take batch (map fst (merge_sort (time_order t) (select_rows P w))) →
  is_Some (w_agent_runs w !! i).
Proof.
  intros Hi%subseteq_take. apply list_elem_of_fmap in Hi as ([j r] & -> & Hr).
  rewrite (merge_sort_Permutation _ _) in Hr. apply in_select_rows in Hr as [Hr _]. by eexists.
Qed.

(** A sweep does not change which runs wait to be claimed. *)
Lemma pending_unchanged cutoff now p w w' i r :
  sweep_rel cutoff now w w' →
  w_agent_runs w' !! i = Some r ∧ stuck_pending p i r = true
  ↔ w_agent_runs w !! i = Some r ∧ stuck_pending p i r = true.
Proof.
  intros Hrel. destruct (sw_runs _ _ _ _ Hrel i) as [->|(r0 & Hi & Hs & ->)]; [done|].
  rewrite Hi. split; intros [[= <-] Hp]; [done|]. exfalso. revert Hs Hp.
  unfold stuck_running, stuck_pending, has_status. by destruct (run_status r0).
Qed.

Lemma pending_length cutoff now p w w' :
  sweep_rel cutoff now w w' →
  List.length (select_rows (stuck_pending p) w') ≤ List.length (select_rows (stuck_pending p) w).
Proof.
  intros Hrel. apply submseteq_length, NoDup_submseteq.
  - eapply NoDup_fmap_1, select_rows_nodup.
  - intros [i r] Hi. apply in_select_rows. apply in_select_rows in Hi.
    by apply (pending_unchanged cutoff now p w w').
Qed.

Definition sweep_post (batch : nat) (now : Z) (w : World) (res : exn + nat) (w' : World) : Prop :=
  (∃ m, res = inr m) ∧
  sweep_rel (stale_running now) now w w' ∧
  (List.length (select_rows (stuck_running (stale_running now)) w) ≤ batch →
   ∀ i, no_longer_stuck (stale_running now) now w i w') ∧
  (List.length (select_rows (stuck_pending (stale_pending now)) w) ≤ batch →
   ∀ i r, w_agent_runs w !! i = Some r → stuck_pending (stale_pending now) i r = true →
     execute_agent_run_task i ∈ w_published w').

Lemma recovery_post batch now w :
  sweepable (stale_running now) w →
  wp (recover_stuck_agent_runs (Some batch) (Some now)) (sweep_post batch now w) w.
Proof.
  intros Hw. unfold recover_stuck_agent_runs. apply wp_bind, wp_ret. wp_beta.
  apply wp_bind, wp_gets. wp_beta. apply wp_bind.
  eapply wp_mono; [apply recover_each_spec; [exact Hw|intros i; apply batch_stored]|].
  intros res w1 ([m ->] & Hrel & Hall). wp_beta. unfold default.
  unfold redispatch_stuck_pending_runs. apply wp_bind, wp_bind, wp_gets. wp_beta.
  apply wp_bind. eapply wp_mono; [apply (publish_all_rel (stale_running now) now _ execute_agent_run_task)|].
  intros ? w2 (-> & Hp2 & Hrel2). wp_beta. apply wp_ret. wp_beta. apply wp_bind.
  unfold redispatch_stuck_waiting_for_approval_runs. apply wp_bind, wp_gets. wp_beta.
  apply wp_bind. eapply wp_mono; [apply (publish_all_rel (stale_running now) now _ resume_approved_action_task)|].
  intros ? w3 (-> & _ & Hrel3). wp_beta. apply wp_ret. wp_beta. apply wp_ret.
  split_and!; [by eexists|etrans; [exact Hrel|by etrans]| |].
  - intros Hlen i r0 Hi Hs.
    assert (Hdone : no_longer_stuck (stale_running now) now w i w1).
    { apply Hall. by apply (in_batch run_updated_at _ batch w i r0). }
    exact (stays_recovered _ _ w i w1 w3 Hdone (transitivity Hrel2 Hrel3) r0 Hi Hs).
  - intros Hlen i r Hi Hs.
    assert (w_agent_runs w1 !! i = Some r ∧ stuck_pending (stale_pending now) i r = true) as [Hi1 _]
      by by apply (pending_unchanged (stale_running now) now _ w w1 i r Hrel).
    assert (execute_agent_run_task i ∈ w_published w2) as Hin.
    { rewrite Hp2. apply elem_of_app. right. apply list_elem_of_fmap_2.
      apply (in_batch run_created_at _ batch w1 i r); [done|done|].
      etrans; [by apply (pending_length (stale_running now) now _ w w1)|done]. }
    destruct (sw_published _ _ _ _ Hrel3) as [more ->]. apply elem_of_app. by left.
Qed.

(** C32. What one sweep of the recovery does, where no two runs have the same message and the
    columns of the stale runs are within their widths ([sweepable]).  It never raises.  It leaves every run
    alone but the running ones without a sign of life since the cutoff, which fail
    with [stuck_worker_recovered]; it leaves every tool call alone but those such a
    run had in flight, which fail with it; nothing already published is lost.  When
    the batch is large enough for the stale runs, all of them have failed afterwards
    and have nothing in flight; and when it is large enough for the runs that nobody
    claimed in time, each of these has been published again. *)
Theorem recovery_sweep batch now w :
  sweepable (stale_running now) w →
  let '(res, w') := recover_stuck_agent_runs (Some batch) (Some now) w in
  sweep_post batch now w res w'.
Proof.
  intros Hw. pose proof (recovery_post batch now w Hw) as Hpost. unfold wp in Hpost.
  by destruct (recover_stuck_agent_runs (Some batch) (Some now) w).
Qed.
End Recovery.

(** ** Examples *)

Module AgentExamples.
#[local] Existing Instance default_settings.
#[local] Existing Instance trivial_pylib.
#[local] Existing Instance GraphExamples.text_encoding.
#[local] Instance net : Network := example_network 200.
#[local] Instance encoding : Encoding :=
  {| json_length _ := Some 10%N; fingerprint_arguments _ := "fp" |}.

(** A provider that always answers. *)
Definition answering : Provider := λ _, mret (inr (GraphExamples.response "All done." [])).
#[local] Instance providers : Providers :=
  {| fake_provider := answering; openai_provider := answering |}.
#[local] Abbreviation tools := ToolExamples.refunds.

Definition run_in (status : AgentRunStatus.t) : AgentRun :=
  let r := ToolExamples.run in {| r with run_status := status |}.

Definition world_with (status : AgentRunStatus.t) : World :=
  let w := ToolExamples.start in {| w with w_agent_runs := {[4%N := run_in status]} |}.

Lemma tools_allowed : handlers_allowed tools.
Proof.
  intros key tool context arguments. unfold ToolExamples.refunds. case_match; [|done].
  intros [= <-]. apply included_ret, _.
Qed.
Lemma answering_allowed : provider_allowed answering.
Proof. intros request. apply included_ret, _. Qed.

Lemma world_wf status : is_terminal (run_in status) = false → runs_wf (world_with status).
Proof.
  intros Ht. split_and!.
  - intros i j a b Hne Hi Hj. simpl in Hi, Hj. apply lookup_singleton_Some in Hi as [<- _].
    by apply lookup_singleton_Some in Hj as [<- _].
  - intros i r Hi. simpl in Hi. apply lookup_singleton_Some in Hi as [<- <-]. split; [simpl; lia|].
    split_and!; [|split; [by intros (_ & [? [=]] & _)|by intros [? [=]]]|done].
    unfold ended_consistent. rewrite Ht. by split; [|intros [[? [=]]|[? [=]]]].
  - intros m msg Hm. simpl in Hm. by rewrite lookup_empty in Hm.
Qed.

(** A pending run is executed, and answers. *)
Definition executed : World := (execute_agent_run tools 4 (world_with AgentRunStatus.PENDING)).2.

Lemma agent_runs_lifecycle_witness :
  runs_wf executed ∧
  run_status <$> w_agent_runs executed !! 4%N = Some AgentRunStatus.SUCCEEDED ∧
  run_final_response <$> w_agent_runs executed !! 4%N = Some "All done.".
Proof.
  assert (Hops : rtc (agent_op tools) (world_with AgentRunStatus.PENDING) executed)
    by (apply rtc_once; exact (op_execute tools 4 (world_with AgentRunStatus.PENDING))).
  split; [|vm_compute; split; reflexivity].
  exact (proj1 (agent_runs_lifecycle tools tools_allowed answering_allowed answering_allowed _ _
    Hops (world_wf AgentRunStatus.PENDING eq_refl))).
Defined.

(** A running run that a worker holds. *)
Definition worked (w : World) :=
  execute_claimed_agent_run tools 4 (run_in AgentRunStatus.RUNNING) None None None None w.

Lemma worker_settles_run_witness :
  settled_as 4 AgentRunStatus.SUCCEEDED (worked (world_with AgentRunStatus.RUNNING)).2.
Proof.
  apply (worker_settles_run tools 4 (run_in AgentRunStatus.RUNNING)
    (world_with AgentRunStatus.RUNNING)). left.
  exists None, None, None, None. vm_compute. reflexivity.
Defined.

(** A run paused for a second call whose approval is pending; an earlier one was
    rejected. *)
Definition call (status : ToolExecutionStatus.t) : ToolExecution := {|
  te_workspace := 7; te_agent_run := 4; te_agent_version := 2; te_tool_definition := 3;
  te_tool_binding := 5; te_status := status; te_idempotency_key := "";
  te_arguments_fingerprint := "fp"; te_arguments_redacted := JObj [];
  te_result_redacted := JObj []; te_attempt_count := 0; te_started_at := None;
  te_completed_at := None; te_error_code := ""; te_error_message_safe := "";
  te_duration_ms := None |}.
Definition request (execution : N) (status : ApprovalStatus.t) : ApprovalRequest := {|
  ar_workspace := 7; ar_tool_execution := execution; ar_status := status;
  ar_requested_by := Some 40%N; ar_required_role := "owner"; ar_summary := "";
  ar_safe_context := JObj []; ar_arguments_fingerprint := "fp"; ar_expires_at := 2000000000;
  ar_resolved_at := None |}.
Definition paused (second : ApprovalStatus.t) : World :=
  let w := world_with AgentRunStatus.WAITING_FOR_APPROVAL in
  {| w with
     w_tool_executions := {[10%N := call ToolExecutionStatus.FAILED;
                            11%N := call ToolExecutionStatus.WAITING_FOR_APPROVAL]};
     w_approvals := {[12%N := request 10 ApprovalStatus.REJECTED;
                      13%N := request 11 second]} |}.

Definition stale_resume : (exn + ResumeResult) * World :=
  resume_agent_run_after_approval tools 12 (paused ApprovalStatus.PENDING).

(** The old decision ends the run while the request it waits for is pending; its
    approval then comes too late. *)
Lemma resume_goes_on_when_waiting_witness :
  settled_as 4 AgentRunStatus.SUCCEEDED stale_resume.2 ∧
  ar_status <$> w_approvals stale_resume.2 !! 13%N = Some ApprovalStatus.PENDING ∧
  te_status <$> w_tool_executions stale_resume.2 !! 11%N
    = Some ToolExecutionStatus.WAITING_FOR_APPROVAL ∧
  let w := stale_resume.2 in
  (resume_agent_run_after_approval tools 13
    {| w with w_approvals := <[13%N := request 11 ApprovalStatus.APPROVED]> (w_approvals w) |}).1
  = inr AlreadyResumed.
Proof.
  split; [|split; [vm_compute; reflexivity|split; vm_compute; reflexivity]].
  eapply (resume_goes_on_when_waiting tools 12 (request 10 ApprovalStatus.REJECTED)
    (call ToolExecutionStatus.FAILED) _ (run_in AgentRunStatus.WAITING_FOR_APPROVAL)
    (paused ApprovalStatus.PENDING)); vm_compute; reflexivity.
Defined.

(** A worker died long ago, and a run was never claimed. *)
Definition abandoned : World :=
  let w := ToolExamples.start in
  {| w with
     w_now := seconds 10000;
     w_agent_runs := {[4%N := run_in AgentRunStatus.RUNNING; 6%N := run_in AgentRunStatus.PENDING]};
     w_tool_executions := {[10%N := call ToolExecutionStatus.RUNNING]} |}.
Definition sweep := recover_stuck_agent_runs (Some 5) (Some (seconds 10000)) abandoned.

Lemma recovery_sweep_witness :
  (∃ m, sweep.1 = inr m) ∧
  run_status <$> w_agent_runs sweep.2 !! 4%N = Some AgentRunStatus.FAILED ∧
  te_status <$> w_tool_executions sweep.2 !! 10%N = Some ToolExecutionStatus.FAILED ∧
  w_published sweep.2 = [execute_agent_run_task 6].
Proof.
  assert (Hw : sweepable (stale_running (seconds 10000)) abandoned).
  { split.
    - intros i j a b Hne Ha Hb. simpl in Ha, Hb.
      apply lookup_insert_Some in Ha as [[_ <-]|[_ [_ <-]%lookup_singleton_Some]];
        apply lookup_insert_Some in Hb as [[_ <-]|[_ [_ <-]%lookup_singleton_Some]]; reflexivity.
    - intros i r Hi _. simpl in Hi.
      by apply lookup_insert_Some in Hi as [[_ <-]|[_ [_ <-]%lookup_singleton_Some]]. }
  split; [|split; [vm_compute; reflexivity|split; vm_compute; reflexivity]].
  pose proof (recovery_sweep 5 (seconds 10000) abandoned Hw) as Hs. fold sweep in Hs.
  destruct sweep as [res w']. exact (proj1 Hs).
Defined.
End AgentExamples.
