(* ===== verification/Chunking.v ===== *)
(** * From an uploaded text to its chunks

    [knowledge/ingestion/normalization.py], [knowledge/ingestion/chunking.py] and the
    validation of embeddings in [knowledge/ingestion/embeddings.py].  Offsets are
    positions in a string; the loop of the chunker runs with fuel, of which the length
    of the text is always enough. *)

From stdpp Require Import base strings list.
From Stdlib Require Import ZArith SpecFloat Ascii String Lia.
From S2P Require Import Prelude Json Domain Models.

#[local] Open Scope nat_scope.

(** ** Texts by position *)

Definition line_break : string := String (ascii_of_nat 10) EmptyString.
Definition blank_line : string := line_break +:+ line_break.

Definition slice (s : string) (start stop : nat) : string := String.substring start (stop - start) s.

(** [pat in s] at a position. *)
Definition match_at (pat s : string) (i : nat) : bool :=
  String.eqb (String.substring i (String.length pat) s) pat.

(** The positions at which [pat] can start in [s[lo:hi]]. *)
Definition positions (pat : string) (lo hi : nat) : list nat :=
  seq lo (S hi - String.length pat - lo).

(** [s.find(pat, lo, hi)] and [s.rfind(pat, lo, hi)]; [None] is [-1]. *)
Definition str_find (pat s : string) (lo hi : nat) : option nat :=
  List.find (match_at pat s) (positions pat lo hi).
Definition str_rfind (pat s : string) (lo hi : nat) : option nat :=
  List.find (match_at pat s) (rev (positions pat lo hi)).

(** [text[i].isspace()], for a position in the text. *)
Definition space_at (text : string) (i : nat) : bool :=
  match String.get i text with Some c => is_space c | None => false end.

(** ** Sections ([ingestion/extractors.py]) *)

Record ExtractedSection := {
  es_text : string;
  es_start_offset : nat;
  es_end_offset : nat;
  es_page_number : option N;
  es_title : option string;
}.

Record ExtractedDocument := {
  ed_text : string;
  ed_sections : list ExtractedSection;
  ed_metadata : json;
}.

(** ** Normalization ([ingestion/normalization.py]) *)

(** What the code takes from Python's Unicode tables. *)
Class UnicodeLib := {
  nfc : string → string;
  decode_utf8_sig : string → option string;
}.

Definition CR : ascii := ascii_of_nat 13.
Definition LF : ascii := ascii_of_nat 10.
Definition NUL : ascii := ascii_of_nat 0.

(** The text without its NUL characters. *)
Fixpoint remove_nul (s : string) : string :=
  match s with
  | EmptyString => EmptyString
  | String c r => if Ascii.eqb c NUL then remove_nul r else String c (remove_nul r)
  end.

(** Each CR LF becomes LF. *)
Fixpoint replace_crlf (s : string) : string :=
  match s with
  | EmptyString => EmptyString
  | String c r =>
      match r with
      | String d r' =>
          if Ascii.eqb c CR && Ascii.eqb d LF then String LF (replace_crlf r')
          else String c (replace_crlf r)
      | EmptyString => s
      end
  end.

(** Each CR becomes LF. *)
Definition replace_cr : string → string := str_map (λ c, if Ascii.eqb c CR then LF else c).

(** The lines of a text; [line] is the line being read. *)
Fixpoint split_lines (line s : string) : list string :=
  match s with
  | EmptyString => [line]
  | String c r =>
      if Ascii.eqb c LF then line :: split_lines "" r else split_lines (line +:+ String c "") r
  end.

(** Three or more line breaks become two; [n] line breaks have just been kept. *)
Fixpoint collapse_breaks (n : nat) (s : string) : string :=
  match s with
  | EmptyString => EmptyString
  | String c r =>
      if Ascii.eqb c LF then
        if n <? 2 then String c (collapse_breaks (S n) r) else collapse_breaks n r
      else String c (collapse_breaks 0 r)
  end.

Section Normalization.
Context `{UnicodeLib}.

Definition normalize_text (text : string) : string :=
  let text := nfc (remove_nul text) in
  let text := replace_cr (replace_crlf text) in
  let lines := map str_rstrip (split_lines "" text) in
  str_strip (collapse_breaks 0 (String.concat line_break lines)).

(** What the loop over the sections has built. *)
Record Normalized := {
  no_text : string;
  no_sections : list ExtractedSection;
  no_offset : nat;
}.

Definition normalize_section (acc : Normalized) (s : ExtractedSection) : Normalized :=
  let normalized := normalize_text (es_text s) in
  if String.eqb normalized "" then acc
  else
    let text := match no_sections acc with [] => no_text acc | _ => no_text acc +:+ blank_line end in
    let start := match no_sections acc with [] => no_offset acc | _ => no_offset acc + 2 end in
    let stop := start + String.length normalized in
    {| no_text := text +:+ normalized; no_offset := stop;
       no_sections := no_sections acc ++
         [{| es_text := normalized; es_start_offset := start; es_end_offset := stop;
             es_page_number := es_page_number s; es_title := es_title s |}] |}.

Definition normalize_extracted_document (document : ExtractedDocument) : ExtractedDocument :=
  let r := foldl normalize_section {| no_text := ""; no_sections := []; no_offset := 0 |}
             (ed_sections document) in
  {| ed_text := no_text r; ed_sections := no_sections r; ed_metadata := ed_metadata document |}.
End Normalization.

(** ** Chunking ([ingestion/chunking.py]) *)

Definition CHUNKER_VERSION : string := "paragraph-char-v1".

Record ChunkDraft := {
  cd_ordinal : nat;
  cd_text : string;
  cd_start_offset : nat;
  cd_end_offset : nat;
  cd_page_start : option N;
  cd_page_end : option N;
  cd_metadata : json;
}.

(** [max(candidates)], of which [-1] is below every position. *)
Definition max_position (a b : option nat) : option nat :=
  match a, b with
  | Some x, Some y => Some (Nat.max x y)
  | Some x, None | None, Some x => Some x
  | None, None => None
  end.

Definition preferred_end (text : string) (start maximum : nat) : nat :=
  if String.length text <=? maximum then String.length text
  else
    let floor := start + Nat.max 1 ((maximum - start) / 2) in
    let boundary :=
      max_position (str_rfind blank_line text floor maximum)
        (max_position (str_rfind line_break text floor maximum) (str_rfind " " text floor maximum)) in
    match boundary with
    | Some b => if start <? b then b else maximum
    | None => maximum
    end.

(** The pages of the sections that meet a range. *)
Definition pages_in_range (start stop : nat) (sections : list ExtractedSection) : list N :=
  omap (λ s, if (start <? es_end_offset s) && (es_start_offset s <? stop)
             then es_page_number s else None) sections.

Definition pages_for_range (start stop : nat) (sections : list ExtractedSection)
    : option N * option N :=
  match pages_in_range start stop sections with
  | [] => (None, None)
  | p :: pages => (Some (foldr N.min p pages), Some (foldr N.max p pages))
  end.

(** [while cursor < end and text[cursor].isspace(): cursor += 1], for [n = end - cursor]. *)
Fixpoint skip_spaces (text : string) (cursor n : nat) : nat :=
  match n with
  | O => cursor
  | S n => if space_at text cursor then skip_spaces text (S cursor) n else cursor
  end.

(** [while end > cursor and text[end - 1].isspace(): end -= 1], for [end = cursor + n]. *)
Fixpoint trim_end (text : string) (cursor n : nat) : nat :=
  match n with
  | O => cursor
  | S n => if space_at text (cursor + n) then trim_end text cursor n else cursor + S n
  end.

Section Chunking.
Context (text : string) (chunk_size overlap minimum_chars : nat).
Context (sections : list ExtractedSection).

Definition draft (ordinal start stop : nat) : ChunkDraft :=
  let pages := pages_for_range start stop sections in
  {| cd_ordinal := ordinal; cd_text := slice text start stop; cd_start_offset := start;
     cd_end_offset := stop; cd_page_start := fst pages; cd_page_end := snd pages;
     cd_metadata := JObj [] |}.

(** The passage the next chunk is made of. *)
Definition passage (cursor : nat) : nat * nat :=
  let raw_end := Nat.min (String.length text) (cursor + chunk_size) in
  let stop := preferred_end text cursor raw_end in
  let start := skip_spaces text cursor (stop - cursor) in
  (start, trim_end text start (stop - start)).

Definition kept (start stop : nat) (drafts : list ChunkDraft) : bool :=
  (minimum_chars <=? String.length (str_strip (slice text start stop)))
  || match drafts with [] => true | _ => false end.

Definition next_cursor (start stop : nat) : nat :=
  let next := Nat.max (S start) (stop - overlap) in
  if overlap =? 0 then next
  else match str_find " " text next (Nat.min stop (next + 80)) with
       | Some boundary => S boundary
       | None => next
       end.

Inductive ChunkStep := Stop (drafts : list ChunkDraft) | Next (cursor : nat) (drafts : list ChunkDraft).

(** One turn of the loop. *)
Definition chunk_step (cursor : nat) (drafts : list ChunkDraft) : ChunkStep :=
  let (start, stop) := passage cursor in
  if stop <=? start then Next (Nat.min (String.length text) (cursor + chunk_size)) drafts
  else
    let drafts := if kept start stop drafts then drafts ++ [draft (List.length drafts) start stop]
                  else drafts in
    if String.length text <=? stop then Stop drafts else Next (next_cursor start stop) drafts.

(** [None]: out of fuel. *)
Fixpoint chunk_loop (fuel cursor : nat) (drafts : list ChunkDraft) : option (list ChunkDraft) :=
  if String.length text <=? cursor then Some drafts
  else
    match fuel with
    | O => None
    | S fuel =>
        match chunk_step cursor drafts with
        | Stop drafts => Some drafts
        | Next cursor drafts => chunk_loop fuel cursor drafts
        end
    end.

Definition chunk_text : option (KnowledgeErr.t + list ChunkDraft) :=
  if (chunk_size =? 0) || (chunk_size <=? overlap) then Some (inl KnowledgeErr.Chunking)
  else if String.eqb (str_strip text) "" then Some (inr [])
  else
    match chunk_loop (String.length text) 0 [] with
    | None => None
    | Some [] => Some (inl KnowledgeErr.Chunking)
    | Some drafts => Some (inr drafts)
    end.
End Chunking.

(** ** Lemmas on texts *)

Lemma substring_length s i n :
  i + n ≤ String.length s → String.length (String.substring i n s) = n.
Proof.
  revert i n. induction s as [|c s IH]; intros i n Hn; simpl in *.
  - assert (i = 0 ∧ n = 0) as [-> ->] by lia. done.
  - destruct i as [|i]; [destruct n as [|n]|]; simpl; [done| |apply IH; lia].
    f_equal. apply IH. lia.
Qed.

Lemma slice_length s a b : b ≤ String.length s → String.length (slice s a b) = b - a.
Proof.
  intros Hb. unfold slice. destruct (decide (a ≤ b)) as [Ha|Ha].
  - apply substring_length. lia.
  - assert (b - a = 0) as -> by lia. clear. revert a. induction s as [|c s IH]; intros [|a]; simpl; done.
Qed.

Lemma slice_get s a b i : i < b - a → String.get i (slice s a b) = String.get (a + i) s.
Proof. intros Hi. unfold slice. rewrite substring_correct1 by done. f_equal. lia. Qed.

Lemma get_some s i : i < String.length s → is_Some (String.get i s).
Proof.
  revert i. induction s as [|c s IH]; intros i Hi; simpl in *; [lia|].
  destruct i as [|i]; [by eexists|]. apply IH. lia.
Qed.

Lemma slice_space s a b i : i < b - a → space_at (slice s a b) i = space_at s (a + i).
Proof. intros Hi. unfold space_at. by rewrite slice_get. Qed.

Lemma lstrip_length s : String.length (str_lstrip s) ≤ String.length s.
Proof. induction s as [|c s IH]; simpl; [lia|]. destruct (is_space c); simpl; lia. Qed.
Lemma rstrip_length s : String.length (str_rstrip s) ≤ String.length s.
Proof.
  induction s as [|c s IH]; simpl; [lia|].
  destruct (str_rstrip s); [destruct (is_space c)|]; simpl in *; lia.
Qed.
Lemma strip_length s : String.length (str_strip s) ≤ String.length s.
Proof. unfold str_strip. etrans; [apply rstrip_length|apply lstrip_length]. Qed.

Lemma lstrip_id s : space_at s 0 = false → str_lstrip s = s.
Proof. destruct s as [|c s]; [done|]. unfold space_at. simpl. by intros ->. Qed.
Lemma rstrip_id s :
  space_at s (String.length s - 1) = false → str_rstrip s = s.
Proof.
  induction s as [|c s IH]; [done|]. simpl. rewrite Nat.sub_0_r. intros Hs.
  destruct s as [|c' s]; [unfold space_at in Hs; simpl in *; by rewrite Hs|].
  rewrite IH; [done|]. simpl. rewrite Nat.sub_0_r. exact Hs.
Qed.

(** A text that neither starts nor ends with a space is its own [strip]. *)
Lemma strip_id s :
  space_at s 0 = false → space_at s (String.length s - 1) = false → str_strip s = s.
Proof. intros Hf Hl. unfold str_strip. by rewrite lstrip_id, rstrip_id. Qed.

Lemma lstrip_space_at s i :
  i < String.length s → space_at s i = false →
  ∃ j, j < String.length (str_lstrip s) ∧ space_at (str_lstrip s) j = false.
Proof.
  revert i. induction s as [|c s IH]; intros i Hi Hs; simpl in *; [lia|].
  destruct (is_space c) eqn:Hc; [|by exists i]. destruct i as [|i].
  - unfold space_at in Hs. simpl in Hs. congruence.
  - apply (IH i); [lia|exact Hs].
Qed.
Lemma rstrip_nonspace s i : i < String.length s → space_at s i = false → str_rstrip s ≠ "".
Proof.
  revert i. induction s as [|c s IH]; intros i Hi Hs; simpl in *; [lia|].
  destruct i as [|i].
  - unfold space_at in Hs. simpl in Hs. rewrite Hs. by destruct (str_rstrip s).
  - specialize (IH i ltac:(lia) Hs). by destruct (str_rstrip s).
Qed.
Lemma strip_nonspace s i : i < String.length s → space_at s i = false → str_strip s ≠ "".
Proof.
  intros Hi Hs. destruct (lstrip_space_at s i Hi Hs) as (j & Hj & Hjs).
  by apply (rstrip_nonspace _ j).
Qed.

Lemma find_position pat s lo hi i :
  str_find pat s lo hi = Some i → lo ≤ i ∧ i + String.length pat ≤ hi.
Proof.
  unfold str_find, positions. intros Hf. apply List.find_some in Hf as [Hi _].
  apply in_seq in Hi. lia.
Qed.
Lemma rfind_position pat s lo hi i :
  str_rfind pat s lo hi = Some i → lo ≤ i ∧ i + String.length pat ≤ hi.
Proof.
  unfold str_rfind, positions. intros Hf. apply List.find_some in Hf as [Hi _].
  apply in_rev, in_seq in Hi. lia.
Qed.

Lemma max_position_ind (P : nat → Prop) a b i :
  max_position a b = Some i → (∀ j, a = Some j → P j) → (∀ j, b = Some j → P j) → P i.
Proof.
  intros Hm Ha Hb. destruct a as [x|], b as [y|]; simplify_eq/=; auto.
  destruct (Nat.max_spec x y) as [[_ ->]|[_ ->]]; auto.
Qed.

Lemma preferred_end_spec text start maximum :
  start < maximum → maximum ≤ String.length text →
  let stop := preferred_end text start maximum in
  stop ≤ maximum ∧ start < stop ∧
  (maximum < String.length text → start + (maximum - start) / 2 ≤ stop) ∧
  (maximum = String.length text → stop = maximum).
Proof.
  intros Hs Hm. unfold preferred_end. destruct (Nat.leb_spec (String.length text) maximum).
  { repeat split; lia. }
  assert (Hhalf : (maximum - start) / 2 ≤ maximum - start) by (apply Nat.Div0.div_le_upper_bound; lia).
  cbv zeta. generalize dependent ((maximum - start) / 2). intros half Hhalf. destruct (max_position _ _) as [b|] eqn:Hb; [|repeat split; lia].
  assert (start + Nat.max 1 half ≤ b ∧ b < maximum) as [Hlo Hhi].
  { apply (max_position_ind (λ b, _ ≤ b ∧ b < maximum) _ _ _ Hb).
    - intros j Hj%rfind_position. unfold blank_line, line_break in Hj. simpl in Hj. lia.
    - intros j Hj. apply (max_position_ind (λ b, _ ≤ b ∧ b < maximum) _ _ _ Hj);
        intros k Hk%rfind_position; unfold line_break in Hk; simpl in Hk; lia. }
  destruct (Nat.ltb_spec start b); repeat split; lia.
Qed.

Lemma skip_spaces_spec text cursor n :
  let r := skip_spaces text cursor n in
  cursor ≤ r ∧ r ≤ cursor + n ∧ (∀ i, cursor ≤ i → i < r → space_at text i = true) ∧
  (r < cursor + n → space_at text r = false).
Proof.
  revert cursor. induction n as [|n IH]; intros cursor; simpl; [repeat split; lia|].
  destruct (space_at text cursor) eqn:Hs; [|repeat split; try lia; done].
  destruct (IH (S cursor)) as (H1 & H2 & H3 & H4). repeat split; [lia|lia| |intros; apply H4; lia].
  intros i Hi Hr. destruct (decide (i = cursor)) as [->|]; [done|]. apply H3; lia.
Qed.

Lemma trim_end_spec text cursor n :
  let r := trim_end text cursor n in
  cursor ≤ r ∧ r ≤ cursor + n ∧ (∀ i, r ≤ i → i < cursor + n → space_at text i = true) ∧
  (cursor < r → space_at text (r - 1) = false).
Proof.
  induction n as [|n IH]; simpl; [repeat split; lia|].
  destruct (space_at text (cursor + n)) eqn:Hs.
  - destruct IH as (H1 & H2 & H3 & H4). repeat split; [lia|lia| |done].
    intros i Hi Hr. destruct (decide (i = cursor + n)) as [->|]; [done|]. apply H3; lia.
  - repeat split; try lia. intros _. replace (cursor + S n - 1) with (cursor + n) by lia. done.
Qed.

(** ** The loop *)

Section Loop.
Context (text : string) (chunk_size overlap minimum_chars : nat).
Context (sections : list ExtractedSection).
Context (size_positive : 0 < chunk_size).
#[local] Abbreviation L := (String.length text).
#[local] Abbreviation spaces a b := (∀ i, a ≤ i → i < b → space_at text i = true).

Lemma passage_spec cursor :
  cursor < L →
  let raw_end := Nat.min L (cursor + chunk_size) in
  let (start, stop) := passage text chunk_size cursor in
  ∃ bound, cursor < bound ∧ bound ≤ raw_end ∧
    (raw_end < L → cursor + chunk_size / 2 ≤ bound) ∧ (raw_end = L → bound = L) ∧
    cursor ≤ start ∧ start ≤ stop ∧ stop ≤ bound ∧ spaces cursor start ∧ spaces stop bound ∧
    (start < stop → space_at text start = false ∧ space_at text (stop - 1) = false).
Proof.
  intros Hc. cbv zeta. unfold passage.
  set (raw := Nat.min L (cursor + chunk_size)).
  destruct (preferred_end_spec text cursor raw) as (Hp1 & Hp2 & Hp3 & Hp4); [lia|lia|].
  set (bound := preferred_end text cursor raw) in *.
  destruct (skip_spaces_spec text cursor (bound - cursor)) as (Hs1 & Hs2 & Hs3 & Hs4).
  set (start := skip_spaces text cursor (bound - cursor)) in *.
  destruct (trim_end_spec text start (bound - start)) as (Ht1 & Ht2 & Ht3 & Ht4).
  set (stop := trim_end text start (bound - start)) in *.
  exists bound. split_and!; try lia; try done.
  - intros Hlt. etrans; [|apply Hp3; lia]. apply Nat.add_le_mono_l, Nat.Div0.div_le_mono. lia.
  - intros i Hi Hb. apply Ht3; lia.
  - intros Hlt. split; [apply Hs4; lia|by apply Ht4].
Qed.

Lemma next_cursor_spec start stop :
  start < stop → start < next_cursor text overlap start stop ∧
  next_cursor text overlap start stop ≤ stop ∧
  next_cursor text overlap start stop ≤ Nat.max (S start) (stop - overlap) + 80.
Proof.
  intros Hs. unfold next_cursor. destruct (overlap =? 0); [lia|].
  destruct (str_find _ _ _ _) as [b|] eqn:Hf; [|lia].
  apply find_position in Hf. simpl in Hf. lia.
Qed.

(** Every turn moves the cursor on, so the length of the text is enough fuel. *)
Lemma chunk_loop_ind (I : nat → list ChunkDraft → Prop) (Q : list ChunkDraft → Prop) :
  (∀ cursor drafts, L ≤ cursor → I cursor drafts → Q drafts) →
  (∀ cursor drafts, cursor < L → I cursor drafts →
     match chunk_step text chunk_size overlap minimum_chars sections cursor drafts with
     | Stop drafts => Q drafts
     | Next next drafts => I next drafts
     end) →
  ∀ fuel cursor drafts, L - cursor ≤ fuel → I cursor drafts →
    ∃ out, chunk_loop text chunk_size overlap minimum_chars sections fuel cursor drafts = Some out
           ∧ Q out.
Proof.
  intros Hend Hstep. induction fuel as [|fuel IH]; intros cursor drafts Hf HI; simpl;
    destruct (Nat.leb_spec L cursor) as [Hc|Hc]; [by eauto|lia|by eauto|].
  specialize (Hstep cursor drafts Hc HI). unfold chunk_step in *.
  pose proof (passage_spec cursor Hc) as Hp. cbv zeta in Hp.
  destruct (passage text chunk_size cursor) as [start stop].
  destruct Hp as (bound & ? & ? & _ & _ & ? & ? & ? & _).
  destruct (Nat.leb_spec stop start); [apply IH; [lia|done]|].
  destruct (L <=? stop); [by eauto|]. apply IH; [|done].
  pose proof (next_cursor_spec start stop). lia.
Qed.

(** *** What a chunk is *)

Definition chunk_ok (k : nat) (d : ChunkDraft) : Prop :=
  ∃ start stop, d = draft text sections k start stop ∧ start < stop ∧ stop ≤ L ∧
    stop ≤ start + chunk_size ∧ space_at text start = false ∧ space_at text (stop - 1) = false ∧
    (k = 0 ∨ minimum_chars ≤ stop - start).

Definition in_order (drafts : list ChunkDraft) : Prop :=
  ∀ j k d d', j < k → drafts !! j = Some d → drafts !! k = Some d' →
    cd_start_offset d < cd_start_offset d'.

Definition chunks_ok (drafts : list ChunkDraft) : Prop :=
  (∀ k d, drafts !! k = Some d → chunk_ok k d) ∧ in_order drafts.

Definition chunks_before (cursor : nat) (drafts : list ChunkDraft) : Prop :=
  chunks_ok drafts ∧ ∀ d, d ∈ drafts → cd_start_offset d < cursor.

Lemma before_mono cursor cursor' drafts :
  cursor ≤ cursor' → chunks_before cursor drafts → chunks_before cursor' drafts.
Proof. intros Hc [Hok Hb]. split; [done|]. intros d Hd. specialize (Hb d Hd). lia. Qed.

Lemma chunk_added cursor drafts start stop :
  chunks_before cursor drafts → cursor ≤ start →
  chunk_ok (List.length drafts) (draft text sections (List.length drafts) start stop) →
  chunks_before (S start) (drafts ++ [draft text sections (List.length drafts) start stop]).
Proof.
  intros [[Hok Hord] Hb] Hc Hnew. split; [split|].
  - intros k d [Hk|[Hk Hd]]%lookup_app_Some; [by apply Hok|].
    apply list_lookup_singleton_Some in Hd as [Hk' <-].
    assert (k = List.length drafts) as -> by lia. done.
  - intros j k d d' Hjk Hj Hk. apply lookup_app_Some in Hk as [Hk|[Hk Hd']].
    + apply lookup_app_Some in Hj as [Hj|[Hj _]]; [by apply (Hord j k)|].
      apply lookup_lt_Some in Hk. lia.
    + apply list_lookup_singleton_Some in Hd' as [Hk' <-].
      apply lookup_app_Some in Hj as [Hj|[Hj _]]; [|lia].
      simpl. apply list_elem_of_lookup_2 in Hj. specialize (Hb d Hj). lia.
  - intros d [Hd| ->%list_elem_of_singleton]%elem_of_app; simpl; [|lia].
    specialize (Hb d Hd). lia.
Qed.

Lemma kept_ok drafts start stop :
  start < stop → stop ≤ L → kept text minimum_chars start stop drafts = true →
  List.length drafts = 0 ∨ minimum_chars ≤ stop - start.
Proof.
  unfold kept. intros Hs Hl [Hm|Hd]%orb_true_iff; [right|left; by destruct drafts].
  apply Nat.leb_le in Hm. etrans; [exact Hm|]. etrans; [apply strip_length|].
  by rewrite slice_length.
Qed.

Lemma chunk_step_ok cursor drafts :
  cursor < L → chunks_before cursor drafts →
  match chunk_step text chunk_size overlap minimum_chars sections cursor drafts with
  | Stop drafts => chunks_ok drafts
  | Next next drafts => chunks_before next drafts
  end.
Proof.
  intros Hc Hb. unfold chunk_step. pose proof (passage_spec cursor Hc) as Hp. cbv zeta in Hp.
  destruct (passage text chunk_size cursor) as [start stop].
  destruct Hp as (bound & ? & ? & _ & _ & ? & ? & ? & _ & _ & Hsp).
  destruct (Nat.leb_spec stop start); [apply (before_mono cursor); [lia|done]|].
  destruct (next_cursor_spec start stop) as (Hn & _ & _); [done|].
  destruct (kept text minimum_chars start stop drafts) eqn:Hk.
  - assert (chunks_before (S start)
      (drafts ++ [draft text sections (List.length drafts) start stop])) as Hnew.
    { apply (chunk_added cursor); [done..|]. exists start, stop.
      destruct Hsp; [done|]. split_and!; try done; try lia. by apply (kept_ok drafts); [|lia|]. }
    destruct (L <=? stop); [apply Hnew|]. by apply (before_mono (S start)).
  - destruct (L <=? stop); [apply Hb|]. apply (before_mono cursor); [lia|done].
Qed.
End Loop.

(** *** What the chunks cover *)

Definition covered (drafts : list ChunkDraft) (p : nat) : Prop :=
  ∃ d, d ∈ drafts ∧ cd_start_offset d ≤ p ∧ p < cd_end_offset d.

(** Among any [k] characters in a row one is not a space. *)
Definition dense (text : string) (k : nat) : bool :=
  forallb (λ i, existsb (λ j, negb (space_at text j)) (seq i k))
    (seq 0 (S (String.length text) - k)).

Lemma dense_window text k i :
  dense text k = true → i + k ≤ String.length text →
  ∃ j, i ≤ j ∧ j < i + k ∧ space_at text j = false.
Proof.
  unfold dense. rewrite forallb_forall. intros Hd Hi. specialize (Hd i).
  rewrite existsb_exists in Hd. destruct Hd as (j & Hj & Hs); [apply in_seq; lia|].
  apply in_seq in Hj. apply negb_true_iff in Hs. exists j. split_and!; [lia..|done].
Qed.

Lemma half_positive size n : n < size / 2 → 0 < size.
Proof. destruct size; [simpl|]; lia. Qed.

Section Coverage.
Context (text : string) (chunk_size overlap minimum_chars k : nat).
Context (sections : list ExtractedSection).
Context (text_dense : dense text k = true).
Context (overlap_large : 80 + k + minimum_chars ≤ overlap).
Context (size_large : 2 * k + overlap < chunk_size / 2).
#[local] Abbreviation L := (String.length text).
#[local] Abbreviation spaces a b := (∀ i, a ≤ i → i < b → space_at text i = true).

Definition covers_up_to (f : nat) (drafts : list ChunkDraft) : Prop :=
  ∀ p, p < f → p < L → space_at text p = false → covered drafts p.

(** The loop is at the beginning, at the end, or well inside what it has covered. *)
Definition coverage (cursor : nat) (drafts : list ChunkDraft) : Prop :=
  (drafts = [] ∧ cursor = 0) ∨ covers_up_to L drafts ∨
  (drafts ≠ [] ∧ ∃ f, f ≤ L ∧ cursor ≤ f ∧ cursor + overlap ≤ f + 80 ∧ covers_up_to f drafts).

(** No run of spaces is as long as a window. *)
Lemma spaces_short a b : a ≤ b → b ≤ L → spaces a b → b < a + k.
Proof.
  intros Hab Hb Hs. destruct (decide (b < a + k)); [done|].
  destruct (dense_window text k a text_dense) as (j & ? & ? & Hj); [lia|].
  rewrite Hs in Hj by lia. done.
Qed.

Lemma coverage_before cursor drafts : coverage cursor drafts → covers_up_to cursor drafts.
Proof.
  intros [[_ ->]|[Hall|(_ & f & _ & Hc & _ & Hf)]] p Hp; [lia| |by apply Hf; lia].
  intros Hl. by apply Hall.
Qed.

Lemma kept_long start stop drafts :
  start < stop → stop ≤ L → space_at text start = false → space_at text (stop - 1) = false →
  minimum_chars ≤ stop - start → kept text minimum_chars start stop drafts = true.
Proof.
  intros Hs Hl Hf Hlast Hm. unfold kept. apply orb_true_iff. left. apply Nat.leb_le.
  rewrite strip_id; rewrite ?slice_length by done; [done| |]; rewrite slice_space by lia.
  - by rewrite Nat.add_0_r.
  - replace (start + (stop - start - 1)) with (stop - 1) by lia. done.
Qed.

(** A kept passage extends what is covered. *)
Lemma covers_passage cursor start stop bound drafts n :
  covers_up_to cursor drafts → spaces cursor start → spaces stop bound →
  covers_up_to bound (drafts ++ [draft text sections n start stop]).
Proof.
  intros Hc Hs Hb p Hp Hl Hns.
  destruct (decide (p < cursor)) as [Hpc|Hpc].
  { destruct (Hc p Hpc Hl Hns) as (d & Hd & ?). exists d. split; [|done]. apply elem_of_app. by left. }
  destruct (decide (p < start)); [rewrite Hs in Hns by lia; done|].
  destruct (decide (stop ≤ p)); [rewrite Hb in Hns by lia; done|].
  exists (draft text sections n start stop). split; [|simpl; lia].
  apply elem_of_app. right. by apply list_elem_of_singleton.
Qed.

Lemma covers_spaces cursor drafts : covers_up_to cursor drafts → spaces cursor L → covers_up_to L drafts.
Proof.
  intros Hc Hs p Hp Hl Hns. destruct (decide (p < cursor)); [by apply Hc|].
  rewrite Hs in Hns by lia. done.
Qed.

(** A passage at the end that is too short to keep has been covered before. *)
Lemma short_tail cursor start stop drafts :
  cursor < L → coverage cursor drafts → spaces cursor start → spaces stop L →
  cursor ≤ start → start < stop → stop ≤ L →
  space_at text start = false → space_at text (stop - 1) = false →
  kept text minimum_chars start stop drafts = false → covers_up_to L drafts.
Proof.
  intros Hc Hcov Hs Ht Hcs Hss Hsl Hf Hlast Hk p _ Hl Hns.
  destruct Hcov as [[-> _]|[Hall|(_ & f & _ & Hcf & Hcl & Hcov)]];
    [by unfold kept in Hk; rewrite orb_true_r in Hk|by apply Hall|].
  destruct (decide (p < f)); [by apply Hcov|].
  destruct (decide (stop ≤ p)); [rewrite Ht in Hns by lia; done|].
  pose proof (spaces_short cursor start Hcs) as Hk1. specialize (Hk1 ltac:(lia) Hs).
  rewrite kept_long in Hk; [done|done|lia|done|done|lia].
Qed.

Lemma step_coverage cursor drafts :
  cursor < L → coverage cursor drafts →
  match chunk_step text chunk_size overlap minimum_chars sections cursor drafts with
  | Stop drafts => covers_up_to L drafts
  | Next next drafts => coverage next drafts
  end.
Proof.
  intros Hc Hcov. pose proof (coverage_before cursor drafts Hcov) as Hbefore.
  unfold chunk_step. pose proof (half_positive _ _ size_large) as Hsize.
  pose proof (passage_spec text chunk_size Hsize cursor Hc) as Hp.
  cbv zeta in Hp. destruct (passage text chunk_size cursor) as [start stop].
  destruct Hp as (bound & Hb1 & Hb2 & Hmid & Hlast & Hs1 & Hs2 & Hs3 & Hsp1 & Hsp2 & Hne).
  set (raw := Nat.min L (cursor + chunk_size)) in *.
  assert (Hraw : raw ≤ L) by lia.
  destruct (Nat.leb_spec stop start) as [Hstop|Hstop].
  - assert (Hall : spaces cursor bound).
    { intros i Hi Hib. destruct (decide (i < start)); [by apply Hsp1|]. apply Hsp2; lia. }
    destruct (decide (raw = L)) as [Hr|Hr]; [rewrite (Hlast Hr) in Hall; right; left; by eapply covers_spaces|].
    pose proof (spaces_short cursor bound ltac:(lia) ltac:(lia) Hall). specialize (Hmid ltac:(lia)). lia.
  - destruct (Hne Hstop) as [Hn1 Hn2].
    pose proof (covers_passage cursor start stop bound drafts (List.length drafts) Hbefore Hsp1 Hsp2) as Hnew.
    destruct (decide (raw = L)) as [Hr|Hr].
    + rewrite (Hlast Hr) in *.
      destruct (kept text minimum_chars start stop drafts) eqn:Hk.
      * destruct (L <=? stop); [done|]. right. by left.
      * assert (covers_up_to L drafts) by (eapply (short_tail cursor start stop); eauto).
        destruct (L <=? stop); [done|]. right. by left.
    + specialize (Hmid ltac:(lia)).
      pose proof (spaces_short cursor start Hs1 ltac:(lia) Hsp1).
      pose proof (spaces_short stop bound Hs3 ltac:(lia) Hsp2).
      rewrite kept_long; [|done|lia|done|done|lia].
      destruct (Nat.leb_spec L stop); [lia|]. right. right.
      destruct (next_cursor_spec text chunk_size overlap Hsize start stop Hstop) as (_ & Hnx1 & Hnx2).
      split; [by destruct drafts|]. exists stop. split_and!; [lia|lia|lia|].
      intros p Hp. apply Hnew. lia.
Qed.
End Coverage.

(** ** Sections of a normalized document *)

Lemma append_length s t : String.length (s +:+ t) = String.length s + String.length t.
Proof. induction s as [|c s IH]; simpl; [done|by rewrite IH]. Qed.

Lemma append_empty_r s : s +:+ "" = s.
Proof. induction s as [|c s IH]; [done|]. change (String c (s +:+ "") = String c s). by rewrite IH. Qed.

Lemma substring_app_l s t i n :
  i + n ≤ String.length s → String.substring i n (s +:+ t) = String.substring i n s.
Proof.
  revert i n. induction s as [|c s IH]; intros i n Hn; simpl in *.
  - assert (i = 0 ∧ n = 0) as [-> ->] by lia. by destruct t.
  - destruct i as [|i]; [destruct n as [|n]|]; simpl; [done| |apply IH; lia].
    f_equal. apply IH. lia.
Qed.

Lemma substring_all s : String.substring 0 (String.length s) s = s.
Proof. induction s as [|c s IH]; simpl; [done|by rewrite IH]. Qed.

Lemma slice_app_l s t a b :
  a ≤ b → b ≤ String.length s → slice (s +:+ t) a b = slice s a b.
Proof. intros Ha Hb. apply substring_app_l. lia. Qed.

Lemma slice_app_r s t : slice (s +:+ t) (String.length s) (String.length s + String.length t) = t.
Proof.
  unfold slice. rewrite Nat.add_comm, Nat.add_sub.
  induction s as [|c s IH]; simpl; [apply substring_all|exact IH].
Qed.

Section Sections.
Context `{UnicodeLib}.

(** A section is a non-empty passage of the text, the normal form of a page. *)
Definition located (text : string) (pages : list ExtractedSection) (s : ExtractedSection) : Prop :=
  es_start_offset s < es_end_offset s ∧ es_end_offset s ≤ String.length text ∧
  slice text (es_start_offset s) (es_end_offset s) = es_text s ∧
  ∃ page, page ∈ pages ∧ es_text s = normalize_text (es_text page) ∧
    es_page_number s = es_page_number page.

Definition separated (sections : list ExtractedSection) : Prop :=
  ∀ j k s s', j < k → sections !! j = Some s → sections !! k = Some s' →
    es_end_offset s + 2 ≤ es_start_offset s'.

Definition normal_ok (pages : list ExtractedSection) (acc : Normalized) : Prop :=
  no_offset acc = String.length (no_text acc) ∧ separated (no_sections acc) ∧
  ∀ s, s ∈ no_sections acc → located (no_text acc) pages s.

Lemma located_grows text more pages pages' s :
  pages ⊆ pages' → located text pages s → located (text +:+ more) pages' s.
Proof.
  intros Hp (Hlt & Hle & Hs & page & Hin & Hn). split_and!; [done| | |].
  - rewrite append_length. lia.
  - rewrite slice_app_l by lia. done.
  - exists page. split; [by apply Hp|done].
Qed.

Lemma normalize_section_ok pages acc page :
  normal_ok pages acc → normal_ok (pages ++ [page]) (normalize_section acc page).
Proof.
  intros (Ho & Hsep & Hloc). unfold normalize_section.
  assert (Hsub : pages ⊆ pages ++ [page]) by (intros x Hx; apply elem_of_app; by left).
  destruct (String.eqb_spec (normalize_text (es_text page)) "") as [He|He].
  { split_and!; [done|done|]. intros s Hs. rewrite <-(append_empty_r (no_text acc)).
    by eapply located_grows, Hloc. }
  set (normalized := normalize_text (es_text page)) in *.
  set (text := match no_sections acc with [] => no_text acc | _ => _ end).
  set (start := match no_sections acc with [] => no_offset acc | _ => _ end).
  assert (Hstart : start = String.length text).
  { subst start text. rewrite Ho. destruct (no_sections acc); [done|]. by rewrite append_length. }
  assert (Hlen : 0 < String.length normalized) by (destruct normalized; simpl; [done|lia]).
  split_and!; simpl.
  - rewrite append_length. lia.
  - intros j k s s' Hjk Hj Hk. apply lookup_app_Some in Hk as [Hk|[Hk Hs']].
    + apply lookup_app_Some in Hj as [Hj|[Hj _]]; [by apply (Hsep j k)|].
      apply lookup_lt_Some in Hk. lia.
    + apply list_lookup_singleton_Some in Hs' as [Hk' <-]. simpl.
      apply lookup_app_Some in Hj as [Hj|[Hj _]]; [|lia].
      assert (Hin : s ∈ no_sections acc) by (by eapply list_elem_of_lookup_2).
      destruct (Hloc s Hin) as (_ & Hle & _). subst start.
      destruct (no_sections acc); [by apply not_elem_of_nil in Hin|]. lia.
  - intros s [Hs| ->%list_elem_of_singleton]%elem_of_app.
    + eapply located_grows; [exact Hsub|].
      assert (located text pages s) as Ht; [|exact Ht].
      subst text. specialize (Hloc s Hs). destruct (no_sections acc); [done|].
      by eapply located_grows.
    + split_and!; simpl; [lia|rewrite append_length; lia|rewrite Hstart; apply slice_app_r|].
      exists page. split; [|done]. apply elem_of_app. right. by apply list_elem_of_singleton.
Qed.

Lemma normalize_sections_ok pages acc more :
  normal_ok pages acc → normal_ok (pages ++ more) (foldl normalize_section acc more).
Proof.
  revert pages acc. induction more as [|page more IH]; intros pages acc Hok; simpl.
  - by rewrite app_nil_r.
  - rewrite (cons_middle page pages more). rewrite app_assoc. by apply IH, normalize_section_ok.
Qed.
End Sections.

(** A chunk names the first and the last page it takes text from. *)
Definition cites (sections : list ExtractedSection) (d : ChunkDraft) : Prop :=
  ∀ s p, s ∈ sections → es_page_number s = Some p →
    cd_start_offset d < es_end_offset s → es_start_offset s < cd_end_offset d →
    ∃ a b, cd_page_start d = Some a ∧ cd_page_end d = Some b ∧ (a <= p <= b)%N.

Lemma pages_cited text sections k start stop : cites sections (draft text sections k start stop).
Proof.
  intros s p Hs Hp Hlo Hhi. simpl in *. unfold draft, pages_for_range. simpl.
  assert (Hin : p ∈ pages_in_range start stop sections).
  { unfold pages_in_range. apply list_elem_of_omap. exists s. split; [done|].
    rewrite (proj2 (Nat.ltb_lt _ _) Hlo), (proj2 (Nat.ltb_lt _ _) Hhi). done. }
  assert (Hmin : ∀ l q, (foldr N.min q l <= q)%N ∧ ∀ x, x ∈ l → (foldr N.min q l <= x)%N).
  { induction l as [|y l IH]; intros q; simpl; [split; [lia|by intros ? ?%not_elem_of_nil]|].
    destruct (IH q) as [H1 H2]. split; [lia|]. intros x [->|Hx]%elem_of_cons; [lia|].
    specialize (H2 x Hx). lia. }
  assert (Hmax : ∀ l q, (q <= foldr N.max q l)%N ∧ ∀ x, x ∈ l → (x <= foldr N.max q l)%N).
  { induction l as [|y l IH]; intros q; simpl; [split; [lia|by intros ? ?%not_elem_of_nil]|].
    destruct (IH q) as [H1 H2]. split; [lia|]. intros x [->|Hx]%elem_of_cons; [lia|].
    specialize (H2 x Hx). lia. }
  destruct (pages_in_range start stop sections) as [|q l]; [by apply not_elem_of_nil in Hin|].
  simpl. exists (foldr N.min q l), (foldr N.max q l). split; [done|]. split; [done|].
  apply elem_of_cons in Hin as [->|Hx].
  - split; [exact (proj1 (Hmin l q))|exact (proj1 (Hmax l q))].
  - split; [by apply (proj2 (Hmin l q))|by apply (proj2 (Hmax l q))].
Qed.

(** What the chunker returns. *)
Definition chunks_of (text : string) (chunk_size minimum_chars : nat)
    (sections : list ExtractedSection) (r : KnowledgeErr.t + list ChunkDraft) : Prop :=
  match r with
  | inl e => e = KnowledgeErr.Chunking
  | inr drafts =>
      chunks_ok text chunk_size minimum_chars sections drafts ∧
      ∀ d, d ∈ drafts → cites sections d ∧
        cd_text d = slice text (cd_start_offset d) (cd_end_offset d)
  end.

Lemma chunk_text_ok text chunk_size overlap minimum_chars sections :
  ∃ r, chunk_text text chunk_size overlap minimum_chars sections = Some r ∧
    chunks_of text chunk_size minimum_chars sections r.
Proof.
  unfold chunk_text. destruct (Nat.eqb_spec chunk_size 0) as [|Hs]; simpl; [by eexists|].
  destruct (chunk_size <=? overlap); [by eexists|].
  destruct (String.eqb (str_strip text) "").
  { eexists. split; [done|]. split; [split; [by intros k d|by intros j k d d']|].
    by intros d ?%not_elem_of_nil. }
  destruct (chunk_loop_ind text chunk_size overlap minimum_chars sections ltac:(lia)
    (chunks_before text chunk_size minimum_chars sections)
    (chunks_ok text chunk_size minimum_chars sections)) with (fuel := String.length text)
      (cursor := 0) (drafts := @nil ChunkDraft) as (out & Hout & Hok).
  - intros cursor drafts _ Hb. apply Hb.
  - intros cursor drafts Hc Hb. apply chunk_step_ok; [lia|done|done].
  - lia.
  - split; [split; [by intros k d|by intros j k d d']|by intros d ?%not_elem_of_nil].
  - rewrite Hout. destruct out as [|d0 out]; [by eexists|]. eexists. split; [done|]. split; [done|].
    intros d [k Hk]%list_elem_of_lookup_1. destruct (proj1 Hok k d Hk) as (a & b & -> & _).
    split; [apply pages_cited|done].
Qed.

(** ** Theorems *)

(** The sections of a normalized document locate their text: each is a non-empty
    passage of the document's text, between its offsets, is the normal form of the
    text of one of the extracted pages and has that page's number; and the sections
    follow each other with a blank line between them.  A citation computed from these
    offsets therefore points at the page the text comes from. *)
Theorem normalized_sections_located `{UnicodeLib} document :
  let d := normalize_extracted_document document in
  separated (ed_sections d) ∧
  ∀ s, s ∈ ed_sections d → located (ed_text d) (ed_sections document) s.
Proof.
  destruct (normalize_sections_ok [] {| no_text := ""; no_sections := []; no_offset := 0 |}
    (ed_sections document)) as (_ & Hsep & Hloc); [|by split].
  split_and!; [done|by intros j k s s'|by intros s ?%not_elem_of_nil].
Qed.

(** The chunker always ends, and what it returns are passages of the text: the
    chunks are numbered from zero and start at growing positions; each is the exact
    text between its offsets, at most the chunk size long, neither starts nor ends
    with a space, has the minimum length unless it is the first, and cites the first
    and the last page it takes text from.  An error is always the chunking error, of
    a configuration that is not one or of a text that yields nothing. *)
Theorem chunk_text_passages text chunk_size overlap minimum_chars sections :
  ∃ r, chunk_text text chunk_size overlap minimum_chars sections = Some r ∧
    chunks_of text chunk_size minimum_chars sections r.
Proof. apply chunk_text_ok. Qed.

(** No text is lost, provided that spaces come in runs shorter than [k], that the
    overlap is larger than the minimum length by the window of eighty characters the
    loop may skip and by [k], and that the chunk size is large enough for both: every
    character that is not a space is in some chunk.  The default configuration allows
    runs of up to fifty spaces. *)
Theorem chunk_text_covers text chunk_size overlap minimum_chars k sections p :
  dense text k = true → 80 + k + minimum_chars ≤ overlap → 2 * k + overlap < chunk_size / 2 →
  p < String.length text → space_at text p = false →
  ∃ drafts, chunk_text text chunk_size overlap minimum_chars sections = Some (inr drafts) ∧
    covered drafts p.
Proof.
  intros Hd Ho Hk Hp Hns. pose proof (half_positive _ _ Hk) as Hs.
  assert (Hsize : chunk_size / 2 ≤ chunk_size) by (apply Nat.Div0.div_le_upper_bound; lia).
  unfold chunk_text. destruct (Nat.eqb_spec chunk_size 0) as [|_]; [lia|].
  destruct (Nat.leb_spec chunk_size overlap) as [|_]; [lia|]. simpl.
  destruct (String.eqb_spec (str_strip text) "") as [He|_].
  { exfalso. revert He. by apply strip_nonspace with (i := p). }
  destruct (chunk_loop_ind text chunk_size overlap minimum_chars sections Hs
    (coverage text overlap) (covers_up_to text (String.length text)))
    with (fuel := String.length text) (cursor := 0) (drafts := @nil ChunkDraft) as (out & Hout & Hcov).
  - intros cursor drafts Hc [[_ ->]|[Hall|(_ & f & _ & Hf & _ & Hcov)]]; [lia|done|].
    intros q Hq. apply Hcov. lia.
  - intros cursor drafts Hc. by apply (step_coverage text chunk_size overlap minimum_chars k).
  - lia.
  - by left.
  - destruct (Hcov p Hp Hp Hns) as (d & Hd' & Hd''). rewrite Hout.
    destruct out as [|d0 out]; [by apply not_elem_of_nil in Hd'|]. eexists. split; [done|by exists d].
Qed.

(** ** Examples *)

Module ChunkingExamples.
Definition sentence : string :=
  "Orders can be returned within thirty days of delivery when the parcel is unopened.".

Lemma chunk_text_covers_witness :
  ∃ drafts, chunk_text sentence 2400 150 20 [] = Some (inr drafts) ∧ covered drafts 40.
Proof.
  apply (chunk_text_covers sentence 2400 150 20 30 [] 40); vm_compute; try reflexivity; lia.
Defined.

(** What is found of a text, and whether each character is in a chunk. *)
Definition texts (r : option (KnowledgeErr.t + list ChunkDraft)) : list string :=
  match r with Some (inr drafts) => map cd_text drafts | _ => [] end.

(** With a run of spaces longer than half the chunk size a word is lost: the passage
    that ends before the word is blank, and the loop then goes on behind it. *)
Definition columns : string := "Name:            Lovelace-Byron, Countess".
Example long_spaces_lose_text :
  texts (chunk_text columns 20 4 1 []) = ["Name:"; "ame:"; "me:"; "e:"; ":"; "-Byron, Countess"].
Proof. vm_compute. reflexivity. Qed.
End ChunkingExamples.
