(* ===== verification/Knowledge.v ===== *)
(** * Knowledge: sources, documents, ingestion and retrieval

    [knowledge/services.py], [knowledge/tasks.py], [knowledge/recovery.py],
    [knowledge/retrieval/services.py], and from [knowledge/ingestion/] the upload
    validators, the extractors and the deterministic embedding provider.  The PDF
    parser, the file storage and the vector distance of the database are parameters;
    what the storage and an embedding provider do to the world is anything they are
    given to do.  A document holds the content of its file. *)

From stdpp Require Import base gmap strings list pretty sorting relations.
From Stdlib Require Import ZArith SpecFloat Ascii String Lia.
From S2P Require Import Prelude Json Domain Policy Models Store Workspaces Chunking Delivery Graph.

#[local] Open Scope nat_scope.

(** ** Parameters *)

(** A failure of the PDF parser: one of its own errors, or anything else. *)
Inductive PdfFailure := PdfReadError | PdfCrash.

(** What reading one page raises, when it does, or gives. *)
Record PdfPage := {
  page_mediabox : option PdfFailure;
  page_text : PdfFailure + string;
}.

Record PdfDocument := {
  pdf_is_encrypted : bool;
  pdf_pages : list PdfPage;
}.

Class Documents := {
  pdf_reader : string → PdfFailure + PdfDocument;
  (** [stored_file.open("rb")] and the content it reads *)
  open_stored_file : string → M World exn string;
}.

(** The vector type of the database, and the plan it chooses for
    [ORDER BY distance LIMIT top_k].  The column has an approximate index: a scan of it
    need not reach every row that satisfies the predicates, and which rows it reaches
    may depend on the table, the predicates, the query and the limit. *)
Class VectorDatabase := {
  cosine_distance : list spec_float → list spec_float → spec_float;
  index_reaches : gmap N KnowledgeChunk → (N → KnowledgeChunk → bool) → list spec_float → nat →
    N → bool;
}.

(** [hashlib.sha256(token).digest()]. *)
Class TokenDigest := { sha256_digest : string → list N }.

Record EmbeddingProvider := {
  provider_name : string;
  model_name : string;
  provider_dimension : nat;
  embed_documents : list string → M World exn (list (list json));
  embed_query : string → M World exn (list json);
}.

(** ** Uploads ([ingestion/validators.py]) *)

Record UploadedFile := {
  uf_name : string;
  uf_size : option N;
  uf_content_type : string;
  uf_content : string;
}.

Record ValidatedUpload := {
  vu_original_filename : string;
  vu_content_type : string;
  vu_size : N;
}.

Definition starts_with (pat s : string) : bool := match_at pat s 0.
Definition any_start (pats : list string) (s : string) : bool :=
  existsb (λ p, starts_with p s) pats.
Definition has_char (c : ascii) (s : string) : bool := str_contains (String c "") s.

Definition slash : ascii := ascii_of_nat 47.
Definition backslash : ascii := ascii_of_nat 92.
Definition dot : ascii := ascii_of_nat 46.

(** [PurePath(name).name != name]: a separator, or the current directory. *)
Definition safe_filename (name : string) : KnowledgeErr.t + string :=
  if String.eqb name "" || has_char NUL name then inl KnowledgeErr.InvalidFile
  else
    let normalized := str_map (λ c, if Ascii.eqb c backslash then slash else c) name in
    if has_char slash normalized || str_in normalized ["."; ".."] then inl KnowledgeErr.InvalidFile
    else inr normalized.

(** [Path(name).suffix]: from the last dot, which is neither the first nor the last
    character. *)
Definition path_suffix (name : string) : string :=
  match str_rfind (String dot "") name 0 (String.length name) with
  | Some i =>
      if (0 <? i) && (i <? String.length name - 1) then slice name i (String.length name) else ""
  | None => ""
  end.

(** The part before the first semicolon. *)
Definition before_semicolon (s : string) : string :=
  match str_find ";" s 0 (String.length s) with Some i => slice s 0 i | None => s end.

Definition byte (n : nat) : string := String (ascii_of_nat n) "".

(** What a text upload must not start with. *)
Definition BINARY_PREFIXES : list string :=
  ["%PDF-"; "MZ"; byte 127 +:+ "ELF"; "PK" +:+ byte 3 +:+ byte 4].
Definition MARKUP_PREFIXES : list string := ["<html"; "<!doctype html"; "<script"].

Section Uploads.
Context `{Settings} `{Documents}.

Fixpoint first_failure (pages : list PdfPage) : option PdfFailure :=
  match pages with
  | [] => None
  | p :: pages => match page_mediabox p with Some e => Some e | None => first_failure pages end
  end.

(** The errors that are not the parser's own escape. *)
Definition pdf_failure (e : PdfFailure) : exn :=
  match e with PdfReadError => KnowledgeExc KnowledgeErr.MalformedPdf | PdfCrash => OtherExc 7 end.

Definition validate_pdf_stream (content : string) : exn + () :=
  if negb (starts_with "%PDF-" content) then inl (KnowledgeExc KnowledgeErr.MalformedPdf)
  else
    match pdf_reader content with
    | inl e => inl (pdf_failure e)
    | inr reader =>
        if pdf_is_encrypted reader then inl (KnowledgeExc KnowledgeErr.EncryptedPdf)
        else if KNOWLEDGE_MAX_PDF_PAGES <? List.length (pdf_pages reader) then
          inl (KnowledgeExc KnowledgeErr.PdfPageLimit)
        else match first_failure (pdf_pages reader) with
             | Some e => inl (pdf_failure e)
             | None => inr ()
             end
    end.

Definition allowed_extension (content_type extension : string) : bool :=
  existsb (λ a, String.eqb a.1 content_type && str_in extension a.2) KNOWLEDGE_ALLOWED_CONTENT_TYPES.

Definition validate_upload (upload : UploadedFile) : exn + ValidatedUpload :=
  match safe_filename (uf_name upload) with
  | inl e => inl (KnowledgeExc e)
  | inr name =>
      let size := default 0%N (uf_size upload) in
      if (size =? 0)%N then inl (KnowledgeExc KnowledgeErr.EmptyFile)
      else if (KNOWLEDGE_MAX_UPLOAD_BYTES <? size)%N then inl (KnowledgeExc KnowledgeErr.FileTooLarge)
      else
        let extension := str_lower (path_suffix name) in
        let content_type := str_strip (before_semicolon (str_lower (uf_content_type upload))) in
        if negb (allowed_extension content_type extension) then
          inl (KnowledgeExc KnowledgeErr.UnsupportedFileType)
        else
          let prefix := str_take (N.to_nat (N.min size 4096)) (uf_content upload) in
          let pdf := String.eqb content_type "application/pdf" in
          let valid := inr {| vu_original_filename := name; vu_content_type := content_type;
                              vu_size := size |} in
          if has_char NUL prefix && negb pdf then inl (KnowledgeExc KnowledgeErr.InvalidFile)
          else if pdf then
            match validate_pdf_stream (uf_content upload) with inl e => inl e | inr _ => valid end
          else if any_start BINARY_PREFIXES prefix
                  || any_start MARKUP_PREFIXES (str_lower (str_lstrip prefix)) then
            inl (KnowledgeExc KnowledgeErr.UnsupportedFileType)
          else valid
  end.
End Uploads.

(** ** Extraction ([ingestion/extractors.py]) *)

Section Extraction.
Context `{Settings} `{UnicodeLib} `{Documents}.

Definition extract_plain_text (content : string) : KnowledgeErr.t + ExtractedDocument :=
  match decode_utf8_sig content with
  | None => inl KnowledgeErr.Extraction
  | Some text =>
      inr {| ed_text := text; ed_metadata := JObj [("format", JStr "text")];
             ed_sections := [{| es_text := text; es_start_offset := 0;
                                es_end_offset := String.length text; es_page_number := None;
                                es_title := None |}] |}
  end.

(** The loop over the pages: the text so far, its sections, the next page number. *)
Fixpoint extract_pages (pages : list PdfPage) (number : N) (text : string)
    (sections : list ExtractedSection) : PdfFailure + (string * list ExtractedSection) :=
  match pages with
  | [] => inr (text, sections)
  | p :: pages =>
      match page_text p with
      | inl e => inl e
      | inr page_text =>
          let text := match sections with [] => text | _ => text +:+ blank_line end in
          let start := String.length text in
          extract_pages pages (number + 1)%N (text +:+ page_text)
            (sections ++ [{| es_text := page_text; es_start_offset := start;
                             es_end_offset := start + String.length page_text;
                             es_page_number := Some number; es_title := None |}])
      end
  end.

Definition extraction_failure (e : PdfFailure) : KnowledgeErr.t :=
  match e with PdfReadError => KnowledgeErr.MalformedPdf | PdfCrash => KnowledgeErr.Extraction end.

Definition extract_pdf_text (content : string) : KnowledgeErr.t + ExtractedDocument :=
  match pdf_reader content with
  | inl e => inl (extraction_failure e)
  | inr reader =>
      if pdf_is_encrypted reader then inl KnowledgeErr.EncryptedPdf
      else if KNOWLEDGE_MAX_PDF_PAGES <? List.length (pdf_pages reader) then
        inl KnowledgeErr.PdfPageLimit
      else
        match extract_pages (pdf_pages reader) 1 "" [] with
        | inl e => inl (extraction_failure e)
        | inr (text, sections) =>
            inr {| ed_text := text; ed_sections := sections;
                   ed_metadata := JObj [("page_count", nat_json (List.length (pdf_pages reader)))] |}
        end
  end.

(** The version of the extractor, and what it extracts. *)
Definition get_extractor (content_type : string)
    : KnowledgeErr.t + (string * (string → KnowledgeErr.t + ExtractedDocument)) :=
  if str_in content_type ["text/plain"; "text/markdown"] then
    inr ("plain-text-v1", extract_plain_text)
  else if String.eqb content_type "application/pdf" then
    inr ("pypdf-6.15.0-v1", extract_pdf_text)
  else inl KnowledgeErr.Extraction.
End Extraction.

(** ** Embeddings ([ingestion/embeddings.py]) *)

Definition zero : spec_float := S754_zero false.
Definition one : spec_float := binary_normalize 53 1024 1 0 false.
Definition fneg (f : spec_float) : spec_float := SFopp f.

Definition is_finite (f : spec_float) : bool :=
  match f with S754_zero _ | S754_finite _ _ _ => true | _ => false end.

(** [isinstance(value, (int, float))], of which [bool] is none; [float] of an integer
    may overflow, which is not one of the errors the code expects. *)
Definition validate_value (v : json) : exn + spec_float :=
  match v with
  | JInt z => match float_of_Z z with Some f => inr f | None => inl (OtherExc 8) end
  | JFloat f => if is_finite f then inr f else inl (KnowledgeExc KnowledgeErr.InvalidEmbedding)
  | _ => inl (KnowledgeExc KnowledgeErr.InvalidEmbedding)
  end.

Fixpoint sequence {A B E} (f : A → E + B) (l : list A) : E + list B :=
  match l with
  | [] => inr []
  | x :: l =>
      match f x with
      | inl e => inl e
      | inr y => match sequence f l with inl e => inl e | inr ys => inr (y :: ys) end
      end
  end.

Definition validate_vector (dimension : nat) (vector : list json) : exn + list spec_float :=
  if negb (List.length vector =? dimension) then inl (KnowledgeExc KnowledgeErr.InvalidEmbedding)
  else sequence validate_value vector.

Definition validate_embeddings (vectors : list (list json)) (expected_count dimension : nat)
    : exn + list (list spec_float) :=
  if negb (List.length vectors =? expected_count) then
    inl (KnowledgeExc KnowledgeErr.InvalidEmbedding)
  else sequence (validate_vector dimension) vectors.

Section Embedding.
Context `{Settings} `{TokenDigest}.

(** A character of [[\w']]. *)
Definition token_char (c : ascii) : bool :=
  let n := nat_of_ascii c in
  ((48 <=? n) && (n <=? 57)) || ((65 <=? n) && (n <=? 90)) || ((97 <=? n) && (n <=? 122))
  || (n =? 95) || (n =? 39).

(** [TOKEN_RE.findall(s)]; [cur] is the token being read. *)
Fixpoint tokens (cur s : string) : list string :=
  match s with
  | EmptyString => if String.eqb cur "" then [] else [cur]
  | String c r =>
      if token_char c then tokens (cur +:+ String c "") r
      else if String.eqb cur "" then tokens "" r else cur :: tokens "" r
  end.

Definition byte_at (digest : list N) (i : nat) : N := default 0%N (digest !! i).

(** [int.from_bytes(digest[i : i + 4], "big")]. *)
Definition big_endian (digest : list N) (i : nat) : N :=
  (((byte_at digest i * 256 + byte_at digest (i + 1)) * 256 + byte_at digest (i + 2)) * 256
   + byte_at digest (i + 3))%N.

Definition fadd (a b : spec_float) : spec_float := SFadd 53 1024 a b.
Definition fmul (a b : spec_float) : spec_float := SFmul 53 1024 a b.

(** One projection of a token. *)
Definition project (dimension : nat) (digest : list N) (vector : list spec_float) (position : nat)
    : list spec_float :=
  let index := N.to_nat (big_endian digest position mod N.of_nat dimension) in
  let sign := if N.testbit (byte_at digest (position + 8)) 0 then one else fneg one in
  alter (λ v, fadd v sign) index vector.

Definition add_token (dimension : nat) (vector : list spec_float) (token : string)
    : list spec_float :=
  foldl (project dimension (sha256_digest token)) vector [0; 4].

Definition hash_embed (dimension : nat) (text : string) : list spec_float :=
  let vector := foldl (add_token dimension) (replicate dimension zero) (tokens "" (str_lower text)) in
  let norm := SFsqrt 53 1024 (foldl fadd zero (map (λ v, fmul v v) vector)) in
  match norm with S754_zero _ => vector | _ => map (λ v, SFdiv 53 1024 v norm) vector end.

Definition get_embedding_provider : EmbeddingProvider := {|
  provider_name := "supportpilot-deterministic"; model_name := "hashed-token-projection-v1";
  provider_dimension := KNOWLEDGE_EMBEDDING_DIMENSION;
  embed_documents texts :=
    mret (map (λ t, map JFloat (hash_embed KNOWLEDGE_EMBEDDING_DIMENSION t)) texts);
  embed_query text := mret (map JFloat (hash_embed KNOWLEDGE_EMBEDDING_DIMENSION text)) |}.
End Embedding.

(** ** Sources and documents ([services.py]) *)

Section Knowledge.
Context `{Settings} `{UnicodeLib} `{Documents} `{TextEncoding} `{TokenDigest} `{VectorDatabase}.

(** [source.save()]. *)
Definition save_source (i : N) (s : KnowledgeSource) : service () :=
  let s := {| s with ks_name := squeeze (ks_name s) |} in
  raise_if (negb (fits 200 (ks_name s))) DataError;;
  raise_if (String.eqb (ks_name s) "") IntegrityError;;
  save_row i s.

(** The keys of [data] that are present. *)
Record SourceData := {
  sd_name : option string;
  sd_description : option string;
  sd_source_type : option KnowledgeSourceType.t;
  sd_metadata : option json;
  sd_is_active : option bool;
}.

Definition create_source (workspace actor : N) (name : string) (data : SourceData) : service N :=
  atomic (
    i ← fresh;
    save_source i {|
      ks_workspace := workspace; ks_name := name;
      ks_description := default "" (sd_description data);
      ks_source_type := default KnowledgeSourceType.UPLOAD (sd_source_type data);
      ks_is_active := true; ks_metadata := default (JObj []) (sd_metadata data) |};;
    record_event "knowledge.source_created" "knowledge_source" i (Some actor) (Some workspace)
      [("source_id", id_json i)];;
    mret i).

Definition apply_source_data (data : SourceData) (s : KnowledgeSource) : KnowledgeSource :=
  {| s with
     ks_name := default (ks_name s) (sd_name data);
     ks_description := default (ks_description s) (sd_description data);
     ks_source_type := default (ks_source_type s) (sd_source_type data);
     ks_metadata := default (ks_metadata s) (sd_metadata data);
     ks_is_active := default (ks_is_active s) (sd_is_active data) |}.

Definition update_source (workspace source_id : N) (source : KnowledgeSource) (actor : N)
    (data : SourceData) : service () :=
  raise_if (negb (bool_decide (ks_workspace source = workspace))) ValueError;;
  let changed := apply_source_data data source in
  atomic (
    save_source source_id changed;;
    record_event
      (if ks_is_active source && negb (ks_is_active changed) then "knowledge.source_deactivated"
       else "knowledge.source_updated")
      "knowledge_source" source_id (Some actor) (Some workspace)
      [("source_id", id_json source_id)]).

Definition dispatch_ingestion (job_id : N) : service () :=
  publish (ingest_knowledge_document job_id).

Definition document_fits (d : KnowledgeDocument) : bool :=
  fits 255 (kd_title d) && fits 255 (kd_original_filename d) && fits 100 (kd_content_type d)
  && fits 64 (kd_content_sha256 d) && fits 64 (kd_last_error_code d)
  && fits 255 (kd_last_error_message_safe d).

Definition save_document (i : N) (d : KnowledgeDocument) : service () :=
  raise_if (negb (document_fits d)) DataError;;
  save_row i d.

(** [idempotency_key] is unique. *)
Definition job_clash (a b : KnowledgeIngestionJob) : bool :=
  String.eqb (kj_idempotency_key a) (kj_idempotency_key b).

Definition job_fits (j : KnowledgeIngestionJob) : bool :=
  fits 128 (kj_idempotency_key j) && fits 64 (kj_error_code j)
  && fits 255 (kj_safe_error_message j) && fits 64 (kj_extractor_version j)
  && fits 64 (kj_chunker_version j) && fits 64 (kj_embedding_provider j)
  && fits 64 (kj_embedding_model j).

Definition save_job (i : N) (j : KnowledgeIngestionJob) : service () :=
  raise_if (negb (job_fits j)) DataError;;
  save_unique job_clash i j.

Definition new_document (workspace source_id actor : N) (title : string)
    (validated : ValidatedUpload) (upload : UploadedFile) (metadata : option json)
    : KnowledgeDocument := {|
  kd_workspace := workspace; kd_source := source_id; kd_uploaded_by := Some actor;
  kd_title := str_or (str_strip title) (vu_original_filename validated);
  kd_original_filename := vu_original_filename validated; kd_stored_file := uf_content upload;
  kd_content_type := vu_content_type validated; kd_file_size := vu_size validated;
  kd_content_sha256 := sha256_hexdigest (uf_content upload);
  kd_status := KnowledgeDocumentStatus.QUEUED; kd_is_active := true;
  kd_extracted_char_count := 0; kd_chunk_count := 0; kd_last_ingested_at := None;
  kd_last_error_code := ""; kd_last_error_message_safe := "";
  kd_metadata := default (JObj []) metadata |}.

Definition new_job (workspace document_id : N) (content_hash : string) (now : Z)
    : KnowledgeIngestionJob := {|
  kj_workspace := workspace; kj_document := document_id;
  kj_status := KnowledgeIngestionStatus.QUEUED; kj_attempt_count := 0;
  kj_idempotency_key := pretty document_id +:+ ":" +:+ content_hash; kj_started_at := None;
  kj_finished_at := None; kj_error_code := ""; kj_safe_error_message := "";
  kj_extractor_version := ""; kj_chunker_version := ""; kj_embedding_provider := "";
  kj_embedding_model := ""; kj_embedding_dimension := None; kj_created_at := now |}.

Definition upload_document (workspace source_id : N) (source : KnowledgeSource) (actor : N)
    (title : string) (upload : UploadedFile) (metadata : option json) : service (N * N) :=
  raise_if (negb (bool_decide (ks_workspace source = workspace)) || negb (ks_is_active source))
    ConflictError;;
  validated ← of_sum (validate_upload upload);
  atomic (
    now ← get_now;
    document_id ← fresh;
    save_document document_id (new_document workspace source_id actor title validated upload metadata);;
    job_id ← fresh;
    save_job job_id
      (new_job workspace document_id (sha256_hexdigest (uf_content upload)) now);;
    record_event "knowledge.document_uploaded" "knowledge_document" document_id (Some actor)
      (Some workspace) [("document_id", id_json document_id); ("source_id", id_json source_id)];;
    dispatch_ingestion job_id;;
    mret (document_id, job_id)).

Definition job_of (document_id : N) (_ : N) (j : KnowledgeIngestionJob) : bool :=
  bool_decide (kj_document j = document_id).

Definition newest_job (x y : N * KnowledgeIngestionJob) : Prop :=
  (kj_created_at y.2 < kj_created_at x.2)%Z ∨ kj_created_at x.2 = kj_created_at y.2 ∧ (y.1 <= x.1)%N.
#[local] Instance newest_job_dec x y : Decision (newest_job x y).
Proof. unfold newest_job. apply _. Defined.

Definition requeued_job (j : KnowledgeIngestionJob) : KnowledgeIngestionJob :=
  {| j with kj_status := KnowledgeIngestionStatus.QUEUED; kj_attempt_count := 0;
            kj_started_at := None; kj_finished_at := None; kj_error_code := "";
            kj_safe_error_message := "" |}.
Definition requeued_document (d : KnowledgeDocument) : KnowledgeDocument :=
  {| d with kd_status := KnowledgeDocumentStatus.QUEUED; kd_last_error_code := "";
            kd_last_error_message_safe := "" |}.

Definition retry_document (workspace document_id : N) (document : KnowledgeDocument) (actor : N)
    : service N :=
  raise_if (negb (bool_decide (kd_workspace document = workspace))) ValueError;;
  atomic (
    locked ← get_row document_id;
    raise_if (negb (bool_decide (kd_status locked = KnowledgeDocumentStatus.FAILED))) ConflictError;;
    jobs ← gets (λ w, merge_sort newest_job (select_rows (job_of document_id) w));
    job ← or_raise (head jobs) ConflictError;
    save_job job.1 (requeued_job job.2);;
    save_document document_id (requeued_document locked);;
    record_event "knowledge.document_retry_requested" "knowledge_document" document_id (Some actor)
      (Some workspace) [("document_id", id_json document_id); ("job_id", id_json job.1)];;
    dispatch_ingestion job.1;;
    mret job.1).

(** ** Ingestion *)

Record IngestionOutcome := {
  io_job_id : N;
  io_status : KnowledgeIngestionStatus.t;
  io_chunk_count : N;
  io_already_complete : bool;
}.

(** [select_for_update().select_related("document")]. *)
Definition lock_job (job_id : N) : service (KnowledgeIngestionJob * KnowledgeDocument) :=
  job ← get_row job_id;
  document ← get_row (kj_document job);
  mret (job, document).

Definition succeeded (j : KnowledgeIngestionJob) : bool :=
  bool_decide (kj_status j = KnowledgeIngestionStatus.SUCCEEDED).

Definition failed_job (error : KnowledgeErr.t) (now : Z) (j : KnowledgeIngestionJob)
    : KnowledgeIngestionJob :=
  {| j with kj_status := KnowledgeIngestionStatus.FAILED; kj_finished_at := Some now;
            kj_error_code := KnowledgeErr.code error;
            kj_safe_error_message := KnowledgeErr.safe_message error |}.
Definition failed_document (error : KnowledgeErr.t) (d : KnowledgeDocument) : KnowledgeDocument :=
  {| d with kd_status := KnowledgeDocumentStatus.FAILED;
            kd_last_error_code := KnowledgeErr.code error;
            kd_last_error_message_safe := KnowledgeErr.safe_message error |}.

Definition mark_failed (job_id : N) (error : KnowledgeErr.t) : service () :=
  atomic (
    locked ← lock_job job_id;
    let (job, document) := locked : _ * _ in
    if succeeded job then mret ()
    else
      now ← get_now;
      save_job job_id (failed_job error now job);;
      save_document (kj_document job) (failed_document error document)).

Definition fail_ingestion (job_id : N) (error : KnowledgeErr.t) : service () :=
  mark_failed job_id error.

Definition retrying_job (error : KnowledgeErr.t) (j : KnowledgeIngestionJob)
    : KnowledgeIngestionJob :=
  {| j with kj_status := KnowledgeIngestionStatus.QUEUED;
            kj_error_code := KnowledgeErr.code error;
            kj_safe_error_message := KnowledgeErr.safe_message error |}.
Definition queued_document (d : KnowledgeDocument) : KnowledgeDocument :=
  {| d with kd_status := KnowledgeDocumentStatus.QUEUED |}.

Definition mark_retryable_failure (job_id : N) (error : KnowledgeErr.t) : service () :=
  atomic (
    locked ← lock_job job_id;
    let (job, document) := locked : _ * _ in
    if succeeded job then mret ()
    else
      save_job job_id (retrying_job error job);;
      save_document (kj_document job) (queued_document document)).

Definition claimed_job (now : Z) (j : KnowledgeIngestionJob) : KnowledgeIngestionJob :=
  {| j with kj_status := KnowledgeIngestionStatus.PROCESSING;
            kj_attempt_count := (kj_attempt_count j + 1)%N; kj_started_at := Some now;
            kj_finished_at := None |}.
Definition processing_document (d : KnowledgeDocument) : KnowledgeDocument :=
  {| d with kd_status := KnowledgeDocumentStatus.PROCESSING |}.

(** The first transaction: the outcome when there is nothing to do, the document when
    there is. *)
Definition claim_job (job_id : N) : service (IngestionOutcome + KnowledgeDocument) :=
  atomic (
    locked ← lock_job job_id;
    let (job, document) := locked : _ * _ in
    if succeeded job then
      mret (inl {| io_job_id := job_id; io_status := kj_status job;
                   io_chunk_count := kd_chunk_count document; io_already_complete := true |})
    else
      now ← get_now;
      save_job job_id (claimed_job now job);;
      save_document (kj_document job) (processing_document document);;
      mret (inr (processing_document document))).

(** What the extraction and the embedding hand to the last transaction. *)
Record Ingested := {
  in_normalized : string;
  in_drafts : list ChunkDraft;
  in_vectors : list (list spec_float);
  in_extractor_version : string;
}.

Definition of_knowledge {A} (r : KnowledgeErr.t + A) : service A :=
  match r with inl e => raise (KnowledgeExc e) | inr a => mret a end.

(** The loop of the chunker always ends; see [Chunking.chunk_text_passages]. *)
Definition run_chunker (normalized : string) (sections : list ExtractedSection)
    : service (list ChunkDraft) :=
  match chunk_text normalized KNOWLEDGE_CHUNK_SIZE KNOWLEDGE_CHUNK_OVERLAP
          KNOWLEDGE_MIN_CHUNK_CHARS sections with
  | Some r => of_knowledge r
  | None => raise (OtherExc 9)
  end.

(** The body of the [try]. *)
Definition extract_and_embed (provider : EmbeddingProvider) (document : KnowledgeDocument)
    : service Ingested :=
  content ← open_stored_file (kd_stored_file document);
  extractor ← of_knowledge (get_extractor (kd_content_type document));
  extracted ← of_knowledge (snd extractor content);
  let normalized_document := normalize_extracted_document extracted in
  let normalized := ed_text normalized_document in
  raise_if (String.length (str_strip normalized) <? KNOWLEDGE_MIN_CHUNK_CHARS)
    (KnowledgeExc KnowledgeErr.NoExtractableText);;
  drafts ← run_chunker normalized (ed_sections normalized_document);
  vectors ← embed_documents provider (map cd_text drafts);
  validated ← of_sum (validate_embeddings vectors (List.length drafts) KNOWLEDGE_EMBEDDING_DIMENSION);
  mret {| in_normalized := normalized; in_drafts := drafts; in_vectors := validated;
          in_extractor_version := fst extractor |}.

Definition ProtectedError : exn := OtherExc 10.

(** The chunks of a document. *)
Definition chunk_of (document_id : N) (_ : N) (c : KnowledgeChunk) : bool :=
  bool_decide (kc_document c = document_id).

(** A hit on one of these chunks, which protects them. *)
Definition protecting (document_id : N) (w : World) (_ : N) (h : RetrievalHit) : bool :=
  match w_knowledge_chunks w !! rh_chunk h with
  | Some c => chunk_of document_id (rh_chunk h) c
  | None => false
  end.

(** [KnowledgeChunk.objects.filter(document=document).delete()]. *)
Definition delete_chunks (document_id : N) : service () :=
  taken ← gets (λ w, exists_row (protecting document_id w) w);
  raise_if taken ProtectedError;;
  modify (λ w, set_rows (filter (λ kv, chunk_of document_id kv.1 kv.2 = false)
                           (w_knowledge_chunks w)) w).

Definition new_chunk (workspace document_id : N) (draft : ChunkDraft) (vector : list spec_float)
    : KnowledgeChunk := {|
  kc_workspace := workspace; kc_document := document_id;
  kc_ordinal := N.of_nat (cd_ordinal draft); kc_text := cd_text draft;
  kc_start_offset := N.of_nat (cd_start_offset draft);
  kc_end_offset := N.of_nat (cd_end_offset draft); kc_page_start := cd_page_start draft;
  kc_page_end := cd_page_end draft; kc_metadata := cd_metadata draft; kc_embedding := vector |}.

(** [know_chunk_doc_ordinal_uniq]. *)
Definition chunk_clash (a b : KnowledgeChunk) : bool :=
  bool_decide (kc_document a = kc_document b) && bool_decide (kc_ordinal a = kc_ordinal b).

(** [bulk_create] of the drafts with their vectors. *)
Fixpoint create_chunks (workspace document_id : N)
    (chunks : list (ChunkDraft * list spec_float)) : service () :=
  match chunks with
  | [] => mret ()
  | (draft, vector) :: chunks =>
      i ← fresh;
      save_unique chunk_clash i (new_chunk workspace document_id draft vector);;
      create_chunks workspace document_id chunks
  end.

Definition ready_document (r : Ingested) (now : Z) (d : KnowledgeDocument) : KnowledgeDocument :=
  {| d with kd_status := KnowledgeDocumentStatus.READY;
            kd_extracted_char_count := N.of_nat (String.length (in_normalized r));
            kd_chunk_count := N.of_nat (List.length (in_drafts r));
            kd_last_ingested_at := Some now; kd_last_error_code := "";
            kd_last_error_message_safe := "" |}.

Definition succeeded_job (provider : EmbeddingProvider) (r : Ingested) (now : Z)
    (j : KnowledgeIngestionJob) : KnowledgeIngestionJob :=
  {| j with kj_status := KnowledgeIngestionStatus.SUCCEEDED; kj_finished_at := Some now;
            kj_error_code := ""; kj_safe_error_message := "";
            kj_extractor_version := in_extractor_version r; kj_chunker_version := CHUNKER_VERSION;
            kj_embedding_provider := provider_name provider;
            kj_embedding_model := model_name provider;
            kj_embedding_dimension := Some (N.of_nat (provider_dimension provider)) |}.

(** The last transaction. *)
Definition complete_ingestion (provider : EmbeddingProvider) (job_id : N) (r : Ingested)
    : service IngestionOutcome :=
  atomic (
    locked ← lock_job job_id;
    let (job, document) := locked : _ * _ in
    let document_id := kj_document job in
    if negb (bool_decide (kj_status job = KnowledgeIngestionStatus.PROCESSING)) then
      mret {| io_job_id := job_id; io_status := kj_status job;
              io_chunk_count := kd_chunk_count document; io_already_complete := true |}
    else
      delete_chunks document_id;;
      create_chunks (kd_workspace document) document_id (zip (in_drafts r) (in_vectors r));;
      now ← get_now;
      save_document document_id (ready_document r now document);;
      save_job job_id (succeeded_job provider r now job);;
      mret {| io_job_id := job_id; io_status := KnowledgeIngestionStatus.SUCCEEDED;
              io_chunk_count := N.of_nat (List.length (in_drafts r));
              io_already_complete := false |}).

Definition run_ingestion (job_id : N) (provider : option EmbeddingProvider)
    : service IngestionOutcome :=
  claimed ← claim_job job_id;
  match claimed with
  | inl outcome => mret outcome
  | inr document =>
      let embedding_provider := default get_embedding_provider provider in
      r ← attempt (extract_and_embed embedding_provider document);
      match r with
      | inl (KnowledgeExc e) =>
          if KnowledgeErr.permanent e then
            mark_failed job_id e;;
            mret {| io_job_id := job_id; io_status := KnowledgeIngestionStatus.FAILED;
                    io_chunk_count := 0; io_already_complete := false |}
          else
            mark_retryable_failure job_id KnowledgeErr.RetryableIngestion;;
            raise (KnowledgeExc KnowledgeErr.RetryableIngestion)
      | inl _ =>
          mark_retryable_failure job_id KnowledgeErr.RetryableIngestion;;
          raise (KnowledgeExc KnowledgeErr.RetryableIngestion)
      | inr ingested => complete_ingestion embedding_provider job_id ingested
      end
  end.

Definition ingestion_attempt_count (job_id : N) : service N :=
  job ← get_row job_id;
  mret (kj_attempt_count job).

(** [tasks.ingest_knowledge_document]: [None] when the task asks to be run again. *)
Definition ingest_knowledge_document_task (job_id : N)
    : service (option KnowledgeIngestionStatus.t) :=
  r ← attempt (run_ingestion job_id None);
  match r with
  | inr outcome => mret (Some (io_status outcome))
  | inl (KnowledgeExc KnowledgeErr.RetryableIngestion) =>
      attempts ← ingestion_attempt_count job_id;
      if (KNOWLEDGE_INGESTION_MAX_ATTEMPTS <=? attempts)%N then
        fail_ingestion job_id KnowledgeErr.RetryableIngestion;;
        mret (Some KnowledgeIngestionStatus.FAILED)
      else
        publish (ingest_knowledge_document job_id);;
        mret None
  | inl e => raise e
  end.

(** ** Recovery ([recovery.py]) *)

Definition stuck_job (cutoff : Z) (_ : N) (j : KnowledgeIngestionJob) : bool :=
  match kj_status j with
  | KnowledgeIngestionStatus.QUEUED => (kj_created_at j <=? cutoff)%Z
  | KnowledgeIngestionStatus.PROCESSING =>
      match kj_started_at j with Some t => (t <=? cutoff)%Z | None => false end
  | _ => false
  end.

Definition oldest_job (x y : N * KnowledgeIngestionJob) : Prop := newest_job y x.
#[local] Instance oldest_job_dec x y : Decision (oldest_job x y).
Proof. unfold oldest_job. apply _. Defined.

Definition recover_stuck_ingestion_jobs (batch_size : option nat) (now : option Z) : service nat :=
  now ← or_now now;
  let cutoff := (now - seconds KNOWLEDGE_STUCK_JOB_STALE_SECONDS)%Z in
  let batch_size := default KNOWLEDGE_STUCK_JOB_SWEEP_BATCH_SIZE batch_size in
  jobs ← gets (λ w, merge_sort oldest_job (select_rows (stuck_job cutoff) w));
  let job_ids := take batch_size (map fst jobs) in
  for_each job_ids dispatch_ingestion;;
  mret (List.length job_ids).

(** ** Retrieval ([retrieval/services.py]) *)

Record Citation := {
  ct_page_start : option N;
  ct_page_end : option N;
  ct_start_offset : N;
  ct_end_offset : N;
  ct_chunk_ordinal : N;
}.

Definition page_json (p : option N) : json := match p with Some p => id_json p | None => JNull end.

Definition citation_dict (c : Citation) : json :=
  JObj [("page_start", page_json (ct_page_start c)); ("page_end", page_json (ct_page_end c));
        ("start_offset", id_json (ct_start_offset c)); ("end_offset", id_json (ct_end_offset c));
        ("chunk_ordinal", id_json (ct_chunk_ordinal c))].

Record RetrievedContext := {
  rc_chunk_id : N;
  rc_document_id : N;
  rc_document_title : string;
  rc_source_id : N;
  rc_source_name : string;
  rc_rank : nat;
  rc_score : spec_float;
  rc_text : string;
  rc_citation : Citation;
}.

Record SearchResult := {
  sr_event_id : N;
  sr_query : string;
  sr_results : list RetrievedContext;
  sr_sufficient_context : bool;
}.

(** [min] and [max] of Python: the second argument only when it compares. *)
Definition py_min (a b : spec_float) : spec_float := if SFltb b a then b else a.
Definition py_max (a b : spec_float) : spec_float := if SFltb a b then b else a.

Definition score_of (distance : spec_float) : spec_float :=
  py_max (fneg one) (py_min one (SFsub 53 1024 one distance)).

Definition Http404 : exn := OtherExc 6.

(** The sources and documents a caller names must be of the workspace. *)
Definition resolve_sources (workspace : N) (source_ids : list N) : service () :=
  for_each source_ids (λ i,
    s ← find_row i;
    raise_if (match s with
              | Some s => negb (bool_decide (ks_workspace s = workspace)) | None => true end) Http404).
Definition resolve_documents (workspace : N) (document_ids : list N) : service () :=
  for_each document_ids (λ i,
    d ← find_row i;
    raise_if (match d with
              | Some d => negb (bool_decide (kd_workspace d = workspace)) | None => true end) Http404).

(** The rows of a chunk's document and source. *)
Definition provenance (w : World) (c : KnowledgeChunk)
    : option (KnowledgeDocument * KnowledgeSource) :=
  d ← w_knowledge_documents w !! kc_document c;
  s ← w_knowledge_sources w !! kd_source d;
  Some (d, s).

Definition in_filter (i : N) (ids : list N) : bool :=
  match ids with [] => true | _ => bool_decide (i ∈ ids) end.

(** The predicates of the SQL query. *)
Definition searchable (workspace : N) (source_ids document_ids : list N) (w : World) (_ : N)
    (c : KnowledgeChunk) : bool :=
  bool_decide (kc_workspace c = workspace)
  && match provenance w c with
     | Some (d, s) =>
         bool_decide (kd_workspace d = workspace)
         && bool_decide (kd_status d = KnowledgeDocumentStatus.READY)
         && kd_is_active d && ks_is_active s
         && in_filter (kd_source d) source_ids && in_filter (kc_document c) document_ids
     | None => false
     end.

(** [ORDER BY distance, document_id, ordinal, id]; PostgreSQL sorts a NaN last. *)
Definition sql_float_lt (a b : spec_float) : bool :=
  match a, b with
  | S754_nan, _ => false
  | _, S754_nan => true
  | _, _ => SFltb a b
  end.
Definition nearer (query : list spec_float) (x y : N * KnowledgeChunk) : Prop :=
  let dx := cosine_distance (kc_embedding x.2) query in
  let dy := cosine_distance (kc_embedding y.2) query in
  sql_float_lt dx dy = true ∨
  sql_float_lt dy dx = false ∧
  ((kc_document x.2 < kc_document y.2)%N ∨
   kc_document x.2 = kc_document y.2 ∧
   ((kc_ordinal x.2 < kc_ordinal y.2)%N ∨ kc_ordinal x.2 = kc_ordinal y.2 ∧ (x.1 <= y.1)%N)).
#[export] Instance nearer_dec query x y : Decision (nearer query x y).
Proof. unfold nearer. apply _. Defined.

(** The rows of the query that its plan reaches. *)
Definition reached_chunks (workspace : N) (source_ids document_ids : list N)
    (query : list spec_float) (top_k : nat) (w : World) : list (N * KnowledgeChunk) :=
  let wanted := searchable workspace source_ids document_ids w in
  filter (λ x, index_reaches (w_knowledge_chunks w) wanted query top_k x.1 = true)
    (select_rows wanted w).

Definition ranked_chunks (workspace : N) (source_ids document_ids : list N)
    (query : list spec_float) (top_k : nat) (w : World) : list (N * KnowledgeChunk) :=
  take top_k (merge_sort (nearer query) (reached_chunks workspace source_ids document_ids query top_k w)).

Definition context_of (w : World) (query : list spec_float) (rank : nat) (x : N * KnowledgeChunk)
    : option RetrievedContext :=
  p ← provenance w x.2;
  Some {| rc_chunk_id := x.1; rc_document_id := kc_document x.2; rc_document_title := kd_title p.1;
          rc_source_id := kd_source p.1; rc_source_name := ks_name p.2; rc_rank := rank;
          rc_score := score_of (cosine_distance (kc_embedding x.2) query); rc_text := kc_text x.2;
          rc_citation := {| ct_page_start := kc_page_start x.2; ct_page_end := kc_page_end x.2;
                            ct_start_offset := kc_start_offset x.2;
                            ct_end_offset := kc_end_offset x.2;
                            ct_chunk_ordinal := kc_ordinal x.2 |} |}.

Definition below_minimum (minimum_score : option spec_float) (score : spec_float) : bool :=
  match minimum_score with Some m => SFltb score m | None => false end.

(** The loop over the ranked chunks. *)
Definition add_context (w : World) (query : list spec_float) (minimum_score : option spec_float)
    (contexts : list RetrievedContext) (x : N * KnowledgeChunk) : list RetrievedContext :=
  match context_of w query (S (List.length contexts)) x with
  | Some c => if below_minimum minimum_score (rc_score c) then contexts else contexts ++ [c]
  | None => contexts
  end.

Definition new_hit (event_id workspace : N) (c : RetrievedContext) : RetrievalHit := {|
  rh_event := event_id; rh_workspace := workspace; rh_chunk := rc_chunk_id c;
  rh_rank := N.of_nat (rc_rank c); rh_score := rc_score c;
  rh_citation := citation_dict (rc_citation c) |}.

Definition event_fits (e : RetrievalEvent) : bool :=
  fits 64 (rev_embedding_provider e) && fits 64 (rev_embedding_model e).

(** [RetrievalEvent.objects.create(...)]. *)
Definition create_event (e : RetrievalEvent) : service N :=
  raise_if (negb (event_fits e)) DataError;;
  create_row e.

(** Whether a parameter is refused; a NaN is not in the range of the scores. *)
Definition refused_query (normalized_query : string) (top_k : nat)
    (minimum_score : option spec_float) : bool :=
  String.eqb normalized_query ""
  || (N.to_nat KNOWLEDGE_MAX_QUERY_LENGTH <? String.length normalized_query)
  || negb ((1 <=? top_k) && (top_k <=? KNOWLEDGE_MAX_TOP_K))
  || match minimum_score with
     | Some m => negb (SFleb zero m && SFleb m one)
     | None => false
     end.

Definition search_knowledge (workspace : N) (query : string) (actor : option N)
    (top_k : option nat) (source_ids document_ids : list N) (minimum_score : option spec_float)
    (provider : option EmbeddingProvider) : service SearchResult :=
  let normalized_query := str_strip query in
  let requested_top_k := default KNOWLEDGE_DEFAULT_TOP_K top_k in
  raise_if (refused_query normalized_query requested_top_k minimum_score)
    (KnowledgeExc KnowledgeErr.InvalidRetrievalQuery);;
  resolve_sources workspace source_ids;;
  resolve_documents workspace document_ids;;
  let embedding_provider := default get_embedding_provider provider in
  vector ← embed_query embedding_provider normalized_query;
  validated ← of_sum (validate_embeddings [vector] 1 KNOWLEDGE_EMBEDDING_DIMENSION);
  let query_vector := default [] (head validated) in
  contexts ← gets (λ w, foldl (add_context w query_vector minimum_score) []
    (ranked_chunks workspace source_ids document_ids query_vector requested_top_k w));
  event_id ← atomic (
    event_id ← create_event {|
      rev_workspace := workspace; rev_actor := actor; rev_query := normalized_query;
      rev_embedding_provider := provider_name embedding_provider;
      rev_embedding_model := model_name embedding_provider;
      rev_top_k := N.of_nat requested_top_k; rev_minimum_score := minimum_score;
      rev_result_count := N.of_nat (List.length contexts) |};
    for_each contexts (λ c, _ ← create_row (new_hit event_id workspace c); mret ());;
    mret event_id);
  mret {| sr_event_id := event_id; sr_query := normalized_query; sr_results := contexts;
          sr_sufficient_context := match contexts with [] => false | _ => true end |}.
End Knowledge.
