(* ===== verification/KnowledgeSafety.v ===== *)
(** * What ingestion and retrieval guarantee

    The theorems on [Knowledge].  Between the transactions of an ingestion other
    workers may do anything the services do; a storage or an embedding provider is
    allowed the same. *)

From stdpp Require Import base gmap strings list pretty sorting relations.
From Stdlib Require Import ZArith SpecFloat Ascii String Lia.
From S2P Require Import Prelude Json Domain Policy Models Store Workspaces Chunking Delivery Network Graph Conversations Knowledge.

#[local] Open Scope nat_scope.

(** ** The state of the knowledge base *)

(** The status a document has while its job has another. *)
Definition document_status (s : KnowledgeIngestionStatus.t) : KnowledgeDocumentStatus.t :=
  match s with
  | KnowledgeIngestionStatus.QUEUED => KnowledgeDocumentStatus.QUEUED
  | KnowledgeIngestionStatus.PROCESSING => KnowledgeDocumentStatus.PROCESSING
  | KnowledgeIngestionStatus.SUCCEEDED => KnowledgeDocumentStatus.READY
  | KnowledgeIngestionStatus.FAILED => KnowledgeDocumentStatus.FAILED
  end.

Section State.
Context `{Settings}.

(** A job and its document agree. *)
Definition job_ok (w : World) (j : KnowledgeIngestionJob) : Prop :=
  job_fits j = true ∧
  ∃ d, w_knowledge_documents w !! kj_document j = Some d ∧ kd_workspace d = kj_workspace j ∧
    kd_status d = document_status (kj_status j).

(** A chunk belongs to a document that is ready, which counts it. *)
Definition chunk_row_ok (w : World) (c : KnowledgeChunk) : Prop :=
  ∃ d, w_knowledge_documents w !! kc_document c = Some d ∧
    kd_status d = KnowledgeDocumentStatus.READY ∧ kd_workspace d = kc_workspace c ∧
    (kc_ordinal c < kd_chunk_count d)%N ∧
    List.length (kc_embedding c) = KNOWLEDGE_EMBEDDING_DIMENSION.

(** A ready document has all its chunks. *)
Definition document_complete (w : World) (i : N) (d : KnowledgeDocument) : Prop :=
  kd_status d = KnowledgeDocumentStatus.READY → ∀ n, (n < kd_chunk_count d)%N →
    ∃ c row, w_knowledge_chunks w !! c = Some row ∧ kc_document row = i ∧ kc_ordinal row = n.

(** A hit quotes a chunk of its own workspace, for a search made in it. *)
Definition hit_ok (w : World) (h : RetrievalHit) : Prop :=
  (∃ c, w_knowledge_chunks w !! rh_chunk h = Some c ∧ kc_workspace c = rh_workspace h) ∧
  ∃ e, w_retrieval_events w !! rh_event h = Some e ∧ rev_workspace e = rh_workspace h.

Record knowledge_wf (w : World) : Prop := {
  kw_jobs i j : w_knowledge_jobs w !! i = Some j → (i < w_next w)%N ∧ job_ok w j;
  kw_keys : unique job_clash (w_knowledge_jobs w);
  kw_one_job i k j j' : w_knowledge_jobs w !! i = Some j → w_knowledge_jobs w !! k = Some j' →
    kj_document j = kj_document j' → i = k;
  kw_documents i d : w_knowledge_documents w !! i = Some d →
    (i < w_next w)%N ∧ document_fits d = true ∧ document_complete w i d ∧
    ∃ k j, w_knowledge_jobs w !! k = Some j ∧ kj_document j = i;
  kw_chunks c row : w_knowledge_chunks w !! c = Some row → (c < w_next w)%N ∧ chunk_row_ok w row;
  kw_ordinals : unique chunk_clash (w_knowledge_chunks w);
  kw_hits h row : w_retrieval_hits w !! h = Some row →
    (h < w_next w)%N ∧ (rh_event row < w_next w)%N ∧ hit_ok w row;
  kw_events i e : w_retrieval_events w !! i = Some e → (i < w_next w)%N;
}.

(** What never changes of a job and of a document; all of it once they have succeeded. *)
Record job_evolves (j j' : KnowledgeIngestionJob) : Prop := {
  je_identity : kj_workspace j' = kj_workspace j ∧ kj_document j' = kj_document j ∧
    kj_idempotency_key j' = kj_idempotency_key j ∧ kj_created_at j' = kj_created_at j;
  je_succeeded : kj_status j = KnowledgeIngestionStatus.SUCCEEDED → j' = j;
}.
Record document_evolves (d d' : KnowledgeDocument) : Prop := {
  de_identity : kd_workspace d' = kd_workspace d ∧ kd_source d' = kd_source d ∧
    kd_stored_file d' = kd_stored_file d ∧ kd_content_sha256 d' = kd_content_sha256 d ∧
    kd_title d' = kd_title d ∧ kd_original_filename d' = kd_original_filename d ∧
    kd_content_type d' = kd_content_type d;
  de_ready : kd_status d = KnowledgeDocumentStatus.READY → d' = d;
}.

(** What the services may do to a knowledge base in order. *)
Record knowledge_kept (w w' : World) : Prop := {
  kk_jobs i j : w_knowledge_jobs w !! i = Some j →
    ∃ j', w_knowledge_jobs w' !! i = Some j' ∧ job_evolves j j';
  kk_documents i d : w_knowledge_documents w !! i = Some d →
    ∃ d', w_knowledge_documents w' !! i = Some d' ∧ document_evolves d d';
  kk_chunks c row : w_knowledge_chunks w !! c = Some row → w_knowledge_chunks w' !! c = Some row;
  kk_hits h row : w_retrieval_hits w !! h = Some row → w_retrieval_hits w' !! h = Some row;
  kk_events i e : w_retrieval_events w !! i = Some e → w_retrieval_events w' !! i = Some e;
  kk_next : (w_next w <= w_next w')%N;
}.
Definition knowledge_rel (w w' : World) : Prop :=
  knowledge_wf w → knowledge_wf w' ∧ knowledge_kept w w'.

#[export] Instance job_evolves_preorder : PreOrder job_evolves.
Proof.
  split; [done|]. intros a b c [(?&?&?&?) Hs] [(?&?&?&?) Hs']. split; [split_and!; congruence|].
  intros Ha. rewrite <-(Hs Ha). apply Hs'. by rewrite (Hs Ha).
Qed.
#[export] Instance document_evolves_preorder : PreOrder document_evolves.
Proof.
  split; [done|]. intros a b c [(?&?&?&?&?&?&?) Hs] [(?&?&?&?&?&?&?) Hs'].
  split; [split_and!; congruence|].
  intros Ha. rewrite <-(Hs Ha). apply Hs'. by rewrite (Hs Ha).
Qed.

#[export] Instance knowledge_kept_preorder : PreOrder knowledge_kept.
Proof.
  split.
  - intros w. split; [| |done..|lia]; intros i x Hx; by exists x.
  - intros a b c [Hj Hd Hc Hh Hev Hn] [Hj' Hd' Hc' Hh' Hev' Hn']. split.
    + intros i j Hi. destruct (Hj i j Hi) as (j1 & Hi1 & He). destruct (Hj' i j1 Hi1) as (j2 & Hi2 & He').
      exists j2. split; [done|by etrans].
    + intros i d Hi. destruct (Hd i d Hi) as (d1 & Hi1 & He). destruct (Hd' i d1 Hi1) as (d2 & Hi2 & He').
      exists d2. split; [done|by etrans].
    + intros i row Hi. by apply Hc', Hc.
    + intros i row Hi. by apply Hh', Hh.
    + intros i row Hi. by apply Hev', Hev.
    + lia.
Qed.
#[export] Instance knowledge_rel_preorder : PreOrder knowledge_rel.
Proof.
  split.
  - intros w Hw. by split.
  - intros a b c Hab Hbc Ha. destruct (Hab Ha) as [Hb Hk]. destruct (Hbc Hb) as [Hc Hk'].
    split; [done|by etrans].
Qed.

(** A step that leaves the tables of the knowledge base alone. *)
Definition knowledge_frame (w w' : World) : Prop :=
  w_knowledge_jobs w' = w_knowledge_jobs w ∧ w_knowledge_documents w' = w_knowledge_documents w ∧
  w_knowledge_chunks w' = w_knowledge_chunks w ∧ w_retrieval_hits w' = w_retrieval_hits w ∧
  w_retrieval_events w' = w_retrieval_events w ∧ (w_next w <= w_next w')%N.

Lemma frame_rel w w' : knowledge_frame w w' → knowledge_rel w w'.
Proof.
  intros (Hj & Hd & Hc & Hh & Hev & Hn) [Wj Wk W1 Wd Wc Wo Wh We]. split.
  - split; rewrite ?Hj, ?Hd, ?Hc, ?Hh, ?Hev; [|exact Wk|exact W1| | |exact Wo| |].
    + intros i j Hi. destruct (Wj i j Hi). split; [lia|]. unfold job_ok. by rewrite Hd.
    + intros i d Hi. destruct (Wd i d Hi) as (? & ? & Hcomp & Hjob). split_and!; [lia|done| |done].
      unfold document_complete. by rewrite Hc.
    + intros c row Hi. destruct (Wc c row Hi). split; [lia|]. unfold chunk_row_ok. by rewrite Hd.
    + intros h row Hi. unfold hit_ok. rewrite Hc, Hev. destruct (Wh h row Hi) as (? & ? & ?).
      split; [lia|split; [lia|done]].
    + intros i e Hi. specialize (We i e Hi). lia.
  - split; rewrite ?Hj, ?Hd, ?Hc, ?Hh, ?Hev; [| |done..]; intros i x Hx; by exists x.
Qed.

Lemma unique_replace {A} (clash : A → A → bool) m i a a' :
  unique clash m → m !! i = Some a → (∀ b, clash a' b = clash a b) →
  (∀ b, clash b a' = clash b a) → unique clash (<[i := a']> m).
Proof.
  intros Hu Hi Hl Hr k k' b b' Hne.
  intros [[<- <-]|[Hk Hb]]%lookup_insert_Some [[<- <-]|[Hk' Hb']]%lookup_insert_Some; [done|..].
  - rewrite Hl. by apply (Hu i k').
  - rewrite Hr. by apply (Hu k i).
  - by apply (Hu k k').
Qed.

(** A job moves, with its document, and when it succeeds the chunks come along. *)
Lemma settle w w' i j d j' d' :
  knowledge_wf w → w_knowledge_jobs w !! i = Some j →
  w_knowledge_documents w !! kj_document j = Some d →
  kj_status j ≠ KnowledgeIngestionStatus.SUCCEEDED →
  job_evolves j j' → document_evolves d d' → kd_status d' = document_status (kj_status j') →
  job_fits j' = true → document_fits d' = true →
  w_knowledge_jobs w' = <[i := j']> (w_knowledge_jobs w) →
  w_knowledge_documents w' = <[kj_document j := d']> (w_knowledge_documents w) →
  w_retrieval_hits w' = w_retrieval_hits w → w_retrieval_events w' = w_retrieval_events w →
  (w_next w <= w_next w')%N →
  w_knowledge_chunks w ⊆ w_knowledge_chunks w' →
  (∀ c row, w_knowledge_chunks w' !! c = Some row → w_knowledge_chunks w !! c = None →
    (c < w_next w')%N ∧ chunk_row_ok w' row) →
  unique chunk_clash (w_knowledge_chunks w') → document_complete w' (kj_document j) d' →
  knowledge_wf w' ∧ knowledge_kept w w'.
Proof.
  intros [Wj Wk W1 Wd Wc Wo Wh We] Hj Hd Hns He Hde Hst Hfj Hfd Ej Ed Eh Ee Hn Hsub Hnew Hu Hcomp.
  destruct (Wj i j Hj) as [Hi (Hfit & d0 & Hd0 & Hws & Hd0st)]. simplify_eq.
  assert (Hnr : kd_status d ≠ KnowledgeDocumentStatus.READY).
  { rewrite Hd0st. by destruct (kj_status j). }
  destruct (je_identity _ _ He) as (Jws & Jdoc & Jkey & Jc).
  destruct (de_identity _ _ Hde) as (Dws & Dsrc & _).
  assert (Hchunk : ∀ c row, w_knowledge_chunks w !! c = Some row → kc_document row ≠ kj_document j).
  { intros c row Hc Heq. destruct (Wc c row Hc) as [_ (d1 & Hd1 & Hr & _)].
    apply Hnr. by rewrite Heq, Hd in Hd1; simplify_eq. }
  assert (Hjobs : ∀ k a, w_knowledge_jobs w' !! k = Some a →
    ∃ b, w_knowledge_jobs w !! k = Some b ∧ kj_document a = kj_document b).
  { intros k a. rewrite Ej. intros [[<- <-]|[_ Hk]]%lookup_insert_Some; eauto. }
  split; [split|split].
  - intros k a. rewrite Ej. intros [[<- <-]|[Hne Hk]]%lookup_insert_Some.
    { split; [lia|]. split; [done|]. exists d'. rewrite Ed, Jdoc.
      split_and!; [by simplify_map_eq|congruence|done]. }
    destruct (Wj k a Hk) as [? (? & d1 & Hd1 & ?)]. split; [lia|]. split; [done|].
    exists d1. rewrite Ed.
    rewrite lookup_insert_ne; [done|]. intros Heq. by destruct Hne, (W1 i k j a).
  - rewrite Ej. apply (unique_replace _ _ _ j); [exact Wk|exact Hj|..].
    all: intros b; unfold job_clash; by rewrite Jkey.
  - intros k k' a a' Hk Hk' Heq. destruct (Hjobs k a Hk) as (b & Hb & Hab).
    destruct (Hjobs k' a' Hk') as (b' & Hb' & Hab'). apply (W1 k k' b b'); congruence.
  - intros k a. rewrite Ed. intros [[<- <-]|[Hne Hk]]%lookup_insert_Some.
    { destruct (Wd _ d Hd) as (? & _). split_and!; [lia|done|done|].
      exists i, j'. rewrite Ej, lookup_insert_eq. by split. }
    destruct (Wd k a Hk) as (? & ? & Hc & m & b & Hm & Hb). split_and!; [lia|done| |].
    { intros Hr n Hlt. destruct (Hc Hr n Hlt) as (c & row & Hrow & ?). exists c, row.
      split; [|done]. by eapply lookup_weaken. }
    exists m, b. rewrite Ej, lookup_insert_ne; [done|]. intros ->. congruence.
  - intros c row Hc. destruct (w_knowledge_chunks w !! c) as [row0|] eqn:Hc0; [|by apply Hnew].
    pose proof (lookup_weaken _ _ _ _ Hc0 Hsub). simplify_eq.
    destruct (Wc c row Hc0) as [? (d1 & Hd1 & ?)]. split; [lia|]. exists d1. rewrite Ed.
    rewrite lookup_insert_ne; [done|]. intros Heq. by apply (Hchunk c row).
  - done.
  - intros h row. rewrite Eh. intros Hr. destruct (Wh h row Hr) as (? & ? & (c & Hc & ?) & ?).
    split_and!; [lia..|]. split; [|by rewrite Ee]. exists c. split; [|done]. by eapply lookup_weaken.
  - intros k e. rewrite Ee. intros Hk. specialize (We k e Hk). lia.
  - intros k a Hk. rewrite Ej. destruct (decide (i = k)) as [<-|Hne].
    { simplify_eq. exists j'. by simplify_map_eq. }
    exists a. by simplify_map_eq.
  - intros k a Hk. rewrite Ed. destruct (decide (kj_document j = k)) as [<-|Hne].
    { simplify_eq. exists d'. by simplify_map_eq. }
    exists a. by simplify_map_eq.
  - intros c row Hc. by eapply lookup_weaken.
  - by rewrite Eh.
  - by rewrite Ee.
  - done.
Qed.

(** The same when the job does not succeed: no chunk is added. *)
Lemma move_job w w' i j d j' d' :
  knowledge_wf w → w_knowledge_jobs w !! i = Some j →
  w_knowledge_documents w !! kj_document j = Some d →
  kj_status j ≠ KnowledgeIngestionStatus.SUCCEEDED →
  kj_status j' ≠ KnowledgeIngestionStatus.SUCCEEDED →
  job_evolves j j' → document_evolves d d' → kd_status d' = document_status (kj_status j') →
  job_fits j' = true → document_fits d' = true →
  w_knowledge_jobs w' = <[i := j']> (w_knowledge_jobs w) →
  w_knowledge_documents w' = <[kj_document j := d']> (w_knowledge_documents w) →
  w_retrieval_hits w' = w_retrieval_hits w → w_retrieval_events w' = w_retrieval_events w →
  (w_next w <= w_next w')%N →
  w_knowledge_chunks w' = w_knowledge_chunks w →
  knowledge_wf w' ∧ knowledge_kept w w'.
Proof.
  intros Hwf Hj Hd Hns Hns' He Hde Hst Hfj Hfd Ej Ed Eh Ee Hn Hc.
  eapply (settle w w' i j d j' d'); eauto.
  - by rewrite Hc.
  - intros c row. rewrite Hc. congruence.
  - rewrite Hc. apply Hwf.
  - intros Hr. rewrite Hst in Hr. by destruct (kj_status j').
Qed.

(** A job that has not succeeded may take any status but that one; neither it nor its
    document is final. *)
Lemma evolves_unfinished w i j d (j' : KnowledgeIngestionJob) (d' : KnowledgeDocument) :
  knowledge_wf w → w_knowledge_jobs w !! i = Some j →
  w_knowledge_documents w !! kj_document j = Some d →
  kj_status j ≠ KnowledgeIngestionStatus.SUCCEEDED →
  kj_workspace j' = kj_workspace j → kj_document j' = kj_document j →
  kj_idempotency_key j' = kj_idempotency_key j → kj_created_at j' = kj_created_at j →
  kd_workspace d' = kd_workspace d → kd_source d' = kd_source d →
  kd_stored_file d' = kd_stored_file d → kd_content_sha256 d' = kd_content_sha256 d →
  kd_title d' = kd_title d → kd_original_filename d' = kd_original_filename d →
  kd_content_type d' = kd_content_type d → job_evolves j j' ∧ document_evolves d d'.
Proof.
  intros Hwf Hj Hd Hns ???????????. destruct (kw_jobs w Hwf i j Hj) as [_ (_ & d0 & Hd0 & _ & Hst)].
  simplify_eq. split; (split; [by split_and!|]); [done|]. rewrite Hst. by destruct (kj_status j).
Qed.
End State.

(** ** The transactions of an ingestion *)


Section Ingestion.
Context `{Settings} `{UnicodeLib} `{Documents} `{TextEncoding} `{TokenDigest} `{VectorDatabase}.

Lemma wp_save_job i j (Q : exn + () → World → Prop) w :
  (∀ e, Q (inl e) w) →
  (job_fits j = true →
   Q (inr ()) {| w with w_knowledge_jobs := <[i := j]> (w_knowledge_jobs w) |}) →
  wp (save_job i j) Q w.
Proof.
  intros He Hr. unfold save_job. svc_steps; [apply He|]. apply negb_false_iff in Heqb.
  apply wp_save_unique. destruct (clashes job_clash i j w); [apply He|by apply Hr].
Qed.
Lemma wp_save_document i d (Q : exn + () → World → Prop) w :
  (∀ e, Q (inl e) w) →
  (document_fits d = true →
   Q (inr ()) {| w with w_knowledge_documents := <[i := d]> (w_knowledge_documents w) |}) →
  wp (save_document i d) Q w.
Proof.
  intros He Hr. unfold save_document. svc_steps; [apply He|]. apply negb_false_iff in Heqb.
  by apply Hr.
Qed.

(** A job and its document are given new statuses together. *)
Lemma moved w w' i j d j' d' :
  knowledge_wf w → w_knowledge_jobs w !! i = Some j →
  w_knowledge_documents w !! kj_document j = Some d →
  w_knowledge_jobs w' = <[i := j']> (w_knowledge_jobs w) →
  w_knowledge_documents w' = <[kj_document j := d']> (w_knowledge_documents w) →
  w_retrieval_hits w' = w_retrieval_hits w → w_retrieval_events w' = w_retrieval_events w →
  (w_next w <= w_next w')%N →
  w_knowledge_chunks w' = w_knowledge_chunks w → job_fits j' = true → document_fits d' = true →
  succeeded j = false → succeeded j' = false →
  kj_workspace j' = kj_workspace j → kj_document j' = kj_document j →
  kj_idempotency_key j' = kj_idempotency_key j → kj_created_at j' = kj_created_at j →
  kd_workspace d' = kd_workspace d → kd_source d' = kd_source d →
  kd_stored_file d' = kd_stored_file d → kd_content_sha256 d' = kd_content_sha256 d →
  kd_title d' = kd_title d → kd_original_filename d' = kd_original_filename d →
  kd_content_type d' = kd_content_type d → kd_status d' = document_status (kj_status j') →
  knowledge_wf w' ∧ knowledge_kept w w'.
Proof.
  intros Hwf Hj Hd ???????? Hs Hs' ????????????. unfold succeeded in *.
  apply bool_decide_eq_false in Hs, Hs'.
  destruct (evolves_unfinished w i j d j' d') as [He Hde]; [done..|].
  by apply (move_job w w' i j d j' d').
Qed.

(** The errors of the knowledge base fit their columns. *)
Lemma error_fits e :
  fits 64 (KnowledgeErr.code e) = true ∧ fits 255 (KnowledgeErr.safe_message e) = true.
Proof. by destruct e. Qed.
Ltac row_fits :=
  unfold job_fits, document_fits in *; rewrite ?andb_true_iff in *; destruct_and?;
  split_and?; first [assumption|apply error_fits|reflexivity].

(** Saving a job under its own key, or a document with its own texts, does not fail. *)
Lemma wp_save_job_kept i j j' w0 (Q : exn + () → World → Prop) w :
  knowledge_wf w0 → w_knowledge_jobs w = w_knowledge_jobs w0 →
  w_knowledge_jobs w0 !! i = Some j → kj_idempotency_key j' = kj_idempotency_key j →
  job_fits j' = true →
  Q (inr ()) {| w with w_knowledge_jobs := <[i := j']> (w_knowledge_jobs w) |} →
  wp (save_job i j') Q w.
Proof.
  intros Hwf Ew Hj Hk Hfit HQ. unfold save_job. rewrite Hfit. svc_steps; [done|]. apply wp_save_unique.
  assert (Hc : clashes job_clash i j' w = false); [|by rewrite Hc].
  apply clashes_false. cbn. rewrite Ew. intros k b Hb Hne. unfold job_clash. rewrite Hk.
  change (job_clash j b = false).
  by apply (kw_keys w0 Hwf i k); [apply not_eq_sym|..].
Qed.
Lemma wp_save_document_kept i d' (Q : exn + () → World → Prop) w :
  document_fits d' = true →
  Q (inr ()) {| w with w_knowledge_documents := <[i := d']> (w_knowledge_documents w) |} →
  wp (save_document i d') Q w.
Proof.
  intros Hfit HQ. unfold save_document. rewrite Hfit. svc_steps; [done|]. exact HQ.
Qed.

Ltac locked_job job_id :=
  unfold lock_job; svc_steps; try reflexivity;
  apply wp_save_job; [intros; wp_beta; reflexivity|intros ?]; svc_steps;
  apply wp_save_document; [intros; wp_beta; reflexivity|intros ?]; svc_steps;
  let Hwf := fresh in intros Hwf;
  (eapply (moved _ _ job_id); [exact Hwf|eassumption|eassumption|..]); done || apply N.le_refl.

Lemma claim_job_rel job_id : included knowledge_rel (claim_job job_id).
Proof. apply included_of_wp. intros w. unfold claim_job. svc_steps. locked_job job_id. Qed.
Lemma mark_failed_rel job_id error : included knowledge_rel (mark_failed job_id error).
Proof. apply included_of_wp. intros w. unfold mark_failed. svc_steps. locked_job job_id. Qed.
Lemma mark_retryable_failure_rel job_id error :
  included knowledge_rel (mark_retryable_failure job_id error).
Proof. apply included_of_wp. intros w. unfold mark_retryable_failure. svc_steps. locked_job job_id. Qed.

(** The rows the last transaction adds are the chunks [new]. *)
Record chunks_added (new : list KnowledgeChunk) (w w' : World) : Prop := {
  ca_jobs : w_knowledge_jobs w' = w_knowledge_jobs w;
  ca_documents : w_knowledge_documents w' = w_knowledge_documents w;
  ca_hits : w_retrieval_hits w' = w_retrieval_hits w;
  ca_events : w_retrieval_events w' = w_retrieval_events w;
  ca_now : w_now w' = w_now w;
  ca_next : (w_next w <= w_next w')%N;
  ca_kept : w_knowledge_chunks w ⊆ w_knowledge_chunks w';
  ca_new c row : w_knowledge_chunks w' !! c = Some row → w_knowledge_chunks w !! c = None →
    (c < w_next w')%N ∧ row ∈ new;
  ca_all row : row ∈ new → ∃ c, w_knowledge_chunks w' !! c = Some row;
  ca_unique : unique chunk_clash (w_knowledge_chunks w');
}.

Lemma chunk_clash_sym a b : chunk_clash a b = chunk_clash b a.
Proof.
  unfold chunk_clash. f_equal; apply bool_decide_ext; split; congruence.
Qed.

Lemma create_chunks_added workspace document_id chunks w :
  unique chunk_clash (w_knowledge_chunks w) →
  (∀ c row, w_knowledge_chunks w !! c = Some row → (c < w_next w)%N ∧
    ∀ x, x ∈ chunks → chunk_clash (new_chunk workspace document_id x.1 x.2) row = false) →
  NoDup (map (λ x, cd_ordinal x.1) chunks) →
  wp (create_chunks workspace document_id chunks) (λ r w', r = inr () ∧
    chunks_added (map (λ x, new_chunk workspace document_id x.1 x.2) chunks) w w') w.
Proof.
  revert w. induction chunks as [|[draft vector] chunks IH]; intros w Hu Hb Hnd; simpl.
  { apply wp_ret. split; [done|]. split; try done; [congruence|by intros row ?%not_elem_of_nil]. }
  apply NoDup_cons in Hnd as [Hni Hnd]. svc_steps. apply wp_save_unique.
  set (row0 := new_chunk workspace document_id draft vector).
  set (w1 := {| w with w_next := N.succ (w_next w) |}).
  assert (Hc : clashes chunk_clash (w_next w) row0 w1 = false).
  { apply clashes_false. intros c row Hrow _. destruct (Hb c row Hrow) as [_ Hx].
    apply (Hx (draft, vector)). left. }
  rewrite Hc. wp_beta. set (w2 := set_rows _ w1).
  assert (Hnone : w_knowledge_chunks w !! w_next w = None).
  { destruct (w_knowledge_chunks w !! w_next w) eqn:Hr; [|done]. apply Hb in Hr. lia. }
  eapply wp_mono; [apply (IH w2)|]; [| |done|].
  - apply (unique_insert chunk_clash chunk_clash_sym _ _ w1); [exact Hu|done].
  - intros c row. simpl. intros [[<- <-]|[_ Hr]]%lookup_insert_Some.
    + split; [lia|]. intros x Hx. unfold chunk_clash. apply andb_false_iff. right.
      apply bool_decide_eq_false. simpl. intros Heq%Nat2N.inj. apply Hni. cbn. rewrite <-Heq.
      apply list_elem_of_fmap. by exists x.
    + destruct (Hb c row Hr) as [? Hx]. split; [lia|]. intros x Hin. apply Hx. by right.
  - intros r w' [Hr [Ej Ed Eh Ee En Hn Hk Hnew Hall Hu']]. split; [done|].
    change (w_knowledge_chunks w2) with (<[w_next w := row0]> (w_knowledge_chunks w)) in *.
    change (w_next w2) with (N.succ (w_next w)) in *. split; try done; [lia|..].
    + etrans; [|exact Hk]. by apply insert_subseteq.
    + intros c row Hrow Hn0. destruct (decide (c = w_next w)) as [->|Hne].
      { pose proof (lookup_weaken _ _ (w_next w) row0 (lookup_insert_eq _ _ _) Hk). simplify_eq.
        split; [lia|left]. }
      destruct (Hnew c row Hrow) as [? Hin]; [by rewrite lookup_insert_ne|].
      split; [done|by right].
    + intros row [->|Hin]%elem_of_cons; [|by apply Hall].
      exists (w_next w). eapply lookup_weaken; [apply lookup_insert_eq|exact Hk].
Qed.

(** What the extraction and the embedding have established of what they hand over. *)
Record ingested_ok (r : Ingested) : Prop := {
  ig_ordinals k d : in_drafts r !! k = Some d → cd_ordinal d = k;
  ig_length : List.length (in_vectors r) = List.length (in_drafts r);
  ig_dimension v : v ∈ in_vectors r → List.length v = KNOWLEDGE_EMBEDDING_DIMENSION;
  ig_version : fits 64 (in_extractor_version r) = true;
}.

Lemma zip_ordinals (r : Ingested) n :
  ingested_ok r → (n < N.of_nat (List.length (in_drafts r)))%N →
  ∃ d v, (d, v) ∈ zip (in_drafts r) (in_vectors r) ∧ N.of_nat (cd_ordinal d) = n.
Proof.
  intros Hr Hn. destruct (lookup_lt_is_Some_2 (in_drafts r) (N.to_nat n)) as [d Hd]; [lia|].
  destruct (lookup_lt_is_Some_2 (in_vectors r) (N.to_nat n)) as [v Hv].
  { rewrite (ig_length r Hr). lia. }
  exists d, v. split.
  - apply list_elem_of_lookup. exists (N.to_nat n). apply lookup_zip_with_Some. eauto.
  - rewrite (ig_ordinals r Hr _ _ Hd). lia.
Qed.
Lemma zip_members (r : Ingested) d v :
  ingested_ok r → (d, v) ∈ zip (in_drafts r) (in_vectors r) →
  cd_ordinal d < List.length (in_drafts r) ∧ List.length v = KNOWLEDGE_EMBEDDING_DIMENSION.
Proof.
  intros Hr (k & (d' & v' & [= <- <-] & Hd & Hv)%lookup_zip_with_Some)%list_elem_of_lookup.
  rewrite (ig_ordinals r Hr _ _ Hd). split; [by eapply lookup_lt_Some|].
  apply (ig_dimension r Hr). by eapply list_elem_of_lookup_2.
Qed.

Lemma zip_nodup (r : Ingested) :
  ingested_ok r → NoDup (map (λ x, cd_ordinal x.1) (zip (in_drafts r) (in_vectors r))).
Proof.
  intros Hr. apply NoDup_alt. intros a b o.
  intros (x & -> & Hx)%list_lookup_fmap_Some (y & Hxy & Hy)%list_lookup_fmap_Some.
  apply lookup_zip_with_Some in Hx as (d & v & -> & Hd & _).
  apply lookup_zip_with_Some in Hy as (d' & v' & -> & Hd' & _). simpl in Hxy.
  by rewrite <-(ig_ordinals r Hr _ _ Hd), <-(ig_ordinals r Hr _ _ Hd').
Qed.

Lemma no_chunks i d w c row :
  knowledge_wf w → w_knowledge_documents w !! i = Some d →
  kd_status d ≠ KnowledgeDocumentStatus.READY → w_knowledge_chunks w !! c = Some row →
  kc_document row ≠ i.
Proof.
  intros Hwf Hd Hnr Hc Heq. destruct (kw_chunks w Hwf c row Hc) as [_ (d0 & Hd0 & Hr & _)].
  apply Hnr. rewrite Heq, Hd in Hd0. by simplify_eq.
Qed.

(** A document that is not ready has no chunk to delete, and none that is quoted. *)
Lemma delete_chunks_none i d w :
  knowledge_wf w → w_knowledge_documents w !! i = Some d →
  kd_status d ≠ KnowledgeDocumentStatus.READY → delete_chunks i w = (inr (), w).
Proof.
  intros Hwf Hd Hnr.
  assert (Hno : ∀ c row, w_knowledge_chunks w !! c = Some row → chunk_of i c row = false).
  { intros c row Hc. apply bool_decide_eq_false. by eapply no_chunks. }
  assert (He : exists_row (protecting i w) w = false).
  { apply exists_row_false. intros h row Hh. unfold protecting.
    destruct (w_knowledge_chunks w !! rh_chunk row) as [c|] eqn:Hc; [|done]. by apply Hno. }
  unfold delete_chunks, gets, mbind, M_bind. rewrite He. cbn. unfold modify.
  assert (Hf : filter (λ kv, chunk_of i kv.1 kv.2 = false) (w_knowledge_chunks w)
    = w_knowledge_chunks w).
  { apply map_filter_id. intros c row Hc. by apply Hno. }
  cbn in Hf. rewrite Hf. by destruct w.
Qed.

Lemma wp_delete_chunks_none i d (Q : exn + () → World → Prop) w :
  knowledge_wf w → w_knowledge_documents w !! i = Some d →
  kd_status d ≠ KnowledgeDocumentStatus.READY → Q (inr ()) w → wp (delete_chunks i) Q w.
Proof. intros. unfold wp. by erewrite delete_chunks_none. Qed.

(** The row of the [n]-th draft of a document. *)
Definition draft_row (workspace document_id : N) (n : nat) (draft : ChunkDraft)
    (vector : list spec_float) : KnowledgeChunk := {|
  kc_workspace := workspace; kc_document := document_id; kc_ordinal := N.of_nat n;
  kc_text := cd_text draft; kc_start_offset := N.of_nat (cd_start_offset draft);
  kc_end_offset := N.of_nat (cd_end_offset draft); kc_page_start := cd_page_start draft;
  kc_page_end := cd_page_end draft; kc_metadata := cd_metadata draft; kc_embedding := vector |}.

(** The rows of a document after its ingestion: a chunk for each draft, with its vector,
    and no other; the job says how they were made. *)
Definition ingestion_stored (provider : EmbeddingProvider) (job_id : N) (r : Ingested)
    (w : World) : Prop :=
  ∃ j d, w_knowledge_jobs w !! job_id = Some j ∧
    kj_status j = KnowledgeIngestionStatus.SUCCEEDED ∧ kj_error_code j = "" ∧
    kj_extractor_version j = in_extractor_version r ∧
    kj_embedding_provider j = provider_name provider ∧
    kj_embedding_model j = model_name provider ∧
    kj_embedding_dimension j = Some (N.of_nat (provider_dimension provider)) ∧
    w_knowledge_documents w !! kj_document j = Some d ∧
    kd_status d = KnowledgeDocumentStatus.READY ∧
    kd_chunk_count d = N.of_nat (List.length (in_drafts r)) ∧
    kd_extracted_char_count d = N.of_nat (String.length (in_normalized r)) ∧
    ∀ row, (∃ c, w_knowledge_chunks w !! c = Some row ∧ kc_document row = kj_document j) ↔
      ∃ n draft vector, in_drafts r !! n = Some draft ∧ in_vectors r !! n = Some vector ∧
        row = draft_row (kd_workspace d) (kj_document j) n draft vector.

Lemma drafted_rows workspace document_id r row :
  ingested_ok r →
  row ∈ map (λ x, new_chunk workspace document_id x.1 x.2) (zip (in_drafts r) (in_vectors r)) ↔
  ∃ n draft vector, in_drafts r !! n = Some draft ∧ in_vectors r !! n = Some vector ∧
    row = draft_row workspace document_id n draft vector.
Proof.
  intros Hr.
  assert (Heq : ∀ n draft vector, in_drafts r !! n = Some draft →
    new_chunk workspace document_id draft vector = draft_row workspace document_id n draft vector).
  { intros n draft vector Hd. unfold new_chunk, draft_row. by rewrite (ig_ordinals r Hr n draft Hd). }
  split.
  - intros ([draft vector] & -> & (n & Hn)%list_elem_of_lookup)%list_elem_of_fmap.
    apply lookup_zip_with_Some in Hn as (? & ? & [= <- <-] & Hd & Hv).
    exists n, draft, vector. split_and!; [done..|by apply Heq].
  - intros (n & draft & vector & Hd & Hv & ->). apply list_elem_of_fmap. exists (draft, vector).
    split; [by rewrite (Heq n)|]. apply list_elem_of_lookup. exists n.
    apply lookup_zip_with_Some. eauto.
Qed.

Lemma completed provider job_id j d r w w2 w' :
  knowledge_wf w → ingested_ok r → w_knowledge_jobs w !! job_id = Some j →
  w_knowledge_documents w !! kj_document j = Some d →
  kj_status j = KnowledgeIngestionStatus.PROCESSING →
  job_fits (succeeded_job provider r (w_now w2) j) = true →
  chunks_added (map (λ x, new_chunk (kd_workspace d) (kj_document j) x.1 x.2)
    (zip (in_drafts r) (in_vectors r))) w w2 →
  w_knowledge_jobs w' = <[job_id := succeeded_job provider r (w_now w2) j]> (w_knowledge_jobs w2) →
  w_knowledge_documents w' =
    <[kj_document j := ready_document r (w_now w2) d]> (w_knowledge_documents w2) →
  w_retrieval_hits w' = w_retrieval_hits w2 → w_retrieval_events w' = w_retrieval_events w2 →
  w_next w' = w_next w2 → w_knowledge_chunks w' = w_knowledge_chunks w2 →
  (knowledge_wf w' ∧ knowledge_kept w w') ∧ ingestion_stored provider job_id r w'.
Proof.
  intros Hwf Hr Hj Hd Hst Hfj [Ej Ed Eh Ee En Hn Hk Hnew Hall Hu] Fj Fd Fh Fe Fn Fc.
  assert (Hnr : kd_status d ≠ KnowledgeDocumentStatus.READY).
  { destruct (kw_jobs w Hwf _ _ Hj) as [_ (_ & d0 & Hd0 & _ & Hd0s)]. simplify_eq.
    rewrite Hd0s, Hst. done. }
  assert (Hmem : ∀ row, row ∈ map (λ x, new_chunk (kd_workspace d) (kj_document j) x.1 x.2)
      (zip (in_drafts r) (in_vectors r)) → ∃ dr v, (dr, v) ∈ zip (in_drafts r) (in_vectors r) ∧
      row = new_chunk (kd_workspace d) (kj_document j) dr v).
  { intros row ([dr v] & -> & Hin)%list_elem_of_fmap. eauto. }
  split.
  - eapply (settle w w' job_id j d);
      [exact Hwf|exact Hj|exact Hd|by rewrite Hst| | | |exact Hfj| |by rewrite Fj, Ej|by rewrite Fd, Ed
      |by rewrite Fh|by rewrite Fe|by rewrite Fn|by rewrite Fc| |by rewrite Fc|].
    + split; [done|]. by rewrite Hst.
    + by split.
    + done.
    + destruct (kw_documents w Hwf _ _ Hd) as (_ & Hfd & _). row_fits.
    + intros c row Hc Hn0. rewrite Fc in Hc. rewrite Fn. destruct (Hnew c row Hc Hn0) as [? (dr & v & Hin & ->)%(conj I)%proj2%Hmem].
      split; [done|]. destruct (zip_members r dr v Hr Hin). eexists. rewrite Fd.
      split; [apply lookup_insert_eq|]. split_and!; try done. simpl. lia.
    + intros _ n Hlt. destruct (zip_ordinals r n Hr Hlt) as (dr & v & Hin & Ho).
      destruct (Hall (new_chunk (kd_workspace d) (kj_document j) dr v)) as [c Hc].
      { apply list_elem_of_fmap. by exists (dr, v). }
      exists c, (new_chunk (kd_workspace d) (kj_document j) dr v). by rewrite Fc.
  - exists (succeeded_job provider r (w_now w2) j), (ready_document r (w_now w2) d).
    rewrite Fj, Fd, Fc. split_and!; try done; [apply lookup_insert_eq..|]. intros row.
    rewrite <-drafted_rows by done. split.
    + intros (c & Hc & Hdoc). destruct (w_knowledge_chunks w !! c) as [row0|] eqn:Hc0.
      * pose proof (lookup_weaken _ _ _ _ Hc0 Hk). simplify_eq.
        destruct (kw_chunks w Hwf c row Hc0) as [_ (d1 & Hd1 & Hr1 & _)]. simpl in Hdoc.
        rewrite Hdoc in Hd1. by simplify_eq.
      * by apply (Hnew c row).
    + intros Hin. destruct (Hall row Hin) as [c Hc]. exists c. split; [done|].
      by destruct (Hmem row Hin) as (dr & v & _ & ->).
Qed.

Definition ingestion_order (w w' : World) : Prop := knowledge_wf w' ∧ knowledge_kept w w'.

(** The names of the provider fit their columns. *)
Definition provider_fits (p : EmbeddingProvider) : bool :=
  fits 64 (provider_name p) && fits 64 (model_name p).

(** What the last transaction returns: when the job is still being processed it stores
    the chunks; otherwise it reports what another worker made of the job. *)
Definition completion (provider : EmbeddingProvider) (job_id : N) (r : Ingested) (outcome : IngestionOutcome)
    (w w' : World) : Prop :=
  if io_already_complete outcome then
    w' = w ∧ ∃ j, w_knowledge_jobs w !! job_id = Some j ∧ kj_status j = io_status outcome ∧
      kj_status j ≠ KnowledgeIngestionStatus.PROCESSING
  else
    io_status outcome = KnowledgeIngestionStatus.SUCCEEDED ∧
    io_chunk_count outcome = N.of_nat (List.length (in_drafts r)) ∧
    ingestion_stored provider job_id r w'.

Lemma wp_complete_ingestion provider job_id r j w :
  ingested_ok r → knowledge_wf w → w_knowledge_jobs w !! job_id = Some j →
  wp (complete_ingestion provider job_id r) (λ o w', ingestion_order w w' ∧
    (provider_fits provider = true →
     ∃ outcome, o = inr outcome ∧ completion provider job_id r outcome w w')) w.
Proof.
  intros Hr Hwf Hj. assert (Ho : ingestion_order w w) by (by split).
  destruct (kw_jobs w Hwf _ _ Hj) as [_ (Hjf & d & Hd & _ & Hds)].
  destruct (kw_documents w Hwf _ _ Hd) as (_ & Hdf & _).
  unfold complete_ingestion, lock_job. svc_steps; cbn in *; simplify_eq.
  { apply negb_true_iff, bool_decide_eq_false in Heqb. split; [done|]. intros _. eexists.
    split; [done|]. split; [done|]. by exists j. }
  apply negb_false_iff, bool_decide_eq_true in Heqb. rewrite Heqb in Hds.
  assert (Hst : kd_status d ≠ KnowledgeDocumentStatus.READY) by (by rewrite Hds).
  apply (wp_delete_chunks_none _ _ _ w Hwf Hd Hst). wp_beta. svc_steps.
  eapply wp_mono; [apply (create_chunks_added _ _ _ w); [apply Hwf| |by apply zip_nodup]|].
  { intros c row Hc. split; [apply (kw_chunks w Hwf c row Hc)|]. intros x _.
    unfold chunk_clash. rewrite bool_decide_eq_false_2; [done|]. apply not_eq_sym. by eapply no_chunks. }
  intros ? w2 [-> Hadd]; wp_beta. svc_steps.
  apply wp_save_document_kept; [row_fits|]. wp_beta. svc_steps.
  destruct (job_fits (succeeded_job provider r (w_now w2) j)) eqn:Hfit.
  2: { unfold save_job. rewrite Hfit. apply wp_bind, wp_raise. wp_beta. split; [done|]. intros Hp.
    pose proof (ig_version r Hr). unfold provider_fits in Hp. exfalso.
    assert (job_fits (succeeded_job provider r (w_now w2) j) = true); [|congruence].
    clear Hfit. row_fits. }
  eapply (wp_save_job_kept _ j _ w); [done|apply Hadd|done|done|done|]. wp_beta. svc_steps.
  match goal with |- ingestion_order _ ?w' ∧ _ =>
    destruct (completed provider job_id j d r w w2 w') as [Hrel Hst'] end; try done.
  split; [done|]. intros _. by eexists.
Qed.

Lemma sequence_Forall2 {A B E} (f : A → E + B) l l' :
  sequence f l = inr l' → Forall2 (λ x y, f x = inr y) l l'.
Proof.
  revert l'. induction l as [|x l IH]; intros l'; simpl; [by intros [= <-]; constructor|].
  destruct (f x) eqn:Hf; [done|]. destruct (sequence f l); [done|]. intros [= <-].
  constructor; [done|by apply IH].
Qed.

(** The vectors that pass are as many as expected and of the dimension expected. *)
Lemma validate_embeddings_ok vectors expected dimension out :
  validate_embeddings vectors expected dimension = inr out →
  List.length out = expected ∧ ∀ v, v ∈ out → List.length v = dimension.
Proof.
  unfold validate_embeddings.
  destruct (Nat.eqb_spec (List.length vectors) expected) as [Hl|]; [|done]. simpl.
  intros Hs%sequence_Forall2. split; [by rewrite <-(Forall2_length _ _ _ Hs)|].
  intros v (k & Hv)%list_elem_of_lookup.
  destruct (Forall2_lookup_r _ _ _ _ _ Hs Hv) as (vec & _ & Hvec). unfold validate_vector in Hvec.
  destruct (Nat.eqb_spec (List.length vec) dimension) as [Hd|]; [|done]. simpl in Hvec.
  apply sequence_Forall2 in Hvec. by rewrite <-(Forall2_length _ _ _ Hvec).
Qed.

(** The vectors a provider returned, as numbers of the configured dimension. *)
Definition vectors_of (given : list (list json)) (vectors : list (list spec_float)) : Prop :=
  Forall2 (λ g v, Forall2 (λ x f, validate_value x = inr f) g v ∧
    List.length v = KNOWLEDGE_EMBEDDING_DIMENSION) given vectors.

(** The provider fails, answers with what is not such vectors, or with a vector for each
    draft. *)
Inductive embedded : string → string → list ChunkDraft → exn + list (list json) → exn + Ingested → Prop :=
  | em_failed normalized version drafts e : embedded normalized version drafts (inl e) (inl e)
  | em_invalid normalized version drafts given e :
      (¬ ∃ vectors, vectors_of given vectors ∧ List.length given = List.length drafts) →
      e = KnowledgeExc KnowledgeErr.InvalidEmbedding ∨ e = OtherExc 8 →
      embedded normalized version drafts (inr given) (inl e)
  | em_done normalized version drafts given vectors :
      vectors_of given vectors → List.length given = List.length drafts →
      embedded normalized version drafts (inr given)
        (inr {| in_normalized := normalized; in_drafts := drafts; in_vectors := vectors;
                in_extractor_version := version |}).

(** How reading, extracting, cutting and embedding a document ends, from the world [w];
    the last world is the one the storage or the provider left. *)
Inductive attempted (provider : EmbeddingProvider) (document : KnowledgeDocument) (w : World) :
    exn + Ingested → World → Prop :=
  | at_unreadable e w1 :
      open_stored_file (kd_stored_file document) w = (inl e, w1) →
      attempted provider document w (inl e) w1
  | at_unsupported content e w1 :
      open_stored_file (kd_stored_file document) w = (inr content, w1) →
      get_extractor (kd_content_type document) = inl e →
      attempted provider document w (inl (KnowledgeExc e)) w1
  | at_unextractable content version extractor e w1 :
      open_stored_file (kd_stored_file document) w = (inr content, w1) →
      get_extractor (kd_content_type document) = inr (version, extractor) →
      extractor content = inl e →
      attempted provider document w (inl (KnowledgeExc e)) w1
  | at_too_short content version extractor extracted w1 :
      open_stored_file (kd_stored_file document) w = (inr content, w1) →
      get_extractor (kd_content_type document) = inr (version, extractor) →
      extractor content = inr extracted →
      String.length (str_strip (ed_text (normalize_extracted_document extracted)))
        < KNOWLEDGE_MIN_CHUNK_CHARS →
      attempted provider document w (inl (KnowledgeExc KnowledgeErr.NoExtractableText)) w1
  | at_uncut content version extractor extracted e w1 :
      open_stored_file (kd_stored_file document) w = (inr content, w1) →
      get_extractor (kd_content_type document) = inr (version, extractor) →
      extractor content = inr extracted →
      let normalized := normalize_extracted_document extracted in
      chunk_text (ed_text normalized) KNOWLEDGE_CHUNK_SIZE KNOWLEDGE_CHUNK_OVERLAP
        KNOWLEDGE_MIN_CHUNK_CHARS (ed_sections normalized) = Some (inl e) →
      attempted provider document w (inl (KnowledgeExc e)) w1
  | at_cut content version extractor extracted drafts answer result w1 w2 :
      open_stored_file (kd_stored_file document) w = (inr content, w1) →
      get_extractor (kd_content_type document) = inr (version, extractor) →
      extractor content = inr extracted →
      let normalized := normalize_extracted_document extracted in
      KNOWLEDGE_MIN_CHUNK_CHARS ≤ String.length (str_strip (ed_text normalized)) →
      chunk_text (ed_text normalized) KNOWLEDGE_CHUNK_SIZE KNOWLEDGE_CHUNK_OVERLAP
        KNOWLEDGE_MIN_CHUNK_CHARS (ed_sections normalized) = Some (inr drafts) →
      embed_documents provider (map cd_text drafts) w1 = (answer, w2) →
      embedded (ed_text normalized) version drafts answer result →
      attempted provider document w result w2.

Lemma extractor_version_fits content_type version extractor :
  get_extractor content_type = inr (version, extractor) → fits 64 version = true.
Proof.
  unfold get_extractor. destruct (str_in _ _); [by intros [= <- _]|].
  by destruct (String.eqb _ _); [intros [= <- _]|].
Qed.

Lemma sequence_of_Forall2 {A B E} (f : A → E + B) l l' :
  Forall2 (λ x y, f x = inr y) l l' → sequence f l = inr l'.
Proof. induction 1 as [|x y l l' Hf _ IH]; simpl; [done|]. by rewrite Hf, IH. Qed.
Lemma sequence_error {A B E} (f : A → E + B) l e :
  sequence f l = inl e → ∃ x, f x = inl e.
Proof.
  induction l as [|x l IH]; simpl; [done|]. destruct (f x) eqn:Hf; [intros [= <-]; by exists x|].
  destruct (sequence f l); [|done]. intros [= <-]. by apply IH.
Qed.

Lemma validate_vector_iff vector out :
  validate_vector KNOWLEDGE_EMBEDDING_DIMENSION vector = inr out ↔
  Forall2 (λ x f, validate_value x = inr f) vector out ∧
  List.length out = KNOWLEDGE_EMBEDDING_DIMENSION.
Proof.
  unfold validate_vector. destruct (Nat.eqb_spec (List.length vector) KNOWLEDGE_EMBEDDING_DIMENSION)
    as [Hl|Hl]; simpl.
  - split; [intros Hs%sequence_Forall2|intros [Hs _]; by apply sequence_of_Forall2].
    split; [done|]. by rewrite <-(Forall2_length _ _ _ Hs).
  - split; [done|]. intros [Hs Ho]. by rewrite <-(Forall2_length _ _ _ Hs) in Ho.
Qed.

(** Answers of the embedding provider that pass, and errors of those that do not. *)
Lemma validate_embeddings_iff given expected out :
  validate_embeddings given expected KNOWLEDGE_EMBEDDING_DIMENSION = inr out ↔
  vectors_of given out ∧ List.length given = expected.
Proof.
  unfold validate_embeddings, vectors_of.
  destruct (Nat.eqb_spec (List.length given) expected) as [Hl|Hl]; simpl; [|by split; [|intros []]].
  split.
  - intros Hs%sequence_Forall2. split; [|done]. eapply Forall2_impl; [exact Hs|].
    intros g v Hv. by apply validate_vector_iff.
  - intros [Hv _]. apply sequence_of_Forall2. eapply Forall2_impl; [exact Hv|].
    intros g v Hg. by apply validate_vector_iff.
Qed.
Lemma validate_value_error v e :
  validate_value v = inl e → e = KnowledgeExc KnowledgeErr.InvalidEmbedding ∨ e = OtherExc 8.
Proof.
  unfold validate_value. destruct v; try (intros [= <-]; by left).
  - destruct (float_of_Z _); [done|]. intros [= <-]. by right.
  - destruct (is_finite _); [done|]. intros [= <-]. by left.
Qed.
Lemma validate_embeddings_error given expected e :
  validate_embeddings given expected KNOWLEDGE_EMBEDDING_DIMENSION = inl e →
  (¬ ∃ vectors, vectors_of given vectors ∧ List.length given = expected) ∧
  (e = KnowledgeExc KnowledgeErr.InvalidEmbedding ∨ e = OtherExc 8).
Proof.
  intros Hv. split.
  { intros [vectors Hok%validate_embeddings_iff]. congruence. }
  unfold validate_embeddings in Hv. destruct (negb _) in Hv; [simplify_eq; by left|].
  apply sequence_error in Hv as [vector Hv]. unfold validate_vector in Hv.
  destruct (negb _) in Hv; [simplify_eq; by left|].
  apply sequence_error in Hv as [v Hv]. by apply validate_value_error in Hv.
Qed.

Lemma attempted_ok provider document w r w' :
  attempted provider document w (inr r) w' → ingested_ok r.
Proof.
  intros Ha. inversion Ha as [| | | | |? ? ? ? drafts ? ? ? ? _ Hex _ ? _ Hc _ Hem]; subst.
  inversion Hem as [| |? ? ? given vectors Hv Hl]; subst. simpl in *. split; simpl.
  - match type of Hc with chunk_text ?a ?b ?c ?d ?e = _ =>
      destruct (chunk_text_ok a b c d e) as (o & Ho & Hok) end.
    rewrite Hc in Ho. simplify_eq. destruct Hok as [[Hok _] _]. intros k d Hd.
    by destruct (Hok k d Hd) as (start & stop & -> & _).
  - by rewrite <-(Forall2_length _ _ _ Hv).
  - intros v (k & Hk)%list_elem_of_lookup.
    by destruct (Forall2_lookup_r _ _ _ _ _ Hv Hk) as (g & _ & _ & ?).
  - by eapply extractor_version_fits.
Qed.

Lemma wp_extract_and_embed (R : relation World) `{!PreOrder R} provider document w :
  (∀ f, included R (open_stored_file f)) →
  (∀ ts, included R (embed_documents provider ts)) →
  wp (extract_and_embed provider document) (λ o w',
    R w w' ∧ attempted provider document w o w') w.
Proof.
  intros Hopen Hembed. unfold extract_and_embed, of_knowledge, run_chunker. apply wp_bind.
  pose proof (Hopen (kd_stored_file document) w) as Hw1. unfold wp.
  destruct (open_stored_file (kd_stored_file document) w) as [[e|content] w1] eqn:Hread;
    simpl in Hw1 |- *; wp_beta; [by split; [|econstructor]|].
  apply wp_bind. destruct (get_extractor (kd_content_type document)) as [e|[version extractor]] eqn:Hex;
    [by apply wp_raise; split; [|eapply at_unsupported]|].
  apply wp_ret. wp_beta. apply wp_bind. simpl. destruct (extractor content) as [e|extracted] eqn:Hext;
    [by apply wp_raise; split; [|eapply at_unextractable]|].
  apply wp_ret. wp_beta. apply wp_bind. unfold raise_if.
  destruct (_ <? KNOWLEDGE_MIN_CHUNK_CHARS) eqn:Hlen;
    [apply wp_raise; split; [done|]; apply Nat.ltb_lt in Hlen; by eapply at_too_short|].
  apply Nat.ltb_ge in Hlen. apply wp_ret. wp_beta. apply wp_bind.
  destruct (chunk_text _ _ _ _ _) as [[e|drafts]|] eqn:Hc;
    [by apply wp_raise; split; [|eapply at_uncut]| |].
  2: { match type of Hc with chunk_text ?a ?b ?c ?d ?e = _ =>
         destruct (chunk_text_ok a b c d e) as (o & Ho & _) end. congruence. }
  apply wp_ret. wp_beta. apply wp_bind.
  pose proof (Hembed (map cd_text drafts) w1) as Hw2. unfold wp.
  destruct (embed_documents provider (map cd_text drafts) w1) as [answer w2] eqn:Hans;
    simpl in Hw2 |- *. assert (Hw : R w w2) by (by etrans).
  assert (Hcut : ∀ result, embedded (ed_text (normalize_extracted_document extracted)) version drafts
    answer result → attempted provider document w result w2) by (intros; by eapply at_cut).
  destruct answer as [e|given]; wp_beta; [split; [done|apply Hcut, em_failed]|].
  apply wp_bind, wp_of_sum. destruct (validate_embeddings given _ _) as [e|vectors] eqn:Hv; wp_beta.
  { apply validate_embeddings_error in Hv as [??]. split; [done|]. by apply Hcut, em_invalid. }
  apply wp_ret. apply validate_embeddings_iff in Hv as [??]. split; [done|]. by apply Hcut, em_done.
Qed.


(** The outcome of the two ways to give up: the job leaves [PROCESSING] with the error,
    unless another worker has completed it. *)
Definition gave_up (status : KnowledgeIngestionStatus.t) (error : KnowledgeErr.t) (job_id : N)
    (w : World) : Prop :=
  ∃ j, w_knowledge_jobs w !! job_id = Some j ∧
    (kj_status j = KnowledgeIngestionStatus.SUCCEEDED ∨
     kj_status j = status ∧ kj_error_code j = KnowledgeErr.code error ∧
     kj_safe_error_message j = KnowledgeErr.safe_message error).

Ltac give_up_job job_id j w Hwf Hj Hd :=
  unfold lock_job; svc_steps; cbn in *; simplify_eq;
  [ split_and!; [done|by split|]; exists j; split; [done|];
    left; by eapply bool_decide_eq_true_1
  | eapply (wp_save_job_kept job_id j _ w); [done|done|done|done|row_fits|]; svc_steps;
    apply wp_save_document_kept; [row_fits|]; svc_steps;
    split_and!; [done|eapply (moved w _ job_id); try done; try apply N.le_refl; row_fits|];
    eexists; split; [apply lookup_insert_eq|]; right; by split_and! ].

Lemma wp_mark_failed job_id error j w :
  knowledge_wf w → w_knowledge_jobs w !! job_id = Some j →
  wp (mark_failed job_id error) (λ r w', r = inr () ∧ ingestion_order w w' ∧
    gave_up KnowledgeIngestionStatus.FAILED error job_id w') w.
Proof.
  intros Hwf Hj. destruct (kw_jobs w Hwf _ _ Hj) as [_ (Hjf & d & Hd & _)].
  destruct (kw_documents w Hwf _ _ Hd) as (_ & Hdf & _). unfold mark_failed. svc_steps. give_up_job job_id j w Hwf Hj Hd.
Qed.
Lemma wp_mark_retryable_failure job_id error j w :
  knowledge_wf w → w_knowledge_jobs w !! job_id = Some j →
  wp (mark_retryable_failure job_id error) (λ r w', r = inr () ∧ ingestion_order w w' ∧
    gave_up KnowledgeIngestionStatus.QUEUED error job_id w') w.
Proof.
  intros Hwf Hj. destruct (kw_jobs w Hwf _ _ Hj) as [_ (Hjf & d & Hd & _)].
  destruct (kw_documents w Hwf _ _ Hd) as (_ & Hdf & _). unfold mark_retryable_failure. svc_steps. give_up_job job_id j w Hwf Hj Hd.
Qed.

(** The world of an attempt: the job is claimed and its document is being processed. *)
Definition claimed_world (job_id : N) (j : KnowledgeIngestionJob) (d : KnowledgeDocument) (w : World)
    : World :=
  {| w with
     w_knowledge_jobs := <[job_id :=
       {| j with kj_status := KnowledgeIngestionStatus.PROCESSING;
                 kj_attempt_count := (kj_attempt_count j + 1)%N; kj_started_at := Some (w_now w);
                 kj_finished_at := None |}]> (w_knowledge_jobs w);
     w_knowledge_documents := <[kj_document j :=
       {| d with kd_status := KnowledgeDocumentStatus.PROCESSING |}]> (w_knowledge_documents w) |}.

Lemma wp_claim_job job_id j w :
  knowledge_wf w → w_knowledge_jobs w !! job_id = Some j →
  wp (claim_job job_id) (λ r w', ingestion_order w w' ∧ ∃ claimed, r = inr claimed ∧
    match claimed with
    | inl outcome => w' = w ∧ kj_status j = KnowledgeIngestionStatus.SUCCEEDED ∧
        io_status outcome = kj_status j ∧ io_already_complete outcome = true
    | inr document => ∃ d, w_knowledge_documents w !! kj_document j = Some d ∧
        document = processing_document d ∧ w' = claimed_world job_id j d w ∧
        kj_status j ≠ KnowledgeIngestionStatus.SUCCEEDED
    end) w.
Proof.
  intros Hwf Hj. destruct (kw_jobs w Hwf _ _ Hj) as [_ (Hjf & d & Hd & _)].
  destruct (kw_documents w Hwf _ _ Hd) as (_ & Hdf & _). unfold claim_job, lock_job. svc_steps; cbn in *; simplify_eq.
  - split; [by split|]. eexists. split; [done|]. split_and!; try done.
    by eapply bool_decide_eq_true_1.
  - eapply (wp_save_job_kept job_id j _ w); [done|done|done|done|row_fits|]. svc_steps.
    apply wp_save_document_kept; [row_fits|]. svc_steps.
    split; [eapply (moved w _ job_id); try done; try apply N.le_refl; row_fits|].
    eexists. split; [done|]. exists d. split_and!; try done. by eapply bool_decide_eq_false_1.
Qed.

(** Whether a new attempt would not cure an error. *)
Definition incurable (e : exn) : bool :=
  match e with KnowledgeExc e => KnowledgeErr.permanent e | _ => false end.

(** What becomes of the job, and what is reported, when an attempt has ended in the world
    [w1] with a result: success stores it, an incurable error fails the job with its code
    and message, any other error queues it again. *)
Definition attempt_settled (provider : EmbeddingProvider) (job_id : N) (result : exn + Ingested)
    (w1 : World) (o : exn + IngestionOutcome) (w' : World) : Prop :=
  match result with
  | inr r => ∃ outcome, o = inr outcome ∧ completion provider job_id r outcome w1 w'
  | inl e =>
      if incurable e then
        ∃ e', e = KnowledgeExc e' ∧ gave_up KnowledgeIngestionStatus.FAILED e' job_id w' ∧
        o = inr {| io_job_id := job_id; io_status := KnowledgeIngestionStatus.FAILED;
                   io_chunk_count := 0; io_already_complete := false |}
      else
        o = inl (KnowledgeExc KnowledgeErr.RetryableIngestion) ∧
        gave_up KnowledgeIngestionStatus.QUEUED KnowledgeErr.RetryableIngestion job_id w'
  end.

(** How an ingestion ends, [j] and [d] being the rows of the job and of its document when
    it starts. *)
Definition ingestion_settled (provider : EmbeddingProvider) (job_id : N)
    (j : KnowledgeIngestionJob) (d : KnowledgeDocument) (w : World) (o : exn + IngestionOutcome)
    (w' : World) : Prop :=
  if bool_decide (kj_status j = KnowledgeIngestionStatus.SUCCEEDED) then
    w' = w ∧ ∃ outcome, o = inr outcome ∧ io_status outcome = KnowledgeIngestionStatus.SUCCEEDED ∧
      io_already_complete outcome = true
  else ∃ result w1, attempted provider d (claimed_world job_id j d w) result w1 ∧
    attempt_settled provider job_id result w1 o w'.

(** What the job shows of how its ingestion ended. *)
Lemma settled_job provider job_id j d w o w' :
  w_knowledge_jobs w !! job_id = Some j →
  ingestion_settled provider job_id j d w o w' →
  match o with
  | inl e => e = KnowledgeExc KnowledgeErr.RetryableIngestion ∧
      gave_up KnowledgeIngestionStatus.QUEUED KnowledgeErr.RetryableIngestion job_id w'
  | inr outcome => ∃ j', w_knowledge_jobs w' !! job_id = Some j' ∧
      io_status outcome ≠ KnowledgeIngestionStatus.PROCESSING ∧
      (kj_status j' = io_status outcome ∨ kj_status j' = KnowledgeIngestionStatus.SUCCEEDED)
  end.
Proof.
  intros Hj. unfold ingestion_settled. case_bool_decide as Hs.
  { intros (-> & outcome & -> & Ho & _). exists j. rewrite Ho. split_and!; [done..|by left]. }
  intros (result & w1 & _ & Hset). destruct result as [e|r]; simpl in Hset.
  - destruct (incurable e).
    + destruct Hset as (e' & _ & (j' & Hj' & Hst) & ->). exists j'. simpl. split_and!; [done..|].
      destruct Hst as [?|(? & _)]; [by right|by left].
    + by destruct Hset as [-> ?].
  - destruct Hset as (outcome & -> & Hc). unfold completion in Hc.
    destruct (io_already_complete outcome).
    + destruct Hc as (-> & j' & Hj' & Hst & Hp). exists j'. split_and!; [done|congruence|by left].
    + destruct Hc as (Hst & _ & j' & d' & Hj' & Hs' & _). exists j'. rewrite Hst. split_and!; [done..|by left].
Qed.

Lemma kept_job w w' job_id j :
  knowledge_kept w w' → w_knowledge_jobs w !! job_id = Some j →
  ∃ j', w_knowledge_jobs w' !! job_id = Some j'.
Proof. intros Hk Hj. destruct (kk_jobs _ _ Hk _ _ Hj) as (j' & ? & _). by exists j'. Qed.

Lemma order_rel w w1 w2 : ingestion_order w w1 → knowledge_rel w1 w2 → ingestion_order w w2.
Proof. intros [Hw Hk] Hr. destruct (Hr Hw) as [Hw2 Hk2]. split; [done|by etrans]. Qed.
Lemma order_trans w w1 w2 : ingestion_order w w1 → ingestion_order w1 w2 → ingestion_order w w2.
Proof. intros [_ Hk] [Hw Hk2]. split; [done|by etrans]. Qed.

Section Run.
Context (provider : option EmbeddingProvider).
Context (Hopen : ∀ f, included knowledge_rel (open_stored_file f)).
Context (Hembed : ∀ ts, included knowledge_rel
  (embed_documents (default get_embedding_provider provider) ts)).

Lemma attempted_status document d w result w1 :
  kd_stored_file document = kd_stored_file d → kd_content_type document = kd_content_type d →
  attempted (default get_embedding_provider provider) document w result w1 →
  attempted (default get_embedding_provider provider) d w result w1.
Proof.
  intros Hf Hc Ha. destruct Ha; rewrite Hf, ?Hc in *; by econstructor.
Qed.

Lemma wp_run_ingestion job_id j d w :
  knowledge_wf w → w_knowledge_jobs w !! job_id = Some j →
  w_knowledge_documents w !! kj_document j = Some d →
  wp (run_ingestion job_id provider) (λ o w', ingestion_order w w' ∧
    (provider_fits (default get_embedding_provider provider) = true →
     ingestion_settled (default get_embedding_provider provider) job_id j d w o w')) w.
Proof.
  intros Hwf Hj Hd. unfold run_ingestion. svc_steps.
  eapply wp_mono; [by apply (wp_claim_job job_id j)|].
  intros ? w1 [Ho (claimed & -> & Hclaim)]. wp_beta. unfold ingestion_settled.
  destruct claimed as [outcome|document].
  { destruct Hclaim as (-> & Hs & Hio & Hac). rewrite bool_decide_eq_true_2 by done.
    svc_steps. split; [done|]. intros _. split; [done|]. exists outcome. by rewrite Hio. }
  destruct Hclaim as (d0 & Hd0 & -> & -> & Hns). simplify_eq. rewrite bool_decide_eq_false_2 by done.
  svc_steps. eapply wp_mono; [by apply (wp_extract_and_embed knowledge_rel)|].
  intros o w2 [Hrel Hatt]. pose proof (order_rel _ _ _ Ho Hrel) as Ho2.
  apply (attempted_status _ d) in Hatt; [|done..].
  destruct (kept_job w w2 job_id j) as [j2 Hj2]; [apply Ho2|done|].
  set (p := default get_embedding_provider provider) in *.
  assert (Hretry : ∀ err, o = inl err → incurable err = false →
    wp (mark_retryable_failure job_id KnowledgeErr.RetryableIngestion;;
      raise (A := IngestionOutcome) (KnowledgeExc KnowledgeErr.RetryableIngestion))
    (λ o w', ingestion_order w w' ∧ (provider_fits p = true → ∃ result w1,
      attempted p d (claimed_world job_id j d w) result w1 ∧
      attempt_settled p job_id result w1 o w')) w2).
  { intros err -> Hp. svc_steps.
    eapply wp_mono; [apply (wp_mark_retryable_failure job_id _ j2); [apply Ho2|done]|].
    intros ? w3 (-> & Ho3 & Hg). wp_beta. svc_steps. split; [by eapply order_trans|]. intros _.
    exists (inl err), w2. split; [done|]. unfold attempt_settled. rewrite Hp. by split. }
  wp_beta. destruct o as [err|r]; [destruct err; try solve [by eapply Hretry]; rename cls into e|].
  - destruct (KnowledgeErr.permanent e) eqn:Hp; [|by eapply Hretry]. svc_steps.
    eapply wp_mono; [apply (wp_mark_failed job_id _ j2); [apply Ho2|done]|].
    intros ? w3 (-> & Ho3 & Hg). wp_beta. svc_steps. split; [by eapply order_trans|]. intros _.
    exists (inl (KnowledgeExc e)), w2. split; [done|]. unfold attempt_settled. simpl.
    rewrite Hp. by exists e.
  - eapply wp_mono; [apply (wp_complete_ingestion _ job_id r j2);
      [by eapply attempted_ok|apply Ho2|done]|].
    intros ? w3 (Ho3 & Hout). split; [by eapply order_trans|]. intros Hp.
    exists (inr r), w2. split; [done|]. destruct (Hout Hp) as (outcome & -> & Hc). by exists outcome.
Qed.
End Run.

(** ** Retrieval *)

(** The order of the database on distances, as one of triples of integers: the infinities
    and a NaN, which comes last, by themselves, numbers by sign, exponent and mantissa. *)
Definition float_key (f : spec_float) : Z * Z * Z :=
  match f with
  | S754_nan => (3, 0, 0)
  | S754_infinity false => (2, 0, 0)
  | S754_finite false m e => (1, e, Zpos m)
  | S754_zero _ => (0, 0, 0)
  | S754_finite true m e => (-1, - e, Zneg m)
  | S754_infinity true => (-2, 0, 0)
  end%Z.
Definition key_lt (a b : Z * Z * Z) : Prop :=
  (a.1.1 < b.1.1 ∨ a.1.1 = b.1.1 ∧ (a.1.2 < b.1.2 ∨ a.1.2 = b.1.2 ∧ a.2 < b.2))%Z.
Lemma sql_float_lt_key a b : sql_float_lt a b = true ↔ key_lt (float_key a) (float_key b).
Proof.
  destruct a as [[]|[]| |[] m e], b as [[]|[]| |[] m' e'];
    cbn -[Z.compare Pos.compare Pos.compare_cont];
    unfold key_lt; cbn; try (split; intros; [try done; lia|try done; lia]).
  all: unfold SFltb, SFcompare; change (Pos.compare_cont Eq m m') with (Pos.compare m m').
  all: destruct (Z.compare_spec e e'); try (split; intros; [done||lia|done||lia]).
  all: destruct (Pos.compare_spec m m'); split; intros; simpl in *; done || lia.
Qed.
Lemma sql_float_lt_false a b : sql_float_lt a b = false ↔ ¬ key_lt (float_key a) (float_key b).
Proof. rewrite <-sql_float_lt_key. by destruct (sql_float_lt a b). Qed.

#[local] Instance nearer_total query : Total (nearer query).
Proof.
  intros x y. unfold nearer. cbn zeta. rewrite !sql_float_lt_key, !sql_float_lt_false.
  unfold key_lt. lia.
Qed.
#[local] Instance nearer_transitive query : Transitive (nearer query).
Proof.
  intros x y z. unfold nearer. cbn zeta. rewrite !sql_float_lt_key, !sql_float_lt_false.
  unfold key_lt. lia.
Qed.

(** The chunk [x] comes before [y] in an answer: it is not farther from the query, and of
    equally far ones it has the smaller document, ordinal or identifier. *)
Record precedes (query : list spec_float) (x y : N * KnowledgeChunk) : Prop := {
  pr_distance : ¬ key_lt (float_key (cosine_distance (kc_embedding y.2) query))
    (float_key (cosine_distance (kc_embedding x.2) query));
  pr_ties : ¬ key_lt (float_key (cosine_distance (kc_embedding x.2) query))
      (float_key (cosine_distance (kc_embedding y.2) query)) →
    (kc_document x.2 < kc_document y.2)%N ∨ kc_document x.2 = kc_document y.2 ∧
    ((kc_ordinal x.2 < kc_ordinal y.2)%N ∨ kc_ordinal x.2 = kc_ordinal y.2 ∧ (x.1 < y.1)%N);
}.
Lemma nearer_precedes query x y : nearer query x y → x.1 ≠ y.1 → precedes query x y.
Proof.
  unfold nearer. cbn zeta. rewrite !sql_float_lt_key, !sql_float_lt_false. unfold key_lt.
  intros Hn Hne. split; unfold key_lt; lia.
Qed.

Lemma strongly_sorted_lookup {A} (R : relation A) l i j x y :
  StronglySorted R l → i < j → l !! i = Some x → l !! j = Some y → R x y.
Proof.
  intros Hs. revert i j. induction Hs as [|z l _ IH Hz]; intros [|i] [|j] Hlt; try done; try lia.
  - simpl. intros [= <-] Hy%list_elem_of_lookup_2. by eapply Forall_forall.
  - simpl. apply IH. lia.
Qed.
Lemma strongly_sorted_sublist {A} (R : relation A) l k :
  sublist k l → StronglySorted R l → StronglySorted R k.
Proof.
  induction 1 as [|x k l Hk IH|x k l Hk IH]; [done|..]; intros [Hx Hl]%StronglySorted_cons.
  - apply StronglySorted_cons. split; [|by apply IH].
    rewrite Forall_forall in Hx |- *. intros y Hy. apply Hx. by eapply elem_of_sublist.
  - by apply IH.
Qed.

Section Search.
Context (workspace : N) (source_ids document_ids : list N) (minimum_score : option spec_float).
Context (vector : list spec_float).

(** An identifier is one of those asked for, if any are. *)
Definition asked_for (i : N) (ids : list N) : Prop := ids = [] ∨ i ∈ ids.
Lemma in_filter_iff i ids : in_filter i ids = true ↔ asked_for i ids.
Proof.
  unfold in_filter, asked_for. destruct ids as [|k ids]; [by split; [left|]|].
  rewrite bool_decide_eq_true. split; [by right|by intros [|]].
Qed.

(** A chunk a search may find, with its document and its source. *)
Record matching (w : World) (row : KnowledgeChunk) (d : KnowledgeDocument) (s : KnowledgeSource)
    : Prop := {
  ma_document : w_knowledge_documents w !! kc_document row = Some d;
  ma_source : w_knowledge_sources w !! kd_source d = Some s;
  ma_workspace : kc_workspace row = workspace ∧ kd_workspace d = workspace;
  ma_ready : kd_status d = KnowledgeDocumentStatus.READY;
  ma_active : kd_is_active d = true ∧ ks_is_active s = true;
  ma_asked : asked_for (kd_source d) source_ids ∧ asked_for (kc_document row) document_ids;
}.

Definition too_low (score : spec_float) : Prop :=
  ∃ m, minimum_score = Some m ∧ SFltb score m = true.
Lemma below_minimum_iff score : below_minimum minimum_score score = true ↔ too_low score.
Proof.
  unfold below_minimum, too_low. destruct minimum_score as [m|]; [|by split; [|intros (? & ? & _)]].
  split; [intros ?; by exists m|by intros (m' & [= <-] & ?)].
Qed.

(** The score for a distance: their sum is one, within minus one and one; a distance that
    is not a number has the best score. *)
Inductive scored (distance : spec_float) : spec_float → Prop :=
  | sc_within : let similarity := SFsub 53 1024 one distance in
      SFltb similarity one = true → SFltb (fneg one) similarity = true → scored distance similarity
  | sc_low : let similarity := SFsub 53 1024 one distance in
      SFltb similarity one = true → SFltb (fneg one) similarity = false → scored distance (fneg one)
  | sc_high : let similarity := SFsub 53 1024 one distance in
      SFltb similarity one = false → scored distance one.
Lemma score_of_scored distance : scored distance (score_of distance).
Proof.
  unfold score_of, py_min, py_max. destruct (SFltb (SFsub 53 1024 one distance) one) eqn:Hhigh.
  - destruct (SFltb (fneg one) (SFsub 53 1024 one distance)) eqn:Hlow; [by apply sc_within|by apply sc_low].
  - by apply sc_high.
Qed.
Lemma scored_is distance score : scored distance score → score = score_of distance.
Proof.
  unfold score_of, py_min, py_max. intros [similarity Hh Hl|similarity Hh Hl|similarity Hh];
    fold similarity; by rewrite Hh, ?Hl.
Qed.

(** A result quotes a chunk that matches. *)
Definition quotes (w : World) (c : RetrievedContext) : Prop :=
  ∃ row d s, w_knowledge_chunks w !! rc_chunk_id c = Some row ∧ matching w row d s ∧
    rc_text c = kc_text row ∧ rc_document_id c = kc_document row ∧
    rc_document_title c = kd_title d ∧ rc_source_id c = kd_source d ∧
    rc_source_name c = ks_name s ∧
    scored (cosine_distance (kc_embedding row) vector) (rc_score c) ∧
    ¬ too_low (rc_score c) ∧
    rc_citation c = {| ct_page_start := kc_page_start row; ct_page_end := kc_page_end row;
                       ct_start_offset := kc_start_offset row;
                       ct_end_offset := kc_end_offset row; ct_chunk_ordinal := kc_ordinal row |}.

Lemma provenance_iff w c d s :
  provenance w c = Some (d, s) ↔
  w_knowledge_documents w !! kc_document c = Some d ∧ w_knowledge_sources w !! kd_source d = Some s.
Proof.
  unfold provenance. split.
  - by intros (d' & Hd & (s' & Hs & [= <- <-])%bind_Some)%bind_Some.
  - intros [Hd Hs]. rewrite Hd. simpl. by rewrite Hs.
Qed.

Lemma matching_provenance w c d s : matching w c d s → provenance w c = Some (d, s).
Proof. intros Hma. apply provenance_iff. split; apply Hma. Qed.

Lemma searchable_iff w i c :
  searchable workspace source_ids document_ids w i c = true ↔ ∃ d s, matching w c d s.
Proof.
  unfold searchable. split.
  - intros [Hw%bool_decide_eq_true Hp]%andb_true_iff.
    destruct (provenance w c) as [[d s]|] eqn:Hpr; [|done]. apply provenance_iff in Hpr as [Hd Hs].
    rewrite !andb_true_iff, !bool_decide_eq_true, !in_filter_iff in Hp.
    destruct Hp as (((((?&?)&?)&?)&?)&?). exists d, s. by split.
  - intros (d & s & [Hd Hs [Hw Hw'] Hr [Ha Ha'] [??]]).
    rewrite (proj2 (provenance_iff w c d s)) by done.
    by rewrite !andb_true_iff, !bool_decide_eq_true, !in_filter_iff.
Qed.

Lemma context_quotes w rank i row c :
  w_knowledge_chunks w !! i = Some row →
  searchable workspace source_ids document_ids w i row = true →
  context_of w vector rank (i, row) = Some c → below_minimum minimum_score (rc_score c) = false →
  quotes w c ∧ rc_rank c = rank ∧ rc_chunk_id c = i.
Proof.
  intros Hrow (d & s & Hma)%searchable_iff Hc Hm.
  unfold context_of in Hc. simpl in Hc.
  rewrite (matching_provenance w row d s Hma) in Hc. simpl in Hc. simplify_eq.
  split; [|done]. exists row, d, s. split_and!; try done; [apply score_of_scored|].
  rewrite <-below_minimum_iff. simpl in Hm |- *. by rewrite Hm.
Qed.

(** The results, in the order of the ranking: those whose score is high enough. *)
Record contexts_ok (w : World) (ranked : list (N * KnowledgeChunk))
    (contexts : list RetrievedContext) : Prop := {
  co_quotes k c : contexts !! k = Some c → rc_rank c = S k ∧ quotes w c;
  co_kept : ∃ kept, sublist kept ranked ∧ map rc_chunk_id contexts = map fst kept ∧
    ∀ x, x ∈ ranked → x ∈ kept ∨
      ∃ score, scored (cosine_distance (kc_embedding x.2) vector) score ∧ too_low score;
}.

Lemma add_contexts_ok w ranked :
  (∀ x, x ∈ ranked → w_knowledge_chunks w !! x.1 = Some x.2 ∧
    searchable workspace source_ids document_ids w x.1 x.2 = true) →
  contexts_ok w ranked (foldl (add_context w vector minimum_score) [] ranked).
Proof.
  induction ranked as [|[i row] ranked IH] using rev_ind; intros Hin.
  { split; [done|]. exists []. split_and!; [done|done|by intros x ?%not_elem_of_nil]. }
  rewrite foldl_snoc. set (contexts := foldl _ _ ranked) in *.
  destruct IH as [Hq (kept & Hsub & Hids & Hall)]; [intros x Hx; apply Hin, elem_of_app; by left|].
  destruct (Hin (i, row)) as [Hrow Hs]; [apply elem_of_app; right; left|]. simpl in Hrow, Hs.
  destruct (proj1 (searchable_iff w i row) Hs) as (d & s & Hma).
  unfold add_context. destruct (context_of w vector _ (i, row)) as [c|] eqn:Hc; [|].
  2: { unfold context_of in Hc. simpl in Hc.
       by rewrite (matching_provenance w row d s Hma) in Hc. }
  destruct (below_minimum minimum_score (rc_score c)) eqn:Hm.
  { split; [done|]. exists kept. split_and!; [by apply sublist_inserts_r|done|].
    intros x [Hx| ->%list_elem_of_singleton]%elem_of_app; [by apply Hall|]. right. simpl.
    unfold context_of in Hc. simpl in Hc.
    rewrite (matching_provenance w row d s Hma) in Hc. simpl in Hc. simplify_eq.
    eexists. split; [apply score_of_scored|]. by apply below_minimum_iff. }
  destruct (context_quotes w _ i row c Hrow Hs Hc Hm) as (Hqc & Hr & Hid). split.
  - intros k c' [Hk|[Hk Hk']]%lookup_app_Some; [by apply Hq|].
    apply list_lookup_singleton_Some in Hk' as [Hk0 <-]. rewrite Hr. split; [|done]. lia.
  - exists (kept ++ [(i, row)]). split_and!.
    + by apply sublist_app.
    + rewrite !map_app, Hids. simpl. by rewrite Hid.
    + intros x [Hx|Hx]%elem_of_app; [destruct (Hall x Hx); [left; apply elem_of_app; by left|by right]|].
      left. apply elem_of_app. by right.
Qed.
End Search.

(** The hits [new] are recorded, and nothing else happens to the knowledge base. *)
Record hits_added (new : list RetrievalHit) (w w' : World) : Prop := {
  ha_jobs : w_knowledge_jobs w' = w_knowledge_jobs w;
  ha_documents : w_knowledge_documents w' = w_knowledge_documents w;
  ha_chunks : w_knowledge_chunks w' = w_knowledge_chunks w;
  ha_sources : w_knowledge_sources w' = w_knowledge_sources w;
  ha_events : w_retrieval_events w' = w_retrieval_events w;
  ha_next : (w_next w <= w_next w')%N;
  ha_kept : w_retrieval_hits w ⊆ w_retrieval_hits w';
  ha_new h row : w_retrieval_hits w' !! h = Some row → w_retrieval_hits w !! h = None →
    (h < w_next w')%N ∧ row ∈ new;
  ha_all row : row ∈ new → ∃ h, w_retrieval_hits w' !! h = Some row;
}.

Lemma wp_create_hits event_id workspace contexts w :
  (∀ h row, w_retrieval_hits w !! h = Some row → (h < w_next w)%N) →
  wp (for_each contexts (λ c, _ ← create_row (new_hit event_id workspace c); mret ()))
    (λ r w', r = inr () ∧ hits_added (map (new_hit event_id workspace) contexts) w w') w.
Proof.
  revert w. induction contexts as [|c contexts IH]; intros w Hb; simpl.
  { apply wp_ret. split; [done|]. split; try done; [congruence|by intros row ?%not_elem_of_nil]. }
  svc_steps. set (row0 := new_hit event_id workspace c). set (w2 := set_rows _ _).
  assert (Hnone : w_retrieval_hits w !! w_next w = None).
  { destruct (w_retrieval_hits w !! w_next w) eqn:Hr; [|done]. apply Hb in Hr. lia. }
  eapply wp_mono; [apply (IH w2)|].
  { intros h row. simpl. intros [[<- <-]|[_ Hr]]%lookup_insert_Some; [lia|]. apply Hb in Hr. lia. }
  intros r w' [Hr [Ej Ed Ec Es Ee Hn Hk Hnew Hall]]. split; [done|].
  change (w_retrieval_hits w2) with (<[w_next w := row0]> (w_retrieval_hits w)) in *.
  change (w_next w2) with (N.succ (w_next w)) in *. split; try done; [lia|..].
  - etrans; [|exact Hk]. by apply insert_subseteq.
  - intros h row Hrow Hn0. destruct (decide (h = w_next w)) as [->|Hne].
    { pose proof (lookup_weaken _ _ (w_next w) row0 (lookup_insert_eq _ _ _) Hk). simplify_eq.
      split; [lia|left]. }
    destruct (Hnew h row Hrow) as [? Hin]; [by rewrite lookup_insert_ne|].
    split; [done|by right].
  - intros row [->|Hin]%elem_of_cons; [|by apply Hall].
    exists (w_next w). eapply lookup_weaken; [apply lookup_insert_eq|exact Hk].
Qed.

Lemma hits_rel event_id workspace contexts w w' :
  (event_id < w_next w)%N →
  (∃ e, w_retrieval_events w !! event_id = Some e ∧ rev_workspace e = workspace) →
  (∀ c, c ∈ contexts → ∃ row, w_knowledge_chunks w !! rc_chunk_id c = Some row ∧
    kc_workspace row = workspace) →
  hits_added (map (new_hit event_id workspace) contexts) w w' → knowledge_rel w w'.
Proof.
  intros He Hev Hc [Ej Ed Ec Es Ee Hn Hk Hnew Hall] [Wj Wk W1 Wd Wc Wo Wh We]. split.
  - split; rewrite ?Ej, ?Ed, ?Ec, ?Ee; [|done|done| | |done| |].
    + intros i j Hi. destruct (Wj i j Hi). split; [lia|]. unfold job_ok. by rewrite Ed.
    + intros i d Hi. destruct (Wd i d Hi) as (? & ? & Hcomp & Hjob). split_and!; [lia|done| |done].
      unfold document_complete. by rewrite Ec.
    + intros c row Hi. destruct (Wc c row Hi). split; [lia|]. unfold chunk_row_ok. by rewrite Ed.
    + intros h row Hi. unfold hit_ok. rewrite Ec, Ee.
      destruct (w_retrieval_hits w !! h) as [row0|] eqn:Hh.
      { pose proof (lookup_weaken _ _ _ _ Hh Hk). simplify_eq.
        destruct (Wh h row Hh) as (? & ? & ?). split; [lia|split; [lia|done]]. }
      destruct (Hnew h row Hi Hh) as [? (c & -> & Hin)%(conj I)%proj2%list_elem_of_fmap].
      simpl. split_and!; [done|lia| |done]. destruct (Hc c Hin) as (r & ? & ?). by exists r.
    + intros i e Hi. specialize (We i e Hi). lia.
  - split; rewrite ?Ej, ?Ed, ?Ec, ?Ee; [| |done| |done|done]; [intros i x Hx; by exists x..|].
    intros h row Hrow. by eapply lookup_weaken.
Qed.

(** The rows a plan for the query reaches. *)
Definition reached (workspace : N) (source_ids document_ids : list N) (vector : list spec_float)
    (top_k : nat) (w : World) (i : N) : Prop :=
  index_reaches (w_knowledge_chunks w) (searchable workspace source_ids document_ids w) vector top_k i
    = true.

(** What a search answers for the vector of its query, [w] being the world its provider
    left. *)
Record search_answer (workspace : N) (query : string) (top_k : nat) (source_ids document_ids : list N)
    (minimum_score : option spec_float) (vector : list spec_float) (result : SearchResult)
    (w w' : World) : Prop := {
  sa_query : sr_query result = str_strip query ∧
    sr_sufficient_context result = negb (List.length (sr_results result) =? 0);
  sa_bound : List.length (sr_results result) ≤ top_k ∧ top_k ≤ KNOWLEDGE_MAX_TOP_K;
  sa_quotes k c : sr_results result !! k = Some c → rc_rank c = S k ∧
    quotes workspace source_ids document_ids minimum_score vector w c;
  sa_distinct : NoDup (map rc_chunk_id (sr_results result));
  sa_sorted k l c c' row row' : k < l →
    sr_results result !! k = Some c → sr_results result !! l = Some c' →
    w_knowledge_chunks w !! rc_chunk_id c = Some row →
    w_knowledge_chunks w !! rc_chunk_id c' = Some row' →
    precedes vector (rc_chunk_id c, row) (rc_chunk_id c', row');
  (** What is reached and matches but is not an answer has too low a score, or [top_k]
      others before it, which are the answers but for those with too low a score. *)
  sa_nearest i row d s : w_knowledge_chunks w !! i = Some row →
    matching workspace source_ids document_ids w row d s →
    reached workspace source_ids document_ids vector top_k w i →
    i ∉ map rc_chunk_id (sr_results result) →
    (∃ score, scored (cosine_distance (kc_embedding row) vector) score ∧
      too_low minimum_score score) ∨
    ∃ first, NoDup (map fst first) ∧ List.length first = top_k ∧
      (∀ x, x ∈ first → w_knowledge_chunks w !! x.1 = Some x.2 ∧ precedes vector x (i, row) ∧
        (x.1 ∈ map rc_chunk_id (sr_results result) ∨
         ∃ score, scored (cosine_distance (kc_embedding x.2) vector) score ∧
           too_low minimum_score score)) ∧
      (∀ k, k ∈ map rc_chunk_id (sr_results result) → k ∈ map fst first);
  sa_event : ∃ event, w_retrieval_events w' !! sr_event_id result = Some event ∧
    rev_workspace event = workspace ∧ rev_query event = str_strip query ∧
    rev_result_count event = N.of_nat (List.length (sr_results result));
  sa_hits row :
    (∃ h, w_retrieval_hits w' !! h = Some row ∧ rh_event row = sr_event_id result) ↔
    ∃ c, c ∈ sr_results result ∧
      row = {| rh_event := sr_event_id result; rh_workspace := workspace;
               rh_chunk := rc_chunk_id c; rh_rank := N.of_nat (rc_rank c); rh_score := rc_score c;
               rh_citation := citation_dict (rc_citation c) |};
}.

Section Ranking.
Context (workspace : N) (source_ids document_ids : list N) (vector : list spec_float) (top_k : nat).
Context (w : World).
Let ranked : list (N * KnowledgeChunk) :=
  ranked_chunks workspace source_ids document_ids vector top_k w.
Let sorted : list (N * KnowledgeChunk) :=
  merge_sort (nearer vector) (reached_chunks workspace source_ids document_ids vector top_k w).

Lemma in_sorted i row :
  (i, row) ∈ sorted ↔ w_knowledge_chunks w !! i = Some row ∧
    searchable workspace source_ids document_ids w i row = true ∧
    reached workspace source_ids document_ids vector top_k w i.
Proof.
  unfold sorted. rewrite (merge_sort_Permutation _ _). unfold reached_chunks.
  rewrite list_elem_of_filter, in_select_rows. simpl. unfold reached. tauto.
Qed.
Lemma sorted_nodup : NoDup (map fst sorted).
Proof.
  unfold sorted. rewrite (merge_sort_Permutation _ _). unfold reached_chunks.
  eapply sublist_NoDup;
    [apply (select_rows_nodup (searchable workspace source_ids document_ids w) w)|].
  exact (fmap_sublist fst _ _ (sublist_filter _ _)).
Qed.
Lemma sorted_precedes a b x y :
  a < b → sorted !! a = Some x → sorted !! b = Some y → precedes vector x y.
Proof.
  intros Hab Hx Hy. apply nearer_precedes.
  - assert (Hs : StronglySorted (nearer vector) sorted) by (apply StronglySorted_merge_sort; apply _).
    by eapply (strongly_sorted_lookup _ _ a b).
  - intros Heq. assert (a = b); [|lia]. eapply (NoDup_lookup _ a b x.1); [apply sorted_nodup|..].
    + apply list_lookup_fmap_Some. by exists x.
    + apply list_lookup_fmap_Some. by exists y.
Qed.
Lemma ranked_sorted : StronglySorted (precedes vector) ranked.
Proof.
  apply (strongly_sorted_sublist _ sorted); [apply sublist_take|].
  assert (Hs : ∀ l, (∀ a b x y, a < b → l !! a = Some x → l !! b = Some y → precedes vector x y) →
    StronglySorted (precedes vector) l); [|apply Hs, sorted_precedes].
  induction l as [|x l IH]; intros Hl; [constructor|]. apply StronglySorted_cons. split.
  - apply Forall_forall. intros y (k & Hy)%list_elem_of_lookup.
    by apply (Hl 0 (S k)); [apply Nat.lt_0_succ| |].
  - apply IH. intros a b y z Hab Hy Hz. by apply (Hl (S a) (S b)); [apply -> Nat.succ_lt_mono| |].
Qed.

Lemma ranked_chunks_in x :
  x ∈ ranked → w_knowledge_chunks w !! x.1 = Some x.2 ∧
  searchable workspace source_ids document_ids w x.1 x.2 = true.
Proof.
  intros Hx%elem_of_take. destruct Hx as (k & Hx%list_elem_of_lookup_2 & _).
  destruct x as [i row]. by apply in_sorted in Hx as (? & ? & _).
Qed.
Lemma ranked_chunks_nodup : NoDup (map fst ranked).
Proof.
  unfold ranked, ranked_chunks. rewrite <-firstn_map.
  eapply sublist_NoDup; [apply sorted_nodup|apply sublist_take].
Qed.
Lemma ranked_chunks_length : List.length ranked ≤ top_k.
Proof. unfold ranked, ranked_chunks. rewrite length_take. lia. Qed.
Lemma ranked_chunks_nearest i row :
  (i, row) ∈ sorted → (i, row) ∈ ranked ∨
  List.length ranked = top_k ∧ ∀ x, x ∈ ranked → precedes vector x (i, row).
Proof.
  intros (b & Hb)%list_elem_of_lookup. pose proof (lookup_lt_Some _ _ _ Hb) as Hl.
  destruct (decide (top_k ≤ b)) as [Hk|Hk]; [right; split|left].
  - unfold ranked, ranked_chunks. rewrite length_take. unfold sorted in Hl. lia.
  - intros x (a & Ha & Hlt)%elem_of_take. eapply (sorted_precedes a b); [lia|done..].
  - apply list_elem_of_lookup. exists b. unfold ranked, ranked_chunks.
    rewrite lookup_take_lt by lia. exact Hb.
Qed.
End Ranking.

Lemma validate_one_vector given validated :
  vectors_of [given] validated → ∃ vector, validated = [vector].
Proof. intros Hv. inversion Hv as [|? v ? vs _ Hnil]; subst. inversion Hnil; subst. by exists v. Qed.

(** The event of a search and its hits. *)
Definition search_event (workspace : N) (actor : option N) (query : string) (top_k : nat)
    (minimum_score : option spec_float) (provider : EmbeddingProvider) (found : nat)
    : RetrievalEvent := {|
  rev_workspace := workspace; rev_actor := actor; rev_query := query;
  rev_embedding_provider := provider_name provider; rev_embedding_model := model_name provider;
  rev_top_k := N.of_nat top_k; rev_minimum_score := minimum_score;
  rev_result_count := N.of_nat found |}.

Lemma recorded_event_rel e w :
  knowledge_wf w →
  let w2 := set_rows (<[w_next w := e]> (w_retrieval_events w)) {| w with w_next := N.succ (w_next w) |} in
  knowledge_wf w2 ∧ knowledge_kept w w2.
Proof.
  intros [Wj Wk W1 Wd Wc Wo Wh We] w2.
  assert (Hnone : w_retrieval_events w !! w_next w = None).
  { destruct (w_retrieval_events w !! w_next w) eqn:Hr; [|done]. apply We in Hr. lia. }
  assert (Hk : ∀ i a, w_retrieval_events w !! i = Some a → w_retrieval_events w2 !! i = Some a).
  { intros i a Hi. simpl. rewrite lookup_insert_ne; [done|]. intros <-. congruence. }
  split; [split|split]; simpl; try done; try lia; try (intros i x Hx; by exists x).
  - intros i j Hi. destruct (Wj i j Hi). split; [lia|done].
  - intros i d Hi. destruct (Wd i d Hi) as (? & ? & ? & ?). split_and!; [lia|done..].
  - intros c row Hi. destruct (Wc c row Hi). split; [lia|done].
  - intros h row Hi. destruct (Wh h row Hi) as (? & ? & Hc & (x & Hx & ?)).
    split; [lia|split; [lia|split; [done|]]]. exists x. split; [by apply Hk|done].
  - intros i a [[<- _]|[_ Hi]]%lookup_insert_Some; [lia|]. specialize (We i a Hi). lia.
Qed.

(** The answers among the ranked chunks. *)
Lemma contexts_answer workspace source_ids document_ids minimum_score vector top_k w :
  let ranked := ranked_chunks workspace source_ids document_ids vector top_k w in
  let contexts := foldl (add_context w vector minimum_score) [] ranked in
  (∀ k c, contexts !! k = Some c → rc_rank c = S k ∧
     quotes workspace source_ids document_ids minimum_score vector w c) ∧
  List.length contexts ≤ top_k ∧ NoDup (map rc_chunk_id contexts) ∧
  (∀ k l c c' row row', k < l → contexts !! k = Some c → contexts !! l = Some c' →
     w_knowledge_chunks w !! rc_chunk_id c = Some row →
     w_knowledge_chunks w !! rc_chunk_id c' = Some row' →
     precedes vector (rc_chunk_id c, row) (rc_chunk_id c', row')) ∧
  ∀ i row d s, w_knowledge_chunks w !! i = Some row →
    matching workspace source_ids document_ids w row d s →
    reached workspace source_ids document_ids vector top_k w i →
    i ∉ map rc_chunk_id contexts →
    (∃ score, scored (cosine_distance (kc_embedding row) vector) score ∧
      too_low minimum_score score) ∨
    ∃ first, NoDup (map fst first) ∧ List.length first = top_k ∧
      (∀ x, x ∈ first → w_knowledge_chunks w !! x.1 = Some x.2 ∧ precedes vector x (i, row) ∧
        (x.1 ∈ map rc_chunk_id contexts ∨
         ∃ score, scored (cosine_distance (kc_embedding x.2) vector) score ∧
           too_low minimum_score score)) ∧
      (∀ k, k ∈ map rc_chunk_id contexts → k ∈ map fst first).
Proof.
  intros ranked contexts.
  pose proof (ranked_chunks_nodup workspace source_ids document_ids vector top_k w) as Hnd.
  pose proof (ranked_chunks_length workspace source_ids document_ids vector top_k w) as Hrl.
  pose proof (ranked_sorted workspace source_ids document_ids vector top_k w) as Hsorted.
  fold ranked in Hnd, Hrl, Hsorted.
  assert (Hin : ∀ x, x ∈ ranked → w_knowledge_chunks w !! x.1 = Some x.2 ∧
    searchable workspace source_ids document_ids w x.1 x.2 = true).
  { intros x Hx. by eapply ranked_chunks_in. }
  destruct (add_contexts_ok workspace source_ids document_ids minimum_score vector w ranked Hin)
    as [Hq (kept & Hsub & Hids & Hall)]. fold contexts in Hq, Hids.
  assert (Hkept : ∀ k c row, contexts !! k = Some c → w_knowledge_chunks w !! rc_chunk_id c = Some row →
    kept !! k = Some (rc_chunk_id c, row)).
  { intros k c row Hk Hrow.
    assert (Hf : map fst kept !! k = Some (rc_chunk_id c)).
    { rewrite <-Hids. apply list_lookup_fmap_Some. by exists c. }
    apply list_lookup_fmap_Some in Hf as ([i row'] & Hi & Hx). simpl in Hi. subst i.
    destruct (Hin (rc_chunk_id c, row')) as [Hrow' _].
    { eapply sublist_subseteq; [exact Hsub|]. by eapply list_elem_of_lookup_2. }
    simpl in Hrow'. rewrite Hx. congruence. }
  split_and!.
  - exact Hq.
  - rewrite <-(length_map rc_chunk_id), Hids, length_map. etrans; [by apply sublist_length|done].
  - rewrite Hids. eapply sublist_NoDup; [exact Hnd|]. by apply fmap_sublist.
  - intros k l c c' row row' Hkl Hk Hl Hrow Hrow'.
    eapply (strongly_sorted_lookup _ kept k l); [by eapply strongly_sorted_sublist|done|by apply Hkept..].
  - intros i row d s Hrow Hma Hreached Hni.
    destruct (ranked_chunks_nearest workspace source_ids document_ids vector top_k w i row)
      as [Hr|[Hlen Hbefore]].
    { apply in_sorted. split_and!; [done| |done]. apply searchable_iff. eauto. }
    { left. destruct (Hall _ Hr) as [Hk|Hlow]; [|exact Hlow]. destruct Hni. rewrite Hids.
      apply list_elem_of_fmap. by exists (i, row). }
    right. exists ranked. split_and!; [done..| |].
    + intros x Hx. split_and!; [by apply Hin|by apply Hbefore|].
      destruct (Hall x Hx) as [Hk|Hlow]; [left|by right]. rewrite Hids. apply list_elem_of_fmap. by exists x.
    + intros k. rewrite Hids. intros (x & -> & Hx)%list_elem_of_fmap. apply list_elem_of_fmap.
      exists x. split; [done|]. by eapply sublist_subseteq.
Qed.

Lemma answered workspace query actor top_k source_ids document_ids minimum_score provider vector
    w w2 w' :
  let ranked := ranked_chunks workspace source_ids document_ids vector top_k w in
  let contexts := foldl (add_context w vector minimum_score) [] ranked in
  knowledge_wf w → top_k ≤ KNOWLEDGE_MAX_TOP_K →
  w2 = set_rows (<[w_next w := search_event workspace actor (str_strip query) top_k minimum_score
    provider (List.length contexts)]> (w_retrieval_events w)) {| w with w_next := N.succ (w_next w) |} →
  hits_added (map (new_hit (w_next w) workspace) contexts) w2 w' →
  ingestion_order w w' ∧
  search_answer workspace query top_k source_ids document_ids minimum_score vector
    {| sr_event_id := w_next w; sr_query := str_strip query; sr_results := contexts;
       sr_sufficient_context := match contexts with [] => false | _ => true end |} w w'.
Proof.
  intros ranked contexts Hwf Hk Hw2 Hadd.
  destruct (contexts_answer workspace source_ids document_ids minimum_score vector top_k w)
    as (Hq & Hlen & Hnd & Hsorted & Hnearest). fold ranked contexts in Hq, Hlen, Hnd, Hsorted, Hnearest.
  destruct (recorded_event_rel (search_event workspace actor (str_strip query) top_k minimum_score
    provider (List.length contexts)) w Hwf) as [Hwf2 Hk2]. rewrite <-Hw2 in Hwf2, Hk2.
  assert (Hchunks : w_knowledge_chunks w2 = w_knowledge_chunks w) by (by rewrite Hw2).
  assert (Hhits : w_retrieval_hits w2 = w_retrieval_hits w) by (by rewrite Hw2).
  assert (Hevent : w_retrieval_events w2 !! w_next w = Some (search_event workspace actor
    (str_strip query) top_k minimum_score provider (List.length contexts))).
  { rewrite Hw2. apply lookup_insert_eq. }
  split; [|split]; simpl.
  - destruct (hits_rel (w_next w) workspace contexts w2 w') as [Hwf' Hk']; try done.
    + rewrite Hw2. simpl. lia.
    + by eexists.
    + intros c (k & Hc)%list_elem_of_lookup. destruct (Hq k c Hc) as [_ (row & d & s & Hrow & Hma & _)].
      rewrite Hchunks. exists row. split; [done|]. apply Hma.
    + split; [done|by etrans].
  - split; [done|]. by destruct contexts.
  - done.
  - done.
  - done.
  - done.
  - done.
  - rewrite (ha_events _ _ _ Hadd), Hevent. by eexists.
  - intros row. split.
    + intros (h & Hh & Hev). destruct (ha_new _ _ _ Hadd h row Hh) as [_ Hin].
      { rewrite Hhits. destruct (w_retrieval_hits w !! h) as [row0|] eqn:Hh0; [|done].
        rewrite <-Hhits in Hh0. pose proof (lookup_weaken _ _ _ _ Hh0 (ha_kept _ _ _ Hadd)).
        rewrite Hhits in Hh0. simplify_eq. destruct (kw_hits w Hwf h row Hh0) as (_ & ? & _). lia. }
      apply list_elem_of_fmap in Hin as (c & -> & Hc). by exists c.
    + intros (c & Hc & ->). destruct (ha_all _ _ _ Hadd (new_hit (w_next w) workspace c)) as [h Hh].
      { apply list_elem_of_fmap. by exists c. }
      by exists h.
Qed.

Section SearchRun.
Context (provider : option EmbeddingProvider).
Context (Hquery : ∀ q, included knowledge_rel
  (embed_query (default get_embedding_provider provider) q)).

Lemma wp_resolve (check : service ()) (Q : exn + () → World → Prop) w :
  (∀ w, (check w).2 = w) → (∀ r, Q r w) → wp check Q w.
Proof. intros Hc HQ. unfold wp. rewrite Hc. apply HQ. Qed.
Lemma for_each_reads {A} (l : list A) (f : A → service ()) :
  (∀ x w, (f x w).2 = w) → ∀ w, (for_each l f w).2 = w.
Proof.
  intros Hf. induction l as [|x l IH]; intros w; [done|]. simpl. specialize (Hf x w).
  unfold mbind, M_bind. destruct (f x w) as [[e|[]] w']; simpl in *; subst; [done|apply IH].
Qed.
Lemma raise_if_reads (b : bool) (e : exn) (w : World) : (raise_if b e w).2 = w.
Proof. by destruct b. Qed.
Lemma resolve_sources_reads workspace ids w : (resolve_sources workspace ids w).2 = w.
Proof. apply for_each_reads. intros i w'. apply raise_if_reads. Qed.
Lemma resolve_documents_reads workspace ids w : (resolve_documents workspace ids w).2 = w.
Proof. apply for_each_reads. intros i w'. apply raise_if_reads. Qed.

Lemma wp_search_knowledge workspace query actor top_k source_ids document_ids minimum_score w :
  knowledge_wf w →
  wp (search_knowledge workspace query actor top_k source_ids document_ids minimum_score provider)
    (λ o w', ingestion_order w w' ∧
      if refused_query (str_strip query) (default KNOWLEDGE_DEFAULT_TOP_K top_k) minimum_score then
        o = inl (KnowledgeExc KnowledgeErr.InvalidRetrievalQuery) ∧ w' = w
      else ∀ result, o = inr result → ∃ given vector w1,
        embed_query (default get_embedding_provider provider) (str_strip query) w = (inr given, w1) ∧
        vectors_of [given] [vector] ∧
        search_answer workspace query (default KNOWLEDGE_DEFAULT_TOP_K top_k) source_ids document_ids
          minimum_score vector result w1 w') w.
Proof.
  intros Hwf. assert (Ho : ingestion_order w w) by (by split).
  unfold search_knowledge. apply wp_bind. unfold raise_if.
  destruct (refused_query _ _ _) eqn:Href; [by apply wp_raise|]. apply wp_ret. wp_beta.
  apply wp_bind, wp_resolve; [apply resolve_sources_reads|]. intros [e|[]]; wp_beta; [by split|].
  apply wp_bind, wp_resolve; [apply resolve_documents_reads|]. intros [e|[]]; wp_beta; [by split|].
  set (q := str_strip query) in *. set (p := default get_embedding_provider provider) in *.
  apply wp_bind. unfold wp. pose proof (Hquery q w Hwf) as Hrel. fold p in Hrel.
  destruct (embed_query p q w) as [[e|vector] w1] eqn:Hembed; simpl in Hrel |- *; wp_beta; [by split|].
  svc_steps. destruct (validate_embeddings [vector] 1 _) as [e|validated] eqn:Hv; wp_beta; [by split|].
  apply validate_embeddings_iff in Hv as [Hv _].
  destruct (validate_one_vector _ _ Hv) as [qv ->]. simpl head. simpl default. svc_steps.
  unfold create_event. svc_steps; [by split|].
  eapply wp_mono; [apply wp_create_hits|].
  { simpl. intros h row Hh. destruct Hrel as [Hwf1 _]. pose proof (kw_hits w1 Hwf1 h row Hh). lia. }
  intros ? w3 [-> Hadd]. wp_beta. svc_steps.
  eapply (answered workspace query actor _ _ _ _ p qv w1 _ w3) in Hadd as [Ho3 Hans];
    [|apply Hrel| |done].
  - split; [by eapply order_trans|]. intros ? [= <-]. by exists vector, qv, w1.
  - unfold refused_query in Href. rewrite !orb_false_iff in Href. destruct Href as [[_ Hk] _].
    apply negb_false_iff, andb_true_iff in Hk as [_ Hk]. by apply Nat.leb_le.
Qed.
End SearchRun.

(** ** The other services *)

(** A new document comes with its job. *)
Lemma uploaded w w' doc job d j :
  knowledge_wf w → (w_next w <= doc)%N → (w_next w <= job)%N →
  w_knowledge_documents w' = <[doc := d]> (w_knowledge_documents w) →
  w_knowledge_jobs w' = <[job := j]> (w_knowledge_jobs w) →
  unique job_clash (w_knowledge_jobs w') → w_knowledge_chunks w' = w_knowledge_chunks w →
  w_retrieval_hits w' = w_retrieval_hits w → w_retrieval_events w' = w_retrieval_events w →
  (doc < w_next w')%N → (job < w_next w')%N →
  kj_document j = doc → kd_workspace d = kj_workspace j →
  kj_status j = KnowledgeIngestionStatus.QUEUED → kd_status d = KnowledgeDocumentStatus.QUEUED →
  job_fits j = true → document_fits d = true →
  knowledge_wf w' ∧ knowledge_kept w w'.
Proof.
  intros [Wj Wk W1 Wd Wc Wo Wh We] Hdoc Hjob Ed Ej Hu Ec Eh Ee Hd Hj Hjd Hws Hjs Hds Hfj Hfd.
  assert (Hold : ∀ i a, w_knowledge_documents w !! i = Some a → i ≠ doc).
  { intros i a Hi. destruct (Wd i a Hi). lia. }
  assert (Holdj : ∀ i a, w_knowledge_jobs w !! i = Some a → i ≠ job ∧ kj_document a ≠ doc).
  { intros i a Hi. destruct (Wj i a Hi) as [? (_ & d' & Hd' & _)].
    split; [lia|by eapply Hold]. }
  assert (Hnew : ∀ i a, w_knowledge_documents w !! i = Some a →
    w_knowledge_documents w' !! i = Some a).
  { intros i a Hi. rewrite Ed, lookup_insert_ne; [done|]. apply not_eq_sym. by eapply Hold. }
  assert (Hnewj : ∀ i a, w_knowledge_jobs w !! i = Some a → w_knowledge_jobs w' !! i = Some a).
  { intros i a Hi. rewrite Ej, lookup_insert_ne; [done|]. apply not_eq_sym. by eapply Holdj. }
  split; [split|split].
  - intros i a. rewrite Ej. intros [[<- <-]|[_ Hi]]%lookup_insert_Some.
    { split; [done|]. split; [done|]. exists d. rewrite Ed, Hjd, Hjs. split; [apply lookup_insert_eq|done]. }
    destruct (Wj i a Hi) as [? (? & d' & Hd' & ?)]. split; [lia|]. split; [done|].
    exists d'. split; [by apply Hnew|done].
  - done.
  - intros i k a b. rewrite Ej.
    intros [[<- <-]|[_ Hi]]%lookup_insert_Some [[<- <-]|[_ Hk]]%lookup_insert_Some Heq; [done|..].
    + destruct (Holdj k b Hk). congruence.
    + destruct (Holdj i a Hi). congruence.
    + by apply (W1 i k a b).
  - intros i a. rewrite Ed. intros [[<- <-]|[_ Hi]]%lookup_insert_Some.
    { split_and!; [done|done|intros Hr; congruence|]. exists job, j. rewrite Ej. by simplify_map_eq. }
    destruct (Wd i a Hi) as (? & ? & Hc & k & b & Hk & ?). split_and!; [lia|done| |].
    { unfold document_complete. by rewrite Ec. }
    exists k, b. split; [by apply Hnewj|done].
  - intros c row. rewrite Ec. intros Hc. destruct (Wc c row Hc) as [? (d' & Hd' & ?)].
    split; [lia|]. exists d'. split; [by apply Hnew|done].
  - by rewrite Ec.
  - intros h row. rewrite Eh. intros Hh. destruct (Wh h row Hh) as (? & ? & ?).
    split_and!; [lia..|]. unfold hit_ok. by rewrite Ec, Ee.
  - intros i e. rewrite Ee. intros Hi. specialize (We i e Hi). lia.
  - intros i a Hi. exists a. split; [by apply Hnewj|done].
  - intros i a Hi. exists a. split; [by apply Hnew|done].
  - by rewrite Ec.
  - by rewrite Eh.
  - by rewrite Ee.
  - lia.
Qed.

Lemma job_clash_sym a b : job_clash a b = job_clash b a.
Proof. apply String.eqb_sym. Qed.

Lemma upload_document_rel workspace source_id source actor title upload metadata :
  included knowledge_rel (upload_document workspace source_id source actor title upload metadata).
Proof.
  apply included_of_wp. intros w. unfold upload_document. apply wp_bind. unfold raise_if at 1.
  destruct (_ || _); [apply wp_raise; wp_beta; reflexivity|]. apply wp_ret. wp_beta.
  apply wp_bind, wp_of_sum. destruct (validate_upload upload) as [e|validated]; wp_beta; [reflexivity|].
  apply wp_atomic, wp_bind, wp_get_now. wp_beta. apply wp_bind, wp_fresh. wp_beta.
  set (w1 := {| w with w_next := _ |}). set (d := new_document _ _ _ _ _ _ _).
  apply wp_bind. unfold save_document. destruct (document_fits d) eqn:Hfd;
    [|apply wp_bind, wp_raise; wp_beta; reflexivity].
  apply wp_bind, wp_ret. wp_beta. apply wp_save_row. wp_beta. set (w2 := set_rows _ w1).
  apply wp_bind, wp_fresh. wp_beta. set (w3 := {| w2 with w_next := _ |}).
  change (w_next w2) with (N.succ (w_next w)) in *. set (j := new_job _ _ _ _).
  apply wp_bind. unfold save_job. destruct (job_fits j) eqn:Hfj;
    [|apply wp_bind, wp_raise; wp_beta; reflexivity].
  apply wp_bind, wp_ret. wp_beta. apply wp_save_unique.
  destruct (clashes job_clash _ j w3) eqn:Hc; wp_beta; [reflexivity|]. set (w4 := set_rows _ w3).
  apply wp_bind, wp_record_event. wp_beta. set (w5 := {| w4 with w_audit := _ |}).
  apply wp_bind, wp_publish. wp_beta. set (w6 := {| w5 with w_published := _ |}). apply wp_ret.
  wp_beta. intros Hwf.
  pose proof (unique_insert job_clash job_clash_sym _ _ w3 (kw_keys w Hwf) Hc) as Hu.
  apply (uploaded w w6 (w_next w) (N.succ (w_next w)) d j); try done; cbn; lia.
Qed.

Lemma included_ordered {A} (m : service A) :
  (∀ w, knowledge_wf w → wp m (λ _ w', ingestion_order w w') w) → included knowledge_rel m.
Proof. intros Hm w Hwf. by apply (Hm w Hwf). Qed.

Lemma retry_document_rel workspace document_id document actor :
  included knowledge_rel (retry_document workspace document_id document actor).
Proof.
  apply included_ordered. intros w Hwf. assert (Ho : ingestion_order w w) by (by split).
  unfold retry_document. apply wp_bind. unfold raise_if at 1.
  destruct (negb _); [by apply wp_raise|]. apply wp_ret. wp_beta.
  apply wp_atomic, wp_bind, wp_get_row. change (rows w) with (w_knowledge_documents w).
  destruct (w_knowledge_documents w !! document_id) as [d|] eqn:Hd; wp_beta; [|done].
  apply wp_bind. destruct (decide (kd_status d = KnowledgeDocumentStatus.FAILED)) as [Hs|Hs];
    [rewrite bool_decide_eq_true_2 by done|rewrite bool_decide_eq_false_2 by done; by apply wp_raise].
  apply wp_ret. wp_beta. apply wp_bind, wp_gets. wp_beta.
  destruct (merge_sort _ _) as [|[job_id j] jobs] eqn:Hjobs; [by apply wp_bind, wp_raise|].
  apply wp_bind, wp_ret. wp_beta. cbn [fst snd].
  assert (w_knowledge_jobs w !! job_id = Some j ∧ kj_document j = document_id) as [Hj <-].
  { assert (Hin : (job_id, j) ∈ (job_id, j) :: jobs) by left.
    rewrite <-Hjobs, (merge_sort_Permutation _ _) in Hin.
    by apply in_select_rows in Hin as [? Hdoc%bool_decide_eq_true]. }
  destruct (kw_jobs w Hwf _ _ Hj) as [_ (Hjf & d' & Hd' & _ & Hs')].
  destruct (kw_documents w Hwf _ _ Hd) as (_ & Hdf & _).
  apply wp_bind, (wp_save_job_kept job_id j _ w); [done|done|done|done|row_fits|]. wp_beta.
  set (w1 := {| w with w_knowledge_jobs := _ |}).
  apply wp_bind, wp_save_document_kept; [row_fits|]. wp_beta.
  set (w2 := {| w1 with w_knowledge_documents := _ |}).
  apply wp_bind, wp_record_event. wp_beta. set (w3 := {| w2 with w_audit := _ |}).
  apply wp_bind, wp_publish. wp_beta. set (w4 := {| w3 with w_published := _ |}). apply wp_ret.
  wp_beta. eapply (moved w w4 job_id j d); try done; try apply N.le_refl; try row_fits.
  apply bool_decide_eq_false. intros Hjs. rewrite Hd in Hd'. simplify_eq.
  by rewrite Hs, Hjs in Hs'.
Qed.

(** What touches no table of the knowledge base. *)
Lemma modify_frame_rel f : (∀ w, knowledge_frame w (f w)) → included knowledge_rel (modify (E := exn) f).
Proof. intros Hf w. apply frame_rel, Hf. Qed.
Lemma knowledge_fresh_rel : included knowledge_rel fresh.
Proof. intros w. apply frame_rel. split_and!; try done. simpl. lia. Qed.
Lemma knowledge_record_event_rel a tt ti ac ws md :
  included knowledge_rel (record_event a tt ti ac ws md).
Proof. apply modify_frame_rel. intros w. by split_and!. Qed.
Lemma knowledge_publish_rel t : included knowledge_rel (publish t).
Proof. apply modify_frame_rel. intros w. by split_and!. Qed.
Lemma save_source_rel i s : included knowledge_rel (save_source i s).
Proof.
  unfold save_source. included_steps. apply modify_frame_rel. intros w.
  by split_and!.
Qed.
#[local] Hint Resolve knowledge_fresh_rel knowledge_record_event_rel knowledge_publish_rel
  save_source_rel : included.

Lemma create_source_rel workspace actor name data :
  included knowledge_rel (create_source workspace actor name data).
Proof. unfold create_source. included_steps. Qed.
Lemma update_source_rel workspace source_id source actor data :
  included knowledge_rel (update_source workspace source_id source actor data).
Proof. unfold update_source. included_steps. Qed.
Lemma recover_stuck_rel batch_size now :
  included knowledge_rel (recover_stuck_ingestion_jobs batch_size now).
Proof.
  unfold recover_stuck_ingestion_jobs, dispatch_ingestion, or_now, get_now. included_steps.
Qed.

Lemma run_ingestion_rel job_id provider :
  (∀ f, included knowledge_rel (open_stored_file f)) →
  (∀ ts, included knowledge_rel (embed_documents (default get_embedding_provider provider) ts)) →
  included knowledge_rel (run_ingestion job_id provider).
Proof.
  intros Hopen Hembed. apply included_ordered. intros w Hwf.
  destruct (w_knowledge_jobs w !! job_id) as [j|] eqn:Hj.
  - destruct (kw_jobs w Hwf _ _ Hj) as [_ (_ & d & Hd & _)].
    eapply wp_mono; [by apply (wp_run_ingestion provider Hopen Hembed job_id j d)|]. by intros r w' [].
  - unfold run_ingestion, claim_job, lock_job. svc_steps; cbn in *; simplify_eq. by split.
Qed.

Lemma fail_ingestion_rel job_id error : included knowledge_rel (fail_ingestion job_id error).
Proof. apply mark_failed_rel. Qed.

Lemma ingest_task_rel job_id :
  (∀ f, included knowledge_rel (open_stored_file f)) →
  included knowledge_rel (ingest_knowledge_document_task job_id).
Proof.
  intros Hopen. unfold ingest_knowledge_document_task, ingestion_attempt_count, get_row, find_row.
  apply included_bind; [apply _| |].
  { apply included_attempt, run_ingestion_rel; [done|]. intros ts. simpl. included_steps. }
  intros r. pose proof (fail_ingestion_rel job_id KnowledgeErr.RetryableIngestion). included_steps; done.
Qed.

Lemma search_rel workspace query actor top_k source_ids document_ids minimum_score provider :
  (∀ q, included knowledge_rel (embed_query (default get_embedding_provider provider) q)) →
  included knowledge_rel
    (search_knowledge workspace query actor top_k source_ids document_ids minimum_score provider).
Proof.
  intros Hq. apply included_ordered. intros w Hwf.
  eapply wp_mono; [by apply wp_search_knowledge|]. by intros r w' [].
Qed.

(** ** The guarantees *)

(** What may happen to a knowledge base: the services, whose storage and embedding
    provider may let other workers act in the same way, and the passing of time. *)
Inductive knowledge_op : relation World :=
  | op_create_source ws actor name data w :
      knowledge_op w (create_source ws actor name data w).2
  | op_update_source ws i source actor data w :
      knowledge_op w (update_source ws i source actor data w).2
  | op_upload ws i source actor title upload md w :
      knowledge_op w (upload_document ws i source actor title upload md w).2
  | op_retry ws i document actor w : knowledge_op w (retry_document ws i document actor w).2
  | op_run i provider w :
      (∀ ts, included knowledge_rel (embed_documents (default get_embedding_provider provider) ts)) →
      knowledge_op w (run_ingestion i provider w).2
  | op_mark_retryable i e w : knowledge_op w (mark_retryable_failure i e w).2
  | op_fail i e w : knowledge_op w (fail_ingestion i e w).2
  | op_task i w : knowledge_op w (ingest_knowledge_document_task i w).2
  | op_recover_stuck batch now w : knowledge_op w (recover_stuck_ingestion_jobs batch now w).2
  | op_search ws query actor top_k sources documents minimum provider w :
      (∀ q, included knowledge_rel (embed_query (default get_embedding_provider provider) q)) →
      knowledge_op w
        (search_knowledge ws query actor top_k sources documents minimum provider w).2
  | op_clock t w : knowledge_op w {| w with w_now := t |}.

Section Guarantees.
Context (Hopen : ∀ f, included knowledge_rel (open_stored_file f)).

Lemma knowledge_op_rel w w' : knowledge_op w w' → knowledge_rel w w'.
Proof.
  intros Hop. destruct Hop.
  - apply create_source_rel.
  - apply update_source_rel.
  - apply upload_document_rel.
  - apply retry_document_rel.
  - by apply run_ingestion_rel.
  - apply mark_retryable_failure_rel.
  - apply fail_ingestion_rel.
  - by apply ingest_task_rel.
  - apply recover_stuck_rel.
  - by apply search_rel.
  - apply frame_rel. by split_and!.
Qed.

(** C24. The knowledge base stays in order.  Along any sequence of its operations: a job
    and its document agree on where the ingestion stands, and each document has one job;
    a chunk belongs to a ready document of its workspace; a ready document has exactly
    its [chunk_count] chunks, numbered from zero, with embeddings of the configured
    dimension; a hit quotes a chunk of its own workspace, for a search made in it.  No row
    is ever lost, a job that has succeeded and a document that is ready do not change any
    more, and no chunk, recorded search or hit changes or disappears, so that what a
    citation points to stays there. *)
Theorem knowledge_base_in_order w w' :
  rtc knowledge_op w w' → knowledge_wf w → knowledge_wf w' ∧ knowledge_kept w w'.
Proof.
  intros Hops. assert (Hrel : knowledge_rel w w'); [|exact Hrel].
  induction Hops as [|w1 w2 w3 Hop _ IH]; [reflexivity|]. etrans; [by apply knowledge_op_rel|done].
Qed.


(** The background task never raises for a job that exists, and asks to be run again
    only while attempts are left: when it does, the task is published once more and the
    job is queued, or completed by another worker; otherwise it reports a status other
    than being processed, which the job has unless another worker has completed it. *)
Theorem ingestion_task_settles job_id j w :
  knowledge_wf w → w_knowledge_jobs w !! job_id = Some j →
  let (o, w') := ingest_knowledge_document_task job_id w in
  ∃ j', w_knowledge_jobs w' !! job_id = Some j' ∧
  match o with
  | inr (Some status) => status ≠ KnowledgeIngestionStatus.PROCESSING ∧
      (kj_status j' = status ∨ kj_status j' = KnowledgeIngestionStatus.SUCCEEDED)
  | inr None => (kj_attempt_count j' < KNOWLEDGE_INGESTION_MAX_ATTEMPTS)%N ∧
      last (w_published w') = Some (ingest_knowledge_document job_id) ∧
      (kj_status j' = KnowledgeIngestionStatus.QUEUED ∨
       kj_status j' = KnowledgeIngestionStatus.SUCCEEDED)
  | inl _ => False
  end.
Proof.
  intros Hwf Hj. destruct (kw_jobs w Hwf _ _ Hj) as [_ (_ & d & Hd & _)].
  destruct (ingest_knowledge_document_task job_id w) as [o w'] eqn:Ht.
  revert Ht. apply (wp_run (ingest_knowledge_document_task job_id) w o w' (λ o w', ∃ j', _)).
  unfold ingest_knowledge_document_task. svc_steps.
  assert (Hembed : ∀ ts, included knowledge_rel
    (embed_documents (default get_embedding_provider None) ts)) by (intros ts; apply included_ret, _).
  eapply wp_mono; [apply (wp_run_ingestion None Hopen Hembed job_id j d w Hwf Hj Hd)|].
  intros o1 w1 [[Hwf1 Hk1] Hset]. specialize (Hset eq_refl). apply settled_job in Hset; [|done]. wp_beta.
  destruct o1 as [e|outcome]; simpl in Hset.
  - destruct Hset as (-> & j1 & Hj1 & Hst). unfold ingestion_attempt_count. svc_steps; cbn in *; simplify_eq.
    + unfold fail_ingestion.
      eapply wp_mono; [by apply (wp_mark_failed job_id _ j1)|].
      intros ? w2 (-> & _ & j2 & Hj2 & Hst2). wp_beta. svc_steps. exists j2.
      split; [done|]. split; [done|]. destruct Hst2 as [?|(? & _)]; [by right|by left].
    + apply N.leb_gt in Heqb. exists j1. split; [done|]. split; [done|].
      split; [by rewrite last_snoc|]. destruct Hst as [?|(? & _)]; [by right|by left].
  - destruct Hset as (j1 & Hj1 & Hs & Hp). svc_steps. by exists j1.
Qed.

(** C29. A search refuses a query or a limit out of range without a trace.  Otherwise it
    answers from the workspace alone, for the vector the provider returned for the query:
    at most [top_k] distinct chunks of ready, active documents of active sources, within
    the sources and documents asked for, each quoted with its text, its provenance and its
    score, none below the minimum score; they are numbered from one and ordered by
    distance, nearest first, then document, ordinal and identifier; and a matching chunk
    that the database's plan reaches and that is not an answer has too low a score or
    comes after [top_k] others, the answers among them.  The search and exactly these
    hits are recorded. *)
Theorem search_knowledge_answers workspace query actor top_k source_ids document_ids minimum_score
    provider w o w' :
  (∀ q, included knowledge_rel (embed_query (default get_embedding_provider provider) q)) →
  knowledge_wf w →
  search_knowledge workspace query actor top_k source_ids document_ids minimum_score provider w
    = (o, w') →
  if refused_query (str_strip query) (default KNOWLEDGE_DEFAULT_TOP_K top_k) minimum_score then
    o = inl (KnowledgeExc KnowledgeErr.InvalidRetrievalQuery) ∧ w' = w
  else ∀ result, o = inr result → ∃ given vector w1,
    embed_query (default get_embedding_provider provider) (str_strip query) w = (inr given, w1) ∧
    vectors_of [given] [vector] ∧
    search_answer workspace query (default KNOWLEDGE_DEFAULT_TOP_K top_k) source_ids document_ids
      minimum_score vector result w1 w'.
Proof.
  intros Hq Hwf. apply (wp_run (search_knowledge _ _ _ _ _ _ _ _) w o w'
    (λ o w', if refused_query _ _ _ then _ else _)).
  eapply wp_mono; [by apply wp_search_knowledge|]. intros o1 w1 [_ Ha].
  by destruct (refused_query _ _ _).
Qed.
End Guarantees.
End Ingestion.

(** ** Examples *)

Module KnowledgeExamples.
#[local] Instance settings : Settings :=
  let s := default_settings in
  {| s with KNOWLEDGE_EMBEDDING_DIMENSION := 4; KNOWLEDGE_MIN_CHUNK_CHARS := 5 |}.
#[local] Existing Instance GraphExamples.text_encoding.
#[local] Instance unicode : UnicodeLib := {| nfc s := s; decode_utf8_sig := Some |}.
#[local] Instance storage : Documents :=
  {| pdf_reader _ := inl PdfReadError; open_stored_file content := mret content |}.
#[local] Instance digest : TokenDigest :=
  {| sha256_digest token := map (λ c, N_of_ascii c) (list_ascii_of_string token) ++ replicate 16 1%N |}.
#[local] Instance distance : VectorDatabase :=
  {| cosine_distance a b := match a with f :: _ => f | [] => zero end;
     index_reaches chunks wanted query top_k i := true |}.

Lemma storage_allowed f : included knowledge_rel (open_stored_file f).
Proof. apply included_ret, _. Qed.
Lemma default_query_world q w : (embed_query (default get_embedding_provider None) q w).2 = w.
Proof. reflexivity. Qed.
Lemma default_queries q : included knowledge_rel (embed_query (default get_embedding_provider None) q).
Proof. apply included_ret, _. Qed.

(** An empty knowledge base, in a world where ten identifiers have been used. *)
Definition start : World := {| empty_world with w_next := 10 |}.
Lemma start_wf : knowledge_wf start.
Proof. split; intros *; cbn; rewrite ?lookup_empty; try done. Qed.

Definition help : KnowledgeSource := {|
  ks_workspace := 1; ks_name := "Help"; ks_description := "";
  ks_source_type := KnowledgeSourceType.UPLOAD; ks_is_active := true; ks_metadata := JObj [] |}.
Definition no_data : SourceData := {|
  sd_name := None; sd_description := None; sd_source_type := None; sd_metadata := None;
  sd_is_active := None |}.
Definition returns : UploadedFile := {|
  uf_name := "returns.txt"; uf_size := Some 33%N; uf_content_type := "text/plain";
  uf_content := "Returns are free for thirty days." |}.

(** A source, a document, its ingestion and a search. *)
Definition with_source : World := (create_source 1 2 "Help" no_data start).2.
Definition uploaded_world : World :=
  (upload_document 1 10 help 2 "Returns" returns None with_source).2.
Definition ingested_world : World := (ingest_knowledge_document_task 12 uploaded_world).2.
Definition answer : exn + SearchResult :=
  (search_knowledge 1 "returns" None None [] [] None None ingested_world).1.
Definition searched_world : World :=
  (search_knowledge 1 "returns" None None [] [] None None ingested_world).2.

Lemma uploaded_wf : knowledge_wf uploaded_world.
Proof.
  apply (upload_document_rel 1 10 help 2 "Returns" returns None with_source).
  apply (create_source_rel 1 2 "Help" no_data start), start_wf.
Qed.
Lemma ingested_wf : knowledge_wf ingested_world.
Proof. apply (ingest_task_rel 12 storage_allowed uploaded_world), uploaded_wf. Qed.

Lemma knowledge_base_in_order_witness :
  knowledge_wf searched_world ∧
  kd_status <$> w_knowledge_documents searched_world !! 11%N = Some KnowledgeDocumentStatus.READY ∧
  map (λ kv, kc_text kv.2) (map_to_list (w_knowledge_chunks searched_world))
    = ["Returns are free for thirty days."].
Proof.
  assert (Hops : rtc knowledge_op uploaded_world searched_world).
  { eapply rtc_l; [exact (op_task 12 uploaded_world)|]. apply rtc_once.
    exact (op_search 1 "returns" None None [] [] None None ingested_world default_queries). }
  split; [|vm_compute; split; reflexivity].
  exact (proj1 (knowledge_base_in_order storage_allowed _ _ Hops uploaded_wf)).
Defined.

Definition the_job : KnowledgeIngestionJob :=
  new_job 1 11 (sha256_hexdigest "Returns are free for thirty days.") 1000000000.


Lemma ingestion_task_settles_witness :
  ∃ j', w_knowledge_jobs ingested_world !! 12%N = Some j' ∧
    (kj_status j' = KnowledgeIngestionStatus.SUCCEEDED ∨
     kj_status j' = KnowledgeIngestionStatus.SUCCEEDED).
Proof.
  pose proof (ingestion_task_settles storage_allowed 12 the_job uploaded_world uploaded_wf
    ltac:(vm_compute; reflexivity)) as Hset.
  assert (Ho : (ingest_knowledge_document_task 12 uploaded_world).1
    = inr (Some KnowledgeIngestionStatus.SUCCEEDED)) by (vm_compute; reflexivity).
  unfold ingested_world. destruct (ingest_knowledge_document_task 12 uploaded_world) as [o w'].
  simpl in Ho |- *. rewrite Ho in Hset. destruct Hset as (j' & Hj' & _ & Hs). by exists j'.
Defined.

Lemma search_knowledge_answers_witness :
  match answer with
  | inr result => map rc_text (sr_results result) = ["Returns are free for thirty days."] ∧
      ∃ vector, search_answer 1 "returns" 5 [] [] None vector result ingested_world searched_world
  | inl _ => False
  end.
Proof.
  pose proof (search_knowledge_answers 1 "returns" None None [] [] None None ingested_world answer searched_world
    default_queries ingested_wf) as Hs.
  assert (Ha : match answer with
    | inr result => map rc_text (sr_results result) = ["Returns are free for thirty days."]
    | inl _ => False end) by (vm_compute; reflexivity).
  assert (Hq : refused_query (str_strip "returns") 5 None = false) by (vm_compute; reflexivity).
  specialize (Hs ltac:(unfold answer, searched_world;
    by destruct (search_knowledge 1 "returns" None None [] [] None None ingested_world))).
  change (default KNOWLEDGE_DEFAULT_TOP_K None) with 5 in Hs. rewrite Hq in Hs.
  destruct answer as [e|result]; [done|]. split; [exact Ha|].
  destruct (Hs result eq_refl) as (given & vector & w1 & Hw & _ & Hans). exists vector.
  pose proof (default_query_world (str_strip "returns") ingested_world) as Hsame. rewrite Hw in Hsame.
  simpl in Hsame. subst w1. exact Hans.
Defined.

(** The distance of a vector that is zero is a NaN, which the bounds turn into the best
    score. *)
Example nan_scores_best : score_of S754_nan = one.
Proof. reflexivity. Qed.

(** A query without a token has such a vector. *)
Example no_token_no_direction : hash_embed 4 "?!" = [zero; zero; zero; zero].
Proof. vm_compute. reflexivity. Qed.
End KnowledgeExamples.
