(* ===== verification/AgentFrame.v ===== *)
(** * What the services of an agent leave alone

    The evaluations and the channels call the services of customers, conversations
    and agents, whose writes stay out of the tables of the evaluations and of the
    channels.  [Within R]: the relation [R] allows everything that keeps those tables;
    every service below then moves the world along [R], provided its provider and its
    handlers do. *)

From stdpp Require Import base gmap strings list pretty sorting relations.
From Stdlib Require Import ZArith Lia.
From S2P Require Import Prelude Json Domain Policy Models Store PolicyAdmin Delivery Network Webhooks Approvals ToolExec ToolSafety Graph Workspaces Conversations Tickets AgentRuns AgentSafety AgentOutcomes Chunking Knowledge KnowledgeSafety AgentContext.

#[local] Open Scope nat_scope.

(** The tables; the objects of the workers' processes are none of them. *)
Definition tables_of (o : Outer) : Outer := {| o with o_provider_calls := ∅ |}.

Definition outer_frame : relation World := λ w w',
  tables_of (w_outer w') = tables_of (w_outer w) ∧ (w_next w <= w_next w')%N.
#[export] Instance outer_frame_preorder : PreOrder outer_frame.
Proof.
  split; [by intros w; split|]. intros w1 w2 w3 (?&?) (?&?). split; [congruence|lia].
Qed.

Class Within (R : relation World) := {
  within_preorder :: PreOrder R;
  within_sub w w' : outer_frame w w' → R w w';
}.
#[export] Instance outer_frame_within : Within outer_frame.
Proof. by split; [apply _|]. Qed.
#[export] Instance within_core R `{!Within R} : Core R.
Proof.
  split; [apply _|]. intros w w' (_ & _ & Ho & Hn). apply within_sub. split; [by rewrite Ho|done].
Qed.

(** A table outside of the evaluations and the channels. *)
Class Inner (A : Type) `{Table A} := set_rows_inner m w : outer_frame w (set_rows m w).
Ltac inner_table := intros m w; split; [reflexivity|simpl; lia].
#[export] Instance inner_runs : Inner AgentRun. Proof. inner_table. Qed.
#[export] Instance inner_messages : Inner Message. Proof. inner_table. Qed.
#[export] Instance inner_conversations : Inner Conversation. Proof. inner_table. Qed.
#[export] Instance inner_customers : Inner Customer. Proof. inner_table. Qed.

Section Within.
Context (R : relation World) `{!Within R}.

Lemma within_save_row {A} `{Inner A} i r : included R (save_row (A := A) i r).
Proof. intros w. apply within_sub, set_rows_inner. Qed.
Lemma within_create_row {A} `{Inner A} r : included R (create_row (A := A) r).
Proof. unfold create_row. core_step; [core_steps|]. core_step; [apply within_save_row|core_steps]. Qed.
Lemma within_save_unique {A} `{Inner A} clash i r : included R (save_unique (A := A) clash i r).
Proof.
  unfold save_unique. core_step; [core_steps|]. core_step; [core_steps|]. apply within_save_row.
Qed.
Lemma within_save_fields {A} `{Inner A} i f : included R (save_fields (A := A) i f).
Proof. unfold save_fields. core_step; [core_steps|apply within_save_row]. Qed.
End Within.

#[export] Hint Resolve within_save_row within_create_row within_save_unique within_save_fields
  : core_frame.

(** ** Customers, conversations and the start of a run *)

Section Within.
Context `{Settings} `{PyLib} `{Network} `{Encoding} `{TextEncoding} `{Providers}.
Context (R : relation World) `{!Within R}.

Lemma within_create_customer ws data : included R (create_customer ws data).
Proof. unfold create_customer, as_conflict, save_customer. core_steps. Qed.

Lemma within_create_conversation ws i c channel subject external_id metadata :
  included R (create_conversation ws i c channel subject external_id metadata).
Proof. unfold create_conversation. core_steps. Qed.

Lemma within_create_message ws i c type direction body sender external_id metadata :
  included R (create_message ws i c type direction body sender external_id metadata).
Proof. unfold create_message. core_steps. Qed.
Hint Resolve within_create_message : core_frame.

Lemma within_save_run i r : included R (save_run i r).
Proof. unfold save_run. core_steps. Qed.
Hint Resolve within_save_run : core_frame.

Lemma within_insert_run r : included R (insert_run r).
Proof. unfold insert_run. core_steps. Qed.
Hint Resolve within_insert_run : core_frame.

Lemma within_create_agent_run ws vid v actor message trigger conv ticket trig md rid :
  included R (create_agent_run ws vid v actor message trigger conv ticket trig md rid).
Proof. unfold create_agent_run, dispatch_run. core_steps. Qed.

Lemma within_claim_agent_run i : included R (claim_agent_run i).
Proof. unfold claim_agent_run. core_steps. Qed.

(** ** The execution of a run *)

Lemma within_finish_failed i status code message result :
  included R (finish_failed i status code message result).
Proof. unfold finish_failed. core_steps. Qed.
Hint Resolve within_finish_failed : core_frame.
Lemma within_fail_run i code message result : included R (fail_run i code message result).
Proof. unfold fail_run. apply within_finish_failed. Qed.
Hint Resolve within_fail_run : core_frame.

Lemma within_pause i result : included R (pause_run_for_approval i result).
Proof. unfold pause_run_for_approval. core_steps. Qed.

Lemma within_output i locked conversation body md :
  included R (output_of i locked conversation body md).
Proof. unfold output_of, create_ai_agent_message. core_steps. Qed.
Hint Resolve within_output : core_frame.

Lemma within_complete i result md : included R (complete_run i result md).
Proof. unfold complete_run, load_conversation, route_response. core_steps. Qed.

Lemma within_complete_as_handoff i result request :
  included R (complete_run_as_handoff i result request).
Proof. unfold complete_run_as_handoff, load_conversation, load_ticket, route_response. core_steps. Qed.
Hint Resolve within_pause within_complete within_complete_as_handoff : core_frame.

Lemma within_conclude i run result md : included R (conclude i run result md).
Proof.
  unfold conclude, budget_exceeded_run, fail_or_handoff, handoff_for_runtime_failure. core_steps.
Qed.
Hint Resolve within_conclude : core_frame.

Context (tool_registry : Registry).
Context (handlers_included : ∀ key tool context arguments, tool_registry key = Some tool →
  included R (handler tool context arguments)).

Lemma within_reserve_slot i m : included R (reserve_budget_slot i m).
Proof. unfold reserve_budget_slot. core_steps. Qed.

Lemma within_bound_tool i run name arguments key :
  included R (bound_execute_tool tool_registry i run name arguments key).
Proof.
  unfold bound_execute_tool. core_step; [|unfold tool_outcome; core_steps].
  apply included_attempt. apply core_execute_tool; [apply _| |exact handlers_included|].
  - intros. apply core_record_step, _.
  - apply within_reserve_slot.
Qed.

Lemma within_get_descriptors vid v ws :
  included R (get_bound_tool_descriptors tool_registry vid v ws).
Proof.
  unfold get_bound_tool_descriptors. core_steps.
  match goal with |- included _ (bound_descriptors _ ?l) => induction l as [|b l IH] end; simpl;
    unfold bound_descriptor; core_steps.
Qed.

Lemma within_execute_with i run v p messages descriptors md :
  (∀ request, included R (p request)) →
  included R (execute_with tool_registry i run v p messages descriptors md).
Proof.
  intros Hp. unfold execute_with, internal_failure, current_status. core_steps.
  apply invoke_included; [apply _|]. split; simpl.
  - exact Hp.
  - intros. apply core_record_step, _.
  - intros f k a1 n [= <-]. apply within_bound_tool.
  - apply included_gets, _.
Qed.

(** The execution with a provider of the caller's. *)
Lemma within_execute_claimed i run messages md descriptors p :
  (∀ request, included R (p request)) →
  included R (execute_claimed_agent_run tool_registry i run messages md descriptors (Some p)).
Proof.
  intros Hp. unfold execute_claimed_agent_run, descriptors_for. core_step; [core_step|].
  core_step; [core_steps; apply within_get_descriptors|].
  destruct a0 as [d|]; [|core_steps]. by apply within_execute_with.
Qed.
End Within.
