(* ===== verification/Scoring.v ===== *)
(** * Evaluation cases: their schemas, their fake provider and their score

    [evaluations/schemas.py], [evaluations/providers.py] with
    [agents/providers/fake.py], and [evaluations/scoring.py].  What pydantic makes of
    a document is a parameter; a fake provider is an object of the worker's process,
    whose count of calls lives in the world. *)

From stdpp Require Import base gmap strings list pretty sorting.
From Stdlib Require Import ZArith QArith SpecFloat Ascii String Lia.
From S2P Require Import Prelude Json Decimals Domain Policy Models Store Graph AgentRuns.

#[local] Close Scope Q_scope.
#[local] Open Scope nat_scope.

(** [bool(v)]. *)
Definition py_bool (v : json) : bool :=
  match v with
  | JNull => false
  | JBool b => b
  | JInt z => negb (z =? 0)%Z
  | JFloat f => negb (SFeqb f (S754_zero false))
  | JStr s => negb (String.eqb s "")
  | JList l => match l with [] => false | _ => true end
  | JObj l => match l with [] => false | _ => true end
  end.

(** [sorted] on texts. *)
Definition text_le (a b : string) : Prop := String.leb a b = true.
#[export] Instance text_le_dec a b : Decision (text_le a b).
Proof. unfold text_le. apply _. Defined.
Definition sorted_texts (l : list string) : list string := merge_sort text_le l.

(** ** Expectations ([evaluations/schemas.py]) *)

Module ApprovalBehavior.
Inductive t := NOT_REQUIRED | REQUIRED | APPROVED_PATH | REJECTED_PATH | HANDOFF_EXPECTED.
#[global] Instance eq_dec : EqDecision t. Proof. solve_decision. Defined.
End ApprovalBehavior.

Module OutcomeAssertionType.
Inductive t :=
  | RUN_TERMINAL_STATE_EQUALS | HANDOFF_CREATED | APPROVAL_CREATED | TOOL_SUCCEEDED
  | TOOL_NOT_EXECUTED | RESPONSE_CONTAINS_CITATION.
#[global] Instance eq_dec : EqDecision t. Proof. solve_decision. Defined.
Definition value (t : t) : string :=
  match t with
  | RUN_TERMINAL_STATE_EQUALS => "run_terminal_state_equals"
  | HANDOFF_CREATED => "handoff_created" | APPROVAL_CREATED => "approval_created"
  | TOOL_SUCCEEDED => "tool_succeeded" | TOOL_NOT_EXECUTED => "tool_not_executed"
  | RESPONSE_CONTAINS_CITATION => "response_contains_citation"
  end.
End OutcomeAssertionType.

Record OutcomeAssertion := {
  oa_type : OutcomeAssertionType.t;
  oa_value : option string;
  oa_tool : option string;
}.

(** The fields a service reads. *)
Record EvaluationCaseExpectations := {
  ex_allowed_tools : list string;
  ex_forbidden_tools : list string;
  ex_required_tool_sequence : option (list string);
  ex_acceptable_tool_sequences : option (list (list string));
  ex_approval_behavior : option ApprovalBehavior.t;
  ex_outcome_assertions : list OutcomeAssertion;
}.

(** Pydantic's [model_validate] and [model_dump(mode="json")] on the two models, the
    text of its error, and [str] of a decimal. *)
Class EvaluationSchemas := {
  validate_expectations : json → string + EvaluationCaseExpectations;
  validate_case_expectations : json → string + json;
  validate_seeded_context : json → string + json;
  decimal_str : Q → string;
  (** [dict(v)] of a value that is not an object *)
  py_dict : json → exn + list (string * json);
  (** what the runtime makes of a scenario whose fields have other types than
      [FakeLLMScenario] declares *)
  untyped_answer : list (string * json) → Provider;
}.

(** Dumping a validated document and validating the dump gives the document. *)
Definition dumps_validate `{EvaluationSchemas} : Prop :=
  ∀ data dumped, validate_case_expectations data = inr dumped →
    ∃ e, validate_expectations dumped = inr e.

(** ** Scorer output *)

Record EvaluationScorerOutput := {
  so_tool_selection_correct : option bool;
  so_forbidden_tool_violation : bool;
  so_forbidden_tools_attempted : list string;
  so_required_sequence_compliant : option bool;
  so_approval_compliant : option bool;
  so_approval_violation : bool;
  so_handoff_occurred : bool;
  so_outcome_assertions_passed : nat;
  so_outcome_assertions_failed : nat;
  so_outcome_assertion_failures : list string;
  so_citation_present : option bool;
  so_latency_ms : option Z;
  so_input_tokens : N;
  so_output_tokens : N;
  so_total_tokens : N;
  so_estimated_cost_usd : option Q;
}.

Definition opt_json {A} (f : A → json) (o : option A) : json :=
  match o with Some a => f a | None => JNull end.

(** [output.model_dump(mode="json")]. *)
Definition dump_output `{EvaluationSchemas} (o : EvaluationScorerOutput) : list (string * json) :=
  [("intent_evaluated", JBool false); ("intent_correct", JNull);
   ("tool_selection_correct", opt_json JBool (so_tool_selection_correct o));
   ("forbidden_tool_violation", JBool (so_forbidden_tool_violation o));
   ("forbidden_tools_attempted", JList (map JStr (so_forbidden_tools_attempted o)));
   ("required_sequence_compliant", opt_json JBool (so_required_sequence_compliant o));
   ("approval_compliant", opt_json JBool (so_approval_compliant o));
   ("approval_violation", JBool (so_approval_violation o));
   ("handoff_occurred", JBool (so_handoff_occurred o));
   ("outcome_assertions_passed", nat_json (so_outcome_assertions_passed o));
   ("outcome_assertions_failed", nat_json (so_outcome_assertions_failed o));
   ("outcome_assertion_failures", JList (map JStr (so_outcome_assertion_failures o)));
   ("citation_present", opt_json JBool (so_citation_present o));
   ("latency_ms", opt_json JInt (so_latency_ms o));
   ("input_tokens", id_json (so_input_tokens o));
   ("output_tokens", id_json (so_output_tokens o));
   ("total_tokens", id_json (so_total_tokens o));
   ("estimated_cost_usd", opt_json (λ c, JStr (decimal_str c)) (so_estimated_cost_usd o))].

(** ** The score of a case ([evaluations/scoring.py]) *)

Definition TOOL_EXECUTED_STATUSES : list ToolExecutionStatus.t :=
  [ToolExecutionStatus.SUCCEEDED; ToolExecutionStatus.FAILED; ToolExecutionStatus.TIMED_OUT].

Record CaseScore := {
  sc_output : EvaluationScorerOutput;
  sc_passed : bool;
  sc_failure_code : option EvaluationFailureCode.t;
}.

(** What a score is computed from: the rows an execution left behind. *)
Record Evidence := {
  (** the keys of the tools called, with the status of the call, oldest first *)
  evd_tool_executions : list (string * ToolExecutionStatus.t);
  evd_approvals : list ApprovalStatus.t;
  evd_run : AgentRun;
  (** the metadata of the run's reply *)
  evd_output_metadata : option json;
}.

Definition executed_keys (e : Evidence) : list string :=
  map fst (List.filter (λ te, bool_decide (te.2 ∈ TOOL_EXECUTED_STATUSES)) (evd_tool_executions e)).
Definition attempted_keys (e : Evidence) : list string := map fst (evd_tool_executions e).

(** [sorted(attempted_keys & set(forbidden_tools))]. *)
Definition forbidden_attempted (e : Evidence) (forbidden : list string) : list string :=
  sorted_texts (remove_dups (List.filter (λ k, str_in k forbidden) (attempted_keys e))).

Definition handed_off (e : Evidence) : bool :=
  bool_decide (run_status (evd_run e) = AgentRunStatus.HANDED_OFF).

(** The compliance of [_score_approval_behavior]; a violation is its absence. *)
Definition score_approval_behavior (behavior : ApprovalBehavior.t) (e : Evidence) : bool :=
  match behavior with
  | ApprovalBehavior.NOT_REQUIRED => bool_decide (evd_approvals e = [])
  | ApprovalBehavior.REQUIRED => negb (bool_decide (evd_approvals e = []))
  | ApprovalBehavior.APPROVED_PATH => bool_decide (ApprovalStatus.APPROVED ∈ evd_approvals e)
  | ApprovalBehavior.REJECTED_PATH => bool_decide (ApprovalStatus.REJECTED ∈ evd_approvals e)
  | ApprovalBehavior.HANDOFF_EXPECTED => handed_off e
  end.

Definition bracketed (response : string) : bool :=
  str_contains "[" response && str_contains "]" response.

Definition response_contains_citation (e : Evidence) : exn + bool :=
  let fallback := inr (bracketed (run_final_response (evd_run e))) in
  match evd_output_metadata e with
  | None => fallback
  | Some metadata =>
      match (if py_bool metadata then metadata else JObj []) with
      | JObj m =>
          match args_get m "citations" with
          | JNull => fallback
          | citations => inr (py_bool citations)
          end
      | _ => inl AttributeError
      end
  end.

(** [te.tool_definition.key == assertion.tool]. *)
Definition names_tool (key : string) (tool : option string) : bool :=
  match tool with Some t => String.eqb key t | None => false end.

Definition evaluate_outcome_assertion (a : OutcomeAssertion) (e : Evidence) : exn + bool :=
  match oa_type a with
  | OutcomeAssertionType.RUN_TERMINAL_STATE_EQUALS =>
      inr (match oa_value a with
           | Some v => String.eqb (AgentRunStatus.value (run_status (evd_run e))) v
           | None => false end)
  | OutcomeAssertionType.HANDOFF_CREATED => inr (handed_off e)
  | OutcomeAssertionType.APPROVAL_CREATED => inr (negb (bool_decide (evd_approvals e = [])))
  | OutcomeAssertionType.TOOL_SUCCEEDED =>
      inr (existsb (λ te, names_tool te.1 (oa_tool a)
                          && bool_decide (te.2 = ToolExecutionStatus.SUCCEEDED))
             (evd_tool_executions e))
  | OutcomeAssertionType.TOOL_NOT_EXECUTED =>
      inr (negb (existsb (λ te, names_tool te.1 (oa_tool a)) (evd_tool_executions e)))
  | OutcomeAssertionType.RESPONSE_CONTAINS_CITATION => response_contains_citation e
  end.

(** [f"{assertion.type}:{assertion.value or assertion.tool or ''}"]. *)
Definition assertion_text (a : OutcomeAssertion) : string :=
  OutcomeAssertionType.value (oa_type a) +:+ ":"
    +:+ str_or (default "" (oa_value a)) (default "" (oa_tool a)).

(** The loop over the assertions: how many hold, and the texts of those that fail. *)
Fixpoint score_assertions (l : list OutcomeAssertion) (e : Evidence)
    : exn + (nat * list string) :=
  match l with
  | [] => inr (0, [])
  | a :: l =>
      match evaluate_outcome_assertion a e with
      | inl x => inl x
      | inr ok =>
          match score_assertions l e with
          | inl x => inl x
          | inr (passed, failures) =>
              inr (if (ok : bool) then (S passed, failures)
                   else (passed, assertion_text a :: failures))
          end
      end
  end.

(** [max(0, int(delta.total_seconds() * 1000))]. *)
Definition run_latency (r : AgentRun) : option Z :=
  match run_started_at r, run_completed_at r with
  | Some s, Some c => Some (Z.max 0 (millis (c - s)))
  | _, _ => None
  end.

Definition violation (b : bool) (c : EvaluationFailureCode.t) : list EvaluationFailureCode.t :=
  if b then [c] else [].

(** [required_sequence_compliant]. *)
Definition sequence_compliant (x : EvaluationCaseExpectations) (e : Evidence) : option bool :=
  match ex_required_tool_sequence x, ex_acceptable_tool_sequences x with
  | Some required, _ => Some (bool_decide (executed_keys e = required))
  | None, Some acceptable => Some (bool_decide (executed_keys e ∈ acceptable))
  | None, None => None
  end.

(** [tool_selection_correct]. *)
Definition selection_correct (x : EvaluationCaseExpectations) (e : Evidence) : option bool :=
  match ex_allowed_tools x with
  | [] => None
  | allowed => Some (forallb (λ k, str_in k allowed) (executed_keys e))
  end.

Definition forbidden_executed (x : EvaluationCaseExpectations) (e : Evidence) : bool :=
  existsb (λ k, str_in k (ex_forbidden_tools x)) (executed_keys e).

Definition is_citation_assertion (a : OutcomeAssertion) : bool :=
  bool_decide (oa_type a = OutcomeAssertionType.RESPONSE_CONTAINS_CITATION).

Definition citation_presence (x : EvaluationCaseExpectations) (e : Evidence)
    : exn + option bool :=
  if existsb is_citation_assertion (ex_outcome_assertions x) then
    match response_contains_citation e with inl err => inl err | inr b => inr (Some b) end
  else inr None.

(** A run-level failure comes first. *)
Definition run_violations (e : Evidence) : list EvaluationFailureCode.t :=
  match run_status (evd_run e) with
  | AgentRunStatus.BUDGET_EXCEEDED => [EvaluationFailureCode.BUDGET_EXCEEDED]
  | AgentRunStatus.FAILED => [EvaluationFailureCode.AGENT_EXECUTION_FAILED]
  | _ => []
  end.

(** [violations], in the order of the code. *)
Definition violations (x : EvaluationCaseExpectations) (e : Evidence) (failures : list string)
    : list EvaluationFailureCode.t :=
  run_violations e
  ++ violation (forbidden_executed x e) EvaluationFailureCode.FORBIDDEN_TOOL_VIOLATION
  ++ violation (bool_decide (selection_correct x e = Some false))
       EvaluationFailureCode.OUTCOME_MISMATCH
  ++ violation (bool_decide (sequence_compliant x e = Some false))
       EvaluationFailureCode.OUTCOME_MISMATCH
  ++ violation (match ex_approval_behavior x with
                | Some b => negb (score_approval_behavior b e) | None => false end)
       EvaluationFailureCode.APPROVAL_VIOLATION
  ++ violation (negb (bool_decide (failures = []))) EvaluationFailureCode.OUTCOME_MISMATCH.

Definition score_evidence (x : EvaluationCaseExpectations) (e : Evidence) : exn + CaseScore :=
  match score_assertions (ex_outcome_assertions x) e with
  | inl err => inl err
  | inr (passed, failures) =>
      match citation_presence x e with
      | inl err => inl err
      | inr citation =>
          let compliant := (λ b, score_approval_behavior b e) <$> ex_approval_behavior x in
          let found := violations x e failures in
          inr {|
            sc_output := {|
              so_tool_selection_correct := selection_correct x e;
              so_forbidden_tool_violation := forbidden_executed x e;
              so_forbidden_tools_attempted := forbidden_attempted e (ex_forbidden_tools x);
              so_required_sequence_compliant := sequence_compliant x e;
              so_approval_compliant := compliant;
              so_approval_violation := bool_decide (compliant = Some false);
              so_handoff_occurred := handed_off e;
              so_outcome_assertions_passed := passed;
              so_outcome_assertions_failed := List.length failures;
              so_outcome_assertion_failures := failures;
              so_citation_present := citation;
              so_latency_ms := run_latency (evd_run e);
              so_input_tokens := run_input_tokens (evd_run e);
              so_output_tokens := run_output_tokens (evd_run e);
              so_total_tokens := run_total_tokens (evd_run e);
              so_estimated_cost_usd := run_estimated_cost_usd (evd_run e) |};
            sc_passed := bool_decide (found = []);
            sc_failure_code := head found |}
      end
  end.

(** The rows of a run. *)
Definition of_run (run_id : N) (_ : N) (te : ToolExecution) : bool :=
  bool_decide (te_agent_run te = run_id).

Definition evidence_of (run_id : N) (run : AgentRun) (w : World) : Evidence := {|
  evd_tool_executions :=
    map (λ te, (default "" (td_key <$> w_tool_definitions w !! te_tool_definition te.2),
                te_status te.2)) (select_rows (of_run run_id) w);
  evd_approvals :=
    map (λ a, ar_status a.2)
      (select_rows (λ _ a, match w_tool_executions w !! ar_tool_execution a with
                           | Some te => of_run run_id 0 te | None => false end) w);
  evd_run := run;
  evd_output_metadata :=
    m ← run_output_message run; msg_metadata <$> w_messages w !! m |}.

(** [score_case]; the inner sum is pydantic's error. *)
Definition score_case `{EvaluationSchemas} (run_id : N) (run : AgentRun) (expectations : json)
    : service (string + CaseScore) :=
  match validate_expectations expectations with
  | inl message => mret (inl message)
  | inr parsed =>
      evidence ← gets (evidence_of run_id run);
      score ← of_sum (score_evidence parsed evidence);
      mret (inr score)
  end.

(** ** The fake provider ([agents/providers/fake.py]) *)

Record FakeLLMScenario := {
  fs_response : string;
  fs_input_tokens : N;
  fs_output_tokens : N;
  fs_finish_reason : string;
  fs_structured_output : option json;
  fs_estimated_cost_usd : option Q;
  fs_provider_request_id : string;
  fs_error : option ProviderError;
  fs_tool_calls : list NormalizedToolCall;
  fs_handoff_request : option NormalizedHandoffRequest;
}.

(** [FakeLLMScenario()]. *)
Definition default_scenario : FakeLLMScenario := {|
  fs_response := "This is a deterministic fake response."; fs_input_tokens := 10;
  fs_output_tokens := 5; fs_finish_reason := "stop"; fs_structured_output := None;
  fs_estimated_cost_usd := None; fs_provider_request_id := "fake-request-id";
  fs_error := None; fs_tool_calls := []; fs_handoff_request := None |}.

Definition fake_answer (s : FakeLLMScenario) : ProviderError + LLMResponse :=
  match fs_error s with
  | Some e => inl e
  | None => inr {|
      lr_text := fs_response s; lr_finish_reason := fs_finish_reason s;
      lr_usage := {| use_input_tokens := fs_input_tokens s;
                     use_output_tokens := fs_output_tokens s;
                     use_total_tokens := (fs_input_tokens s + fs_output_tokens s)%N |};
      lr_provider_request_id := Some (fs_provider_request_id s);
      lr_structured_output := fs_structured_output s;
      lr_estimated_cost_usd := fs_estimated_cost_usd s;
      lr_tool_calls := fs_tool_calls s; lr_handoff_request := fs_handoff_request s |}
  end.

(** [self._scenarios[min(self.call_count, len(self._scenarios) - 1)]]. *)
Definition next_scenario {S} (scenarios : list S) (call_count : nat) : option S :=
  scenarios !! Nat.min call_count (List.length scenarios - 1).

(** ** The provider of a case ([evaluations/providers.py]) *)

Definition ALLOWED_SCENARIO_KEYS : list string :=
  ["response"; "input_tokens"; "output_tokens"; "finish_reason"; "latency_ms";
   "structured_output"; "estimated_cost_usd"; "tool_calls"; "handoff_request"].

(** The elements of [for x in v]. *)
Definition py_iter (v : json) : exn + list json :=
  match v with
  | JList l => inr l
  | JObj l => inr (map (λ kv, JStr kv.1) l)
  | JStr s => inr (map (λ c, JStr (String c EmptyString)) (list_ascii_of_string s))
  | _ => inl TypeError
  end.

Section CaseProviders.
Context `{PyLib} `{EvaluationSchemas}.

(** [str(v)]. *)
Definition text_of (v : json) : string := match v with JStr s => s | v => py_str v end.

(** [dict(v)]. *)
Definition dict_of (v : json) : exn + list (string * json) :=
  match v with JObj l => inr l | v => py_dict v end.

Fixpoint build_calls (index : nat) (items : list json) : exn + list NormalizedToolCall :=
  match items with
  | [] => inr []
  | item :: items =>
      let refused := inl (InvalidLLMScenarioError
        ("tool_calls[" +:+ pretty index +:+ "] must include 'tool_key'.")) in
      match item with
      | JObj item =>
          match obj_get "tool_key" item with
          | None => refused
          | Some tool_key =>
              match dict_of (default (JObj []) (obj_get "arguments" item)) with
              | inl e => inl e
              | inr arguments =>
                  match build_calls (S index) items with
                  | inl e => inl e
                  | inr calls => inr ({|
                      tc_call_id := text_of (default (JStr ("eval-call-" +:+ pretty index))
                                              (obj_get "call_id" item));
                      tc_tool_name := text_of tool_key; tc_arguments := arguments;
                      tc_normalization_error := None |} :: calls)
                  end
              end
          end
      | _ => refused
      end
  end.

Definition build_tool_calls (raw : json) : exn + list NormalizedToolCall :=
  if negb (py_bool raw) then inr []
  else match py_iter raw with inl e => inl e | inr items => build_calls 0 items end.

Definition handoff_incomplete : exn :=
  InvalidLLMScenarioError "handoff_request must include 'reason_code' and 'summary'.".

(** [key in raw] of a text, a list or an object; a [TypeError] otherwise. *)
Definition has_key (key : string) (raw : json) : exn + bool :=
  match json_in (JStr key) raw with Some b => inr b | None => inl TypeError end.

Definition build_handoff_request (raw : json) : exn + option NormalizedHandoffRequest :=
  if negb (py_bool raw) then inr None
  else
    match has_key "reason_code" raw with
    | inl e => inl e
    | inr false => inl handoff_incomplete
    | inr true =>
        match has_key "summary" raw, raw with
        | inl e, _ => inl e
        | inr false, _ => inl handoff_incomplete
        | inr true, JObj members =>
            inr (Some {| hr_reason_code := text_of (args_get members "reason_code");
                         hr_summary := text_of (args_get members "summary") |})
        | inr true, _ => inl TypeError
        end
    end.

(** A scenario of a case; the second kind has fields of other types. *)
Inductive CaseScenario := Typed (s : FakeLLMScenario) | Untyped (raw : list (string * json)).

Definition str_field (raw : list (string * json)) (key dflt : string) : option string :=
  match obj_get key raw with
  | None => Some dflt | Some (JStr s) => Some s | Some _ => None end.
Definition count_field (raw : list (string * json)) (key : string) (dflt : N) : option N :=
  match obj_get key raw with
  | None => Some dflt
  | Some (JInt z) => if (0 <=? z)%Z then Some (Z.to_N z) else None
  | Some _ => None
  end.

(** [FakeLLMScenario( **kwargs)]. *)
Definition scenario_of (raw : list (string * json)) (tool_calls : list NormalizedToolCall)
    (handoff_request : option NormalizedHandoffRequest) : CaseScenario :=
  let structured := match args_get raw "structured_output" with
                    | JNull => Some None | JObj m => Some (Some (JObj m)) | _ => None end in
  let cost := match args_get raw "estimated_cost_usd" with
              | JNull => Some None
              | JInt z => Some (Some (inject_Z z))
              | JFloat f => Some <$> decimal_of_float f
              | _ => None
              end in
  match str_field raw "response" (fs_response default_scenario),
        str_field raw "finish_reason" (fs_finish_reason default_scenario),
        count_field raw "input_tokens" (fs_input_tokens default_scenario),
        count_field raw "output_tokens" (fs_output_tokens default_scenario), structured, cost with
  | Some response, Some finish, Some input, Some output, Some structured, Some cost =>
      Typed {| fs_response := response; fs_input_tokens := input; fs_output_tokens := output;
               fs_finish_reason := finish; fs_structured_output := structured;
               fs_estimated_cost_usd := cost;
               fs_provider_request_id := fs_provider_request_id default_scenario;
               fs_error := None; fs_tool_calls := tool_calls;
               fs_handoff_request := handoff_request |}
  | _, _, _, _, _, _ => Untyped raw
  end.

Definition scenario_label (index : nat) : string := "llm_scenarios[" +:+ pretty index +:+ "]".

Definition build_scenario (index : nat) (raw : json) : exn + CaseScenario :=
  match raw with
  | JObj raw =>
      match List.filter (λ k, negb (str_in k ALLOWED_SCENARIO_KEYS)) (map fst raw) with
      | [] =>
          match build_tool_calls (args_get raw "tool_calls") with
          | inl e => inl e
          | inr tool_calls =>
              match build_handoff_request (args_get raw "handoff_request") with
              | inl e => inl e
              | inr handoff_request => inr (scenario_of raw tool_calls handoff_request)
              end
          end
      | unexpected =>
          inl (InvalidLLMScenarioError (scenario_label index +:+ " has unexpected keys: "
                 +:+ py_repr (JList (map JStr (sorted_texts unexpected)))))
      end
  | _ => inl (InvalidLLMScenarioError (scenario_label index +:+ " must be an object."))
  end.

Fixpoint build_scenarios (index : nat) (l : list json) : exn + list CaseScenario :=
  match l with
  | [] => inr []
  | raw :: l =>
      match build_scenario index raw with
      | inl e => inl e
      | inr s =>
          match build_scenarios (S index) l with inl e => inl e | inr r => inr (s :: r) end
      end
  end.

(** The scenarios of the provider [build_fake_llm_provider] builds. *)
Definition case_scenarios (llm_scenarios : json) : exn + list CaseScenario :=
  if negb (py_bool llm_scenarios) then inr [Typed default_scenario]
  else
    match py_iter llm_scenarios with
    | inl e => inl e
    | inr l => build_scenarios 0 l
    end.

(** [provider.generate(request)], the [i]-th object. *)
Definition fake_generate (i : N) (scenarios : list CaseScenario) : Provider := λ request,
  call_count ← gets (λ w, default 0 (o_provider_calls (w_outer w) !! i));
  modify (in_outer (λ o, {| o with o_provider_calls := <[i := S call_count]> (o_provider_calls o) |}));;
  match next_scenario scenarios call_count with
  | Some (Typed s) => mret (fake_answer s)
  | Some (Untyped raw) => untyped_answer raw request
  | None => raise (OtherExc 13)
  end.

Definition build_fake_llm_provider (llm_scenarios : json) : service Provider :=
  scenarios ← of_sum (case_scenarios llm_scenarios);
  i ← fresh;
  modify (in_outer (λ o, {| o with o_provider_calls := <[i := 0]> (o_provider_calls o) |}));;
  mret (fake_generate i scenarios).
End CaseProviders.
