(* ===== verification/Evaluations.v ===== *)
(** * Evaluation datasets, runs and results

    [evaluations/services.py] and [evaluations/recovery.py]: the configuration of
    datasets and cases, the snapshot a run is made of, the claim, execution and score
    of a case, the counters and the end of a run, cancellation, replay, the comparison
    of two runs against regression thresholds, and the sweep for crashed workers. *)

From stdpp Require Import base gmap strings list pretty sorting.
From Stdlib Require Import ZArith QArith SpecFloat Ascii String Lia.
From S2P Require Import Prelude Json Decimals Domain Policy Models Store Delivery Network Webhooks Approvals ToolExec Graph Conversations AgentRuns Scoring.

#[local] Close Scope Q_scope.
#[local] Open Scope nat_scope.

Section Evaluations.
Context `{Settings} `{PyLib} `{Network} `{Encoding} `{TextEncoding} `{Providers}
  `{EvaluationSchemas}.

(** ** Datasets and cases *)

(** [eval_dataset_workspace_name_uniq]. *)
Definition dataset_clash (a b : EvaluationDataset) : bool :=
  bool_decide (ed_workspace a = ed_workspace b) && String.eqb (ed_name a) (ed_name b).

(** [dataset.save()]. *)
Definition save_dataset (i : N) (d : EvaluationDataset) : service () :=
  raise_if (negb (fits 200 (ed_name d))) DataError;;
  raise_if (String.eqb (ed_name d) "") IntegrityError;;
  save_unique dataset_clash i d.

Definition dataset_event (action : string) (workspace i actor : N) : service () :=
  record_event action "evaluation_dataset" i (Some actor) (Some workspace)
    [("dataset_id", id_json i)].

Definition create_evaluation_dataset (workspace actor : N) (name : string)
    (description : option string) (status : option EvaluationDatasetStatus.t) : service N :=
  atomic (
    i ← fresh;
    save_dataset i {|
      ed_workspace := workspace; ed_name := name; ed_description := default "" description;
      ed_status := default EvaluationDatasetStatus.DRAFT status |};;
    dataset_event "evaluation_dataset.created" workspace i actor;;
    mret i).

Definition update_evaluation_dataset (workspace dataset_id : N) (dataset : EvaluationDataset)
    (actor : N) (name description : option string) (status : option EvaluationDatasetStatus.t)
    : service () :=
  atomic (
    save_dataset dataset_id {| dataset with
      ed_name := default (ed_name dataset) name;
      ed_description := default (ed_description dataset) description;
      ed_status := default (ed_status dataset) status |};;
    dataset_event "evaluation_dataset.updated" workspace dataset_id actor).

(** [value or {}]. *)
Definition or_empty (v : json) : json := if py_bool v then v else JObj [].

(** [case.clean()]: both documents replaced by what their model dumps. *)
Definition clean_case (c : EvaluationCase) : exn + EvaluationCase :=
  match validate_seeded_context (or_empty (ec_seeded_context c)) with
  | inl _ => inl (ValidationError "seeded_context")
  | inr seeded =>
      match validate_case_expectations (or_empty (ec_expectations c)) with
      | inl _ => inl (ValidationError "expectations")
      | inr expectations =>
          inr {| c with ec_seeded_context := seeded; ec_expectations := expectations |}
      end
  end.

(** [eval_case_dataset_key_uniq]. *)
Definition case_clash (a b : EvaluationCase) : bool :=
  bool_decide (ec_dataset a = ec_dataset b) && String.eqb (ec_key a) (ec_key b).

(** [case.save()]. *)
Definition save_case (i : N) (c : EvaluationCase) : service () :=
  raise_if (negb (fits 128 (ec_key c) && fits 200 (ec_name c))) DataError;;
  save_unique case_clash i c.

Definition case_event (action : string) (workspace i dataset actor : N) : service () :=
  record_event action "evaluation_case" i (Some actor) (Some workspace)
    [("dataset_id", id_json dataset); ("case_id", id_json i)].

Definition create_evaluation_case (workspace dataset_id actor : N) (key name input_message : string)
    (status : option EvaluationCaseStatus.t) (seeded_context expectations : option json)
    : service N :=
  case ← of_sum (clean_case {|
    ec_dataset := dataset_id; ec_key := key; ec_name := name;
    ec_status := default EvaluationCaseStatus.ACTIVE status; ec_input_message := input_message;
    ec_seeded_context := default (JObj []) seeded_context;
    ec_expectations := default (JObj []) expectations |});
  atomic (
    i ← fresh;
    save_case i case;;
    case_event "evaluation_case.created" workspace i dataset_id actor;;
    mret i).

(** The keys of [data] that are present. *)
Record CaseData := {
  ecd_name : option string;
  ecd_status : option EvaluationCaseStatus.t;
  ecd_input_message : option string;
  ecd_seeded_context : option json;
  ecd_expectations : option json;
}.

Definition apply_case_data (data : CaseData) (c : EvaluationCase) : EvaluationCase :=
  {| c with
     ec_name := default (ec_name c) (ecd_name data);
     ec_status := default (ec_status c) (ecd_status data);
     ec_input_message := default (ec_input_message c) (ecd_input_message data);
     ec_seeded_context := default (ec_seeded_context c) (ecd_seeded_context data);
     ec_expectations := default (ec_expectations c) (ecd_expectations data) |}.

Definition update_evaluation_case (workspace case_id : N) (case : EvaluationCase) (actor : N)
    (data : CaseData) : service () :=
  case ← of_sum (clean_case (apply_case_data data case));
  atomic (
    save_case case_id case;;
    case_event "evaluation_case.updated" workspace case_id (ec_dataset case) actor).

(** ** Writing a run and a result *)

(** The check constraints of [EvaluationRun]. *)
Definition counters_ok (r : EvaluationRun) : bool :=
  ((0 <=? ev_total_cases r) && (0 <=? ev_completed_cases r) && (0 <=? ev_passed_cases r)
   && (0 <=? ev_failed_cases r) && (ev_completed_cases r <=? ev_total_cases r)
   && (ev_passed_cases r <=? ev_completed_cases r))%Z.

(** [run.save()]. *)
Definition save_evaluation_run (i : N) (r : EvaluationRun) : service () :=
  raise_if (negb (fits 64 (ev_correlation_id r))) DataError;;
  raise_if (negb (counters_ok r)) IntegrityError;;
  now ← get_now;
  save_row i {| r with ev_updated_at := now |}.

(** [eval_result_one_initial_per_snapshot]. *)
Definition result_clash (a b : EvaluationResult) : bool :=
  bool_decide (er_case_snapshot a = er_case_snapshot b)
  && bool_decide (er_replay_of a = None) && bool_decide (er_replay_of b = None).

Definition result_fits (r : EvaluationResult) : bool :=
  match er_latency_ms r with Some z => (z <=? 2147483647)%Z | None => true end
  && fits 500 (er_failure_message_safe r)
  && forallb fits_int [er_input_tokens r; er_output_tokens r; er_total_tokens r]
  && cost_fits (er_estimated_cost_usd r).

(** What the database keeps of a result saved at [now]. *)
Definition stored_result (now : Z) (r : EvaluationResult) : EvaluationResult :=
  {| r with er_updated_at := now;
            er_estimated_cost_usd := stored_cost <$> er_estimated_cost_usd r |}.

(** [result.save()]. *)
Definition save_result (i : N) (r : EvaluationResult) : service () :=
  raise_if (negb (result_fits r)) DataError;;
  now ← get_now;
  save_unique result_clash i (stored_result now r).

(** [eval_case_snap_run_sequence_uniq] and [eval_case_snap_run_case_key_uniq]. *)
Definition snapshot_clash (a b : EvaluationCaseSnapshot) : bool :=
  bool_decide (es_run a = es_run b)
  && (bool_decide (es_sequence a = es_sequence b) || String.eqb (es_case_key a) (es_case_key b)).

(** ** Creation of a run *)

Definition active_case (dataset : N) (_ : N) (c : EvaluationCase) : bool :=
  bool_decide (ec_dataset c = dataset) && bool_decide (ec_status c = EvaluationCaseStatus.ACTIVE).

Definition key_order (a b : N * EvaluationCase) : Prop := text_le (ec_key a.2) (ec_key b.2).
#[local] Instance key_order_dec a b : Decision (key_order a b).
Proof. unfold key_order. apply _. Defined.

Definition new_evaluation_run (workspace dataset agent_version actor : N)
    (threshold_config : list (string * json)) (total : nat) (request_id : option string) (now : Z)
    : EvaluationRun := {|
  ev_workspace := workspace; ev_dataset := dataset; ev_agent_version := agent_version;
  ev_status := EvaluationRunStatus.PENDING; ev_threshold_config := threshold_config;
  ev_total_cases := Z.of_nat total; ev_completed_cases := 0; ev_passed_cases := 0;
  ev_failed_cases := 0; ev_correlation_id := default "" request_id; ev_created_by := Some actor;
  ev_started_at := None; ev_completed_at := None; ev_cancelled_at := None;
  ev_created_at := now; ev_updated_at := now |}.

Definition snapshot_of (run : N) (sequence : nat) (case : N * EvaluationCase)
    : EvaluationCaseSnapshot := {|
  es_run := run; es_case := Some (fst case); es_sequence := N.of_nat sequence;
  es_case_key := ec_key (snd case); es_name := ec_name (snd case);
  es_input_message := ec_input_message (snd case);
  es_seeded_context := ec_seeded_context (snd case);
  es_expectations := ec_expectations (snd case) |}.

Definition pending_result (run snapshot : N) (replay_of : option N) (now : Z)
    : EvaluationResult := {|
  er_run := run; er_case_snapshot := snapshot; er_status := EvaluationResultStatus.PENDING;
  er_agent_run := None; er_scorer_output := []; er_passed := None; er_failure_code := None;
  er_failure_message_safe := ""; er_latency_ms := None; er_input_tokens := 0;
  er_output_tokens := 0; er_total_tokens := 0; er_estimated_cost_usd := None;
  er_replay_of := replay_of; er_started_at := None; er_completed_at := None;
  er_created_at := now; er_updated_at := now |}.

(** The snapshot and the initial result of each case. *)
Fixpoint create_snapshots (run : N) (sequence : nat) (cases : list (N * EvaluationCase))
    : service () :=
  match cases with
  | [] => mret ()
  | case :: cases =>
      now ← get_now;
      snapshot ← fresh;
      save_unique snapshot_clash snapshot (snapshot_of run sequence case);;
      result ← fresh;
      save_result result (pending_result run snapshot None now);;
      create_snapshots run (S sequence) cases
  end.

Definition start_evaluation_run (workspace actor dataset agent_version_id : N)
    (agent_version : AgentVersion) (threshold_config : option (list (string * json)))
    (request_id : option string) : service N :=
  raise_if (negb (bool_decide (av_status agent_version = AgentVersionStatus.PUBLISHED)))
    (EvaluationExc EvaluationErr.AgentVersionNotPublished);;
  active_cases ← gets (λ w, merge_sort key_order (select_rows (active_case dataset) w));
  raise_if (bool_decide (active_cases = [])) (EvaluationExc EvaluationErr.DatasetHasNoActiveCases);;
  atomic (
    now ← get_now;
    run ← fresh;
    save_evaluation_run run (new_evaluation_run workspace dataset agent_version_id actor
      (default [] threshold_config) (List.length active_cases) request_id now);;
    create_snapshots run 0 active_cases;;
    record_event "evaluation_run.created" "evaluation_run" run (Some actor) (Some workspace)
      [("run_id", id_json run); ("dataset_id", id_json dataset);
       ("case_count", nat_json (List.length active_cases))];;
    publish (start_evaluation_run_task run);;
    mret run).

Definition claimed_evaluation_run (now : Z) (r : EvaluationRun) : EvaluationRun :=
  {| r with ev_status := EvaluationRunStatus.RUNNING; ev_started_at := Some now |}.

Definition claim_evaluation_run (run_id : N) : service (option EvaluationRun) :=
  atomic (
    run ← get_row run_id;
    if negb (bool_decide (ev_status run = EvaluationRunStatus.PENDING)) then mret None
    else
      now ← get_now;
      save_evaluation_run run_id (claimed_evaluation_run now run);;
      mret (Some (claimed_evaluation_run now run))).

(** [EvaluationResult.objects.filter(run=run, replay_of__isnull=True)]. *)
Definition initial_of (run_id : N) (r : EvaluationResult) : bool :=
  bool_decide (er_run r = run_id) && bool_decide (er_replay_of r = None).
Definition has_result_status (s : EvaluationResultStatus.t) (r : EvaluationResult) : bool :=
  bool_decide (er_status r = s).

Definition pending_initial (run_id : N) (_ : N) (r : EvaluationResult) : bool :=
  initial_of run_id r && has_result_status EvaluationResultStatus.PENDING r.

Definition dispatch_case_executions (result_ids : list N) : service () :=
  for_each result_ids (λ i, publish (execute_evaluation_case_task i)).

(** Outside of a transaction [on_commit] runs at once. *)
Definition dispatch_pending_case_executions (run_id : N) : service () :=
  results ← gets (select_rows (pending_initial run_id));
  dispatch_case_executions (map fst results).

(** [start_evaluation_run_task]. *)
Definition start_evaluation_run_body (run_id : N) : service (option EvaluationRunStatus.t) :=
  run ← claim_evaluation_run run_id;
  match run with
  | None => mret None
  | Some run => dispatch_pending_case_executions run_id;; mret (Some (ev_status run))
  end.

(** ** Counters and the end of a run *)

Definition scored (r : EvaluationResult) : bool :=
  has_result_status EvaluationResultStatus.SUCCEEDED r
  || has_result_status EvaluationResultStatus.FAILED r.

(** [_aggregate_case_counts]: both counts of one query. *)
Definition count_results (P : EvaluationResult → bool) (w : World) : Z :=
  Z.of_nat (List.length (select_rows (λ _ r, P r) w)).
Definition aggregate_case_counts (run_id : N) (w : World) : Z * Z :=
  (count_results (λ r, initial_of run_id r && scored r) w,
   count_results (λ r, initial_of run_id r && bool_decide (er_passed r = Some true)) w).

Definition recounted (counts : Z * Z) (r : EvaluationRun) : EvaluationRun :=
  {| r with ev_completed_cases := fst counts; ev_passed_cases := snd counts;
            ev_failed_cases := (fst counts - snd counts)%Z |}.

(** The status a complete run ends with, from the number of failed executions. *)
Definition final_status (total execution_failed : Z) : EvaluationRunStatus.t :=
  if (0 <? total)%Z && (execution_failed =? total)%Z then EvaluationRunStatus.FAILED
  else if (0 <? execution_failed)%Z then EvaluationRunStatus.PARTIAL
  else EvaluationRunStatus.SUCCEEDED.

Definition finished_run (status : EvaluationRunStatus.t) (now : Z) (r : EvaluationRun)
    : EvaluationRun :=
  {| r with ev_status := status; ev_completed_at := Some now |}.

Definition run_id_field (run_id : N) : string * json := ("run_id", id_json run_id).

Definition finalize_evaluation_run (run_id : N) : service (option EvaluationRunStatus.t) :=
  atomic (
    run ← get_row run_id;
    if negb (bool_decide (ev_status run = EvaluationRunStatus.RUNNING)) then mret None
    else if (ev_completed_cases run <? ev_total_cases run)%Z then mret None
    else
      execution_failed ← gets (count_results (λ r,
        initial_of run_id r && has_result_status EvaluationResultStatus.FAILED r));
      let status := final_status (ev_total_cases run) execution_failed in
      now ← get_now;
      save_evaluation_run run_id (finished_run status now run);;
      record_event "evaluation_run.completed" "evaluation_run" run_id (ev_created_by run)
        (Some (ev_workspace run))
        [run_id_field run_id; ("status", JStr (EvaluationRunStatus.value status))];;
      mret (Some status)).

(** The transaction of [_record_case_completion]; whether the run is complete. *)
Definition recount_run (run_id : N) : service bool :=
  atomic (
    run ← get_row run_id;
    counts ← gets (aggregate_case_counts run_id);
    let run := recounted counts run in
    save_evaluation_run run_id run;;
    mret (bool_decide (ev_status run = EvaluationRunStatus.RUNNING)
          && (ev_total_cases run <=? ev_completed_cases run)%Z)).

Definition record_case_completion (run_id : N) (result : EvaluationResult) : service () :=
  if bool_decide (er_replay_of result = None) then
    should_finalize ← recount_run run_id;
    when should_finalize (finalize_evaluation_run run_id;; mret ())
  else mret ().

(** ** Execution of a case *)

Definition cancelled_result (now : Z) (r : EvaluationResult) : EvaluationResult :=
  {| r with er_status := EvaluationResultStatus.CANCELLED; er_completed_at := Some now |}.
Definition running_result (now : Z) (r : EvaluationResult) : EvaluationResult :=
  {| r with er_status := EvaluationResultStatus.RUNNING; er_started_at := Some now |}.

(** The run is locked before the result. *)
Definition claim_evaluation_result (result_id : N) : service (option EvaluationResult) :=
  atomic (
    unlocked ← get_row (A := EvaluationResult) result_id;
    run ← get_row (er_run unlocked);
    result ← get_row result_id;
    if negb (has_result_status EvaluationResultStatus.PENDING result) then mret None
    else
      now ← get_now;
      if bool_decide (ev_status run = EvaluationRunStatus.CANCELLED)
         || bool_decide (ev_cancelled_at run ≠ None)
      then save_result result_id (cancelled_result now result);; mret None
      else
        save_result result_id (running_result now result);;
        mret (Some (running_result now result))).

Definition terminated_result (code : EvaluationFailureCode.t) (message : string) (now : Z)
    (r : EvaluationResult) : EvaluationResult :=
  {| r with er_status := EvaluationResultStatus.FAILED; er_passed := Some false;
            er_failure_code := Some code; er_failure_message_safe := str_take 500 message;
            er_completed_at := Some now |}.

(** [result] is the row as the worker claimed it. *)
Definition terminate_result (result_id : N) (result : EvaluationResult)
    (code : EvaluationFailureCode.t) (message : string) : service EvaluationResult :=
  locked ← atomic (
    locked ← get_row result_id;
    now ← get_now;
    let locked := terminated_result code message now locked in
    save_result result_id locked;;
    mret locked);
  when (bool_decide (er_replay_of result = None)) (record_case_completion (er_run result) locked);;
  mret locked.

Definition scored_result (agent_run : N) (score : CaseScore) (now : Z) (r : EvaluationResult)
    : EvaluationResult :=
  {| r with
     er_status := EvaluationResultStatus.SUCCEEDED; er_agent_run := Some agent_run;
     er_scorer_output := dump_output (sc_output score); er_passed := Some (sc_passed score);
     er_failure_code := sc_failure_code score;
     er_latency_ms := so_latency_ms (sc_output score);
     er_input_tokens := so_input_tokens (sc_output score);
     er_output_tokens := so_output_tokens (sc_output score);
     er_total_tokens := so_total_tokens (sc_output score);
     er_estimated_cost_usd := so_estimated_cost_usd (sc_output score);
     er_completed_at := Some now |}.

(** The last transaction of a case that could be scored. *)
Definition store_score (result_id run_id agent_run : N) (score : CaseScore)
    : service EvaluationResult :=
  locked ← atomic (
    locked ← get_row result_id;
    now ← get_now;
    let locked := scored_result agent_run score now locked in
    save_result result_id locked;;
    mret locked);
  record_case_completion run_id locked;;
  mret locked.

Definition create_evaluation_agent_run (run_id : N) (run : EvaluationRun)
    (snapshot : EvaluationCaseSnapshot) : service N :=
  now ← get_now;
  insert_run (new_run (ev_workspace run) (ev_agent_version run) (ev_created_by run)
    (es_input_message snapshot) "evaluation" None None None
    (Some (JObj [("evaluation_run_id", id_json run_id);
                 ("evaluation_case_key", JStr (es_case_key snapshot))]))
    (Some (ev_correlation_id run)) now).

Definition not_claimed_message : string := "The agent run could not be claimed for execution.".
Definition not_executed_message : string := "The agent run could not be executed.".
Definition not_scored_message : string := "Scoring could not be completed.".

(** The case with its provider.  The object the execution returns is the row it
    leaves, but for the digits of a cost beyond the fourth. *)
Definition run_case (tool_registry : Registry) (result_id : N) (result : EvaluationResult)
    (run : EvaluationRun) (snapshot : EvaluationCaseSnapshot) (fake : Provider)
    : service EvaluationResult :=
  let terminate code message := terminate_result result_id result code message in
  agent_run ← create_evaluation_agent_run (er_run result) run snapshot;
  claimed ← claim_agent_run agent_run;
  match claimed with
  | None => terminate EvaluationFailureCode.AGENT_EXECUTION_FAILED not_claimed_message
  | Some held =>
      executed ← attempt (execute_claimed_agent_run tool_registry agent_run held None None None
                            (Some fake);;
                          get_row (A := AgentRun) agent_run);
      match executed with
      | inl _ => terminate EvaluationFailureCode.AGENT_EXECUTION_FAILED not_executed_message
      | inr executed =>
          score ← attempt (score_case agent_run executed (es_expectations snapshot));
          match score with
          | inl _ => terminate EvaluationFailureCode.SCORING_FAILED not_scored_message
          | inr (inl message) =>
              terminate EvaluationFailureCode.INVALID_CASE (str_take 500 message)
          | inr (inr score) => store_score result_id (er_run result) agent_run score
          end
      end
  end.

(** [EvaluationLiveProviderNotAllowedError.safe_message]. *)
Definition live_provider_message : string :=
  "Evaluation cannot run while live external providers are enabled.".

(** [snapshot.seeded_context.get("llm_scenarios", [])]. *)
Definition scenarios_of (snapshot : EvaluationCaseSnapshot) : exn + json :=
  match es_seeded_context snapshot with
  | JObj context => inr (default (JList []) (obj_get "llm_scenarios" context))
  | _ => inl AttributeError
  end.

Definition execute_evaluation_case (tool_registry : Registry) (result_id : N)
    : service EvaluationResult :=
  claimed ← claim_evaluation_result result_id;
  match claimed with
  | None => get_row result_id
  | Some claimed =>
      snapshot ← get_row (er_case_snapshot claimed);
      run ← get_row (er_run claimed);
      if INTEGRATIONS_LIVE_PROVIDERS_ENABLED then
        terminate_result result_id claimed EvaluationFailureCode.PROVIDER_FAILURE
          live_provider_message
      else
        llm_scenarios ← of_sum (scenarios_of snapshot);
        fake ← attempt (build_fake_llm_provider llm_scenarios);
        match fake with
        | inl (InvalidLLMScenarioError message) =>
            terminate_result result_id claimed EvaluationFailureCode.INVALID_CASE message
        | inl e => raise e
        | inr fake => run_case tool_registry result_id claimed run snapshot fake
        end
  end.

(** ** Cancellation and replay *)

Definition cancelled_evaluation_run (now : Z) (counts : Z * Z) (r : EvaluationRun)
    : EvaluationRun :=
  recounted counts
    {| r with ev_status := EvaluationRunStatus.CANCELLED; ev_cancelled_at := Some now |}.

Definition is_terminal_run (r : EvaluationRun) : bool :=
  bool_decide (ev_status r ∈ EVALUATION_RUN_TERMINAL_STATUSES).

Definition cancel_evaluation_run (workspace run_id actor : N) : service () :=
  atomic (
    locked ← get_row run_id;
    raise_if (is_terminal_run locked) (EvaluationExc EvaluationErr.RunNotCancellable);;
    now ← get_now;
    pending ← gets (select_rows (pending_initial run_id));
    update_rows (pending_initial run_id) (cancelled_result now);;
    counts ← gets (aggregate_case_counts run_id);
    save_evaluation_run run_id (cancelled_evaluation_run now counts locked);;
    record_event "evaluation_run.cancelled" "evaluation_run" run_id (Some actor) (Some workspace)
      [run_id_field run_id; ("cancelled_pending", nat_json (List.length pending))]).

(** [result] is the object the caller holds. *)
Definition replay_evaluation_case (workspace actor result_id : N) (result : EvaluationResult)
    : service N :=
  raise_if (negb (bool_decide (er_status result ∈ EVALUATION_RESULT_TERMINAL_STATUSES)))
    (EvaluationExc EvaluationErr.ResultNotReplayable);;
  run ← get_row (er_run result);
  version ← get_row (ev_agent_version run);
  raise_if (negb (bool_decide (av_status version = AgentVersionStatus.PUBLISHED)))
    (EvaluationExc EvaluationErr.AgentVersionNotPublished);;
  atomic (
    now ← get_now;
    replay ← fresh;
    save_result replay
      (pending_result (er_run result) (er_case_snapshot result) (Some result_id) now);;
    record_event "evaluation_result.replayed" "evaluation_result" replay (Some actor)
      (Some workspace) [("replay_of", id_json result_id); run_id_field (er_run result)];;
    publish (execute_evaluation_case_task replay);;
    mret replay).

(** ** Comparison of two runs *)

Definition fl (z : Z) : spec_float := binary_normalize 53 1024 z 0 false.
(** [a / b] of two counts. *)
Definition py_div (a b : Z) : spec_float := SFdiv 53 1024 (fl a) (fl b).

(** [round(x, 6)]: the float nearest to the nearest multiple of a millionth, for the
    differences of two counts or of two rates. *)
Definition py_round6 (x : spec_float) : spec_float :=
  match x with
  | S754_finite s m e =>
      if (0 <=? e)%Z then x
      else
        let y := py_div (round_half_even (Z.pos m * 1000000) (2 ^ (- e))) 1000000 in
        if s then SFopp y else y
  | x => x
  end.

(** [float(v)]. *)
Definition py_float (v : json) : exn + spec_float :=
  match v with
  | JInt z => match float_of_Z z with Some f => inr f | None => inl (OtherExc 8) end
  | JFloat f => inr f
  | JBool b => inr (fl (if b then 1 else 0))
  | JStr s => match float_of_str s with Some f => inr f | None => inl ValueError end
  | _ => inl TypeError
  end.

Record RunMetrics := {
  rm_pass_rate : spec_float;
  rm_forbidden_tool_violations : spec_float;
  rm_approval_violations : spec_float;
  rm_handoff_rate : spec_float;
}.

(** [(r.scorer_output or {}).get(key)], as a truth value. *)
Definition scorer_flag (key : string) (r : EvaluationResult) : bool :=
  py_bool (args_get (er_scorer_output r) key).

Definition count_flag (key : string) (l : list EvaluationResult) : Z :=
  Z.of_nat (List.length (List.filter (scorer_flag key) l)).

Definition initial_results (run_id : N) (w : World) : list EvaluationResult :=
  map snd (select_rows (λ _ r, initial_of run_id r) w).

Definition metrics_of (results : list EvaluationResult) : RunMetrics :=
  let total := Z.max 1 (Z.of_nat (List.length results)) in
  let passed := Z.of_nat (List.length (List.filter (λ r, bool_decide (er_passed r = Some true)) results)) in
  {| rm_pass_rate := py_div passed total;
     rm_forbidden_tool_violations := fl (count_flag "forbidden_tool_violation" results);
     rm_approval_violations := fl (count_flag "approval_violation" results);
     rm_handoff_rate := py_div (count_flag "handoff_occurred" results) total |}.

Definition run_metrics (run_id : N) (w : World) : RunMetrics := metrics_of (initial_results run_id w).

Definition py_sub (x y : spec_float) : spec_float := SFsub 53 1024 x y.
Definition metric_deltas (baseline candidate : RunMetrics) : RunMetrics := {|
  rm_pass_rate := py_round6 (py_sub (rm_pass_rate candidate) (rm_pass_rate baseline));
  rm_forbidden_tool_violations := py_round6 (py_sub (rm_forbidden_tool_violations candidate)
                                               (rm_forbidden_tool_violations baseline));
  rm_approval_violations := py_round6 (py_sub (rm_approval_violations candidate)
                                         (rm_approval_violations baseline));
  rm_handoff_rate := py_round6 (py_sub (rm_handoff_rate candidate) (rm_handoff_rate baseline)) |}.

(** One threshold: its name, its configured value, whether it holds, and the category
    of the regression when it does not. *)
Record ThresholdResult := {
  th_name : string;
  th_threshold : json;
  th_passed : bool;
  th_category : string;
}.

(** [threshold_config.get(name)] of a number, when it is not [None]. *)
Definition numeric_threshold (config : list (string * json)) (name category : string)
    (holds : spec_float → bool) : exn + list ThresholdResult :=
  match args_get config name with
  | JNull => inr []
  | v => match py_float v with
         | inl e => inl e
         | inr f => inr [{| th_name := name; th_threshold := v; th_passed := holds f;
                            th_category := category |}]
         end
  end.

Definition zero_threshold (config : list (string * json)) (name category : string)
    (count : spec_float) : exn + list ThresholdResult :=
  if py_bool (args_get config name) then
    inr [{| th_name := name; th_threshold := JBool true;
            th_passed := SFeqb count (S754_zero false); th_category := category |}]
  else inr [].

Fixpoint concat_results (l : list (exn + list ThresholdResult)) : exn + list ThresholdResult :=
  match l with
  | [] => inr []
  | inl e :: _ => inl e
  | inr x :: l => match concat_results l with inl e => inl e | inr y => inr (x ++ y) end
  end.

Definition evaluate_thresholds (candidate deltas : RunMetrics) (config : list (string * json))
    : exn + list ThresholdResult :=
  concat_results [
    numeric_threshold config "min_pass_rate" "pass_rate" (λ t, SFleb t (rm_pass_rate candidate));
    numeric_threshold config "max_pass_rate_drop" "pass_rate"
      (λ t, SFleb (SFopp (rm_pass_rate deltas)) t);
    zero_threshold config "zero_forbidden_tool_violations" "forbidden_tool"
      (rm_forbidden_tool_violations candidate);
    zero_threshold config "zero_approval_violations" "approval_compliance"
      (rm_approval_violations candidate);
    numeric_threshold config "max_handoff_rate_increase" "handoff_rate"
      (λ t, SFleb (rm_handoff_rate deltas) t)].

(** The categories of the thresholds that do not hold, each once. *)
Definition regressions_of (l : list ThresholdResult) : list string :=
  sorted_texts (remove_dups (map th_category (List.filter (λ t, negb (th_passed t)) l))).

Record Comparison := {
  cmp_case_count : nat;
  cmp_baseline_metrics : RunMetrics;
  cmp_candidate_metrics : RunMetrics;
  cmp_deltas : RunMetrics;
  cmp_thresholds : list ThresholdResult;
  cmp_regressions : list string;
  cmp_passed : bool;
}.

(** The set of the case keys of a run. *)
Definition case_keys (run_id : N) (w : World) : gset string :=
  list_to_set (map (λ s, es_case_key s.2)
    (select_rows (λ _ s, bool_decide (es_run s = run_id)) w)).

(** The runs are objects the caller holds; of the candidate its configuration is
    read. *)
Definition compare_evaluation_runs (workspace baseline_id candidate_id : N)
    (candidate_run : EvaluationRun) (actor : option N) : service Comparison :=
  baseline_keys ← gets (case_keys baseline_id);
  candidate_keys ← gets (case_keys candidate_id);
  raise_if (negb (bool_decide (baseline_keys = candidate_keys)))
    (EvaluationExc EvaluationErr.RunsNotComparable);;
  baseline ← gets (run_metrics baseline_id);
  candidate ← gets (run_metrics candidate_id);
  let deltas := metric_deltas baseline candidate in
  thresholds ← of_sum (evaluate_thresholds candidate deltas (ev_threshold_config candidate_run));
  let regressions := regressions_of thresholds in
  let result := {|
    cmp_case_count := size baseline_keys; cmp_baseline_metrics := baseline;
    cmp_candidate_metrics := candidate; cmp_deltas := deltas; cmp_thresholds := thresholds;
    cmp_regressions := regressions; cmp_passed := bool_decide (regressions = []) |} in
  record_event "evaluation_runs.compared" "evaluation_run" candidate_id actor (Some workspace)
    [("baseline_run_id", id_json baseline_id); ("candidate_run_id", id_json candidate_id);
     ("passed", JBool (cmp_passed result))];;
  mret result.

(** ** Recovery ([evaluations/recovery.py]) *)

#[local] Instance result_order_dec x y : Decision (time_order er_created_at x y).
Proof. unfold time_order. apply _. Defined.
#[local] Instance run_order_dec x y : Decision (time_order ev_updated_at x y).
Proof. unfold time_order. apply _. Defined.
#[local] Instance pending_order_dec x y : Decision (time_order ev_created_at x y).
Proof. unfold time_order. apply _. Defined.

Definition running_initial (run_id : N) (r : EvaluationResult) : bool :=
  initial_of run_id r && has_result_status EvaluationResultStatus.RUNNING r.
Definition stale_result (run_id : N) (cutoff : Z) (_ : N) (r : EvaluationResult) : bool :=
  running_initial run_id r && (er_updated_at r <=? cutoff)%Z.
Definition live_result (run_id : N) (cutoff : Z) (_ : N) (r : EvaluationResult) : bool :=
  running_initial run_id r && (cutoff <? er_updated_at r)%Z.

Definition crash_message : string :=
  "Recovered: worker did not finalize this case before the staleness threshold.".

Definition crashed_result (now : Z) (r : EvaluationResult) : EvaluationResult :=
  {| r with er_status := EvaluationResultStatus.FAILED; er_passed := Some false;
            er_failure_code := Some EvaluationFailureCode.WORKER_CRASH_RECOVERED;
            er_failure_message_safe := crash_message;
            er_completed_at := Some now; er_updated_at := now |}.

(** The transaction of [_recover_one_stuck_run]: [None] when the run is left alone,
    and whether it is complete. *)
Definition recover_stuck_cases (run_id : N) (cutoff now : Z) : service (option bool) :=
  atomic (
    run ← get_row run_id;
    if negb (bool_decide (ev_status run = EvaluationRunStatus.RUNNING)) then mret None
    else if (cutoff <? ev_updated_at run)%Z then mret None
    else
      live_case_exists ← gets (exists_row (live_result run_id cutoff));
      stale ← gets (select_rows (stale_result run_id cutoff));
      if bool_decide (stale = []) && (live_case_exists : bool) then mret None
      else
        update_rows (stale_result run_id cutoff) (crashed_result now);;
        counts ← gets (aggregate_case_counts run_id);
        let run := recounted counts run in
        save_evaluation_run run_id run;;
        mret (Some (ev_total_cases run <=? ev_completed_cases run)%Z)).

Definition recover_one_stuck_evaluation (run_id : N) (cutoff now : Z) : service bool :=
  recovered ← recover_stuck_cases run_id cutoff now;
  match recovered with
  | None => mret false
  | Some complete => when complete (finalize_evaluation_run run_id;; mret ());; mret true
  end.

Fixpoint recover_each_run (run_ids : list N) (cutoff now : Z) (recovered : nat) : service nat :=
  match run_ids with
  | [] => mret recovered
  | run_id :: run_ids =>
      done ← recover_one_stuck_evaluation run_id cutoff now;
      recover_each_run run_ids cutoff now (if (done : bool) then S recovered else recovered)
  end.

Definition stale_run (cutoff : Z) (_ : N) (r : EvaluationRun) : bool :=
  bool_decide (ev_status r = EvaluationRunStatus.RUNNING) && (ev_updated_at r <=? cutoff)%Z.
Definition stale_pending_run (cutoff : Z) (_ : N) (r : EvaluationRun) : bool :=
  bool_decide (ev_status r = EvaluationRunStatus.PENDING) && (ev_created_at r <=? cutoff)%Z.
Definition stale_pending_case (cutoff : Z) (_ : N) (r : EvaluationResult) : bool :=
  has_result_status EvaluationResultStatus.PENDING r && bool_decide (er_replay_of r = None)
  && (er_created_at r <=? cutoff)%Z.

Definition redispatch_pending_evaluations (batch_size : nat) (now : Z) : service nat :=
  let cutoff := (now - seconds EVALUATIONS_STUCK_RUN_PENDING_STALE_SECONDS)%Z in
  runs ← gets (λ w,
    merge_sort (time_order ev_created_at) (select_rows (stale_pending_run cutoff) w));
  let run_ids := take batch_size (map fst runs) in
  for_each run_ids (λ i, publish (start_evaluation_run_task i));;
  mret (List.length run_ids).

Definition redispatch_pending_cases (batch_size : nat) (now : Z) : service nat :=
  let cutoff := (now - seconds EVALUATIONS_STUCK_CASE_PENDING_STALE_SECONDS)%Z in
  results ← gets (λ w,
    merge_sort (time_order er_created_at) (select_rows (stale_pending_case cutoff) w));
  let result_ids := take batch_size (map fst results) in
  dispatch_case_executions result_ids;;
  mret (List.length result_ids).

Definition recover_stuck_evaluation_runs (batch_size : option nat) (now : option Z) : service nat :=
  now ← or_now now;
  let cutoff := (now - seconds EVALUATIONS_STUCK_RUN_STALE_SECONDS)%Z in
  let batch_size := default EVALUATIONS_STUCK_RUN_SWEEP_BATCH_SIZE batch_size in
  runs ← gets (λ w, merge_sort (time_order ev_updated_at) (select_rows (stale_run cutoff) w));
  recovered ← recover_each_run (take batch_size (map fst runs)) cutoff now 0;
  runs ← redispatch_pending_evaluations batch_size now;
  cases ← redispatch_pending_cases batch_size now;
  mret (recovered + runs + cases).
End Evaluations.
