(* ===== verification/EvaluationSafety.v ===== *)
(** * What the evaluations guarantee

    The theorems on [Evaluations] and [Scoring].  While a case executes, other workers
    may do anything the services do: a provider and a handler may move the world along
    the same relation. *)

From stdpp Require Import base gmap strings list pretty sorting relations fin_map_dom.
From Stdlib Require Import ZArith QArith Qround SpecFloat Ascii String Lia.
From S2P Require Import Prelude Json Domain Policy Models Store Network Approvals ToolExec ToolSafety Graph Workspaces Conversations Tickets AgentRuns AgentSafety AgentOutcomes AgentContext AgentFrame Scoring Evaluations.

#[local] Close Scope Q_scope.
#[local] Open Scope nat_scope.

(** ** Counting rows *)

Section Counting.
Context {A : Type}.
Implicit Types (P Q : A → bool) (m : gmap N A).

(** The identifiers of the rows that satisfy [P]. *)
Definition ids_of P m : gset N := dom (filter (λ kv, P kv.2 = true) m).

Lemma elem_of_ids P m i : i ∈ ids_of P m ↔ ∃ r, m !! i = Some r ∧ P r = true.
Proof.
  unfold ids_of. rewrite elem_of_dom. split.
  - intros [r Hr]. apply map_lookup_filter_Some in Hr as [? ?]. by exists r.
  - intros (r & Hr & Hp). exists r. by apply map_lookup_filter_Some.
Qed.

Lemma ids_subset P Q m m' :
  (∀ i r, m !! i = Some r → P r = true → ∃ r', m' !! i = Some r' ∧ Q r' = true) →
  ids_of P m ⊆ ids_of Q m'.
Proof. intros Hpq i (r & Hr & Hp)%elem_of_ids. apply elem_of_ids. by eapply Hpq. Qed.

Lemma ids_insert_new P m i r :
  m !! i = None → P r = true → size (ids_of P (<[i := r]> m)) = S (size (ids_of P m)).
Proof.
  intros Hi Hp. replace (ids_of P (<[i := r]> m)) with ({[ i ]} ∪ ids_of P m).
  - rewrite size_union, size_singleton; [done|]. intros j ->%elem_of_singleton (r' & Hr & _)%elem_of_ids.
    congruence.
  - apply leibniz_equiv. intros j. rewrite elem_of_union, elem_of_singleton, !elem_of_ids. split.
    + intros [->|(r' & Hr & Hp')]; [exists r; by rewrite lookup_insert_eq|].
      exists r'. by rewrite lookup_insert_ne by (intros ->; congruence).
    + intros (r' & [[-> ->]|[Hne Hr]]%lookup_insert_Some & Hp'); [by left|right; eauto].
Qed.

Lemma ids_insert_skip P m i r :
  m !! i = None → P r = false → ids_of P (<[i := r]> m) = ids_of P m.
Proof.
  intros Hi Hp. apply leibniz_equiv. intros j. rewrite !elem_of_ids. split.
  - intros (r' & [[-> ->]|[Hne Hr]]%lookup_insert_Some & Hp'); [congruence|eauto].
  - intros (r' & Hr & Hp'). exists r'. by rewrite lookup_insert_ne by (intros ->; congruence).
Qed.
End Counting.

Lemma count_results_size P w :
  count_results P w = Z.of_nat (size (ids_of P (w_evaluation_results w))).
Proof.
  unfold count_results. f_equal. rewrite <- (length_map fst).
  assert (ids_of P (w_evaluation_results w) = list_to_set (map fst (select_rows (λ _ r, P r) w))) as ->.
  { apply leibniz_equiv. intros i. rewrite elem_of_ids, elem_of_list_to_set, list_elem_of_fmap. split.
    - intros (r & Hr & Hp). exists (i, r). split; [done|]. by apply in_select_rows.
    - intros ([j r] & -> & [Hj Hp]%in_select_rows). by exists r. }
  symmetry. apply size_list_to_set. apply select_rows_nodup.
Qed.

(** ** The state of the evaluations *)

Definition ended (r : EvaluationRun) : bool :=
  bool_decide (ev_status r ∈ [EvaluationRunStatus.SUCCEEDED; EvaluationRunStatus.PARTIAL;
                              EvaluationRunStatus.FAILED]).

Definition initial_ids (w : World) (i : N) : gset N :=
  ids_of (initial_of i) (w_evaluation_results w).
Definition scored_ids (w : World) (i : N) : gset N :=
  ids_of (λ r, initial_of i r && scored r) (w_evaluation_results w).

(** A run and its cases: its total is the number of its initial results but those
    still [missing]; the results it has counted were scored; an ended run has counted
    them all. *)
Record run_ok (missing : nat) (w : World) (i : N) (r : EvaluationRun) : Prop := {
  ro_total : ev_total_cases r = Z.of_nat (size (initial_ids w i) + missing);
  ro_completed : (ev_completed_cases r <= Z.of_nat (size (scored_ids w i)))%Z;
  ro_counters : counters_ok r = true;
  ro_failed : ev_failed_cases r = (ev_completed_cases r - ev_passed_cases r)%Z;
  ro_ended : ended r = true → ev_completed_cases r = ev_total_cases r;
  ro_cancelled : ev_status r = EvaluationRunStatus.CANCELLED ↔ is_Some (ev_cancelled_at r);
  ro_fits : fits 64 (ev_correlation_id r) = true;
}.

(** Only a case that could be scored passes or fails. *)
Definition verdict_ok (r : EvaluationResult) : Prop :=
  (er_passed r = Some true → er_status r = EvaluationResultStatus.SUCCEEDED) ∧
  (er_status r = EvaluationResultStatus.SUCCEEDED → is_Some (er_passed r)) ∧
  result_fits r = true ∧ er_estimated_cost_usd r = stored_cost <$> er_estimated_cost_usd r.

Record evaluations_but (missing : N → nat) (w : World) : Prop := {
  eb_runs i r : w_evaluation_runs w !! i = Some r →
    (i < w_next w)%N ∧ run_ok (missing i) w i r;
  eb_snapshots i s : w_evaluation_snapshots w !! i = Some s →
    (i < w_next w)%N ∧ is_Some (w_evaluation_runs w !! es_run s);
  eb_results i r : w_evaluation_results w !! i = Some r →
    (i < w_next w)%N ∧ verdict_ok r ∧ is_Some (w_evaluation_runs w !! er_run r) ∧
    ∃ s, w_evaluation_snapshots w !! er_case_snapshot r = Some s ∧ es_run s = er_run r;
  eb_snapshots_unique : unique snapshot_clash (w_evaluation_snapshots w);
  eb_results_unique : unique result_clash (w_evaluation_results w);
}.
Definition evaluations_ok : World → Prop := evaluations_but (λ _, 0).

(** ** What the services may change *)

Definition eval_run_step (s s' : EvaluationRunStatus.t) : Prop :=
  s' ∈ EVALUATION_RUN_ALLOWED_TRANSITIONS s.

Definition evaluation_evolves (r r' : EvaluationRun) : Prop :=
  ev_workspace r' = ev_workspace r ∧ ev_dataset r' = ev_dataset r ∧
  ev_agent_version r' = ev_agent_version r ∧ ev_threshold_config r' = ev_threshold_config r ∧
  ev_total_cases r' = ev_total_cases r ∧ ev_created_by r' = ev_created_by r ∧
  rtc eval_run_step (ev_status r) (ev_status r').

(** What a worker that is late does to a result it finds scored or failed: it stores the
    outcome it has, without looking
    ([EvaluationExamples.late_score_changes_ended_run]). *)
Definition late_outcomes (s : EvaluationResultStatus.t) : list EvaluationResultStatus.t :=
  match s with
  | EvaluationResultStatus.SUCCEEDED | EvaluationResultStatus.FAILED =>
      [EvaluationResultStatus.SUCCEEDED; EvaluationResultStatus.FAILED]
  | _ => []
  end.
(** What happens to a result: the transitions of the code's table, and those of late
    workers, which the table does not have. *)
Definition result_steps (s : EvaluationResultStatus.t) : list EvaluationResultStatus.t :=
  EVALUATION_RESULT_ALLOWED_TRANSITIONS s ++ late_outcomes s.
Definition result_step (s s' : EvaluationResultStatus.t) : Prop := s' ∈ result_steps s.

Definition result_evolves (r r' : EvaluationResult) : Prop :=
  er_run r' = er_run r ∧ er_case_snapshot r' = er_case_snapshot r ∧
  er_replay_of r' = er_replay_of r ∧ rtc result_step (er_status r) (er_status r').

Record eval_history (w w' : World) : Prop := {
  eh_runs i r : w_evaluation_runs w !! i = Some r →
    ∃ r', w_evaluation_runs w' !! i = Some r' ∧ evaluation_evolves r r';
  eh_snapshots i s : w_evaluation_snapshots w !! i = Some s →
    w_evaluation_snapshots w' !! i = Some s;
  eh_results i r : w_evaluation_results w !! i = Some r →
    ∃ r', w_evaluation_results w' !! i = Some r' ∧ result_evolves r r';
  eh_next : (w_next w <= w_next w')%N;
}.

Definition eval_rel (w w' : World) : Prop :=
  evaluations_ok w → evaluations_ok w' ∧ eval_history w w'.

Lemma evaluation_evolves_refl r : evaluation_evolves r r.
Proof. by split_and!; try apply rtc_refl. Qed.
Lemma result_evolves_refl r : result_evolves r r.
Proof. by split_and!; try apply rtc_refl. Qed.

#[export] Instance eval_history_preorder : PreOrder eval_history.
Proof.
  split.
  - intros w. split; [..|lia]; intros i r Hr; [|done|]; exists r; split; [done| |done|];
      [apply evaluation_evolves_refl|apply result_evolves_refl].
  - intros w1 w2 w3 [R1 S1 T1 N1] [R2 S2 T2 N2]. split; [| |..|lia].
    + intros i r Hr. destruct (R1 i r Hr) as (r2 & Hr2 & (?&?&?&?&?&?&?)).
      destruct (R2 i r2 Hr2) as (r3 & Hr3 & (?&?&?&?&?&?&?)). exists r3. split; [done|].
      split_and!; try congruence. by etrans.
    + auto.
    + intros i r Hr. destruct (T1 i r Hr) as (r2 & Hr2 & (?&?&?&?)).
      destruct (T2 i r2 Hr2) as (r3 & Hr3 & (?&?&?&?)). exists r3. split; [done|].
      split_and!; try congruence. by etrans.
Qed.
#[export] Instance eval_rel_preorder : PreOrder eval_rel.
Proof.
  split; [by intros w; split|]. intros w1 w2 w3 H12 H23 Hok.
  destruct (H12 Hok) as [Hok2 Hh]. destruct (H23 Hok2) as [Hok3 Hh']. split; [done|by etrans].
Qed.

(** What a status may become. *)
Lemma result_rtc s s' : rtc result_step s s' →
  s' = s ∨ match s with
           | EvaluationResultStatus.CANCELLED => False
           | EvaluationResultStatus.PENDING => True
           | _ => s' ∈ [EvaluationResultStatus.SUCCEEDED; EvaluationResultStatus.FAILED]
           end.
Proof.
  induction 1 as [s|s1 s2 s3 H12 H23 IH]; [by left|]. unfold result_step, result_steps in H12.
  destruct s1; simpl in *; [by right| | | |by apply elem_of_nil in H12];
    right; rewrite !elem_of_cons, elem_of_nil in H12;
    destruct H12 as [->|[->|[]]]; destruct IH as [->|IH]; (done || mem_decide).
Qed.

Lemma evolves_scored r r' : result_evolves r r' → scored r = true → scored r' = true.
Proof.
  intros (_ & _ & _ & Hst). unfold scored, has_result_status. apply result_rtc in Hst.
  destruct (er_status r); simpl; intros Hs; try discriminate;
    destruct Hst as [->|Hst]; try done; revert Hst; destruct (er_status r'); by absurd_mem || done.
Qed.

Lemma evolves_initial i r r' : result_evolves r r' → initial_of i r' = initial_of i r.
Proof. intros (Hr & _ & Hp & _). unfold initial_of. by rewrite Hr, Hp. Qed.

(** ** Moves

    What a write does to the tables, and that it keeps the evaluations in order. *)

(** The tables of the evaluations, but for the named one. *)
Record moved_runs (m : gmap N EvaluationRun) (w w' : World) : Prop := {
  mr_runs : w_evaluation_runs w' = m;
  mr_snapshots : w_evaluation_snapshots w' = w_evaluation_snapshots w;
  mr_results : w_evaluation_results w' = w_evaluation_results w;
  mr_next : (w_next w <= w_next w')%N;
}.
Record moved_results (m : gmap N EvaluationResult) (w w' : World) : Prop := {
  ms_runs : w_evaluation_runs w' = w_evaluation_runs w;
  ms_snapshots : w_evaluation_snapshots w' = w_evaluation_snapshots w;
  ms_results : w_evaluation_results w' = m;
  ms_next : (w_next w <= w_next w')%N;
}.

Lemma run_ok_mono n w w' i r :
  initial_ids w' i = initial_ids w i → scored_ids w i ⊆ scored_ids w' i →
  run_ok n w i r → run_ok n w' i r.
Proof.
  intros Hi Hs [Ht Hc Hk Hf He Hx Hl]. split; try done; [by rewrite Hi|].
  apply subseteq_size in Hs. lia.
Qed.

Lemma scored_within n w i r : run_ok n w i r → scored_ids w i ⊆ initial_ids w i.
Proof.
  intros _. apply ids_subset. intros j q Hj [Hp _]%andb_true_iff. by exists q.
Qed.

Lemma result_clash_sym a b : result_clash a b = result_clash b a.
Proof.
  unfold result_clash. rewrite <-!andb_assoc, (andb_comm (bool_decide (er_replay_of a = None))).
  f_equal. apply bool_decide_ext. split; congruence.
Qed.
Lemma snapshot_clash_sym a b : snapshot_clash a b = snapshot_clash b a.
Proof.
  unfold snapshot_clash. f_equal; [apply bool_decide_ext; split; congruence|].
  f_equal; [apply bool_decide_ext; split; congruence|apply String.eqb_sym].
Qed.

Lemma evolves_clash a a' b b' :
  result_evolves a a' → result_evolves b b' → result_clash a' b' = result_clash a b.
Proof.
  intros (_ & Ha & Hp & _) (_ & Hb & Hq & _). unfold result_clash. by rewrite Ha, Hb, Hp, Hq.
Qed.

Lemma results_move missing m w w' :
  moved_results m w w' → evaluations_but missing w →
  (∀ i r', m !! i = Some r' →
    ∃ r, w_evaluation_results w !! i = Some r ∧ result_evolves r r' ∧ verdict_ok r') →
  (∀ i r, w_evaluation_results w !! i = Some r → is_Some (m !! i)) →
  evaluations_but missing w' ∧ eval_history w w'.
Proof.
  intros [Er Es Em En] [Wr Ws Wm Us Um] Hback Hfwd. subst m.
  assert (Hto : ∀ i r, w_evaluation_results w !! i = Some r →
    ∃ r', w_evaluation_results w' !! i = Some r' ∧ result_evolves r r').
  { intros i r Hr. destruct (Hfwd i r Hr) as [r' Hr']. exists r'. split; [done|].
    destruct (Hback i r' Hr') as (r0 & Hr0 & ? & _). by simplify_eq. }
  split; split; rewrite ?Er, ?Es; try done.
  - intros i r Hr. destruct (Wr i r Hr) as [? Hok]. split; [lia|]. revert Hok. apply run_ok_mono.
    + apply leibniz_equiv. intros j. unfold initial_ids. rewrite !elem_of_ids. split.
      * intros (q & Hq & Hi). destruct (Hback j q Hq) as (q0 & Hq0 & He & _). exists q0.
        by rewrite <-(evolves_initial i q0 q He).
      * intros (q & Hq & Hi). destruct (Hto j q Hq) as (q1 & Hq1 & He). exists q1.
        by rewrite (evolves_initial i q q1 He).
    + apply ids_subset. intros j q Hq [Hi Hs]%andb_true_iff.
      destruct (Hto j q Hq) as (q1 & Hq1 & He). exists q1. split; [done|].
      by rewrite (evolves_initial i q q1 He), Hi, (evolves_scored q q1 He Hs).
  - intros i s Hs. destruct (Ws i s Hs). split; [lia|done].
  - intros i r' Hr'. destruct (Hback i r' Hr') as (r & Hr & (Hrun & Hsnap & _) & Hv).
    destruct (Wm i r Hr) as (? & _ & Hex & Hsn). rewrite Hrun, Hsnap. split_and!; [lia|done..].
  - intros i j a b Hne Ha Hb. destruct (Hback i a Ha) as (a0 & Ha0 & Hea & _).
    destruct (Hback j b Hb) as (b0 & Hb0 & Heb & _).
    rewrite (evolves_clash a0 a b0 b Hea Heb). by apply (Um i j).
  - intros i r Hr. exists r. split; [done|apply evaluation_evolves_refl].
Qed.

(** One result. *)
Lemma result_moves missing i r r' w w' :
  moved_results (<[i := r']> (w_evaluation_results w)) w w' →
  w_evaluation_results w !! i = Some r → result_evolves r r' → verdict_ok r' →
  evaluations_but missing w → evaluations_but missing w' ∧ eval_history w w'.
Proof.
  intros Hm Hr He Hv Hok. apply (results_move missing _ w w' Hm Hok).
  - intros j q [[<- <-]|[Hne Hq]]%lookup_insert_Some; [by exists r|].
    exists q. split_and!; [done|apply result_evolves_refl|].
    by destruct (eb_results missing w Hok j q Hq) as (_ & ? & _).
  - intros j q Hq. destruct (decide (i = j)) as [->|Hne]; [rewrite lookup_insert_eq; eauto|].
    rewrite lookup_insert_ne by done. eauto.
Qed.

(** The results that satisfy [P]. *)
Lemma results_updated missing (P : N → EvaluationResult → bool) f w w' :
  moved_results (map_imap (λ i r, Some (if P i r then f r else r)) (w_evaluation_results w)) w w' →
  (∀ i r, w_evaluation_results w !! i = Some r → P i r = true → verdict_ok r →
    result_evolves r (f r) ∧ verdict_ok (f r)) →
  evaluations_but missing w → evaluations_but missing w' ∧ eval_history w w'.
Proof.
  intros Hm Hf Hok. apply (results_move missing _ w w' Hm Hok).
  - intros i r'. rewrite rows_update. destruct (w_evaluation_results w !! i) as [r|] eqn:Hr; [|done].
    simpl. intros [= <-]. exists r. split; [done|].
    destruct (eb_results missing w Hok i r Hr) as (_ & Hv & _).
    destruct (P i r) eqn:Hp; [by apply (Hf i)|]. split; [apply result_evolves_refl|done].
  - intros i r Hr. rewrite rows_update, Hr. eauto.
Qed.

(** A run. *)
Lemma run_moves missing i r r' w w' :
  moved_runs (<[i := r']> (w_evaluation_runs w)) w w' → w_evaluation_runs w !! i = Some r →
  evaluation_evolves r r' → run_ok (missing i) w i r' →
  evaluations_but missing w → evaluations_but missing w' ∧ eval_history w w'.
Proof.
  intros [Er Es Em En] Hr He Hok' [Wr Ws Wm Us Um].
  assert (Hsome : ∀ j, is_Some (w_evaluation_runs w !! j) → is_Some (w_evaluation_runs w' !! j)).
  { intros j Hj. rewrite Er. destruct (decide (i = j)) as [->|Hne]; [rewrite lookup_insert_eq; eauto|].
    by rewrite lookup_insert_ne. }
  split; split; rewrite ?Es, ?Em; try done.
  - intros j q. rewrite Er. intros Hj.
    assert ((j < w_next w)%N ∧ run_ok (missing j) w j q) as [? Hq].
    { apply lookup_insert_Some in Hj as [[<- <-]|[_ Hj]]; [|by apply Wr].
      destruct (Wr i r Hr). split; done. }
    split; [lia|]. revert Hq. apply run_ok_mono; unfold initial_ids, scored_ids; by rewrite Em.
  - intros j s Hs. destruct (Ws j s Hs). split; [lia|by apply Hsome].
  - intros j q Hq. destruct (Wm j q Hq) as (? & ? & ? & ?). split_and!; [lia|done|by apply Hsome|done].
  - intros j q Hj. rewrite Er. destruct (decide (i = j)) as [<-|Hne].
    { simplify_eq. exists r'. by rewrite lookup_insert_eq. }
    exists q. rewrite lookup_insert_ne by done. split; [done|apply evaluation_evolves_refl].
  - intros j q Hj. exists q. split; [done|apply result_evolves_refl].
Qed.

(** What leaves the tables alone. *)
Lemma outer_frame_eval w w' : outer_frame w w' → eval_rel w w'.
Proof.
  intros [Ho Hn] Hok.
  assert (w_evaluation_results w' = w_evaluation_results w) as Em
    by exact (f_equal o_evaluation_results Ho).
  destruct (results_move (λ _, 0) (w_evaluation_results w) w w') as [? ?]; [|done|..|done].
  - split; [exact (f_equal o_evaluation_runs Ho)|exact (f_equal o_evaluation_snapshots Ho)|done..].
  - intros i r Hr. exists r. split_and!; [done|apply result_evolves_refl|].
    by destruct (eb_results _ w Hok i r Hr) as (_ & ? & _).
  - intros i r Hr. eauto.
Qed.
#[export] Instance eval_rel_within : Within eval_rel.
Proof. split; [apply _|apply outer_frame_eval]. Qed.

(** ** Saving a run and a result *)

Lemma stored_cost_idem c : stored_cost (stored_cost c) = stored_cost c.
Proof.
  unfold stored_cost at 1 3. unfold stored_cost at 1. f_equal.
  generalize (Qfloor (Qplus (Qmult c (Qmake 10000 1)) (Qmake 1 2))). intros n.
  unfold Qfloor, Qplus, Qmult. simpl. symmetry. apply Z.div_unique with (r := 10000%Z); lia.
Qed.

Lemma stored_result_fits now r : result_fits (stored_result now r) = result_fits r.
Proof.
  unfold result_fits. f_equal. simpl. destruct (er_estimated_cost_usd r) as [c|]; [|done].
  unfold cost_fits. cbn [fmap option_fmap option_map]. by rewrite stored_cost_idem.
Qed.
Lemma stored_result_evolves now r r' : result_evolves r r' → result_evolves r (stored_result now r').
Proof. done. Qed.

Definition stamped_run (now : Z) (r : EvaluationRun) : EvaluationRun := {| r with ev_updated_at := now |}.

Lemma wp_save_evaluation_run i r (Q : exn + () → World → Prop) w :
  ((fits 64 (ev_correlation_id r) && counters_ok r) = false → ∀ e, Q (inl e) w) →
  (fits 64 (ev_correlation_id r) = true → counters_ok r = true → ∀ w',
    moved_runs (<[i := stamped_run (w_now w) r]> (w_evaluation_runs w)) w w' →
    w_now w' = w_now w → Q (inr ()) w') →
  wp (save_evaluation_run i r) Q w.
Proof.
  intros He Hr. unfold save_evaluation_run. apply wp_bind. unfold raise_if at 1.
  destruct (fits _ _); simpl; [|by apply wp_raise, He]. apply wp_ret. wp_beta.
  apply wp_bind. unfold raise_if.
  destruct (counters_ok r); simpl; [|by apply wp_raise, He]. apply wp_ret. wp_beta.
  apply wp_bind, wp_get_now. wp_beta. apply wp_save_row. apply Hr; [done..| |done].
  split; [done|done|done|]. apply N.le_refl.
Qed.

Lemma wp_save_result i r (Q : exn + () → World → Prop) w :
  ((result_fits r = false ∨ clashes result_clash i (stored_result (w_now w) r) w = true) →
    ∀ e, Q (inl e) w) →
  (result_fits r = true → clashes result_clash i (stored_result (w_now w) r) w = false → ∀ w',
    moved_results (<[i := stored_result (w_now w) r]> (w_evaluation_results w)) w w' →
    w_now w' = w_now w → Q (inr ()) w') →
  wp (save_result i r) Q w.
Proof.
  intros He Hr. unfold save_result. apply wp_bind. unfold raise_if at 1.
  destruct (result_fits r); simpl; [|apply wp_raise, He; by left]. apply wp_ret. wp_beta.
  apply wp_bind, wp_get_now. wp_beta. apply wp_save_unique.
  destruct (clashes _ _ _ _) eqn:Hc; [apply He; by right|]. apply Hr; [done..| |done].
  split; [done|done|done|]. apply N.le_refl.
Qed.

(** A row that keeps its snapshot and its parent does not clash. *)
Lemma kept_result_unique missing i r r' w :
  evaluations_but missing w → w_evaluation_results w !! i = Some r → result_evolves r r' →
  clashes result_clash i r' w = false.
Proof.
  intros Hok Hr He. apply clashes_false. intros j q Hq Hne.
  rewrite (evolves_clash r r' q q He (result_evolves_refl q)).
  by apply (eb_results_unique missing w Hok i j).
Qed.

(** Saving a result that moved: it fails only when a column is too small. *)
Lemma wp_save_moved missing i r r' (Q : exn + () → World → Prop) w :
  evaluations_but missing w → w_evaluation_results w !! i = Some r → result_evolves r r' →
  (result_fits r' = true → verdict_ok (stored_result (w_now w) r')) →
  (result_fits r' = false → ∀ e, Q (inl e) w) →
  (∀ w', result_fits r' = true →
    moved_results (<[i := stored_result (w_now w) r']> (w_evaluation_results w)) w w' →
    w_now w' = w_now w → evaluations_but missing w' → eval_history w w' → Q (inr ()) w') →
  wp (save_result i r') Q w.
Proof.
  intros Hok Hr He Hv Hbad Hgood. apply wp_save_result.
  - intros [Hf|Hc]; [by apply Hbad|].
    by rewrite (kept_result_unique missing i r (stored_result (w_now w) r') w) in Hc.
  - intros Hf _ w' Hm Hn. destruct (result_moves missing i r (stored_result (w_now w) r') w w');
      [done..|by apply Hv|done|]. by apply Hgood.
Qed.

(** Saving a run that moved. *)
Lemma wp_save_run_moved i r r' (Q : exn + () → World → Prop) w :
  evaluations_ok w → w_evaluation_runs w !! i = Some r → evaluation_evolves r r' →
  (counters_ok r' = true → run_ok 0 w i (stamped_run (w_now w) r')) →
  (fits 64 (ev_correlation_id r') && counters_ok r' = false → ∀ e, Q (inl e) w) →
  (∀ w', moved_runs (<[i := stamped_run (w_now w) r']> (w_evaluation_runs w)) w w' →
    w_now w' = w_now w → evaluations_ok w' → eval_history w w' → Q (inr ()) w') →
  wp (save_evaluation_run i r') Q w.
Proof.
  intros Hok Hr He Hrok Hbad Hgood. apply wp_save_evaluation_run; [done|].
  intros _ Hc w' Hm Hn.
  destruct (run_moves (λ _, 0) i r (stamped_run (w_now w) r') w w'); [done..|by apply Hrok|done|].
  by apply Hgood.
Qed.

(** ** The counters *)

Lemma aggregate_spec i w :
  aggregate_case_counts i w =
    (Z.of_nat (size (scored_ids w i)),
     Z.of_nat (size (ids_of (λ r, initial_of i r && bool_decide (er_passed r = Some true))
                       (w_evaluation_results w)))).
Proof. unfold aggregate_case_counts. by rewrite !count_results_size. Qed.

(** Counting again is always possible. *)
Lemma recount_ok w i r r' :
  evaluations_ok w → w_evaluation_runs w !! i = Some r →
  (ev_completed_cases r', ev_passed_cases r') = aggregate_case_counts i w →
  ev_failed_cases r' = (ev_completed_cases r' - ev_passed_cases r')%Z →
  ev_total_cases r' = ev_total_cases r → ev_correlation_id r' = ev_correlation_id r →
  (ended r' = true → ended r = true) →
  (ev_status r' = EvaluationRunStatus.CANCELLED ↔ is_Some (ev_cancelled_at r')) →
  run_ok 0 w i r'.
Proof.
  intros Hok Hr Hc Hf Ht Hl He Hx. destruct (eb_runs _ w Hok i r Hr) as [_ Hrok].
  rewrite aggregate_spec in Hc. injection Hc as Hc Hp.
  pose proof (subseteq_size _ _ (scored_within 0 w i r Hrok)) as Hsub.
  pose proof (ro_total _ _ _ _ Hrok) as Htot. rewrite Nat.add_0_r in Htot.
  assert (Hps : ids_of (λ r, initial_of i r && bool_decide (er_passed r = Some true))
                  (w_evaluation_results w) ⊆ scored_ids w i).
  { apply ids_subset. intros j q Hq [Hi Hp'%bool_decide_eq_true]%andb_true_iff. exists q.
    split; [done|]. rewrite Hi. destruct (eb_results _ w Hok j q Hq) as (_ & (Hv & _) & _).
    unfold scored, has_result_status. rewrite (Hv Hp'). done. }
  apply subseteq_size in Hps. split.
  - rewrite Ht, Htot. lia.
  - lia.
  - unfold counters_ok. rewrite !andb_true_iff, !Z.leb_le. lia.
  - done.
  - intros Hend. pose proof (ro_ended _ _ _ _ Hrok (He Hend)). pose proof (ro_completed _ _ _ _ Hrok). lia.
  - done.
  - rewrite Hl. apply Hrok.
Qed.

(** The rest of a run keeps its counters. *)
Lemma status_ok n w i r r' :
  run_ok n w i r →
  ev_completed_cases r' = ev_completed_cases r → ev_passed_cases r' = ev_passed_cases r →
  ev_failed_cases r' = ev_failed_cases r → ev_total_cases r' = ev_total_cases r →
  ev_correlation_id r' = ev_correlation_id r →
  (ended r' = true → ev_completed_cases r = ev_total_cases r) →
  (ev_status r' = EvaluationRunStatus.CANCELLED ↔ is_Some (ev_cancelled_at r')) →
  run_ok n w i r'.
Proof.
  intros [Ht Hc Hk Hf He Hx Hl] Ec Ep Ef Et El Hend Hx'.
  split; try done; rewrite ?Et, ?Ec, ?Ef, ?Ep, ?El; try done.
  unfold counters_ok in *. by rewrite Et, Ec, Ef, Ep.
Qed.

(** ** The services on a run *)

(** The row a service has read. *)
Ltac found r Hr :=
  match goal with Hx : rows ?w !! _ = Some ?x |- _ => rename x into r; rename Hx into Hr end.

Section Services.
Context `{Settings} `{PyLib} `{Network} `{Encoding} `{TextEncoding} `{Providers}
  `{EvaluationSchemas}.

Definition in_order (w w' : World) : Prop := evaluations_ok w' ∧ eval_history w w'.

Lemma in_order_refl w : evaluations_ok w → in_order w w.
Proof. by split. Qed.
Lemma in_order_trans w1 w2 w3 : in_order w1 w2 → eval_rel w2 w3 → in_order w1 w3.
Proof. intros [Hok Hh] Hrel. destruct (Hrel Hok). split; [done|by etrans]. Qed.
Lemma in_order_frame w1 w2 w3 : in_order w1 w2 → outer_frame w2 w3 → in_order w1 w3.
Proof. intros H12 Hf. eapply in_order_trans; [done|by apply outer_frame_eval]. Qed.

Lemma included_in_order {A} (m : service A) :
  (∀ w, evaluations_ok w → wp m (λ _ w', in_order w w') w) → included eval_rel m.
Proof. intros Hm w Hok. by apply (Hm w Hok). Qed.
Lemma wp_included_order {A} (m : service A) w :
  included eval_rel m → evaluations_ok w → wp m (λ _ w', in_order w w') w.
Proof. intros Hm Hok. by apply (Hm w). Qed.

Lemma run_evolves_to r r' :
  ev_workspace r' = ev_workspace r → ev_dataset r' = ev_dataset r →
  ev_agent_version r' = ev_agent_version r → ev_threshold_config r' = ev_threshold_config r →
  ev_total_cases r' = ev_total_cases r → ev_created_by r' = ev_created_by r →
  ev_status r' ∈ EVALUATION_RUN_ALLOWED_TRANSITIONS (ev_status r) → evaluation_evolves r r'.
Proof. intros ???????. split_and!; try done. by apply rtc_once. Qed.

Lemma live_uncancelled n w i r :
  run_ok n w i r → ev_status r ≠ EvaluationRunStatus.CANCELLED → ev_cancelled_at r = None.
Proof.
  intros Hr Hs. destruct (ev_cancelled_at r) eqn:Hc; [|done]. destruct Hs. apply Hr. by rewrite Hc.
Qed.

Lemma claim_evaluation_run_rel run_id : included eval_rel (claim_evaluation_run run_id).
Proof.
  apply included_in_order. intros w Hok. unfold claim_evaluation_run. svc_steps;
    try by apply in_order_refl.
  apply negb_false_iff, bool_decide_eq_true in Heqb.
  found r Hr. destruct (eb_runs _ w Hok run_id r Hr) as [_ Hrok].
  eapply wp_save_run_moved; [done|done|..].
  - apply run_evolves_to; try done. simpl. rewrite Heqb. left.
  - intros _. apply (status_ok 0 w run_id r); try done. simpl.
    rewrite (live_uncancelled 0 w run_id r) by (done || by rewrite Heqb). by split; [|intros []].
  - intros _ e. by apply in_order_refl.
  - intros w' _ _ ? ?. svc_steps. by split.
Qed.

(** *** The end of a run *)

Definition passed_ids (w : World) (i : N) : gset N :=
  ids_of (λ r, initial_of i r && bool_decide (er_passed r = Some true)) (w_evaluation_results w).
Definition failed_ids (w : World) (i : N) : gset N :=
  ids_of (λ r, initial_of i r && has_result_status EvaluationResultStatus.FAILED r)
    (w_evaluation_results w).

(** The counters say what there is. *)
Record counted (w : World) (i : N) (r : EvaluationRun) : Prop := {
  ct_completed : ev_completed_cases r = Z.of_nat (size (scored_ids w i));
  ct_passed : ev_passed_cases r = Z.of_nat (size (passed_ids w i));
  ct_failed : ev_failed_cases r = (ev_completed_cases r - ev_passed_cases r)%Z;
}.

(** How a run that is complete ends. *)
Definition ends (w : World) (i : N) (r : EvaluationRun) : Prop :=
  ev_status r = final_status (ev_total_cases r) (Z.of_nat (size (failed_ids w i))) ∧
  ev_completed_at r = Some (w_now w).

Lemma wp_recount i r w :
  evaluations_ok w → w_evaluation_runs w !! i = Some r →
  wp (recount_run i) (λ o w', in_order w w' ∧ w_now w' = w_now w ∧
    w_evaluation_results w' = w_evaluation_results w ∧
    ∃ r', w_evaluation_runs w' !! i = Some r' ∧ counted w' i r' ∧ evaluation_evolves r r' ∧
      ev_status r' = ev_status r ∧
      o = inr (bool_decide (ev_status r = EvaluationRunStatus.RUNNING)
               && (ev_total_cases r <=? ev_completed_cases r')%Z)) w.
Proof.
  intros Hok Hr. destruct (eb_runs _ w Hok i r Hr) as [_ Hrok].
  unfold recount_run. apply wp_atomic, wp_bind, wp_get_row. change (rows w) with (w_evaluation_runs w).
  rewrite Hr. wp_beta. apply wp_bind, wp_gets. wp_beta. cbv zeta. apply wp_bind.
  set (r1 := recounted _ r).
  assert (Hok1 : run_ok 0 w i (stamped_run (w_now w) r1)) by (apply (recount_ok w i r); try done; apply Hrok).
  assert (He : evaluation_evolves r r1) by (split_and!; try done; apply rtc_refl).
  eapply (wp_save_run_moved i r r1); [done..| |].
  - intros Hbad. pose proof (ro_counters _ _ _ _ Hok1) as Hc. pose proof (ro_fits _ _ _ _ Hrok) as Hf.
    change (counters_ok r1 = true) in Hc. change (ev_correlation_id r1) with (ev_correlation_id r) in Hbad.
    by rewrite Hc, Hf in Hbad.
  - intros w' [Er Es Em En] Hnow ? ?. apply wp_ret. split; [by split|]. split; [done|]. split; [done|].
    exists (stamped_run (w_now w) r1). rewrite Er, lookup_insert_eq. split; [done|].
    split; [|by split]. unfold r1. rewrite aggregate_spec. split; simpl;
      [by unfold scored_ids; rewrite Em|by unfold passed_ids; rewrite Em|done].
Qed.

Lemma final_status_ended total failed r :
  ev_status r = final_status total failed → ended r = true.
Proof. unfold ended, final_status. intros ->. by repeat case_match. Qed.

Lemma wp_finalize i r w :
  evaluations_ok w → w_evaluation_runs w !! i = Some r →
  wp (finalize_evaluation_run i) (λ o w', in_order w w' ∧ w_now w' = w_now w ∧
    w_evaluation_results w' = w_evaluation_results w ∧
    if bool_decide (ev_status r = EvaluationRunStatus.RUNNING)
       && (ev_total_cases r <=? ev_completed_cases r)%Z
    then ∃ r', w_evaluation_runs w' !! i = Some r' ∧ o = inr (Some (ev_status r')) ∧ ends w' i r' ∧
      ev_completed_cases r' = ev_completed_cases r ∧ ev_passed_cases r' = ev_passed_cases r ∧
      ev_failed_cases r' = ev_failed_cases r ∧ ev_total_cases r' = ev_total_cases r
    else o = inr None ∧ w' = w) w.
Proof.
  intros Hok Hr. destruct (eb_runs _ w Hok i r Hr) as [_ Hrok].
  pose proof (ro_counters _ _ _ _ Hrok) as Hc. pose proof (ro_fits _ _ _ _ Hrok) as Hf.
  unfold finalize_evaluation_run. apply wp_atomic, wp_bind, wp_get_row.
  change (rows w) with (w_evaluation_runs w). rewrite Hr. wp_beta.
  destruct (bool_decide_reflect (ev_status r = EvaluationRunStatus.RUNNING)) as [Hrun|Hrun]; simpl;
    [|apply wp_ret; by split; [apply in_order_refl|]].
  rewrite Z.leb_antisym. destruct (Z.ltb_spec (ev_completed_cases r) (ev_total_cases r)) as [Hlt|Hge];
    simpl; [apply wp_ret; by split; [apply in_order_refl|]|].
  apply wp_bind, wp_gets. wp_beta. rewrite count_results_size. cbv zeta.
  apply wp_bind, wp_get_now. wp_beta. apply wp_bind. set (r1 := finished_run _ _ r).
  pose proof Hc as Hc'. unfold counters_ok in Hc'. rewrite !andb_true_iff, !Z.leb_le in Hc'.
  assert (Hok1 : run_ok 0 w i (stamped_run (w_now w) r1)).
  { apply (status_ok 0 w i r); try done; [lia|]. simpl.
    rewrite (live_uncancelled 0 w i r) by (done || by rewrite Hrun).
    split; [unfold final_status; by repeat case_match|intros []; done]. }
  eapply (wp_save_run_moved i r r1); [done..| |done| |].
  - apply run_evolves_to; try done. simpl. rewrite Hrun. unfold final_status. repeat case_match; mem_decide.
  - intros Hbad. change (counters_ok r1) with (counters_ok r) in Hbad.
    change (ev_correlation_id r1) with (ev_correlation_id r) in Hbad. by rewrite Hc, Hf in Hbad.
  - intros w1 [Er Es Em En] Hnow ? ?. apply wp_bind, wp_record_event. wp_beta. apply wp_ret.
    set (w2 := {| w1 with w_audit := _ |}).
    split; [eapply in_order_frame; [by split|]; split; [done|reflexivity]|]. split; [done|].
    split; [done|]. exists (stamped_run (w_now w) r1).
    change (w_evaluation_runs w2) with (w_evaluation_runs w1). rewrite Er, lookup_insert_eq.
    split; [done|]. split; [done|]. split; [|done].
    split; [|exact (f_equal Some (eq_sym Hnow))]. unfold failed_ids.
    change (w_evaluation_results w2) with (w_evaluation_results w1). by rewrite Em.
Qed.

Lemma wp_record_completion i r result w :
  evaluations_ok w → w_evaluation_runs w !! i = Some r →
  wp (record_case_completion i result) (λ o w', o = inr () ∧ in_order w w' ∧
    w_evaluation_results w' = w_evaluation_results w ∧
    (er_replay_of result = None → ∃ r', w_evaluation_runs w' !! i = Some r' ∧ counted w' i r' ∧
       if bool_decide (ev_status r = EvaluationRunStatus.RUNNING)
          && bool_decide (scored_ids w i = initial_ids w i)
       then ends w' i r' else ev_status r' = ev_status r)) w.
Proof.
  intros Hok Hr. destruct (eb_runs _ w Hok i r Hr) as [_ Hrok]. unfold record_case_completion.
  destruct (bool_decide_reflect (er_replay_of result = None)) as [Hn|Hn];
    [|apply wp_ret; by split_and!; try apply in_order_refl].
  apply wp_bind. eapply wp_mono; [by apply wp_recount|].
  intros o w1 (Ho1 & Hnow & Em & r1 & Hr1 & Hc1 & He1 & Hs1 & ->). wp_beta.
  assert (Hfull : (ev_total_cases r <=? ev_completed_cases r1)%Z
    = bool_decide (scored_ids w i = initial_ids w i)).
  { rewrite (ct_completed _ _ _ Hc1), (ro_total _ _ _ _ Hrok), Nat.add_0_r. unfold scored_ids.
    rewrite Em. pose proof (scored_within 0 w i r Hrok) as Hsub. apply eq_bool_prop_intro.
    rewrite !Is_true_true, Z.leb_le, bool_decide_eq_true. split.
    - intros Hle. apply leibniz_equiv, set_subseteq_size_equiv; [done|]. unfold scored_ids in *. lia.
    - unfold scored_ids. intros ->. lia. }
  rewrite Hfull. destruct (_ && _) eqn:Hb; simpl.
  - apply andb_true_iff in Hb as [Hrun%bool_decide_eq_true Hall]. rewrite Hall in Hfull.
    apply wp_bind. eapply wp_mono; [apply (wp_finalize i r1); [apply Ho1|done]|].
    intros o w2 (Ho2 & Hnow2 & Em2 & Hend). rewrite Hs1, Hrun, bool_decide_eq_true_2 in Hend by done.
    destruct He1 as (_ & _ & _ & _ & Ht & _). rewrite Ht, Hfull in Hend. simpl in Hend.
    destruct Hend as (r2 & Hr2 & -> & Hends & Ec & Ep & Ef & _). wp_beta. apply wp_ret.
    split; [done|]. split; [split; [apply Ho2|etrans; [apply Ho1|apply Ho2]]|]. split; [by rewrite Em2|].
    intros _. exists r2. split; [done|]. split; [|done]. destruct Hc1 as [C1 C2 C3].
    split; unfold scored_ids, passed_ids in *; rewrite ?Em2; congruence.
  - apply wp_ret. split; [done|]. split; [done|]. split; [done|]. intros _. by exists r1.
Qed.

Lemma finalize_rel run_id : included eval_rel (finalize_evaluation_run run_id).
Proof.
  apply included_in_order. intros w Hok. destruct (w_evaluation_runs w !! run_id) as [r|] eqn:Hr.
  - eapply wp_mono; [by apply (wp_finalize run_id r)|]. by intros o w' [? _].
  - unfold finalize_evaluation_run. svc_steps; cbn in *; simplify_eq. by apply in_order_refl.
Qed.
Lemma recount_rel run_id : included eval_rel (recount_run run_id).
Proof.
  apply included_in_order. intros w Hok. destruct (w_evaluation_runs w !! run_id) as [r|] eqn:Hr.
  - eapply wp_mono; [by apply (wp_recount run_id r)|]. by intros o w' [? _].
  - unfold recount_run. svc_steps; cbn in *; simplify_eq. by apply in_order_refl.
Qed.
Hint Resolve claim_evaluation_run_rel finalize_rel recount_rel : core_frame.

Lemma record_completion_rel run_id result : included eval_rel (record_case_completion run_id result).
Proof. unfold record_case_completion. core_steps. Qed.
Hint Resolve record_completion_rel : core_frame.

Lemma start_body_rel run_id : included eval_rel (start_evaluation_run_body run_id).
Proof.
  unfold start_evaluation_run_body, dispatch_pending_case_executions, dispatch_case_executions.
  core_steps.
Qed.

(** ** The services on a result *)

(** A worker has claimed the result. *)
Definition started (w : World) (i : N) : Prop :=
  ∃ r, w_evaluation_results w !! i = Some r ∧
    er_status r ∈ [EvaluationResultStatus.RUNNING; EvaluationResultStatus.SUCCEEDED;
                   EvaluationResultStatus.FAILED].
(** It has its outcome. *)
Definition settled_case (w : World) (i : N) : Prop :=
  ∃ r, w_evaluation_results w !! i = Some r ∧ scored r = true.

Lemma settled_started w i : settled_case w i → started w i.
Proof.
  intros (r & Hr & Hs). exists r. split; [done|]. revert Hs. unfold scored, has_result_status.
  by destruct (er_status r); try discriminate; intros _; mem_decide.
Qed.

Lemma started_later w w' i : eval_history w w' → started w i → started w' i.
Proof.
  intros Hh (r & Hr & Hs). destruct (eh_results _ _ Hh i r Hr) as (r' & Hr' & (_ & _ & _ & Hst)).
  exists r'. split; [done|]. apply result_rtc in Hst. destruct (er_status r);
    try (exfalso; revert Hs; absurd_mem); destruct Hst as [->|Hst]; try done; by right.
Qed.
Lemma settled_later w w' i : eval_history w w' → settled_case w i → settled_case w' i.
Proof.
  intros Hh (r & Hr & Hs). destruct (eh_results _ _ Hh i r Hr) as (r' & Hr' & He).
  exists r'. split; [done|by eapply evolves_scored].
Qed.

(** The status a claimed result may be given. *)
Lemma settles r r' :
  er_status r ∈ [EvaluationResultStatus.RUNNING; EvaluationResultStatus.SUCCEEDED;
                 EvaluationResultStatus.FAILED] →
  er_status r' ∈ [EvaluationResultStatus.SUCCEEDED; EvaluationResultStatus.FAILED] →
  er_run r' = er_run r → er_case_snapshot r' = er_case_snapshot r →
  er_replay_of r' = er_replay_of r → result_evolves r r'.
Proof.
  intros Hs Hs' Er Ec Ep. split_and!; try done. apply rtc_once. unfold result_step.
  destruct (er_status r); try done; revert Hs; absurd_mem.
Qed.

(** How a claim ends. *)
Definition claim_outcome (result_id : N) (w : World) (r : EvaluationResult)
    (o : exn + option EvaluationResult) (w' : World) : Prop :=
  in_order w w' ∧
  if negb (has_result_status EvaluationResultStatus.PENDING r) then o = inr None ∧ w' = w
  else ∃ run, w_evaluation_runs w !! er_run r = Some run ∧
    if bool_decide (ev_status run = EvaluationRunStatus.CANCELLED)
    then o = inr None ∧ w_evaluation_results w' =
           <[result_id := stored_result (w_now w) (cancelled_result (w_now w) r)]>
             (w_evaluation_results w)
    else o = inr (Some (running_result (w_now w) r)) ∧ w_evaluation_results w' =
           <[result_id := stored_result (w_now w) (running_result (w_now w) r)]>
             (w_evaluation_results w).

Lemma verdict_later r r' now :
  verdict_ok r → er_passed r' = er_passed r →
  er_estimated_cost_usd r' = er_estimated_cost_usd r → result_fits r' = true →
  er_status r ≠ EvaluationResultStatus.SUCCEEDED → er_status r' ≠ EvaluationResultStatus.SUCCEEDED →
  verdict_ok (stored_result now r').
Proof.
  intros (Hp & _ & _ & Hc) Ep Ec Hf Hs Hs'. split_and!.
  - simpl. rewrite Ep. intros Hx. by destruct Hs, Hp.
  - done.
  - by rewrite stored_result_fits.
  - simpl. rewrite Ec, Hc. destruct (er_estimated_cost_usd r); simpl; [by rewrite !stored_cost_idem|done].
Qed.

Lemma wp_claim_result i r w :
  evaluations_ok w → w_evaluation_results w !! i = Some r →
  wp (claim_evaluation_result i) (claim_outcome i w r) w.
Proof.
  intros Hok Hr. destruct (eb_results _ w Hok i r Hr) as (_ & Hv & [run Hrun] & _).
  destruct (eb_runs _ w Hok _ run Hrun) as [_ Hrok].
  unfold claim_evaluation_result. apply wp_atomic, wp_bind, wp_get_row.
  change (rows w) with (w_evaluation_results w). rewrite Hr. wp_beta. apply wp_bind, wp_get_row.
  change (rows w) with (w_evaluation_runs w). rewrite Hrun. wp_beta. apply wp_bind, wp_get_row.
  change (rows w) with (w_evaluation_results w). rewrite Hr. wp_beta. unfold claim_outcome.
  destruct (has_result_status _ r) eqn:Hp; simpl; [|apply wp_ret; by split; [apply in_order_refl|]].
  apply bool_decide_eq_true in Hp. pose proof Hv as (_ & _ & Hfit & _).
  apply wp_bind, wp_get_now. wp_beta.
  assert (Hor : bool_decide (ev_cancelled_at run ≠ None) =
                bool_decide (ev_status run = EvaluationRunStatus.CANCELLED)).
  { apply bool_decide_ext. rewrite (ro_cancelled _ _ _ _ Hrok). split.
    - destruct (ev_cancelled_at run); [eauto|done].
    - by intros [? ->]. }
  rewrite Hor, orb_diag. destruct (decide (ev_status run = EvaluationRunStatus.CANCELLED)) as [Hcan|Hcan];
    [rewrite (bool_decide_eq_true_2 _ Hcan)|rewrite (bool_decide_eq_false_2 _ Hcan)].
  - eapply wp_bind, (wp_save_moved _ i r); [done|done| | | |].
    + split_and!; try done. apply rtc_once. unfold result_step. rewrite Hp. simpl. mem_decide.
    + intros Hf. apply (verdict_later r); try done. by rewrite Hp.
    + intros Hf. change (result_fits r = false) in Hf. congruence.
    + intros w' _ [] Hnow ? ?. apply wp_ret. split; [by split|]. exists run. split; [done|].
      rewrite bool_decide_eq_true_2 by done. done.
  - eapply wp_bind, (wp_save_moved _ i r); [done|done| | | |].
    + split_and!; try done. apply rtc_once. unfold result_step. rewrite Hp. simpl. mem_decide.
    + intros Hf. apply (verdict_later r); try done. by rewrite Hp.
    + intros Hf. change (result_fits r = false) in Hf. congruence.
    + intros w' _ [] Hnow ? ?. apply wp_ret. split; [by split|]. exists run. split; [done|].
      rewrite bool_decide_eq_false_2 by done. done.
Qed.

(** The run of a result that got its outcome: counted again, and ended when nothing is
    left to do. *)
Definition run_follows (run_id : N) (w w' : World) : Prop :=
  ∀ run, w_evaluation_runs w !! run_id = Some run →
  ∃ run', w_evaluation_runs w' !! run_id = Some run' ∧ counted w' run_id run' ∧
    if bool_decide (ev_status run = EvaluationRunStatus.RUNNING)
       && bool_decide (scored_ids w' run_id = initial_ids w' run_id)
    then ends w' run_id run' else ev_status run' = ev_status run.

(** What the last transactions of a case guarantee. *)
Definition case_settled (result_id : N) (r : EvaluationResult) (status : EvaluationResultStatus.t)
    (w : World) (o : exn + EvaluationResult) (w' : World) : Prop :=
  in_order w w' ∧ settled_case w' result_id ∧ (∃ a, o = inr a ∧ er_status a = status) ∧
  (er_replay_of r = None → run_follows (er_run r) w w').

Lemma terminated_fits r code message now :
  result_fits r = true → result_fits (terminated_result code message now r) = true.
Proof.
  unfold result_fits. rewrite !andb_true_iff. intros [[[? _] ?] ?]. split_and?; try done.
  unfold fits. apply Nat.leb_le. simpl. rewrite str_take_length. lia.
Qed.

Lemma follows_saved run_id w w1 w2 :
  moved_results (w_evaluation_results w1) w w1 → run_follows run_id w1 w2 → run_follows run_id w w2.
Proof. intros [Er _ _ _] Hf run Hrun. apply Hf. by rewrite Er. Qed.

(** The row is saved, then the run follows. *)
Lemma wp_settle i r r' run_id result w :
  evaluations_ok w → w_evaluation_results w !! i = Some r →
  er_status r ∈ [EvaluationResultStatus.RUNNING; EvaluationResultStatus.SUCCEEDED;
                 EvaluationResultStatus.FAILED] →
  result_evolves r r' → scored r' = true → result_fits r' = true →
  verdict_ok (stored_result (w_now w) r') → run_id = er_run r → er_replay_of result = er_replay_of r →
  wp (save_result i r') (λ o w1, o = inr () ∧
    wp (record_case_completion run_id result) (λ o2 w2, o2 = inr () ∧ in_order w w2 ∧
      settled_case w2 i ∧ (er_replay_of r = None → run_follows run_id w w2)) w1) w.
Proof.
  intros Hok Hr Hs He Hsc Hfit Hv -> Hp. destruct (eb_results _ w Hok i r Hr) as (_ & _ & [run Hrun] & _).
  eapply (wp_save_moved _ i r r'); [done..|congruence|].
  intros w1 _ Hm Hnow Hok1 Hh1. split; [done|].
  assert (Hrun1 : w_evaluation_runs w1 !! er_run r = Some run) by by rewrite (ms_runs _ _ _ Hm).
  assert (Hset1 : settled_case w1 i).
  { exists (stored_result (w_now w) r'). rewrite (ms_results _ _ _ Hm), lookup_insert_eq. done. }
  eapply wp_mono; [by apply (wp_record_completion (er_run r) run result w1)|].
  intros o w2 (-> & [Hok2 Hh2] & Em & Hf). split; [done|]. split; [split; [done|by etrans]|].
  split; [by eapply settled_later|]. intros Hn run0 Hrun0. simplify_eq.
  destruct (Hf ltac:(congruence)) as (run' & Hrun' & Hc & Hend). exists run'. split; [done|]. split; [done|].
  unfold scored_ids, initial_ids. by rewrite Em.
Qed.

Lemma wp_terminate i r result code message w :
  evaluations_ok w → w_evaluation_results w !! i = Some r →
  er_status r ∈ [EvaluationResultStatus.RUNNING; EvaluationResultStatus.SUCCEEDED;
                 EvaluationResultStatus.FAILED] →
  er_run result = er_run r → er_replay_of result = er_replay_of r →
  wp (terminate_result i result code message)
    (case_settled i r EvaluationResultStatus.FAILED w) w.
Proof.
  intros Hok Hr Hs Hrun Hp. destruct (eb_results _ w Hok i r Hr) as (_ & (Hv1 & Hv2 & Hfit & Hcost) & _).
  unfold terminate_result. apply wp_bind, wp_atomic, wp_bind, wp_get_row.
  change (rows w) with (w_evaluation_results w). rewrite Hr. wp_beta.
  apply wp_bind, wp_get_now. wp_beta. cbv zeta. set (r1 := terminated_result code message (w_now w) r).
  assert (Hset : wp (save_result i r1) (λ o w1, o = inr () ∧
    wp (record_case_completion (er_run result) r1) (λ o2 w2, o2 = inr () ∧ in_order w w2 ∧
      settled_case w2 i ∧ (er_replay_of r = None → run_follows (er_run result) w w2)) w1) w).
  { apply (wp_settle i r r1); try done.
    - apply (settles r r1); try done. simpl. mem_decide.
    - by apply terminated_fits.
    - split_and!; [done..|by rewrite stored_result_fits; apply terminated_fits|].
      simpl. rewrite Hcost. destruct (er_estimated_cost_usd r); simpl; [by rewrite !stored_cost_idem|done]. }
  apply wp_bind. eapply wp_mono; [exact Hset|]. intros o w1 [-> Hrest]. wp_beta. apply wp_ret. wp_beta.
  apply wp_bind. rewrite Hp. unfold when. destruct (bool_decide_reflect (er_replay_of r = None)) as [Hn|Hn].
  - eapply wp_mono; [exact Hrest|]. intros o w2 (-> & Ho & Hsc & Hf). wp_beta. apply wp_ret.
    split_and!; try done; [by exists r1|]. by rewrite <-Hrun.
  - unfold record_case_completion in Hrest.
    rewrite bool_decide_eq_false_2 in Hrest by exact Hn. destruct Hrest as (_ & Ho & Hsc & _).
    apply wp_ret. wp_beta. apply wp_ret. split_and!; try done. by exists r1.
Qed.

Lemma wp_store_score i r run_id agent_run score w :
  evaluations_ok w → w_evaluation_results w !! i = Some r →
  er_status r ∈ [EvaluationResultStatus.RUNNING; EvaluationResultStatus.SUCCEEDED;
                 EvaluationResultStatus.FAILED] →
  run_id = er_run r →
  wp (store_score i run_id agent_run score) (λ o w',
    if result_fits (scored_result agent_run score (w_now w) r)
    then case_settled i r EvaluationResultStatus.SUCCEEDED w o w'
    else o = inl DataError ∧ w' = w) w.
Proof.
  intros Hok Hr Hs ->. unfold store_score. apply wp_bind, wp_atomic, wp_bind, wp_get_row.
  change (rows w) with (w_evaluation_results w). rewrite Hr. wp_beta.
  apply wp_bind, wp_get_now. wp_beta. cbv zeta. set (r1 := scored_result agent_run score (w_now w) r).
  destruct (result_fits r1) eqn:Hfit.
  - assert (Hset : wp (save_result i r1) (λ o w1, o = inr () ∧
      wp (record_case_completion (er_run r) r1) (λ o2 w2, o2 = inr () ∧ in_order w w2 ∧
        settled_case w2 i ∧ (er_replay_of r = None → run_follows (er_run r) w w2)) w1) w).
    { apply (wp_settle i r r1); try done.
      - apply (settles r r1); try done. simpl. mem_decide.
      - split_and!; [done|by eexists|by rewrite stored_result_fits|].
        simpl. destruct (so_estimated_cost_usd _); simpl; [by rewrite !stored_cost_idem|done]. }
    apply wp_bind. eapply wp_mono; [exact Hset|]. intros o w1 [-> Hrest]. wp_beta. apply wp_ret. wp_beta.
    apply wp_bind. eapply wp_mono; [exact Hrest|]. intros o w2 (-> & Ho & Hsc & Hf). wp_beta. apply wp_ret.
    split_and!; try done. by exists r1.
  - apply wp_bind. unfold save_result. apply wp_bind. unfold raise_if. rewrite Hfit. by apply wp_raise.
Qed.

(** ** The execution of a case

    [executed i r w o w']: a worker that has claimed the result [r] leaves it claimed,
    and scored when it returns; the run has then counted it, and is not running once
    nothing is left to do. *)
Definition executed (i : N) (r : EvaluationResult) (w : World) (o : exn + EvaluationResult)
    (w' : World) : Prop :=
  in_order w w' ∧ started w' i ∧ ∀ a, o = inr a →
    er_status a ∈ [EvaluationResultStatus.SUCCEEDED; EvaluationResultStatus.FAILED] ∧
    settled_case w' i ∧
    (er_replay_of r = None → ∃ run, w_evaluation_runs w' !! er_run r = Some run ∧
      counted w' (er_run r) run ∧
      (scored_ids w' (er_run r) = initial_ids w' (er_run r) →
       ev_status run ≠ EvaluationRunStatus.RUNNING)).

Lemma settled_executed i r status w o w' :
  evaluations_ok w → w_evaluation_results w !! i = Some r →
  status ∈ [EvaluationResultStatus.SUCCEEDED; EvaluationResultStatus.FAILED] →
  case_settled i r status w o w' → executed i r w o w'.
Proof.
  intros Hok Hr Hst (Ho & Hsc & (a & -> & Ha) & Hf). split; [done|]. split; [by apply settled_started|].
  intros b [= <-]. split; [by rewrite Ha|]. split; [done|]. intros Hn.
  destruct (eb_results _ w Hok i r Hr) as (_ & _ & [run Hrun] & _).
  destruct (Hf Hn run Hrun) as (run' & Hrun' & Hc & Hend). exists run'. split; [done|]. split; [done|].
  intros Hall. rewrite (bool_decide_eq_true_2 _ Hall), andb_true_r in Hend.
  destruct (bool_decide_reflect (ev_status run = EvaluationRunStatus.RUNNING)) as [Hs|Hs];
    [|by rewrite Hend].
  destruct Hend as [Hend _]. apply final_status_ended in Hend. intros Hx. unfold ended in Hend.
  by rewrite Hx in Hend.
Qed.

(** The row of a claimed result as other workers leave it. *)
Definition same_case (r r' : EvaluationResult) : Prop :=
  er_run r' = er_run r ∧ er_case_snapshot r' = er_case_snapshot r ∧ er_replay_of r' = er_replay_of r ∧
  er_status r' ∈ [EvaluationResultStatus.RUNNING; EvaluationResultStatus.SUCCEEDED;
                  EvaluationResultStatus.FAILED].
Lemma case_later w w' i r :
  eval_history w w' → w_evaluation_results w !! i = Some r → same_case r r →
  ∃ r', w_evaluation_results w' !! i = Some r' ∧ same_case r r'.
Proof.
  intros Hh Hr (_ & _ & _ & Hs). destruct (eh_results _ _ Hh i r Hr) as (r1 & Hr1 & (? & ? & ? & _)).
  destruct (started_later w w' i Hh) as (r2 & Hr2 & Hs2); [by exists r|]. simplify_eq. exists r1.
  by split_and!.
Qed.

Lemma executed_later i r r1 w w1 o w' :
  in_order w w1 → same_case r r1 → executed i r1 w1 o w' → executed i r w o w'.
Proof.
  intros Ho (Hrun & _ & Hp & _) ([? ?] & Hst & He). rewrite Hrun, Hp in He.
  split; [split; [done|]; etrans; [apply Ho|done]|]. by split.
Qed.

Lemma claimed_raises i r w (e : exn) w' :
  w_evaluation_results w !! i = Some r → same_case r r → in_order w w' → executed i r w (inl e) w'.
Proof.
  intros Hr Hs [? ?]. split; [done|]. split; [|done]. eapply started_later; [done|].
  exists r. split; [done|apply Hs].
Qed.

Lemma wp_terminate_executed i r result code message w :
  evaluations_ok w → w_evaluation_results w !! i = Some r → same_case r r →
  er_run result = er_run r → er_replay_of result = er_replay_of r →
  wp (terminate_result i result code message) (executed i r w) w.
Proof.
  intros Hok Hr (_ & _ & _ & Hs) Hrun Hp. eapply wp_mono; [by apply (wp_terminate i r)|].
  intros o w' Hc. eapply settled_executed; [done|done| |exact Hc]. right. left.
Qed.

Context (tool_registry : Registry).
Context (handlers_allowed : ∀ key tool context arguments, tool_registry key = Some tool →
  included eval_rel (handler tool context arguments)).
Context (scenarios_allowed : ∀ raw request, included eval_rel (untyped_answer raw request)).

Lemma provider_calls_rel f :
  included eval_rel (modify (E := exn) (in_outer (λ o, {| o with o_provider_calls := f o |}))).
Proof. intros w. apply outer_frame_eval. split; [done|reflexivity]. Qed.
Hint Resolve provider_calls_rel : core_frame.

Lemma fake_generate_rel i scenarios request : included eval_rel (fake_generate i scenarios request).
Proof.
  unfold fake_generate. core_step; [core_step|]. core_step; [apply provider_calls_rel|]. core_steps.
Qed.

Lemma build_fake_rel llm_scenarios : included eval_rel (build_fake_llm_provider llm_scenarios).
Proof. unfold build_fake_llm_provider. repeat first [apply provider_calls_rel|core_step]. Qed.

Lemma wp_build_fake llm_scenarios w :
  wp (build_fake_llm_provider llm_scenarios) (λ o _, ∀ p, o = inr p →
    ∀ request, included eval_rel (p request)) w.
Proof.
  unfold build_fake_llm_provider. apply wp_bind, wp_of_sum. destruct (case_scenarios llm_scenarios);
    wp_beta; [done|]. svc_steps. intros p [= <-] request. apply fake_generate_rel.
Qed.

Lemma score_case_rel run_id run expectations : included eval_rel (score_case run_id run expectations).
Proof. unfold score_case. core_steps. Qed.

Lemma wp_run_case i r result run snapshot fake w :
  evaluations_ok w → w_evaluation_results w !! i = Some r → same_case r r →
  er_run result = er_run r → er_replay_of result = er_replay_of r →
  (∀ request, included eval_rel (fake request)) →
  wp (run_case tool_registry i result run snapshot fake) (executed i r w) w.
Proof.
  intros Hok Hr Hs Hrun Hp Hfake. unfold run_case. cbv zeta.
  assert (Hlater : ∀ (w1 : World) m, in_order w w1 →
    (∀ r1, w_evaluation_results w1 !! i = Some r1 → same_case r r1 → wp m (executed i r1 w1) w1) →
    wp m (executed i r w) w1).
  { intros w1 m [Hok1 Hh1] Hm. destruct (case_later w w1 i r Hh1 Hr Hs) as (r1 & Hr1 & Hs1).
    eapply wp_mono; [by apply Hm|]. intros o w'. by apply executed_later. }
  assert (Hterm : ∀ (w1 : World) code message, in_order w w1 →
    wp (terminate_result i result code message) (executed i r w) w1).
  { intros w1 code message Ho1. apply Hlater; [done|]. intros r1 Hr1 (E1 & E2 & E3 & E4).
    apply wp_terminate_executed; try done; [apply Ho1|congruence..]. }
  assert (Hstep : ∀ B (m : service B) w1, in_order w w1 → included eval_rel m →
    wp m (λ _ w2, in_order w w2) w1).
  { intros B m w1 Ho1 Hm. eapply in_order_trans; [exact Ho1|apply Hm]. }
  apply wp_bind. eapply wp_mono; [apply Hstep; [by apply in_order_refl|]|].
  { unfold create_evaluation_agent_run. core_step; [core_step|]. apply within_insert_run, _. }
  intros [e|agent_run] w1 Ho1; wp_beta; [by apply claimed_raises|].
  apply wp_bind. eapply wp_mono; [apply Hstep; [done|apply within_claim_agent_run, _]|].
  intros [e|[held|]] w2 Ho2; wp_beta; [by apply claimed_raises| |by apply Hterm].
  apply wp_bind, wp_attempt. eapply wp_mono; [apply Hstep; [done|]|].
  { core_step; [|core_step]. apply within_execute_claimed; [apply _|exact handlers_allowed|exact Hfake]. }
  intros [e|ex] w3 Ho3; wp_beta; [by apply Hterm|].
  apply wp_bind, wp_attempt. eapply wp_mono; [apply Hstep; [done|apply score_case_rel]|].
  intros [e|[message|score]] w4 Ho4; wp_beta; [by apply Hterm..|].
  apply Hlater; [done|]. intros r4 Hr4 (E1 & E2 & E3 & E4).
  eapply wp_mono; [apply (wp_store_score i r4 (er_run result) agent_run score w4); try done;
    [apply Ho4|congruence]|].
  intros o w5 Hc. destruct (result_fits _).
  - eapply settled_executed; [apply Ho4|done| |exact Hc]. left.
  - destruct Hc as [-> ->]. apply claimed_raises; [done|by split_and!|].
    apply in_order_refl, Ho4.
Qed.

(** A result that is claimed, and where its worker goes. *)
Lemma wp_execute_case i r w :
  evaluations_ok w → w_evaluation_results w !! i = Some r →
  wp (execute_evaluation_case tool_registry i) (λ o w', in_order w w' ∧
    match er_status r with
    | EvaluationResultStatus.PENDING =>
        if bool_decide (ev_status <$> w_evaluation_runs w !! er_run r = Some EvaluationRunStatus.CANCELLED)
        then ∃ a, o = inr a ∧ er_status a = EvaluationResultStatus.CANCELLED ∧
             w_evaluation_results w' !! i = Some a
        else executed i r w o w'
    | _ => o = inr r ∧ w' = w
    end) w.
Proof.
  intros Hok Hr. destruct (eb_results _ w Hok i r Hr) as (_ & _ & [run Hrun] & s & Hsnap & _).
  unfold execute_evaluation_case. apply wp_bind. eapply wp_mono; [by apply (wp_claim_result i r)|].
  intros o w1 [Ho1 Hc]. destruct (has_result_status EvaluationResultStatus.PENDING r) eqn:Hp; simpl in Hc.
  2:{ destruct Hc as [-> ->]. wp_beta. apply wp_get_row. change (rows w) with (w_evaluation_results w).
      rewrite Hr. split; [done|]. unfold has_result_status in Hp.
      destruct (er_status r); by try apply bool_decide_eq_false in Hp. }
  apply bool_decide_eq_true in Hp. rewrite Hp. destruct Hc as (run0 & Hrun0 & Hc).
  rewrite Hrun in Hrun0. injection Hrun0 as <-.
  rewrite Hrun. cbn [fmap option_fmap option_map].
  destruct (decide (ev_status run = EvaluationRunStatus.CANCELLED)) as [Hcan|Hcan].
  - rewrite bool_decide_eq_true_2 in Hc by done. rewrite bool_decide_eq_true_2 by congruence.
    destruct Hc as [-> Em]. wp_beta. apply wp_get_row. change (rows w1) with (w_evaluation_results w1).
    rewrite Em, lookup_insert_eq. split; [done|]. by eexists.
  - rewrite bool_decide_eq_false_2 in Hc by done. rewrite bool_decide_eq_false_2 by congruence.
    destruct Hc as [-> Em]. wp_beta. set (r1 := running_result (w_now w) r) in *.
    set (r2 := stored_result (w_now w) r1) in *.
    assert (Hr2 : w_evaluation_results w1 !! i = Some r2) by by rewrite Em, lookup_insert_eq.
    assert (Hs2 : same_case r2 r2) by (split_and!; try done; left).
    assert (Hs : same_case r r2) by (split_and!; try done; left).
    assert (Hlater : ∀ o w', executed i r2 w1 o w' → in_order w w' ∧ executed i r w o w').
    { intros o w' He. pose proof (executed_later i r r2 w w1 o w' Ho1 Hs He). split; [|done]. by destruct H6. }
    apply wp_bind, wp_get_row. change (rows w1) with (w_evaluation_snapshots w1).
    change (er_case_snapshot r1) with (er_case_snapshot r).
    rewrite (eh_snapshots _ _ (proj2 Ho1) _ s Hsnap). wp_beta.
    apply wp_bind, wp_get_row. change (rows w1) with (w_evaluation_runs w1).
    destruct (eh_runs _ _ (proj2 Ho1) _ run Hrun) as (run1 & Hrun1 & _). 
    change (er_run r1) with (er_run r). rewrite Hrun1. wp_beta.
    assert (Hok1 := proj1 Ho1).
    destruct INTEGRATIONS_LIVE_PROVIDERS_ENABLED.
    { eapply wp_mono; [by apply (wp_terminate_executed i r2)|]. apply Hlater. }
    apply wp_bind, wp_of_sum. destruct (scenarios_of s) as [e|llm_scenarios]; wp_beta.
    { apply Hlater. by apply claimed_raises; try apply in_order_refl. }
    apply wp_bind, wp_attempt.
    pose proof (wp_build_fake llm_scenarios w1) as Hf.
    pose proof (wp_included_order _ w1 (build_fake_rel llm_scenarios) Hok1) as Ho.
    unfold wp in Hf, Ho |- *. destruct (build_fake_llm_provider llm_scenarios w1) as [[e|fake] w2];
      simpl in Hf, Ho |- *.
    all: destruct (case_later w1 w2 i r2 (proj2 Ho) Hr2 Hs2) as (r3 & Hr3 & Hs3).
    all: pose proof Hs3 as (E1 & _ & E3 & E4).
    all: assert (Hl2 : ∀ o w', executed i r3 w2 o w' → in_order w w' ∧ executed i r w o w') by
      (intros o w' He; eapply Hlater, executed_later; [exact Ho|exact Hs3|done]).
    + assert (Hraise : ∀ e' : exn, in_order w w2 ∧ executed i r w (inl e') w2).
      { intros e'. apply Hlater. by apply claimed_raises. }
      destruct e; try apply Hraise. eapply wp_mono; [|exact Hl2].
      apply wp_terminate_executed; [apply Ho|done|by split_and!|exact (eq_sym E1)|exact (eq_sym E3)].
    + eapply wp_mono; [|exact Hl2].
      apply wp_run_case; [apply Ho|done|by split_and!|exact (eq_sym E1)|exact (eq_sym E3)|auto].
Qed.

Lemma execute_case_rel i : included eval_rel (execute_evaluation_case tool_registry i).
Proof.
  apply included_in_order. intros w Hok. destruct (w_evaluation_results w !! i) as [r|] eqn:Hr.
  - eapply wp_mono; [by apply (wp_execute_case i r)|]. by intros o w' [? _].
  - unfold execute_evaluation_case, claim_evaluation_result. svc_steps; cbn in *; simplify_eq.
    by apply in_order_refl.
Qed.

(** ** New rows *)

Lemma results_bound missing w i :
  evaluations_but missing w → (w_next w <= i)%N → w_evaluation_results w !! i = None.
Proof.
  intros Hok Hi. destruct (w_evaluation_results w !! i) eqn:Hr; [|done].
  destruct (eb_results _ w Hok i _ Hr). lia.
Qed.

(** A result joins its run. *)
Lemma result_added missing missing' i r w w' :
  moved_results (<[i := r]> (w_evaluation_results w)) w w' →
  w_evaluation_results w !! i = None → (i < w_next w')%N →
  scored r = false → verdict_ok r → clashes result_clash i r w = false →
  is_Some (w_evaluation_runs w !! er_run r) →
  (∃ s, w_evaluation_snapshots w !! er_case_snapshot r = Some s ∧ es_run s = er_run r) →
  (∀ k, missing k = missing' k + (if initial_of k r then 1 else 0)) →
  evaluations_but missing w → evaluations_but missing' w' ∧ eval_history w w'.
Proof.
  intros [Er Es Em En] Hi Hlt Hsc Hv Hc Hrun Hsnap Hmiss [Wr Ws Wm Us Um].
  split; split; rewrite ?Er, ?Es; try done.
  - intros k q Hq. destruct (Wr k q Hq) as [? [Ht Hcm Hk Hf He Hx Hl]]. split; [lia|].
    assert (Hscored : scored_ids w' k = scored_ids w k).
    { unfold scored_ids. rewrite Em. apply ids_insert_skip; [done|]. by rewrite Hsc, andb_false_r. }
    split; try done; [|by rewrite Hscored].
    rewrite Ht, (Hmiss k). unfold initial_ids. rewrite Em. destruct (initial_of k r) eqn:Hini.
    + rewrite ids_insert_new by done. lia.
    + rewrite ids_insert_skip by done. lia.
  - intros k s Hs. destruct (Ws k s Hs). split; [lia|done].
  - intros k q. rewrite Em. intros [[<- <-]|[Hne Hq]]%lookup_insert_Some; [done|].
    destruct (Wm k q Hq) as (? & ? & ? & ?). split_and!; [lia|done..].
  - rewrite Em. exact (unique_insert result_clash result_clash_sym i r w Um Hc).
  - intros k q Hq. exists q. split; [done|apply evaluation_evolves_refl].
  - intros k q Hq. exists q. rewrite Em, lookup_insert_ne by congruence.
    split; [done|apply result_evolves_refl].
Qed.

Lemma snapshot_added missing i s w w' :
  w_evaluation_runs w' = w_evaluation_runs w → w_evaluation_results w' = w_evaluation_results w →
  w_evaluation_snapshots w' = <[i := s]> (w_evaluation_snapshots w) →
  w_evaluation_snapshots w !! i = None → (i < w_next w')%N → (w_next w <= w_next w')%N →
  is_Some (w_evaluation_runs w !! es_run s) → clashes snapshot_clash i s w = false →
  evaluations_but missing w → evaluations_but missing w' ∧ eval_history w w'.
Proof.
  intros Er Em Es Hi Hlt En Hrun Hc [Wr Ws Wm Us Um].
  assert (Hkept : ∀ k q, w_evaluation_snapshots w !! k = Some q → w_evaluation_snapshots w' !! k = Some q).
  { intros k q Hq. rewrite Es, lookup_insert_ne by congruence. done. }
  split; split; rewrite ?Er, ?Em; try done.
  - intros k q Hq. destruct (Wr k q Hq). split; [lia|]. revert select (run_ok _ _ _ _).
    apply run_ok_mono; unfold initial_ids, scored_ids; by rewrite Em.
  - intros k q. rewrite Es. intros [[<- <-]|[_ Hq]]%lookup_insert_Some; [done|].
    destruct (Ws k q Hq). split; [lia|done].
  - intros k q Hq. destruct (Wm k q Hq) as (? & ? & ? & s0 & ? & ?). split_and!; [lia|done..|].
    exists s0. auto.
  - rewrite Es. exact (unique_insert snapshot_clash snapshot_clash_sym i s w Us Hc).
  - intros k q Hq. exists q. split; [done|apply evaluation_evolves_refl].
  - intros k q Hq. exists q. split; [done|apply result_evolves_refl].
Qed.

Lemma run_added missing n i r w w' :
  moved_runs (<[i := r]> (w_evaluation_runs w)) w w' → evaluations_ok w →
  w_evaluation_runs w !! i = None → (i < w_next w')%N → run_ok n w i r →
  missing i = n → (∀ k, k ≠ i → missing k = 0) →
  evaluations_but missing w' ∧ eval_history w w'.
Proof.
  intros [Er Es Em En] [Wr Ws Wm Us Um] Hi Hlt Hrok Hn Hz.
  assert (Hkept : ∀ k, is_Some (w_evaluation_runs w !! k) → is_Some (w_evaluation_runs w' !! k)).
  { intros k [q Hq]. rewrite Er, lookup_insert_ne by congruence. eauto. }
  split; split; rewrite ?Es, ?Em; try done.
  - intros k q. rewrite Er. intros [[<- <-]|[Hne Hq]]%lookup_insert_Some.
    + split; [done|]. rewrite Hn. revert Hrok. apply run_ok_mono; unfold initial_ids, scored_ids; by rewrite Em.
    + destruct (Wr k q Hq) as [? Hq']. split; [lia|]. rewrite Hz by done. revert Hq'.
      apply run_ok_mono; unfold initial_ids, scored_ids; by rewrite Em.
  - intros k s Hs. destruct (Ws k s Hs). split; [lia|auto].
  - intros k q Hq. destruct (Wm k q Hq) as (? & ? & ? & ?). split_and!; [lia|done|auto|done].
  - intros k q Hq. exists q. rewrite Er, lookup_insert_ne by congruence.
    split; [done|apply evaluation_evolves_refl].
  - intros k q Hq. exists q. split; [done|apply result_evolves_refl].
Qed.

Lemma pending_verdict run snapshot replay_of now now' :
  verdict_ok (stored_result now' (pending_result run snapshot replay_of now)).
Proof. by split_and!. Qed.

(** The cases still to be added to the run. *)
Definition still (run : N) (n : nat) (k : N) : nat := if bool_decide (k = run) then n else 0.

Lemma wp_create_snapshots run seq cases w :
  is_Some (w_evaluation_runs w !! run) → evaluations_but (still run (List.length cases)) w →
  wp (create_snapshots run seq cases) (λ o w', o = inr () →
    evaluations_but (still run 0) w' ∧ eval_history w w') w.
Proof.
  revert seq w. induction cases as [|case cases IH]; intros seq w Hrun Hok; simpl; [by apply wp_ret|].
  apply wp_bind, wp_get_now. wp_beta. apply wp_bind, wp_fresh. wp_beta.
  set (w1 := {| w with w_next := _ |}). apply wp_bind, wp_save_unique.
  destruct (clashes _ _ _ _) eqn:Hc; [done|]. wp_beta.
  set (w2 := set_rows _ w1). set (i := w_next w) in *. set (s := snapshot_of run seq case) in *.
  assert (Hi : w_evaluation_snapshots w !! i = None).
  { destruct (w_evaluation_snapshots w !! i) eqn:Hs; [|done]. destruct (eb_snapshots _ w Hok i _ Hs). lia. }
  destruct (snapshot_added (still run (S (List.length cases))) i s w w2) as [Hok2 Hh2];
    [done..|simpl; lia|simpl; lia|done|done|done|].
  assert (Hrun2 : is_Some (w_evaluation_runs w2 !! run)) by done.
  assert (Hs2 : w_evaluation_snapshots w2 !! i = Some s) by apply lookup_insert_eq.
  clearbody w2. clear w1 Hc. apply wp_bind, wp_fresh. wp_beta. set (w3 := {| w2 with w_next := _ |}).
  apply wp_bind, wp_save_result; [done|]. intros _ Hc w4 [Er Es Em En] Hnow. wp_beta.
  set (r := stored_result _ _) in *.
  destruct (result_added (still run (S (List.length cases))) (still run (List.length cases))
    (w_next w2) r w2 w4) as [Hok4 Hh4].
  - split; [done|done|done|]. simpl in En. lia.
  - by eapply results_bound.
  - simpl in En. lia.
  - done.
  - apply pending_verdict.
  - exact Hc.
  - done.
  - by exists s.
  - intros k. unfold still, initial_of. simpl.
    rewrite (bool_decide_ext (run = k) (k = run)) by (split; congruence).
    destruct (bool_decide (k = run)); simpl; lia.
  - done.
  - eapply wp_mono; [apply IH; [by rewrite Er|done]|]. intros o w' Ho Hr.
    destruct (Ho Hr) as [? ?]. split; [done|]. etrans; [exact Hh2|]. by etrans.
Qed.

Lemma but_still run w : evaluations_but (still run 0) w → evaluations_ok w.
Proof.
  intros [Wr Ws Wm Us Um]. split; try done. intros i r Hr. destruct (Wr i r Hr) as [? Hok].
  split; [done|]. unfold still in Hok. by destruct (bool_decide _).
Qed.

Lemma start_run_rel workspace actor dataset version_id version thresholds request_id :
  included eval_rel
    (start_evaluation_run workspace actor dataset version_id version thresholds request_id).
Proof.
  apply included_in_order. intros w Hok. unfold start_evaluation_run. apply wp_bind. unfold raise_if at 1.
  destruct (negb _); [by apply wp_raise, in_order_refl|]. apply wp_ret. wp_beta.
  apply wp_bind, wp_gets. wp_beta. set (cases := merge_sort _ _). apply wp_bind. unfold raise_if at 1.
  destruct (bool_decide _); [by apply wp_raise, in_order_refl|]. apply wp_ret. wp_beta.
  apply wp_atomic, wp_bind, wp_get_now. wp_beta. apply wp_bind, wp_fresh. wp_beta.
  set (w1 := {| w with w_next := _ |}). set (run := w_next w).
  apply wp_bind, wp_save_evaluation_run; [intros _ e; by apply in_order_refl|].
  intros Hf Hc w2 [Er Es Em En] Hnow. wp_beta. set (r := stamped_run _ _) in *.
  assert (Hnone : w_evaluation_runs w !! run = None).
  { destruct (w_evaluation_runs w !! run) eqn:Hr; [|done]. destruct (eb_runs _ w Hok run _ Hr). lia. }
  destruct (run_added (still run (List.length cases)) (List.length cases) run r w w2) as [Hok2 Hh2].
  - split; [done|done|done|]. simpl in En. lia.
  - done.
  - done.
  - simpl in En. lia.
  - assert (Hno : ∀ P : EvaluationResult → bool,
      ids_of (λ q, initial_of run q && P q) (w_evaluation_results w) = ∅).
    { intros P. apply leibniz_equiv. intros k. rewrite elem_of_ids. split; [|done].
      intros (q & Hq & [[Hrq%bool_decide_eq_true _]%andb_true_iff _]%andb_true_iff).
      destruct (eb_results _ w Hok k q Hq) as (_ & _ & [x Hx] & _). congruence. }
    assert (Hini : initial_ids w run = ∅).
    { rewrite <-(Hno (λ _, true)). unfold initial_ids. apply leibniz_equiv. intros k.
      rewrite !elem_of_ids. by setoid_rewrite andb_true_r. }
    split; try done; [by rewrite Hini|unfold scored_ids; rewrite Hno; simpl; lia|by split; [|intros []]].
  - unfold still. by rewrite bool_decide_eq_true_2.
  - intros k Hk. unfold still. by rewrite bool_decide_eq_false_2.
  - apply wp_bind. eapply wp_mono; [apply wp_create_snapshots; [|done]|].
    { rewrite Er, lookup_insert_eq. eauto. }
    intros [e|[]] w3 Hcs; wp_beta; [by apply in_order_refl|].
    destruct (Hcs eq_refl) as [Hok3%but_still Hh3]. svc_steps.
    eapply in_order_frame; [split; [exact Hok3|by etrans]|]. split; [done|reflexivity].
Qed.

(** ** Cancellation, replay and recovery *)

Lemma cancel_run_rel workspace run_id actor :
  included eval_rel (cancel_evaluation_run workspace run_id actor).
Proof.
  apply included_in_order. intros w Hok. unfold cancel_evaluation_run. apply wp_atomic, wp_bind, wp_get_row.
  change (rows w) with (w_evaluation_runs w).
  destruct (w_evaluation_runs w !! run_id) as [r|] eqn:Hr; wp_beta; [|by apply in_order_refl].
  apply wp_bind. unfold raise_if at 1. destruct (is_terminal_run r) eqn:Hterm;
    [by apply wp_raise, in_order_refl|]. apply wp_ret. wp_beta.
  apply wp_bind, wp_get_now. wp_beta. apply wp_bind, wp_gets. wp_beta.
  apply wp_bind, wp_update_rows. wp_beta. set (w1 := set_rows _ w).
  destruct (results_updated (λ _, 0) (pending_initial run_id) (cancelled_result (w_now w)) w w1)
    as [Hok1 Hh1]; [by split| |done|].
  { intros i q Hq Hp (Hv1 & Hv2 & Hv3 & Hv4). unfold pending_initial, has_result_status in Hp.
    apply andb_true_iff in Hp as [_ Hp%bool_decide_eq_true].
    split; [split_and!; try done|split_and!; try done].
    - apply rtc_once. unfold result_step. rewrite Hp. simpl. mem_decide.
    - simpl. intros Hx. apply Hv1 in Hx. congruence. }
  assert (Hr1 : w_evaluation_runs w1 !! run_id = Some r) by exact Hr. clearbody w1.
  apply wp_bind, wp_gets. wp_beta. apply wp_bind.
  apply (wp_save_run_moved run_id r); [done|done|..].
  - apply run_evolves_to; try done. simpl. unfold is_terminal_run in Hterm.
    apply bool_decide_eq_false in Hterm. destruct (ev_status r); try mem_decide.
    all: destruct Hterm; mem_decide.
  - intros _. by apply (recount_ok w1 run_id r).
  - intros _ e. by apply in_order_refl.
  - intros w2 _ _ Hok2 Hh2. wp_beta. svc_steps. eapply in_order_frame; [split; [exact Hok2|by etrans]|].
    split; [done|reflexivity].
Qed.

(** The object the caller holds is a version of the row. *)
Lemma replay_rel workspace actor i result :
  included (λ w w', (∃ r, w_evaluation_results w !! i = Some r ∧ result_evolves result r) →
    eval_rel w w') (replay_evaluation_case workspace actor i result).
Proof.
  intros w (r & Hr & (Erun & Esnap & Erep & _)) Hok. change (in_order w (replay_evaluation_case workspace actor i result w).2).
  cut (wp (replay_evaluation_case workspace actor i result) (λ _ w', in_order w w') w); [done|].
  destruct (eb_results _ w Hok i r Hr) as (_ & _ & Hrun & s & Hs & Hsrun).
  unfold replay_evaluation_case. svc_steps; try by apply in_order_refl.
  apply wp_save_result; [intros _ ?; by apply in_order_refl|]. intros _ Hc w2 [Er Es Em En] Hnow.
  svc_steps. set (w1 := {| w with w_next := _ |}) in *. set (q := stored_result _ _) in *.
  destruct (result_added (λ _, 0) (λ _, 0) (w_next w) q w w2) as [Hok2 Hh2].
  - split; [done|done|done|]. simpl in En. lia.
  - by eapply results_bound.
  - simpl in En. lia.
  - done.
  - apply pending_verdict.
  - exact Hc.
  - simpl. by rewrite <-Erun.
  - exists s. simpl. by rewrite <-Esnap, <-Erun.
  - intros k. unfold initial_of. change (er_replay_of q) with (Some i).
    by rewrite (bool_decide_eq_false_2 (Some i = None)), andb_false_r by done.
  - done.
  - eapply in_order_frame; [by split|]. split; [done|reflexivity].
Qed.

(** What a replay does to the results: those there are stay as they are, and it adds a
    pending one of the same case at most, which names the result it replays. *)
Record replayed (i : N) (result : EvaluationResult) (w w' : World) : Prop := {
  rp_kept k q : w_evaluation_results w !! k = Some q → w_evaluation_results w' !! k = Some q;
  rp_added k q : w_evaluation_results w' !! k = Some q →
    w_evaluation_results w !! k = Some q ∨
    er_replay_of q = Some i ∧ er_status q = EvaluationResultStatus.PENDING ∧
    er_run q = er_run result ∧ er_case_snapshot q = er_case_snapshot result;
}.

Lemma replayed_row i result j q w w' :
  w_evaluation_results w !! j = None →
  w_evaluation_results w' = <[j := q]> (w_evaluation_results w) →
  er_replay_of q = Some i → er_status q = EvaluationResultStatus.PENDING →
  er_run q = er_run result → er_case_snapshot q = er_case_snapshot result →
  replayed i result w w'.
Proof.
  intros Hj E Ho Hs Hn Hc. split; intros k p; rewrite E.
  - intros Hp. rewrite lookup_insert_ne; [done|]. intros <-. congruence.
  - intros [[<- <-]|[_ Hp]]%lookup_insert_Some; [right; by split_and!|by left].
Qed.

Lemma replay_keeps workspace actor i result w :
  evaluations_ok w → replayed i result w (replay_evaluation_case workspace actor i result w).2.
Proof.
  intros Hok. cut (wp (replay_evaluation_case workspace actor i result)
    (λ _ w', replayed i result w w') w); [done|].
  assert (Hsame : ∀ w', w_evaluation_results w' = w_evaluation_results w → replayed i result w w').
  { intros w' E. split; intros k q; rewrite E; auto. }
  unfold replay_evaluation_case. svc_steps; try by apply Hsame.
  apply wp_save_result; [intros _ ?; by apply Hsame|]. intros _ _ w2 [_ _ Em _] _.
  pose proof (results_bound (λ _, 0) w (w_next w) Hok (N.le_refl _)) as Hnone.
  svc_steps. eapply replayed_row; [exact Hnone|exact Em|done..].
Qed.

Lemma stale_crashes run_id cutoff now w w1 :
  moved_results (map_imap (λ k q, Some (if stale_result run_id cutoff k q then crashed_result now q else q))
    (w_evaluation_results w)) w w1 →
  evaluations_ok w → in_order w w1.
Proof.
  intros Hm Hok. apply (results_updated (λ _, 0) (stale_result run_id cutoff) (crashed_result now) w w1);
    [done| |done].
  intros k q Hq Hp (Hv1 & Hv2 & Hv3 & Hv4). unfold stale_result, running_initial, has_result_status in Hp.
  apply andb_true_iff in Hp as [[_ Hp%bool_decide_eq_true]%andb_true_iff _].
  split; [apply settles; try done; [rewrite Hp; left|simpl; mem_decide]|].
  split_and!; try done. unfold result_fits in Hv3 |- *. rewrite !andb_true_iff in Hv3 |- *.
  destruct_and!. split_and!; done.
Qed.

Lemma recover_cases_rel run_id cutoff now :
  included eval_rel (recover_stuck_cases run_id cutoff now).
Proof.
  apply included_in_order. intros w Hok. unfold recover_stuck_cases. apply wp_atomic, wp_bind, wp_get_row.
  change (rows w) with (w_evaluation_runs w).
  destruct (w_evaluation_runs w !! run_id) as [r|] eqn:Hr; wp_beta; [|by apply in_order_refl].
  destruct (negb _); [by apply wp_ret, in_order_refl|].
  destruct (_ <? _)%Z; [by apply wp_ret, in_order_refl|].
  apply wp_bind, wp_gets. wp_beta. apply wp_bind, wp_gets. wp_beta.
  destruct (_ && _); [by apply wp_ret, in_order_refl|].
  apply wp_bind, wp_update_rows. wp_beta. set (w1 := set_rows _ w).
  destruct (stale_crashes run_id cutoff now w w1) as [Hok1 Hh1]; [by split|done|].
  assert (Hr1 : w_evaluation_runs w1 !! run_id = Some r) by exact Hr. clearbody w1.
  destruct (eb_runs _ w1 Hok1 run_id r Hr1) as [_ Hrok].
  apply wp_bind, wp_gets. wp_beta. cbv zeta. apply wp_bind.
  apply (wp_save_run_moved run_id r); [done|done|..].
  - by split_and!; try apply rtc_refl.
  - intros _. apply (recount_ok w1 run_id r); try done. apply Hrok.
  - intros _ e. by apply in_order_refl.
  - intros w2 _ _ Hok2 Hh2. wp_beta. apply wp_ret. split; [exact Hok2|by etrans].
Qed.
Hint Resolve recover_cases_rel : core_frame.

Lemma recover_one_rel run_id cutoff now :
  included eval_rel (recover_one_stuck_evaluation run_id cutoff now).
Proof. unfold recover_one_stuck_evaluation. core_steps. Qed.
Hint Resolve recover_one_rel : core_frame.

Lemma recover_each_rel run_ids cutoff now n :
  included eval_rel (recover_each_run run_ids cutoff now n).
Proof. revert n. induction run_ids as [|i run_ids IH]; intros n; simpl; core_steps. Qed.
Hint Resolve recover_each_rel : core_frame.

Lemma recover_stuck_runs_rel batch_size now :
  included eval_rel (recover_stuck_evaluation_runs batch_size now).
Proof.
  unfold recover_stuck_evaluation_runs, redispatch_pending_evaluations, redispatch_pending_cases,
    dispatch_case_executions. core_steps.
Qed.

(** The datasets and their cases are not part of a run. *)
Definition config_written (w w' : World) : Prop :=
  w_evaluation_runs w' = w_evaluation_runs w ∧ w_evaluation_snapshots w' = w_evaluation_snapshots w ∧
  w_evaluation_results w' = w_evaluation_results w ∧ (w_next w <= w_next w')%N.
Lemma config_written_rel w w' : config_written w w' → eval_rel w w'.
Proof.
  intros (Er & Es & Em & En) Hok. apply (results_move (λ _, 0) (w_evaluation_results w)); [by split|done| |].
  - intros i r Hr. exists r. split_and!; [done|apply result_evolves_refl|].
    by destruct (eb_results _ w Hok i r Hr) as (_ & ? & _).
  - intros i r Hr. eauto.
Qed.

Lemma save_dataset_rel i d : included eval_rel (save_dataset i d).
Proof.
  unfold save_dataset, save_unique. core_steps. intros w. apply config_written_rel. by split_and!.
Qed.
Lemma save_case_rel i c : included eval_rel (save_case i c).
Proof.
  unfold save_case, save_unique. core_steps. intros w. apply config_written_rel. by split_and!.
Qed.
Hint Resolve save_dataset_rel save_case_rel : core_frame.

Lemma create_dataset_rel ws actor name d s : included eval_rel (create_evaluation_dataset ws actor name d s).
Proof. unfold create_evaluation_dataset, dataset_event. core_steps. Qed.
Lemma update_dataset_rel ws i dataset actor name d s :
  included eval_rel (update_evaluation_dataset ws i dataset actor name d s).
Proof. unfold update_evaluation_dataset, dataset_event. core_steps. Qed.
Lemma create_case_rel ws i actor key name input s seeded expectations :
  included eval_rel (create_evaluation_case ws i actor key name input s seeded expectations).
Proof. unfold create_evaluation_case, case_event. core_steps. Qed.
Lemma update_case_rel ws i case actor data :
  included eval_rel (update_evaluation_case ws i case actor data).
Proof. unfold update_evaluation_case, case_event. core_steps. Qed.
Lemma compare_runs_rel ws baseline candidate run actor :
  included eval_rel (compare_evaluation_runs ws baseline candidate run actor).
Proof. unfold compare_evaluation_runs. core_steps. Qed.

(** ** The guarantees *)

(** What may happen to the evaluations: their services, and anything that leaves
    their tables alone. *)
Inductive evaluation_op : relation World :=
  | op_create_dataset ws actor name d s w :
      evaluation_op w (create_evaluation_dataset ws actor name d s w).2
  | op_update_dataset ws i dataset actor name d s w :
      evaluation_op w (update_evaluation_dataset ws i dataset actor name d s w).2
  | op_create_case ws i actor key name input s seeded expectations w :
      evaluation_op w (create_evaluation_case ws i actor key name input s seeded expectations w).2
  | op_update_case ws i case actor data w :
      evaluation_op w (update_evaluation_case ws i case actor data w).2
  | op_start_run ws actor dataset vid v thresholds rid w :
      evaluation_op w (start_evaluation_run ws actor dataset vid v thresholds rid w).2
  | op_start_task i w : evaluation_op w (start_evaluation_run_body i w).2
  | op_case_task i w : evaluation_op w (execute_evaluation_case tool_registry i w).2
  | op_finalize i w : evaluation_op w (finalize_evaluation_run i w).2
  | op_cancel_run ws i actor w : evaluation_op w (cancel_evaluation_run ws i actor w).2
  | op_replay ws actor i result r w :
      w_evaluation_results w !! i = Some r → result_evolves result r →
      evaluation_op w (replay_evaluation_case ws actor i result w).2
  | op_compare ws baseline candidate run actor w :
      evaluation_op w (compare_evaluation_runs ws baseline candidate run actor w).2
  | op_recover_runs batch now w : evaluation_op w (recover_stuck_evaluation_runs batch now w).2
  | op_elsewhere w w' : outer_frame w w' → evaluation_op w w'.

Lemma evaluation_op_rel w w' : evaluation_op w w' → eval_rel w w'.
Proof.
  intros Hop. destruct Hop.
  - apply create_dataset_rel.
  - apply update_dataset_rel.
  - apply create_case_rel.
  - apply update_case_rel.
  - apply start_run_rel.
  - apply start_body_rel.
  - apply execute_case_rel.
  - apply finalize_rel.
  - apply cancel_run_rel.
  - apply replay_rel. eauto.
  - apply compare_runs_rel.
  - apply recover_stuck_runs_rel.
  - by apply outer_frame_eval.
Qed.

(** A run that has ended has an outcome of each case, and has counted all of them. *)
Lemma ended_run_complete w i r :
  evaluations_ok w → w_evaluation_runs w !! i = Some r → ended r = true →
  scored_ids w i = initial_ids w i ∧ ev_completed_cases r = Z.of_nat (size (initial_ids w i)).
Proof.
  intros Hok Hr He. destruct (eb_runs _ w Hok i r Hr) as [_ Hrok].
  pose proof (ro_ended _ _ _ _ Hrok He) as Hc. pose proof (ro_completed _ _ _ _ Hrok) as Hs.
  rewrite (ro_total _ _ _ _ Hrok), Nat.add_0_r in Hc. split; [|done].
  apply leibniz_equiv, set_subseteq_size_equiv; [by eapply scored_within|lia].
Qed.

(** C15. The evaluations stay in order.  Along any sequence of the services, during which
    providers and tools may let other workers act in the same way: the snapshot of a case
    never changes and nothing of a run or a result is lost; a run moves along the
    documented transitions, its total is the number of its initial results (one for each
    snapshot at most), and it never counts more than were scored; a result passes only
    when it was scored.  A result moves along the table of its model, but that a worker that
    comes late may store a score over a failure or the reverse
    ([EvaluationExamples.late_score_changes_ended_run]): it is claimed from pending only,
    is never pending or running again once it has an outcome, and stays cancelled.  A run
    that has ended has an outcome of every case and has counted each of them.  A replay
    leaves every result there is, the replayed one too, exactly as it is, and adds a pending
    one of the same case. *)
Theorem evaluations_in_order w w' :
  rtc evaluation_op w w' → evaluations_ok w →
  evaluations_ok w' ∧ eval_history w w' ∧
  (∀ i r, w_evaluation_runs w' !! i = Some r → ended r = true →
    scored_ids w' i = initial_ids w' i ∧
    ev_completed_cases r = Z.of_nat (size (initial_ids w' i))) ∧
  ∀ workspace actor i result,
    replayed i result w' (replay_evaluation_case workspace actor i result w').2.
Proof.
  intros Hops Hok. assert (Hrel : eval_rel w w').
  { clear Hok. induction Hops as [|w1 w2 w3 Hop _ IH]; [reflexivity|].
    etrans; [by apply evaluation_op_rel|done]. }
  destruct (Hrel Hok) as [Hok' Hh]. split_and!; [done..| |].
  - intros i r. by apply ended_run_complete.
  - intros workspace actor i result. by apply replay_keeps.
Qed.

(** A case is executed once.  A task for a result that is not pending changes nothing,
    and one for a pending result of a cancelled run only cancels it.  Otherwise the worker
    claims the result; if it returns, the result has succeeded or failed, and unless it is
    a replay the run has counted the scored results exactly, and is not running any more
    when they are all there is. *)
Theorem evaluation_case_executed_once i r w o w' :
  evaluations_ok w → w_evaluation_results w !! i = Some r →
  execute_evaluation_case tool_registry i w = (o, w') →
  match er_status r with
  | EvaluationResultStatus.PENDING =>
      if bool_decide (ev_status <$> w_evaluation_runs w !! er_run r = Some EvaluationRunStatus.CANCELLED)
      then ∃ a, o = inr a ∧ er_status a = EvaluationResultStatus.CANCELLED ∧
           w_evaluation_results w' !! i = Some a
      else executed i r w o w'
  | _ => o = inr r ∧ w' = w
  end.
Proof.
  intros Hok Hr. apply (wp_run (execute_evaluation_case tool_registry i) w o w' (λ o w', _)).
  eapply wp_mono; [by apply (wp_execute_case i r)|]. by intros ? ? [_ ?].
Qed.

(** The outcome of a case is counted: recording one never fails, and leaves the run
    with exactly the numbers of scored and passed initial results there are.  When a
    running run has nothing left to do, it ends: failed when every execution failed, partial when
    some did, succeeded otherwise, however many cases passed. *)
Theorem case_completion_counts i r result w o w' :
  evaluations_ok w → w_evaluation_runs w !! i = Some r → er_replay_of result = None →
  record_case_completion i result w = (o, w') →
  o = inr () ∧ w_evaluation_results w' = w_evaluation_results w ∧
  ∃ r', w_evaluation_runs w' !! i = Some r' ∧ counted w' i r' ∧
    if bool_decide (ev_status r = EvaluationRunStatus.RUNNING)
       && bool_decide (scored_ids w i = initial_ids w i)
    then ends w' i r' else ev_status r' = ev_status r.
Proof.
  intros Hok Hr Hn. apply (wp_run (record_case_completion i result) w o w'
    (λ o w', o = inr () ∧ _ ∧ ∃ r', _)).
  eapply wp_mono; [by apply (wp_record_completion i r)|]. intros ? ? (-> & _ & ? & Hf). by auto.
Qed.

(** ** Crashed workers *)

(** Every case of the run has an outcome, or a worker that is overdue. *)
Definition only_overdue (run_id : N) (cutoff : Z) (w : World) : Prop :=
  ∀ k q, w_evaluation_results w !! k = Some q → initial_of run_id q = true →
    scored q = true ∨ stale_result run_id cutoff k q = true.

Lemma overdue_not_live run_id cutoff w :
  only_overdue run_id cutoff w → exists_row (live_result run_id cutoff) w = false.
Proof.
  intros Hall. apply exists_row_false. intros k q Hq. unfold live_result, running_initial.
  destruct (initial_of run_id q) eqn:Hi; [|done]. simpl.
  destruct (Hall k q Hq Hi) as [Hs|Hs].
  - revert Hs. unfold scored, has_result_status. by destruct (er_status q).
  - unfold stale_result in Hs. apply andb_true_iff in Hs as [_ Hs%Z.leb_le].
    apply andb_false_iff. right. by apply Z.ltb_ge.
Qed.

Lemma wp_recover_cases run_id cutoff now r w :
  evaluations_ok w → w_evaluation_runs w !! run_id = Some r →
  ev_status r = EvaluationRunStatus.RUNNING → (ev_updated_at r <= cutoff)%Z →
  only_overdue run_id cutoff w →
  wp (recover_stuck_cases run_id cutoff now) (λ o w', o = inr (Some true) ∧ in_order w w' ∧
    w_evaluation_results w' = map_imap (λ k q, Some (if stale_result run_id cutoff k q
      then crashed_result now q else q)) (w_evaluation_results w) ∧
    ∃ r', w_evaluation_runs w' !! run_id = Some r' ∧ counted w' run_id r' ∧
      ev_status r' = EvaluationRunStatus.RUNNING ∧
      ev_total_cases r' = ev_completed_cases r') w.
Proof.
  intros Hok Hr Hs Hu Hall. unfold recover_stuck_cases. apply wp_atomic, wp_bind, wp_get_row.
  change (rows w) with (w_evaluation_runs w). rewrite Hr. wp_beta.
  rewrite bool_decide_eq_true_2 by done. simpl. rewrite (proj2 (Z.ltb_ge _ _) Hu).
  apply wp_bind, wp_gets. wp_beta. apply wp_bind, wp_gets. wp_beta.
  rewrite (overdue_not_live run_id cutoff w Hall), andb_false_r.
  apply wp_bind, wp_update_rows. wp_beta. set (w1 := set_rows _ w).
  assert (Hm1 : moved_results (map_imap (λ k q, Some (if stale_result run_id cutoff k q
    then crashed_result now q else q)) (w_evaluation_results w)) w w1) by (split; reflexivity).
  destruct (stale_crashes run_id cutoff now w w1 Hm1 Hok) as [Hok1 Hh1].
  assert (Hr1 : w_evaluation_runs w1 !! run_id = Some r) by exact Hr. clearbody w1.
  destruct (eb_runs _ w1 Hok1 run_id r Hr1) as [_ Hrok].
  assert (Hfull : scored_ids w1 run_id = initial_ids w1 run_id).
  { apply leibniz_equiv, (anti_symm (⊆)); [by eapply scored_within|]. apply ids_subset. intros k q.
    rewrite (ms_results _ _ _ Hm1), rows_update.
    destruct (w_evaluation_results w !! k) as [q0|] eqn:Hq0; [|done]. intros [= <-] Hi.
    eexists. split; [done|]. rewrite Hi. destruct (stale_result run_id cutoff k q0) eqn:Hst; [done|].
    destruct (Hall k q0 Hq0 Hi) as [Hsc|?]; [by rewrite Hsc|congruence]. }
  apply wp_bind, wp_gets. wp_beta. cbv zeta. apply wp_bind. set (r1 := recounted _ r).
  assert (Hok2 : run_ok 0 w1 run_id (stamped_run (w_now w1) r1)).
  { apply (recount_ok w1 run_id r); try done. apply Hrok. }
  apply (wp_save_run_moved run_id r); [done|done|by split_and!; try apply rtc_refl|done| |].
  - pose proof (ro_counters _ _ _ _ Hok2) as Hc. pose proof (ro_fits _ _ _ _ Hok2) as Hf.
    change (counters_ok r1 = true) in Hc. change (fits 64 (ev_correlation_id r1) = true) in Hf.
    by rewrite Hc, Hf.
  - intros w2 [Er Es Em En] Hnow ? ?. wp_beta. apply wp_ret.
    assert (Hr2 : w_evaluation_runs w2 !! run_id = Some (stamped_run (w_now w1) r1))
      by by rewrite Er, lookup_insert_eq.
    assert (Ht : ev_total_cases r1 = ev_completed_cases r1).
    { unfold r1. rewrite aggregate_spec. simpl. rewrite Hfull, (ro_total _ _ _ _ Hrok). f_equal. lia. }
    change (ev_total_cases r = fst (aggregate_case_counts run_id w1)) in Ht.
    split; [by rewrite Ht, Z.leb_refl|].
    split; [split; [done|by etrans]|].
    split; [by rewrite Em, (ms_results _ _ _ Hm1)|]. eexists. split; [done|]. split; [|by split].
    unfold r1. rewrite aggregate_spec. split; simpl;
      [by unfold scored_ids; rewrite Em|by unfold passed_ids; rewrite Em|done].
Qed.

(** A run whose workers have crashed ends.  When a running run has not been touched since the cutoff
    and each of its cases has an outcome or is overdue, the sweep fails exactly the overdue
    ones, with the code of a crashed worker, counts them and ends the run. *)
Theorem recovery_ends_crashed_run run_id cutoff now r w o w' :
  evaluations_ok w → w_evaluation_runs w !! run_id = Some r →
  ev_status r = EvaluationRunStatus.RUNNING → (ev_updated_at r <= cutoff)%Z →
  only_overdue run_id cutoff w →
  recover_one_stuck_evaluation run_id cutoff now w = (o, w') →
  o = inr true ∧ evaluations_ok w' ∧ eval_history w w' ∧
  (∀ k, w_evaluation_results w' !! k =
    (λ q, if stale_result run_id cutoff k q then crashed_result now q else q) <$>
      w_evaluation_results w !! k) ∧
  ∃ r', w_evaluation_runs w' !! run_id = Some r' ∧ counted w' run_id r' ∧ ends w' run_id r'.
Proof.
  intros Hok Hr Hs Hu Hall. apply (wp_run (recover_one_stuck_evaluation run_id cutoff now) w o w'
    (λ o w', o = inr true ∧ evaluations_ok w' ∧ eval_history w w' ∧ _ ∧ ∃ r', _)).
  unfold recover_one_stuck_evaluation. apply wp_bind. eapply wp_mono; [by apply (wp_recover_cases run_id cutoff now r)|].
  intros ? w1 (-> & [Hok1 Hh1] & Em & r1 & Hr1 & Hc1 & Hs1 & Ht1). wp_beta. simpl.
  apply wp_bind, wp_bind. eapply wp_mono; [by apply (wp_finalize run_id r1)|].
  intros ? w2 ([Hok2 Hh2] & _ & Em2 & Hend). rewrite Hs1, Ht1, Z.leb_refl, bool_decide_eq_true_2 in Hend by done.
  destruct Hend as (r2 & Hr2 & -> & Hends & Ec & Ep & Ef & _). wp_beta. apply wp_ret. wp_beta. apply wp_ret.
  split; [done|]. split; [done|]. split; [by etrans|]. split; [by intros k; rewrite Em2, Em, rows_update|].
  exists r2. split; [done|]. split; [|done]. destruct Hc1 as [C1 C2 C3].
  split; unfold scored_ids, passed_ids in *; rewrite ?Em2; congruence.
Qed.
End Services.

(** ** Examples *)

Module EvaluationExamples.
#[local] Existing Instance default_settings.
#[local] Existing Instance trivial_pylib.
#[local] Existing Instance GraphExamples.text_encoding.
#[local] Existing Instance AgentExamples.net.
#[local] Existing Instance AgentExamples.encoding.
#[local] Existing Instance AgentExamples.providers.
#[local] Abbreviation tools := ToolExamples.refunds.

(** Expectations that ask for the named outcome of the run. *)
Definition expecting (status : string) : EvaluationCaseExpectations := {|
  ex_allowed_tools := []; ex_forbidden_tools := []; ex_required_tool_sequence := None;
  ex_acceptable_tool_sequences := None; ex_approval_behavior := None;
  ex_outcome_assertions := [{| oa_type := OutcomeAssertionType.RUN_TERMINAL_STATE_EQUALS;
                               oa_value := Some status; oa_tool := None |}] |}.
#[local] Instance schemas : EvaluationSchemas := {|
  validate_expectations v := match v with JStr s => inr (expecting s) | _ => inl "invalid" end;
  validate_case_expectations v := inr v; validate_seeded_context v := inr v;
  decimal_str _ := "0.0000"; py_dict _ := inl TypeError;
  untyped_answer _ _ := raise TypeError |}.

Definition case_named (key : string) (expected : json) : EvaluationCase := {|
  ec_dataset := 10; ec_key := key; ec_name := key; ec_status := EvaluationCaseStatus.ACTIVE;
  ec_input_message := "Where is my order?"; ec_seeded_context := JObj [];
  ec_expectations := expected |}.

(** Two cases: one whose expectation holds, and one whose expectations are invalid. *)
Definition configured : World := in_outer (λ o, {| o with
  o_evaluation_cases := {[11%N := case_named "where" (JStr "succeeded");
                          12%N := case_named "broken" JNull]} |}) ToolExamples.start.

Lemma configured_ok : evaluations_ok configured.
Proof. split; intros *; cbn; rewrite ?lookup_empty; try done. Qed.

Definition started_world : World :=
  (start_evaluation_run 7 40 10 2 ToolExamples.version None None configured).2.
Definition running_world : World := (start_evaluation_run_body 20 started_world).2.
Definition first_done : World := (execute_evaluation_case tools 22 running_world).2.
Definition all_done : World := (execute_evaluation_case tools 24 first_done).2.

Lemma tools_in_order key tool context arguments :
  tools key = Some tool → included eval_rel (handler tool context arguments).
Proof.
  unfold tools, ToolExamples.refunds. case_match; [|done]. intros [= <-]. apply included_ret, _.
Qed.
Lemma scenarios_in_order raw request : included eval_rel (untyped_answer raw request).
Proof. apply included_raise, _. Qed.

(** Of a run: its status, and its completed, passed and failed cases. *)
Definition outcome (w : World) : option (EvaluationRunStatus.t * Z * Z * Z) :=
  (λ r, (ev_status r, ev_completed_cases r, ev_passed_cases r, ev_failed_cases r))
    <$> w_evaluation_runs w !! 20%N.
Example whole_run : outcome all_done = Some (EvaluationRunStatus.PARTIAL, 2, 1, 1)%Z.
Proof. vm_compute. reflexivity. Qed.

Lemma started_world_ops : rtc (evaluation_op tools) configured running_world.
Proof.
  eapply rtc_l; [exact (op_start_run tools 7 40 10 2 ToolExamples.version None None configured)|].
  apply rtc_once. exact (op_start_task tools 20 started_world).
Qed.
Lemma running_ok : evaluations_ok running_world.
Proof.
  apply (start_body_rel 20 started_world).
  apply (start_run_rel 7 40 10 2 ToolExamples.version None None configured), configured_ok.
Qed.

Lemma evaluations_in_order_witness :
  evaluations_ok all_done ∧ outcome all_done = Some (EvaluationRunStatus.PARTIAL, 2, 1, 1)%Z ∧
  w_evaluation_snapshots all_done !! 21%N = w_evaluation_snapshots running_world !! 21%N.
Proof.
  assert (Hops : rtc (evaluation_op tools) configured all_done).
  { etrans; [exact started_world_ops|].
    eapply rtc_l; [exact (op_case_task tools 22 running_world)|].
    apply rtc_once. exact (op_case_task tools 24 first_done). }
  split; [|vm_compute; split; reflexivity].
  exact (proj1 (evaluations_in_order tools tools_in_order scenarios_in_order _ _ Hops configured_ok)).
Defined.

Definition broken_result : EvaluationResult := stored_result 1000000000 (pending_result 20 21 None 1000000000).

Lemma evaluation_case_executed_once_witness :
  settled_case first_done 22 ∧
  er_failure_code <$> w_evaluation_results first_done !! 22%N
    = Some (Some EvaluationFailureCode.INVALID_CASE).
Proof.
  split; [|vm_compute; reflexivity].
  assert (Hr : w_evaluation_results running_world !! 22%N = Some broken_result) by (vm_compute; reflexivity).
  assert (Hst : er_status broken_result = EvaluationResultStatus.PENDING) by reflexivity.
  assert (Hc : bool_decide (ev_status <$> w_evaluation_runs running_world !! er_run broken_result
    = Some EvaluationRunStatus.CANCELLED) = false) by (vm_compute; reflexivity).
  assert (Ho : match (execute_evaluation_case tools 22 running_world).1 with
    | inr _ => True | inl _ => False end) by (vm_compute; exact I).
  unfold first_done. destruct (execute_evaluation_case tools 22 running_world) as [o w'] eqn:Hx.
  pose proof (evaluation_case_executed_once tools tools_in_order scenarios_in_order 22 broken_result
    running_world o w' running_ok Hr Hx) as He.
  rewrite Hst, Hc in He. destruct o as [e|a]; [destruct Ho|]. destruct He as (_ & _ & Hs).
  exact (proj1 (proj2 (Hs a eq_refl))).
Defined.

(** Both workers claim their case and crash. *)
Definition claimed_one : World := (claim_evaluation_result 22 running_world).2.
Definition claimed_both : World := (claim_evaluation_result 24 claimed_one).2.
Definition second_result : EvaluationResult := stored_result 1000000000 (pending_result 20 23 None 1000000000).

Lemma result_claimed_ok : evaluations_ok claimed_both.
Proof.
  assert (H1 : w_evaluation_results running_world !! 22%N = Some broken_result) by (vm_compute; reflexivity).
  assert (H2 : w_evaluation_results claimed_one !! 24%N = Some second_result) by (vm_compute; reflexivity).
  destruct (wp_claim_result 22 broken_result running_world running_ok H1) as [[Hok _] _].
  destruct (wp_claim_result 24 second_result claimed_one Hok H2) as [[Hok' _] _]. exact Hok'.
Qed.

Definition the_run : EvaluationRun :=
  stamped_run 1000000000 (claimed_evaluation_run 1000000000
    (stamped_run 1000000000 (new_evaluation_run 7 10 2 40 [] 2 None 1000000000))).

Lemma all_overdue : only_overdue 20 1000000000 claimed_both.
Proof.
  intros k q Hq _.
  assert (Hall : forallb (λ kv, scored kv.2 || stale_result 20 1000000000 kv.1 kv.2)
    (map_to_list (w_evaluation_results claimed_both)) = true) by (vm_compute; reflexivity).
  rewrite forallb_forall in Hall. specialize (Hall (k, q)). apply orb_true_iff, Hall.
  by apply list_elem_of_In, elem_of_map_to_list.
Qed.

Lemma recovery_ends_crashed_run_witness :
  outcome (recover_one_stuck_evaluation 20 1000000000 1000000000 claimed_both).2
    = Some (EvaluationRunStatus.FAILED, 2, 0, 2)%Z ∧
  ∃ r', w_evaluation_runs (recover_one_stuck_evaluation 20 1000000000 1000000000 claimed_both).2 !! 20%N
      = Some r' ∧ ev_status r' = EvaluationRunStatus.FAILED.
Proof.
  split; [vm_compute; reflexivity|].
  assert (Hr : w_evaluation_runs claimed_both !! 20%N = Some the_run) by (vm_compute; reflexivity).
  assert (Hout : outcome (recover_one_stuck_evaluation 20 1000000000 1000000000 claimed_both).2
    = Some (EvaluationRunStatus.FAILED, 2, 0, 2)%Z) by (vm_compute; reflexivity).
  unfold outcome in Hout.
  destruct (recover_one_stuck_evaluation 20 1000000000 1000000000 claimed_both) as [o w'] eqn:Hx.
  destruct (recovery_ends_crashed_run 20 1000000000 1000000000 the_run claimed_both o w' result_claimed_ok Hr
    eq_refl (Z.le_refl _) all_overdue Hx) as (_ & _ & _ & _ & r' & Hr' & _).
  exists r'. split; [exact Hr'|]. simpl in Hout. rewrite Hr' in Hout. simpl in Hout. congruence.
Defined.

(** The sweep has failed both cases; the worker of the second one comes back. *)
Definition swept : World := (recover_stuck_cases 20 1000000000 1000000000 claimed_both).2.
Lemma swept_ok : evaluations_ok swept.
Proof. exact (proj1 (recover_cases_rel 20 1000000000 1000000000 claimed_both result_claimed_ok)). Qed.

Lemma case_completion_counts_witness :
  outcome (record_case_completion 20 second_result swept).2
    = Some (EvaluationRunStatus.FAILED, 2, 0, 2)%Z ∧
  (record_case_completion 20 second_result swept).1 = inr ().
Proof.
  split; [vm_compute; reflexivity|].
  assert (Hr : is_Some (w_evaluation_runs swept !! 20%N)) by (vm_compute; eexists; reflexivity).
  destruct Hr as [r Hr]. destruct (record_case_completion 20 second_result swept) as [o w'] eqn:Hx.
  exact (proj1 (case_completion_counts 20 r second_result swept o w' swept_ok Hr eq_refl Hx)).
Defined.

(** A worker that was only slow overwrites what the sweep decided: the run has ended as
    failed, and then reports a case that passed. *)
Definition ended_world : World := (finalize_evaluation_run 20 swept).2.
Definition perfect : CaseScore := {|
  sc_output := {|
    so_tool_selection_correct := None; so_forbidden_tool_violation := false;
    so_forbidden_tools_attempted := []; so_required_sequence_compliant := None;
    so_approval_compliant := None; so_approval_violation := false; so_handoff_occurred := false;
    so_outcome_assertions_passed := 1; so_outcome_assertions_failed := 0;
    so_outcome_assertion_failures := []; so_citation_present := None; so_latency_ms := None;
    so_input_tokens := 0; so_output_tokens := 0; so_total_tokens := 0;
    so_estimated_cost_usd := None |};
  sc_passed := true; sc_failure_code := None |}.
Definition overwritten : World := (store_score 24 20 25 perfect ended_world).2.

Example late_score_changes_ended_run :
  outcome ended_world = Some (EvaluationRunStatus.FAILED, 2, 0, 2)%Z ∧
  outcome overwritten = Some (EvaluationRunStatus.FAILED, 2, 1, 1)%Z ∧
  (er_status <$> w_evaluation_results ended_world !! 24%N) = Some EvaluationResultStatus.FAILED ∧
  (er_status <$> w_evaluation_results overwritten !! 24%N) = Some EvaluationResultStatus.SUCCEEDED ∧
  EvaluationResultStatus.SUCCEEDED ∉ EVALUATION_RESULT_ALLOWED_TRANSITIONS EvaluationResultStatus.FAILED.
Proof. vm_compute. split_and!; [reflexivity..|]. by intros ?%elem_of_nil. Qed.

(** A tool call whose arguments are no mapping stops the worker before the case is
    failed, and the result is left running. *)
Definition odd_case : EvaluationCase := let c := case_named "odd" JNull in
  {| c with ec_seeded_context := JObj [("llm_scenarios", JList [JObj [("tool_calls",
       JList [JObj [("tool_key", JStr "order.lookup"); ("arguments", JInt 1)]])]])] |}.
Definition odd_world : World := in_outer (λ o, {| o with
  o_evaluation_cases := {[11%N := odd_case]} |}) ToolExamples.start.
Definition odd_running : World :=
  (start_evaluation_run_body 20
     (start_evaluation_run 7 40 10 2 ToolExamples.version None None odd_world).2).2.

Example malformed_arguments_leave_case_running :
  (execute_evaluation_case tools 22 odd_running).1 = inl TypeError ∧
  (er_status <$> w_evaluation_results (execute_evaluation_case tools 22 odd_running).2 !! 22%N)
    = Some EvaluationResultStatus.RUNNING.
Proof. vm_compute. split; reflexivity. Qed.
End EvaluationExamples.
