(* ===== verification/EvaluationResults.v ===== *)
(** * What an evaluation says

    The score of a case against its expectations, the cases a run is made of, and the
    comparison of two runs. *)

From stdpp Require Import base gmap strings list pretty sorting relations.
From Stdlib Require Import ZArith QArith SpecFloat Ascii String Lia.
From S2P Require Import Prelude Json Domain Policy Models Store Network Approvals ToolExec ToolSafety Graph Workspaces Conversations Tickets AgentRuns AgentSafety AgentOutcomes Scoring Evaluations EvaluationSafety.

#[local] Close Scope Q_scope.
#[local] Open Scope nat_scope.

(** ** The score of a case *)

Lemma violation_nil b c : violation b c = [] ↔ b = false.
Proof. by destruct b. Qed.

Section Score.
Context `{EvaluationSchemas}.

(** *** What is expected, in terms of the rows alone *)

(** A tool whose call has one of these statuses has run. *)
Inductive has_run : ToolExecutionStatus.t → Prop :=
  | ran_succeeded : has_run ToolExecutionStatus.SUCCEEDED
  | ran_failed : has_run ToolExecutionStatus.FAILED
  | ran_timed_out : has_run ToolExecutionStatus.TIMED_OUT.

(** The tools that ran, among the calls made. *)
Inductive ran_tools : list (string * ToolExecutionStatus.t) → list string → Prop :=
  | ran_none : ran_tools [] []
  | ran_one key status calls keys :
      has_run status → ran_tools calls keys → ran_tools ((key, status) :: calls) (key :: keys)
  | ran_not key status calls keys :
      ¬ has_run status → ran_tools calls keys → ran_tools ((key, status) :: calls) keys.

(** What an approval behaviour asks for. *)
Definition behaves (behavior : ApprovalBehavior.t) (e : Evidence) : Prop :=
  match behavior with
  | ApprovalBehavior.NOT_REQUIRED => evd_approvals e = []
  | ApprovalBehavior.REQUIRED => evd_approvals e ≠ []
  | ApprovalBehavior.APPROVED_PATH => ApprovalStatus.APPROVED ∈ evd_approvals e
  | ApprovalBehavior.REJECTED_PATH => ApprovalStatus.REJECTED ∈ evd_approvals e
  | ApprovalBehavior.HANDOFF_EXPECTED => run_status (evd_run e) = AgentRunStatus.HANDED_OFF
  end.

(** The metadata of the reply has no list of citations. *)
Definition no_citations_field (e : Evidence) : Prop :=
  match evd_output_metadata e with
  | None => True
  | Some metadata => py_bool metadata = false ∨
      ∃ fields, metadata = JObj fields ∧ args_get fields "citations" = JNull
  end.

(** The reply cites its sources: in its metadata, or in brackets in its text when the
    metadata has no field for them. *)
Definition cites (e : Evidence) : Prop :=
  (∃ fields, evd_output_metadata e = Some (JObj fields) ∧
     args_get fields "citations" ≠ JNull ∧ py_bool (args_get fields "citations") = true) ∨
  no_citations_field e ∧ str_contains "[" (run_final_response (evd_run e)) = true ∧
  str_contains "]" (run_final_response (evd_run e)) = true.

(** What an assertion asks for. *)
Definition holds (a : OutcomeAssertion) (e : Evidence) : Prop :=
  match oa_type a with
  | OutcomeAssertionType.RUN_TERMINAL_STATE_EQUALS =>
      oa_value a = Some (AgentRunStatus.value (run_status (evd_run e)))
  | OutcomeAssertionType.HANDOFF_CREATED => run_status (evd_run e) = AgentRunStatus.HANDED_OFF
  | OutcomeAssertionType.APPROVAL_CREATED => evd_approvals e ≠ []
  | OutcomeAssertionType.TOOL_SUCCEEDED =>
      ∃ tool, oa_tool a = Some tool ∧ (tool, ToolExecutionStatus.SUCCEEDED) ∈ evd_tool_executions e
  | OutcomeAssertionType.TOOL_NOT_EXECUTED =>
      ∀ tool status, oa_tool a = Some tool → (tool, status) ∉ evd_tool_executions e
  | OutcomeAssertionType.RESPONSE_CONTAINS_CITATION => cites e
  end.

(** What an execution in which the tools [ran] have run must have left behind to pass. *)
Record meets (x : EvaluationCaseExpectations) (e : Evidence) (ran : list string) : Prop := {
  mt_run : run_status (evd_run e) ≠ AgentRunStatus.BUDGET_EXCEEDED ∧
    run_status (evd_run e) ≠ AgentRunStatus.FAILED;
  mt_forbidden k : k ∈ ran → k ∉ ex_forbidden_tools x;
  mt_allowed k : ex_allowed_tools x ≠ [] → k ∈ ran → k ∈ ex_allowed_tools x;
  mt_sequence : match ex_required_tool_sequence x, ex_acceptable_tool_sequences x with
                | Some required, _ => ran = required
                | None, Some acceptable => ran ∈ acceptable
                | None, None => True
                end;
  mt_approval b : ex_approval_behavior x = Some b → behaves b e;
  mt_assertions a : a ∈ ex_outcome_assertions x → holds a e;
}.

(** *** The code's functions decide what is expected *)

Lemma executed_keys_ran e : ran_tools (evd_tool_executions e) (executed_keys e).
Proof.
  unfold executed_keys. induction (evd_tool_executions e) as [|[key status] calls IH];
    [constructor|]. cbn [List.filter snd].
  destruct (bool_decide (status ∈ TOOL_EXECUTED_STATUSES)) eqn:Hb.
  - apply ran_one; [|exact IH]. destruct status; vm_compute in Hb; try discriminate Hb; constructor.
  - apply ran_not; [|exact IH]. inversion 1; subst; vm_compute in Hb; discriminate Hb.
Qed.

Lemma behaves_iff b e : score_approval_behavior b e = true ↔ behaves b e.
Proof.
  destruct b; simpl; unfold handed_off; rewrite ?negb_true_iff, ?bool_decide_eq_true,
    ?bool_decide_eq_false; done.
Qed.

Lemma bracketed_iff response :
  bracketed response = true ↔ str_contains "[" response = true ∧ str_contains "]" response = true.
Proof. apply andb_true_iff. Qed.

Lemma cites_iff e : response_contains_citation e = inr true ↔ cites e.
Proof.
  unfold response_contains_citation, cites, no_citations_field.
  destruct (evd_output_metadata e) as [metadata|]; [|rewrite <-bracketed_iff].
  2: { split; [intros [= Hb]; by right|]. intros [(? & [=] & _)|[_ ->]]. done. }
  rewrite <-bracketed_iff. destruct (py_bool metadata) eqn:Hm.
  2: { simpl. split; [intros [= Hb]; right; by split; [left|]|].
       intros [(fields & [= ->] & Hc & _)|[_ ->]]; [|done]. destruct fields; [|done]. by destruct Hc. }
  destruct metadata as [| | | | | |fields]; try (split; [done|]; intros [(? & [=] & _)|[[|(? & [=] & _)] _]]; done).
  cbv beta iota. split.
  - destruct (args_get fields "citations") eqn:Hc; intros Heq.
    1: right; split; [by right; exists fields|by injection Heq].
    all: left; exists fields; rewrite Hc; injection Heq as Hb; by split_and!.
  - intros [(f & [= <-] & Hne & Hc)|[[?|(f & [= <-] & Hc)] Hb]]; [|congruence|by rewrite Hc, Hb].
    destruct (args_get fields "citations"); [by destruct Hne|by rewrite Hc..].
Qed.

Lemma holds_iff a e : evaluate_outcome_assertion a e = inr true ↔ holds a e.
Proof.
  unfold evaluate_outcome_assertion, holds, handed_off.
  assert (Hinr : ∀ b : bool, (inr b : exn + bool) = inr true ↔ b = true) by (split; congruence).
  destruct (oa_type a); rewrite ?Hinr.
  - destruct (oa_value a) as [v|]; [|done]. rewrite String.eqb_eq. split; congruence.
  - apply bool_decide_eq_true.
  - by rewrite negb_true_iff, bool_decide_eq_false.
  - unfold names_tool. rewrite existsb_exists. split.
    + intros ([key status] & Hin%list_elem_of_In & [Hk Hs]%andb_true_iff). simpl in *.
      destruct (oa_tool a) as [tool|]; [|done]. apply String.eqb_eq in Hk as ->.
      apply bool_decide_eq_true in Hs as ->. by exists tool.
    + intros (tool & -> & Hin%list_elem_of_In). eexists. split; [exact Hin|]. simpl.
      by rewrite String.eqb_refl.
  - unfold names_tool. rewrite negb_true_iff, <-not_true_iff_false, existsb_exists. split.
    + intros Hn tool status Ht Hin%list_elem_of_In. apply Hn. eexists. split; [exact Hin|].
      rewrite Ht. apply String.eqb_refl.
    + intros Hn ([key status] & Hin%list_elem_of_In & Hk). simpl in Hk.
      destruct (oa_tool a) as [tool|]; [|done]. apply String.eqb_eq in Hk as ->.
      by apply (Hn tool status).
  - apply cites_iff.
Qed.

(** The assertions are counted as they hold, and the texts of the others are kept. *)
Inductive counted (e : Evidence) : list OutcomeAssertion → nat → list string → Prop :=
  | ct_nil : counted e [] 0 []
  | ct_holds a l n failures :
      holds a e → counted e l n failures → counted e (a :: l) (S n) failures
  | ct_fails a l n failures :
      ¬ holds a e → counted e l n failures →
      counted e (a :: l) n (assertion_text a :: failures).

Lemma score_assertions_counted l e n failures :
  score_assertions l e = inr (n, failures) → counted e l n failures.
Proof.
  revert n failures. induction l as [|a l IH]; intros n failures; simpl.
  { intros [= <- <-]. constructor. }
  destruct (evaluate_outcome_assertion a e) as [x|ok] eqn:Ha; [done|].
  destruct (score_assertions l e) as [x|[n0 fs]] eqn:Hl; [done|].
  destruct ok; intros [= <- <-]; constructor; try by apply IH.
  - by apply holds_iff.
  - rewrite <-holds_iff, Ha. done.
Qed.
Lemma counted_none e l n failures :
  counted e l n failures → failures = [] ↔ ∀ a, a ∈ l → holds a e.
Proof.
  induction 1 as [|a l n failures Ha _ IH|a l n failures Ha _ IH].
  - split; [|done]. by intros _ a ?%not_elem_of_nil.
  - rewrite IH. split; [intros Hall b [->|Hb]%elem_of_cons; auto|intros Hall b Hb; apply Hall; by right].
  - split; [done|]. intros Hall. destruct Ha. apply Hall. left.
Qed.

Lemma selection_spec x e :
  selection_correct x e ≠ Some false ↔
  (ex_allowed_tools x ≠ [] → ∀ k, k ∈ executed_keys e → k ∈ ex_allowed_tools x).
Proof.
  unfold selection_correct. destruct (ex_allowed_tools x) as [|t l] eqn:Hl; [done|].
  destruct (forallb _ _) eqn:Hf.
  - split; [|done]. intros _ _ k Hk. rewrite forallb_forall in Hf. apply str_in_true, Hf.
    by apply list_elem_of_In.
  - split; [done|]. intros Hall. exfalso. apply not_true_iff_false in Hf. apply Hf, forallb_forall.
    intros k Hk%list_elem_of_In. by apply str_in_true, Hall.
Qed.

Lemma sequence_spec x e :
  sequence_compliant x e ≠ Some false ↔
  match ex_required_tool_sequence x, ex_acceptable_tool_sequences x with
  | Some required, _ => executed_keys e = required
  | None, Some acceptable => executed_keys e ∈ acceptable
  | None, None => True
  end.
Proof.
  unfold sequence_compliant.
  destruct (ex_required_tool_sequence x) as [l|];
    [|destruct (ex_acceptable_tool_sequences x) as [l|]; [|done]].
  all: match goal with |- Some (bool_decide ?P) ≠ _ ↔ _ => destruct (bool_decide_reflect P) end.
  all: split; try done; congruence.
Qed.

Lemma forbidden_spec x e :
  forbidden_executed x e = true ↔ ∃ k, k ∈ executed_keys e ∧ k ∈ ex_forbidden_tools x.
Proof.
  unfold forbidden_executed. rewrite existsb_exists.
  split; intros (k & Hk & Hin); exists k; split; try done.
  - by apply list_elem_of_In.
  - by apply str_in_true.
  - by apply list_elem_of_In.
  - by apply str_in_true.
Qed.

Lemma violations_spec x e n failures :
  counted e (ex_outcome_assertions x) n failures →
  violations x e failures = [] ↔ meets x e (executed_keys e).
Proof.
  intros Hf%counted_none. unfold violations.
  rewrite !app_nil, !violation_nil. split.
  - intros (Hr & Hfo & Hal & Hse & Hap & Has). split.
    + unfold run_violations in Hr. by destruct (run_status (evd_run e)).
    + intros k Hk Hin. assert (forbidden_executed x e = true) by (apply forbidden_spec; eauto). congruence.
    + intros k Hne Hk. apply bool_decide_eq_false in Hal. by apply (proj1 (selection_spec x e)).
    + apply bool_decide_eq_false in Hse. by apply (proj1 (sequence_spec x e)).
    + intros b Hb. rewrite Hb in Hap. by apply behaves_iff, negb_false_iff.
    + apply Hf. by apply negb_false_iff, bool_decide_eq_true in Has.
  - intros [[Hr Hr'] Hfo Hal Hse Hap Has]. split_and!.
    + unfold run_violations. by destruct (run_status (evd_run e)).
    + apply not_true_iff_false. rewrite forbidden_spec. intros (k & Hk & Hin). by apply (Hfo k).
    + apply bool_decide_eq_false, selection_spec. intros Hne k. by apply Hal.
    + by apply bool_decide_eq_false, sequence_spec.
    + destruct (ex_approval_behavior x) as [b|]; [|done]. apply negb_false_iff.
      by apply behaves_iff, Hap.
    + apply negb_false_iff, bool_decide_eq_true. by apply Hf.
Qed.

(** The code a case that does not pass is given: that of the run first, then of a tool
    that was forbidden, then one of the other codes. *)
Definition failure_of (x : EvaluationCaseExpectations) (e : Evidence) (ran : list string)
    (c : EvaluationFailureCode.t) : Prop :=
  match run_status (evd_run e) with
  | AgentRunStatus.BUDGET_EXCEEDED => c = EvaluationFailureCode.BUDGET_EXCEEDED
  | AgentRunStatus.FAILED => c = EvaluationFailureCode.AGENT_EXECUTION_FAILED
  | _ => 
      c = EvaluationFailureCode.FORBIDDEN_TOOL_VIOLATION ∧ (∃ k, k ∈ ran ∧ k ∈ ex_forbidden_tools x) ∨
      (∀ k, k ∈ ran → k ∉ ex_forbidden_tools x) ∧
      (c = EvaluationFailureCode.APPROVAL_VIOLATION ∧
         (∃ b, ex_approval_behavior x = Some b ∧ ¬ behaves b e) ∨
       c = EvaluationFailureCode.OUTCOME_MISMATCH)
  end.

Lemma violations_first x e failures c :
  head (violations x e failures) = Some c → failure_of x e (executed_keys e) c.
Proof.
  unfold violations, failure_of, run_violations. intros Hc.
  destruct (forbidden_executed x e) eqn:Hf; [apply forbidden_spec in Hf|].
  { destruct (run_status (evd_run e)); simpl in Hc; simplify_eq; try done; by left. }
  assert (Hno : ∀ k, k ∈ executed_keys e → k ∉ ex_forbidden_tools x).
  { intros k Hk Hin. assert (forbidden_executed x e = true) by (apply forbidden_spec; eauto). congruence. }
  destruct (run_status (evd_run e)); simpl in Hc; simplify_eq; try done; right; (split; [exact Hno|]).
  all: destruct (bool_decide (selection_correct x e = Some false)); simpl in Hc; [simplify_eq; by right|].
  all: destruct (bool_decide (sequence_compliant x e = Some false)); simpl in Hc; [simplify_eq; by right|].
  all: destruct (ex_approval_behavior x) as [b|]; simpl in Hc;
    [destruct (score_approval_behavior b e) eqn:Hb; simpl in Hc|];
    try (destruct (bool_decide (failures = [])); simpl in Hc; [done|simplify_eq; by right]).
  all: simplify_eq; left; split; [done|]; exists b; split; [done|].
  all: by rewrite <-behaves_iff, Hb.
Qed.

(** C30. A case passes exactly when its execution meets the expectations: the run is neither
    failed nor over its budget, no forbidden tool ran (a tool runs when its call succeeds,
    fails or times out), with an allow list only tools of it did, the tools that ran are
    the required sequence or one of the acceptable ones, the approvals are as expected
    (none, some, one approved, one rejected, or a handoff), and every assertion holds.
    A case that does not pass is given a failure code, of the run before any other, and
    of a forbidden tool before the remaining ones; every assertion is counted as it
    holds, with the texts of those that do not; and the forbidden tools reported are
    those called, executed or not. *)
Theorem case_passes_iff x e s :
  score_evidence x e = inr s →
  ∃ ran, ran_tools (evd_tool_executions e) ran ∧
  (sc_passed s = true ↔ meets x e ran) ∧ (sc_failure_code s = None ↔ sc_passed s = true) ∧
  (∀ c, sc_failure_code s = Some c → failure_of x e ran c) ∧
  counted e (ex_outcome_assertions x) (so_outcome_assertions_passed (sc_output s))
    (so_outcome_assertion_failures (sc_output s)) ∧
  so_outcome_assertions_failed (sc_output s)
    = List.length (so_outcome_assertion_failures (sc_output s)) ∧
  (so_forbidden_tool_violation (sc_output s) = true ↔ ∃ k, k ∈ ran ∧ k ∈ ex_forbidden_tools x) ∧
  (∀ k, k ∈ so_forbidden_tools_attempted (sc_output s) ↔
    (∃ status, (k, status) ∈ evd_tool_executions e) ∧ k ∈ ex_forbidden_tools x).
Proof.
  unfold score_evidence. destruct (score_assertions _ e) as [?|[n failures]] eqn:Hs; [done|].
  destruct (citation_presence x e); [done|]. intros [= <-]. simpl.
  apply score_assertions_counted in Hs. exists (executed_keys e). split_and!.
  - apply executed_keys_ran.
  - rewrite bool_decide_eq_true. by eapply violations_spec.
  - rewrite bool_decide_eq_true. by destruct (violations x e failures).
  - apply violations_first.
  - done.
  - done.
  - apply forbidden_spec.
  - intros k. unfold forbidden_attempted, sorted_texts. rewrite (merge_sort_Permutation _ _).
    rewrite elem_of_remove_dups, list_elem_of_In, filter_In, <-list_elem_of_In, str_in_true.
    apply and_iff_compat_r. unfold attempted_keys. rewrite list_elem_of_fmap. split.
    + intros ([key status] & -> & Hin). by exists status.
    + intros [status Hin]. by exists (k, status).
Qed.
End Score.

(** ** The cases of a run *)

Section Start.
Context `{Settings} `{PyLib} `{Network} `{Encoding} `{TextEncoding} `{Providers}
  `{EvaluationSchemas}.

Definition waiting_result (run snapshot : N) (r : EvaluationResult) : Prop :=
  er_run r = run ∧ er_case_snapshot r = snapshot ∧ er_replay_of r = None ∧
  er_status r = EvaluationResultStatus.PENDING.

(** The snapshots of [cases], numbered from [seq], and a result that waits for each. *)
Record snapped (run : N) (seq : nat) (cases : list (N * EvaluationCase)) (w w' : World) : Prop := {
  sn_runs : w_evaluation_runs w' = w_evaluation_runs w;
  sn_now : w_now w' = w_now w;
  sn_kept : w_evaluation_snapshots w ⊆ w_evaluation_snapshots w';
  sn_results : w_evaluation_results w ⊆ w_evaluation_results w';
  sn_new i s : w_evaluation_snapshots w' !! i = Some s → w_evaluation_snapshots w !! i = None →
    (∃ k case, cases !! k = Some case ∧ s = snapshot_of run (seq + k) case) ∧
    ∃ j r, w_evaluation_results w' !! j = Some r ∧ waiting_result run i r;
  sn_all k case : cases !! k = Some case →
    ∃ i, w_evaluation_snapshots w' !! i = Some (snapshot_of run (seq + k) case);
}.

Definition bounded {A} (m : gmap N A) (n : N) : Prop := ∀ i a, m !! i = Some a → (i < n)%N.
Lemma bounded_none {A} (m : gmap N A) n : bounded m n → m !! n = None.
Proof. intros Hb. destruct (m !! n) eqn:Hm; [|done]. apply Hb in Hm. lia. Qed.
Lemma bounded_insert {A} (m : gmap N A) n a : bounded m n → bounded (<[n := a]> m) (N.succ n).
Proof. intros Hb i x [[<- _]|[_ Hi]]%lookup_insert_Some; [lia|]. apply Hb in Hi. lia. Qed.
Lemma bounded_mono {A} (m : gmap N A) n n' : bounded m n → (n <= n')%N → bounded m n'.
Proof. intros Hb Hn i a Hi. apply Hb in Hi. lia. Qed.

Lemma wp_snapped run seq cases w :
  bounded (w_evaluation_snapshots w) (w_next w) → bounded (w_evaluation_results w) (w_next w) →
  wp (create_snapshots run seq cases) (λ o w', o = inr () → snapped run seq cases w w') w.
Proof.
  revert seq w. induction cases as [|case cases IH]; intros seq w Hb Hb'; simpl.
  { apply wp_ret. intros _. split; try done; intros *; first [congruence|by rewrite lookup_nil]. }
  apply wp_bind, wp_get_now. wp_beta. apply wp_bind, wp_fresh. wp_beta.
  set (w1 := {| w with w_next := _ |}). apply wp_bind, wp_save_unique.
  destruct (clashes _ _ _ _) eqn:Hc; [done|]. wp_beta. set (w2 := set_rows _ w1).
  set (i := w_next w) in *. set (s := snapshot_of run seq case) in *.
  assert (Ei : w_evaluation_snapshots w2 = <[i := s]> (w_evaluation_snapshots w)) by done.
  assert (Em2 : w_evaluation_results w2 = w_evaluation_results w) by done.
  assert (En2 : w_next w2 = N.succ i) by done. assert (Er2 : w_evaluation_runs w2 = w_evaluation_runs w) by done.
  assert (Et2 : w_now w2 = w_now w) by done. clearbody w2. clear w1 Hc.
  pose proof (bounded_none _ _ Hb) as Hi. pose proof (bounded_insert _ _ s Hb) as Hbi.
  apply wp_bind, wp_fresh. wp_beta. set (w3 := {| w2 with w_next := _ |}).
  apply wp_bind, wp_save_result; [done|]. intros _ Hc w4 [Er Es Em En] Hnow. wp_beta.
  set (r := stored_result _ _) in *. simpl in En.
  assert (Hj : w_evaluation_results w !! w_next w2 = None).
  { apply bounded_none. eapply bounded_mono; [done|lia]. }
  assert (Es4 : w_evaluation_snapshots w4 = <[i := s]> (w_evaluation_snapshots w)) by by rewrite Es.
  assert (Em4 : w_evaluation_results w4 = <[w_next w2 := r]> (w_evaluation_results w)) by by rewrite Em, <-Em2.
  eapply wp_mono; [apply IH|].
  - rewrite Es4. eapply bounded_mono; [exact Hbi|lia].
  - rewrite Em4. eapply bounded_mono; [apply bounded_insert; eapply bounded_mono; [exact Hb'|]|]; lia.
  - intros o w' Ho Hr. destruct (Ho Hr) as [Sr St Sk Sm Sn Sa]. rewrite Es4 in Sk, Sn. rewrite Em4 in Sm.
    split.
    + rewrite Sr, Er. exact Er2.
    + rewrite St, Hnow. exact Et2.
    + etrans; [|exact Sk]. by apply insert_subseteq.
    + etrans; [|exact Sm]. by apply insert_subseteq.
    + intros k q Hk Hn. destruct (decide (k = i)) as [->|Hne].
      { pose proof (lookup_weaken _ _ _ _ (lookup_insert_eq _ i s) Sk) as Hs. simplify_eq.
        split; [exists 0, case; by rewrite Nat.add_0_r|]. exists (w_next w2), r.
        split; [eapply lookup_weaken; [apply lookup_insert_eq|exact Sm]|]. by split_and!. }
      destruct (Sn k q Hk) as [(m & c & Hm & ->) ?]; [by rewrite lookup_insert_ne|]. split; [|done].
      exists (S m), c. by rewrite <-Nat.add_succ_comm.
    + intros [|k] c Hk; simpl in Hk.
      * simplify_eq. exists i. rewrite Nat.add_0_r.
        eapply lookup_weaken; [apply lookup_insert_eq|exact Sk].
      * destruct (Sa k c Hk) as [i' Hi']. exists i'. by rewrite <-Nat.add_succ_comm.
Qed.

(** The active cases of a dataset, by key. *)
Definition frozen_cases (dataset : N) (w : World) : list (N * EvaluationCase) :=
  merge_sort key_order (select_rows (active_case dataset) w).

(** A run is a frozen copy of its dataset.  Starting one with a version that is not
    published or a dataset without active cases changes nothing.  Otherwise, when it
    succeeds, the run is pending with as many cases as there are active ones; its
    snapshots are exactly copies of them, numbered in the order of their keys; a result
    waits for each; and the task that starts it is published. *)
Theorem start_freezes_cases workspace actor dataset version_id version thresholds request_id w o w' :
  evaluations_ok w →
  start_evaluation_run workspace actor dataset version_id version thresholds request_id w = (o, w') →
  match o with
  | inl _ => w' = w
  | inr run =>
      av_status version = AgentVersionStatus.PUBLISHED ∧ frozen_cases dataset w ≠ [] ∧
      w_evaluation_runs w !! run = None ∧
      w_evaluation_runs w' !! run = Some (new_evaluation_run workspace dataset version_id actor
        (default [] thresholds) (List.length (frozen_cases dataset w)) request_id (w_now w)) ∧
      (∀ s, (∃ i, w_evaluation_snapshots w' !! i = Some s ∧ es_run s = run) ↔
        ∃ k case, frozen_cases dataset w !! k = Some case ∧ s = snapshot_of run k case) ∧
      (∀ i s, w_evaluation_snapshots w' !! i = Some s → es_run s = run →
        ∃ j r, w_evaluation_results w' !! j = Some r ∧ waiting_result run i r) ∧
      last (w_published w') = Some (start_evaluation_run_task run)
  end.
Proof.
  intros Hok. apply (wp_run (start_evaluation_run workspace actor dataset version_id version thresholds
    request_id) w o w' (λ o w', match o with inl _ => _ | inr run => _ end)).
  unfold start_evaluation_run. apply wp_bind. unfold raise_if at 1.
  destruct (bool_decide_reflect (av_status version = AgentVersionStatus.PUBLISHED)) as [Hv|Hv]; simpl;
    [|by apply wp_raise]. apply wp_ret. wp_beta.
  apply wp_bind, wp_gets. wp_beta. change (merge_sort _ _) with (frozen_cases dataset w).
  apply wp_bind. unfold raise_if at 1.
  destruct (bool_decide_reflect (frozen_cases dataset w = [])) as [Hne|Hne]; [by apply wp_raise|].
  apply wp_ret. wp_beta. apply wp_atomic, wp_bind, wp_get_now. wp_beta. apply wp_bind, wp_fresh. wp_beta.
  set (w1 := {| w with w_next := _ |}). set (run := w_next w).
  apply wp_bind, wp_save_evaluation_run; [done|].
  intros Hf Hc w2 [Er Es Em En] Hnow. wp_beta. set (r := stamped_run _ _) in *. simpl in En.
  assert (Hnone : w_evaluation_runs w !! run = None).
  { apply bounded_none. intros i q Hq. by destruct (eb_runs _ w Hok i q Hq). }
  apply wp_bind. eapply wp_mono; [apply wp_snapped|].
  - rewrite Es. intros i s Hs. destruct (eb_snapshots _ w Hok i s Hs). lia.
  - rewrite Em. intros i q Hq. destruct (eb_results _ w Hok i q Hq). lia.
  - intros [e|[]] w3 Hcs; wp_beta; [done|]. destruct (Hcs eq_refl) as [Sr St Sk Sm Sn Sa].
    svc_steps. set (w4 := {| w3 with w_audit := _ |}). set (w5 := {| w4 with w_published := _ |}).
    change (w_evaluation_snapshots w5) with (w_evaluation_snapshots w3).
    change (w_evaluation_results w5) with (w_evaluation_results w3).
    change (w_evaluation_runs w5) with (w_evaluation_runs w3).
    assert (Hold : ∀ i s, w_evaluation_snapshots w !! i = Some s → es_run s ≠ run).
    { intros i s Hs Hrun. destruct (eb_snapshots _ w Hok i s Hs) as [_ [q Hq]]. congruence. }
    assert (Hnew : ∀ i s, w_evaluation_snapshots w3 !! i = Some s → es_run s = run →
      w_evaluation_snapshots w2 !! i = None).
    { intros i s Hs Hrun. rewrite Es. destruct (w_evaluation_snapshots w !! i) as [s0|] eqn:Hs0; [|done].
      rewrite Es in Sk. pose proof (lookup_weaken _ _ _ _ Hs0 Sk). simplify_eq. by destruct (Hold i s Hs0). }
    split; [done|]. split; [done|]. split; [done|]. split; [by rewrite Sr, Er, lookup_insert_eq|].
    split; [|split; [|by apply last_snoc]].
    + intros s. split.
      * intros (i & Hs & Hrun). by apply (Sn i s Hs), (Hnew i s).
      * intros (k & case & Hk & ->). destruct (Sa k case Hk) as [i Hi]. by exists i.
    + intros i s Hs Hrun. by apply (Sn i s Hs), (Hnew i s).
Qed.
End Start.

(** ** Counts as floats *)

Lemma iter_xO_digits d p : digits2_pos (Pos.iter xO p d) = (digits2_pos p + d)%positive.
Proof.
  induction d as [|d IH] using Pos.peano_ind; [simpl; lia|]. rewrite Pos.iter_succ. simpl. lia.
Qed.

Lemma digits2_bound p : (Z.pos p < 2 ^ 53)%Z → (Z.pos (digits2_pos p) <= 53)%Z.
Proof.
  assert (Hs : ∀ q, digits2_pos q = Pos.size q) by (induction q; simpl; congruence).
  intros Hp. rewrite Hs. pose proof (Pos.size_le p) as Hle.
  apply Pos2Z.pos_le_pos in Hle. rewrite Pos2Z.inj_pow in Hle.
  destruct (Z.le_gt_cases (Z.pos (Pos.size p)) 53) as [|Hgt]; [done|].
  assert (2 ^ 54 <= 2 ^ Z.pos (Pos.size p))%Z by (apply Z.pow_le_mono_r; lia). lia.
Qed.

(** A mantissa of 53 digits is not rounded. *)
Lemma round_exact m e :
  Z.pos (digits2_pos m) = 53%Z → (-1074 <= e)%Z →
  binary_round_aux 53 1024 false (Z.pos m) e loc_Exact =
  if (e <=? 1024 - 53)%Z then S754_finite false m e else S754_infinity false.
Proof.
  intros Hd He. unfold binary_round_aux.
  assert (Hs : ∀ l, shr_fexp 53 1024 (Z.pos m) e l = (shr_record_of_loc (Z.pos m) l, e)).
  { intros l. unfold shr_fexp. simpl Zdigits2. rewrite Hd. unfold fexp, emin.
    replace (Z.max (53 + e - 53) (3 - 1024 - 53) - e)%Z with 0%Z by lia. done. }
  rewrite Hs. simpl. by rewrite Hs.
Qed.

(** A count is a float that is zero only for zero. *)
Lemma fl_zero z : (0 <= z < 2 ^ 53)%Z → SFeqb (fl z) (S754_zero false) = true → z = 0%Z.
Proof.
  intros Hz. destruct z as [|p|p]; [done| |lia]. pose proof (digits2_bound p ltac:(lia)) as Hd.
  unfold fl, binary_normalize, binary_round, shl_align. rewrite Z.add_0_r.
  assert (Hf : fexp 53 1024 (Z.pos (digits2_pos p)) = (Z.pos (digits2_pos p) - 53)%Z)
    by (unfold fexp, emin; lia).
  rewrite Hf, Z.sub_0_r. destruct (Z.pos (digits2_pos p) - 53)%Z as [|d|d] eqn:Hdiff.
  - rewrite round_exact by lia. done.
  - lia.
  - rewrite round_exact; [done| |lia]. rewrite iter_xO_digits. lia.
Qed.

(** ** The comparison of two runs *)

Section Comparison.
Context `{Settings} `{PyLib} `{Network} `{Encoding} `{TextEncoding} `{Providers}
  `{EvaluationSchemas}.

Lemma regressions_nil l : regressions_of l = [] ↔ ∀ t, t ∈ l → th_passed t = true.
Proof.
  unfold regressions_of, sorted_texts. split.
  - intros Hs t Ht. destruct (th_passed t) eqn:Hp; [done|]. exfalso.
    assert (Hin : th_category t ∈ merge_sort text_le
      (remove_dups (map th_category (List.filter (λ t, negb (th_passed t)) l)))).
    { rewrite (merge_sort_Permutation _ _), elem_of_remove_dups, list_elem_of_fmap. exists t.
      split; [done|]. apply list_elem_of_In, filter_In. split; [by apply list_elem_of_In|].
      by rewrite Hp. }
    rewrite Hs in Hin. by apply elem_of_nil in Hin.
  - intros Hall. assert (List.filter (λ t, negb (th_passed t)) l = []) as ->; [|done].
    induction l as [|t l IH]; [done|]. simpl. rewrite (Hall t) by left. simpl. apply IH.
    intros u Hu. apply Hall. by right.
Qed.

Lemma in_concat_results t x l ts :
  concat_results l = inr ts → inr x ∈ l → t ∈ x → t ∈ ts.
Proof.
  revert ts. induction l as [|[e|y] l IH]; intros ts; simpl; [by intros _ ?%elem_of_nil|done|].
  destruct (concat_results l) as [e|z] eqn:Hz; [done|]. intros [= <-].
  intros [[= ->]|Hin]%elem_of_cons Ht; apply elem_of_app; [by left|]. right. by apply IH.
Qed.

(** Whatever the thresholds are, the flag of a count is among them when it is asked for. *)
Lemma zero_threshold_holds config name category count ts l :
  concat_results l = inr ts → zero_threshold config name category count ∈ l →
  py_bool (args_get config name) = true → (∀ t, t ∈ ts → th_passed t = true) →
  SFeqb count (S754_zero false) = true.
Proof.
  unfold zero_threshold. intros Hl Hin Hb Hall. rewrite Hb in Hin.
  pose proof (Hall _ (in_concat_results _ _ _ _ Hl Hin ltac:(left))) as Hp. exact Hp.
Qed.

Lemma count_flag_zero key l : count_flag key l = 0%Z → ∀ r, r ∈ l → scorer_flag key r = false.
Proof.
  unfold count_flag. intros Hz r Hr. destruct (scorer_flag key r) eqn:Hf; [|done]. exfalso.
  assert (Hin : In r (List.filter (scorer_flag key) l)).
  { apply filter_In. split; [by apply list_elem_of_In|done]. }
  destruct (List.filter _ l); [done|]. simpl in Hz. lia.
Qed.

Lemma count_flag_bound key l : (0 <= count_flag key l <= Z.of_nat (List.length l))%Z.
Proof. unfold count_flag. pose proof (filter_length_le (scorer_flag key) l). lia. Qed.

(** The regression gate.  Two runs with different cases are refused, without a trace.
    Otherwise the answer holds the metrics of the initial results of both and their
    differences, and passes exactly when every configured threshold holds.  So when
    it passes with a minimal pass rate, the candidate's rate is not below it; and
    when no forbidden tool call, or no approval violation, is tolerated, none of the candidate's
    initial results has one. *)
Theorem comparison_gate workspace baseline_id candidate_id candidate actor w o w' :
  compare_evaluation_runs workspace baseline_id candidate_id candidate actor w = (o, w') →
  if bool_decide (case_keys baseline_id w = case_keys candidate_id w) then
    ∀ c, o = inr c →
      cmp_candidate_metrics c = run_metrics candidate_id w ∧
      cmp_baseline_metrics c = run_metrics baseline_id w ∧
      cmp_deltas c = metric_deltas (run_metrics baseline_id w) (run_metrics candidate_id w) ∧
      (cmp_passed c = true ↔ ∀ t, t ∈ cmp_thresholds c → th_passed t = true) ∧
      (cmp_passed c = true → ∀ f, args_get (ev_threshold_config candidate) "min_pass_rate" = JFloat f →
        SFleb f (rm_pass_rate (run_metrics candidate_id w)) = true) ∧
      (cmp_passed c = true → (Z.of_nat (List.length (initial_results candidate_id w)) < 2 ^ 53)%Z →
        ∀ r, r ∈ initial_results candidate_id w →
        (py_bool (args_get (ev_threshold_config candidate) "zero_forbidden_tool_violations") = true →
         scorer_flag "forbidden_tool_violation" r = false) ∧
        (py_bool (args_get (ev_threshold_config candidate) "zero_approval_violations") = true →
         scorer_flag "approval_violation" r = false))
  else o = inl (EvaluationExc EvaluationErr.RunsNotComparable) ∧ w' = w.
Proof.
  apply (wp_run (compare_evaluation_runs workspace baseline_id candidate_id candidate actor) w o w'
    (λ o w', if bool_decide _ then ∀ c, o = inr c → _ else o = _ ∧ w' = w)).
  unfold compare_evaluation_runs. apply wp_bind, wp_gets. wp_beta. apply wp_bind, wp_gets. wp_beta.
  destruct (bool_decide _) eqn:Hkeys; simpl; [|apply wp_bind; by apply wp_raise].
  apply wp_bind, wp_ret. wp_beta. apply wp_bind, wp_gets. wp_beta. apply wp_bind, wp_gets. wp_beta. cbv zeta.
  set (candidate_metrics := run_metrics candidate_id w). set (deltas := metric_deltas _ _).
  apply wp_bind, wp_of_sum. destruct (evaluate_thresholds _ _ _) as [e|ts] eqn:Hts; wp_beta; [done|].
  apply wp_bind, wp_record_event. wp_beta. apply wp_ret. intros c [= <-]. simpl.
  split; [done|]. split; [done|]. split; [done|].
  rewrite bool_decide_eq_true, regressions_nil. split; [done|].
  unfold evaluate_thresholds in Hts. split.
  - intros Hall f Hf. set (t := {| th_name := "min_pass_rate"; th_threshold := JFloat f;
      th_passed := SFleb f (rm_pass_rate candidate_metrics); th_category := "pass_rate" |}).
    apply (Hall t), (in_concat_results t [t] _ _ Hts); [|left].
    unfold numeric_threshold at 1. rewrite Hf. left.
  - intros Hall Hlen r Hr. split; intros Hb.
    + apply (count_flag_zero "forbidden_tool_violation" (initial_results candidate_id w)); [|done].
      pose proof (count_flag_bound "forbidden_tool_violation" (initial_results candidate_id w)).
      apply fl_zero; [lia|]. eapply zero_threshold_holds; [exact Hts| |exact Hb|exact Hall].
      do 2 right. left.
    + apply (count_flag_zero "approval_violation" (initial_results candidate_id w)); [|done].
      pose proof (count_flag_bound "approval_violation" (initial_results candidate_id w)).
      apply fl_zero; [lia|]. eapply zero_threshold_holds; [exact Hts| |exact Hb|exact Hall].
      do 3 right. left.
Qed.
End Comparison.

(** ** Examples *)

Module ResultExamples.
#[local] Existing Instance default_settings.
#[local] Existing Instance trivial_pylib.
#[local] Existing Instance GraphExamples.text_encoding.
#[local] Existing Instance AgentExamples.net.
#[local] Existing Instance AgentExamples.encoding.
#[local] Existing Instance AgentExamples.providers.
#[local] Existing Instance EvaluationExamples.schemas.

(** A run that called a lookup and a refund, which are what is expected. *)
Definition calls (keys : list string) : Evidence := {|
  evd_tool_executions := map (λ k, (k, ToolExecutionStatus.SUCCEEDED)) keys;
  evd_approvals := []; evd_run := AgentExamples.run_in AgentRunStatus.SUCCEEDED;
  evd_output_metadata := None |}.
Definition lookup_only : EvaluationCaseExpectations := {|
  ex_allowed_tools := ["order.lookup"]; ex_forbidden_tools := ["payment.refund"];
  ex_required_tool_sequence := Some ["order.lookup"]; ex_acceptable_tool_sequences := None;
  ex_approval_behavior := Some ApprovalBehavior.NOT_REQUIRED; ex_outcome_assertions := [] |}.

Definition score_of_calls (keys : list string) : CaseScore :=
  match score_evidence lookup_only (calls keys) with
  | inr s => s
  | inl _ => EvaluationExamples.perfect
  end.

Lemma case_passes_iff_witness :
  meets lookup_only (calls ["order.lookup"]) ["order.lookup"] ∧
  sc_failure_code (score_of_calls ["order.lookup"; "payment.refund"])
    = Some EvaluationFailureCode.FORBIDDEN_TOOL_VIOLATION.
Proof.
  split; [|vm_compute; reflexivity].
  destruct (case_passes_iff lookup_only (calls ["order.lookup"]) (score_of_calls ["order.lookup"])
    ltac:(vm_compute; reflexivity)) as (ran & Hran & Hpass & _).
  assert (Hp : sc_passed (score_of_calls ["order.lookup"]) = true) by (vm_compute; reflexivity).
  assert (Heq : ran = ["order.lookup"]); [|rewrite Heq in Hpass; by apply Hpass].
  inversion Hran as [|? ? ? ? _ Hr|? ? ? ? Hno]; subst; [by inversion Hr|]. destruct Hno. constructor.
Defined.

(** A run that failed hides the forbidden call it made. *)
Example failure_hides_violation :
  let e := {| evd_tool_executions := [("payment.refund", ToolExecutionStatus.SUCCEEDED)];
              evd_approvals := []; evd_run := AgentExamples.run_in AgentRunStatus.BUDGET_EXCEEDED;
              evd_output_metadata := None |} in
  match score_evidence lookup_only e with
  | inr s => sc_failure_code s = Some EvaluationFailureCode.BUDGET_EXCEEDED ∧
      so_forbidden_tool_violation (sc_output s) = true
  | inl _ => False
  end.
Proof. vm_compute. split; reflexivity. Qed.

Lemma start_freezes_cases_witness :
  (start_evaluation_run 7 40 10 2 ToolExamples.version None None EvaluationExamples.configured).1
    = inr 20%N ∧
  ∃ i, w_evaluation_snapshots EvaluationExamples.started_world !! i
    = Some (snapshot_of 20 0 (12%N, EvaluationExamples.case_named "broken" JNull)).
Proof.
  assert (Ho : (start_evaluation_run 7 40 10 2 ToolExamples.version None None EvaluationExamples.configured).1
    = inr 20%N) by (vm_compute; reflexivity).
  assert (Hk : frozen_cases 10 EvaluationExamples.configured !! 0
    = Some (12%N, EvaluationExamples.case_named "broken" JNull)) by (vm_compute; reflexivity).
  split; [exact Ho|]. unfold EvaluationExamples.started_world.
  destruct (start_evaluation_run 7 40 10 2 ToolExamples.version None None EvaluationExamples.configured)
    as [o w'] eqn:Hx. simpl in Ho. subst o.
  pose proof (start_freezes_cases 7 40 10 2 ToolExamples.version None None EvaluationExamples.configured
    (inr 20%N) w' EvaluationExamples.configured_ok Hx) as (_ & _ & _ & _ & Hs & _).
  destruct (proj2 (Hs (snapshot_of 20 0 (12%N, EvaluationExamples.case_named "broken" JNull)))
    (ex_intro _ 0 (ex_intro _ _ (conj Hk eq_refl)))) as (i & Hi & _).
  exists i. exact Hi.
Defined.

(** The run compared with itself, when half of the cases must pass. *)
Definition gated : EvaluationRun :=
  {| EvaluationExamples.the_run with
     ev_threshold_config := [("min_pass_rate", JFloat (py_div 1 2));
                             ("zero_forbidden_tool_violations", JBool true)] |}.
Definition gate : (exn + Comparison) * World :=
  compare_evaluation_runs 7 20 20 gated None EvaluationExamples.all_done.

Lemma comparison_gate_witness :
  match gate.1 with
  | inr c => cmp_passed c = true ∧
      SFleb (py_div 1 2) (rm_pass_rate (run_metrics 20 EvaluationExamples.all_done)) = true
  | inl _ => False
  end.
Proof.
  assert (Hkeys : bool_decide (case_keys 20 EvaluationExamples.all_done
    = case_keys 20 EvaluationExamples.all_done) = true) by (apply bool_decide_eq_true; reflexivity).
  assert (Hp : match gate.1 with inr c => cmp_passed c = true | inl _ => False end)
    by (vm_compute; reflexivity).
  unfold gate in *.
  destruct (compare_evaluation_runs 7 20 20 gated None EvaluationExamples.all_done) as [o w'] eqn:Hx.
  pose proof (comparison_gate 7 20 20 gated None EvaluationExamples.all_done o w' Hx) as Hg.
  rewrite Hkeys in Hg. cbn [fst] in Hp |- *. destruct o as [e|c]; [destruct Hp|].
  split; [exact Hp|].
  destruct (Hg c eq_refl) as (_ & _ & _ & _ & Hmin & _). exact (Hmin Hp (py_div 1 2) eq_refl).
Defined.
End ResultExamples.
