(* ===== verification/Ingress.v ===== *)
(** * Channel ingress

    [channel_ingress/]: the verification and normalization of a signed webhook, the
    durable event it becomes, the processing of the event into a customer, a
    conversation, a message and a run of the support agent, the sessions of the web
    chat, the routing of a reply back to its channel, the configuration of endpoints
    and the recovery sweep. *)

From stdpp Require Import base gmap strings list pretty sorting.
From Stdlib Require Import ZArith Ascii String Lia.
From S2P Require Import Prelude Json Domain Policy Models Store Delivery Network Webhooks Notifications Approvals ToolExec Graph Conversations AgentRuns Chunking Knowledge AgentContext Scoring.

#[local] Open Scope nat_scope.

(** What the channels use of Python's and Django's libraries: [json.loads] of a body
    decoded as UTF-8 ([ValueError] stands for the two errors that are caught), [int] of
    a text, [parse_datetime], a session token from a fresh number, and the key a value
    stands for in a query ([None] is a [ValidationError]). *)
Class ChannelLib := {
  json_loads : string → exn + json;
  int_of_text : string → option Z;
  parse_datetime : string → exn + option Z;
  token_urlsafe : N → string;
  uuid_of : json → option N;
}.

(** [str(pk)] reads back as the key. *)
Definition keys_read_back `{ChannelLib} : Prop := ∀ i : N, uuid_of (JStr (pretty i)) = Some i.

Definition Http404 : exn := OtherExc 6.

Section Ingress.
Context `{Settings} `{PyLib} `{Network} `{Encoding} `{TextEncoding} `{Providers} `{ChannelLib}.

(** ** Signatures ([security.py]) *)

Definition SIGNATURE_VERSION : string := "v1".

Definition compute_signature (secret : string) (timestamp : Z) (raw_body : string) : string :=
  SIGNATURE_VERSION +:+ "=" +:+ hmac_sha256 secret (pretty timestamp +:+ "." +:+ raw_body).

(** A text [hmac.compare_digest] accepts. *)
Definition is_ascii (s : string) : bool :=
  forallb (λ c, (N_of_ascii c <? 128)%N) (list_ascii_of_string s).

Definition given (header : option string) : option string :=
  match header with Some s => if String.eqb s "" then None else Some s | None => None end.

Definition verify_inbound_signature (secret raw_body : string)
    (timestamp_header signature_header : option string) (now : Z) : exn + () :=
  match given signature_header, given timestamp_header with
  | None, _ | _, None => inl (ChannelExc ChannelErr.SignatureMissing)
  | Some signature_header, Some timestamp_header =>
      match int_of_text timestamp_header with
      | None => inl (ChannelExc ChannelErr.SignatureMalformed)
      | Some timestamp =>
          if ((timestamp <? now - CHANNELS_SIGNATURE_MAX_PAST_SKEW_SECONDS)
              || (now + CHANNELS_SIGNATURE_MAX_FUTURE_SKEW_SECONDS <? timestamp))%Z
          then inl (ChannelExc ChannelErr.SignatureExpired)
          else if negb (starts_with (SIGNATURE_VERSION +:+ "=") signature_header)
          then inl (ChannelExc ChannelErr.SignatureMalformed)
          else if negb (is_ascii signature_header) then inl TypeError
          else if negb (String.eqb (compute_signature secret timestamp raw_body) signature_header)
          then inl (ChannelExc ChannelErr.SignatureInvalid)
          else inr ()
      end
  end.

Definition too_large (raw_body : string) : bool :=
  (CHANNELS_MAX_INBOUND_BODY_BYTES <? N.of_nat (String.length raw_body))%N.
Definition enforce_body_size (raw_body : string) : exn + () :=
  if too_large raw_body then inl (ChannelExc ChannelErr.PayloadTooLarge) else inr ().

Definition compute_payload_digest (raw_body : string) : string := sha256_hexdigest raw_body.

(** ** Adapters ([schemas.py], [adapters/]) *)

Record CanonicalInboundMessage := {
  ci_channel : ChannelType.t;
  ci_provider : string;
  ci_provider_event_id : string;
  ci_provider_thread_id : option string;
  ci_provider_message_id : option string;
  ci_external_identity : string;
  ci_subject : string;
  ci_body : string;
  ci_received_at : Z;
  ci_metadata : list (string * json);
}.

Definition payload_invalid : exn := ChannelExc ChannelErr.PayloadInvalid.
Definition unsupported_event : exn := ChannelExc ChannelErr.UnsupportedEvent.

Definition endpoint_signing_secret (endpoint : ChannelEndpoint) : exn + string :=
  if String.eqb (ce_encrypted_signing_secret endpoint) "" then inl unsupported_event
  else match decrypt_credentials (ce_encrypted_signing_secret endpoint) with
       | None => inl unsupported_event
       | Some envelope =>
           match args_get envelope "secret" with
           | JStr secret => if String.eqb secret "" then inl unsupported_event else inr secret
           | _ => inl unsupported_event
           end
       end.

Definition bounded_str (value : json) (max_length : nat) : exn + string :=
  match value with JStr s => inr (str_take max_length s) | _ => inl payload_invalid end.

(** [int(time.time())]. *)
Definition epoch_seconds (now : Z) : Z := (now / 1000000)%Z.

Definition verify_signature (endpoint : ChannelEndpoint) (raw_body : string)
    (headers : string → option string) (now : Z) : exn + () :=
  match enforce_body_size raw_body with
  | inl e => inl e
  | inr _ =>
      match endpoint_signing_secret endpoint with
      | inl e => inl e
      | inr secret =>
          verify_inbound_signature secret raw_body (headers "X-SupportPilot-Timestamp")
            (headers "X-SupportPilot-Signature") (epoch_seconds now)
      end
  end.

(** The two adapters; the web chat has none. *)
Inductive Adapter := GenericSignedWebhookAdapter | EmailInboundAdapter.
Definition get_adapter (channel : ChannelType.t) : exn + Adapter :=
  match channel with
  | ChannelType.GENERIC_WEBHOOK => inr GenericSignedWebhookAdapter
  | ChannelType.EMAIL => inr EmailInboundAdapter
  | ChannelType.WEB_CHAT => inl unsupported_event
  end.

Definition required_fields (a : Adapter) : list string :=
  match a with
  | GenericSignedWebhookAdapter => ["event_id"; "external_id"; "body"]
  | EmailInboundAdapter => ["event_id"; "from"; "body"]
  end.

(** [isinstance(v, str) and v]. *)
Definition nonempty_text (v : json) : bool :=
  match v with JStr s => negb (String.eqb s "") | _ => false end.

Definition parse_event (a : Adapter) (raw_body : string) : exn + list (string * json) :=
  match json_loads raw_body with
  | inl ValueError => inl payload_invalid
  | inl e => inl e
  | inr (JObj parsed) =>
      if forallb (λ field_name, nonempty_text (args_get parsed field_name)) (required_fields a)
      then inr parsed else inl payload_invalid
  | inr _ => inl payload_invalid
  end.

Definition received_at (parsed : list (string * json)) (now : Z) : exn + Z :=
  match args_get parsed "received_at" with
  | JStr raw =>
      if String.eqb raw "" then inr now
      else match parse_datetime raw with
           | inl e => inl e
           | inr parsed_dt => inr (default now parsed_dt)
           end
  | _ => inr now
  end.

(** [_bounded_str(parsed[key], max_length=255) if parsed.get(key) else None]. *)
Definition optional_str (parsed : list (string * json)) (key : string) : exn + option string :=
  if py_bool (args_get parsed key) then
    match bounded_str (args_get parsed key) 255 with inl e => inl e | inr s => inr (Some s) end
  else inr None.

Definition subject_of (parsed : list (string * json)) : exn + string :=
  let subject := args_get parsed "subject" in
  bounded_str (if py_bool subject then subject else JStr "") 300.

Definition normalize_email (value : json) : exn + string :=
  match value with
  | JStr s =>
      let normalized := str_lower (str_strip s) in
      if (String.length normalized <? 3) || negb (has_char "@"%char normalized)
         || starts_with "@" normalized
      then inl payload_invalid else inr (str_take 320 normalized)
  | _ => inl payload_invalid
  end.

(** The first error of the fields decides; both adapters read them in the same order
    but for the sender. *)
Definition canonical_of (channel : ChannelType.t) (provider sender body : string)
    (metadata : list (string * json)) (parsed : list (string * json)) (now : Z)
    : exn + CanonicalInboundMessage :=
  match bounded_str (args_get parsed "event_id") 255, optional_str parsed "thread_id",
        optional_str parsed "message_id" with
  | inl e, _, _ | inr _, inl e, _ | inr _, inr _, inl e => inl e
  | inr event_id, inr thread_id, inr message_id =>
      match subject_of parsed, received_at parsed now with
      | inl e, _ | inr _, inl e => inl e
      | inr subject, inr received =>
          inr {| ci_channel := channel; ci_provider := provider; ci_provider_event_id := event_id;
                 ci_provider_thread_id := thread_id; ci_provider_message_id := message_id;
                 ci_external_identity := sender; ci_subject := subject; ci_body := body;
                 ci_received_at := received; ci_metadata := metadata |}
      end
  end.

Definition normalize_body (parsed : list (string * json)) : exn + string :=
  bounded_str (args_get parsed "body") (N.to_nat CHANNELS_MAX_MESSAGE_BODY_LENGTH).

Definition normalize_generic (parsed : list (string * json)) (now : Z)
    : exn + CanonicalInboundMessage :=
  match normalize_body parsed, bounded_str (args_get parsed "external_id") 255 with
  | inl e, _ | inr _, inl e => inl e
  | inr body, inr sender =>
      canonical_of ChannelType.GENERIC_WEBHOOK "generic" sender body [] parsed now
  end.

Definition normalize_email_event (parsed : list (string * json)) (now : Z)
    : exn + CanonicalInboundMessage :=
  match normalize_email (args_get parsed "from"), normalize_body parsed with
  | inl e, _ | inr _, inl e => inl e
  | inr sender, inr body =>
      canonical_of ChannelType.EMAIL "generic_email" sender body
        (if py_bool (args_get parsed "body_html") then [("had_html_body", JStr "true")] else [])
        parsed now
  end.

Definition normalize (a : Adapter) (parsed : list (string * json)) (now : Z)
    : exn + CanonicalInboundMessage :=
  match a with
  | GenericSignedWebhookAdapter => normalize_generic parsed now
  | EmailInboundAdapter => normalize_email_event parsed now
  end.

(** ** The durable event ([services.py]) *)

(** [uniq_inbound_event_endpoint_provider_event_id], and one event for a message. *)
Definition event_clash (a b : InboundChannelEvent) : bool :=
  (bool_decide (ie_endpoint a = ie_endpoint b)
   && String.eqb (ie_provider_event_id a) (ie_provider_event_id b))
  || match ie_message a, ie_message b with
     | Some m, Some m' => bool_decide (m = m') | _, _ => false end.

Definition event_fits (e : InboundChannelEvent) : bool :=
  fits 255 (ie_provider_event_id e) && fits 255 (ie_provider_thread_id e)
  && fits 255 (ie_provider_message_id e) && fits 64 (ie_payload_digest e)
  && fits 255 (ie_external_identity e) && fits 300 (ie_subject e).

(** [event.save()]. *)
Definition save_event (i : N) (e : InboundChannelEvent) : service () :=
  raise_if (negb (event_fits e)) DataError;;
  save_unique event_clash i e.

Definition same_event (endpoint : N) (provider_event_id : string) (_ : N)
    (e : InboundChannelEvent) : bool :=
  bool_decide (ie_endpoint e = endpoint) && String.eqb (ie_provider_event_id e) provider_event_id.

Definition new_event (endpoint_id : N) (endpoint : ChannelEndpoint)
    (provider_event_id payload_digest external_identity body subject : string)
    (provider_thread_id provider_message_id : option string) (now : Z) : InboundChannelEvent := {|
  ie_workspace := ce_workspace endpoint; ie_endpoint := endpoint_id;
  ie_provider_event_id := provider_event_id;
  ie_provider_thread_id := default "" provider_thread_id;
  ie_provider_message_id := default "" provider_message_id;
  ie_payload_digest := payload_digest; ie_external_identity := external_identity;
  ie_subject := subject; ie_body := body; ie_status := InboundChannelEventStatus.RECEIVED;
  ie_failure_code := ""; ie_conversation := None; ie_message := None; ie_received_at := now;
  ie_processing_started_at := None; ie_processed_at := None |}.

(** The existing event, when it has the same content. *)
Definition duplicate_of (payload_digest : string) (existing : N * InboundChannelEvent) : service N :=
  raise_if (negb (String.eqb (ie_payload_digest existing.2) payload_digest))
    (ChannelExc ChannelErr.IdempotencyConflict);;
  mret existing.1.

Definition ingest_channel_event (endpoint_id : N) (endpoint : ChannelEndpoint)
    (provider_event_id payload_digest external_identity body subject : string)
    (provider_thread_id provider_message_id : option string) : service N :=
  atomic (
    existing ← first_row (same_event endpoint_id provider_event_id);
    match existing with
    | Some existing => duplicate_of payload_digest existing
    | None =>
        created ← catch
          (atomic (
             now ← get_now;
             i ← fresh;
             save_event i (new_event endpoint_id endpoint provider_event_id payload_digest
               external_identity body subject provider_thread_id provider_message_id now);;
             mret (inr i)))
          (λ e, match e with
                | IntegrityError =>
                    existing ← get_where (same_event endpoint_id provider_event_id);
                    i ← duplicate_of payload_digest existing;
                    mret (inl i)
                | e => raise e
                end);
        match created with
        | inl i => mret i
        | inr i => publish (process_inbound_channel_event_task i);; mret i
        end
    end).

(** ** Identity and conversation ([identity.py], [conversation_resolution.py]) *)

Definition channel_identity_key (channel : ChannelType.t) (external_identity : string) : string :=
  str_take 255 (ChannelType.value channel +:+ ":" +:+ external_identity).

Definition customer_of (workspace : N) (external_id : string) (_ : N) (c : Customer) : bool :=
  bool_decide (cu_workspace c = workspace) && bool_decide (cu_external_id c = Some external_id).

Definition channel_customer (channel : ChannelType.t) (external_id external_identity : string)
    : CustomerData := {|
  cud_external_id := Some (Some external_id); cud_first_name := None; cud_last_name := None;
  cud_display_name := Some external_identity;
  cud_email := Some (match channel with ChannelType.EMAIL => Some external_identity | _ => None end);
  cud_phone := None; cud_company := None; cud_notes := None; cud_metadata := None;
  cud_is_active := None |}.

Definition resolve_customer_identity (endpoint : ChannelEndpoint) (external_identity : string)
    : service (N * Customer) :=
  let external_id := channel_identity_key (ce_channel endpoint) external_identity in
  existing ← first_row (customer_of (ce_workspace endpoint) external_id);
  match existing with
  | Some existing => mret existing
  | None =>
      raise_if (bool_decide (ce_unknown_customer_policy endpoint = UnknownCustomerPolicy.REJECT))
        (ChannelExc ChannelErr.IdentityNotFound);;
      i ← create_customer (ce_workspace endpoint)
            (channel_customer (ce_channel endpoint) external_id external_identity);
      customer ← get_row i;
      mret (i, customer)
  end.

(** [_CONVERSATION_CHANNEL_BY_TYPE]. *)
Definition conversation_channel (channel : ChannelType.t) : string :=
  match channel with
  | ChannelType.WEB_CHAT => "chat" | ChannelType.EMAIL => "email" | ChannelType.GENERIC_WEBHOOK => "api"
  end.

Definition thread_external_id (endpoint_id : N) (provider_thread_id : string) : string :=
  str_take 255 (pretty endpoint_id +:+ ":" +:+ provider_thread_id).

Definition thread_of (workspace : N) (external_id : string) (_ : N) (c : Conversation) : bool :=
  bool_decide (cv_workspace c = workspace) && bool_decide (cv_external_id c = Some external_id).

(** [event.provider_thread_id or None]. *)
Definition thread_id (event : InboundChannelEvent) : option string :=
  given (Some (ie_provider_thread_id event)).

Definition resolve_conversation (endpoint_id : N) (endpoint : ChannelEndpoint)
    (customer : N * Customer) (event : InboundChannelEvent) : service (N * Conversation) :=
  let external_id := thread_external_id endpoint_id <$> thread_id event in
  existing ← match external_id with
             | Some external_id => first_row (thread_of (ce_workspace endpoint) external_id)
             | None => mret None
             end;
  match existing with
  | Some existing => mret existing
  | None =>
      i ← create_conversation (ce_workspace endpoint) customer.1 customer.2
            (conversation_channel (ce_channel endpoint)) (ie_subject event) external_id
            (JObj [("channel_endpoint_id", JStr (pretty endpoint_id))]);
      conversation ← get_row i;
      mret (i, conversation)
  end.

Definition resolve_conversation_with_retry (endpoint_id : N) (endpoint : ChannelEndpoint)
    (customer : N * Customer) (event : InboundChannelEvent) : service (N * Conversation) :=
  catch (resolve_conversation endpoint_id endpoint customer event)
    (λ e, match e, thread_id event with
          | IntegrityError, Some thread =>
              get_where (thread_of (ce_workspace endpoint) (thread_external_id endpoint_id thread))
          | e, _ => raise e
          end).

(** ** Sessions *)

(** [token_hash] and [conversation] are unique. *)
Definition session_clash (a b : ChatSession) : bool :=
  String.eqb (cs_token_hash a) (cs_token_hash b)
  || match cs_conversation a, cs_conversation b with
     | Some c, Some c' => bool_decide (c = c') | _, _ => false end.

Definition unlinked (session_id i : N) (s : ChatSession) : bool :=
  bool_decide (i = session_id) && bool_decide (cs_conversation s = None).

Definition link_session (conversation customer : N) (s : ChatSession) : ChatSession :=
  {| s with cs_conversation := Some conversation; cs_customer := Some customer |}.

(** [filter(pk=key, conversation__isnull=True).update(...)]. *)
Definition link_chat_session (endpoint : ChannelEndpoint) (event : InboundChannelEvent)
    (conversation_id customer_id : N) : service () :=
  match ce_channel endpoint, thread_id event with
  | ChannelType.WEB_CHAT, Some thread =>
      session_id ← or_raise (uuid_of (JStr thread)) (ValidationError "id");
      session ← first_row (unlinked session_id);
      match session with
      | Some (i, session) =>
          save_unique session_clash i (link_session conversation_id customer_id session)
      | None => mret ()
      end
  | _, _ => mret ()
  end.

(** ** Processing *)

Definition claimed_event (now : Z) (e : InboundChannelEvent) : InboundChannelEvent :=
  {| e with ie_status := InboundChannelEventStatus.PROCESSING;
            ie_processing_started_at := Some now |}.

Definition claim_inbound_channel_event (event_id : N) : service (option InboundChannelEvent) :=
  atomic (
    event ← get_row event_id;
    if negb (bool_decide (ie_status event = InboundChannelEventStatus.RECEIVED)) then mret None
    else
      now ← get_now;
      save_row event_id (claimed_event now event);;
      mret (Some (claimed_event now event))).

Definition is_event (event_id i : N) (_ : InboundChannelEvent) : bool := bool_decide (i = event_id).

Definition processed_event (conversation message : N) (now : Z) (e : InboundChannelEvent)
    : InboundChannelEvent :=
  {| e with ie_status := InboundChannelEventStatus.PROCESSED;
            ie_conversation := Some conversation; ie_message := Some message;
            ie_processed_at := Some now |}.

Definition other_event_of (event_id message i : N) (e : InboundChannelEvent) : bool :=
  negb (bool_decide (i = event_id)) && bool_decide (ie_message e = Some message).

Definition mark_event_processed (event_id conversation message : N) : service () :=
  now ← get_now;
  taken ← gets (exists_row (other_event_of event_id message));
  raise_if taken IntegrityError;;
  update_rows (is_event event_id) (processed_event conversation message now).

Definition failed_event (code : string) (now : Z) (e : InboundChannelEvent) : InboundChannelEvent :=
  {| e with ie_status := InboundChannelEventStatus.FAILED;
            ie_failure_code := str_take 64 code; ie_processed_at := Some now |}.

Definition mark_event_failed (event_id : N) (code : string) : service () :=
  now ← get_now;
  update_rows (is_event event_id) (failed_event code now).

(** The transaction of [process_inbound_channel_event]. *)
Definition handle_event (event_id : N) (event : InboundChannelEvent) (endpoint : ChannelEndpoint)
    : service N :=
  atomic (
    customer ← resolve_customer_identity endpoint (ie_external_identity event);
    conversation ← resolve_conversation_with_retry (ie_endpoint event) endpoint customer event;
    link_chat_session endpoint event conversation.1 customer.1;;
    message_id ← create_inbound_message (ce_workspace endpoint) conversation.1 conversation.2
      (ie_body event) (given (Some (ie_provider_message_id event)))
      (JObj [("inbound_channel_event_id", JStr (pretty event_id))]);
    message ← get_row message_id;
    mark_event_processed event_id conversation.1 message_id;;
    agent_version ← get_row (ce_agent_version endpoint);
    start_support_agent_run (ce_workspace endpoint) None conversation.1 conversation.2
      message_id message (ce_agent_version endpoint) agent_version None).

Definition orchestration_failed : string := "orchestration_failed".
Definition processing_failed : string := "processing_failed".

Definition failure_code_of (e : exn) : string :=
  match e with AgentExc _ => orchestration_failed | _ => processing_failed end.

Definition process_inbound_channel_event (event_id : N) : service InboundChannelEventStatus.t :=
  claimed ← claim_inbound_channel_event event_id;
  match claimed with
  | None => event ← get_row event_id; mret (ie_status event)
  | Some event =>
      endpoint ← get_row (ie_endpoint event);
      handled ← attempt (handle_event event_id event endpoint);
      match handled with
      | inr _ => mret InboundChannelEventStatus.PROCESSED
      | inl e =>
          mark_event_failed event_id (failure_code_of e);;
          mret InboundChannelEventStatus.FAILED
      end
  end.

(** ** Recovery ([recovery.py]) *)

Definition stuck_event (cutoff : Z) (_ : N) (e : InboundChannelEvent) : bool :=
  bool_decide (ie_status e = InboundChannelEventStatus.RECEIVED) && (ie_received_at e <=? cutoff)%Z.

#[local] Instance received_order_dec x y : Decision (time_order ie_received_at x y).
Proof. unfold time_order. apply _. Defined.

Definition recover_stuck_inbound_events (batch_size : option nat) (now : option Z) : service nat :=
  now ← or_now now;
  let cutoff := (now - seconds CHANNELS_INBOUND_SWEEP_STALE_SECONDS)%Z in
  events ← gets (λ w, merge_sort (time_order ie_received_at) (select_rows (stuck_event cutoff) w));
  let event_ids := take (default CHANNELS_INBOUND_SWEEP_BATCH_SIZE batch_size) (map fst events) in
  for_each event_ids (λ i, publish (process_inbound_channel_event_task i));;
  mret (List.length event_ids).
End Ingress.
