(* ===== verification/Channels.v ===== *)
(** * Web chat, replies, endpoints and the public views of the channels

    [channel_ingress/webchat.py], [response_delivery.py], [endpoint_admin.py] and the
    public part of [views.py].  The handler of a reply's delivery discharges the
    interface of [Delivery]. *)

From stdpp Require Import base gmap strings list pretty sorting relations.
From Stdlib Require Import ZArith Ascii String Lia.
From S2P Require Import Prelude Json Domain Policy Models Store Delivery Network Schemas Adapters Integrations Webhooks Notifications Approvals ToolExec Graph Conversations AgentRuns Chunking Knowledge AgentContext Scoring Ingress.

#[local] Open Scope nat_scope.

Section Channels.
Context `{Settings} `{PyLib} `{Network} `{Encoding} `{TextEncoding} `{Providers} `{ChannelLib}.

(** ** Web chat ([webchat.py]) *)

Definition is_active (endpoint : ChannelEndpoint) : bool :=
  bool_decide (ce_status endpoint = ChannelEndpointStatus.ACTIVE).

Definition endpoint_disabled : exn := ChannelExc ChannelErr.EndpointDisabled.

Definition hash_session_token (token : string) : string := sha256_hexdigest token.

(** [session.save()]. *)
Definition save_session (i : N) (s : ChatSession) : service () :=
  raise_if (negb (fits 64 (cs_token_hash s))) DataError;;
  save_unique session_clash i s.

Definition new_session (endpoint_id : N) (endpoint : ChannelEndpoint) (token : string) (now : Z)
    : ChatSession := {|
  cs_workspace := ce_workspace endpoint; cs_endpoint := endpoint_id; cs_customer := None;
  cs_conversation := None; cs_token_hash := hash_session_token token;
  cs_expires_at := (now + seconds CHANNELS_CHAT_SESSION_TTL_SECONDS)%Z;
  cs_last_seen_at := Some now |}.

(** The session, its row's identifier, and the token. *)
Definition bootstrap_chat_session (endpoint_id : N) (endpoint : ChannelEndpoint)
    : service (N * ChatSession * string) :=
  raise_if (negb (bool_decide (ce_channel endpoint = ChannelType.WEB_CHAT)) || negb (is_active endpoint))
    endpoint_disabled;;
  n ← fresh;
  let token := token_urlsafe n in
  now ← get_now;
  i ← fresh;
  let session := new_session endpoint_id endpoint token now in
  save_session i session;;
  mret (i, session, token).

Definition of_token (token_hash : string) (_ : N) (s : ChatSession) : bool :=
  String.eqb (cs_token_hash s) token_hash.

Definition get_session_for_token (token : string) : service (option (N * ChatSession)) :=
  if String.eqb token "" then mret None
  else
    session ← first_row (of_token (hash_session_token token));
    now ← get_now;
    mret (match session with
          | Some session => if (cs_expires_at session.2 <=? now)%Z then None else Some session
          | None => None
          end).

Definition require_session (token : string) : service (N * ChatSession) :=
  session ← get_session_for_token token;
  or_raise session (ChannelExc ChannelErr.SessionInvalid).

Definition session_event_id (session_id : N) (client_message_id : string) : string :=
  str_take 255 (pretty session_id +:+ ":" +:+ client_message_id).

Definition seen (now : Z) (s : ChatSession) : ChatSession := {| s with cs_last_seen_at := Some now |}.

(** The identifier of the event. *)
Definition submit_chat_message (session_id : N) (session : ChatSession)
    (client_message_id body : string) : service N :=
  atomic (
    endpoint ← get_row (cs_endpoint session);
    raise_if (negb (is_active endpoint)) endpoint_disabled;;
    of_sum (enforce_body_size body);;
    event ← ingest_channel_event (cs_endpoint session) endpoint
      (session_event_id session_id client_message_id) (compute_payload_digest body)
      (pretty session_id) body "" (Some (pretty session_id)) None;
    now ← get_now;
    save_fields session_id (seen now);;
    mret event).

(** [order_by("created_at", "sequence")]. *)
#[local] Instance message_order_dec x y : Decision (time_order msg_created_at x y).
Proof. unfold time_order. apply _. Defined.

Definition in_conversation (conversation_id : N) (_ : N) (m : Message) : bool :=
  bool_decide (msg_conversation m = conversation_id).

Definition message_list_for_conversation (conversation_id : N) (w : World) : list (N * Message) :=
  merge_sort (time_order msg_created_at) (select_rows (in_conversation conversation_id) w).

(** Strictly after the anchor in that order. *)
Definition after_anchor (anchor x : N * Message) : bool :=
  (msg_created_at anchor.2 <? msg_created_at x.2)%Z
  || (msg_created_at x.2 =? msg_created_at anchor.2)%Z && (anchor.1 <? x.1)%N.

Definition list_chat_messages (session : ChatSession) (after : option string)
    : service (list (N * Message)) :=
  match cs_conversation session with
  | None => mret []
  | Some conversation_id =>
      messages ← gets (message_list_for_conversation conversation_id);
      messages ← match given after with
                 | None => mret messages
                 | Some after =>
                     pk ← or_raise (uuid_of (JStr after)) (ValidationError "after");
                     mret (match List.filter (λ x, bool_decide (x.1 = pk)) messages with
                           | anchor :: _ => List.filter (after_anchor anchor) messages
                           | [] => messages
                           end)
                 end;
      mret (take CHANNEL_WEBCHAT_MESSAGE_HISTORY_LIMIT messages)
  end.

(** ** Replies ([response_delivery.py]) *)

(** [(metadata or {}).get("channel_endpoint_id")]. *)
Definition channel_endpoint_id (metadata : json) : exn + json :=
  if py_bool metadata then
    match metadata with JObj m => inr (args_get m "channel_endpoint_id") | _ => inl AttributeError end
  else inr JNull.

Definition external_delivery (channel : ChannelType.t) : bool :=
  bool_decide (channel = ChannelType.EMAIL).

Definition destination_address (endpoint : ChannelEndpoint) (customer : Customer) : string :=
  match given (cu_email customer) with
  | Some email => email
  | None =>
      match obj_get "fallback_reply_address" (ce_configuration endpoint) with
      | Some v => text_of v
      | None => ""
      end
  end.

Definition response_clash (a b : ChannelResponseDelivery) : bool :=
  bool_decide (crd_delivery a = crd_delivery b).

(** [ChannelResponseDelivery.objects.create]: the row is keyed by the source message. *)
Definition create_response (message_id : N) (r : ChannelResponseDelivery) : service () :=
  raise_if (negb (fits 320 (crd_destination_address r) && fits 200 (crd_subject r)
                  && fits 255 (crd_thread_reference r) && fits 200 (crd_idempotency_key r))) DataError;;
  (* [channel_response_delivery_destination_not_blank], [.._idempotency_key_not_blank] *)
  raise_if (String.eqb (crd_destination_address r) "" || String.eqb (crd_idempotency_key r) "")
    IntegrityError;;
  taken ← gets (λ w, bool_decide (is_Some (w_response_deliveries w !! message_id)));
  raise_if taken IntegrityError;;
  save_unique response_clash message_id r.

Definition response_of (delivery endpoint_id : N) (endpoint : ChannelEndpoint)
    (conversation : Conversation) (customer : Customer) (message_id : N) (message : Message)
    : ChannelResponseDelivery := {|
  crd_delivery := delivery; crd_endpoint := endpoint_id;
  crd_destination_address := destination_address endpoint customer;
  crd_subject := str_take 200 (str_or (cv_subject conversation) "Re: your message");
  crd_body := msg_body message;
  crd_thread_reference := default "" (given (cv_external_id conversation));
  crd_idempotency_key := "channel_response:" +:+ pretty message_id;
  crd_provider_message_id := "" |}.

(** Two transactions: the delivery is committed before the row that describes it. *)
Definition create_or_reuse_response_delivery (endpoint_id : N) (endpoint : ChannelEndpoint)
    (workspace : N) (conversation : Conversation) (message_id : N) (message : Message)
    : service ChannelResponseDelivery :=
  existing ← find_row message_id;
  match existing with
  | Some existing => mret existing
  | None =>
      customer ← get_row (cv_customer conversation);
      delivery ← create_delivery workspace DeliveryChannel.CHANNEL_RESPONSE None None;
      let response := response_of delivery endpoint_id endpoint conversation customer message_id message in
      create_response message_id response;;
      mret response
  end.

Definition in_workspace (workspace pk i : N) (endpoint : ChannelEndpoint) : bool :=
  bool_decide (i = pk) && bool_decide (ce_workspace endpoint = workspace).

Definition route_channel_response (run : AgentRun) : service (option ChannelResponseDelivery) :=
  match run_conversation run, run_output_message run with
  | Some conversation_id, Some message_id =>
      conversation ← get_row conversation_id;
      endpoint_key ← of_sum (channel_endpoint_id (cv_metadata conversation));
      if negb (py_bool endpoint_key) then mret None
      else
        pk ← or_raise (uuid_of endpoint_key) (ValidationError "id");
        endpoint ← first_row (in_workspace (run_workspace run) pk);
        match endpoint with
        | Some (endpoint_id, endpoint) =>
            if negb (external_delivery (ce_channel endpoint)) then mret None
            else
              message ← get_row message_id;
              response ← create_or_reuse_response_delivery endpoint_id endpoint (run_workspace run)
                           conversation message_id message;
              mret (Some response)
        | None => mret None
        end
  | _, _ => mret None
  end.

(** The callback of [agents/services.py], which swallows every error. *)
Definition route_callback (run_id : N) : service () :=
  attempt (run ← get_row run_id; route_channel_response run);;
  mret ().

Context `{Pydantic} `{Vendors}.

Definition RESPONSE_UNEXPECTED_ERROR_CODE : string := "channel_response_delivery_unexpected_error".
Definition RESPONSE_MISSING_SNAPSHOT_ERROR_CODE : string := "channel_response_delivery_missing".

Definition response_for (delivery_id : N) (_ : N) (r : ChannelResponseDelivery) : bool :=
  bool_decide (crd_delivery r = delivery_id).

Definition with_provider_message (message_id : string) (r : ChannelResponseDelivery)
    : ChannelResponseDelivery := {| r with crd_provider_message_id := message_id |}.

Definition handle_channel_response_delivery_attempt : DeliveryHandler :=
  λ delivery_id delivery claim_token,
  let fail code retryable :=
    complete_delivery_failure delivery_id claim_token code retryable None None None;;
    mret () in
  response_delivery ← first_row (response_for delivery_id);
  match response_delivery with
  | None => fail RESPONSE_MISSING_SNAPSHOT_ERROR_CODE false
  | Some (pk, r) =>
      sent ← attempt (send_notification (dlv_workspace delivery) INTEGRATIONS_MAX_TIMEOUT_SECONDS
                        (crd_destination_address r) (crd_subject r) (crd_body r)
                        (crd_idempotency_key r));
      match sent with
      | inl (IntegrationExc cls _) => fail (IntegrationErr.code cls) (IntegrationErr.retryable cls)
      | inl _ => fail RESPONSE_UNEXPECTED_ERROR_CODE false
      | inr message =>
          when (negb (String.eqb (nn_message_id message) ""))
            (update_rows (λ i _, bool_decide (i = pk))
               (with_provider_message (nn_message_id message)));;
          complete_delivery_success delivery_id claim_token None None;;
          mret ()
      end
  end.

(** ** Configuration of endpoints ([endpoint_admin.py]) *)

Definition validate_agent_version (workspace : N) (agent_version : AgentVersion) : service () :=
  definition ← get_row (av_definition agent_version);
  raise_if (negb (bool_decide (adef_workspace definition = workspace))) InvalidAgentVersionError;;
  raise_if (negb (bool_decide (av_status agent_version = AgentVersionStatus.PUBLISHED)))
    InvalidAgentVersionError.

Definition needs_signing_secret (channel : ChannelType.t) : bool :=
  negb (bool_decide (channel = ChannelType.WEB_CHAT)).

(** A new secret, with its encrypted form. *)
Definition new_secret : service (string * string) :=
  n ← fresh;
  encrypted ← encrypted_secret (token_hex n);
  mret (token_hex n, encrypted).

(** [endpoint.save()]: [channel_endpoint_name_not_blank]. *)
Definition save_endpoint (i : N) (endpoint : ChannelEndpoint) : service () :=
  raise_if (String.eqb (ce_name endpoint) "") IntegrityError;;
  save_row i endpoint.

Definition channel_event (action : string) (workspace actor endpoint : N)
    (metadata : list (string * json)) : service () :=
  record_event action "channel_endpoint" endpoint (Some actor) (Some workspace) metadata.

Definition create_channel_endpoint (workspace actor : N) (channel : ChannelType.t) (name : string)
    (agent_version_id : N) (agent_version : AgentVersion) (integration_connection : option N)
    (unknown_customer_policy : UnknownCustomerPolicy.t) (configuration : list (string * json))
    : service (N * option string) :=
  atomic (
    validate_agent_version workspace agent_version;;
    secret ← (if needs_signing_secret channel then
                secret ← new_secret; now ← get_now; mret (Some (secret, now))
              else mret None);
    endpoint ← fresh;
    save_endpoint endpoint {|
      ce_workspace := workspace; ce_channel := channel; ce_name := str_take 200 name;
      ce_status := ChannelEndpointStatus.ACTIVE; ce_agent_version := agent_version_id;
      ce_integration_connection := integration_connection;
      ce_unknown_customer_policy := unknown_customer_policy;
      ce_encrypted_signing_secret := default "" (snd ∘ fst <$> secret);
      ce_secret_created_at := snd <$> secret; ce_configuration := configuration |};;
    channel_event "channel_endpoint.created" workspace actor endpoint
      [("channel", JStr (ChannelType.value channel))];;
    mret (endpoint, fst ∘ fst <$> secret)).

(** The columns that are given are written over the current row. *)
Record EndpointData := {
  epd_name : option string;
  epd_agent_version : option (N * AgentVersion);
  epd_unknown_customer_policy : option UnknownCustomerPolicy.t;
  epd_configuration : option (list (string * json));
}.

Definition apply_endpoint_data (data : EndpointData) (e : ChannelEndpoint) : ChannelEndpoint :=
  {| e with
     ce_name := default (ce_name e) (str_take 200 <$> epd_name data);
     ce_agent_version := default (ce_agent_version e) (fst <$> epd_agent_version data);
     ce_unknown_customer_policy :=
       default (ce_unknown_customer_policy e) (epd_unknown_customer_policy data);
     ce_configuration := default (ce_configuration e) (epd_configuration data) |}.

Definition nothing_given (data : EndpointData) : bool :=
  match epd_name data, epd_agent_version data, epd_unknown_customer_policy data,
        epd_configuration data with
  | None, None, None, None => true
  | _, _, _, _ => false
  end.

Definition update_channel_endpoint (workspace endpoint_id actor : N) (data : EndpointData)
    : service () :=
  atomic (
    match epd_agent_version data with
    | Some (_, agent_version) => validate_agent_version workspace agent_version
    | None => mret ()
    end;;
    if nothing_given data then mret ()
    else
      row ← get_row endpoint_id;
      save_endpoint endpoint_id (apply_endpoint_data data row);;
      channel_event "channel_endpoint.updated" workspace actor endpoint_id []).

Definition with_status (status : ChannelEndpointStatus.t) (e : ChannelEndpoint) : ChannelEndpoint :=
  {| e with ce_status := status |}.

Definition set_channel_endpoint_status (workspace endpoint_id actor : N)
    (status : ChannelEndpointStatus.t) : service () :=
  atomic (
    save_fields endpoint_id (with_status status);;
    channel_event
      (if bool_decide (status = ChannelEndpointStatus.DISABLED) then "channel_endpoint.disabled"
       else "channel_endpoint.enabled")
      workspace actor endpoint_id [("status", JStr (ChannelEndpointStatus.value status))]).

Definition with_secret (encrypted : string) (now : Z) (e : ChannelEndpoint) : ChannelEndpoint :=
  {| e with ce_encrypted_signing_secret := encrypted; ce_secret_created_at := Some now |}.

Definition rotate_channel_secret (workspace endpoint_id : N) (endpoint : ChannelEndpoint)
    (actor : N) : service string :=
  atomic (
    raise_if (negb (needs_signing_secret (ce_channel endpoint))) ValueError;;
    secret ← new_secret;
    now ← get_now;
    save_fields endpoint_id (with_secret secret.2 now);;
    channel_event "channel_endpoint.secret_rotated" workspace actor endpoint_id [];;
    mret secret.1).

(** ** The public views ([views.py]) *)

(** What a client is answered; an exception is an answer of 404 ([Http404]) or 500. *)
Inductive ChannelResponse :=
  | Accepted (event_id : N)
  | SessionCreated (token : string) (expires_at : Z)
  | Messages (messages : list (N * Message))
  | ApiError (error : ChannelErr.t).

(** [except ChannelIngressError as exc: raise _channel_api_error(exc) from exc], around
    what comes first; the rest of the view follows when nothing was raised. *)
Definition or_api_error {A} (m : service A) (rest : A → service ChannelResponse)
    : service ChannelResponse :=
  r ← attempt m;
  match r with
  | inl (ChannelExc e) => mret (ApiError e)
  | inl e => raise e
  | inr a => rest a
  end.

Definition get_endpoint (endpoint_id : N) : service ChannelEndpoint :=
  endpoint ← find_row endpoint_id;
  or_raise endpoint Http404.

(** [InboundWebhookView.post]. *)
Definition inbound_webhook_post (endpoint_id : N) (raw_body : string)
    (headers : string → option string) : service ChannelResponse :=
  endpoint ← get_endpoint endpoint_id;
  raise_if (negb (is_active endpoint)) Http404;;
  adapter ← of_sum (get_adapter (ce_channel endpoint));
  now ← get_now;
  or_api_error (of_sum (verify_signature endpoint raw_body headers now)) (λ _,
  or_api_error (parsed ← of_sum (parse_event adapter raw_body);
                of_sum (normalize adapter parsed now)) (λ canonical,
  or_api_error (ingest_channel_event endpoint_id endpoint (ci_provider_event_id canonical)
                  (compute_payload_digest raw_body) (ci_external_identity canonical)
                  (ci_body canonical) (ci_subject canonical) (ci_provider_thread_id canonical)
                  (ci_provider_message_id canonical)) (λ event,
  mret (Accepted event)))).

(** [ChatSessionBootstrapView.post]. *)
Definition chat_session_post (endpoint_id : N) : service ChannelResponse :=
  endpoint ← get_endpoint endpoint_id;
  or_api_error (bootstrap_chat_session endpoint_id endpoint) (λ s,
  mret (SessionCreated s.2 (cs_expires_at s.1.2))).

(** [ChatMessageListCreateView], with the data its serializer has validated. *)
Definition chat_message_post (session_token client_message_id body : string)
    : service ChannelResponse :=
  or_api_error (require_session session_token) (λ session,
  or_api_error (submit_chat_message session.1 session.2 client_message_id body) (λ event,
  mret (Accepted event))).

Definition chat_message_get (session_token : string) (after : option string)
    : service ChannelResponse :=
  or_api_error (require_session session_token) (λ session,
  messages ← list_chat_messages session.2 after;
  mret (Messages messages)).
End Channels.
