(* ===== verification/IngressSafety.v ===== *)
(** * What channel ingress guarantees

    The theorems on [Ingress] and [Channels]. *)

From stdpp Require Import base gmap strings list pretty sorting relations.
From Stdlib Require Import ZArith Ascii String Lia.
From S2P Require Import Prelude Json Domain Policy Models Store Delivery Network Webhooks Notifications Approvals ToolExec ToolSafety Graph Workspaces Conversations Tickets AgentRuns AgentSafety AgentOutcomes Chunking Knowledge AgentContext AgentFrame Scoring Ingress Channels.

#[local] Open Scope nat_scope.

(** ** The state of the channels *)

#[export] Instance inbound_event_eq_dec : EqDecision InboundChannelEvent.
Proof. solve_decision. Defined.
#[export] Instance chat_session_eq_dec : EqDecision ChatSession.
Proof. solve_decision. Defined.
#[export] Instance response_delivery_eq_dec : EqDecision ChannelResponseDelivery.
Proof. solve_decision. Defined.

Definition below {A} (m : gmap N A) (n : N) : Prop := ∀ i a, m !! i = Some a → (i < n)%N.

Definition is_terminal_event (s : InboundChannelEventStatus.t) : bool :=
  bool_decide (s ∈ [InboundChannelEventStatus.PROCESSED; InboundChannelEventStatus.FAILED]).

(** The message an event became. *)
Definition became (w : World) (e : InboundChannelEvent) (m : N) : Prop :=
  ∃ msg, w_messages w !! m = Some msg ∧ msg_workspace msg = ie_workspace e ∧
    msg_body msg = ie_body e ∧ msg_sender_type msg = MessageSenderType.CUSTOMER ∧
    msg_direction msg = MessageDirection.INBOUND ∧
    ie_conversation e = Some (msg_conversation msg).

Record event_ok (w : World) (e : InboundChannelEvent) : Prop := {
  eo_fits : event_fits e = true;
  eo_endpoint : ∃ ep, w_channel_endpoints w !! ie_endpoint e = Some ep ∧
    ce_workspace ep = ie_workspace e ∧
    (ce_channel ep = ChannelType.WEB_CHAT → ∃ i s, ie_provider_thread_id e = pretty i ∧
       ie_external_identity e = pretty i ∧
       w_chat_sessions w !! i = Some s ∧ cs_endpoint s = ie_endpoint e);
  eo_message : ie_status e = InboundChannelEventStatus.PROCESSED ↔ is_Some (ie_message e);
  eo_became m : ie_message e = Some m → became w e m;
  eo_failed : ie_status e = InboundChannelEventStatus.FAILED →
    ie_failure_code e ∈ [orchestration_failed; processing_failed];
}.

Record session_ok (w : World) (s : ChatSession) : Prop := {
  so_endpoint : ∃ ep, w_channel_endpoints w !! cs_endpoint s = Some ep ∧
    ce_workspace ep = cs_workspace s ∧ ce_channel ep = ChannelType.WEB_CHAT;
  so_conversation c : cs_conversation s = Some c →
    ∃ row, w_conversations w !! c = Some row ∧ cv_workspace row = cs_workspace s;
}.

Definition response_ok (w : World) (m : N) (r : ChannelResponseDelivery) : Prop :=
  (∃ msg, w_messages w !! m = Some msg ∧ crd_body r = msg_body msg) ∧
  (∃ ep, w_channel_endpoints w !! crd_endpoint r = Some ep ∧ ce_channel ep = ChannelType.EMAIL) ∧
  crd_destination_address r ≠ "" ∧
  crd_idempotency_key r = "channel_response:" +:+ pretty m.

Record channel_state_ok (w : World) : Prop := {
  ch_chat : conversations_ok w;
  ch_customers : below (w_customers w) (w_next w);
  ch_endpoints : below (w_channel_endpoints w) (w_next w);
  ch_events i e : w_inbound_events w !! i = Some e → (i < w_next w)%N ∧ event_ok w e;
  ch_events_unique : unique event_clash (w_inbound_events w);
  ch_sessions i s : w_chat_sessions w !! i = Some s → (i < w_next w)%N ∧ session_ok w s;
  ch_sessions_unique : unique session_clash (w_chat_sessions w);
  ch_responses m r : w_response_deliveries w !! m = Some r → response_ok w m r;
  ch_responses_unique : unique response_clash (w_response_deliveries w);
}.

(** ** What the services may change *)

Definition event_step (s s' : InboundChannelEventStatus.t) : Prop :=
  match s with
  | InboundChannelEventStatus.RECEIVED => s' = InboundChannelEventStatus.PROCESSING
  | InboundChannelEventStatus.PROCESSING => is_terminal_event s' = true
  | _ => False
  end.

(** What was received never changes. *)
Definition same_content (e e' : InboundChannelEvent) : Prop :=
  ie_workspace e' = ie_workspace e ∧ ie_endpoint e' = ie_endpoint e ∧
  ie_provider_event_id e' = ie_provider_event_id e ∧
  ie_provider_thread_id e' = ie_provider_thread_id e ∧
  ie_provider_message_id e' = ie_provider_message_id e ∧
  ie_payload_digest e' = ie_payload_digest e ∧
  ie_external_identity e' = ie_external_identity e ∧ ie_subject e' = ie_subject e ∧
  ie_body e' = ie_body e ∧ ie_received_at e' = ie_received_at e.

Record event_evolves (e e' : InboundChannelEvent) : Prop := {
  ev_same : same_content e e';
  ev_moves : rtc event_step (ie_status e) (ie_status e');
  ev_final : is_terminal_event (ie_status e) = true → e' = e;
}.

Definition session_evolves (s s' : ChatSession) : Prop :=
  cs_workspace s' = cs_workspace s ∧ cs_endpoint s' = cs_endpoint s ∧
  cs_token_hash s' = cs_token_hash s ∧ cs_expires_at s' = cs_expires_at s ∧
  (is_Some (cs_conversation s) → cs_conversation s' = cs_conversation s ∧ cs_customer s' = cs_customer s).

Definition endpoint_evolves (e e' : ChannelEndpoint) : Prop :=
  ce_workspace e' = ce_workspace e ∧ ce_channel e' = ce_channel e.

Definition response_evolves (r r' : ChannelResponseDelivery) : Prop :=
  crd_delivery r' = crd_delivery r ∧ crd_endpoint r' = crd_endpoint r ∧
  crd_destination_address r' = crd_destination_address r ∧ crd_subject r' = crd_subject r ∧
  crd_body r' = crd_body r ∧ crd_thread_reference r' = crd_thread_reference r ∧
  crd_idempotency_key r' = crd_idempotency_key r.

(** Every row of a table stays, and moves along [R]. *)
Definition rows_move {A} (R : relation A) (m m' : gmap N A) : Prop :=
  ∀ i a, m !! i = Some a → ∃ a', m' !! i = Some a' ∧ R a a'.

Record channel_history (w w' : World) : Prop := {
  chh_chat : history_kept w w';
  chh_events : rows_move event_evolves (w_inbound_events w) (w_inbound_events w');
  chh_sessions : rows_move session_evolves (w_chat_sessions w) (w_chat_sessions w');
  chh_endpoints : rows_move endpoint_evolves (w_channel_endpoints w) (w_channel_endpoints w');
  chh_responses : rows_move response_evolves (w_response_deliveries w) (w_response_deliveries w');
  chh_next : (w_next w <= w_next w')%N;
}.

Definition channel_rel (w w' : World) : Prop :=
  channel_state_ok w → channel_state_ok w' ∧ channel_history w w'.

#[export] Instance event_evolves_preorder : PreOrder event_evolves.
Proof.
  split.
  - intros e. split; [by split_and!|done|done].
  - intros a b c [(?&?&?&?&?&?&?&?&?&?) Hm Hf] [(?&?&?&?&?&?&?&?&?&?) Hm' Hf'].
    split; [split_and!; congruence|by etrans|].
    intros Ht. rewrite <-(Hf Ht). apply Hf'. by rewrite (Hf Ht).
Qed.
#[export] Instance session_evolves_preorder : PreOrder session_evolves.
Proof.
  split; [by intros s; split_and!|].
  intros a b c (?&?&?&?&Hc) (?&?&?&?&Hc'). split_and!; try congruence.
  intros Hs. destruct (Hc Hs) as [E1 E2]. rewrite <-E1, <-E2. apply Hc'. by rewrite E1.
Qed.
#[export] Instance endpoint_evolves_preorder : PreOrder endpoint_evolves.
Proof. split; [done|]. intros a b c [] []. split; congruence. Qed.
#[export] Instance response_evolves_preorder : PreOrder response_evolves.
Proof.
  split; [by intros r; split_and!|].
  intros a b c (?&?&?&?&?&?&?) (?&?&?&?&?&?&?). split_and!; congruence.
Qed.
#[export] Instance rows_move_preorder {A} (R : relation A) `{!PreOrder R} : PreOrder (rows_move R).
Proof.
  split; [by intros m i a Hi; exists a|]. intros m1 m2 m3 H12 H23 i a Hi.
  destruct (H12 i a Hi) as (b & Hb & Hab). destruct (H23 i b Hb) as (c & Hc & Hbc).
  exists c. split; [done|by etrans].
Qed.
#[export] Instance channel_history_preorder : PreOrder channel_history.
Proof.
  split; [intros w; split; (reflexivity || lia)|].
  intros w1 w2 w3 [] []. split; [by etrans..|lia].
Qed.
#[export] Instance channel_rel_preorder : PreOrder channel_rel.
Proof.
  split; [by intros w; split|]. intros w1 w2 w3 H12 H23 Hok.
  destruct (H12 Hok) as [Hok2 Hh]. destruct (H23 Hok2) as [Hok3 Hh']. split; [done|by etrans].
Qed.

(** A row is replaced by one it may become. *)
Lemma rows_move_insert {A} (R : relation A) `{!PreOrder R} (m : gmap N A) i a a' :
  m !! i = Some a → R a a' → rows_move R m (<[i := a']> m).
Proof.
  intros Hi Ha j b Hj. destruct (decide (i = j)) as [<-|Hne].
  - simplify_eq. exists a'. by rewrite lookup_insert_eq.
  - exists b. by rewrite lookup_insert_ne.
Qed.
Lemma rows_move_new {A} (R : relation A) `{!PreOrder R} (m : gmap N A) i a :
  m !! i = None → rows_move R m (<[i := a]> m).
Proof. intros Hi j b Hj. exists b. rewrite lookup_insert_ne; [done|congruence]. Qed.

(** ** Moves *)

(** The tables the channels live in. *)
Record tables_moved (events : gmap N InboundChannelEvent) (sessions : gmap N ChatSession)
    (endpoints : gmap N ChannelEndpoint) (responses : gmap N ChannelResponseDelivery)
    (w w' : World) : Prop := {
  tm_events : w_inbound_events w' = events;
  tm_sessions : w_chat_sessions w' = sessions;
  tm_endpoints : w_channel_endpoints w' = endpoints;
  tm_responses : w_response_deliveries w' = responses;
  tm_conversations : w_conversations w' = w_conversations w;
  tm_messages : w_messages w' = w_messages w;
  tm_customers : w_customers w' = w_customers w;
  tm_memberships : w_memberships w' = w_memberships w;
  tm_next : (w_next w <= w_next w')%N;
}.

Lemma below_mono {A} (m : gmap N A) n n' : below m n → (n <= n')%N → below m n'.
Proof. intros Hb Hn i a Hi. apply Hb in Hi. lia. Qed.
Lemma below_none {A} (m : gmap N A) n n' : below m n → (n <= n')%N → m !! n' = None.
Proof. intros Hb Hn. destruct (m !! n') eqn:Hm; [|done]. apply Hb in Hm. lia. Qed.
Lemma below_insert {A} (m : gmap N A) n i a : below m n → (i < n)%N → below (<[i := a]> m) n.
Proof. intros Hb Hi j x [[<- _]|[_ Hj]]%lookup_insert_Some; [done|by eapply Hb]. Qed.

(** The rows that others mention move along; then everything that mentions them stays
    in order. *)
Lemma event_ok_later w w' e :
  history_kept w w' → rows_move session_evolves (w_chat_sessions w) (w_chat_sessions w') →
  rows_move endpoint_evolves (w_channel_endpoints w) (w_channel_endpoints w') →
  event_ok w e → event_ok w' e.
Proof.
  intros [Hm _] Hs He [Hf (ep & Hep & Hws & Hw) Hst Hb Hc]. split; try done.
  - destruct (He _ _ Hep) as (ep' & Hep' & Hws' & Hch). exists ep'. split; [done|].
    split; [congruence|]. intros Hwc. destruct Hw as (i & s & Hi & Hx & Hss & Hse); [congruence|].
    destruct (Hs i s Hss) as (s' & Hs' & (_ & Hend & _)). exists i, s'. split_and!; [done..|congruence].
  - intros m Hem. destruct (Hb m Hem) as (msg & Hmsg & ?). exists msg. split; [by apply Hm|done].
Qed.
Lemma session_ok_later w w' s :
  history_kept w w' → rows_move endpoint_evolves (w_channel_endpoints w) (w_channel_endpoints w') →
  session_ok w s → session_ok w' s.
Proof.
  intros [_ Hc] He [(ep & Hep & Hws & Hch) Hcv]. split.
  - destruct (He _ _ Hep) as (ep' & Hep' & Hws' & Hch'). exists ep'. split_and!; [done|congruence..].
  - intros c Hsc. destruct (Hcv c Hsc) as (row & Hrow & Hrw).
    destruct (Hc c row Hrow) as (row' & Hrow' & Hw & _). exists row'. split; [done|congruence].
Qed.
Lemma response_ok_later w w' m r :
  history_kept w w' → rows_move endpoint_evolves (w_channel_endpoints w) (w_channel_endpoints w') →
  response_ok w m r → response_ok w' m r.
Proof.
  intros [Hm _] He ((msg & Hmsg & Hb) & (ep & Hep & Hch) & Hd & Hk). split_and!; [..|done|done].
  - exists msg. split; [by apply Hm|done].
  - destruct (He _ _ Hep) as (ep' & Hep' & _ & Hch'). exists ep'. split; [done|congruence].
Qed.

Lemma chat_same_kept events sessions endpoints responses w w' :
  tables_moved events sessions endpoints responses w w' → conversations_ok w →
  conversations_ok w' ∧ history_kept w w'.
Proof.
  intros [_ _ _ _ Ec Em Eu Eb En] (Hu & Hc & Hm).
  assert (Hcok : ∀ c, conversation_ok w c → conversation_ok w' c).
  { intros c (Hcl & Hcu & Ha). unfold conversation_ok, staff_of. by rewrite Eu, Eb. }
  split.
  - unfold conversations_ok. rewrite Ec, Em. split_and!; [done|..].
    + intros i c Hi. destruct (Hc i c Hi). split; [lia|auto].
    + intros i m Hi. destruct (Hm i m Hi) as [? Hok]. split; [lia|].
      unfold message_ok, staff_of in *. by rewrite Ec, Eb.
  - split; [by rewrite Em|]. intros i c Hi. exists c. by rewrite Ec.
Qed.

(** One lemma for every write to the channels' tables. *)
Lemma tables_move events sessions endpoints responses w w' :
  tables_moved events sessions endpoints responses w w' → channel_state_ok w →
  rows_move event_evolves (w_inbound_events w) events →
  rows_move session_evolves (w_chat_sessions w) sessions →
  rows_move endpoint_evolves (w_channel_endpoints w) endpoints →
  rows_move response_evolves (w_response_deliveries w) responses →
  below endpoints (w_next w') →
  (∀ i e, events !! i = Some e → w_inbound_events w !! i ≠ Some e → (i < w_next w')%N ∧ event_ok w' e) →
  (∀ i s, sessions !! i = Some s → w_chat_sessions w !! i ≠ Some s → (i < w_next w')%N ∧ session_ok w' s) →
  (∀ m r, responses !! m = Some r → w_response_deliveries w !! m ≠ Some r → response_ok w' m r) →
  unique event_clash events → unique session_clash sessions → unique response_clash responses →
  channel_state_ok w' ∧ channel_history w w'.
Proof.
  intros Hm [Cc Cu Ce Ev Eu Cs Su Cr Ru] Me Ms Mp Mr Hb Ne Ns Nr Ue Us Ur.
  destruct (chat_same_kept _ _ _ _ _ _ Hm Cc) as [Hok Hk]. destruct Hm as [Ee Es Ep Er _ _ Ecu _ En].
  rewrite <-Ep in Mp, Hb. rewrite <-Es in Ms. split.
  - split; rewrite ?Ee, ?Es, ?Er, ?Ecu; try done.
    + by eapply below_mono.
    + intros i e Hi. destruct (decide (w_inbound_events w !! i = Some e)) as [Hold|Hnew]; [|by apply Ne].
      destruct (Ev i e Hold). split; [lia|]. by eapply event_ok_later.
    + intros i s Hi. destruct (decide (w_chat_sessions w !! i = Some s)) as [Hold|Hnew]; [|by apply Ns].
      destruct (Cs i s Hold). split; [lia|]. by eapply session_ok_later.
    + intros m r Hr. destruct (decide (w_response_deliveries w !! m = Some r)) as [Hold|Hnew]; [|by apply Nr].
      eapply response_ok_later; [done..|by apply Cr].
  - split; rewrite ?Ee, ?Er; done.
Qed.

Definition in_channels (w w' : World) : Prop := channel_state_ok w' ∧ channel_history w w'.

Lemma in_channels_refl w : channel_state_ok w → in_channels w w.
Proof. by split. Qed.
Lemma in_channels_trans w1 w2 w3 : in_channels w1 w2 → channel_rel w2 w3 → in_channels w1 w3.
Proof. intros [Hok Hh] Hrel. destruct (Hrel Hok). split; [done|by etrans]. Qed.
Lemma included_in_channels {A} (m : service A) :
  (∀ w, channel_state_ok w → wp m (λ _ w', in_channels w w') w) → included channel_rel m.
Proof. intros Hm w Hok. by apply (Hm w Hok). Qed.
Lemma wp_in_channels {A} (m : service A) w0 w :
  included channel_rel m → in_channels w0 w → wp m (λ _ w', in_channels w0 w') w.
Proof. intros Hm Hw. by eapply in_channels_trans; [|apply Hm]. Qed.

(** Nothing of the channels is written. *)
Definition channel_frame (w w' : World) : Prop :=
  tables_moved (w_inbound_events w) (w_chat_sessions w) (w_channel_endpoints w)
    (w_response_deliveries w) w w'.

Lemma channel_frame_rel w w' : channel_frame w w' → channel_rel w w'.
Proof.
  intros Hm Hok. eapply tables_move; [exact Hm|exact Hok|reflexivity..| | | | |apply Hok|apply Hok|apply Hok];
    try (intros ? ? ? ?; done).
  eapply below_mono; [apply Hok|apply Hm].
Qed.
Lemma in_channels_frame w1 w2 w3 : in_channels w1 w2 → channel_frame w2 w3 → in_channels w1 w3.
Proof. intros H12 Hf. eapply in_channels_trans; [done|by apply channel_frame_rel]. Qed.

Section Moves.
Context (w w' : World) (Hok : channel_state_ok w).
#[local] Abbreviation events := (w_inbound_events w).
#[local] Abbreviation sessions := (w_chat_sessions w).
#[local] Abbreviation endpoints := (w_channel_endpoints w).
#[local] Abbreviation responses := (w_response_deliveries w).

(** An event is written: one that is new, or one that moves on. *)
Lemma event_written i e' :
  tables_moved (<[i := e']> events) sessions endpoints responses w w' →
  (i < w_next w')%N → (∀ e, events !! i = Some e → event_evolves e e') →
  unique event_clash (<[i := e']> events) → event_ok w' e' → in_channels w w'.
Proof.
  intros Hm Hi He Hu Hev. eapply tables_move; [exact Hm|exact Hok| |reflexivity|reflexivity|reflexivity
    | | | | |exact Hu|apply Hok|apply Hok]; try (intros ? ? ? ?; done).
  - intros k e Hk. destruct (decide (i = k)) as [<-|Hne].
    + exists e'. rewrite lookup_insert_eq. auto.
    + exists e. by rewrite lookup_insert_ne.
  - eapply below_mono; [apply Hok|apply Hm].
  - intros k e [[<- <-]|[_ Hk]]%lookup_insert_Some Hn; done.
Qed.

Lemma session_written i s' :
  tables_moved events (<[i := s']> sessions) endpoints responses w w' →
  (i < w_next w')%N → (∀ s, sessions !! i = Some s → session_evolves s s') →
  unique session_clash (<[i := s']> sessions) → session_ok w' s' → in_channels w w'.
Proof.
  intros Hm Hi He Hu Hs. eapply tables_move; [exact Hm|exact Hok|reflexivity| |reflexivity|reflexivity
    | | | | |apply Hok|exact Hu|apply Hok]; try (intros ? ? ? ?; done).
  - intros k s Hk. destruct (decide (i = k)) as [<-|Hne].
    + exists s'. rewrite lookup_insert_eq. auto.
    + exists s. by rewrite lookup_insert_ne.
  - eapply below_mono; [apply Hok|apply Hm].
  - intros k s [[<- <-]|[_ Hk]]%lookup_insert_Some Hn; done.
Qed.

Lemma endpoint_written i ep' :
  tables_moved events sessions (<[i := ep']> endpoints) responses w w' →
  (i < w_next w')%N → (∀ ep, endpoints !! i = Some ep → endpoint_evolves ep ep') → in_channels w w'.
Proof.
  intros Hm Hi He. eapply tables_move; [exact Hm|exact Hok|reflexivity|reflexivity| |reflexivity
    | | | | |apply Hok|apply Hok|apply Hok]; try (intros ? ? ? ?; done).
  - intros k s Hk. destruct (decide (i = k)) as [<-|Hne].
    + exists ep'. rewrite lookup_insert_eq. auto.
    + exists s. by rewrite lookup_insert_ne.
  - apply below_insert; [|done]. eapply below_mono; [apply Hok|apply Hm].
Qed.

Lemma response_written i r' :
  tables_moved events sessions endpoints (<[i := r']> responses) w w' →
  (∀ r, responses !! i = Some r → response_evolves r r') →
  unique response_clash (<[i := r']> responses) → response_ok w' i r' → in_channels w w'.
Proof.
  intros Hm He Hu Hr. eapply tables_move; [exact Hm|exact Hok|reflexivity|reflexivity|reflexivity|
    | | | | |apply Hok|apply Hok|exact Hu]; try (intros ? ? ? ?; done).
  - intros k s Hk. destruct (decide (i = k)) as [<-|Hne].
    + exists r'. rewrite lookup_insert_eq. auto.
    + exists s. by rewrite lookup_insert_ne.
  - eapply below_mono; [apply Hok|apply Hm].
  - intros k s [[<- <-]|[_ Hk]]%lookup_insert_Some Hn; done.
Qed.
End Moves.

Lemma event_clash_sym a b : event_clash a b = event_clash b a.
Proof.
  unfold event_clash. f_equal; [f_equal; [apply bool_decide_ext; split; congruence|apply String.eqb_sym]|].
  destruct (ie_message a), (ie_message b); try done. apply bool_decide_ext. split; congruence.
Qed.
Lemma session_clash_sym a b : session_clash a b = session_clash b a.
Proof.
  unfold session_clash. f_equal; [apply String.eqb_sym|].
  destruct (cs_conversation a), (cs_conversation b); try done. apply bool_decide_ext. split; congruence.
Qed.
Lemma response_clash_sym a b : response_clash a b = response_clash b a.
Proof. unfold response_clash. apply bool_decide_ext. split; congruence. Qed.

(** A replacement that clashes with nothing new. *)
Lemma unique_rewrite {A} (clash : A → A → bool) (sym : ∀ a b, clash a b = clash b a) m i a a' :
  m !! i = Some a → (∀ b, clash a' b = clash a b) → unique clash m → unique clash (<[i := a']> m).
Proof.
  intros Hi Hc Hu j k x y Hne.
  intros [[<- <-]|[Hj Hx]]%lookup_insert_Some [[<- <-]|[Hk Hy]]%lookup_insert_Some; [done|..].
  - rewrite Hc. by apply (Hu i k).
  - rewrite sym, Hc, sym. by apply (Hu j i).
  - by apply (Hu j k).
Qed.

(** ** Receiving an event *)

Section Services.
Context `{Settings} `{PyLib} `{Network} `{Encoding} `{TextEncoding} `{Providers} `{ChannelLib}.

(** How a delivery of an event ends: [content] is the row a new one gets. *)
Definition ingested (endpoint_id : N) (content : InboundChannelEvent) (w : World)
    (o : exn + N) (w' : World) : Prop :=
  match head (select_rows (same_event endpoint_id (ie_provider_event_id content)) w) with
  | Some (i, e) =>
      w' = w ∧ o = if String.eqb (ie_payload_digest e) (ie_payload_digest content) then inr i
                   else inl (ChannelExc ChannelErr.IdempotencyConflict)
  | None =>
      if event_fits content then
        o = inr (w_next w) ∧ w_inbound_events w' = <[w_next w := content]> (w_inbound_events w) ∧
        last (w_published w') = Some (process_inbound_channel_event_task (w_next w))
      else o = inl DataError ∧ w' = w
  end.

Definition from_chat (w : World) (endpoint_id : N) (endpoint : ChannelEndpoint)
    (external_identity : string) (thread : option string) : Prop :=
  ce_channel endpoint = ChannelType.WEB_CHAT → ∃ i s, thread = Some (pretty i) ∧
    external_identity = pretty i ∧ w_chat_sessions w !! i = Some s ∧ cs_endpoint s = endpoint_id.

Lemma wp_ingest endpoint_id endpoint pid digest identity body subject thread mid w :
  channel_state_ok w → w_channel_endpoints w !! endpoint_id = Some endpoint →
  from_chat w endpoint_id endpoint identity thread →
  wp (ingest_channel_event endpoint_id endpoint pid digest identity body subject thread mid)
    (λ o w', in_channels w w' ∧ ingested endpoint_id
      (new_event endpoint_id endpoint pid digest identity body subject thread mid (w_now w)) w o w') w.
Proof.
  intros Hok Hep Hchat. unfold ingest_channel_event. set (e := new_event _ _ _ _ _ _ _ _ _ _).
  unfold ingested. change (ie_provider_event_id e) with pid. apply wp_atomic, wp_bind, wp_first_row. wp_beta.
  destruct (head _) as [[i x]|] eqn:Hh.
  { unfold duplicate_of. cbn [fst snd]. apply wp_bind. unfold raise_if. change (ie_payload_digest e) with digest.
    destruct (String.eqb _ _); simpl; [apply wp_ret; wp_beta; apply wp_ret|apply wp_raise];
      (split; [by apply in_channels_refl|done]). }
  pose proof (proj1 (first_row_none _ _) Hh) as Hnone.
  apply wp_bind, wp_catch, wp_atomic, wp_bind, wp_get_now. wp_beta. apply wp_bind, wp_fresh. wp_beta.
  set (w1 := {| w with w_next := _ |}). apply wp_bind. unfold save_event. apply wp_bind. unfold raise_if at 1.
  fold e. destruct (event_fits e) eqn:Hfit; simpl;
    [|apply wp_raise; wp_beta; split; [by apply in_channels_refl|done]]. apply wp_ret. wp_beta.
  assert (Hc : clashes event_clash (w_next w) e w1 = false).
  { apply clashes_false. intros j q Hj _. specialize (Hnone j q Hj). unfold event_clash, same_event in *.
    simpl. rewrite orb_false_r. rewrite <-Hnone. f_equal; [apply bool_decide_ext; split; congruence|].
    apply String.eqb_sym. }
  apply wp_save_unique. rewrite Hc. wp_beta. set (w2 := set_rows _ w1). apply wp_ret. wp_beta.
  apply wp_bind, wp_publish. wp_beta. apply wp_ret. set (w3 := {| w2 with w_published := _ |}).
  split; [|split; [done|split; [done|by apply last_snoc]]].
  apply (event_written w w3 Hok (w_next w) e).
  - split; try done. simpl. lia.
  - simpl. lia.
  - intros q Hq. destruct (ch_events w Hok _ q Hq). lia.
  - exact (unique_insert event_clash event_clash_sym (w_next w) e w1 (ch_events_unique w Hok) Hc).
  - split; try done.
    + exists endpoint. split; [done|]. split; [done|]. intros Hwc.
      destruct (Hchat Hwc) as (i & s & -> & -> & Hs & Hse). by exists i, s.
    + split; [done|by intros []].
Qed.

(** Delivered again, whatever else the delivery says: the same event, and nothing is
    written. *)
Lemma ingest_again endpoint_id endpoint pid digest identity body subject thread mid i e w :
  unique event_clash (w_inbound_events w) → w_inbound_events w !! i = Some e →
  ie_endpoint e = endpoint_id → ie_provider_event_id e = pid → ie_payload_digest e = digest →
  ingest_channel_event endpoint_id endpoint pid digest identity body subject thread mid w = (inr i, w).
Proof.
  intros Hu Hi <- <- <-. unfold ingest_channel_event, atomic, mbind, M_bind, first_row, gets.
  rewrite (select_rows_unique (same_event (ie_endpoint e) (ie_provider_event_id e)) w i e); [|done|..].
  - simpl. unfold duplicate_of. simpl. rewrite String.eqb_refl. done.
  - unfold same_event. by rewrite bool_decide_true, String.eqb_refl.
  - intros j q Hj [Hq1%bool_decide_eq_true Hq%String.eqb_eq]%andb_prop.
    destruct (decide (j = i)) as [|Hne]; [done|]. pose proof (Hu j i q e Hne Hj Hi) as Hc.
    revert Hc. unfold event_clash. rewrite Hq1, bool_decide_true, Hq, String.eqb_refl by done. done.
Qed.

(** C34. A delivery of an event is stored at most once: a new event becomes one row,
    received and handed to the broker; one that is known by the endpoint and its
    provider's identifier gives the row it has, untouched, when its content has the
    same digest, and a conflict otherwise.  Whatever it gave, the same delivery gives
    again, and writes nothing. *)
Theorem ingest_dedupes endpoint_id endpoint pid digest identity body subject thread mid w o w' :
  channel_state_ok w → w_channel_endpoints w !! endpoint_id = Some endpoint →
  from_chat w endpoint_id endpoint identity thread →
  ingest_channel_event endpoint_id endpoint pid digest identity body subject thread mid w = (o, w') →
  in_channels w w' ∧
  ingested endpoint_id
    (new_event endpoint_id endpoint pid digest identity body subject thread mid (w_now w)) w o w' ∧
  ∀ i identity' body' subject' thread' mid', o = inr i →
    ingest_channel_event endpoint_id endpoint pid digest identity' body' subject' thread' mid' w'
    = (inr i, w').
Proof.
  intros Hok Hep Hchat Hrun.
  destruct (wp_run _ _ _ _ _ (wp_ingest endpoint_id endpoint pid digest identity body subject thread mid
    w Hok Hep Hchat) Hrun) as [Hin Hing]. split_and!; [done..|].
  intros i ? ? ? ? ? ->. unfold ingested in Hing. simpl in Hing.
  destruct (head _) as [[j e]|] eqn:Hh.
  - destruct Hing as [-> Hd]. destruct (String.eqb _ _) eqn:Hdig; [|done]. simplify_eq.
    apply String.eqb_eq in Hdig. apply first_row_some in Hh as [Hj [He Hp]%andb_prop].
    apply bool_decide_eq_true in He. apply String.eqb_eq in Hp.
    by eapply ingest_again; [apply Hok|..].
  - destruct (event_fits _); [|by destruct Hing]. destruct Hing as (Ho & Hev & _). simplify_eq.
    eapply ingest_again; [apply Hin|by rewrite Hev, lookup_insert_eq|done..].
Qed.
End Services.
