(* ===== verification/EventProcessing.v ===== *)
(** * The processing of an inbound event

    [channel_ingress/services.py], after an event was received: its customer, its
    conversation, its message and the run of the support agent, all or nothing. *)

From stdpp Require Import base gmap strings list pretty sorting relations.
From Stdlib Require Import ZArith Ascii String Lia.
From S2P Require Import Prelude Json Domain Policy Models Store Delivery Network Webhooks Notifications Approvals ToolExec ToolSafety Graph Workspaces Conversations Tickets AgentRuns AgentSafety AgentOutcomes Chunking Knowledge AgentContext AgentFrame Scoring Ingress Channels IngressSafety.

#[local] Open Scope nat_scope.

Lemma wp_and {A} (m : service A) P Q w : wp m P w → wp m Q w → wp m (λ r w', P r w' ∧ Q r w') w.
Proof. done. Qed.

(** ** What the steps of the processing write

    Customers, conversations and messages; the tables of the channels and the runs stay. *)
Record chat_moved (w w' : World) : Prop := {
  cm_outer : outer_frame w w';
  cm_rel : conversation_rel w w';
  cm_customers : below (w_customers w) (w_next w) → below (w_customers w') (w_next w');
  cm_runs : w_agent_runs w' = w_agent_runs w;
  cm_versions : w_agent_versions w' = w_agent_versions w;
  cm_now : w_now w' = w_now w;
}.

#[export] Instance chat_moved_preorder : PreOrder chat_moved.
Proof.
  split; [intros w; by split|]. intros w1 w2 w3 [] [].
  split; [by etrans|by etrans|auto|congruence..].
Qed.

Lemma outer_frame_tables w w' : outer_frame w w' →
  w_inbound_events w' = w_inbound_events w ∧ w_chat_sessions w' = w_chat_sessions w ∧
  w_channel_endpoints w' = w_channel_endpoints w ∧
  w_response_deliveries w' = w_response_deliveries w.
Proof.
  intros [Ho _].
  unfold w_inbound_events, w_chat_sessions, w_channel_endpoints, w_response_deliveries.
  destruct (w_outer w), (w_outer w'). injection Ho. intros. by split_and!.
Qed.

Lemma moved_channel_rel w w' :
  outer_frame w w' → conversation_rel w w' →
  (below (w_customers w) (w_next w) → below (w_customers w') (w_next w')) → channel_rel w w'.
Proof.
  intros Ho Hrel Hcu. destruct (outer_frame_tables w w' Ho) as (Ee & Es & Ep & Er). destruct Ho as [_ Hn].
  intros [Cc Cu Ce Ev Eu Cs Su Cr Ru]. destruct (Hrel Cc) as [Hok Hk].
  assert (Ms : rows_move session_evolves (w_chat_sessions w) (w_chat_sessions w')) by by rewrite Es.
  assert (Mp : rows_move endpoint_evolves (w_channel_endpoints w) (w_channel_endpoints w')) by by rewrite Ep.
  split.
  - split; rewrite ?Ee, ?Es, ?Ep, ?Er; try done; [by apply Hcu|by eapply below_mono|..].
    + intros i e Hi. destruct (Ev i e Hi). split; [lia|by eapply event_ok_later].
    + intros i s Hi. destruct (Cs i s Hi). split; [lia|by eapply session_ok_later].
    + intros m r Hr. by eapply response_ok_later; [..|apply Cr].
  - by split; rewrite ?Ee, ?Es, ?Ep, ?Er.
Qed.

Lemma chat_moved_channel_rel w w' : chat_moved w w' → channel_rel w w'.
Proof. intros [Ho Hrel Hcu _ _ _]. by apply moved_channel_rel. Qed.

Lemma chat_moved_ok w w' : chat_moved w w' → channel_state_ok w → channel_state_ok w'.
Proof. intros Hm Hok. by apply (chat_moved_channel_rel w w' Hm). Qed.

(** A customer is added. *)
Lemma customer_added w c :
  below (w_customers w) (w_next w) →
  chat_moved w {| w with w_next := N.succ (w_next w);
                         w_customers := <[w_next w := c]> (w_customers w) |}.
Proof.
  intros Hb. split; try done.
  - split; [done|simpl; lia].
  - intros (Hu & Hc & Hm). split; [split_and!; [done|..]|split; [done|by eauto]].
    + intros i r Hi. destruct (Hc i r Hi) as (? & ? & (cu & Hcu & ?) & ?). split; [simpl; lia|].
      split; [done|]. split; [|done]. exists cu. split; [|done]. simpl.
      rewrite lookup_insert_ne; [done|]. intros E. apply Hb in Hcu. lia.
    + intros i m Hi. destruct (Hm i m Hi). split; [simpl; lia|done].
  - intros _. simpl. apply below_insert; [|lia]. eapply below_mono; [done|lia].
Qed.

Section Services.
Context `{Settings} `{PyLib} `{Network} `{Encoding} `{TextEncoding} `{Providers} `{ChannelLib}.

(** ** The customer *)

Lemma wp_create_customer ws data w :
  below (w_customers w) (w_next w) →
  wp (create_customer ws data) (λ o w', chat_moved w w' ∧ ∀ i, o = inr i →
    w_customers w' !! i = Some (formatted_customer (apply_customer_data data (new_customer ws)))) w.
Proof.
  intros Hb. unfold create_customer, as_conflict, save_customer.
  apply wp_atomic, wp_catch, wp_bind, wp_fresh. wp_beta. apply wp_bind. wp_step.
  unfold raise_if. destruct (customer_fits _); simpl;
    [|apply wp_raise; wp_beta; apply wp_raise; wp_beta; done].
  apply wp_ret. wp_beta. apply wp_save_unique. destruct (clashes _ _ _ _) eqn:?; wp_beta.
  - apply wp_raise. wp_beta. done.
  - apply wp_ret. wp_beta. split; [exact (customer_added w _ Hb)|].
    intros i [= <-]. apply lookup_insert_eq.
Qed.

(** The customer a step leaves with, loaded from its row. *)
Definition customer_found (workspace : N) (w : World) (o : exn + (N * Customer)) (w' : World) : Prop :=
  chat_moved w w' ∧ ∀ i c, o = inr (i, c) → w_customers w' !! i = Some c ∧ cu_workspace c = workspace.

Lemma wp_resolve_customer endpoint identity w :
  below (w_customers w) (w_next w) →
  wp (resolve_customer_identity endpoint identity) (customer_found (ce_workspace endpoint) w) w.
Proof.
  intros Hb. unfold resolve_customer_identity, customer_found. wp_step. apply wp_first_row. wp_beta.
  destruct (head _) as [[i c]|] eqn:Hh.
  { apply wp_ret. split; [reflexivity|]. intros ? ? [= <- <-].
    by apply first_row_some in Hh as [? [?%bool_decide_eq_true _]%andb_prop]. }
  apply wp_bind. unfold raise_if. destruct (bool_decide _); [apply wp_raise; by split|].
  apply wp_ret. wp_beta. apply wp_bind. eapply wp_mono; [by apply wp_create_customer|].
  intros [e|i] w' [Hm Hi]; wp_beta; [by split|]. apply wp_bind, wp_get_row.
  specialize (Hi i eq_refl). change (rows w' !! i) with (w_customers w' !! i). rewrite Hi.
  wp_beta. apply wp_ret. split; [done|]. intros ? ? [= <- <-]. by split.
Qed.

(** ** The conversation and the message *)

(** Customers, runs and the tables of the channels stay. *)
Definition chat_aside (w w' : World) : Prop :=
  outer_frame w w' ∧ w_customers w' = w_customers w ∧ w_agent_runs w' = w_agent_runs w ∧
  w_agent_versions w' = w_agent_versions w ∧ w_now w' = w_now w.

Lemma aside_moved w w' : conversation_rel w w' → chat_aside w w' → chat_moved w w'.
Proof.
  intros Hrel ([Ho Hn] & Hc & Hr & Hv & Ht). split; try done. rewrite Hc. intros Hb. by eapply below_mono.
Qed.

Lemma create_conversation_aside ws i c channel subject external_id metadata w :
  wp (create_conversation ws i c channel subject external_id metadata)
    (λ o w', chat_aside w w' ∧ ∀ j, o = inr j →
       ∃ cv, w_conversations w' !! j = Some cv ∧ cv_workspace cv = ws) w.
Proof.
  unfold create_conversation.
  repeat first [svc_step | apply wp_save_unique; destruct (clashes _ _ _ _)];
    (split; [by split; [split; simpl; (done || lia)|]|]); try done.
  intros j [= <-]. eexists. split; [apply lookup_insert_eq|done].
Qed.

(** The conversation a step leaves with, loaded from its row. *)
Definition conversation_found (workspace : N) (w : World) (o : exn + (N * Conversation)) (w' : World)
    : Prop :=
  chat_moved w w' ∧ ∀ i c, o = inr (i, c) → w_conversations w' !! i = Some c ∧ cv_workspace c = workspace.

Lemma thread_found ws ext w i c :
  w_conversations w !! i = Some c ∧ thread_of ws ext i c = true →
  conversation_found ws w (inr (i, c)) w.
Proof.
  intros [Hi [Hw%bool_decide_eq_true _]%andb_prop]. split; [reflexivity|]. by intros ? ? [= <- <-].
Qed.

Lemma wp_resolve_conversation endpoint_id endpoint i c event w :
  w_customers w !! i = Some c →
  wp (resolve_conversation_with_retry endpoint_id endpoint (i, c) event)
    (conversation_found (ce_workspace endpoint) w) w.
Proof.
  intros Hc. unfold resolve_conversation_with_retry. apply wp_catch.
  assert (Hmain : wp (resolve_conversation endpoint_id endpoint (i, c) event)
            (conversation_found (ce_workspace endpoint) w) w).
  { unfold resolve_conversation. cbv zeta. apply wp_bind.
    assert (Hnew : ∀ ext, wp (i ← create_conversation (ce_workspace endpoint) i c
        (conversation_channel (ce_channel endpoint)) (ie_subject event) ext
        (JObj [("channel_endpoint_id", JStr (pretty endpoint_id))]);
      conversation ← get_row i; mret (i, conversation)) (conversation_found (ce_workspace endpoint) w) w).
    { intros ext. apply wp_bind.
      pose proof (create_conversation_rel (ce_workspace endpoint) i c
        (conversation_channel (ce_channel endpoint)) (ie_subject event) ext
        (JObj [("channel_endpoint_id", JStr (pretty endpoint_id))]) w) as Hrel.
      eapply wp_mono; [apply (wp_and _ (λ _, conversation_rel w)); [apply Hrel; by exists c|]|].
      { apply create_conversation_aside. }
      intros [e|j] w' [Hr [Ha Hj]]; wp_beta; [split; [by apply aside_moved|done]|].
      destruct (Hj j eq_refl) as (cv & Hcv & Hws). apply wp_bind, wp_get_row.
      change (rows w' !! j) with (w_conversations w' !! j). rewrite Hcv. wp_beta. apply wp_ret.
      split; [by apply aside_moved|]. by intros ? ? [= <- <-]. }
    destruct (_ <$> thread_id event) as [ext|]; [|apply wp_ret; wp_beta; apply Hnew].
    apply wp_first_row. wp_beta. destruct (head _) as [[j cv]|] eqn:Hh; [|apply Hnew].
    apply wp_ret. apply (thread_found _ ext), (first_row_some _ _ _ _ Hh). }
  eapply wp_mono; [exact Hmain|]. intros [e|[j cv]] w' [Hm Hj]; wp_beta; [|by split].
  assert (Hraise : wp (raise e : service (N * Conversation))
            (conversation_found (ce_workspace endpoint) w) w') by by apply wp_raise.
  destruct e; try exact Hraise. destruct (thread_id event) as [thread|]; [|exact Hraise].
  apply wp_get_where. destruct (select_rows _ w') as [|[k cv] []] eqn:Hs; [by split| |by split].
  destruct (thread_found (ce_workspace endpoint) (thread_external_id endpoint_id thread) w' k cv)
    as [_ Hk].
  { refine (proj1 (in_select_rows (thread_of _ _) w' k cv) _). rewrite Hs. left. }
  split; [done|]. intros ? ? [= <- <-]. by apply Hk.
Qed.

(** The message of the customer is a new row. *)
Definition message_stored (ws i : N) (body : string) (w : World) (o : exn + N) (w' : World) : Prop :=
  chat_moved w w' ∧ ∀ m, o = inr m → w_messages w !! m = None ∧ ∃ msg, w_messages w' !! m = Some msg ∧
    msg_workspace msg = ws ∧ msg_conversation msg = i ∧ msg_body msg = body ∧
    msg_sender_type msg = MessageSenderType.CUSTOMER ∧ msg_direction msg = MessageDirection.INBOUND.

Lemma wp_store_message ws i c body ext md w :
  conversations_ok w → w_conversations w !! i = Some c →
  wp (create_inbound_message ws i c body ext md) (message_stored ws i body w) w.
Proof.
  intros Hok Hc. unfold create_inbound_message.
  assert (Hl : loaded_conversation w i c).
  { destruct Hok as (_ & Hcs & _). destruct (Hcs i c Hc) as (_ & Hcl & _). split; [done|]. by exists c. }
  eapply wp_mono; [apply (wp_and _ (λ _, conversation_rel w)
    (λ o w', chat_aside w w' ∧ ∀ m, o = inr m → w_messages w !! m = None ∧
      ∃ msg, w_messages w' !! m = Some msg ∧ msg_workspace msg = ws ∧ msg_conversation msg = i ∧
        msg_body msg = body ∧ msg_sender_type msg = MessageSenderType.CUSTOMER ∧
        msg_direction msg = MessageDirection.INBOUND))|].
  - apply create_message_rel; [done|done|]. split; [done|by intros []].
  - destruct (next_unused w Hok) as [_ Hnone]. unfold create_message.
    assert (Hrefl : chat_aside w w) by by split.
    repeat svc_step; try by split.
    apply wp_save_fields. unfold rows at 1. simpl. rewrite Hc. wp_beta. repeat svc_step.
    split; [by split; [split; simpl; (done || lia)|]|]. intros m [= <-]. split; [done|].
    eexists. split; [apply lookup_insert_eq|done].
  - intros o w' [Hr [Ha Hm]]. split; [by apply aside_moved|done].
Qed.

(** ** The session and the run *)

(** The events, the endpoints and the runs stay; the rest moves in order. *)
Record around (w w' : World) : Prop := {
  ar_rel : channel_rel w w';
  ar_events : w_inbound_events w' = w_inbound_events w;
  ar_endpoints : w_channel_endpoints w' = w_channel_endpoints w;
  ar_runs : w_agent_runs w' = w_agent_runs w;
  ar_now : w_now w' = w_now w;
}.
#[export] Instance around_preorder : PreOrder around.
Proof. split; [intros w; by split|]. intros w1 w2 w3 [] []. split; [by etrans|congruence..]. Qed.

Lemma chat_moved_around w w' : chat_moved w w' → around w w'.
Proof.
  intros Hm. destruct (outer_frame_tables w w' (cm_outer _ _ Hm)) as (? & ? & ? & ?).
  split; [by apply chat_moved_channel_rel|done..|apply Hm|apply Hm].
Qed.

(** The session of a chat gets its conversation. *)
Lemma wp_link_session endpoint event_id event i cust cv w :
  keys_read_back → channel_state_ok w → w_inbound_events w !! event_id = Some event →
  w_channel_endpoints w !! ie_endpoint event = Some endpoint →
  w_conversations w !! i = Some cv → cv_workspace cv = ce_workspace endpoint →
  wp (link_chat_session endpoint event i cust) (λ _ w', around w w' ∧
    w_conversations w' = w_conversations w ∧ w_messages w' = w_messages w) w.
Proof.
  intros Hkeys Hok Hev Hep Hcv Hws. unfold link_chat_session.
  assert (Hid : around w w ∧ w_conversations w = w_conversations w ∧ w_messages w = w_messages w) by done.
  destruct (ce_channel endpoint) eqn:Hch; [|by apply wp_ret..].
  unfold thread_id, given. destruct (String.eqb _ _) eqn:Hth; [by apply wp_ret|].
  destruct (ch_events w Hok event_id event Hev) as [_ [_ (ep & Hep' & Hwse & Hchat) _ _ _]].
  simplify_eq. destruct (Hchat Hch) as (k & s & Hk & _ & Hs & Hse). rewrite Hk, Hkeys.
  apply wp_bind, wp_ret. wp_beta. apply wp_bind, wp_first_row. wp_beta.
  destruct (head _) as [[j s']|] eqn:Hh; [|by apply wp_ret].
  apply first_row_some in Hh as [Hj [->%bool_decide_eq_true Hnone%bool_decide_eq_true]%andb_prop].
  assert (s' = s) as -> by (unfold rows in Hj; simpl in Hj; congruence).
  apply wp_save_unique. destruct (clashes _ _ _ _) eqn:Hc; [done|].
  split; [|done]. split; [|done..]. intros _. destruct (ch_sessions w Hok k s Hs) as [Hlt [Hse' _]].
  apply (session_written _ _ Hok k (link_session i cust s)).
  - by split.
  - done.
  - intros x Hx. simplify_eq. split_and!; [done..|]. by rewrite Hnone; intros [].
  - exact (unique_insert session_clash session_clash_sym k _ w (ch_sessions_unique w Hok) Hc).
  - destruct Hse' as (ep' & Hep'' & Hws' & Hch'). split; [by exists ep'|].
    intros x [= <-]. exists cv. split; [done|]. simpl. congruence.
Qed.

(** The run a message starts: new, and handed to the broker. *)
Definition run_started (ws i m v : N) (w : World) (o : exn + N) (w' : World) : Prop :=
  channel_frame w w' ∧ ∀ j, o = inr j → ∃ r, w_agent_runs w' !! j = Some r ∧
    run_status r = AgentRunStatus.PENDING ∧ run_workspace r = ws ∧ run_conversation r = Some i ∧
    run_trigger_message r = Some m ∧ run_agent_version r = v ∧
    last (w_published w') = Some (execute_agent_run_task j).

Lemma channel_frame_refl w : channel_frame w w.
Proof. by split. Qed.

Lemma wp_start_run ws i c m msg v version w :
  (∀ j r, w_agent_runs w !! j = Some r → run_trigger_message r ≠ Some m) →
  wp (start_support_agent_run ws None i c m msg v version None) (run_started ws i m v w) w.
Proof.
  intros Hnone. assert (Hsel : select_rows (triggered_by m) w = []).
  { destruct (select_rows (triggered_by m) w) as [|[j r] l] eqn:Hs; [done|].
    assert ((j, r) ∈ select_rows (triggered_by m) w) as Hin by (rewrite Hs; left).
    apply in_select_rows in Hin as [Hj Hm%bool_decide_eq_true]. by destruct (Hnone j r Hj). }
  assert (Hid : ∀ e, run_started ws i m v w (inl e) w) by (intros e; split; [apply channel_frame_refl|done]).
  unfold start_support_agent_run, validate_trigger_message, create_agent_run, insert_run, dispatch_run.
  do 5 (apply wp_bind; unfold raise_if at 1; lazymatch goal with |- wp (if ?b then _ else _) _ _ =>
    destruct b; [by apply wp_raise|apply wp_ret; wp_beta] end).
  apply wp_atomic, wp_bind, wp_first_row. wp_beta. rewrite Hsel. simpl.
  apply wp_bind, wp_get_now. wp_beta. apply wp_bind, wp_catch, wp_atomic, wp_bind, wp_bind, wp_fresh. wp_beta.
  apply wp_bind, wp_save_run; [by apply wp_raise| |intros _].
  - wp_beta. apply wp_bind, wp_get_where. rewrite Hsel. wp_beta. done.
  - wp_beta. apply wp_ret. wp_beta. apply wp_ret. wp_beta. apply wp_bind. unfold when. apply wp_publish.
    wp_beta. apply wp_ret. split; [split; simpl; (done || lia)|]. intros j [= <-].
    eexists. split; [apply lookup_insert_eq|]. split_and!; try done. apply last_snoc.
Qed.

(** ** The processing *)

Lemma update_one {A} (m : gmap N A) k f a :
  m !! k = Some a →
  map_imap (λ i r, Some (if bool_decide (i = k) then f r else r)) m = <[k := f a]> m.
Proof.
  intros Hk. apply map_eq. intros i. rewrite map_lookup_imap. destruct (decide (i = k)) as [->|Hne].
  - rewrite Hk, lookup_insert_eq. simpl. by rewrite bool_decide_true.
  - rewrite lookup_insert_ne by done. destruct (m !! i); simpl; [by rewrite bool_decide_false|done].
Qed.

(** The event [i] replaced. *)
Definition with_event (i : N) (e : InboundChannelEvent) (w : World) : World :=
  set_rows (<[i := e]> (rows w)) w.

(** The messages the runs were started by are there. *)
Definition run_triggers_exist (w : World) : Prop := ∀ j r m,
  w_agent_runs w !! j = Some r → run_trigger_message r = Some m → is_Some (w_messages w !! m).

(** The event [id] became a message, and the message a run of the endpoint's agent. *)
Definition handled_event (id : N) (e : InboundChannelEvent) (endpoint : ChannelEndpoint)
    (w w' : World) : Prop :=
  in_channels w w' ∧ ∃ conversation m j r,
    let e' := processed_event conversation m (w_now w) e in
    w_inbound_events w' !! id = Some e' ∧ became w' e' m ∧ w_messages w !! m = None ∧
    w_agent_runs w' !! j = Some r ∧ run_status r = AgentRunStatus.PENDING ∧
    run_workspace r = ce_workspace endpoint ∧ run_conversation r = Some conversation ∧
    run_trigger_message r = Some m ∧ run_agent_version r = ce_agent_version endpoint ∧
    last (w_published w') = Some (execute_agent_run_task j).

Lemma event_moved id e e' w w' :
  channel_state_ok w → w_inbound_events w !! id = Some e →
  tables_moved (<[id := e']> (w_inbound_events w)) (w_chat_sessions w) (w_channel_endpoints w)
    (w_response_deliveries w) w w' →
  same_content e e' → event_step (ie_status e) (ie_status e') →
  (∀ m, ie_message e' = Some m → ∀ j q, w_inbound_events w !! j = Some q → j ≠ id → ie_message q ≠ Some m) →
  (ie_status e' = InboundChannelEventStatus.PROCESSED ↔ is_Some (ie_message e')) →
  (∀ m, ie_message e' = Some m → became w' e' m) →
  (ie_status e' = InboundChannelEventStatus.FAILED →
    ie_failure_code e' ∈ [orchestration_failed; processing_failed]) →
  in_channels w w'.
Proof.
  intros Hok He Hm Hsame Hstep Hfree Hst Hb Hf. destruct (ch_events w Hok id e He) as [Hlt [Hfit Hep _ _ _]].
  pose proof Hsame as (E1 & E2 & E3 & E4 & E5 & E6 & E7 & E8 & E9 & E10).
  apply (event_written w w' Hok id e'); [done|..].
  - pose proof (tm_next _ _ _ _ _ _ Hm). lia.
  - intros x Hx. assert (x = e) as -> by congruence. split; [done|by apply rtc_once|].
    intros Ht. exfalso. revert Hstep Ht. unfold event_step, is_terminal_event.
    by destruct (ie_status e).
  - refine (unique_insert event_clash event_clash_sym id e' w (ch_events_unique w Hok) _).
    apply clashes_false. intros j q Hj Hne.
    pose proof (ch_events_unique w Hok j id q e Hne Hj He) as Hq. rewrite event_clash_sym in Hq.
    unfold event_clash in *. apply orb_false_iff in Hq as [Hq _]. rewrite E2, E3, Hq. simpl.
    destruct (ie_message e') as [m|]; [|done]. destruct (ie_message q) as [m'|] eqn:Hq'; [|done].
    apply bool_decide_eq_false. intros ->. by apply (Hfree m' eq_refl j q).
  - split; [|destruct Hep as (ep & Hep & Hw & Hchat)|done..].
    + unfold event_fits in *. by rewrite E3, E4, E5, E6, E7, E8.
    + exists ep. rewrite (tm_endpoints _ _ _ _ _ _ Hm), (tm_sessions _ _ _ _ _ _ Hm), E1, E2, E4, E7.
      done.
Qed.

Lemma wp_handle_event id e endpoint w :
  keys_read_back → channel_state_ok w → run_triggers_exist w → w_inbound_events w !! id = Some e →
  ie_status e = InboundChannelEventStatus.PROCESSING →
  w_channel_endpoints w !! ie_endpoint e = Some endpoint →
  wp (handle_event id e endpoint) (λ o w', match o with
    | inl _ => w' = w | inr _ => handled_event id e endpoint w w' end) w.
Proof.
  intros Hkeys Hok Htrig He Hst Hep. unfold handle_event. apply wp_atomic, wp_bind.
  eapply wp_mono; [apply wp_resolve_customer, Hok|]. intros [?|[i c]] w1 [Hm1 Hc]; wp_beta; [done|].
  destruct (Hc i c eq_refl) as [Hci _]. apply wp_bind.
  eapply wp_mono; [by apply wp_resolve_conversation|]. intros [?|[k cv]] w2 [Hm2 Hcv]; wp_beta; [done|].
  destruct (Hcv k cv eq_refl) as [Hk Hws]. clear Hcv Hc.
  assert (A2 : around w w2) by (trans w1; by apply chat_moved_around).
  destruct (ar_rel _ _ A2 Hok) as [Hok2 _]. apply wp_bind.
  eapply wp_mono; [apply (wp_link_session endpoint id e k i cv w2 Hkeys Hok2);
    [by rewrite (ar_events _ _ A2)|by rewrite (ar_endpoints _ _ A2)|done..]|].
  intros [?|[]] w3 (A3 & Ec3 & Em3); wp_beta; [done|].
  assert (A3' : around w w3) by by etrans. destruct (ar_rel _ _ A3' Hok) as [Hok3 Hh3]. apply wp_bind.
  eapply wp_mono; [apply (wp_store_message _ _ cv); [apply Hok3|by rewrite Ec3]|].
  intros [?|m] w4 [Hm4 Hmsg]; wp_beta; [done|]. destruct (Hmsg m eq_refl) as (Hfree & msg & Hm & Hms).
  assert (A4 : around w w4) by (trans w3; [done|by apply chat_moved_around]).
  destruct (ar_rel _ _ A4 Hok) as [Hok4 Hh4].
  apply wp_bind, wp_get_row. change (rows w4 !! m) with (w_messages w4 !! m). rewrite Hm. wp_beta.
  apply wp_bind. unfold mark_event_processed. apply wp_bind, wp_get_now. wp_beta. apply wp_bind, wp_gets.
  wp_beta. apply wp_bind. unfold raise_if. destruct (exists_row _ w4) eqn:Hother; [by apply wp_raise|].
  apply wp_ret. wp_beta. apply wp_update_rows. wp_beta. unfold is_event.
  assert (He4 : w_inbound_events w4 !! id = Some e) by by rewrite (ar_events _ _ A4).
  rewrite (update_one _ id _ e) by done. rewrite (ar_now _ _ A4).
  set (e' := processed_event k m (w_now w) e). change (set_rows _ w4) with (with_event id e' w4).
  destruct (ch_events w Hok id e He) as [_ [_ (ep & Hep' & Hwse & _) _ _ _]]. simplify_eq.
  assert (Hb : became (with_event id e' w4) e' m).
  { exists msg. destruct Hms as (? & ? & ? & ? & ?). simpl in *. unfold e'. split_and!; simpl; try done; congruence. }
  assert (Hin5 : in_channels w4 (with_event id e' w4)).
  { apply (event_moved id e e'); try done; [by rewrite Hst| |by intros x [= <-]].
    intros x [= <-] j q Hj Hne Hq. rewrite exists_row_false in Hother. specialize (Hother j q Hj).
    unfold other_event_of in Hother. by rewrite Hq, bool_decide_false, bool_decide_true in Hother. }
  apply wp_bind, wp_get_row. destruct (rows _ !! _) as [version|]; wp_beta; [|done].
  eapply wp_mono; [apply wp_start_run|].
  { intros j r Hj Hr. simpl in Hj. rewrite (ar_runs _ _ A4) in Hj.
    destruct (Htrig j r m Hj Hr) as [x Hx]. apply (proj1 (chh_chat _ _ Hh3)) in Hx. congruence. }
  intros [?|j] w6 [Hf Hrun]; wp_beta; [done|]. destruct (Hrun j eq_refl) as (r & Hr).
  split.
  - eapply in_channels_frame; [|done]. eapply in_channels_trans; [by split|]. intros _. exact Hin5.
  - exists k, m, j, r. fold e'. split_and!; [| |..|apply Hr|apply Hr|apply Hr|apply Hr|apply Hr|apply Hr|apply Hr].
    + rewrite (tm_events _ _ _ _ _ _ Hf). apply lookup_insert_eq.
    + destruct Hb as (x & Hx). exists x. by rewrite (tm_messages _ _ _ _ _ _ Hf).
    + destruct (w_messages w !! m) eqn:Hx; [|done]. apply (proj1 (chh_chat _ _ Hh3)) in Hx. congruence.
Qed.

Lemma no_message_yet id e w :
  channel_state_ok w → w_inbound_events w !! id = Some e →
  ie_status e ≠ InboundChannelEventStatus.PROCESSED → ie_message e = None.
Proof.
  intros Hok He Hst. destruct (ch_events w Hok id e He) as [_ [_ _ Hm _ _]].
  destruct (ie_message e); [|done]. by destruct Hst; apply Hm; eexists.
Qed.

Lemma claimed_moved id e w :
  channel_state_ok w → w_inbound_events w !! id = Some e → ie_status e = InboundChannelEventStatus.RECEIVED →
  in_channels w (with_event id (claimed_event (w_now w) e) w).
Proof.
  intros Hok He Hst. destruct (ch_events w Hok id e He) as [_ [_ _ _ Hb _]].
  assert (Hnone : ie_message e = None) by (by eapply no_message_yet; [..|rewrite Hst]).
  apply (event_moved id e (claimed_event (w_now w) e)); try done.
  - by rewrite Hst.
  - intros m Hx. simpl in Hx. congruence.
  - simpl. rewrite Hnone. by split; [|intros []].
Qed.

(** The event is marked as failed. *)
Lemma failed_moved id e code w :
  channel_state_ok w → w_inbound_events w !! id = Some e → ie_status e = InboundChannelEventStatus.PROCESSING →
  code ∈ [orchestration_failed; processing_failed] →
  wp (mark_event_failed id code) (λ o w', o = inr () ∧ w' = with_event id (failed_event code (w_now w) e) w ∧
    in_channels w w') w.
Proof.
  intros Hok He Hst Hcode. destruct (ch_events w Hok id e He) as [_ [_ _ _ Hb _]].
  assert (Hnone : ie_message e = None) by (by eapply no_message_yet; [..|rewrite Hst]).
  unfold mark_event_failed, is_event. apply wp_bind, wp_get_now. wp_beta. apply wp_update_rows.
  rewrite (update_one _ id _ e) by done. split; [done|split; [done|]].
  assert (Hcut : str_take 64 code = code).
  { apply elem_of_cons in Hcode as [->|Hcode]; [done|]. by apply list_elem_of_singleton in Hcode as ->. }
  apply (event_moved id e (failed_event code (w_now w) e)); try done.
  - by rewrite Hst.
  - intros m Hx. simpl in Hx. congruence.
  - simpl. rewrite Hnone. by split; [|intros []].
  - intros _. simpl. by rewrite Hcut.
Qed.

Lemma failure_code_known e : failure_code_of e ∈ [orchestration_failed; processing_failed].
Proof. destruct e; mem_decide. Qed.

(** How the processing of the event [id] ends. *)
Definition processed (id : N) (w : World) (o : exn + InboundChannelEventStatus.t) (w' : World) : Prop :=
  ∃ e endpoint, w_inbound_events w !! id = Some e ∧
    w_channel_endpoints w !! ie_endpoint e = Some endpoint ∧
    match ie_status e with
    | InboundChannelEventStatus.RECEIVED =>
        let claimed := claimed_event (w_now w) e in
        (o = inr InboundChannelEventStatus.PROCESSED ∧
         handled_event id claimed endpoint (with_event id claimed w) w') ∨
        (o = inr InboundChannelEventStatus.FAILED ∧ ∃ code,
         code ∈ [orchestration_failed; processing_failed] ∧
         w' = with_event id (failed_event code (w_now w) claimed) w)
    | status => o = inr status ∧ w' = w
    end.

Lemma with_event_twice i e e' w : with_event i e' (with_event i e w) = with_event i e' w.
Proof.
  unfold with_event. rewrite rows_set_rows, insert_insert_eq. by destruct w as [? ? ? ? ? ? ? ? ? ? ? ? ? ? ? ? ? ? ? ? ? ? ? ? ? ? ? ? ? ? ? ? ? ? ? ? []].
Qed.

Lemma wp_process_event id w :
  keys_read_back → channel_state_ok w → run_triggers_exist w → is_Some (w_inbound_events w !! id) →
  wp (process_inbound_channel_event id) (λ o w', processed id w o w' ∧ in_channels w w') w.
Proof.
  intros Hkeys Hok Htrig [e He]. unfold process_inbound_channel_event, claim_inbound_channel_event.
  destruct (ch_events w Hok id e He) as [_ [_ (endpoint & Hep & _) _ _ _]].
  assert (Hrow : ∀ w', rows w' !! id = w_inbound_events w' !! id) by done.
  apply wp_bind, wp_atomic, wp_bind, wp_get_row. rewrite Hrow, He. wp_beta.
  case_bool_decide as Hst; simpl.
  2:{ apply wp_ret. wp_beta. apply wp_bind, wp_get_row. rewrite Hrow, He. wp_beta. apply wp_ret.
      split; [|by apply in_channels_refl]. exists e, endpoint. split_and!; [done..|].
      by destruct (ie_status e). }
  apply wp_bind, wp_get_now. wp_beta. apply wp_bind, wp_save_row. wp_beta. apply wp_ret. wp_beta.
  set (claimed := claimed_event (w_now w) e). change (set_rows _ w) with (with_event id claimed w).
  destruct (claimed_moved id e w Hok He Hst) as [Hok1 Hh1].
  assert (Hcl : w_inbound_events (with_event id claimed w) !! id = Some claimed) by apply lookup_insert_eq.
  apply wp_bind, wp_get_row. change (rows (with_event id claimed w) !! ie_endpoint claimed)
    with (w_channel_endpoints w !! ie_endpoint e). rewrite Hep. wp_beta.
  apply wp_bind, wp_attempt. eapply wp_mono; [by apply (wp_handle_event id claimed endpoint)|].
  intros [x|j] w2 Hw2; wp_beta.
  - subst w2. apply wp_bind.
    eapply wp_mono; [by apply (failed_moved id claimed (failure_code_of x)), failure_code_known|].
    intros r w2 (-> & -> & Hin). wp_beta. apply wp_ret. rewrite with_event_twice in *. split.
    + exists e, endpoint. split_and!; [done..|]. rewrite Hst. right. split; [done|].
      exists (failure_code_of x). split; [apply failure_code_known|done].
    + eapply in_channels_trans; [by split|]. intros _. exact Hin.
  - apply wp_ret. split.
    + exists e, endpoint. split_and!; [done..|]. rewrite Hst. by left.
    + eapply in_channels_trans; [by split|]. intros _. apply Hw2.
Qed.

(** C13. A worker that is handed an event processes it at most once, all or nothing.  An
    event another worker has taken is left alone.  A received one becomes, in one
    transaction, a new message of its customer in its conversation and a pending run
    of the endpoint's agent that is handed to the broker; or it is marked as failed
    under one of two codes, and nothing else of the attempt remains.  The processing
    never raises, and it keeps the channels in order. *)
Theorem inbound_event_processed_once id w o w' :
  keys_read_back → channel_state_ok w → run_triggers_exist w → is_Some (w_inbound_events w !! id) →
  process_inbound_channel_event id w = (o, w') →
  processed id w o w' ∧ in_channels w w'.
Proof.
  intros Hkeys Hok Htrig He Hrun. exact (wp_run _ _ _ _ _ (wp_process_event id w Hkeys Hok Htrig He) Hrun).
Qed.
End Services.
