(* ===== verification/ChannelSafety.v ===== *)
(** * What the channels guarantee

    The channels stay in order over every sequence of their operations; a webhook is
    stored only when it is signed; the pages of a chat's history continue one another;
    a reply is routed to its channel at most once; the handler of a reply's delivery
    discharges the interface of [Delivery]. *)

From stdpp Require Import base gmap strings list pretty sorting relations.
From Stdlib Require Import ZArith Ascii String Lia.
From S2P Require Import Prelude Json Domain Policy Models Store Delivery Network Schemas Adapters Integrations Webhooks Notifications Approvals ToolExec ToolSafety Graph Workspaces Conversations Tickets AgentRuns AgentSafety AgentOutcomes Chunking Knowledge AgentContext AgentFrame Scoring Ingress Channels IngressSafety EventProcessing.

#[local] Open Scope nat_scope.

(** ** What leaves the channels alone *)

#[export] Instance channel_frame_preorder : PreOrder channel_frame.
Proof.
  split; [intros w; by split|]. intros w1 w2 w3 [] []. split; (congruence || lia).
Qed.

(** A relation that allows all that leaves the channels and the chat alone. *)
Class Beside (R : relation World) := {
  beside_preorder :: PreOrder R;
  beside_sub w w' : channel_frame w w' → R w w';
}.
#[export] Instance channel_frame_beside : Beside channel_frame.
Proof. by split; [apply _|]. Qed.
#[export] Instance channel_rel_beside : Beside channel_rel.
Proof. split; [apply _|apply channel_frame_rel]. Qed.

Lemma integration_channel_frame ws w w' : integration_frame ws w w' → channel_frame w w'.
Proof. intros (m & n & -> & Hn & _). by split. Qed.

(** A table of neither the channels nor the chat. *)
Class BesideTable (A : Type) `{Table A} := set_rows_beside m w : channel_frame w (set_rows m w).
Ltac beside_table := intros m w; split; simpl; (reflexivity || lia).
#[export] Instance beside_deliveries : BesideTable Delivery. Proof. beside_table. Qed.
#[export] Instance beside_attempts : BesideTable DeliveryAttempt. Proof. beside_table. Qed.
#[export] Instance beside_notifications : BesideTable NotificationDelivery. Proof. beside_table. Qed.

Section Frame.
Context `{Settings} (R : relation World) `{!Beside R}.

Lemma beside_pure {A} (m : service A) : (∀ w, (m w).2 = w) → included R m.
Proof. intros Hm w. rewrite Hm. reflexivity. Qed.
Lemma beside_find_row {A} `{Table A} i : included R (find_row (A := A) i).
Proof. by apply beside_pure. Qed.
Lemma beside_get_row {A} `{Table A} i : included R (get_row (A := A) i).
Proof.
  apply beside_pure. intros w. change (wp (get_row i) (λ _ w', w' = w) w).
  apply wp_get_row. by destruct (rows w !! i).
Qed.
Lemma beside_first_row {A} `{Table A} P : included R (first_row (A := A) P).
Proof. by apply beside_pure. Qed.
Lemma beside_get_where {A} `{Table A} P : included R (get_where (A := A) P).
Proof.
  apply beside_pure. intros w. change (wp (get_where P) (λ _ w', w' = w) w).
  apply wp_get_where. by destruct (select_rows P w) as [|? []].
Qed.
Lemma beside_get_now : included R get_now.
Proof. by apply beside_pure. Qed.
Lemma beside_fresh : included R fresh.
Proof. intros w. apply beside_sub. split; simpl; (done || lia). Qed.
Lemma beside_save_row {A} `{BesideTable A} i r : included R (save_row (A := A) i r).
Proof. intros w. apply beside_sub, set_rows_beside. Qed.
Lemma beside_update_rows {A} `{BesideTable A} P f : included R (update_rows (A := A) P f).
Proof. intros w. apply beside_sub, set_rows_beside. Qed.
Lemma beside_record_event a tt ti ac ws md : included R (record_event a tt ti ac ws md).
Proof. intros w. apply beside_sub. by split. Qed.
Lemma beside_publish t : included R (publish t).
Proof. intros w. apply beside_sub. by split. Qed.
End Frame.

#[export] Hint Resolve beside_find_row beside_get_row beside_first_row beside_get_where
  beside_get_now beside_fresh beside_save_row beside_update_rows beside_record_event
  beside_publish : core_frame.

Section Deliveries.
Context `{Settings} (R : relation World) `{!Beside R}.

Lemma beside_create_row {A} `{BesideTable A} r : included R (create_row (A := A) r).
Proof. unfold create_row. core_steps. Qed.
Hint Resolve beside_create_row : core_frame.
Lemma beside_create_delivery ws channel attempts now :
  included R (create_delivery ws channel attempts now).
Proof. unfold create_delivery, dispatch_delivery_for_processing. core_steps. Qed.
Lemma beside_complete_success i t now code : included R (complete_delivery_success i t now code).
Proof.
  unfold complete_delivery_success, lock_delivery_or_raise, assert_active_claim,
    complete_active_attempt. core_steps.
Qed.
Lemma beside_complete_failure i t code retryable delay now response :
  included R (complete_delivery_failure i t code retryable delay now response).
Proof.
  unfold complete_delivery_failure, lock_delivery_or_raise, assert_active_claim,
    complete_active_attempt. core_steps.
Qed.
End Deliveries.

#[export] Hint Resolve beside_create_delivery beside_complete_success beside_complete_failure
  : core_frame.

Section Services.
Context `{Settings} `{PyLib} `{Network} `{Encoding} `{TextEncoding} `{Providers} `{ChannelLib}.

(** ** Webhooks *)

(** A body that its sender signed with the endpoint's secret, a moment ago. *)
Definition signed (endpoint : ChannelEndpoint) (raw_body : string)
    (headers : string → option string) (now : Z) : Prop :=
  ∃ secret timestamp_header timestamp,
    endpoint_signing_secret endpoint = inr secret ∧ too_large raw_body = false ∧
    headers "X-SupportPilot-Timestamp" = Some timestamp_header ∧ timestamp_header ≠ "" ∧
    int_of_text timestamp_header = Some timestamp ∧
    (epoch_seconds now - CHANNELS_SIGNATURE_MAX_PAST_SKEW_SECONDS <= timestamp
     <= epoch_seconds now + CHANNELS_SIGNATURE_MAX_FUTURE_SKEW_SECONDS)%Z ∧
    headers "X-SupportPilot-Signature" = Some (compute_signature secret timestamp raw_body) ∧
    is_ascii (compute_signature secret timestamp raw_body) = true.

Lemma given_some header s : given header = Some s ↔ header = Some s ∧ s ≠ "".
Proof.
  unfold given. destruct header as [x|]; [|by split; [|intros []]].
  destruct (String.eqb_spec x "") as [->|Hne]; [by split; [|intros [[= <-] ?]]|]. by split; [intros [= <-]|intros [[= <-] _]].
Qed.

Lemma compute_signature_shape secret timestamp raw_body :
  starts_with (SIGNATURE_VERSION +:+ "=") (compute_signature secret timestamp raw_body) = true ∧
  compute_signature secret timestamp raw_body ≠ "".
Proof. split; [|done]. unfold compute_signature. by destruct (hmac_sha256 _ _). Qed.

Lemma verify_signature_signed endpoint raw_body headers now :
  verify_signature endpoint raw_body headers now = inr () ↔ signed endpoint raw_body headers now.
Proof.
  unfold verify_signature, signed, enforce_body_size. destruct (too_large raw_body);
    [by split; [|intros (? & ? & ? & ? & ? & _)]|].
  destruct (endpoint_signing_secret endpoint) as [e|secret]; [by split; [|intros (? & ? & ? & ? & _)]|].
  unfold verify_inbound_signature. split.
  - destruct (given (headers "X-SupportPilot-Signature")) as [signature|] eqn:Hs; [|done].
    destruct (given (headers "X-SupportPilot-Timestamp")) as [ts|] eqn:Ht; [|done].
    apply given_some in Hs as [Hs _], Ht as [Ht Hne].
    destruct (int_of_text ts) as [timestamp|] eqn:Hi; [|done].
    destruct (_ || _)%Z eqn:Hskew; [done|]. apply orb_false_iff in Hskew as [?%Z.ltb_ge ?%Z.ltb_ge].
    destruct (starts_with _ _); [|done]. destruct (is_ascii signature) eqn:Ha; [|done].
    destruct (String.eqb_spec (compute_signature secret timestamp raw_body) signature) as [<-|]; [|done].
    intros _. exists secret, ts, timestamp. by split_and!.
  - intros (secret' & ts & timestamp & [= <-] & _ & Ht & Hne & Hi & Hskew & Hs & Ha).
    destruct (compute_signature_shape secret timestamp raw_body) as [Hsw Hne'].
    rewrite (proj2 (given_some _ _) (conj Hs Hne')), (proj2 (given_some _ _) (conj Ht Hne)), Hi.
    rewrite (proj2 (orb_false_iff _ _)) by (split; apply Z.ltb_ge; lia).
    by rewrite Hsw, Ha, String.eqb_refl.
Qed.

(** What an accepted webhook left, and that any other left nothing. *)
Definition accepted (id : N) (raw_body : string) (headers : string → option string)
    (w : World) (o : exn + ChannelResponse) (w' : World) : Prop :=
  match o with
  | inr (Accepted i) =>
      ∃ endpoint e, w_channel_endpoints w !! id = Some endpoint ∧ is_active endpoint = true ∧
        signed endpoint raw_body headers (w_now w) ∧ w_inbound_events w' !! i = Some e ∧
        ie_endpoint e = id ∧ ie_payload_digest e = compute_payload_digest raw_body
  | _ => w' = w
  end.

Lemma ingested_row id content w i w' :
  ie_endpoint content = id → ingested id content w (inr i) w' →
  ∃ e, w_inbound_events w' !! i = Some e ∧ ie_endpoint e = id ∧
    ie_payload_digest e = ie_payload_digest content.
Proof.
  unfold ingested. intros Hid. destruct (head _) as [[j e]|] eqn:Hh.
  - intros [-> Ho]. destruct (String.eqb_spec (ie_payload_digest e) (ie_payload_digest content)) as [Hd|]; [|done].
    simplify_eq. apply first_row_some in Hh as [Hj [He%bool_decide_eq_true _]%andb_prop]. by exists e.
  - destruct (event_fits content); [|by intros []]. intros (Ho & He & _). simplify_eq. exists content.
    by rewrite He, lookup_insert_eq.
Qed.

Lemma ingested_nothing id content w x w' : ingested id content w (inl x) w' → w' = w.
Proof.
  unfold ingested. destruct (head _) as [[j e]|]; [by intros []|].
  destruct (event_fits content); [by intros (?&_)|by intros []].
Qed.

Lemma wp_or_api_error {A} (m : service A) rest Q w :
  wp m (λ o w', match o with
    | inl (ChannelExc e) => Q (inr (ApiError e)) w' | inl e => Q (inl e) w'
    | inr a => wp (rest a) Q w' end) w →
  wp (or_api_error m rest) Q w.
Proof.
  intros Hm. unfold or_api_error. apply wp_bind, wp_attempt. eapply wp_mono; [exact Hm|].
  intros [e|a] w' HQ; wp_beta; [by destruct e|done].
Qed.

Lemma wp_webhook id raw_body headers w :
  channel_state_ok w →
  wp (inbound_webhook_post id raw_body headers)
    (λ o w', in_channels w w' ∧ accepted id raw_body headers w o w') w.
Proof.
  intros Hok. assert (Hid : in_channels w w) by by apply in_channels_refl.
  unfold inbound_webhook_post, get_endpoint. apply wp_bind, wp_bind, wp_find_row. wp_beta.
  destruct (rows w !! id) as [endpoint|] eqn:Hep; [|by apply wp_raise].
  apply wp_ret. wp_beta. apply wp_bind. unfold raise_if. destruct (is_active endpoint) eqn:Hact; [|by apply wp_raise].
  apply wp_ret. wp_beta. apply wp_bind, wp_of_sum. destruct (get_adapter _) as [x|adapter] eqn:Had; wp_beta; [done|].
  apply wp_bind, wp_get_now. wp_beta. apply wp_or_api_error, wp_of_sum.
  destruct (verify_signature _ _ _ _) as [x|[]] eqn:Hv; [by destruct x|]. apply verify_signature_signed in Hv.
  apply wp_or_api_error, wp_bind, wp_of_sum. destruct (parse_event _ _) as [x|parsed]; wp_beta; [by destruct x|].
  apply wp_of_sum. destruct (normalize _ _ _) as [x|c]; [by destruct x|].
  apply wp_or_api_error. eapply wp_mono; [apply (wp_ingest id endpoint); [done..|]|].
  { intros Hchat. unfold get_adapter in Had. by rewrite Hchat in Had. }
  intros [x|i] w' [Hin Hing]; [destruct x; split; try done; by eapply ingested_nothing|].
  apply wp_ret. split; [done|]. destruct (ingested_row _ _ _ _ _ eq_refl Hing) as (e & He & Hie & Hd).
  by exists endpoint, e.
Qed.

(** C14. Nothing is stored for a webhook that is not signed: a request that is accepted
    went to an active endpoint with a body of bounded size, a timestamp of a moment
    ago and the signature of that timestamp and body under the endpoint's secret, and
    is answered with an event of the endpoint that carries the digest of the body; any
    other request leaves the database as it was. *)
Theorem webhook_events_are_signed id raw_body headers w o w' :
  channel_state_ok w → inbound_webhook_post id raw_body headers w = (o, w') →
  in_channels w w' ∧ accepted id raw_body headers w o w'.
Proof. intros Hok Hrun. exact (wp_run _ _ _ _ _ (wp_webhook id raw_body headers w Hok) Hrun). Qed.

(** ** Sessions *)

Lemma chat_session_included id : included channel_rel (chat_session_post id).
Proof.
  apply included_in_channels. intros w Hok. assert (Hid : in_channels w w) by by apply in_channels_refl.
  unfold chat_session_post, get_endpoint, bootstrap_chat_session, save_session.
  apply wp_bind, wp_bind, wp_find_row. wp_beta.
  destruct (rows w !! id) as [endpoint|] eqn:Hep; [|by apply wp_raise]. apply wp_ret. wp_beta.
  apply wp_or_api_error, wp_bind. unfold raise_if at 1. destruct (_ || _) eqn:Hch; [by apply wp_raise|].
  apply wp_ret. wp_beta. apply orb_false_iff in Hch as [Hch%negb_false_iff%bool_decide_eq_true _].
  apply wp_bind, wp_fresh. wp_beta. apply wp_bind, wp_get_now. wp_beta. apply wp_bind, wp_fresh. wp_beta. simpl.
  set (w2 := {| w with w_next := N.succ (N.succ (w_next w)) |}).
  assert (Hid2 : in_channels w w2).
  { eapply in_channels_frame; [exact Hid|]. split; simpl; (done || lia). }
  set (s := new_session _ _ _ _). apply wp_bind, wp_bind. unfold raise_if. destruct (negb _); [by apply wp_raise|].
  apply wp_ret. wp_beta. apply wp_save_unique. destruct (clashes _ _ _ _) eqn:Hc; wp_beta; [done|].
  apply wp_ret, wp_ret. eapply in_channels_trans; [exact Hid2|]. intros Hok2.
  assert (Hnone : w_chat_sessions w2 !! N.succ (w_next w) = None).
  { destruct (w_chat_sessions w2 !! N.succ (w_next w)) eqn:Hx; [|done]. apply (ch_sessions w Hok) in Hx as [? _]. lia. }
  apply (session_written w2 _ Hok2 (N.succ (w_next w)) s).
  - by split.
  - simpl. lia.
  - intros x Hx. congruence.
  - exact (unique_insert session_clash session_clash_sym _ s w2 (ch_sessions_unique w2 Hok2) Hc).
  - split; [by exists endpoint|done].
Qed.

Lemma wp_submit session_id session cmid body w :
  channel_state_ok w → w_chat_sessions w !! session_id = Some session →
  wp (submit_chat_message session_id session cmid body) (λ _ w', in_channels w w') w.
Proof.
  intros Hok Hs. assert (Hid : in_channels w w) by by apply in_channels_refl.
  destruct (ch_sessions w Hok _ _ Hs) as [_ [(endpoint & Hep & Hws & Hch) _]].
  unfold submit_chat_message. apply wp_atomic, wp_bind, wp_get_row.
  change (rows w !! cs_endpoint session) with (w_channel_endpoints w !! cs_endpoint session). rewrite Hep.
  wp_beta. apply wp_bind. unfold raise_if. destruct (negb _); [by apply wp_raise|]. apply wp_ret. wp_beta.
  apply wp_bind, wp_of_sum. destruct (enforce_body_size body); wp_beta; [done|].
  apply wp_bind. eapply wp_mono; [apply (wp_ingest _ endpoint); [done..|]|].
  { intros _. by exists session_id, session. }
  intros [x|i] w1 [Hin _]; wp_beta; [done|]. apply wp_bind, wp_get_now. wp_beta. apply wp_bind, wp_save_fields.
  destruct (chh_sessions _ _ (proj2 Hin) _ _ Hs) as (s1 & Hs1 & Hev).
  change (rows w1 !! session_id) with (w_chat_sessions w1 !! session_id). rewrite Hs1. wp_beta. apply wp_ret.
  eapply in_channels_trans; [exact Hin|]. intros Hok1. destruct (ch_sessions w1 Hok1 _ _ Hs1) as [Hlt [Hse Hsc]].
  apply (session_written w1 _ Hok1 session_id (seen (w_now w1) s1)).
  - by split.
  - done.
  - intros x Hx. assert (x = s1) as -> by congruence. by split_and!.
  - refine (unique_rewrite session_clash session_clash_sym _ _ s1 _ Hs1 _ (ch_sessions_unique w1 Hok1)). done.
  - by split.
Qed.

Lemma wp_require_session token Q w :
  (∀ e, Q (inl e) w) →
  (∀ i s, w_chat_sessions w !! i = Some s → cs_token_hash s = hash_session_token token →
     (w_now w < cs_expires_at s)%Z → Q (inr (i, s)) w) →
  wp (require_session token) Q w.
Proof.
  intros He Hs. unfold require_session, get_session_for_token. apply wp_bind.
  destruct (String.eqb token ""); [apply wp_ret; wp_beta; by apply wp_raise|].
  apply wp_bind, wp_first_row. wp_beta. apply wp_bind, wp_get_now. wp_beta. apply wp_ret. wp_beta.
  destruct (head _) as [[i s]|] eqn:Hh; [|by apply wp_raise].
  apply first_row_some in Hh as [Hi Ht%String.eqb_eq]. simpl.
  destruct (cs_expires_at s <=? w_now w)%Z eqn:Hx; [by apply wp_raise|]. apply wp_ret, Hs; [done..|]. lia.
Qed.

Lemma chat_message_post_included token cmid body :
  included channel_rel (chat_message_post token cmid body).
Proof.
  apply included_in_channels. intros w Hok. unfold chat_message_post. apply wp_or_api_error, wp_require_session.
  - intros []; by apply in_channels_refl.
  - intros i s Hs _ _. apply wp_or_api_error. eapply wp_mono; [by apply wp_submit|].
    intros [x|e] w' Hin; [by destruct x|by apply wp_ret].
Qed.

Lemma chat_message_get_included token after : included channel_rel (chat_message_get token after).
Proof.
  unfold chat_message_get, or_api_error, require_session, get_session_for_token, list_chat_messages. core_steps.
Qed.

Lemma recover_events_included batch now : included channel_rel (recover_stuck_inbound_events batch now).
Proof. unfold recover_stuck_inbound_events, or_now. core_steps. Qed.

(** ** Replies *)

(** The delivery of a reply: one row for the message. *)
Lemma wp_create_response endpoint_id endpoint ws cv m msg w :
  channel_state_ok w → w_channel_endpoints w !! endpoint_id = Some endpoint →
  ce_channel endpoint = ChannelType.EMAIL → w_messages w !! m = Some msg →
  wp (create_or_reuse_response_delivery endpoint_id endpoint ws cv m msg) (λ o w', in_channels w w' ∧
    ∀ r, o = inr r → w_response_deliveries w' !! m = Some r) w.
Proof.
  intros Hok Hep Hch Hmsg. assert (Hid : in_channels w w) by by apply in_channels_refl.
  unfold create_or_reuse_response_delivery. apply wp_bind, wp_find_row. wp_beta.
  change (rows w !! m) with (w_response_deliveries w !! m).
  destruct (w_response_deliveries w !! m) as [r|] eqn:Hr; [apply wp_ret; split; [done|by intros ? [= <-]]|].
  apply wp_bind, wp_get_row. destruct (rows w !! cv_customer cv) as [customer|]; wp_beta; [|done].
  apply wp_bind. eapply wp_mono; [apply (wp_of_included channel_frame), beside_create_delivery, _|].
  intros [e|d] w1 Hf; wp_beta; [split; [by eapply in_channels_frame|done]|].
  assert (Hin1 : in_channels w w1) by by eapply in_channels_frame.
  assert (Hid1 : ∀ e, in_channels w w1 ∧ ∀ r, (inl e : exn + ChannelResponseDelivery) = inr r →
            w_response_deliveries w1 !! m = Some r) by by intros.
  apply wp_bind. unfold create_response. set (r := response_of _ _ _ _ _ _ _).
  apply wp_bind. unfold raise_if at 1. destruct (negb _); [by apply wp_raise|]. apply wp_ret. wp_beta.
  apply wp_bind. unfold raise_if at 1. destruct (_ || _) eqn:Hblank; [by apply wp_raise|]. apply wp_ret. wp_beta.
  apply wp_bind, wp_gets. wp_beta. apply wp_bind. unfold raise_if. destruct (bool_decide _); [by apply wp_raise|].
  apply wp_ret. wp_beta. apply wp_save_unique. destruct (clashes _ _ _ _) eqn:Hc; wp_beta; [done|].
  apply wp_ret. split; [|intros x [= <-]; apply lookup_insert_eq].
  eapply in_channels_trans; [exact Hin1|]. intros Hok1. apply (response_written w1 _ Hok1 m r).
  - by split.
  - intros x Hx. rewrite (tm_responses _ _ _ _ _ _ Hf) in Hx. congruence.
  - exact (unique_insert response_clash response_clash_sym m r w1 (ch_responses_unique w1 Hok1) Hc).
  - apply orb_false_iff in Hblank as [Hd%String.eqb_neq _]. split_and!; [..|done|done].
    + exists msg. by rewrite <-(tm_messages _ _ _ _ _ _ Hf) in Hmsg.
    + exists endpoint. by rewrite <-(tm_endpoints _ _ _ _ _ _ Hf) in Hep.
Qed.

(** The steps before a reply is looked up write nothing. *)
Lemma wp_route run w (Q : exn + option ChannelResponseDelivery → World → Prop) :
  (∀ e, Q (inl e) w) → Q (inr None) w →
  (∀ m msg cv i endpoint, run_output_message run = Some m → w_messages w !! m = Some msg →
     w_channel_endpoints w !! i = Some endpoint → ce_channel endpoint = ChannelType.EMAIL →
     wp (create_or_reuse_response_delivery i endpoint (run_workspace run) cv m msg)
        (λ o, Q (match o with inl e => inl e | inr r => inr (Some r) end)) w) →
  wp (route_channel_response run) Q w.
Proof.
  intros He Hn Hm. unfold route_channel_response.
  destruct (run_conversation run) as [c|]; [|by apply wp_ret].
  destruct (run_output_message run) as [m|] eqn:Ho; [|by apply wp_ret].
  apply wp_bind, wp_get_row. destruct (rows w !! c) as [cv|]; wp_beta; [|apply He].
  apply wp_bind, wp_of_sum. destruct (channel_endpoint_id _) as [e|key]; wp_beta; [apply He|].
  destruct (negb (py_bool key)); [by apply wp_ret|].
  apply wp_bind. unfold or_raise. destruct (uuid_of key) as [pk|]; [|apply wp_raise, He]. apply wp_ret. wp_beta.
  apply wp_bind, wp_first_row. wp_beta. destruct (head _) as [[i endpoint]|] eqn:Hh; [|by apply wp_ret].
  apply first_row_some in Hh as [Hi _]. unfold external_delivery.
  case_bool_decide as Hch; simpl; [|by apply wp_ret].
  apply wp_bind, wp_get_row. destruct (rows w !! m) as [msg|] eqn:Hmsg; wp_beta; [|apply He].
  apply wp_bind. eapply wp_mono; [by apply (Hm m msg cv i endpoint)|].
  intros [e|r] w' HQ; wp_beta; [done|]. by apply wp_ret.
Qed.

Lemma route_included run : included channel_rel (route_channel_response run).
Proof.
  apply included_in_channels. intros w Hok. apply wp_route; [intros; by apply in_channels_refl..|].
  intros m msg cv i endpoint _ Hmsg Hi Hch. eapply wp_mono; [by apply wp_create_response|]. by intros o w' [? _].
Qed.

(** Once the reply has a delivery, it keeps it. *)
Lemma wp_routed_already run m r w :
  run_output_message run = Some m → w_response_deliveries w !! m = Some r →
  wp (route_channel_response run) (λ o w', w' = w ∧ ∀ r', o = inr (Some r') → r' = r) w.
Proof.
  intros Hm Hr. apply wp_route; [done|done|]. intros m' msg cv i endpoint Hm' _ _ _. assert (m' = m) as -> by congruence.
  unfold create_or_reuse_response_delivery. apply wp_bind, wp_find_row. wp_beta.
  change (rows w !! m) with (w_response_deliveries w !! m). rewrite Hr. apply wp_ret.
  split; [done|]. by intros r' [= <-].
Qed.

(** C35. A reply is routed at most once: a call that returns a delivery leaves it as the
    row of the run's reply, with the message's text and an email endpoint's address,
    and however the channels move on, no later call, with whatever run object for that
    reply, writes anything or returns another delivery. *)
Theorem response_routed_once run w r w' :
  channel_state_ok w → route_channel_response run w = (inr (Some r), w') →
  in_channels w w' ∧
  ∃ m, run_output_message run = Some m ∧ w_response_deliveries w' !! m = Some r ∧ response_ok w' m r ∧
  ∀ w2 run2 o w3, rows_move response_evolves (w_response_deliveries w') (w_response_deliveries w2) →
    run_output_message run2 = Some m → route_channel_response run2 w2 = (o, w3) →
    w3 = w2 ∧ ∀ r2, o = inr (Some r2) → response_evolves r r2.
Proof.
  intros Hok Hrun.
  assert (Hwp : wp (route_channel_response run) (λ o w', ∀ r, o = inr (Some r) → ∃ m,
    run_output_message run = Some m ∧ w_response_deliveries w' !! m = Some r) w).
  { apply wp_route; [done|done|]. intros m msg cv i endpoint Hm Hmsg Hi Hch.
    eapply wp_mono; [by apply wp_create_response|]. intros [e|x] w1 [_ Hx] r1; [done|]. intros [= <-].
    exists m. auto. }
  pose proof (route_included run w Hok) as Hin. rewrite Hrun in Hin. simpl in Hin.
  destruct (wp_run _ _ _ _ _ Hwp Hrun r eq_refl) as (m & Hm & Hr). split; [done|].
  exists m. split_and!; [done..|by apply Hin|]. intros w2 run2 o w3 Hmove Hm2 Hrun2.
  destruct (Hmove m r Hr) as (r2 & Hr2 & Hev).
  destruct (wp_run _ _ _ _ _ (wp_routed_already run2 m r2 w2 Hm2 Hr2) Hrun2) as [-> Hsame].
  split; [done|]. intros r3 Ho. by rewrite (Hsame r3 Ho).
Qed.

Lemma route_callback_included run_id : included channel_rel (route_callback run_id).
Proof.
  unfold route_callback. core_step; [|core_steps]. apply included_attempt.
  core_step; [core_steps|apply route_included].
Qed.

(** ** The delivery of a reply *)

Context `{Pydantic} `{Vendors}.

Lemma provider_message_included pk x w r :
  w_response_deliveries w !! pk = Some r →
  channel_rel w (set_rows (<[pk := with_provider_message x r]> (rows w)) w).
Proof.
  intros Hr Hok. apply (response_written w _ Hok pk (with_provider_message x r)).
  - by split.
  - intros y Hy. assert (y = r) as -> by congruence. by split_and!.
  - refine (unique_rewrite response_clash response_clash_sym _ _ r _ Hr _ (ch_responses_unique w Hok)). done.
  - exact (ch_responses w Hok pk r Hr).
Qed.

Lemma handle_response_channel_rel i d t :
  included channel_rel (handle_channel_response_delivery_attempt i d t).
Proof.
  intros w. change (wp (handle_channel_response_delivery_attempt i d t)
    (λ _, channel_rel w) w). unfold handle_channel_response_delivery_attempt.
  assert (Hfail : ∀ code retryable, included channel_rel
    (complete_delivery_failure i t code retryable None None None;; mret ())) by (intros; core_steps).
  apply wp_bind, wp_first_row. wp_beta. destruct (head _) as [[pk r]|] eqn:Hh; [|apply Hfail].
  apply first_row_some in Hh as [Hr _]. apply wp_bind, wp_attempt.
  eapply wp_mono; [by apply (wp_of_included (integration_frame (dlv_workspace d)) _ w), send_included|].
  intros sent w1 Hf. wp_beta. eapply (wp_mono _ (λ _, channel_rel w1)); [|intros ? w2 Hw2; trans w1;
    [by eapply channel_frame_rel, integration_channel_frame, Hf|exact Hw2]].
  assert (w_response_deliveries w1 !! pk = Some r) as Hr1 by (by destruct Hf as (m & n & -> & _)).
  clear Hf Hr. destruct sent as [[]|x]; try apply Hfail.
  apply wp_bind_rel; [apply _| |intros [] w'; change (channel_rel w' ((complete_delivery_success i t None None;;
    mret ()) w').2); revert w'; change (included channel_rel (complete_delivery_success i t None None;; mret ())); core_steps].
  unfold when. destruct (negb _); [|by apply wp_ret]. apply wp_update_rows.
  rewrite (update_one _ pk _ r) by done. by apply provider_message_included.
Qed.

#[export] Instance channel_response_handler :
  ChannelHandler (handle_channel_response_delivery_attempt).
Proof.
  split.
  - intros i d t. unfold handle_channel_response_delivery_attempt, first_row. included_steps.
    apply send_included, frame_delivery_rel.
  - intros i d t. unfold handle_channel_response_delivery_attempt, first_row. included_steps.
    apply send_included, frame_keys.
  - intros i d t w Hwf _ Hd Ht. unfold handle_channel_response_delivery_attempt, first_row, gets.
    unfold mbind at 1, M_bind at 1.
    destruct (head (select_rows (response_for i) w)) as [[pk r]|]; [|by apply failure_settles].
    unfold mbind at 1, M_bind at 1, attempt.
    pose proof (send_included (integration_frame (dlv_workspace d)) (dlv_workspace d) INTEGRATIONS_MAX_TIMEOUT_SECONDS
      (crd_destination_address r) (crd_subject r) (crd_body r) (crd_idempotency_key r)
      (λ _ _ Hf, Hf) w) as Hf.
    destruct (send_notification _ _ _ _ _ _ w) as [sent w1]. simpl in Hf.
    apply (frame_deliveries_wf _ _ _ Hf) in Hwf as Hwf1. destruct Hf as (m & n & -> & Hn & _).
    destruct sent as [e|message].
    + destruct e; by apply failure_settles.
    + unfold mbind at 1, M_bind at 1, when.
      destruct (negb _); by apply success_settles.
Qed.

(** ** The configuration of endpoints *)

Lemma beside_validate R `{!Beside R} ws v : included R (validate_agent_version ws v).
Proof. unfold validate_agent_version. core_steps. Qed.
Lemma beside_new_secret R `{!Beside R} : included R new_secret.
Proof. unfold new_secret, encrypted_secret. core_steps. Qed.
Lemma beside_channel_event R `{!Beside R} action ws actor i md :
  included R (channel_event action ws actor i md).
Proof. unfold channel_event. core_steps. Qed.
Hint Resolve beside_validate beside_new_secret beside_channel_event : core_frame.

(** An endpoint is written over its row, or under a fresh key. *)
Lemma endpoint_saved i e w :
  (∀ x, w_channel_endpoints w !! i = Some x → endpoint_evolves x e) → (i < w_next w)%N →
  channel_rel w (set_rows (<[i := e]> (rows w)) w).
Proof. intros Hev Hi Hok. apply (endpoint_written w _ Hok i e); [by split|done|done]. Qed.

Lemma endpoint_fields i f :
  (∀ e, endpoint_evolves e (f e)) → included channel_rel (save_fields (A := ChannelEndpoint) i f).
Proof.
  intros Hf. apply included_in_channels. intros w Hok. apply wp_save_fields.
  destruct (rows w !! i) as [e|] eqn:He; [|by apply in_channels_refl].
  apply (endpoint_saved i (f e) w); [|by eapply ch_endpoints|done].
  intros x Hx. assert (x = e) as -> by (change (rows w !! i) with (w_channel_endpoints w !! i) in He; congruence).
  apply Hf.
Qed.

Lemma fresh_endpoint {A} e (k : N → service A) :
  (∀ i, included channel_rel (k i)) → included channel_rel (i ← fresh; save_endpoint i e;; k i).
Proof.
  intros Hk w. change (wp (i ← fresh; save_endpoint i e;; k i) (λ _, channel_rel w) w).
  apply wp_bind, wp_fresh. wp_beta. set (w1 := {| w with w_next := _ |}).
  assert (Hf : channel_rel w w1) by (apply channel_frame_rel; split; simpl; (done || lia)).
  apply wp_bind, wp_bind. unfold raise_if. destruct (String.eqb _ _); [by apply wp_raise|].
  apply wp_ret. wp_beta. apply wp_save_row. wp_beta.
  eapply wp_mono; [apply (wp_of_included channel_rel), Hk|]. intros o w2 Hm Hok.
  assert (Hs : channel_rel w1 (set_rows (<[w_next w := e]> (rows w1)) w1)).
  { apply endpoint_saved; [|simpl; lia]. intros x Hx. apply (ch_endpoints w Hok) in Hx. lia. }
  assert (channel_rel w w2) as Hr by (etrans; [exact Hf|]; etrans; [exact Hs|exact Hm]). by apply Hr.
Qed.

Lemma create_endpoint_included ws actor channel name vid v integration policy configuration :
  included channel_rel
    (create_channel_endpoint ws actor channel name vid v integration policy configuration).
Proof.
  unfold create_channel_endpoint. core_step. core_step; [core_steps|]. core_step; [core_steps|].
  apply fresh_endpoint. intros i. core_steps.
Qed.

Lemma update_endpoint_included ws i actor data :
  included channel_rel (update_channel_endpoint ws i actor data).
Proof.
  unfold update_channel_endpoint. core_step. core_step; [core_steps|]. core_step; [core_steps|].
  intros w. change (wp (row ← get_row i; save_endpoint i (apply_endpoint_data data row);;
    channel_event "channel_endpoint.updated" ws actor i []) (λ _, channel_rel w) w).
  apply wp_bind, wp_get_row. destruct (rows w !! i) as [e|] eqn:He; wp_beta; [|reflexivity].
  unfold save_endpoint. apply wp_bind, wp_bind. unfold raise_if.
  destruct (String.eqb _ _); [by apply wp_raise|]. apply wp_ret. wp_beta. apply wp_save_row. wp_beta.
  eapply wp_mono; [apply (wp_of_included channel_rel), beside_channel_event, _|]. intros o w2 Hm Hok.
  assert (Hs : channel_rel w (set_rows (<[i := apply_endpoint_data data e]> (rows w)) w)).
  { apply endpoint_saved; [|by eapply ch_endpoints]. intros x Hx.
    assert (x = e) as -> by (change (rows w !! i) with (w_channel_endpoints w !! i) in He; congruence). by split. }
  assert (channel_rel w w2) as Hr by (etrans; [exact Hs|exact Hm]). by apply Hr.
Qed.

Lemma set_status_included ws i actor status :
  included channel_rel (set_channel_endpoint_status ws i actor status).
Proof.
  unfold set_channel_endpoint_status. core_step. core_step; [by apply endpoint_fields|]. core_steps.
Qed.

Lemma rotate_included ws i endpoint actor :
  included channel_rel (rotate_channel_secret ws i endpoint actor).
Proof.
  unfold rotate_channel_secret. core_step. core_step; [core_steps|]. core_step; [core_steps|].
  core_step; [core_steps|]. core_step; [by apply endpoint_fields|core_steps].
Qed.

(** ** Any sequence of operations *)

Lemma process_included id w :
  keys_read_back → run_triggers_exist w → channel_rel w (process_inbound_channel_event id w).2.
Proof.
  intros Hkeys Htrig Hok. destruct (w_inbound_events w !! id) as [e|] eqn:He.
  - by apply (wp_process_event id w Hkeys Hok Htrig).
  - change (wp (process_inbound_channel_event id) (λ _ w', in_channels w w') w).
    unfold process_inbound_channel_event, claim_inbound_channel_event.
    apply wp_bind, wp_atomic, wp_bind, wp_get_row. change (rows w !! id) with (w_inbound_events w !! id).
    rewrite He. by apply in_channels_refl.
Qed.

(** What the rest of the program may do meanwhile: customers, conversations and messages
    move on, the tables of the channels stay. *)
Record elsewhere (w w' : World) : Prop := {
  el_outer : outer_frame w w';
  el_chat : conversation_rel w w';
  el_customers : below (w_customers w) (w_next w) → below (w_customers w') (w_next w');
}.

Lemma elsewhere_rel w w' : elsewhere w w' → channel_rel w w'.
Proof.
  intros [Ho Hc Hb]. exact (moved_channel_rel w w' Ho Hc Hb).
Qed.

Inductive channel_op : World → World → Prop :=
  | Op_webhook id raw_body headers w :
      channel_op w (inbound_webhook_post id raw_body headers w).2
  | Op_session id w : channel_op w (chat_session_post id w).2
  | Op_chat_post token cmid body w : channel_op w (chat_message_post token cmid body w).2
  | Op_chat_get token after w : channel_op w (chat_message_get token after w).2
  | Op_process id w : run_triggers_exist w → channel_op w (process_inbound_channel_event id w).2
  | Op_recover batch now w : channel_op w (recover_stuck_inbound_events batch now w).2
  | Op_route run_id w : channel_op w (route_callback run_id w).2
  | Op_attempt i d t w :
      channel_op w (handle_channel_response_delivery_attempt i d t w).2
  | Op_create_endpoint ws actor channel name vid v integration policy configuration w :
      channel_op w (create_channel_endpoint ws actor channel name vid v integration policy
                      configuration w).2
  | Op_update_endpoint ws i actor data w : channel_op w (update_channel_endpoint ws i actor data w).2
  | Op_endpoint_status ws i actor status w :
      channel_op w (set_channel_endpoint_status ws i actor status w).2
  | Op_rotate ws i endpoint actor w : channel_op w (rotate_channel_secret ws i endpoint actor w).2
  | Op_elsewhere w w' : elsewhere w w' → channel_op w w'.

Lemma channel_op_rel w w' : keys_read_back → channel_op w w' → channel_rel w w'.
Proof.
  intros Hkeys. destruct 1.
  - intros Hok. by apply (wp_webhook id raw_body headers w Hok).
  - apply chat_session_included.
  - apply chat_message_post_included.
  - apply chat_message_get_included.
  - by apply process_included.
  - apply recover_events_included.
  - apply route_callback_included.
  - apply handle_response_channel_rel.
  - apply create_endpoint_included.
  - apply update_endpoint_included.
  - apply set_status_included.
  - apply rotate_included.
  - by apply elsewhere_rel.
Qed.

(** C27. Over any sequence of webhooks, chats, processings, recoveries, replies, changes of
    endpoints and whatever the rest of the program does meanwhile, the channels stay
    in order: an event belongs to the workspace of its endpoint, is unique under its
    provider's identifier, has a message exactly once it is processed, and that
    message is the customer's, with the event's text; a session stays with its
    endpoint, its token and its expiry, and its conversation is its workspace's; a
    reply has one delivery, with its message's text.  An event only moves from
    received to processing to its end, its content and an ended event never change,
    and a session keeps the conversation it got. *)
Theorem channels_in_order w w' :
  keys_read_back → rtc channel_op w w' → channel_state_ok w → channel_state_ok w' ∧ channel_history w w'.
Proof.
  intros Hkeys Hops. change (channel_rel w w'). induction Hops; [reflexivity|].
  etrans; [by apply channel_op_rel|done].
Qed.
End Services.
