(* ===== verification/ChatHistory.v ===== *)
(** * The pages of a chat, and the sessions that may read them

    [channel_ingress/webchat.py], as a client sees it: a token is good for a live session
    only, and the pages of a conversation continue one another. *)

From stdpp Require Import base gmap strings list pretty sorting relations.
From Stdlib Require Import ZArith Ascii String Lia.
From S2P Require Import Prelude Json Domain Policy Models Store Delivery Network Webhooks Notifications Approvals ToolExec Graph Conversations AgentRuns Chunking Knowledge AgentContext Scoring Ingress Channels IngressSafety.

#[local] Open Scope nat_scope.

(** ** A list in strict order *)

Lemma filter_all {A} (f : A → bool) (l : list A) :
  (∀ x, x ∈ l → f x = true) → List.filter f l = l.
Proof.
  induction l as [|x l IH]; intros Hf; simpl; [done|]. rewrite (Hf x) by left.
  f_equal. apply IH. intros y Hy. apply Hf. by right.
Qed.
Lemma filter_none {A} (f : A → bool) (l : list A) :
  (∀ x, x ∈ l → f x = false) → List.filter f l = [].
Proof.
  induction l as [|x l IH]; intros Hf; simpl; [done|]. rewrite (Hf x) by left.
  apply IH. intros y Hy. apply Hf. by right.
Qed.

Section Order.
#[local] Abbreviation before := (time_order msg_created_at).
#[local] Instance before_total : Total before.
Proof. intros [i x] [j y]. unfold time_order. simpl. lia. Qed.
#[local] Instance before_trans : Transitive before.
Proof. intros [i x] [j y] [k z]. unfold time_order. simpl. lia. Qed.

Lemma before_after x y : before x y → x.1 ≠ y.1 → after_anchor x y = true.
Proof.
  unfold time_order, after_anchor. rewrite orb_true_iff, andb_true_iff, !Z.ltb_lt, Z.eqb_eq, N.ltb_lt. lia.
Qed.
Lemma before_not_after x y : before x y → after_anchor y x = false.
Proof.
  unfold time_order, after_anchor. rewrite orb_false_iff, andb_false_iff, !Z.ltb_ge, Z.eqb_neq, N.ltb_ge. lia.
Qed.

(** What follows the anchor is what comes after it. *)
Lemma filter_after pre a post :
  StronglySorted before (pre ++ a :: post) → NoDup (pre ++ a :: post).*1 →
  List.filter (after_anchor a) (pre ++ a :: post) = post.
Proof.
  intros Hs Hn. assert (Hpost : StronglySorted before (a :: post)) by by apply StronglySorted_app_1_r in Hs.
  apply StronglySorted_inv in Hpost as [_ Hafter]. rewrite Forall_forall in Hafter.
  rewrite List.filter_app. simpl. rewrite before_not_after by (unfold time_order; lia).
  rewrite filter_none, filter_all; [done|..].
  - intros x Hx. apply before_after; [by apply Hafter|]. intros Hax.
    rewrite fmap_app, fmap_cons in Hn. apply NoDup_app in Hn as (_ & _ & [Hna _]%NoDup_cons).
    apply Hna. rewrite Hax. by apply list_elem_of_fmap_2.
  - intros x Hx. apply before_not_after.
    apply (StronglySorted_app_1_elem_of before pre (a :: post) x a Hs Hx). by left.
Qed.

Lemma history_sorted c w : StronglySorted before (message_list_for_conversation c w).
Proof. apply StronglySorted_merge_sort; apply _. Qed.
Lemma history_keys c w : NoDup (message_list_for_conversation c w).*1.
Proof.
  unfold message_list_for_conversation. rewrite (merge_sort_Permutation _ _). apply select_rows_nodup.
Qed.
Lemma in_history c w i m :
  (i, m) ∈ message_list_for_conversation c w ↔ w_messages w !! i = Some m ∧ msg_conversation m = c.
Proof.
  unfold message_list_for_conversation. rewrite (merge_sort_Permutation _ _), in_select_rows.
  unfold in_conversation. by rewrite bool_decide_eq_true.
Qed.

(** The anchor is found by its key. *)
Lemma anchor_found (pre : list (N * Message)) a post :
  NoDup (pre ++ a :: post).*1 →
  List.filter (λ x, bool_decide (x.1 = a.1)) (pre ++ a :: post) = [a].
Proof.
  intros Hn. rewrite fmap_app, fmap_cons in Hn. apply NoDup_app in Hn as (_ & Hd & [Hna _]%NoDup_cons).
  rewrite List.filter_app. simpl. rewrite bool_decide_true by done. rewrite !filter_none; [done|..].
  - intros x Hx. apply bool_decide_eq_false. intros Hxa. apply Hna. rewrite <-Hxa. by apply list_elem_of_fmap_2.
  - intros x Hx. apply bool_decide_eq_false. intros Hxa. apply (Hd x.1); [by apply list_elem_of_fmap_2|].
    rewrite Hxa. by left.
Qed.
End Order.

Section Services.
Context `{Settings} `{PyLib} `{Network} `{Encoding} `{TextEncoding} `{Providers} `{ChannelLib}.

(** ** Pages *)

Lemma given_pretty (i : N) : given (Some (pretty i)) = Some (pretty i).
Proof.
  unfold given. destruct (String.eqb_spec (pretty i) "") as [Hp|]; [|done].
  pose proof (read_pretty i) as Hr. by rewrite Hp in Hr.
Qed.

(** C36. The pages of a chat continue one another: the history of a session is exactly the
    messages of its conversation in the order they were written; the first page is its
    beginning, the page after a message of it begins with the message that follows, and
    a message of another conversation marks no place in it. *)
Theorem chat_pages_continue session c w :
  keys_read_back → cs_conversation session = Some c →
  ∃ history : list (N * Message),
    (∀ i m, (i, m) ∈ history ↔ w_messages w !! i = Some m ∧ msg_conversation m = c) ∧
    StronglySorted (time_order msg_created_at) history ∧ NoDup history.*1 ∧
    list_chat_messages session None w = (inr (take CHANNEL_WEBCHAT_MESSAGE_HISTORY_LIMIT history), w) ∧
    (∀ pre a post, history = pre ++ a :: post →
       list_chat_messages session (Some (pretty a.1)) w
       = (inr (take CHANNEL_WEBCHAT_MESSAGE_HISTORY_LIMIT post), w)) ∧
    ∀ i, i ∉ history.*1 → list_chat_messages session (Some (pretty i)) w
       = (inr (take CHANNEL_WEBCHAT_MESSAGE_HISTORY_LIMIT history), w).
Proof.
  intros Hkeys Hc. exists (message_list_for_conversation c w).
  split_and!; [apply in_history|apply history_sorted|apply history_keys|..].
  - unfold list_chat_messages. by rewrite Hc.
  - intros pre a post Hl. unfold list_chat_messages. rewrite Hc, given_pretty, Hkeys.
    unfold mbind, M_bind, gets. simpl.
    pose proof (history_sorted c w) as Hs. pose proof (history_keys c w) as Hn. rewrite Hl in *.
    by rewrite anchor_found, filter_after.
  - intros i Hi. unfold list_chat_messages. rewrite Hc, given_pretty, Hkeys.
    unfold mbind, M_bind, gets. simpl. rewrite filter_none; [done|].
    intros x Hx. apply bool_decide_eq_false. intros <-. apply Hi. by apply list_elem_of_fmap_2.
Qed.

(** ** Tokens *)

(** A session that may still be used. *)
Definition live (w : World) (token : string) : Prop :=
  token ≠ "" ∧ ∃ i s, w_chat_sessions w !! i = Some s ∧ cs_token_hash s = hash_session_token token ∧
    (w_now w < cs_expires_at s)%Z.

Lemma require_dead token w :
  ¬ live w token → require_session token w = (inl (ChannelExc ChannelErr.SessionInvalid), w).
Proof.
  intros Hl. unfold require_session, get_session_for_token, mbind, M_bind.
  destruct (String.eqb_spec token "") as [|Hne]; [done|]. unfold first_row, get_now, gets. simpl.
  destruct (head _) as [[i s]|] eqn:Hh; [|done]. apply first_row_some in Hh as [Hi Ht%String.eqb_eq]. simpl.
  destruct (cs_expires_at s <=? w_now w)%Z eqn:Hx; [done|]. destruct Hl. split; [done|].
  exists i, s. split_and!; [done..|lia].
Qed.

(** A token that is empty, unknown or expired neither writes nor reads: whatever is
    posted or asked for under it is refused, and the database stays as it is. *)
Theorem dead_session_refused token cmid body after w :
  ¬ live w token →
  chat_message_post token cmid body w = (inr (ApiError ChannelErr.SessionInvalid), w) ∧
  chat_message_get token after w = (inr (ApiError ChannelErr.SessionInvalid), w).
Proof.
  intros Hl. unfold chat_message_post, chat_message_get, or_api_error, attempt, mbind, M_bind.
  by rewrite require_dead.
Qed.
End Services.
