(* ===== verification/ChannelExamples.v ===== *)
(** * A day of the channels

    Concrete runs: a signed email becomes a message and a run of the agent, the agent's
    reply is routed back, and a visitor chats. *)

From stdpp Require Import base gmap strings list pretty sorting relations.
From Stdlib Require Import ZArith Ascii String Lia.
From S2P Require Import Prelude Json Domain Policy Models Store Delivery Network Schemas Adapters Integrations Webhooks Notifications Approvals ToolExec ToolSafety Graph Workspaces Conversations Tickets AgentRuns AgentSafety AgentOutcomes Chunking Knowledge AgentContext AgentFrame Scoring Ingress Channels IngressSafety EventProcessing ChannelSafety ChatHistory.

#[local] Open Scope nat_scope.

Module ChannelExamples.
#[local] Existing Instance default_settings.
#[local] Existing Instance trivial_pylib.
#[local] Existing Instance GraphExamples.text_encoding.
#[local] Existing Instance AgentExamples.net.
#[local] Existing Instance AgentExamples.encoding.
#[local] Existing Instance AgentExamples.providers.
#[local] Existing Instance example_pydantic.
#[local] Existing Instance example_vendors.

(** The one body that is JSON. *)
Definition email : list (string * json) :=
  [("event_id", JStr "e1"); ("from", JStr " Ann@Example.com"); ("body", JStr "Where is my order?");
   ("thread_id", JStr "t1"); ("subject", JStr "Order")].
#[local] Instance channel_lib : ChannelLib := {|
  json_loads s := if String.eqb s "email" then inr (JObj email) else inl ValueError;
  int_of_text s := Z.of_N <$> read_key s; parse_datetime _ := inr None;
  token_urlsafe n := "token" +:+ pretty n;
  uuid_of v := match v with JStr s => read_key s | _ => None end |}.

Lemma keys : keys_read_back.
Proof. exact read_pretty. Qed.

Definition endpoint (channel : ChannelType.t) (secret : string) : ChannelEndpoint := {|
  ce_workspace := 7; ce_channel := channel; ce_name := "support";
  ce_status := ChannelEndpointStatus.ACTIVE; ce_agent_version := 2; ce_integration_connection := None;
  ce_unknown_customer_policy := UnknownCustomerPolicy.CREATE; ce_encrypted_signing_secret := secret;
  ce_secret_created_at := None; ce_configuration := [] |}.
Definition mailbox : ChannelEndpoint := endpoint ChannelType.EMAIL "key".
Definition configured : World := in_outer (λ o, {| o with
  o_channel_endpoints := {[10%N := mailbox; 11%N := endpoint ChannelType.WEB_CHAT ""]} |}) ToolExamples.start.

Lemma channels_configured_ok : channel_state_ok configured.
Proof.
  assert (He : ∀ i e, w_channel_endpoints configured !! i = Some e → (i < w_next configured)%N).
  { intros i e Hi. cbn in Hi. apply lookup_insert_Some in Hi as [[<- _]|[_ Hi]]; [done|].
    by apply lookup_singleton_Some in Hi as [<- _]. }
  split; try done; try (by intros i ? Hi; cbn in Hi; rewrite lookup_empty in Hi);
    try (by intros i j ? ? _ Hi; cbn in Hi; rewrite lookup_empty in Hi).
Qed.

Lemma no_triggers : run_triggers_exist configured.
Proof.
  intros j r m Hj Hr. cbn in Hj. apply lookup_singleton_Some in Hj as [_ <-]. done.
Qed.

(** The sender's headers, at the second 1000. *)
Definition headers (name : string) : option string :=
  if String.eqb name "X-SupportPilot-Timestamp" then Some "1000"
  else if String.eqb name "X-SupportPilot-Signature" then Some (compute_signature "key" 1000 "email")
  else None.

(** The webhook, and a body the signature is not for. *)
Definition received : World := (inbound_webhook_post 10 "email" headers configured).2.
Definition answer (o : exn + ChannelResponse) : option (N + ChannelErr.t) :=
  match o with inr (Accepted i) => Some (inl i) | inr (ApiError e) => Some (inr e) | _ => None end.
Example signed_body_accepted : answer (inbound_webhook_post 10 "email" headers configured).1 = Some (inl 20%N).
Proof. vm_compute. reflexivity. Qed.
Example other_body_refused :
  answer (inbound_webhook_post 10 "forged" headers configured).1 = Some (inr ChannelErr.SignatureInvalid).
Proof. vm_compute. reflexivity. Qed.

Lemma webhook_events_are_signed_witness : ∃ o w',
  answer o = Some (inl 20%N) ∧ in_channels configured w' ∧ accepted 10 "email" headers configured o w'.
Proof.
  exists (inbound_webhook_post 10 "email" headers configured).1, received.
  split; [exact signed_body_accepted|].
  apply (webhook_events_are_signed 10 "email" headers configured
    (inbound_webhook_post 10 "email" headers configured).1 received channels_configured_ok).
  unfold received. by destruct (inbound_webhook_post _ _ _ _).
Defined.

(** The same event by a direct call. *)
Lemma ingest_dedupes_witness : ∃ w',
  ingest_channel_event 10 mailbox "e1" "d1" "ann@example.com" "Hello" "" None None configured
    = (inr 20%N, w') ∧
  ingest_channel_event 10 mailbox "e1" "d1" "bob@example.com" "Hi" "" None None w' = (inr 20%N, w').
Proof.
  exists (ingest_channel_event 10 mailbox "e1" "d1" "ann@example.com" "Hello" "" None None configured).2.
  assert (Hrun : ingest_channel_event 10 mailbox "e1" "d1" "ann@example.com" "Hello" "" None None configured
    = (inr 20%N, (ingest_channel_event 10 mailbox "e1" "d1" "ann@example.com" "Hello" "" None None configured).2))
    by (vm_compute; reflexivity).
  split; [exact Hrun|].
  pose proof (ingest_dedupes 10 mailbox "e1" "d1" "ann@example.com" "Hello" "" None None configured _ _
    channels_configured_ok eq_refl ltac:(intros [=]) Hrun) as (_ & _ & Hagain).
  exact (Hagain 20%N "bob@example.com" "Hi" "" None None eq_refl).
Defined.

(** A worker takes the event. *)
Definition handled : World := (process_inbound_channel_event 20 received).2.
Lemma received_step : channel_op configured received.
Proof. apply Op_webhook. Qed.
Lemma received_ok : channel_state_ok received.
Proof.
  exact (proj1 (channel_op_rel _ _ keys received_step channels_configured_ok)).
Qed.
Lemma received_triggers : run_triggers_exist received.
Proof.
  intros j r m Hj. assert (E : w_agent_runs received = w_agent_runs configured) by (vm_compute; reflexivity).
  rewrite E in Hj. intros Hr. destruct (no_triggers j r m Hj Hr) as [x Hx].
  assert (Em : w_messages configured = ∅) by (vm_compute; reflexivity). by rewrite Em, lookup_empty in Hx.
Qed.

Definition outcome (w : World) : option (InboundChannelEventStatus.t * option N) :=
  (λ e, (ie_status e, ie_message e)) <$> w_inbound_events w !! 20%N.
Example email_processed :
  outcome handled = Some (InboundChannelEventStatus.PROCESSED, Some 23%N) ∧
  (run_status <$> w_agent_runs handled !! 24%N) = Some AgentRunStatus.PENDING.
Proof. vm_compute. split; reflexivity. Qed.

Lemma inbound_event_processed_once_witness : ∃ o,
  o = inr InboundChannelEventStatus.PROCESSED ∧ processed 20 received o handled ∧
  in_channels received handled.
Proof.
  exists (inr InboundChannelEventStatus.PROCESSED). split; [reflexivity|].
  apply (inbound_event_processed_once 20 received _ handled keys received_ok received_triggers).
  - eexists. vm_compute. reflexivity.
  - assert (Ho : (process_inbound_channel_event 20 received).1 = inr InboundChannelEventStatus.PROCESSED)
      by (vm_compute; reflexivity).
    unfold handled. revert Ho. destruct (process_inbound_channel_event 20 received) as [o w'].
    cbn [fst snd]. intros ->. reflexivity.
Defined.

(** Nothing is sent in these examples. *)

(** The run's reply, and its way back. *)
Definition thread : Conversation := default
  {| cv_workspace := 0; cv_customer := 0; cv_channel := ""; cv_status := ConversationStatus.OPEN;
     cv_subject := ""; cv_assigned_to := None; cv_external_id := None; cv_last_message_at := None;
     cv_closed_at := None; cv_metadata := JNull |} (w_conversations handled !! 22%N).
Definition replied : World :=
  (create_ai_agent_message 7 22 thread "On its way." None (JObj []) handled).2.
Definition replying_run : AgentRun :=
  let r := ToolExamples.run in {| r with run_conversation := Some 22%N; run_output_message := Some 25%N |}.
Definition routed : World := (route_channel_response replying_run replied).2.

Lemma handled_ok : channel_state_ok handled.
Proof.
  assert (Hop : channel_op received handled) by exact (Op_process 20 received received_triggers).
  exact (proj1 (channel_op_rel _ _ keys Hop received_ok)).
Qed.

Lemma thread_loaded : loaded_conversation handled 22 thread.
Proof.
  assert (Hrow : w_conversations handled !! 22%N = Some thread) by (vm_compute; reflexivity).
  assert (Hok : conversations_ok handled) by apply handled_ok. destruct Hok as (_ & Hcs & _).
  destruct (Hcs 22%N thread Hrow) as (_ & Hcl & _). split; [exact Hcl|]. exists thread. split; [exact Hrow|reflexivity].
Qed.

Lemma replied_elsewhere : elsewhere handled replied.
Proof.
  split.
  - exact (within_create_message outer_frame 7 22 thread MessageSenderType.AI_AGENT
      MessageDirection.OUTBOUND "On its way." None None (JObj []) handled).
  - apply conversation_op_rel, Op_ai_agent, thread_loaded.
  - intros Hb. assert (Ec : w_customers replied = w_customers handled) by (vm_compute; reflexivity).
    rewrite Ec. eapply below_mono; [exact Hb|]. vm_compute. discriminate.
Qed.

Lemma replied_ok : channel_state_ok replied.
Proof. exact (proj1 (elsewhere_rel _ _ replied_elsewhere handled_ok)). Qed.

Definition reply : ChannelResponseDelivery := {|
  crd_delivery := 26; crd_endpoint := 10; crd_destination_address := "ann@example.com";
  crd_subject := "Order"; crd_body := "On its way."; crd_thread_reference := "10:t1";
  crd_idempotency_key := "channel_response:25"; crd_provider_message_id := "" |}.

Lemma response_routed_once_witness :
  response_ok routed 25 reply ∧
  (route_channel_response replying_run routed).2 = routed.
Proof.
  assert (Hrun : (route_channel_response replying_run replied).1 = inr (Some reply)) by (vm_compute; reflexivity).
  assert (Hpair : route_channel_response replying_run replied = (inr (Some reply), routed)).
  { unfold routed. revert Hrun. destruct (route_channel_response replying_run replied) as [o w'].
    cbn [fst snd]. intros ->. reflexivity. }
  destruct (response_routed_once replying_run replied reply routed replied_ok Hpair)
    as (_ & m & Hm & _ & Hok & Hagain). injection Hm as <-.
  split; [exact Hok|].
  destruct (Hagain routed replying_run (route_channel_response replying_run routed).1
    (route_channel_response replying_run routed).2) as [E _].
  - exact (reflexivity (R := rows_move response_evolves) (w_response_deliveries routed)).
  - reflexivity.
  - destruct (route_channel_response replying_run routed). reflexivity.
  - exact E.
Defined.

(** The whole day. *)
Lemma channels_in_order_witness :
  channel_state_ok routed ∧ channel_history configured handled ∧
  outcome routed = Some (InboundChannelEventStatus.PROCESSED, Some 23%N).
Proof.
  assert (Hto : rtc (channel_op) configured handled).
  { eapply rtc_l; [apply (Op_webhook 10 "email" headers configured)|].
    apply rtc_once. exact (Op_process 20 received received_triggers). }
  pose proof (channels_in_order configured handled keys Hto channels_configured_ok) as [_ Hh].
  assert (Hrest : channel_rel replied routed) by apply route_included.
  split; [exact (proj1 (Hrest replied_ok))|]. split; [exact Hh|]. vm_compute. reflexivity.
Defined.

(** The messages of the conversation, and what follows the first. *)
Definition visitor : ChatSession := {|
  cs_workspace := 7; cs_endpoint := 11; cs_customer := Some 21%N; cs_conversation := Some 22%N;
  cs_token_hash := "h"; cs_expires_at := 0; cs_last_seen_at := None |}.
Example history_of_thread :
  match (list_chat_messages visitor None replied).1, (list_chat_messages visitor (Some "23") replied).1 with
  | inr l, inr l' => Some (map (msg_body ∘ snd) l, map (msg_body ∘ snd) l')
  | _, _ => None
  end = Some (["Where is my order?"; "On its way."], ["On its way."]).
Proof. vm_compute. reflexivity. Qed.

Lemma chat_pages_continue_witness : ∃ history,
  StronglySorted (time_order msg_created_at) history ∧
  list_chat_messages visitor None replied
    = (inr (take CHANNEL_WEBCHAT_MESSAGE_HISTORY_LIMIT history), replied).
Proof.
  destruct (chat_pages_continue visitor 22 replied keys eq_refl) as (history & _ & Hs & _ & Hp & _).
  exists history. split; [exact Hs|exact Hp].
Defined.

Lemma dead_session_refused_witness :
  chat_message_post "guess" "m1" "Hello" configured
  = (inr (ApiError ChannelErr.SessionInvalid), configured).
Proof.
  apply (dead_session_refused "guess" "m1" "Hello" None configured).
  intros (_ & i & s & Hi & _). cbn in Hi. rewrite lookup_empty in Hi. discriminate.
Defined.
End ChannelExamples.
