(* ===== verification/IntegrationSafety.v ===== *)
(** * The tools keep to their workspace

    What the handlers of [IntegrationTools] write, whatever their arguments and
    whatever the providers answer: rows of the execution's own workspace, and nothing
    the gate, the runs, the evaluations, the channels or the knowledge base own.  This
    discharges what the theorems about the execution engine, the agents and the rest
    assume of a registry. *)

From stdpp Require Import base gmap strings list pretty.
From Stdlib Require Import ZArith SpecFloat Lia.
From S2P Require Import Prelude Json Domain Policy Models Store Delivery Network Schemas Adapters Integrations Webhooks Notifications Approvals ToolExec ToolSafety Graph Conversations Tickets IntegrationTools AgentRuns AgentSafety AgentOutcomes Knowledge KnowledgeSafety AgentFrame Scoring Evaluations EvaluationSafety Ingress Channels IngressSafety ChannelSafety.

(** ** The frame of a tool *)

(** The rows of a table that are not of the workspace: none appears, and none that was
    there at the time [n] changes. *)
Definition foreign_rows {A} (owner : A → N) (workspace n : N) (m m' : gmap N A) : Prop :=
  ∀ i a, owner a ≠ workspace →
    (m' !! i = Some a → m !! i = Some a) ∧ ((i < n)%N → m !! i = Some a → m' !! i = Some a).

Lemma foreign_rows_refl {A} (owner : A → N) ws n m : foreign_rows owner ws n m m.
Proof. intros i a _. by split. Qed.
Lemma foreign_rows_trans {A} (owner : A → N) ws n n' m1 m2 m3 :
  (n <= n')%N → foreign_rows owner ws n m1 m2 → foreign_rows owner ws n' m2 m3 →
  foreign_rows owner ws n m1 m3.
Proof.
  intros Hn H12 H23 i a Ha. destruct (H12 i a Ha), (H23 i a Ha). split; [auto|].
  intros Hi Hm. apply H23; [done|lia|]. auto.
Qed.
(** A row of the workspace is written over a row of the workspace, or where none was. *)
Lemma foreign_rows_insert {A} (owner : A → N) ws n m i (r : A) :
  owner r = ws → (∀ r0, (i < n)%N → m !! i = Some r0 → owner r0 = ws) →
  foreign_rows owner ws n m (<[i := r]> m).
Proof.
  intros Hr Hi j a Ha. split.
  - rewrite lookup_insert_Some. by intros [[-> ->]|[_ ?]].
  - intros Hj Hm. rewrite lookup_insert_ne; [done|]. intros ->. by apply Ha, (Hi a).
Qed.

Record tool_frame (context : ToolExecutionContext) (w w' : World) : Prop := {
  (** the tables it may write *)
  tf_shape : w' = {| w with
    w_tickets := w_tickets w'; w_integration_connections := w_integration_connections w';
    w_deliveries := w_deliveries w'; w_notification_deliveries := w_notification_deliveries w';
    w_flaky_attempts := w_flaky_attempts w'; w_audit := w_audit w';
    w_published := w_published w'; w_next := w_next w' |};
  tf_next : (w_next w <= w_next w')%N;
  (** in its workspace *)
  tf_tickets : foreign_rows tk_workspace (tx_workspace context) (w_next w)
                 (w_tickets w) (w_tickets w');
  tf_connections i c : ic_workspace c ≠ tx_workspace context →
    w_integration_connections w' !! i = Some c ↔ w_integration_connections w !! i = Some c;
  (** only new deliveries, all of the workspace *)
  tf_old_deliveries i : (i < w_next w)%N → w_deliveries w' !! i = w_deliveries w !! i;
  tf_new_deliveries i d : w_deliveries w' !! i = Some d →
    w_deliveries w !! i = Some d ∨
    (i < w_next w')%N ∧ dlv_workspace d = tx_workspace context;
  (** at most the notification of its own execution, once *)
  tf_notifications i : w_notification_deliveries w' !! i = w_notification_deliveries w !! i ∨
    i = tx_tool_execution context ∧ w_notification_deliveries w !! i = None;
  tf_flaky i : i ≠ tx_tool_execution context →
    w_flaky_attempts w' !! i = w_flaky_attempts w !! i;
  tf_audit : ∃ l, w_audit w' = w_audit w ++ l ∧
    Forall (λ e, ae_workspace e = Some (tx_workspace context)) l;
  tf_published : ∃ l, w_published w' = w_published w ++ l;
}.

#[export] Instance tool_frame_preorder context : PreOrder (tool_frame context).
Proof.
  split.
  - intros w. split; try (intros; first [by left|done|apply foreign_rows_refl]);
      [by destruct w|exists []; split; [by rewrite app_nil_r|done]|exists []; by rewrite app_nil_r].
  - intros w1 w2 w3 [S1 N1 T1 C1 O1 D1 M1 F1 (a1 & A1 & B1) (p1 & P1)]
      [S2 N2 T2 C2 O2 D2 M2 F2 (a2 & A2 & B2) (p2 & P2)]. split.
    + rewrite S2 at 1. by rewrite S1.
    + lia.
    + by apply (foreign_rows_trans _ _ _ (w_next w2) _ (w_tickets w2)).
    + intros i c Hc. rewrite C2 by done. by apply C1.
    + intros i Hi. rewrite O2 by lia. auto.
    + intros i d [Hd|[? ?]]%D2; [|by right]. destruct (D1 i d Hd) as [?|[? ?]]; [by left|].
      right. split; [lia|done].
    + intros i. destruct (M2 i) as [->|[-> Hi]]; [apply M1|]. right. split; [done|].
      destruct (M1 (tx_tool_execution context)) as [He|[_ ?]]; [by rewrite <-He|done].
    + intros i Hi. rewrite F2 by done. auto.
    + exists (a1 ++ a2). split; [by rewrite A2, A1, (assoc_L (++))|by apply Forall_app].
    + exists (p1 ++ p2). by rewrite P2, P1, (assoc_L (++)).
Qed.

Lemma integration_tool_frame context w w' :
  integration_frame (tx_workspace context) w w' → tool_frame context w w'.
Proof.
  intros (m & n & -> & Hn & Hm). split; simpl; try (intros; first [by left|done|apply foreign_rows_refl]).
  - intros i c Hc. by apply Hm.
  - exists []. split; [by rewrite app_nil_r|done].
  - exists []. by rewrite app_nil_r.
Qed.

(** ** The parts of a handler *)

Section Parts.
Context (context : ToolExecutionContext).

Lemma tool_fresh : included (tool_frame context) fresh.
Proof.
  intros w. apply integration_tool_frame. exists (w_integration_connections w), (N.succ (w_next w)).
  split; [by destruct w|]. split; [lia|done].
Qed.

(** Writes that leave the database alone. *)
Lemma tool_audit e w :
  ae_workspace e = Some (tx_workspace context) →
  tool_frame context w {| w with w_audit := w_audit w ++ [e] |}.
Proof.
  intros He. split; simpl; try (intros; first [by left|done|apply foreign_rows_refl]).
  - exists [e]. split; [done|]. by apply Forall_singleton.
  - exists []. by rewrite app_nil_r.
Qed.
Lemma tool_record a tt ti ac md :
  included (tool_frame context) (record_event a tt ti ac (Some (tx_workspace context)) md).
Proof. intros w. by apply tool_audit. Qed.
Lemma tool_record_on a tt ti ac md :
  included (tool_frame context) (record_event_on a tt ti ac (Some (tx_workspace context)) md).
Proof. unfold record_event_on. included_steps. intros w. by apply tool_audit. Qed.
Lemma tool_count_attempt n w :
  tool_frame context w
    {| w with w_flaky_attempts := <[tx_tool_execution context := n]> (w_flaky_attempts w) |}.
Proof.
  split; simpl; try (intros; first [by left|done|apply foreign_rows_refl]).
  - intros i Hi. by rewrite lookup_insert_ne.
  - exists []. split; [by rewrite app_nil_r|done].
  - exists []. by rewrite app_nil_r.
Qed.

(** A ticket of the workspace is saved over one of the workspace, or at a new key. *)
Lemma tool_save_ticket i t n w :
  tk_workspace t = tx_workspace context → (w_next w <= n)%N →
  (∀ t0, (i < w_next w)%N → w_tickets w !! i = Some t0 → tk_workspace t0 = tx_workspace context) →
  tool_frame context w (save_ticket i t {| w with w_next := n |}).2.
Proof.
  intros Ht Hn Hi. unfold save_ticket, raise_if. destruct (negb _); simpl;
    (split; simpl; try (intros; first [by left|done|by apply foreign_rows_insert|apply foreign_rows_refl]);
      [exists []; split; [by rewrite app_nil_r|done]|exists []; by rewrite app_nil_r]).
Qed.

Lemma tool_create_ticket `{PyLib} customer_id customer subject description priority conv due md :
  included (tool_frame context)
    (create_ticket (tx_workspace context) customer_id customer subject description priority conv
       due md).
Proof.
  unfold create_ticket. included_step. included_step; [included_step|].
  included_step; [included_step|]. intros w. unfold mbind, M_bind, fresh. simpl.
  match goal with |- context [save_ticket ?i ?t ?w1] =>
    assert (tool_frame context w (save_ticket i t w1).2) as Hs
      by (apply tool_save_ticket; [done|lia..]);
    revert Hs; destruct (save_ticket i t w1) as [[e|[]] w2]
  end; done.
Qed.

(** An update of a ticket that was just read from the workspace. *)
Lemma tool_ticket_update `{PyLib} i t actor priority status note w :
  w_tickets w !! i = Some t → tk_workspace t = tx_workspace context →
  tool_frame context w
    (apply_agent_ticket_update (tx_workspace context) i t actor priority status note w).2.
Proof.
  intros Hi Hw.
  assert (∀ t', tk_workspace t' = tx_workspace context →
    tool_frame context w (save_ticket i t' w).2) as Hsave.
  { intros t' Ht'. replace w with {| w with w_next := w_next w |} at 2 by (by destruct w).
    apply tool_save_ticket; [done|lia|]. intros t0 _ Ht0. by simplify_eq. }
  assert (tk_workspace (annotated_ticket priority note t) = tx_workspace context) as Ha.
  { unfold annotated_ticket. by repeat case_match. }
  unfold apply_agent_ticket_update, atomic. destruct status as [s|].
  2:{ specialize (Hsave _ Ha). by destruct (save_ticket _ _ w) as [[]]. }
  case_bool_decide; [specialize (Hsave _ Ha); by destruct (save_ticket _ _ w) as [[]]|].
  unfold mbind, M_bind, raise_if, get_now, gets. destruct (negb _); [reflexivity|]. simpl.
  match goal with |- context [save_ticket i ?t' w] =>
    specialize (Hsave t' Ha); destruct (save_ticket i t' w) as [[e|[]] w1] end; [reflexivity|].
  simpl in *. trans w1; [done|]. by apply tool_audit.
Qed.

Lemma tool_notification `{Settings} recipient subject body :
  included (tool_frame context)
    (create_or_reuse_notification_delivery (tx_tool_execution context) (tx_workspace context)
       recipient subject body).
Proof.
  intros w. unfold create_or_reuse_notification_delivery, find_row, gets, mbind, M_bind. simpl.
  destruct (w_notification_deliveries w !! tx_tool_execution context) eqn:Hn; [reflexivity|].
  unfold create_delivery, or_now, get_now, gets, atomic, raise_if, mbind, M_bind. simpl.
  destruct (_ <=? 0)%Z; [reflexivity|]. simpl.
  (* the delivery, with and without the row that describes it *)
  match goal with |- context [<[w_next w := ?row]>] =>
    assert (∀ nd p, (∀ i, nd !! i = w_notification_deliveries w !! i ∨
                          i = tx_tool_execution context ∧ w_notification_deliveries w !! i = None) →
      tool_frame context w {| w with
        w_next := N.succ (w_next w); w_deliveries := <[w_next w := row]> (w_deliveries w);
        w_notification_deliveries := nd; w_published := w_published w ++ [p] |}) as Hframe
  end.
  { intros nd p Hnd. split; simpl; try (intros; first [by left|done|apply foreign_rows_refl|lia]).
    - intros i Hi. rewrite lookup_insert_ne by lia. done.
    - intros i d [[<- <-]|[_ ?]]%lookup_insert_Some; [right; split; [lia|done]|by left].
    - exists []. split; [by rewrite app_nil_r|done].
    - by exists [p]. }
  destruct (String.eqb recipient ""); simpl; apply Hframe; intros i; [by left|].
  destruct (decide (i = tx_tool_execution context)) as [->|?]; [by right|left].
  by rewrite lookup_insert_ne.
Qed.
End Parts.

(** ** The handlers *)

Section Handlers.
Context `{Settings} `{PyLib} `{Network} `{Pydantic} `{Vendors} `{KeyLib}.

Context (context : ToolExecutionContext).
Abbreviation R := (tool_frame context).

Lemma get_row_read {A} `{Table A} i : included R (get_row (A := A) i).
Proof. unfold get_row, find_row. included_steps. Qed.
Lemma first_row_read {A} `{Table A} P : included R (first_row (A := A) P).
Proof. unfold first_row. included_steps. Qed.
Lemma customer_read ws id : included R (customer_get_by_id_for_workspace ws id).
Proof. unfold customer_get_by_id_for_workspace, first_row. included_steps. Qed.
Lemma customer_by_email_read ws e : included R (customer_get_by_email_for_workspace ws e).
Proof. apply first_row_read. Qed.
Lemma customer_by_reference_read ws e : included R (customer_get_by_external_id_for_workspace ws e).
Proof. apply first_row_read. Qed.
Lemma remaining_read c : included R (remaining_seconds c).
Proof. unfold remaining_seconds, get_now. included_steps. Qed.
Lemma horizon_read m : included R (within_scheduling_horizon m).
Proof. unfold within_scheduling_horizon, get_now. included_steps. Qed.
Lemma actor_read c : included R (actor_of c).
Proof. unfold actor_of, find_row. included_steps. Qed.
Lemma returns_read output values : included R (returns output values).
Proof. unfold returns. included_steps. Qed.
Lemma summary_read i : included R (ticket_summary i).
Proof. unfold ticket_summary. included_step; [apply get_row_read|apply returns_read]. Qed.
Lemma as_tool_error_included {A} (m : service A) : included R m → included R (as_tool_error m).
Proof. intros Hm. unfold as_tool_error. included_steps. Qed.

(** The workspace of the context, once it is known to exist. *)
Lemma in_workspace_included {A} (k : N → service A) :
  included (tool_frame context) (k (tx_workspace context)) →
  included (tool_frame context) (require_workspace context ≫= k).
Proof.
  intros Hk w. unfold require_workspace, get_row, find_row, gets, or_raise, mbind, M_bind. simpl.
  by destruct (w_workspaces w !! tx_workspace context); [apply Hk|].
Qed.

Lemma tool_integration {A} (m : service A) :
  included (integration_frame (tx_workspace context)) m → included (tool_frame context) m.
Proof. intros Hm w. apply integration_tool_frame, Hm. Qed.
Lemma tool_get_payment t a : included (tool_frame context) (get_payment (tx_workspace context) t a).
Proof. apply tool_integration, business_operations_framed. Qed.
Lemma tool_refund t a b c d e :
  included (tool_frame context) (refund_payment (tx_workspace context) t a b c d e).
Proof. apply tool_integration, business_operations_framed. Qed.
Lemma tool_availability t a b :
  included (tool_frame context) (get_availability (tx_workspace context) t a b).
Proof. apply tool_integration, business_operations_framed. Qed.
Lemma tool_booking t a b c d e :
  included (tool_frame context) (create_booking (tx_workspace context) t a b c d e).
Proof. apply tool_integration, business_operations_framed. Qed.
Lemma tool_get_order t a : included (tool_frame context) (get_order (tx_workspace context) t a).
Proof. apply tool_integration, business_operations_framed. Qed.
Lemma tool_get_shipment t a : included (tool_frame context) (get_shipment (tx_workspace context) t a).
Proof. apply tool_integration, business_operations_framed. Qed.
Lemma tool_configured :
  included (tool_frame context) (ensure_notification_provider_configured (tx_workspace context)).
Proof.
  unfold ensure_notification_provider_configured. included_step; [|included_step].
  apply tool_integration, ensure_configured_framed.
Qed.

Hint Resolve get_row_read first_row_read customer_read customer_by_email_read
  customer_by_reference_read remaining_read horizon_read actor_read returns_read summary_read
  tool_get_payment tool_refund tool_availability tool_booking tool_get_order tool_get_shipment
  tool_configured tool_record tool_record_on tool_create_ticket tool_notification : included.

Ltac handler_step :=
  lazymatch goal with
  | |- included _ (require_workspace _ ≫= _) => apply in_workspace_included
  | |- included _ (as_tool_error _) => apply as_tool_error_included
  | |- included _ (let _ := _ in _) => cbv zeta
  | |- included _ (get_row _) => apply get_row_read
  | |- _ => included_step
  end.
Ltac handler_steps := repeat handler_step.

Lemma lookups_framed arguments :
  included (tool_frame context) (customer_lookup_handler context arguments) ∧
  included (tool_frame context) (order_lookup_handler context arguments) ∧
  included (tool_frame context) (shipment_lookup_handler context arguments) ∧
  included (tool_frame context) (payment_lookup_handler context arguments) ∧
  included (tool_frame context) (calendar_availability_handler context arguments).
Proof.
  unfold customer_lookup_handler, order_lookup_handler, shipment_lookup_handler,
    payment_lookup_handler, calendar_availability_handler.
  split_and!; handler_steps.
Qed.

Lemma writes_framed arguments :
  included (tool_frame context) (payment_refund_handler context arguments) ∧
  included (tool_frame context) (calendar_booking_handler context arguments) ∧
  included (tool_frame context) (ticket_create_handler context arguments) ∧
  included (tool_frame context) (notification_send_handler context arguments).
Proof.
  unfold payment_refund_handler, calendar_booking_handler, ticket_create_handler,
    notification_send_handler.
  split_and!; handler_steps.
Qed.

(** The ticket is the one of the workspace that was just read. *)
Lemma ticket_in_workspace ws text w :
  wp (ticket_get_by_id_for_workspace ws text) (λ r w', w' = w ∧
    ∀ i t, r = inr (Some (i, t)) → w_tickets w !! i = Some t ∧ tk_workspace t = ws) w.
Proof.
  unfold ticket_get_by_id_for_workspace. destruct (String.eqb text ""); [by split|].
  destruct (uuid_of_text text); [|by split]. apply wp_first_row. split; [done|].
  intros i t [= Hh]. apply first_row_some in Hh as [Hi Hp].
  apply andb_true_iff in Hp as [Hp _]. by apply bool_decide_eq_true in Hp.
Qed.

Lemma ticket_update_framed arguments : included R (ticket_update_handler context arguments).
Proof.
  unfold ticket_update_handler. apply in_workspace_included. intros w.
  match goal with |- R w (?m w).2 => change (wp m (λ _, R w) w) end.
  apply wp_bind. eapply wp_mono; [apply ticket_in_workspace|]. intros [e|o] w' [-> Ho]; wp_beta;
    [reflexivity|].
  destruct o as [[i t]|]; [|apply wp_bind, wp_raise; wp_beta; reflexivity]. destruct (Ho i t eq_refl) as [Hi Ht].
  apply wp_bind. cbn [or_raise]. apply wp_ret. wp_beta. cbn [fst snd].
  apply wp_bind_rel; [apply _| |intros _ w1; apply (summary_read i)].
  match goal with |- wp (catch ?m ?h) _ _ => assert (R w (m w).2) as Hm end.
  { unfold mbind, M_bind. destruct (actor_of context w) as [r w1] eqn:Ha.
    assert (w1 = w) as ->.
    { unfold actor_of, find_row, gets, mbind, M_bind in Ha. destruct (tx_actor_user context); by injection Ha. }
    destruct r; [reflexivity|]. by apply tool_ticket_update. }
  unfold wp, catch. match goal with |- context [match ?m w with _ => _ end] =>
    destruct (m w) as [[e|[]] w1] end; [|done]. simpl in Hm. etrans; [exact Hm|].
  destruct e; reflexivity.
Qed.

Lemma demos_framed arguments :
  included R (echo_handler context arguments) ∧ included R (add_handler context arguments) ∧
  included R (flaky_handler context arguments).
Proof.
  unfold echo_handler, add_handler, flaky_handler, get_now. split_and!; handler_steps.
  intros w. apply tool_count_attempt.
Qed.

(** ** The registry *)

Lemma register_all_in l m k t : register_all l m !! k = Some t → t ∈ l ∨ m !! k = Some t.
Proof.
  revert m. induction l as [|x l IH]; intros m; [by right|]. intros [?|Hk]%IH; [left; by right|].
  revert Hk. unfold register_missing, register. case_bool_decide; [by right|].
  intros [[_ <-]|[_ ?]]%lookup_insert_Some; [left; left|by right].
Qed.

Lemma registry_in key tool :
  registry key = Some tool → tool ∈ ALL_INTEGRATION_TOOLS ++ [ECHO_TOOL; ADD_TOOL; FLAKY_TOOL].
Proof.
  unfold registry, registered_tools. intros Hk. apply elem_of_app.
  apply register_all_in in Hk as [Ht|Hk]; [by left|]. right.
  apply register_all_in in Hk as [Ht|Hk]; [done|]. by rewrite lookup_empty in Hk.
Qed.

Definition framed_tool (t : Tool) : Prop :=
  ∀ arguments, included R (handler t context arguments).

Lemma tools_framed : Forall framed_tool (ALL_INTEGRATION_TOOLS ++ [ECHO_TOOL; ADD_TOOL; FLAKY_TOOL]).
Proof.
  pose proof lookups_framed as Hl. pose proof writes_framed as Hw. pose proof demos_framed as Hd.
  repeat apply Forall_cons_2; try apply Forall_nil_2; intros arguments.
  - exact (proj1 (Hl arguments)).
  - exact (proj1 (proj2 (Hl arguments))).
  - exact (proj1 (proj2 (proj2 (Hl arguments)))).
  - exact (proj1 (proj2 (proj2 (proj2 (Hl arguments))))).
  - exact (proj1 (Hw arguments)).
  - exact (proj2 (proj2 (proj2 (proj2 (Hl arguments))))).
  - exact (proj1 (proj2 (Hw arguments))).
  - exact (proj1 (proj2 (proj2 (Hw arguments)))).
  - exact (ticket_update_framed arguments).
  - exact (proj2 (proj2 (proj2 (Hw arguments)))).
  - exact (proj1 (Hd arguments)).
  - exact (proj1 (proj2 (Hd arguments))).
  - exact (proj2 (proj2 (Hd arguments))).
Qed.

Lemma registered_framed key tool arguments :
  registry key = Some tool → included R (handler tool context arguments).
Proof.
  intros Ht%registry_in. exact (proj1 (Forall_forall _ _) tools_framed tool Ht arguments).
Qed.
End Handlers.

(** ** The interfaces of the rest *)

Section Interfaces.
Context (context : ToolExecutionContext) (w w' : World) (Hf : tool_frame context w w').

Ltac untouched := rewrite (tf_shape _ _ _ Hf); reflexivity.

Lemma tool_gate_frame : gate_frame w w'.
Proof.
  unfold gate_frame. split_and!; [untouched..|apply Hf|].
  assert (w_webhook_deliveries w' = w_webhook_deliveries w) as Hwd by untouched.
  pose proof (tf_next _ _ _ Hf) as Hn. intros [Hk He].
  split; [|rewrite Hwd; intros i wd Hi; specialize (He i wd Hi); lia].
  intros i Hi. rewrite Hwd. destruct (Hk i) as [Hd ?]; [lia|]. split; [|done].
  destruct (w_deliveries w' !! i) as [d|] eqn:Hd'; [|done].
  destruct (tf_new_deliveries _ _ _ Hf i d Hd') as [?|[? ?]]; [congruence|lia].
Qed.

Lemma tool_core_frame : core_frame w w'.
Proof. unfold core_frame. split_and!; [untouched..|apply Hf]. Qed.

Lemma tool_outer_frame : outer_frame w w'.
Proof. split; [untouched|apply Hf]. Qed.

Lemma tool_channel_frame : channel_frame w w'.
Proof. split; first [untouched|apply Hf]. Qed.

Lemma tool_knowledge_frame : knowledge_frame w w'.
Proof. unfold knowledge_frame. split_and!; [untouched..|apply Hf]. Qed.
End Interfaces.

Section Shipped.
Context `{Settings} `{PyLib} `{Network} `{Pydantic} `{Vendors} `{KeyLib}.

(** C6. Whatever its arguments and whatever the providers answer, a tool the back end
    registers acts in the workspace of its execution: it changes no ticket and no
    connection of another workspace and adds none, its deliveries and its audit events
    are of the workspace, it writes no notification but its own execution's, and only
    once, and no other table at all. *)
Theorem tools_stay_in_workspace key tool context arguments :
  registry key = Some tool → included (tool_frame context) (handler tool context arguments).
Proof. apply registered_framed. Qed.

(** The registry the back end ships is one of those the theorems about the execution
    engine, the agents, the evaluations, the channels and the knowledge base are about:
    its handlers leave alone what each of these components relies on. *)
Theorem shipped_registry_allowed :
  registry_frame registry ∧ handlers_allowed registry ∧
  ∀ key tool context arguments, registry key = Some tool →
    included eval_rel (handler tool context arguments) ∧
    included channel_rel (handler tool context arguments) ∧
    included knowledge_rel (handler tool context arguments).
Proof.
  split_and!; [| |intros key tool context arguments Ht; split_and!]; try intros key tool context arguments Ht;
    intros w; pose proof (registered_framed context key tool arguments Ht w) as Hf.
  - by eapply tool_gate_frame.
  - eapply core_sub, tool_core_frame, Hf.
  - eapply within_sub, tool_outer_frame, Hf.
  - eapply channel_frame_rel, tool_channel_frame, Hf.
  - eapply frame_rel, tool_knowledge_frame, Hf.
Qed.
End Shipped.

(** ** A ticket for a customer *)

Module ToolShop.
#[local] Existing Instance default_settings.
#[local] Existing Instance trivial_pylib.
#[local] Existing Instance ToolExamples.net.
#[local] Existing Instance example_pydantic.
#[local] Existing Instance example_vendors.
#[local] Instance keylib : KeyLib := {| uuid_of_text := read_key |}.

Lemma keys_back : texts_read_back.
Proof. exact read_pretty. Qed.

Definition customer (workspace : N) : Customer := {|
  cu_workspace := workspace; cu_external_id := None; cu_first_name := "Ann"; cu_last_name := "";
  cu_display_name := "Ann"; cu_email := Some "ann@example.com"; cu_phone := None; cu_company := "";
  cu_notes := ""; cu_metadata := JObj []; cu_is_active := true |}.
Definition ticket (workspace customer_id : N) : Ticket := {|
  tk_workspace := workspace; tk_customer := customer_id; tk_conversation := None;
  tk_subject := "Late parcel"; tk_description := ""; tk_status := TicketStatus.OPEN;
  tk_priority := TicketPriority.NORMAL; tk_assigned_to := None; tk_due_at := None;
  tk_resolved_at := None; tk_metadata := JObj [] |}.

(** Two workspaces, with a customer and a ticket each. *)
Definition shop : World := {| empty_world with
  w_next := 50;
  w_workspaces := {[ 7%N := {| ws_name := "Shop"; ws_slug := "shop"; ws_is_active := true |};
                     8%N := {| ws_name := "Other"; ws_slug := "other"; ws_is_active := true |} ]};
  w_customers := {[ 30%N := customer 7; 31%N := customer 8 ]};
  w_tickets := {[ 40%N := ticket 7 30; 41%N := ticket 8 31 ]} |}.
Definition context : ToolExecutionContext := {|
  tx_workspace := 7; tx_tool_execution := 9; tx_deadline := 2000000000; tx_agent_run := 4;
  tx_agent_version := 2; tx_actor_user := None |}.

Definition new_ticket : list (string * json) :=
  [("customer_id", JStr "30"); ("subject", JStr "Broken cup"); ("description", JStr "");
   ("priority", JNull)].
Definition update (ticket_id : string) : list (string * json) :=
  [("ticket_id", JStr ticket_id); ("status", JStr "resolved"); ("priority", JNull);
   ("note", JStr "done")].

Example ticket_created :
  tk_subject <$> w_tickets (ticket_create_handler context new_ticket shop).2 !! 50%N
  = Some "Broken cup".
Proof. vm_compute. reflexivity. Qed.
(** The ticket of the other workspace does not exist for the tool. *)
Example other_ticket_unknown :
  ticket_update_handler context (update "41") shop
  = (inl (tool_error_of IntegrationErr.TicketNotFound), shop).
Proof. vm_compute. reflexivity. Qed.
Example own_ticket_resolved :
  tk_status <$> w_tickets (ticket_update_handler context (update "40") shop).2 !! 40%N
  = Some TicketStatus.RESOLVED.
Proof. vm_compute. reflexivity. Qed.

Lemma tools_stay_in_workspace_witness :
  tool_frame context shop (handler TICKET_CREATE_TOOL context new_ticket shop).2.
Proof.
  apply (tools_stay_in_workspace "ticket.create" TICKET_CREATE_TOOL context new_ticket).
  reflexivity.
Defined.
End ToolShop.
