(* ===== verification/ProviderSafety.v ===== *)
(** * The providers, kept in order

    What the connections of a workspace, their credentials and the calls through them
    promise: identity and uniqueness of the rows, the health a call records, the limits
    of a call's time, credentials that outlive the rotation of the keys, and arguments
    that an approval can be checked against. *)

From stdpp Require Import base gmap strings list pretty relations countable.
From Stdlib Require Import ZArith SpecFloat Lia.
From S2P Require Import Prelude Json Domain Policy Models Store Delivery Network Schemas Adapters Integrations Notifications ToolExec ToolSafety Conversations Tickets IntegrationTools IntegrationSafety.

(** ** The time of a call *)

Section Timeouts.

Lemma SFltb_trans x y z : SFltb x y = true → SFltb y z = true → SFltb x z = true.
Proof.
  unfold SFltb, SFcompare. destruct x as [[]|[]| |[] mx ex], y as [[]|[]| |[] my ey], z as [[]|[]| |[] mz ez];
    try done; simpl; destruct (Z.compare_spec ex ey), (Z.compare_spec ey ez), (Z.compare_spec ex ez);
    try done; try lia;
    change (PosDef.Pos.compare_cont Eq mx my) with (Pos.compare mx my);
    change (PosDef.Pos.compare_cont Eq my mz) with (Pos.compare my mz);
    change (PosDef.Pos.compare_cont Eq mx mz) with (Pos.compare mx mz);
    destruct (Pos.compare_spec mx my), (Pos.compare_spec my mz), (Pos.compare_spec mx mz);
    simpl; (done || lia).
Qed.
Lemma SFltb_asym x y : SFltb x y = true → SFltb y x = false.
Proof.
  unfold SFltb, SFcompare. destruct x as [[]|[]| |[] mx ex], y as [[]|[]| |[] my ey];
    try done; simpl; destruct (Z.compare_spec ex ey), (Z.compare_spec ey ex); try done; try lia;
    change (PosDef.Pos.compare_cont Eq mx my) with (Pos.compare mx my);
    change (PosDef.Pos.compare_cont Eq my mx) with (Pos.compare my mx);
    destruct (Pos.compare_spec mx my), (Pos.compare_spec my mx); simpl; (done || lia).
Qed.
Lemma SFltb_irrefl x : SFltb x x = false.
Proof. destruct (SFltb x x) eqn:Hx; [|done]. by apply SFltb_asym in Hx as Hy; rewrite Hx in Hy. Qed.

(** The smaller of two is not above either, and neither is anything below it. *)
Lemma py_min_spec a b :
  (py_min a b = a ∧ SFltb b a = false) ∨ (py_min a b = b ∧ SFltb b a = true).
Proof. unfold py_min. destruct (SFltb b a); auto. Qed.
Lemma py_max_spec a b :
  (py_max a b = a ∧ SFltb a b = false) ∨ (py_max a b = b ∧ SFltb a b = true).
Proof. unfold py_max. destruct (SFltb a b); auto. Qed.

Context `{Settings}.

Lemma between_same p x m :
  let f := S754_finite false p x in
  SFltb f m = false → SFltb m f = false → m = f ∨ m = S754_nan.
Proof.
  unfold SFltb, SFcompare. destruct m as [[]|[]| |[] m e]; try done; simpl; auto.
  rewrite (Z.compare_antisym e x). destruct (Z.compare_spec e x) as [->|?|?]; try done. simpl.
  change (PosDef.Pos.compare_cont Eq p m) with (Pos.compare p m).
  change (PosDef.Pos.compare_cont Eq m p) with (Pos.compare m p).
  rewrite (Pos.compare_antisym m). by destruct (Pos.compare_spec m p) as [->|?|?]; auto.
Qed.
Lemma half_second_between m :
  SFltb half_second m = false → SFltb m half_second = false → m = half_second ∨ m = S754_nan.
Proof. apply between_same. Qed.

(** A provider is never given less than half a second, and, unless it is given just
    that, no more than the default and the maximum of the settings and than half a
    second less than what the execution has left. *)
Theorem provider_timeout_bounded remaining :
  let t := effective_provider_timeout remaining in
  SFltb t half_second = false ∧
  (t = half_second ∨
   SFltb INTEGRATIONS_DEFAULT_TIMEOUT_SECONDS t = false ∧
   SFltb INTEGRATIONS_MAX_TIMEOUT_SECONDS t = false ∧
   SFltb (SFsub 53 1024 remaining half_second) t = false).
Proof.
  intros t. unfold t, effective_provider_timeout, MIN_PROVIDER_TIMEOUT_SECONDS.
  set (D := INTEGRATIONS_DEFAULT_TIMEOUT_SECONDS). set (M := INTEGRATIONS_MAX_TIMEOUT_SECONDS).
  set (r := SFsub _ _ _ _).
  destruct (py_max_spec (py_min (py_min D M) (py_max r half_second)) half_second)
    as [[-> Hb]|[-> _]]; [|by split; [apply SFltb_irrefl|left]].
  split; [done|]. revert Hb.
  destruct (py_min_spec (py_min D M) (py_max r half_second)) as [[-> H1]|[-> H1]];
    destruct (py_max_spec r half_second) as [[Ex H2]|[Ex H2]]; rewrite ?Ex in H1; rewrite ?Ex; intros Hb;
    [| |right|by left].
  - right. revert H1. destruct (py_min_spec D M) as [[-> H3]|[-> H3]]; intros H1;
      auto using SFltb_irrefl, SFltb_asym.
  - destruct (half_second_between (py_min D M)) as [->|Hn]; [done..|by left|]. right. rewrite Hn.
    unfold SFltb, SFcompare. repeat split; by repeat case_match.
  - revert H1. destruct (py_min_spec D M) as [[-> H3]|[-> H3]]; intros H1.
    + split_and!; [by apply SFltb_asym| |apply SFltb_irrefl].
      destruct (SFltb M r) eqn:Hm; [|done]. by rewrite (SFltb_trans _ _ _ Hm H1) in H3.
    + split_and!; [|by apply SFltb_asym|apply SFltb_irrefl].
      apply SFltb_asym. by apply (SFltb_trans _ M).
Qed.

End Timeouts.

(** ** Credentials outlive the rotation of the keys *)

Section Rotation.
Context `{Network}.
(** Fernet: a token is not empty, and only the key that made it reads it. *)
Context (token_nonempty : ∀ k s, fernet_encrypt k s ≠ "").
Context (reads_back : ∀ k s, fernet_decrypt k (fernet_encrypt k s) = Some s).
Context (authentic : ∀ k k' s, k' ≠ k → fernet_decrypt k' (fernet_encrypt k s) = None).

Lemma first_decryption_in k s keys :
  k ∈ keys → first_decryption keys (fernet_encrypt k s) = Some s.
Proof.
  induction keys as [|k' keys IH]; [by intros ?%elem_of_nil|]. intros Hk. simpl.
  destruct (decide (k' = k)) as [->|Hne]; [by rewrite reads_back|].
  rewrite authentic by done. apply IH. by apply elem_of_cons in Hk as [->|?].
Qed.
Lemma first_decryption_out k s keys :
  k ∉ keys → first_decryption keys (fernet_encrypt k s) = None.
Proof.
  induction keys as [|k' keys IH]; [done|]. intros [Hk Hks]%not_elem_of_cons. simpl.
  rewrite authentic by done. by apply IH.
Qed.

(** What was encrypted under a list of keys is read back under every list of keys that
    still contains its first key, wherever new keys are put, and under no other. *)
Theorem credentials_survive_rotation old keys data data' token :
  encrypt_with old data = Some token → parse_plaintext (json_dumps (JObj data)) = Some (JObj data') →
  forallb fernet_key keys = true →
  (∀ k, head old = Some k → k ∈ keys → decrypt_with keys token = Some data') ∧
  (∀ k, head old = Some k → k ∉ keys → decrypt_with keys token = None).
Proof.
  intros Ht Hp Hkeys.
  assert (∃ k, head old = Some k ∧ token = fernet_encrypt k (json_dumps (JObj data))) as (k & Hk & ->).
  { unfold encrypt_with in Ht. destruct old as [|k old]; [done|]. unfold multi_fernet in Ht.
    destruct (forallb fernet_key (k :: old)); [|done]. exists k. split; [done|]. by injection Ht. }
  unfold decrypt_with. rewrite (proj2 (String.eqb_neq _ _)) by apply token_nonempty.
  rewrite Hk. split; intros ? [= <-] Hin.
  - unfold multi_fernet. destruct keys as [|k0 keys]; [by apply elem_of_nil in Hin|].
    rewrite Hkeys. cbn [mbind option_bind]. rewrite first_decryption_in by done. cbn. by rewrite Hp.
  - unfold multi_fernet. destruct keys as [|k0 keys]; [done|]. rewrite Hkeys. cbn [mbind option_bind].
    by rewrite first_decryption_out.
Qed.
End Rotation.

(** ** Approved arguments *)

Lemma str_map_map f g h s : (∀ c, g (f c) = h c) → str_map g (str_map f s) = str_map h s.
Proof. intros Hf. induction s as [|c s IH]; [done|]. simpl. by rewrite Hf, IH. Qed.
Lemma str_upper_upper s : str_upper (str_upper s) = str_upper s.
Proof.
  apply str_map_map. intros c. by destruct c as [[] [] [] [] [] [] [] []].
Qed.
Lemma str_map_length f s : String.length (str_map f s) = String.length s.
Proof. induction s as [|c s IH]; [done|]. simpl. by rewrite IH. Qed.

(** A value [redact] leaves as it is. *)
Definition leaf (v : json) : bool := match v with JList _ | JObj _ => false | _ => true end.

Definition plain_check (check : json → option json) : Prop :=
  ∀ v v', check v = Some v' → leaf v' = true.
Record plain_field (f : field) : Prop := {
  plain_name : Redaction.hides [] (f_name f) = false;
  plain_value : plain_check (f_check f);
  plain_default d : f_default f = Some d → leaf d = true;
}.

Lemma redact_plain fields data d :
  Forall plain_field fields → check_fields fields data = Some d →
  Redaction.redact [] (JObj d) = JObj d.
Proof.
  intros Hf Hd. rewrite Redaction.redact_obj. f_equal. revert d Hd.
  induction Hf as [|f fields [Hname Hval Hdef] _ IH]; intros d; simpl; [by intros [= <-]|].
  destruct (check_field data f) as [v|] eqn:Hv; simpl; [|done].
  destruct (check_fields fields data) as [l|]; simpl; [|done]. intros [= <-]. simpl.
  rewrite (IH l eq_refl), Hname. do 2 f_equal.
  assert (leaf v = true) as Hl.
  { revert Hv. unfold check_field. destruct (obj_get _ data); [apply Hval|apply Hdef]. }
  by destruct v.
Qed.

(** A model whose documents can be stored redacted and validated again. *)
Definition storable (model : json → option document) : Prop := ∀ v d, model v = Some d →
  Redaction.redact [] (JObj d) = JObj d ∧ model (JObj d) = Some d.

Section Storable.
Context `{PydanticLaws}.

Lemma storable_model fields :
  Forall stable_field fields → Forall plain_field fields → NoDup (map f_name fields) →
  storable (validate_model fields).
Proof.
  intros Hs Hp Hn v d Hd. split; [|by apply (validate_model_stable fields v)].
  unfold validate_model in Hd. destruct v; try done. destruct (forallb _ _); [|done].
  by apply (redact_plain fields l).
Qed.
Lemma storable_with fields valid :
  Forall stable_field fields → Forall plain_field fields → NoDup (map f_name fields) →
  storable (validate_with fields valid).
Proof.
  intros Hs Hp Hn v d Hd. split; [|by apply (validate_with_stable fields valid v)].
  unfold validate_with in Hd. apply bind_Some in Hd as (d' & Hd' & Hd).
  destruct (valid d'); [|done]. injection Hd as ->. by apply (storable_model fields Hs Hp Hn v).
Qed.

Lemma check_currency_stable : stable_check check_currency.
Proof.
  intros v v'. unfold check_currency. destruct v as [| | | |s| |]; try done. simpl.
  destruct (_ && _) eqn:Hl; [|done]. intros [= <-]. simpl.
  unfold str_upper at 1 2. rewrite str_map_length, Hl. by rewrite str_upper_upper.
Qed.

Lemma plain_str a b : plain_check (check_str a b).
Proof. intros [| | | |s| |] v'; try done. simpl. destruct (_ && _); [|done]. by intros [= <-]. Qed.
Lemma plain_currency : plain_check check_currency.
Proof.
  intros v v'. unfold check_currency. destruct (check_str 3 3 v) as [[]|]; try done.
  by intros [= <-].
Qed.
Lemma plain_choice l : plain_check (check_choice l).
Proof. intros [| | | |s| |] v'; try done. simpl. destruct (str_in _ _); [|done]. by intros [= <-]. Qed.
Lemma plain_email : plain_check check_email.
Proof. intros [| | | |s| |] v'; try done. simpl. destruct (validate_email _); [|done]. by intros [= <-]. Qed.
Lemma plain_int a b : plain_check (check_int a b).
Proof.
  intros v v'. unfold check_int. intros (z & _ & Hz)%bind_Some. destruct (_ && _); [|done].
  by injection Hz as <-.
Qed.
Lemma plain_datetime : plain_check check_datetime.
Proof. intros v v' (m & _ & ->)%fmap_Some. done. Qed.
Lemma plain_optional check : plain_check check → plain_check (check_optional check).
Proof. intros Hc v v'. destruct v; simpl; [by intros [= <-]|apply Hc..]. Qed.
Lemma plain_required name check :
  Redaction.hides [] name = false → plain_check check → plain_field (required name check).
Proof. intros Hn Hc. by split. Qed.
Lemma plain_optional_field name def check :
  Redaction.hides [] name = false → leaf def = true → plain_check check →
  plain_field (optional name def check).
Proof. intros Hn Hl Hc. split; [done|done|]. by intros d [= <-]. Qed.

Hint Resolve check_currency_stable : schemas.
Hint Resolve plain_str plain_currency plain_choice plain_email plain_int plain_datetime
  plain_optional : schemas.

Ltac plain_fields :=
  repeat apply Forall_cons_2; [..|apply Forall_nil_2];
  (apply plain_required || (apply plain_optional_field; [|reflexivity|]));
  lazymatch goal with |- _ = _ => vm_compute; reflexivity | |- _ => auto 4 with schemas end.
Ltac storable_tool :=
  first [apply storable_model|apply storable_with];
  [stable_fields|plain_fields|apply (bool_decide_unpack _); vm_compute; exact I].

Lemma tools_storable `{Settings} `{PyLib} `{Network} `{Vendors} `{KeyLib} :
  Forall (λ t, storable (input_model (spec t)) ∧ input_sensitive_fields (spec t) = [])
    ALL_INTEGRATION_TOOLS.
Proof.
  repeat apply Forall_cons_2; [..|apply Forall_nil_2]; (split; [|reflexivity]).
  - change (storable (validate_with CustomerLookupInput exactly_one_identifier)). storable_tool.
  - change (storable (validate_model OrderLookupInput)). storable_tool.
  - change (storable (validate_model ShipmentLookupInput)). storable_tool.
  - change (storable (validate_model PaymentLookupInput)). storable_tool.
  - change (storable (validate_model PaymentRefundInput)). storable_tool.
  - change (storable (validate_with CalendarAvailabilityInput aware_range)). storable_tool.
  - change (storable (validate_with CalendarBookingInput aware_range)). storable_tool.
  - change (storable (validate_model TicketCreateInput)). storable_tool.
  - change (storable (validate_model TicketUpdateInput)). storable_tool.
  - change (storable (validate_model NotificationSendInput)). storable_tool.
Qed.

(** C23. An approval is checked against what was approved: the arguments of every business
    tool are stored as they were validated, because redaction hides none of them, and
    the stored document is validated to itself when the call is resumed. *)
Theorem approved_arguments_kept `{Settings} `{PyLib} `{Network} `{Vendors} `{KeyLib} tool v d :
  tool ∈ ALL_INTEGRATION_TOOLS → input_model (spec tool) v = Some d →
  let stored :=
    Redaction.redact (map str_lower (input_sensitive_fields (spec tool))) (JObj d) in
  stored = JObj d ∧ input_model (spec tool) stored = Some d.
Proof.
  intros Ht%list_elem_of_In Hv. cbv zeta.
  destruct (proj1 (Forall_forall _ _) tools_storable tool Ht) as [Hs ->].
  destruct (Hs v d Hv) as [Hr Hd]. simpl map. by rewrite Hr.
Qed.
End Storable.

(** ** What a call records *)

Section Health.
Context `{Settings} `{PyLib} `{Network} `{Pydantic} `{Vendors}.

(** The columns a call never writes. *)
Definition same_connection (c c' : IntegrationConnection) : Prop :=
  ic_workspace c' = ic_workspace c ∧ ic_provider c' = ic_provider c ∧
  ic_display_name c' = ic_display_name c ∧ ic_environment c' = ic_environment c ∧
  ic_encrypted_credentials c' = ic_encrypted_credentials c ∧
  ic_credential_version c' = ic_credential_version c ∧
  ic_configuration c' = ic_configuration c ∧ ic_created_by c' = ic_created_by c.

(** The status a call with this outcome leaves, where the caller's object has the status
    [seen] and the row has [current].  They differ when somebody else wrote the row. *)
Definition status_after (seen current : IntegrationConnectionStatus.t)
    (error : option IntegrationErr.t) : IntegrationConnectionStatus.t :=
  match seen, error with
  | IntegrationConnectionStatus.DISABLED, _ | IntegrationConnectionStatus.ACTIVE, None => current
  | _, None => IntegrationConnectionStatus.ACTIVE
  | _, Some IntegrationErr.AuthenticationFailed | _, Some IntegrationErr.PermissionDenied =>
      IntegrationConnectionStatus.INVALID_CREDENTIALS
  | _, Some IntegrationErr.Timeout | _, Some IntegrationErr.TemporarilyUnavailable
  | _, Some IntegrationErr.RateLimited => IntegrationConnectionStatus.DEGRADED
  | _, Some _ => current
  end.

(** The row, or object, [c] after the health of a call with this outcome is written. *)
Definition healthy_as (now : Z) (error : option IntegrationErr.t)
    (seen : IntegrationConnectionStatus.t) (c c' : IntegrationConnection) : Prop :=
  same_connection c c' ∧
  ic_last_checked_at c' = Some now ∧
  ic_last_error_code c' = from_option IntegrationErr.code "" error ∧
  ic_last_success_at c' = match error with None => Some now | Some _ => ic_last_success_at c end ∧
  ic_status c' = status_after seen (ic_status c) error.

Lemma with_health_spec now error seen c :
  healthy_as now error seen c (with_health now error (health_status seen error) c).
Proof.
  split; [by split_and!|]. split_and!; [done|by destruct error|done|]. simpl.
  by destruct seen, error as [[]|].
Qed.

(** The outcome is on the row of the connection [i], as it was found in [w], and on the
    object [c] of the caller, which is [known] now; on no other row. *)
Record recorded (i : N) (c : IntegrationConnection) (error : option IntegrationErr.t)
    (known : IntegrationConnection) (w w' : World) : Prop := {
  rc_others j : j ≠ i → w_integration_connections w' !! j = w_integration_connections w !! j;
  rc_row : match w_integration_connections w !! i with
           | None => w_integration_connections w' !! i = None
           | Some row => ∃ row', w_integration_connections w' !! i = Some row' ∧
                                 healthy_as (w_now w) error (ic_status c) row row'
           end;
  rc_known : healthy_as (w_now w) error (ic_status c) c known;
}.

Lemma record_health_recorded i c error w :
  ∃ known w', record_health i c error w = (inr known, w') ∧ recorded i c error known w w'.
Proof.
  unfold record_health, get_now, gets, update_rows, modify, mbind, M_bind. simpl.
  eexists _, _. split; [reflexivity|]. split; [| |apply with_health_spec].
  - intros j Hj. simpl. rewrite (rows_update (A := IntegrationConnection)).
    destruct (w_integration_connections w !! j); [|done]. simpl.
    by rewrite bool_decide_eq_false_2.
  - simpl. rewrite (rows_update (A := IntegrationConnection)).
    destruct (w_integration_connections w !! i) as [row|]; [|done]. simpl. eexists. split; [done|].
    rewrite bool_decide_eq_true_2 by done. apply with_health_spec.
Qed.

(** The credentials an operation is given: none that are stored, those that are read back,
    or an error. *)
Definition stored_credentials (c : IntegrationConnection) : option document :=
  if credentials_configured c then decrypt_credentials (ic_encrypted_credentials c) else Some [].

(** What a call through the loaded connection [c] may come to. *)
Inductive called {A} (i : N) (c : IntegrationConnection) (operation : document → service A)
    (w : World) : (exn + A) * IntegrationConnection → World → Prop :=
  | called_unreadable known w' :
      stored_credentials c = None → recorded i c (Some IntegrationErr.Configuration) known w w' →
      called i c operation w (inl (integration_error IntegrationErr.Configuration), known) w'
  | called_returned credentials result w1 known w' :
      stored_credentials c = Some credentials → operation credentials w = (inr result, w1) →
      recorded i c None known w1 w' → called i c operation w (inr result, known) w'
  | called_refused credentials error message w1 known w' :
      stored_credentials c = Some credentials →
      operation credentials w = (inl (IntegrationExc error message), w1) →
      recorded i c (Some error) known w1 w' →
      called i c operation w (inl (IntegrationExc error message), known) w'
  | called_raised credentials e w' :
      stored_credentials c = Some credentials → operation credentials w = (inl e, w') →
      (∀ error message, e ≠ IntegrationExc error message) →
      called i c operation w (inl e, c) w'.

(** C33. A call through a connection, on whatever object and whatever happens to the
    world while the provider is asked, calls the operation once, with the stored
    credentials, answers what it answered and records it on the row as it is by then, and
    on no other: a success clears the error and revives a connection that was seen
    degraded or refused, a refusal of the credentials and a transient failure are told
    apart, any other error leaves the status, a connection that was seen disabled keeps
    the status it has, and an exception that is no integration error is not recorded at
    all.  The status is decided from the object: on one that is stale a connection disabled
    meanwhile is made degraded ([ProviderExamples.stale_call_undoes_disabling]). *)
Theorem provider_call_records_health {A} i c (operation : document → service A) w :
  ∃ answer, (provider_call i c operation w).1 = inr answer ∧
            called i c operation w answer (provider_call i c operation w).2.
Proof.
  unfold provider_call. fold (stored_credentials c).
  destruct (stored_credentials c) as [credentials|] eqn:Hc.
  2:{ destruct (record_health_recorded i c (Some IntegrationErr.Configuration) w)
        as (known & w2 & Hrun & Hrec). unfold mbind, M_bind. rewrite Hrun. simpl.
      eexists. split; [done|]. by constructor. }
  unfold attempt, mbind, M_bind.
  destruct (operation credentials w) as [[e|a] w1] eqn:Ho; cbv beta iota zeta.
  - destruct e; try (eexists; split; [reflexivity|]; by eapply called_raised).
    match type of Ho with _ = (inl (IntegrationExc ?error _), _) =>
      destruct (record_health_recorded i c (Some error) w1) as (known & w2 & Hrun & Hrec) end.
    rewrite Hrun. simpl. eexists. split; [done|]. by eapply called_refused.
  - destruct (record_health_recorded i c None w1) as (known & w2 & Hrun & Hrec).
    rewrite Hrun. simpl. eexists. split; [done|]. by eapply called_returned.
Qed.
End Health.

(** ** The connections of the workspaces *)

(** What the services may make of a connection: new credentials come with a new
    version, and where it belongs never changes. *)
Definition connection_evolves (c c' : IntegrationConnection) : Prop :=
  ic_workspace c' = ic_workspace c ∧ ic_provider c' = ic_provider c ∧
  ic_environment c' = ic_environment c ∧ ic_created_by c' = ic_created_by c ∧
  (ic_credential_version c <= ic_credential_version c')%N ∧
  (ic_encrypted_credentials c' ≠ ic_encrypted_credentials c →
   (ic_credential_version c < ic_credential_version c')%N).

#[export] Instance connection_evolves_preorder : PreOrder connection_evolves.
Proof.
  split; [by intros c|]. intros c1 c2 c3 (?&?&?&?&?&V1) (?&?&?&?&?&V2).
  split_and!; try congruence; [lia|]. intros Hne.
  destruct (decide (ic_encrypted_credentials c2 = ic_encrypted_credentials c1)) as [He|He].
  - assert (ic_credential_version c2 < ic_credential_version c3)%N; [|lia]. apply V2. congruence.
  - specialize (V1 He). lia.
Qed.

(** One connection per workspace and provider, each with a version. *)
Definition connections_ok (w : World) : Prop :=
  unique connection_clash (w_integration_connections w) ∧
  ∀ i c, w_integration_connections w !! i = Some c →
    (i < w_next w)%N ∧ (0 < ic_credential_version c)%N.

Definition connections_rel : relation World := λ w w',
  connections_ok w → connections_ok w' ∧
  ∀ i c, w_integration_connections w !! i = Some c →
    ∃ c', w_integration_connections w' !! i = Some c' ∧ connection_evolves c c'.
#[export] Instance connections_rel_preorder : PreOrder connections_rel.
Proof.
  split; [intros w Hok; split; [done|]; intros i c Hi; by exists c|].
  intros w1 w2 w3 H12 H23 Hok. destruct (H12 Hok) as [Hok2 Hh]. destruct (H23 Hok2) as [Hok3 Hh'].
  split; [done|]. intros i c Hi. destruct (Hh i c Hi) as (c2 & Hi2 & He).
  destruct (Hh' i c2 Hi2) as (c3 & Hi3 & He'). exists c3. split; [done|by etrans].
Qed.

Lemma connection_clash_sym a b : connection_clash a b = connection_clash b a.
Proof. unfold connection_clash. by rewrite (bool_decide_ext _ (ic_workspace b = ic_workspace a)),
  (bool_decide_ext (ic_provider a = _) (ic_provider b = ic_provider a)) by done. Qed.

(** Rows that evolve in place. *)
Lemma evolving_rows_rel (g : N → IntegrationConnection → IntegrationConnection) w w' :
  (∀ i c, w_integration_connections w !! i = Some c → connection_evolves c (g i c)) →
  (∀ i, w_integration_connections w' !! i = g i <$> w_integration_connections w !! i) →
  (w_next w <= w_next w')%N → connections_rel w w'.
Proof.
  intros Hg Hw Hn [Hu Hok]. split; [split|].
  - intros i j a b Hne. rewrite !Hw. intros (a0 & Ha & ->)%fmap_Some (b0 & Hb & ->)%fmap_Some.
    specialize (Hu i j a0 b0 Hne Ha Hb). unfold connection_clash in *.
    destruct (Hg i a0 Ha) as (-> & -> & _), (Hg j b0 Hb) as (-> & -> & _). done.
  - intros i c. rewrite Hw. intros (c0 & Hc & ->)%fmap_Some. destruct (Hok i c0 Hc).
    destruct (Hg i c0 Hc) as (_ & _ & _ & _ & ? & _). split; lia.
  - intros i c Hi. exists (g i c). split; [by rewrite Hw, Hi|by apply Hg].
Qed.

(** The rest of the world. *)
Lemma untouched_connections_rel w w' :
  w_integration_connections w' = w_integration_connections w → (w_next w <= w_next w')%N →
  connections_rel w w'.
Proof.
  intros Hw Hn. apply (evolving_rows_rel (λ _ c, c)); [done| |done]. intros i. rewrite Hw.
  by destruct (_ !! i).
Qed.

Section Connections.
Context `{Settings} `{PyLib} `{Network} `{Pydantic} `{Vendors}.

Lemma fresh_rel : included connections_rel fresh.
Proof. intros w. apply untouched_connections_rel; [done|simpl; lia]. Qed.
Lemma audit_rel a tt ti ac ws md : included connections_rel (record_event a tt ti ac ws md).
Proof. intros w. by apply untouched_connections_rel. Qed.
Lemma event_rel action ws actor i md : included connections_rel (connection_event action ws actor i md).
Proof. apply audit_rel. Qed.

(** A write of columns that leave identity and credentials alone. *)
Lemma save_fields_rel i f :
  (∀ c, connection_evolves c (f c)) → included connections_rel (save_fields i f).
Proof.
  intros Hf w. unfold save_fields, get_row, find_row, save_row, gets, or_raise, mbind, M_bind. simpl.
  destruct (w_integration_connections w !! i) as [c|] eqn:Hi; [|reflexivity]. simpl.
  apply (evolving_rows_rel (λ j c, if decide (j = i) then f c else c)); [| |done].
  - intros j c0 _. by destruct (decide (j = i)).
  - intros j. simpl. destruct (decide (j = i)) as [->|Hj].
    + by rewrite lookup_insert_eq, Hi.
    + rewrite lookup_insert_ne by done. by destruct (_ !! j).
Qed.
Lemma record_health_rel i c error : included connections_rel (record_health i c error).
Proof.
  unfold record_health, get_now. included_step; [included_step|]. included_step; [|included_step].
  intros w. simpl. eapply evolving_rows_rel; [|intros j; apply (rows_update (A := IntegrationConnection))|done].
  intros j c0 _. simpl. case_bool_decide; [|done]. by repeat split.
Qed.
Hint Resolve fresh_rel event_rel record_health_rel : included.

Lemma provider_call_rel {A} i c (operation : document → service A) :
  (∀ credentials, included next_frame (operation credentials)) →
  included connections_rel (provider_call i c operation).
Proof.
  intros Ho. unfold provider_call. included_steps; intros w;
    match goal with |- context [operation ?cr w] => destruct (Ho cr w) as (n & -> & Hn) end;
    by apply untouched_connections_rel.
Qed.

(** The relation to an earlier world, as a postcondition. *)
Ltac related_wp :=
  match goal with |- connections_rel ?w (?m ?w1).2 => change (wp m (λ _, connections_rel w) w1) end.

(** A new row, at a new key. *)
Lemma new_connection_rel c w :
  (0 < ic_credential_version c)%N →
  wp (save_new_connection (w_next w) c) (λ _, connections_rel w)
    {| w with w_next := N.succ (w_next w) |}.
Proof.
  intros Hc. set (w1 := {| w with w_next := N.succ (w_next w) |}).
  assert (connections_rel w w1) as Hw1 by (apply (fresh_rel w)).
  unfold save_new_connection. apply wp_bind.
  unfold raise_if at 1. destruct (negb _); [exact Hw1|]. apply wp_ret. wp_beta.
  apply wp_bind, wp_gets. wp_beta. apply wp_bind.
  unfold raise_if. destruct (exists_row _ w1); [exact Hw1|]. apply wp_ret. wp_beta.
  apply wp_save_unique.
  destruct (clashes _ _ _ w1) eqn:Hcl; [exact Hw1|]. intros [Hu Hok]. split; [split|].
  - exact (unique_insert connection_clash connection_clash_sym _ _ w1 Hu Hcl).
  - intros i c0. simpl. intros [[<- <-]|[_ Hi]]%lookup_insert_Some; [split; [lia|done]|].
    destruct (Hok i c0 Hi). split; lia.
  - intros i c0 Hi. exists c0. split; [|done]. simpl. rewrite lookup_insert_ne; [done|].
    intros <-. destruct (Hok _ _ Hi). lia.
Qed.

Lemma create_connection_rel ws actor p dn env credentials configuration :
  included connections_rel (create_connection ws actor p dn env credentials configuration).
Proof.
  unfold create_connection. included_step. do 5 (included_step; [included_step|]).
  intros w. related_wp. apply wp_bind, wp_fresh. wp_beta. apply wp_bind.
  eapply wp_mono; [by apply new_connection_rel|]. intros [e|[]] w' Hw; wp_beta; [done|].
  eapply wp_mono; [eapply (wp_of_included connections_rel); included_steps|].
  intros r w2 Hw2. by trans w'.
Qed.

Lemma update_connection_rel ws i c actor dn configuration :
  included connections_rel (update_connection_configuration ws i c actor dn configuration).
Proof.
  unfold update_connection_configuration. included_steps. apply save_fields_rel. by repeat split.
Qed.
Lemma set_enabled_rel ws i c actor enabled :
  included connections_rel (set_connection_enabled ws i c actor enabled).
Proof.
  unfold set_connection_enabled. included_steps; apply save_fields_rel; by repeat split.
Qed.

(** With an object that is up to date, the version grows. *)
(** The row of the connection has no later version of the credentials than the object. *)
Definition version_up_to_date (w : World) (i : N) (loaded : IntegrationConnection) : Prop :=
  ∀ c, w_integration_connections w !! i = Some c →
    (ic_credential_version c <= ic_credential_version loaded)%N.

Lemma rotate_rel ws i c actor credentials w :
  version_up_to_date w i c →
  connections_rel w (rotate_credentials ws i c actor credentials w).2.
Proof.
  intros Hup. unfold rotate_credentials. set (m := of_sum _ ≫= _).
  assert (connections_rel w (m w).2) as Hm;
    [|unfold atomic; destruct (m w) as [[e|a] w']; [reflexivity|exact Hm]].
  related_wp. unfold m. apply wp_bind, wp_of_sum. destruct (validate_credentials _ _); wp_beta;
    [reflexivity|].
  apply wp_bind. destruct (encrypt_credentials _) as [encrypted|];
    [|apply wp_raise; wp_beta; reflexivity]. apply wp_ret. wp_beta.
  apply wp_bind. unfold raise_if. destruct (_ <? _)%N; [apply wp_raise; wp_beta; reflexivity|].
  apply wp_ret. wp_beta. apply wp_bind_rel; [apply _| |intros [] w'; by apply wp_of_included, event_rel].
  unfold save_fields. apply wp_bind, wp_get_row. simpl.
  destruct (w_integration_connections w !! i) as [c1|] eqn:Hi; wp_beta; [|reflexivity].
  specialize (Hup c1 Hi). apply wp_save_row.
  apply (evolving_rows_rel (λ j c', if decide (j = i) then rotated encrypted c c' else c')); [| |done].
  - intros j c0 Hj. destruct (decide (j = i)) as [->|]; [|done]. rewrite Hi in Hj. injection Hj as <-.
    split_and!; try done; simpl; lia.
  - intros j. simpl. destruct (decide (j = i)) as [->|Hj].
    + by rewrite lookup_insert_eq, Hi.
    + rewrite lookup_insert_ne by done. by destruct (_ !! j).
Qed.

Lemma test_connection_rel ws i c actor : included connections_rel (test_connection ws i c actor).
Proof.
  unfold test_connection. included_step; [included_step|]. included_step.
  - apply provider_call_rel. intros credentials. unfold resolve_probe.
    apply of_sum_framed; [apply _|]. intros probe Hp.
    destruct (ic_provider c);
      [destruct (get_payment_provider _) eqn:E|destruct (get_calendar_provider _) eqn:E
      |destruct (get_notification_provider _) eqn:E|destruct (get_order_provider _) eqn:E];
      simplify_eq;
      [apply (payment_framed _ _ E)|apply (calendar_framed _ _ E)
      |apply (notification_framed _ _ E)|apply (order_framed _ _ E)].
  - cbv zeta. included_steps.
Qed.

Lemma usable_rel {A} ws p (k : N * IntegrationConnection → service A) :
  (∀ x, included connections_rel (k x)) →
  included connections_rel (require_usable_connection ws p ≫= k).
Proof.
  intros Hk. included_step; [|apply Hk]. intros w.
  destruct (require_usable_spec ws p w) as [Hw _]. by rewrite Hw.
Qed.

Lemma business_rel ws t :
  (∀ a, included connections_rel (get_payment ws t a)) ∧
  (∀ a b c d e, included connections_rel (refund_payment ws t a b c d e)) ∧
  (∀ a b, included connections_rel (get_availability ws t a b)) ∧
  (∀ a b c d e, included connections_rel (create_booking ws t a b c d e)) ∧
  (∀ a b c d, included connections_rel (send_notification ws t a b c d)) ∧
  (∀ a, included connections_rel (get_order ws t a)) ∧
  (∀ a, included connections_rel (get_shipment ws t a)).
Proof.
  split_and!; intros; apply usable_rel; intros x; apply of_sum_framed; try apply _;
    intros provider Hp; unfold execute_provider_call; included_step; try included_step;
    apply provider_call_rel; intros; first
      [apply (payment_framed _ _ Hp)|apply (calendar_framed _ _ Hp)
      |apply (notification_framed _ _ Hp)|apply (order_framed _ _ Hp)].
Qed.

(** One of the services, on any objects; the rotation of the credentials on an object
    whose version of them is up to date, since the next version is counted from it. *)
Inductive connection_op (w : World) : World → Prop :=
  | op_create ws actor provider name environment credentials configuration :
      connection_op w
        (create_connection ws actor provider name environment credentials configuration w).2
  | op_update ws i c actor name configuration :
      connection_op w (update_connection_configuration ws i c actor name configuration w).2
  | op_rotate ws i c actor credentials :
      version_up_to_date w i c →
      connection_op w (rotate_credentials ws i c actor credentials w).2
  | op_enable ws i c actor enabled :
      connection_op w (set_connection_enabled ws i c actor enabled w).2
  | op_test ws i c actor : connection_op w (test_connection ws i c actor w).2
  | op_get_payment ws t reference : connection_op w (get_payment ws t reference w).2
  | op_refund ws t reference amount currency reason key :
      connection_op w (refund_payment ws t reference amount currency reason key w).2
  | op_availability ws t first last : connection_op w (get_availability ws t first last w).2
  | op_booking ws t first last title email key :
      connection_op w (create_booking ws t first last title email key w).2
  | op_send ws t recipient subject body key :
      connection_op w (send_notification ws t recipient subject body key w).2
  | op_get_order ws t reference : connection_op w (get_order ws t reference w).2
  | op_get_shipment ws t reference : connection_op w (get_shipment ws t reference w).2.

Lemma connection_op_rel w w' : connection_op w w' → connections_rel w w'.
Proof.
  intros Hop. destruct Hop.
  - apply create_connection_rel.
  - apply update_connection_rel.
  - by apply rotate_rel.
  - apply set_enabled_rel.
  - apply test_connection_rel.
  - apply business_rel.
  - apply business_rel.
  - apply business_rel.
  - apply business_rel.
  - apply business_rel.
  - apply business_rel.
  - apply business_rel.
Qed.

(** C22. Over any sequence of the services of the connections and of calls through them,
    whatever the providers answer, a workspace has at most one connection to a provider,
    a connection is never lost and never moves to another workspace, provider or
    environment, and its credentials never change without a new version.  The credentials
    are rotated on objects whose version is up to date: two rotations on one object give the
    same version to different credentials ([ProviderExamples.stale_rotation_repeats_version]). *)
Theorem connections_in_order w w' :
  connections_ok w → rtc connection_op w w' →
  connections_ok w' ∧
  ∀ i c, w_integration_connections w !! i = Some c →
    ∃ c', w_integration_connections w' !! i = Some c' ∧ connection_evolves c c'.
Proof.
  intros Hok Hops. revert Hok. change (connections_rel w w').
  induction Hops as [|w1 w2 w3 H12 _ IH]; [reflexivity|]. etrans; [by apply connection_op_rel|done].
Qed.

(** ** The notification tool without a usable connection *)

Section Escape.
Context `{Encoding} `{KeyLib} (context : ToolExecutionContext) (arguments : document).
Context (workspace : Workspace) (customer_id : N) (customer : Customer) (email : string).
Context (known : uuid_of_text (arg_str arguments "customer_id") = Some customer_id).
Context (nonempty : arg_str arguments "customer_id" ≠ "").
Context (own : cu_workspace customer = tx_workspace context).
Context (reachable : given (cu_email customer) = Some email).
Context (subject_fits : (String.length (arg_str arguments "subject")
                         <= INTEGRATIONS_NOTIFICATION_MAX_SUBJECT_LENGTH)%nat).
Context (body_fits : (String.length (arg_str arguments "body")
                      <= INTEGRATIONS_NOTIFICATION_MAX_BODY_LENGTH)%nat).

(** The workspace has the customer and no email connection. *)
Record unconfigured (w : World) : Prop := {
  un_workspace : w_workspaces w !! tx_workspace context = Some workspace;
  un_customer : w_customers w !! customer_id = Some customer;
  un_connection i c : w_integration_connections w !! i = Some c →
    ic_workspace c = tx_workspace context → ic_provider c ≠ IntegrationProvider.EMAIL;
}.

Lemma customer_found w : unconfigured w →
  customer_get_by_id_for_workspace (tx_workspace context) (arg_str arguments "customer_id") w
  = (inr (Some (customer_id, customer)), w).
Proof.
  intros Hw. unfold customer_get_by_id_for_workspace.
  rewrite (proj2 (String.eqb_neq _ _) nonempty), known. unfold first_row, gets. do 2 f_equal.
  erewrite select_rows_unique; [done|apply Hw| |].
  - unfold customer_in. by rewrite !bool_decide_eq_true_2.
  - intros j r _ Hj. unfold customer_in in Hj. apply andb_true_iff in Hj as [_ Hj].
    by apply bool_decide_eq_true in Hj.
Qed.

Lemma notification_refused w : unconfigured w →
  wp (notification_send_handler context arguments)
    (λ r w', r = inl (integration_error IntegrationErr.NotConfigured) ∧ w' = w) w.
Proof.
  intros Hw. unfold notification_send_handler, require_workspace. cbv zeta.
  apply wp_bind, wp_bind, wp_get_row. cbn [rows workspaces_table].
  rewrite (un_workspace _ Hw). wp_beta. apply wp_ret. wp_beta.
  apply wp_bind. rewrite (proj2 (Nat.ltb_ge _ _) subject_fits). apply wp_ret. wp_beta.
  apply wp_bind. rewrite (proj2 (Nat.ltb_ge _ _) body_fits). apply wp_ret. wp_beta.
  apply wp_bind. unfold wp at 1. rewrite (customer_found w Hw). cbn [fst snd]. wp_beta.
  apply wp_bind, wp_ret. wp_beta. cbn [fst snd]. rewrite reachable.
  apply wp_bind, wp_ret. wp_beta. apply wp_bind.
  assert (wp (ensure_notification_provider_configured (tx_workspace context))
    (λ r w', r = inl (integration_error IntegrationErr.NotConfigured) ∧ w' = w) w) as He.
  { unfold ensure_notification_provider_configured, require_usable_connection,
      resolve_connection_for_tool. apply wp_bind, wp_bind, wp_first_row.
    rewrite (proj2 (first_row_none _ w)).
    - wp_beta. apply wp_bind, wp_raise. wp_beta. done.
    - intros i c Hi. unfold connection_for. apply andb_false_iff.
      destruct (decide (ic_workspace c = tx_workspace context)) as [Hc|Hc];
        [right|left; by apply bool_decide_eq_false].
      apply bool_decide_eq_false. by apply (un_connection _ Hw i). }
  eapply wp_mono; [exact He|]. intros r w' [-> ->]. by wp_beta.
Qed.

(** [notification.send] in a workspace without an email connection raises the
    integration error itself, which is none of the tool errors the engine handles: the
    call ends with it, no outcome is written, and the execution keeps the status it had
    when the handler was started. *)
Theorem unconfigured_notification_escapes on_failure execution_id te n w :
  unconfigured w → w_tool_executions w !! execution_id = Some te → (n <= 2)%N →
  let run := run_handler on_failure execution_id NOTIFICATION_SEND_TOOL context arguments n w in
  run.1 = inl (integration_error IntegrationErr.NotConfigured) ∧
  w_tool_executions run.2 !! execution_id = Some (set_attempt_count (n + 1) te).
Proof.
  intros Hw Hte Hn. cbv zeta.
  change (wp (run_handler on_failure execution_id NOTIFICATION_SEND_TOOL context arguments n)
    (λ r w', r = inl (integration_error IntegrationErr.NotConfigured) ∧
       w_tool_executions w' !! execution_id = Some (set_attempt_count (n + 1) te)) w).
  unfold run_handler. apply wp_bind, wp_attempt. unfold run_with_retries.
  set (w1 := {| w with w_tool_executions := map_imap (λ i r, Some (if bool_decide (i = execution_id)
    then set_attempt_count (n + 1) r else r)) (w_tool_executions w) |}).
  assert (unconfigured w1) as Hw1 by (destruct Hw; by split).
  assert (w_tool_executions w1 !! execution_id = Some (set_attempt_count (n + 1) te)) as Hte1.
  { change (w_tool_executions w1) with (map_imap (λ i r, Some (if bool_decide (i = execution_id)
      then set_attempt_count (n + 1) r else r)) (w_tool_executions w)).
    rewrite map_lookup_imap, Hte. simpl. by rewrite bool_decide_eq_true_2. }
  assert (∀ fuel, wp (run_attempts fuel execution_id NOTIFICATION_SEND_TOOL context arguments n)
    (λ r w', r = inl (integration_error IntegrationErr.NotConfigured) ∧ w' = w1) w) as Hrun.
  { intros fuel. assert ((max_attempts (retry_policy (spec NOTIFICATION_SEND_TOOL)) <=? n)%N = false)
      as Hmax by (change ((3 <=? n)%N = false); apply N.leb_gt; lia).
    destruct fuel; cbn [run_attempts]; (apply wp_bind; rewrite Hmax; apply wp_ret; wp_beta;
      apply wp_bind, wp_update_rows; wp_beta; apply wp_bind, wp_attempt;
      unfold invoke_with_timeout; apply wp_bind;
      eapply wp_mono; [exact (notification_refused w1 Hw1)|]; intros r w' [-> ->]; wp_beta;
      apply wp_raise; done). }
  eapply wp_mono; [apply Hrun|]. intros r w' [-> ->]. wp_beta. by apply wp_raise.
Qed.
End Escape.
End Connections.

(** ** Concrete runs *)

Module ProviderExamples.
#[local] Existing Instance default_settings.
#[local] Existing Instance trivial_pylib.
#[local] Existing Instance ToolExamples.encoding.
#[local] Existing Instance example_pydantic.
#[local] Existing Instance example_vendors.
#[local] Existing Instance ToolShop.keylib.

(** A token is the number of the pair of its key and its text. *)
Definition token (key text : string) : string := pretty (Npos (encode (key, text))).
Definition open_token (key token : string) : option string :=
  match read_key token with
  | Some (Npos p) =>
      match decode (A := string * string) p with
      | Some (k, text) => if decide (k = key) then Some text else None
      | None => None
      end
  | _ => None
  end.
(** The documents that are written and read, as the text of their key. *)
Definition key_document (key : string) : document :=
  [("schema_version", JInt 1); ("secret_key", JStr key)].
Definition key_text (v : json) : string :=
  match v with
  | JObj l => match obj_get "secret_key" l with Some (JStr s) => s | _ => "{}" end
  | _ => "{}"
  end.
Definition secret : document := key_document "sk_test_1".
Definition plain : Network := example_network 200.
#[local] Instance vault : Network := {| plain with
  fernet_encrypt := token; fernet_decrypt := open_token;
  json_dumps := key_text; parse_plaintext s := Some (JObj (key_document s)) |}.

Lemma open_own_token k s : open_token k (token k s) = Some s.
Proof. unfold open_token, token. rewrite read_pretty, decode_encode. by rewrite decide_True. Qed.
Lemma open_other_token k k' s : k' ≠ k → open_token k' (token k s) = None.
Proof.
  intros Hk. unfold open_token, token. rewrite read_pretty, decode_encode. by rewrite decide_False.
Qed.
Lemma token_not_empty k s : token k s ≠ "".
Proof.
  intros Ht. pose proof (read_pretty (Npos (encode (k, s)))) as Hr. unfold token in Ht.
  rewrite Ht in Hr. done.
Qed.

(** The key is rotated, and then the old one is retired. *)
Lemma credentials_survive_rotation_witness :
  decrypt_with ["new"; "old"] (token "old" "sk_test_1") = Some secret ∧
  decrypt_with ["new"] (token "old" "sk_test_1") = None.
Proof.
  split.
  - apply (proj1 (@credentials_survive_rotation vault token_not_empty open_own_token open_other_token
      ["old"] ["new"; "old"] secret secret _ eq_refl eq_refl eq_refl) "old" eq_refl).
    right. left.
  - apply (proj2 (@credentials_survive_rotation vault token_not_empty open_own_token open_other_token
      ["old"] ["new"] secret secret _ eq_refl eq_refl eq_refl) "old" eq_refl).
    intros Hin. apply list_elem_of_singleton in Hin. discriminate Hin.
Defined.

(** The refund an approver is shown is the refund that is resumed. *)
Definition refund_arguments : json :=
  JObj [("payment_reference", JStr "pi_1"); ("amount_minor", JInt 2500); ("currency", JStr "usd")].
Definition refund_document : document :=
  [("payment_reference", JStr "pi_1"); ("amount_minor", JInt 2500); ("currency", JStr "USD");
   ("reason", JStr "requested_by_customer")].
Lemma approved_arguments_kept_witness :
  Redaction.redact [] (JObj refund_document) = JObj refund_document ∧
  input_model (spec PAYMENT_REFUND_TOOL) (JObj refund_document) = Some refund_document.
Proof.
  pose proof example_pydantic_laws as Hlaws.
  apply (approved_arguments_kept PAYMENT_REFUND_TOOL refund_arguments refund_document).
  - do 4 right. left.
  - reflexivity.
Defined.

(** With half a second left, a provider is given all of it. *)
Example whole_remainder_given : effective_provider_timeout half_second = half_second.
Proof. vm_compute. reflexivity. Qed.

Definition payments : IntegrationConnection := {|
  ic_workspace := 7; ic_provider := IntegrationProvider.STRIPE; ic_display_name := "Payments";
  ic_status := IntegrationConnectionStatus.ACTIVE; ic_environment := IntegrationEnvironment.TEST;
  ic_encrypted_credentials := default "" (encrypt_credentials secret); ic_credential_version := 1;
  ic_configuration := []; ic_last_checked_at := None; ic_last_success_at := None;
  ic_last_error_code := ""; ic_created_by := Some 3%N |}.
Definition connected : World :=
  {| ToolShop.shop with w_integration_connections := {[ 20%N := payments ]} |}.

(** The connection's credentials are refused. *)
Definition refused : document → service () := λ _,
  raise (integration_error IntegrationErr.AuthenticationFailed).
Example refusal_is_recorded :
  ic_status <$> w_integration_connections (provider_call 20 payments refused connected).2 !! 20%N
  = Some IntegrationConnectionStatus.INVALID_CREDENTIALS.
Proof. vm_compute. reflexivity. Qed.

(** It was disabled while the provider was asked, which could not be reached then. *)
Definition unavailable : document → service () := λ _,
  set_connection_enabled 7 20 payments 3 false;;
  raise (integration_error IntegrationErr.TemporarilyUnavailable).
Theorem stale_call_undoes_disabling :
  ic_status <$> w_integration_connections (unavailable [] connected).2 !! 20%N
    = Some IntegrationConnectionStatus.DISABLED ∧
  ic_status <$> w_integration_connections (provider_call 20 payments unavailable connected).2 !! 20%N
    = Some IntegrationConnectionStatus.DEGRADED.
Proof. vm_compute. split; reflexivity. Qed.

(** A connection is created, its credentials are rotated, and a payment is asked for. *)
Definition created : World :=
  (create_connection 7 3 "stripe" "Payments" "test" (JObj [("secret_key", JStr "sk_test_1")])
     (JObj []) ToolShop.shop).2.
Definition new_connection : IntegrationConnection :=
  default payments (w_integration_connections created !! 50%N).
Definition rotated_world : World :=
  (rotate_credentials 7 50 new_connection 3 (JObj [("secret_key", JStr "sk_test_2")]) created).2.
Definition asked : World := (get_payment 7 (float_lit 5) "pi_1" rotated_world).2.

Example rotation_counts :
  ic_credential_version <$> w_integration_connections asked !! 50%N = Some 2%N.
Proof. vm_compute. reflexivity. Qed.

(** Two administrators rotate the credentials of the same page. *)
Definition rotated_twice : World :=
  (rotate_credentials 7 50 new_connection 3 (JObj [("secret_key", JStr "sk_test_3")]) rotated_world).2.
Theorem stale_rotation_repeats_version :
  ∃ c c', w_integration_connections rotated_world !! 50%N = Some c ∧
    w_integration_connections rotated_twice !! 50%N = Some c' ∧
    ic_credential_version c' = ic_credential_version c ∧
    ic_encrypted_credentials c' ≠ ic_encrypted_credentials c.
Proof. eexists _, _. split_and!; [vm_compute; reflexivity..|]. vm_compute. discriminate. Qed.

Lemma connections_in_order_witness :
  connections_ok asked ∧
  ∃ c', w_integration_connections asked !! 50%N = Some c' ∧ ic_credential_version c' = 2%N.
Proof.
  split; [|eexists; split; vm_compute; reflexivity].
  apply (connections_in_order ToolShop.shop asked).
  - split; [intros i j a b _ Ha|intros i c Ha]; vm_compute in Ha; destruct i; discriminate Ha.
  - apply (rtc_l _ _ created); [apply op_create|].
    apply (rtc_l _ _ rotated_world); [apply op_rotate; intros c Hc; vm_compute in Hc; simplify_eq; done|].
    apply (rtc_l _ _ asked); [apply op_get_payment|apply rtc_refl].
Defined.

(** The customer can be reached, but the workspace has no mail server. *)
Definition running : World :=
  {| ToolShop.shop with w_tool_executions := {[ 9%N := ToolExamples.running ]} |}.
Definition greeting : document :=
  [("customer_id", JStr "30"); ("subject", JStr "Hello"); ("body", JStr "Your order is on its way.")].
Lemma unconfigured_notification_escapes_witness :
  (run_handler (λ _ _, mret ()) 9 NOTIFICATION_SEND_TOOL ToolShop.context greeting 0 running).1
    = inl (integration_error IntegrationErr.NotConfigured) ∧
  (te_status <$> w_tool_executions (run_handler (λ _ _, mret ()) 9 NOTIFICATION_SEND_TOOL
     ToolShop.context greeting 0 running).2 !! 9%N) = Some ToolExecutionStatus.RUNNING.
Proof.
  pose proof (unconfigured_notification_escapes ToolShop.context greeting
    {| ws_name := "Shop"; ws_slug := "shop"; ws_is_active := true |} 30 (ToolShop.customer 7)
    "ann@example.com") as Hescape.
  destruct (Hescape ltac:(vm_compute; reflexivity) ltac:(discriminate) ltac:(reflexivity)
    ltac:(reflexivity) ltac:(apply Nat.leb_le; reflexivity) ltac:(apply Nat.leb_le; reflexivity)
    (λ _ _, mret ()) 9%N ToolExamples.running 0%N running) as [Hr Ht].
  - split; [reflexivity|reflexivity|]. intros i c Hi. destruct i; discriminate Hi.
  - reflexivity.
  - lia.
  - split; [exact Hr|]. rewrite Ht. reflexivity.
Defined.
End ProviderExamples.
