(* ===== verification/ToolCatalog.v ===== *)
(** * The tool catalogue

    [tools/services.py], [tools/selectors.py], the checks of [tools/contracts.py] and
    [ToolRegistry.list]: the mirror of the registered tools in the table of tool
    definitions, and the bindings of tools to agent versions.  The registry is the
    mapping of keys to tools of [IntegrationTools]. *)

From stdpp Require Import base gmap strings list relations sorting.
From Stdlib Require Import ZArith Ascii String Lia.
From S2P Require Import Prelude Json Domain Policy Models Store PolicyAdmin Delivery Network Webhooks Approvals ToolExec Schemas Adapters Integrations Graph Workspaces Conversations Tickets IntegrationTools AgentRuns ToolSafety IntegrationSafety.

(** ** Contracts ([RetryPolicy.__post_init__], [ToolSpec.__post_init__]) *)

Definition spec_ok (s : ToolSpec) : bool :=
  negb (String.eqb (ts_key s) "") && negb (String.eqb (str_strip (ts_key s)) "")
  && String.eqb (ts_key s) (str_strip (ts_key s))
  && (0 <? default_timeout s)%Z && (0 <? max_timeout s)%Z
  && (default_timeout s <=? max_timeout s)%Z.

(** [ToolRegistry.list]: by key. *)
Definition tool_le (a b : Tool) : Prop := String.leb (tool_key a) (tool_key b) = true.
#[export] Instance tool_le_dec a b : Decision (tool_le a b).
Proof. unfold tool_le. apply _. Defined.
Definition registry_list (tools : gmap string Tool) : list Tool :=
  merge_sort tool_le (map_to_list tools).*2.

(** ** The mirror *)

(** [int(seconds)] of a time in microseconds. *)
Definition whole_seconds (micros : Z) : Z := Z.quot micros 1000000.

(** The row of a specification. *)
Definition catalog_row (s : ToolSpec) : ToolDefinition := {|
  td_key := ts_key s; td_display_name := ts_display_name s; td_description := ts_description s;
  td_status := if ts_enabled s then ToolDefinitionStatus.ACTIVE else ToolDefinitionStatus.DISABLED;
  td_risk_level := ts_risk_level s; td_side_effect_type := ts_side_effect_type s;
  td_handler_key := ts_key s;
  td_default_timeout_seconds := Z.to_N (whole_seconds (default_timeout s));
  td_max_timeout_seconds := Z.to_N (whole_seconds (max_timeout s));
  td_max_retries := max_retries (retry_policy s);
  td_idempotency_mode := ts_idempotency_mode s |}.

(** The widths of the columns, and the two check constraints. *)
Definition definition_fits (d : ToolDefinition) : bool :=
  fits 128 (td_key d) && fits 200 (td_display_name d) && fits 128 (td_handler_key d)
  && forallb fits_int [td_default_timeout_seconds d; td_max_timeout_seconds d; td_max_retries d].
Definition definition_valid (d : ToolDefinition) : bool :=
  negb (String.eqb (td_key d) "") && (0 <? td_default_timeout_seconds d)%N
  && (0 <? td_max_timeout_seconds d)%N.

(** [ToolDefinition.key] is unique. *)
Definition key_clash (a b : ToolDefinition) : bool := String.eqb (td_key a) (td_key b).

Definition save_definition_row (i : N) (d : ToolDefinition) : service () :=
  raise_if (negb (definition_fits d)) DataError;;
  raise_if (negb (definition_valid d)) IntegrityError;;
  save_unique key_clash i d.

(** [ToolDefinition.objects.update_or_create(key=..., defaults=...)]. *)
Definition sync_one (tool : Tool) : service N :=
  let row := catalog_row (spec tool) in
  atomic (
    existing ← first_row (definition_with_key (td_key row));
    match existing with
    | Some (i, _) => save_definition_row i row;; mret i
    | None => i ← fresh; save_definition_row i row;; mret i
    end).

Fixpoint sync_tools (tools : list Tool) : service (list N) :=
  match tools with
  | [] => mret []
  | tool :: tools =>
      i ← sync_one tool;
      synced ← sync_tools tools;
      mret (i :: synced)
  end.

Definition sync_tool_definitions (source_registry : gmap string Tool) : service (list N) :=
  sync_tools (registry_list source_registry).

(** ** Bindings *)

(** [tool_binding_version_tool_uniq]. *)
Definition binding_clash (a b : ToolBinding) : bool :=
  bool_decide (tb_agent_version a = tb_agent_version b)
  && bool_decide (tb_tool_definition a = tb_tool_definition b).

Definition draft (v : AgentVersion) : bool :=
  bool_decide (av_status v = AgentVersionStatus.DRAFT).

(** Of [configuration] the row keeps the one key that is read, [timeout_seconds].  The
    version and the definition are the objects the caller loaded. *)
Definition create_tool_binding (workspace agent_version_id : N) (agent_version : AgentVersion)
    (actor tool_definition_id : N) (tool_definition : ToolDefinition)
    (timeout_seconds : option Z) : service N :=
  raise_if (negb (draft agent_version)) (AgentExc AgentErr.VersionImmutable);;
  raise_if (negb (bool_decide (td_status tool_definition = ToolDefinitionStatus.ACTIVE)))
    (tool_error ToolErr.Configuration "Cannot bind a disabled tool.");;
  atomic (
    binding ← fresh;
    save_unique binding_clash binding
      {| tb_agent_version := agent_version_id; tb_tool_definition := tool_definition_id;
         tb_enabled := true; tb_timeout_seconds := timeout_seconds |};;
    record_event "tool.binding_created" "tool_binding" binding (Some actor) (Some workspace)
      [("agent_version_id", id_json agent_version_id);
       ("tool_key", JStr (td_key tool_definition))];;
    mret binding).

Definition with_enabled (enabled : bool) (b : ToolBinding) : ToolBinding :=
  {| b with tb_enabled := enabled |}.

(** [binding.agent_version], the row the loaded binding points to. *)
Definition set_tool_binding_enabled (workspace binding_id : N) (binding : ToolBinding)
    (actor : N) (enabled : bool) : service () :=
  agent_version ← get_row (tb_agent_version binding);
  raise_if (negb (draft agent_version)) (AgentExc AgentErr.VersionImmutable);;
  atomic (
    save_fields binding_id (with_enabled enabled);;
    record_event (if enabled then "tool.binding_updated" else "tool.binding_disabled")
      "tool_binding" binding_id (Some actor) (Some workspace) [("enabled", JBool enabled)]).

(** ** The mirror agrees with the registry *)

Definition catalogable (s : ToolSpec) : bool :=
  definition_fits (catalog_row s) && definition_valid (catalog_row s).

Definition catalog_wf (w : World) : Prop :=
  unique key_clash (w_tool_definitions w) ∧
  ∀ i, is_Some (w_tool_definitions w !! i) → (i < w_next w)%N.

(** The catalogue and the next identifier replaced. *)
Definition with_catalog (m : gmap N ToolDefinition) (next : N) (w : World) : World :=
  {| w with w_tool_definitions := m; w_next := next |}.

Lemma key_clash_true a b : key_clash a b = true ↔ td_key a = td_key b.
Proof. apply String.eqb_eq. Qed.
Lemma key_clash_sym a b : key_clash a b = key_clash b a.
Proof. apply String.eqb_sym. Qed.

Lemma one_row_per_key w i j a b :
  catalog_wf w → w_tool_definitions w !! i = Some a → w_tool_definitions w !! j = Some b →
  td_key a = td_key b → i = j.
Proof.
  intros [Hu _] Ha Hb Hk. destruct (decide (i = j)) as [|Hne]; [done|].
  pose proof (Hu i j a b Hne Ha Hb) as Hc. apply key_clash_true in Hk. congruence.
Qed.

Lemma same_catalog w : with_catalog (w_tool_definitions w) (w_next w) w = w.
Proof. by destruct w. Qed.

(** What one tool does: the row of its key, or a new row. *)
Definition mirrored (row : ToolDefinition) (i : N) (w w' : World) : Prop :=
  ((∃ old, w_tool_definitions w !! i = Some old ∧ td_key old = td_key row ∧
      w' = with_catalog (<[i := row]> (w_tool_definitions w)) (w_next w) w) ∨
   (i = w_next w ∧ (∀ j d, w_tool_definitions w !! j = Some d → td_key d ≠ td_key row) ∧
      w' = with_catalog (<[i := row]> (w_tool_definitions w)) (N.succ (w_next w)) w)).

Lemma sync_one_spec tool w :
  catalog_wf w → catalogable (spec tool) = true →
  ∃ i w', sync_one tool w = (inr i, w') ∧ mirrored (catalog_row (spec tool)) i w w'.
Proof.
  intros Hwf [Hfit Hok]%andb_true_iff. set (row := catalog_row (spec tool)) in *.
  assert (Hs : ∀ i (v : World), clashes key_clash i row v = false →
    save_definition_row i row v = (inr (), set_rows (<[i := row]> (rows v)) v)).
  { intros i v Hc. unfold save_definition_row. rewrite Hfit, Hok. unfold save_unique, clashes in *.
    unfold mbind, M_bind, raise_if, gets, mret, M_ret. simpl in *. by rewrite Hc. }
  unfold sync_one. fold row. unfold atomic, first_row, gets, mbind, M_bind, mret, M_ret.
  destruct (head (select_rows (definition_with_key (td_key row)) w)) as [[i old]|] eqn:Hh.
  - apply first_row_some in Hh as [Hi Hk%String.eqb_eq].
    rewrite (Hs i w); [|].
    + exists i. eexists. split; [done|]. left. exists old. by destruct w.
    + apply clashes_false. intros j q Hj Hne. apply not_true_iff_false. intros Hc%key_clash_true.
      apply Hne. by apply (one_row_per_key w j i q old); [..|congruence].
  - assert (Hn : ∀ j d, w_tool_definitions w !! j = Some d → td_key d ≠ td_key row).
    { intros j d Hj Hk. apply String.eqb_eq in Hk.
      pose proof (proj1 (first_row_none _ _) Hh j d Hj) as Hf.
      unfold definition_with_key in Hf. congruence. }
    unfold fresh, gets, modify, mbind, M_bind. simpl. rewrite (Hs (w_next w)); [|].
    + exists (w_next w). eexists. split; [done|]. right. split_and!; [done..|]. by destruct w.
    + apply clashes_false. intros j q Hj _. apply not_true_iff_false. intros Hc%key_clash_true.
      by apply (Hn j q Hj).
Qed.

Lemma mirrored_wf row i w w' : catalog_wf w → mirrored row i w w' → catalog_wf w'.
Proof.
  intros Hwf Hm. destruct Hwf as [Hu Hn]. destruct Hm as [(old & Hi & Hk & ->)|(-> & Hk & ->)].
  - assert (Hc : clashes key_clash i row w = false).
    { apply clashes_false. intros j q Hj Hne. apply not_true_iff_false. intros Hc%key_clash_true.
      apply Hne. by apply (one_row_per_key w j i q old); [split|..|congruence]. }
    split; simpl; [exact (unique_insert key_clash key_clash_sym i row w Hu Hc)|].
    intros j [<-|[_ Hj]]%lookup_insert_is_Some; by apply Hn.
  - assert (Hc : clashes key_clash (w_next w) row w = false).
    { apply clashes_false. intros j q Hj _. apply not_true_iff_false. intros Hc%key_clash_true.
      by apply (Hk j q Hj). }
    split; simpl; [exact (unique_insert key_clash key_clash_sym _ row w Hu Hc)|].
    intros j [<-|[_ Hj%Hn]]%lookup_insert_is_Some; lia.
Qed.

(** A second mirror of the same tool changes nothing. *)
Lemma sync_one_again tool w i :
  catalog_wf w → catalogable (spec tool) = true →
  w_tool_definitions w !! i = Some (catalog_row (spec tool)) → sync_one tool w = (inr i, w).
Proof.
  intros Hwf Hok Hi. destruct (sync_one_spec tool w Hwf Hok) as (j & w' & Hr & Hm).
  rewrite Hr. destruct Hm as [(old & Hj & Hk & ->)|(_ & Hn & _)].
  - pose proof (one_row_per_key w j i _ _ Hwf Hj Hi Hk) as ->.
    rewrite insert_id by done. by rewrite same_catalog.
  - by destruct (Hn i _ Hi).
Qed.

(** What mirroring a list of tools leaves and changes. *)
Record synced (keys : list string) (w w' : World) : Prop := {
  sy_shape : w' = with_catalog (w_tool_definitions w') (w_next w') w;
  sy_wf : catalog_wf w → catalog_wf w';
  sy_kept i d : w_tool_definitions w !! i = Some d →
    ∃ d', w_tool_definitions w' !! i = Some d' ∧ td_key d' = td_key d ∧
      (td_key d ∉ keys → d' = d);
  sy_new i d : w_tool_definitions w' !! i = Some d →
    is_Some (w_tool_definitions w !! i) ∨ td_key d ∈ keys;
}.

Lemma synced_refl w : synced [] w w.
Proof. split; [by rewrite same_catalog|done|by eauto|by eauto]. Qed.

Lemma mirrored_synced row i w w' : catalog_wf w → mirrored row i w w' → synced [td_key row] w w'.
Proof.
  intros Hwf Hm. pose proof (mirrored_wf row i w w' Hwf Hm) as Hwf'. split; [|done| |].
  - by destruct Hm as [(?&?&?&->)|(?&?&->)].
  - intros j d Hj. destruct (decide (i = j)) as [<-|Hne].
    + destruct Hm as [(old & Hi & Hk & ->)|(-> & Hn & ->)]; simpl; rewrite lookup_insert_eq.
      * exists row. split_and!; [done|congruence|]. intros Hd. destruct Hd.
        apply list_elem_of_singleton. congruence.
      * destruct Hwf as [_ Hlt]. specialize (Hlt _ (mk_is_Some _ _ Hj)). lia.
    + destruct Hm as [(?&?&?&->)|(?&?&->)]; simpl; rewrite lookup_insert_ne by done; by eauto.
  - intros j d Hj. destruct Hm as [(?&?&?&->)|(?&?&->)]; simpl in Hj;
      apply lookup_insert_Some in Hj as [[<- <-]|[_ Hj]]; (by left; eauto) || (right; by left).
Qed.

Lemma synced_trans ks ks' w1 w2 w3 :
  synced ks w1 w2 → synced ks' w2 w3 → synced (ks ++ ks') w1 w3.
Proof.
  intros [Hs Hw Hk Hn] [Hs' Hw' Hk' Hn']. split.
  - rewrite Hs', Hs. done.
  - auto.
  - intros i d Hi. destruct (Hk i d Hi) as (d2 & Hi2 & E2 & Hd2).
    destruct (Hk' i d2 Hi2) as (d3 & Hi3 & E3 & Hd3). exists d3. split_and!; [done|congruence|].
    rewrite not_elem_of_app. intros [H1 H2]. specialize (Hd2 H1). subst d2. auto.
  - intros i d Hi. rewrite elem_of_app. destruct (Hn' i d Hi) as [[d2 Hi2]|]; [|by eauto].
    destruct (Hk' i d2 Hi2) as (d3 & Hi3 & E3 & _).
    assert (d3 = d) as -> by congruence. rewrite E3. destruct (Hn i d2 Hi2); by eauto.
Qed.

Definition row_of (w : World) (tool : Tool) (i : N) : Prop :=
  w_tool_definitions w !! i = Some (catalog_row (spec tool)).

(** A row of a tool that is not mirrored again stays. *)
Lemma row_stays keys w w' tool i :
  synced keys w w' → tool_key tool ∉ keys → row_of w tool i → row_of w' tool i.
Proof.
  intros Hs Hk Hi. destruct (sy_kept _ _ _ Hs i _ Hi) as (d & Hd & _ & Hsame).
  unfold row_of. rewrite Hd. by rewrite Hsame.
Qed.

Lemma sync_tools_spec tools : NoDup (tool_key <$> tools) → ∀ w,
  catalog_wf w → Forall (λ t, catalogable (spec t) = true) tools →
  ∃ ids w', sync_tools tools w = (inr ids, w') ∧ synced (tool_key <$> tools) w w' ∧
    Forall2 (row_of w') tools ids.
Proof.
  induction tools as [|tool tools IH]; intros Hnd w Hwf Hall.
  { exists [], w. split_and!; [done|apply synced_refl|constructor]. }
  apply NoDup_cons in Hnd as [Hni Hnd]. apply Forall_cons in Hall as [Hok Hall].
  destruct (sync_one_spec tool w Hwf Hok) as (i & w1 & Hr1 & Hm).
  pose proof (mirrored_synced _ i w w1 Hwf Hm) as Hs1.
  destruct (IH Hnd w1 (sy_wf _ _ _ Hs1 Hwf) Hall) as (ids & w2 & Hr2 & Hs2 & Hf).
  exists (i :: ids), w2. split_and!.
  - simpl. unfold mbind, M_bind. rewrite Hr1, Hr2. done.
  - apply (synced_trans [tool_key tool] _ w w1 w2); done.
  - constructor; [|done]. apply (row_stays _ w1 _ _ _ Hs2 Hni).
    unfold row_of. destruct Hm as [(?&?&?&->)|(?&?&->)]; simpl; by rewrite lookup_insert_eq.
Qed.

Lemma sync_tools_again tools ids w :
  catalog_wf w → Forall (λ t, catalogable (spec t) = true) tools →
  Forall2 (row_of w) tools ids → sync_tools tools w = (inr ids, w).
Proof.
  intros Hwf Hall Hf. revert Hall. induction Hf as [|tool i tools ids Hi _ IH]; [done|].
  intros [Hok Hall]%Forall_cons. simpl. unfold mbind, M_bind.
  rewrite (sync_one_again tool w i Hwf Hok Hi), IH by done. done.
Qed.

(** The registry files a tool under its own key ([register]). *)
Definition keyed (tools : gmap string Tool) : Prop :=
  ∀ k t, tools !! k = Some t → tool_key t = k.

Lemma in_registry_list tools t :
  keyed tools → t ∈ registry_list tools ↔ tools !! tool_key t = Some t.
Proof.
  intros Hk. unfold registry_list. rewrite (merge_sort_Permutation _ _), list_elem_of_fmap. split.
  - intros ([k t'] & -> & Hin%elem_of_map_to_list). simpl. by rewrite (Hk k t' Hin).
  - intros Ht. exists (tool_key t, t). split; [done|]. by apply elem_of_map_to_list.
Qed.

Lemma registry_list_nodup tools : keyed tools → NoDup (tool_key <$> registry_list tools).
Proof.
  intros Hk. unfold registry_list. rewrite (merge_sort_Permutation _ _).
  replace (tool_key <$> (map_to_list tools).*2) with (map_to_list tools).*1;
    [apply NoDup_fst_map_to_list|].
  rewrite <-list_fmap_compose. apply list_fmap_ext. intros n [k t] Hn. simpl.
  symmetry. apply Hk, elem_of_map_to_list. by eapply list_elem_of_lookup_2.
Qed.

(** C20. Mirroring the registry ends, writes the catalogue only, leaves exactly one row for
    every registered tool, with its key, risk and limits, keeps the identifiers of the
    rows and every row of another key, invents no tool, and does nothing the second
    time. *)
Theorem sync_mirrors_registry tools w :
  catalog_wf w → keyed tools →
  (∀ k t, tools !! k = Some t → catalogable (spec t) = true) →
  ∃ ids w', sync_tool_definitions tools w = (inr ids, w') ∧
    w' = with_catalog (w_tool_definitions w') (w_next w') w ∧
    (∀ k t, tools !! k = Some t → ∃ i, i ∈ ids ∧
       ∀ j d, w_tool_definitions w' !! j = Some d ∧ td_key d = k ↔
              j = i ∧ d = catalog_row (spec t)) ∧
    (∀ i d, w_tool_definitions w !! i = Some d → ∃ d', w_tool_definitions w' !! i = Some d' ∧
       td_key d' = td_key d ∧ (tools !! td_key d = None → d' = d)) ∧
    (∀ i d, w_tool_definitions w' !! i = Some d → w_tool_definitions w !! i = None →
       is_Some (tools !! td_key d)) ∧
    sync_tool_definitions tools w' = (inr ids, w').
Proof.
  intros Hwf Hk Hok.
  assert (Hall : Forall (λ t, catalogable (spec t) = true) (registry_list tools)).
  { apply Forall_forall. intros t Ht%in_registry_list; [by eapply Hok|done]. }
  assert (Hkeys : ∀ k, k ∈ tool_key <$> registry_list tools ↔ is_Some (tools !! k)).
  { intros k. rewrite list_elem_of_fmap. split.
    - intros (t & -> & Ht%in_registry_list); by eauto.
    - intros [t Ht]. pose proof (Hk k t Ht) as <-. exists t. split; [done|]. by apply in_registry_list. }
  destruct (sync_tools_spec _ (registry_list_nodup tools Hk) w Hwf Hall)
    as (ids & w' & Hr & Hs & Hf).
  pose proof (sy_wf _ _ _ Hs Hwf) as Hwf'. exists ids, w'. split_and!.
  - exact Hr.
  - apply Hs.
  - intros k t Ht. pose proof (Hk k t Ht) as <-.
    apply (in_registry_list tools t Hk), list_elem_of_lookup in Ht as [n Hn].
    destruct (Forall2_lookup_l _ _ _ _ _ Hf Hn) as (i & Hi%list_elem_of_lookup_2 & Hrow).
    exists i. split; [done|]. intros j d. split.
    + intros [Hj Hd]. pose proof (one_row_per_key w' j i d _ Hwf' Hj Hrow Hd) as ->.
      unfold row_of in Hrow. split; congruence.
    + intros [-> ->]. split; [exact Hrow|done].
  - intros i d Hi. destruct (sy_kept _ _ _ Hs i d Hi) as (d' & Hd' & E & Hsame).
    exists d'. split_and!; [done..|]. intros Hnone. apply Hsame. rewrite Hkeys, Hnone. by intros [].
  - intros i d Hd Hnone. destruct (sy_new _ _ _ Hs i d Hd) as [[x Hx]|Hin]; [congruence|].
    by apply Hkeys.
  - by apply sync_tools_again.
Qed.

(** ** The tools of a published version *)

Definition versions_wf (w : World) : Prop :=
  (∀ v, is_Some (w_agent_versions w !! v) → (v < w_next w)%N) ∧
  (∀ b, is_Some (w_tool_bindings w !! b) → (b < w_next w)%N).

(** Version [v] is no draft any more. *)
Definition settled (w : World) (v : N) : Prop :=
  ∃ row, w_agent_versions w !! v = Some row ∧ draft row = false.

(** The bindings of a version. *)
Definition surface (w : World) (v b : N) : option ToolBinding :=
  row ← w_tool_bindings w !! b;
  if bool_decide (tb_agent_version row = v) then Some row else None.

Definition surfaces_frozen : relation World := λ w w',
  versions_wf w → versions_wf w' ∧
  ∀ v, settled w v → settled w' v ∧ ∀ b, surface w' v b = surface w v b.
#[export] Instance surfaces_frozen_preorder : PreOrder surfaces_frozen.
Proof.
  split; [done|]. intros w1 w2 w3 H12 H23 Hwf. destruct (H12 Hwf) as [Hwf2 Hf].
  destruct (H23 Hwf2) as [Hwf3 Hf']. split; [done|]. intros v Hv.
  destruct (Hf v Hv) as [Hv2 Hs]. destruct (Hf' v Hv2) as [Hv3 Hs'].
  split; [done|]. intros b. by rewrite Hs', Hs.
Qed.

Lemma frozen_if_wf w w' : (versions_wf w → surfaces_frozen w w') → surfaces_frozen w w'.
Proof. intros Hf Hwf. by apply Hf. Qed.

(** Writes to neither table. *)
Lemma elsewhere_frozen w w' :
  w_agent_versions w' = w_agent_versions w → w_tool_bindings w' = w_tool_bindings w →
  (w_next w <= w_next w')%N → surfaces_frozen w w'.
Proof.
  intros Hv Hb Hn [H1 H2]. unfold versions_wf, settled, surface. rewrite Hv, Hb.
  split_and!; [intros v Hs; specialize (H1 v Hs); lia|intros b Hs; specialize (H2 b Hs); lia|done].
Qed.

(** The loaded version says it is a draft only where the stored row is one. *)
Definition draft_up_to_date (w : World) (v : N) (loaded : AgentVersion) : Prop :=
  draft loaded = true → ¬ settled w v.

(** Writing the binding of a draft. *)
Lemma write_binding w b row v :
  (b < w_next w)%N → tb_agent_version row = v →
  ¬ settled w v →
  (∀ old, w_tool_bindings w !! b = Some old → tb_agent_version old = v) →
  surfaces_frozen w {| w with w_tool_bindings := <[b := row]> (w_tool_bindings w) |}.
Proof.
  intros Hb Hv Hd Hold [H1 H2]. split; [split; simpl; [done|]|].
  - intros c [<-|[_ Hc]]%lookup_insert_is_Some; [done|by apply H2].
  - intros u Hu. split; [exact Hu|]. intros c. unfold surface. simpl.
    assert (Hne : v ≠ u) by (by intros ->).
    destruct (decide (b = c)) as [<-|Hbc]; [|by rewrite lookup_insert_ne].
    rewrite lookup_insert_eq. simpl. rewrite bool_decide_eq_false_2 by congruence.
    destruct (w_tool_bindings w !! b) as [old|] eqn:Ho; [|done]. simpl.
    rewrite bool_decide_eq_false_2; [done|]. by rewrite (Hold old eq_refl).
Qed.

(** Writing a version that is a draft in the database, or has none yet. *)
Lemma write_version w v row :
  (v < w_next w)%N → (∀ old, w_agent_versions w !! v = Some old → draft old = true) →
  surfaces_frozen w {| w with w_agent_versions := <[v := row]> (w_agent_versions w) |}.
Proof.
  intros Hv Hold [H1 H2]. split; [split; simpl; [|done]|].
  - intros u [<-|[_ Hu]]%lookup_insert_is_Some; [done|by apply H1].
  - intros u (r & Hr & Hd). split; [|done]. exists r. split; [|done]. simpl.
    rewrite lookup_insert_ne; [done|]. intros <-. specialize (Hold r Hr). congruence.
Qed.

Lemma create_binding_frozen ws vid v actor tdid td timeout w :
  draft_up_to_date w vid v →
  wp (create_tool_binding ws vid v actor tdid td timeout) (λ _, surfaces_frozen w) w.
Proof.
  intros Hv. unfold create_tool_binding, save_unique. repeat svc_step; try reflexivity.
  apply frozen_if_wf. intros [_ H2]. assert (Hd : draft v = true) by (by destruct (draft v)).
  assert (Hnone : w_tool_bindings w !! w_next w = None).
  { destruct (w_tool_bindings w !! w_next w) eqn:Hb; [|done].
    specialize (H2 _ (mk_is_Some _ _ Hb)). lia. }
  set (w1 := {| w with w_next := N.succ (w_next w) |}).
  trans w1; [apply elsewhere_frozen; simpl; (done || lia)|].
  etrans; [apply (write_binding w1 (w_next w)
    {| tb_agent_version := vid; tb_tool_definition := tdid; tb_enabled := true;
       tb_timeout_seconds := timeout |} vid); simpl; [lia|done|by apply Hv|]|].
  - intros old Ho. congruence.
  - by apply elsewhere_frozen.
Qed.

Lemma set_binding_frozen ws bid b actor enabled w :
  (∀ b0, w_tool_bindings w !! bid = Some b0 → tb_agent_version b = tb_agent_version b0) →
  wp (set_tool_binding_enabled ws bid b actor enabled) (λ _, surfaces_frozen w) w.
Proof.
  intros Hb. unfold set_tool_binding_enabled, save_fields. repeat svc_step; try reflexivity.
  assert (Hbt : tb_agent_version b = tb_agent_version t) by (by apply Hb).
  etrans; [apply frozen_if_wf; intros [_ H2];
    apply (write_binding w bid (with_enabled enabled t) (tb_agent_version b))
    |by apply elsewhere_frozen].
  - apply H2. by eauto.
  - done.
  - intros (r & Hr & Hd). unfold rows in *. simpl in *. simplify_eq. by rewrite Hd in *.
  - intros old Ho. symmetry. by apply Hb.
Qed.

Lemma publish_frozen ws vid actor w :
  wp (publish_agent_version ws vid actor) (λ _, surfaces_frozen w) w.
Proof.
  unfold publish_agent_version. repeat svc_step; try reflexivity.
  etrans; [apply frozen_if_wf; intros [H1 _];
    apply (write_version w vid (published_version (w_now w) a))|by apply elsewhere_frozen].
  - apply H1. by eauto.
  - intros old Ho. assert (old = a) as -> by (unfold rows in *; simpl in *; congruence).
    unfold draft. by destruct (bool_decide _).
Qed.

Lemma create_version_frozen ws did d actor data w :
  wp (create_agent_version ws did d actor data) (λ _, surfaces_frozen w) w.
Proof.
  unfold create_agent_version, save_unique. repeat svc_step; try reflexivity.
  apply frozen_if_wf. intros [H1 _].
  set (w1 := {| w with w_next := N.succ (w_next w) |}).
  trans w1; [apply elsewhere_frozen; simpl; (done || lia)|].
  etrans; [apply (write_version w1 (w_next w) (new_version (adef_workspace d) did
    (match last_version did w with Some n => (n + 1)%N | None => 1%N end) data)); simpl; [lia|]
    |by apply elsewhere_frozen].
  intros old Ho. specialize (H1 _ (mk_is_Some _ _ Ho)). lia.
Qed.

Lemma sync_frozen tools w : wp (sync_tool_definitions tools) (λ _, surfaces_frozen w) w.
Proof.
  assert (Hf : included surfaces_frozen fresh).
  { intros v. apply elsewhere_frozen; simpl; (done || lia). }
  assert (Hs : ∀ i d, included surfaces_frozen (save_definition_row i d)).
  { intros i d. unfold save_definition_row, save_unique. included_steps.
    intros v. by apply elsewhere_frozen. }
  unfold sync_tool_definitions. generalize (registry_list tools). intros l. revert w.
  change (included surfaces_frozen (sync_tools l)).
  induction l as [|tool l IH]; simpl; unfold sync_one, first_row; included_steps; auto.
Qed.

(** What happens to versions and bindings: requests on a loaded version or binding, the
    start of a process, and everything else.  A loaded version may be stale in all but
    its draft status: [create_tool_binding] tests that status on the object it is given
    ([CatalogExamples.stale_draft_binds] shows what a stale one does).  A loaded binding may
    be stale in everything but the version it belongs to, which no operation changes. *)
Inductive catalog_op (w : World) : World → Prop :=
  | op_bind ws vid v actor tdid td timeout : draft_up_to_date w vid v →
      catalog_op w (create_tool_binding ws vid v actor tdid td timeout w).2
  | op_enable ws bid b actor enabled :
      (∀ b0, w_tool_bindings w !! bid = Some b0 → tb_agent_version b = tb_agent_version b0) →
      catalog_op w (set_tool_binding_enabled ws bid b actor enabled w).2
  | op_sync tools : catalog_op w (sync_tool_definitions tools w).2
  | op_new_version ws did d actor data :
      catalog_op w (create_agent_version ws did d actor data w).2
  | op_publish ws vid actor : catalog_op w (publish_agent_version ws vid actor w).2
  | op_elsewhere w' : w_agent_versions w' = w_agent_versions w →
      w_tool_bindings w' = w_tool_bindings w → (w_next w <= w_next w')%N → catalog_op w w'.

Lemma catalog_op_frozen w w' : catalog_op w w' → surfaces_frozen w w'.
Proof.
  intros [ws vid v actor tdid td timeout Hv|ws bid b actor enabled Hb|tools|ws did d actor data
    |ws vid actor|w0 Hv Hb Hn].
  - exact (create_binding_frozen ws vid v actor tdid td timeout w Hv).
  - exact (set_binding_frozen ws bid b actor enabled w Hb).
  - exact (sync_frozen tools w).
  - exact (create_version_frozen ws did d actor data w).
  - exact (publish_frozen ws vid actor w).
  - by apply elsewhere_frozen.
Qed.

(** C10. Over any sequence of requests on bindings and versions, of mirrorings of the registry
    and of writes elsewhere, a version that is no draft stays none, and its bindings stay
    what they were: none is added, none is switched on or off.  The requests that add a
    binding do so on a version object whose draft status is not stale; with a stale one a
    binding is added to a published version, which [CatalogExamples.stale_draft_binds] shows. *)
Theorem published_tools_frozen w w' v :
  versions_wf w → rtc catalog_op w w' → settled w v →
  settled w' v ∧ ∀ b, surface w' v b = surface w v b.
Proof.
  intros Hwf Hops Hv. assert (Hf : surfaces_frozen w w').
  { induction Hops as [|w1 w2 w3 H12 _ IH]; [reflexivity|].
    pose proof (catalog_op_frozen _ _ H12) as H. destruct (H Hwf) as [Hwf2 Hs].
    etrans; [exact H|]. apply IH; [done|]. by apply Hs. }
  destruct (Hf Hwf) as [_ Hs]. by apply Hs.
Qed.

(** ** The shipped registry *)

Section Shipped.
Context `{Settings} `{PyLib} `{Network} `{Pydantic} `{Vendors} `{KeyLib}.

(** What the default policy is told about a tool. *)
Definition shipped_spec_ok (t : Tool) : bool :=
  spec_ok (spec t) && catalogable (spec t)
  && (bool_decide (ts_risk_level (spec t) ≠ RiskLevel.READ_ONLY)
      || bool_decide (ts_side_effect_type (spec t) ∈ [SideEffectType.NONE; SideEffectType.READ])).

Lemma shipped_specs : Forall (λ t, shipped_spec_ok t = true)
  (ALL_INTEGRATION_TOOLS ++ [ECHO_TOOL; ADD_TOOL; FLAKY_TOOL]).
Proof. repeat apply Forall_cons_2; try apply Forall_nil_2; reflexivity. Qed.

Lemma register_keyed t tools tools' : keyed tools → register t tools = inr tools' → keyed tools'.
Proof.
  intros Hk. unfold register. case_bool_decide; [done|]. intros [= <-] k x.
  intros [[<- <-]|[_ Hx]]%lookup_insert_Some; [done|by apply Hk].
Qed.

Lemma register_all_keyed l tools : keyed tools → keyed (register_all l tools).
Proof.
  revert tools. induction l as [|t l IH]; intros tools Hk; [done|]. apply IH.
  unfold register_missing. destruct (register t tools) eqn:Hr; [done|]. by eapply register_keyed.
Qed.

Lemma registered_keyed : keyed registered_tools.
Proof. apply register_all_keyed, register_all_keyed. intros k t. by rewrite lookup_empty. Qed.

Lemma registered_spec k t : registered_tools !! k = Some t → shipped_spec_ok t = true.
Proof. intros Ht%registry_in. exact (proj1 (Forall_forall _ _) shipped_specs t Ht). Qed.

Lemma registered_catalogable k t :
  registered_tools !! k = Some t → catalogable (spec t) = true.
Proof.
  intros Ht%registered_spec. unfold shipped_spec_ok in Ht.
  by apply andb_true_iff in Ht as [[_ ?]%andb_true_iff _].
Qed.

(** The row of a registered tool in the mirrored catalogue. *)
Lemma mirrored_row w ids w' i td t :
  catalog_wf w → sync_tool_definitions registered_tools w = (inr ids, w') →
  w_tool_definitions w' !! i = Some td → registered_tools !! td_key td = Some t →
  td = catalog_row (spec t).
Proof.
  intros Hwf Hr Hi Ht.
  assert (Hall : Forall (λ t, catalogable (spec t) = true) (registry_list registered_tools)).
  { apply Forall_forall. intros x Hx%in_registry_list; [|apply registered_keyed].
    by eapply registered_catalogable. }
  destruct (sync_tools_spec _ (registry_list_nodup _ registered_keyed) w Hwf Hall)
    as (ids' & w1 & Hr' & Hs & Hf).
  assert (w' = w1) as <- by exact (f_equal snd (eq_trans (eq_sym Hr) Hr')).
  pose proof (registered_keyed _ _ Ht) as Hk.
  rewrite <-Hk in Ht. apply (in_registry_list _ _ registered_keyed), list_elem_of_lookup in Ht as [n Hn].
  destruct (Forall2_lookup_l _ _ _ _ _ Hf Hn) as (j & _ & Hrow). unfold row_of in Hrow.
  assert (i = j) as <-; [|congruence].
  by apply (one_row_per_key w' i j td _ (sy_wf _ _ _ Hs Hwf) Hi Hrow).
Qed.

Lemma registered_mirrored w k t :
  catalog_wf w → registered_tools !! k = Some t →
  ∃ ids w' i, sync_tool_definitions registered_tools w = (inr ids, w') ∧
    w_tool_definitions w' !! i = Some (catalog_row (spec t)).
Proof.
  intros Hwf Ht.
  destruct (sync_tools_spec _ (registry_list_nodup _ registered_keyed) w Hwf)
    as (ids & w' & Hr & _ & Hf).
  { apply Forall_forall. intros x Hx%in_registry_list; [|apply registered_keyed].
    by eapply registered_catalogable. }
  pose proof (registered_keyed _ _ Ht) as Hk. rewrite <-Hk in Ht.
  apply (in_registry_list _ _ registered_keyed), list_elem_of_lookup in Ht as [n Hn].
  destruct (Forall2_lookup_l _ _ _ _ _ Hf Hn) as (i & _ & Hrow).
  exists ids, w', i. exact (conj Hr Hrow).
Qed.

Lemma read_only_effects k : k ∈ [SideEffectType.NONE; SideEffectType.READ] →
  k ∈ [SideEffectType.NONE; SideEffectType.READ; SideEffectType.INTERNAL_WRITE].
Proof. intros Hk. apply (elem_of_app [_; _] [_]). by left. Qed.

Lemma default_decides key base kind arguments d :
  evaluate_policy key (assess_risk key base kind arguments) arguments None = Ok d →
  decision d = dd_decision (evaluate_system_default key base
    (effective_risk (assess_risk key base kind arguments)) kind arguments).
Proof. intros [= <-]. reflexivity. Qed.

(** C21. Once the shipped registry is mirrored, a workspace without a policy of its own runs
    without an approval only the tools that write nothing outside of the database, and
    refunds in US dollars up to the automatic threshold. *)
Theorem shipped_writes_need_approval w ids w' i td t arguments d :
  catalog_wf w → sync_tool_definitions registered_tools w = (inr ids, w') →
  w_tool_definitions w' !! i = Some td → registered_tools !! td_key td = Some t →
  evaluate_policy (td_key td)
    (assess_risk (td_key td) (td_risk_level td) (td_side_effect_type td) arguments)
    arguments None = Ok d →
  decision d = PolicyEffect.ALLOW →
  td_side_effect_type td ∈ [SideEffectType.NONE; SideEffectType.READ; SideEffectType.INTERNAL_WRITE] ∨
  (td_key td = "payment.refund" ∧ ∃ amount currency,
     as_number (args_get arguments "amount_minor") = Some amount ∧
     args_get arguments "currency" = JStr currency ∧ str_upper currency = "USD" ∧
     num_le_Z amount POLICIES_DEFAULT_REFUND_AUTO_ALLOW_MAX_MINOR = true).
Proof.
  intros Hwf Hr Hi Ht. rewrite (mirrored_row w ids w' i td t Hwf Hr Hi Ht).
  intros Hd. rewrite (default_decides _ _ _ _ _ Hd), system_default_allows.
  apply registered_spec in Ht as [_ Hro]%andb_true_iff.
  unfold catalog_row. cbn [td_key td_side_effect_type td_risk_level].
  intros [->|[Hb|[[Hk Hx]|[_ [->|[-> _]]]]]].
  - left. clear. set_solver.
  - left. rewrite Hb in Hro. apply bool_decide_eq_true in Hro. by apply read_only_effects.
  - right. exact (conj Hk Hx).
  - left. clear. set_solver.
  - left. clear. set_solver.
Qed.
End Shipped.

(** ** Examples *)

Module CatalogExamples.
#[local] Existing Instance default_settings.
#[local] Existing Instance trivial_pylib.
#[local] Existing Instance ToolExamples.net.
#[local] Existing Instance example_pydantic.
#[local] Existing Instance example_vendors.
#[local] Instance keylib : KeyLib := {| uuid_of_text := read_key |}.

Definition draft_version : AgentVersion :=
  new_version 1 2 1 {| avd_provider := "fake"; avd_model := "m"; avd_system_prompt := None;
    avd_temperature := None; avd_max_output_tokens := None; avd_max_model_calls := None;
    avd_max_steps := None; avd_wall_time_limit_seconds := None;
    avd_provider_timeout_seconds := None; avd_max_total_tokens := None;
    avd_max_estimated_cost_usd := None; avd_max_retry_attempts := None;
    avd_max_tool_calls := None; avd_runtime_config := None |}.

Definition shop : gmap string Tool :=
  register_all [ECHO_TOOL; ADD_TOOL; FLAKY_TOOL] ∅.
Definition world : World :=
  {| empty_world with w_next := 10; w_agent_versions := {[ 3%N := draft_version ]} |}.

Definition mirrored_world : World := (sync_tool_definitions shop world).2.
Example shop_mirrored :
  (sync_tool_definitions shop world).1 = inr [10%N; 11%N; 12%N] ∧
  (td_key <$> w_tool_definitions mirrored_world !! 10%N) = Some "demo.add".
Proof. by split. Qed.

Lemma empty_catalog_wf : catalog_wf world.
Proof.
  split; simpl; [intros i j a b _; by rewrite lookup_empty|].
  intros i. rewrite lookup_empty. by intros [].
Qed.

Lemma sync_mirrors_registry_witness :
  ∃ ids w', sync_tool_definitions shop world = (inr ids, w') ∧
    sync_tool_definitions shop w' = (inr ids, w').
Proof.
  destruct (sync_mirrors_registry shop world) as (ids & w' & H1 & _ & _ & _ & _ & H2);
    [| | |exact (ex_intro _ ids (ex_intro _ w' (conj H1 H2)))].
  - exact empty_catalog_wf.
  - apply register_all_keyed. intros k t. by rewrite lookup_empty.
  - intros k t [Ht|Ht]%register_all_in; [|by rewrite lookup_empty in Ht].
    assert (Hall : Forall (λ t, catalogable (spec t) = true) [ECHO_TOOL; ADD_TOOL; FLAKY_TOOL]).
    { repeat apply Forall_cons_2; try apply Forall_nil_2; reflexivity. }
    exact (proj1 (Forall_forall _ _) Hall t Ht).
Defined.

(** A refund of ten cents. *)
Definition small_refund : list (string * json) :=
  [("amount_minor", JInt 10); ("currency", JStr "USD")].
Lemma shipped_writes_need_approval_witness :
  ∃ d, evaluate_policy "payment.refund"
         (assess_risk "payment.refund" RiskLevel.CRITICAL SideEffectType.FINANCIAL small_refund)
         small_refund None = Ok d ∧ decision d = PolicyEffect.ALLOW ∧
    (SideEffectType.FINANCIAL ∈ [SideEffectType.NONE; SideEffectType.READ; SideEffectType.INTERNAL_WRITE]
     ∨ ("payment.refund" = "payment.refund" ∧ ∃ amount currency,
     as_number (args_get small_refund "amount_minor") = Some amount ∧
     args_get small_refund "currency" = JStr currency ∧ str_upper currency = "USD" ∧
     num_le_Z amount POLICIES_DEFAULT_REFUND_AUTO_ALLOW_MAX_MINOR = true)).
Proof.
  assert (Ht : registered_tools !! "payment.refund" = Some PAYMENT_REFUND_TOOL) by reflexivity.
  destruct (registered_mirrored world _ _ empty_catalog_wf Ht) as (ids & w' & i & Hr & Hi).
  eexists. split; [reflexivity|]. split; [reflexivity|].
  refine (shipped_writes_need_approval world ids w' i _ PAYMENT_REFUND_TOOL small_refund _
    empty_catalog_wf Hr Hi Ht _ _); reflexivity.
Defined.

(** A version is published and a request tries to bind a tool to it. *)
Definition published_world : World := (publish_agent_version 1 3 7
  {| world with w_tool_definitions := {[ 9%N := catalog_row (spec ECHO_TOOL) ]} |}).2.
Definition published_row : AgentVersion := published_version 1000000000 draft_version.

Lemma published_tools_frozen_witness :
  let w' := (create_tool_binding 1 3 published_row 7 9 (catalog_row (spec ECHO_TOOL)) None
               published_world).2 in
  settled w' 3 ∧ ∀ b, surface w' 3 b = surface published_world 3 b.
Proof.
  apply published_tools_frozen.
  - split.
    + intros v [x Hx].
      change ((<[3%N := published_row]> {[ 3%N := draft_version ]} : gmap N AgentVersion) !! v
        = Some x) in Hx.
      apply lookup_insert_Some in Hx as [[<- _]|[Hne Hx%lookup_singleton_Some]]; [done|].
      by destruct Hx as [<- _].
    + intros b [x Hx]. change ((∅ : gmap N ToolBinding) !! b = Some x) in Hx.
      by rewrite lookup_empty in Hx.
  - apply rtc_once, op_bind. by intros Hd.
  - exists published_row. by split.
Defined.

(** The service looks at the object it was handed: one that was loaded before the version
    was published still binds a tool to it. *)
Theorem stale_draft_binds :
  let r := create_tool_binding 1 3 draft_version 7 9 (catalog_row (spec ECHO_TOOL)) None
             published_world in
  settled published_world 3 ∧ r.1 = inr 10%N ∧
  surface published_world 3 10 = None ∧ is_Some (surface r.2 3 10).
Proof. split_and!; [by exists published_row|reflexivity|reflexivity|by eexists]. Qed.
End CatalogExamples.
