(* ===== verification/Http.v ===== *)
(** * Requests and responses

    [common/exceptions.py], [common/query_params.py], [WorkspaceScopedMixin] of
    [workspaces/views.py], the [permissions.py] files and the selectors of
    [workspaces/selectors.py] they rest on: what every view of the API does before and
    after its own work.  A view is a service that answers with a response; the handler
    of exceptions makes it a total function.

    A request is what is left of one after authentication, routing and the serializer:
    the user, the keys in the path, the query parameters, and the validated document,
    which is [None] when the serializer refuses it. *)

From stdpp Require Import base gmap strings list pretty sorting.
From Stdlib Require Import ZArith Ascii String Lia.
From S2P Require Import Prelude Json Domain Policy Models Store PolicyAdmin Delivery Network Webhooks Approvals ToolExec Workspaces Conversations Tickets Schemas Adapters Integrations IntegrationTools AgentRuns Chunking Knowledge AgentContext Scoring Evaluations Ingress.

(** ** Responses *)

(** What a serializer renders. *)
Inductive Resource :=
  | RWorkspace | RMembership | RCustomer | RConversation | RMessage | RTicket | RHandoff
  | RAgent | RAgentVersion | RAgentRun | RToolDefinition | RToolBinding | RToolExecution
  | RPolicy | RPolicyVersion | RPolicyRule | RApproval
  | RWebhookEndpoint | RWebhookDelivery | RConnection
  | RSource | RDocument | RJob | RRetrieval | RChunk
  | RDataset | RCase | REvaluationRun | REvaluationResult
  | RChannelEndpoint | RInboundEvent.
#[export] Instance resource_eq_dec : EqDecision Resource. Proof. solve_decision. Defined.

(** The objects of a response, by key and in order; the steps of a run are numbered
    within it.  A signing secret is revealed once; a comparison and the outcome of a
    connection test are values. *)
Inductive Payload :=
  | NoContent
  | One (r : Resource) (key : N)
  | Many (r : Resource) (keys : list N)
  | Trace (run : N) (sequence : list N)
  | Several (objects : list (Resource * N))
  | Revealed (r : Resource) (key : N) (signing_secret : option string)
  | Secret (signing_secret : string)
  | Tested (result : ConnectionTest)
  | Compared (comparison : Comparison)
  | ErrorCode (code : string).

Record Response := { rs_status : N; rs_payload : Payload }.

Definition ok (p : Payload) : service Response := mret {| rs_status := 200; rs_payload := p |}.
Definition created (p : Payload) : service Response := mret {| rs_status := 201; rs_payload := p |}.
Definition no_content : service Response := mret {| rs_status := 204; rs_payload := NoContent |}.

(** The status of an exception of the framework, and the code of its envelope
    ([_stable_code_for]); whatever the framework does not know is a 500. *)
Definition error_of (e : exn) : N * string :=
  match e with
  | NotAuthenticated => (401%N, "authentication_failed")
  | PermissionDenied => (403%N, "permission_denied")
  | ValidationError _ => (400%N, "validation_error")
  | ConflictError => (409%N, "validation_error")
  | SafeAPIError status code => (status, code)
  | OtherExc n => if (n =? 6)%N then (404%N, "not_found") else (500%N, "internal_server_error")
  | _ => (500%N, "internal_server_error")
  end.

Definition custom_exception_handler (e : exn) : Response :=
  {| rs_status := (error_of e).1; rs_payload := ErrorCode (error_of e).2 |}.

(** A view with the handler around it. *)
Definition handle (view : service Response) (w : World) : Response * World :=
  match view w with
  | (inr r, w') => (r, w')
  | (inl e, w') => (custom_exception_handler e, w')
  end.

(** [raise ConflictError(exc.safe_message) from exc], or [SafeAPIError(...)]. *)
Definition converting {A} (convert : exn → option exn) (m : service A) : service A :=
  catch m (λ e, raise (default e (convert e))).

(** [serializer.is_valid(raise_exception=True)]. *)
Definition validated {A} (data : option A) : service A := or_raise data (ValidationError "body").

(** [get_object_or_404] and the selectors that raise [Http404]. *)
Definition or_404 {A} (found : option A) : service A := or_raise found Http404.

(** A row of a table, if it satisfies [P]. *)
Definition find_where {A} `{Table A} (i : N) (P : A → bool) : service (option (N * A)) :=
  row ← find_row i;
  mret (match row with Some r => if P r then Some (i, r) else None | None => None end).
Definition get_or_404 {A} `{Table A} (i : N) (P : A → bool) : service (N * A) :=
  row ← find_where i P;
  or_404 row.

(** ** Query parameters ([common/query_params.py]) *)

Section Parameters.
Context `{KeyLib}.

Definition parse_uuid_filter (value : option string) (param : string) : service (option N) :=
  match given value with
  | None => mret None
  | Some text =>
      match uuid_of_text text with
      | Some i => mret (Some i)
      | None => raise (ValidationError param)
      end
  end.
End Parameters.

Definition as_bool (value : option string) : option bool :=
  match value with
  | Some s => Some (str_in (str_lower (str_strip s)) ["1"; "true"; "yes"])
  | None => None
  end.

(** A filter that is left out, or that the row has to satisfy. *)
Definition filter_by {A} (wanted : option A) (P : A → bool) : bool :=
  match wanted with Some a => P a | None => true end.
Definition text_is (wanted : option string) (s : string) : bool := filter_by wanted (String.eqb s).
Definition key_is (wanted : option N) (key : option N) : bool :=
  filter_by wanted (λ i, bool_decide (key = Some i)).

(** [if unassigned: ... elif assigned_to is not None: ...]. *)
Definition assignment_is (unassigned : option bool) (assigned_to key : option N) : bool :=
  if default false unassigned then bool_decide (key = None) else key_is assigned_to key.

(** The rows that satisfy [P], newest first: identifiers are drawn in order. *)
Definition newest_first {A} `{Table A} (P : A → bool) (w : World) : list (N * A) :=
  rev (select_rows (λ _ r, P r) w).

(** ** Permissions *)

(** What a permission class is asked: the membership of the request. *)
Abbreviation Permission := (option Actor → bool).

Definition has_role (roles : list WorkspaceRole.t) : Permission := λ membership,
  match membership with Some m => bool_decide (mb_role m.2 ∈ roles) | None => false end.

Definition IsWorkspaceMember : Permission := λ membership,
  match membership with Some _ => true | None => false end.
Definition IsWorkspaceOwner : Permission := has_role [WorkspaceRole.OWNER].

Definition WORKSPACE_SETTINGS_ROLES : list WorkspaceRole.t :=
  [WorkspaceRole.OWNER; WorkspaceRole.ADMIN].
Definition MEMBER_MANAGEMENT_ROLES : list WorkspaceRole.t :=
  [WorkspaceRole.OWNER; WorkspaceRole.ADMIN].
Definition CanManageWorkspace : Permission := has_role WORKSPACE_SETTINGS_ROLES.
Definition CanManageMembers : Permission := has_role MEMBER_MANAGEMENT_ROLES.

Definition CUSTOMER_WRITE_ROLES : list WorkspaceRole.t :=
  [WorkspaceRole.OWNER; WorkspaceRole.ADMIN; WorkspaceRole.SUPPORT_MANAGER;
   WorkspaceRole.SUPPORT_AGENT].
Definition CanWriteCustomers : Permission := has_role CUSTOMER_WRITE_ROLES.

Definition NON_VIEWER_ROLES : list WorkspaceRole.t :=
  [WorkspaceRole.OWNER; WorkspaceRole.ADMIN; WorkspaceRole.SUPPORT_MANAGER;
   WorkspaceRole.SUPPORT_AGENT].
Definition CanMutateConversations : Permission := has_role NON_VIEWER_ROLES.
(** The same set is written again in [tickets/permissions.py]. *)
Definition CanMutateTickets : Permission := has_role NON_VIEWER_ROLES.
Definition CanManageHandoffs : Permission := has_role HANDOFF_MANAGE_ROLES.

Definition AGENT_CONFIGURE_ROLES : list WorkspaceRole.t :=
  [WorkspaceRole.OWNER; WorkspaceRole.ADMIN; WorkspaceRole.SUPPORT_MANAGER].
Definition AGENT_RUN_ROLES : list WorkspaceRole.t :=
  [WorkspaceRole.OWNER; WorkspaceRole.ADMIN; WorkspaceRole.SUPPORT_MANAGER;
   WorkspaceRole.SUPPORT_AGENT].
Definition CanConfigureAgents : Permission := has_role AGENT_CONFIGURE_ROLES.
Definition CanRunAgents : Permission := has_role AGENT_RUN_ROLES.

Definition TOOL_CONFIGURE_ROLES : list WorkspaceRole.t :=
  [WorkspaceRole.OWNER; WorkspaceRole.ADMIN; WorkspaceRole.SUPPORT_MANAGER].
Definition CanConfigureTools : Permission := has_role TOOL_CONFIGURE_ROLES.

Definition POLICY_MANAGE_ROLES : list WorkspaceRole.t :=
  [WorkspaceRole.OWNER; WorkspaceRole.ADMIN].
Definition CanManagePolicies : Permission := has_role POLICY_MANAGE_ROLES.

Definition WEBHOOK_MANAGE_ROLES : list WorkspaceRole.t :=
  [WorkspaceRole.SUPPORT_MANAGER; WorkspaceRole.ADMIN; WorkspaceRole.OWNER].
Definition CanManageWebhooks : Permission := has_role WEBHOOK_MANAGE_ROLES.
Definition CHANNEL_MANAGE_ROLES : list WorkspaceRole.t :=
  [WorkspaceRole.SUPPORT_MANAGER; WorkspaceRole.ADMIN; WorkspaceRole.OWNER].
Definition CanManageChannels : Permission := has_role CHANNEL_MANAGE_ROLES.
Definition INTEGRATION_MANAGE_ROLES : list WorkspaceRole.t :=
  [WorkspaceRole.OWNER; WorkspaceRole.ADMIN].
Definition CanManageIntegrations : Permission := has_role INTEGRATION_MANAGE_ROLES.
Definition KNOWLEDGE_MANAGEMENT_ROLES : list WorkspaceRole.t :=
  [WorkspaceRole.OWNER; WorkspaceRole.ADMIN; WorkspaceRole.SUPPORT_MANAGER].
Definition CanManageKnowledge : Permission := has_role KNOWLEDGE_MANAGEMENT_ROLES.
Definition EVALUATION_MANAGE_ROLES : list WorkspaceRole.t :=
  [WorkspaceRole.OWNER; WorkspaceRole.ADMIN; WorkspaceRole.SUPPORT_MANAGER].
Definition EVALUATION_RUN_ROLES : list WorkspaceRole.t := EVALUATION_MANAGE_ROLES.
Definition EVALUATION_VIEW_ROLES : list WorkspaceRole.t :=
  [WorkspaceRole.OWNER; WorkspaceRole.ADMIN; WorkspaceRole.SUPPORT_MANAGER;
   WorkspaceRole.SUPPORT_AGENT; WorkspaceRole.VIEWER].
Definition CanViewEvaluations : Permission := has_role EVALUATION_VIEW_ROLES.
Definition CanManageEvaluations : Permission := has_role EVALUATION_MANAGE_ROLES.
Definition CanRunEvaluations : Permission := has_role EVALUATION_RUN_ROLES.

(** ** [WorkspaceScopedMixin] *)

(** The caller's active membership of a workspace. *)
Definition active_member (workspace user : N) (i : N) (m : WorkspaceMembership) : bool :=
  membership_of workspace user i m && mb_is_active m.

Definition get_active_membership (workspace user : N) : service (option Actor) :=
  first_row (active_member workspace user).

(** The workspace exists and the user has an active membership in it. *)
Definition get_workspace_for_user_or_404 (user workspace_id : N) : service (N * Workspace) :=
  member ← gets (exists_row (active_member workspace_id user));
  get_or_404 workspace_id (λ _, member).

(** What a view reads off [self] and the request. *)
Record Scope := { sc_user : N; sc_workspace : N; sc_membership : option Actor }.

(** [check_permissions], then the view's own method. *)
Definition scoped (permissions : list Permission) (user : option N) (workspace_id : N)
    (view : Scope → service Response) : service Response :=
  match user with
  | None => raise NotAuthenticated
  | Some user =>
      workspace ← get_workspace_for_user_or_404 user workspace_id;
      membership ← get_active_membership workspace.1 user;
      raise_if (negb (forallb (λ permission, permission membership) permissions))
        PermissionDenied;;
      view {| sc_user := user; sc_workspace := workspace.1; sc_membership := membership |}
  end.

(** [self.membership], where a view uses an attribute of it. *)
Definition membership_of_scope (scope : Scope) : service Actor :=
  or_raise (sc_membership scope) AttributeError.

(** ** Whose objects a response shows *)

Definition policy_tenant (w : World) (policy : N) : option N :=
  pol_workspace <$> w_policies w !! policy.
Definition version_tenant (w : World) (version : N) : option N :=
  w_policy_versions w !! version ≫= λ v, policy_tenant w (pv_policy v).

(** The workspace an object belongs to; the catalogue of tools belongs to nobody. *)
Definition tenant (w : World) (r : Resource) (key : N) : option N :=
  match r with
  | RWorkspace => (λ _, key) <$> w_workspaces w !! key
  | RMembership => mb_workspace <$> w_memberships w !! key
  | RCustomer => cu_workspace <$> w_customers w !! key
  | RConversation => cv_workspace <$> w_conversations w !! key
  | RMessage => msg_workspace <$> w_messages w !! key
  | RTicket => tk_workspace <$> w_tickets w !! key
  | RHandoff => ho_workspace <$> w_handoffs w !! key
  | RAgent => adef_workspace <$> w_agent_definitions w !! key
  | RAgentVersion => av_workspace <$> w_agent_versions w !! key
  | RAgentRun => run_workspace <$> w_agent_runs w !! key
  | RToolDefinition => None
  | RToolBinding =>
      w_tool_bindings w !! key ≫= λ b, av_workspace <$> w_agent_versions w !! tb_agent_version b
  | RToolExecution => te_workspace <$> w_tool_executions w !! key
  | RPolicy => policy_tenant w key
  | RPolicyVersion => version_tenant w key
  | RPolicyRule => w_policy_rules w !! key ≫= λ r, version_tenant w (rule_version r)
  | RApproval => ar_workspace <$> w_approvals w !! key
  | RWebhookEndpoint => we_workspace <$> w_webhook_endpoints w !! key
  | RWebhookDelivery => wd_workspace <$> w_webhook_deliveries w !! key
  | RConnection => ic_workspace <$> w_integration_connections w !! key
  | RSource => ks_workspace <$> w_knowledge_sources w !! key
  | RDocument => kd_workspace <$> w_knowledge_documents w !! key
  | RJob => kj_workspace <$> w_knowledge_jobs w !! key
  | RRetrieval => rev_workspace <$> w_retrieval_events w !! key
  | RChunk => kc_workspace <$> w_knowledge_chunks w !! key
  | RDataset => ed_workspace <$> w_evaluation_datasets w !! key
  | RCase => w_evaluation_cases w !! key ≫= λ c,
      ed_workspace <$> w_evaluation_datasets w !! ec_dataset c
  | REvaluationRun => ev_workspace <$> w_evaluation_runs w !! key
  | REvaluationResult => w_evaluation_results w !! key ≫= λ r,
      ev_workspace <$> w_evaluation_runs w !! er_run r
  | RChannelEndpoint => ce_workspace <$> w_channel_endpoints w !! key
  | RInboundEvent => ie_workspace <$> w_inbound_events w !! key
  end.

(** Every object of a response belongs to [workspace]. *)
Definition answers_from (workspace : N) (w : World) (p : Payload) : Prop :=
  match p with
  | NoContent | ErrorCode _ | Secret _ | Tested _ | Compared _ => True
  | One r key => r = RToolDefinition ∨ tenant w r key = Some workspace
  | Many r keys => r = RToolDefinition ∨ ∀ key, key ∈ keys → tenant w r key = Some workspace
  | Trace run _ => tenant w RAgentRun run = Some workspace
  | Several objects => ∀ r key, (r, key) ∈ objects → tenant w r key = Some workspace
  | Revealed r key _ => tenant w r key = Some workspace
  end.
