(* ===== verification/ApiDesk.v ===== *)
(** * The desk's views

    The views of [workspaces/], [customers/], [conversations/] and [tickets/] with the
    selectors they use, one definition per view and method, in the order of the source:
    the object in the path is looked up before the document is validated.  A request is
    one constructor of [desk_request], and [desk] routes it. *)

From stdpp Require Import base gmap strings list pretty sorting.
From Stdlib Require Import ZArith Ascii String Lia.
From S2P Require Import Prelude Json Domain Policy Models Store PolicyAdmin Delivery Network Webhooks Approvals ToolExec Workspaces Conversations Tickets Schemas Adapters Integrations IntegrationTools Ingress Http.

Section Desk.
Context `{Settings} `{PyLib} `{Network} `{KeyLib}.
Context (slugify normalize_email : string → string).

Definition keys {A} (rows : list (N * A)) : list N := rows.*1.

(** [metadata or {}]. *)
Definition metadata_or_empty (metadata : option json) : json :=
  match metadata with Some m => if falsy m then JObj [] else m | None => JObj [] end.

(** ** Workspaces ([workspaces/views.py]) *)

(** The workspaces with an active membership of the user. *)
Definition list_workspaces_for_user (user : N) (w : World) : list (N * Workspace) :=
  rev (select_rows (λ i _, exists_row (active_member i user) w) w).

(** The two endpoints that are not below a workspace. *)
Definition workspace_list (user : option N) : service Response :=
  user ← or_raise user NotAuthenticated;
  rows ← gets (list_workspaces_for_user user);
  ok (Many RWorkspace (keys rows)).
Definition workspace_create (user : option N) (data : option string) : service Response :=
  user ← or_raise user NotAuthenticated;
  name ← validated data;
  workspace ← create_workspace slugify user name;
  created (One RWorkspace workspace).

Definition workspace_detail (scope : Scope) : service Response :=
  ok (One RWorkspace (sc_workspace scope)).

Definition workspace_patch (data : option (option string)) (scope : Scope) : service Response :=
  name ← validated data;
  update_workspace (sc_workspace scope) (sc_user scope) name;;
  ok (One RWorkspace (sc_workspace scope)).

Definition in_workspace (workspace : N) (m : WorkspaceMembership) : bool :=
  bool_decide (mb_workspace m = workspace).

Definition get_workspace_members (workspace : N) (w : World) : list (N * WorkspaceMembership) :=
  newest_first (λ m, in_workspace workspace m && mb_is_active m) w.

Definition get_workspace_member_or_404 (workspace membership_id : N) : service Actor :=
  get_or_404 membership_id (in_workspace workspace).

Definition member_list (scope : Scope) : service Response :=
  rows ← gets (get_workspace_members (sc_workspace scope));
  ok (Many RMembership (keys rows)).

Definition member_create (data : option (string * WorkspaceRole.t)) (scope : Scope)
    : service Response :=
  data ← validated data;
  actor ← membership_of_scope scope;
  membership ← add_workspace_member normalize_email (sc_workspace scope) (sc_user scope)
    (mb_role actor.2) data.1 data.2;
  created (One RMembership membership).

Definition member_detail (membership_id : N) (scope : Scope) : service Response :=
  member ← get_workspace_member_or_404 (sc_workspace scope) membership_id;
  ok (One RMembership member.1).

Definition member_patch (membership_id : N) (data : option WorkspaceRole.t) (scope : Scope)
    : service Response :=
  target ← get_workspace_member_or_404 (sc_workspace scope) membership_id;
  new_role ← validated data;
  actor ← membership_of_scope scope;
  change_workspace_member_role (sc_workspace scope) (sc_user scope) (mb_role actor.2)
    target.1 target.2 new_role;;
  ok (One RMembership target.1).

Definition member_delete (membership_id : N) (scope : Scope) : service Response :=
  target ← get_workspace_member_or_404 (sc_workspace scope) membership_id;
  actor ← membership_of_scope scope;
  remove_workspace_member (sc_workspace scope) (sc_user scope) (mb_role actor.2) target.1 target.2;;
  no_content.

Definition ownership_transfer (data : option N) (scope : Scope) : service Response :=
  membership_id ← validated data;
  target ← get_workspace_member_or_404 (sc_workspace scope) membership_id;
  actor ← membership_of_scope scope;
  transfer_workspace_ownership (sc_workspace scope) (sc_user scope) actor.1 actor.2
    target.1 target.2;;
  ok (One RMembership target.1).

(** ** Customers ([customers/views.py], [customers/selectors.py]) *)

(** [icontains]; a column without a value contains nothing. *)
Definition icontains (search : string) (s : option string) : bool :=
  match s with Some s => str_contains (str_lower search) (str_lower s) | None => false end.
Definition customer_matches (search : string) (c : Customer) : bool :=
  existsb (icontains search)
    [Some (cu_display_name c); Some (cu_first_name c); Some (cu_last_name c); cu_email c;
     cu_phone c; cu_external_id c].

Definition customer_in (workspace : N) (c : Customer) : bool :=
  bool_decide (cu_workspace c = workspace).

Definition customer_list_for_workspace (workspace : N) (search : option string)
    (is_active : option bool) (w : World) : list (N * Customer) :=
  newest_first (λ c, customer_in workspace c
    && filter_by is_active (Bool.eqb (cu_is_active c))
    && filter_by (given search) (λ text, customer_matches text c)) w.

Definition customer_get_for_workspace_or_404 (workspace customer_id : N) : service (N * Customer) :=
  get_or_404 customer_id (customer_in workspace).

Definition customer_list (search is_active : option string) (scope : Scope) : service Response :=
  rows ← gets (customer_list_for_workspace (sc_workspace scope) search (as_bool is_active));
  ok (Many RCustomer (keys rows)).

Definition customer_create (data : option CustomerData) (scope : Scope) : service Response :=
  data ← validated data;
  customer ← create_customer (sc_workspace scope) data;
  created (One RCustomer customer).

Definition customer_detail (customer_id : N) (scope : Scope) : service Response :=
  customer ← customer_get_for_workspace_or_404 (sc_workspace scope) customer_id;
  ok (One RCustomer customer.1).

Definition customer_patch (customer_id : N) (data : option CustomerData) (scope : Scope)
    : service Response :=
  customer ← customer_get_for_workspace_or_404 (sc_workspace scope) customer_id;
  data ← validated data;
  update_customer (sc_workspace scope) customer.1 customer.2 (sc_user scope) data;;
  ok (One RCustomer customer.1).

(** ** Conversations ([conversations/views.py], [conversations/selectors.py]) *)

Definition conversation_in (workspace : N) (c : Conversation) : bool :=
  bool_decide (cv_workspace c = workspace).

(** [-last_message_at], then the newest; PostgreSQL puts the conversations without a
    message first. *)
Definition later_message (a b : N * Conversation) : Prop :=
  match cv_last_message_at a.2, cv_last_message_at b.2 with
  | None, _ => True
  | Some _, None => False
  | Some x, Some y => (y <= x)%Z
  end.
#[local] Instance later_message_dec a b : Decision (later_message a b).
Proof. unfold later_message. repeat case_match; apply _. Defined.

Definition conversation_list_for_workspace (workspace : N) (customer_id : option N)
    (status channel : option string) (assigned_to : option N) (unassigned : option bool)
    (w : World) : list (N * Conversation) :=
  merge_sort later_message (newest_first (λ c, conversation_in workspace c
    && key_is customer_id (Some (cv_customer c))
    && text_is status (ConversationStatus.value (cv_status c)) && text_is channel (cv_channel c)
    && assignment_is unassigned assigned_to (cv_assigned_to c)) w).

Definition conversation_get_for_workspace_or_404 (workspace conversation_id : N)
    : service (N * Conversation) :=
  get_or_404 conversation_id (conversation_in workspace).

Record ConversationQuery := {
  cq_customer : option string;
  cq_status : option string;
  cq_channel : option string;
  cq_assigned_to : option string;
  cq_unassigned : option string;
}.

Definition conversation_list (params : ConversationQuery) (scope : Scope) : service Response :=
  customer_id ← parse_uuid_filter (cq_customer params) "customer";
  assigned_to ← parse_uuid_filter (cq_assigned_to params) "assigned_to";
  rows ← gets (conversation_list_for_workspace (sc_workspace scope) customer_id
    (cq_status params) (cq_channel params) assigned_to (as_bool (cq_unassigned params)));
  ok (Many RConversation (keys rows)).

Record ConversationCreateData := {
  cc_customer_id : N;
  cc_channel : string;
  cc_subject : option string;
  cc_external_id : option string;
  cc_metadata : option json;
}.

Definition conversation_create (data : option ConversationCreateData) (scope : Scope)
    : service Response :=
  data ← validated data;
  customer ← customer_get_for_workspace_or_404 (sc_workspace scope) (cc_customer_id data);
  conversation ← create_conversation (sc_workspace scope) customer.1 customer.2 (cc_channel data)
    (default "" (cc_subject data)) (cc_external_id data) (metadata_or_empty (cc_metadata data));
  created (One RConversation conversation).

Definition conversation_detail (conversation_id : N) (scope : Scope) : service Response :=
  conversation ← conversation_get_for_workspace_or_404 (sc_workspace scope) conversation_id;
  ok (One RConversation conversation.1).

(** The member a request names, or the caller. *)
Definition target_member (membership_id : option N) (scope : Scope) : service Actor :=
  match membership_id with
  | Some i => get_workspace_member_or_404 (sc_workspace scope) i
  | None => membership_of_scope scope
  end.

Definition conversation_assign (conversation_id : N) (data : option (option N)) (scope : Scope)
    : service Response :=
  conversation ← conversation_get_for_workspace_or_404 (sc_workspace scope) conversation_id;
  membership_id ← validated data;
  target ← target_member membership_id scope;
  actor ← membership_of_scope scope;
  assign_conversation (sc_workspace scope) (sc_user scope) actor conversation.1 conversation.2
    target;;
  ok (One RConversation conversation.1).

Definition conversation_status (conversation_id : N) (data : option ConversationStatus.t)
    (scope : Scope) : service Response :=
  conversation ← conversation_get_for_workspace_or_404 (sc_workspace scope) conversation_id;
  new_status ← validated data;
  actor ← membership_of_scope scope;
  change_conversation_status (sc_workspace scope) (sc_user scope) actor conversation.1
    conversation.2 new_status;;
  ok (One RConversation conversation.1).

Definition conversation_close (conversation_id : N) (scope : Scope) : service Response :=
  conversation ← conversation_get_for_workspace_or_404 (sc_workspace scope) conversation_id;
  actor ← membership_of_scope scope;
  close_conversation (sc_workspace scope) (sc_user scope) actor conversation.1 conversation.2;;
  ok (One RConversation conversation.1).

Definition conversation_reopen (conversation_id : N) (scope : Scope) : service Response :=
  conversation ← conversation_get_for_workspace_or_404 (sc_workspace scope) conversation_id;
  actor ← membership_of_scope scope;
  reopen_conversation (sc_workspace scope) (sc_user scope) actor conversation.1 conversation.2;;
  ok (One RConversation conversation.1).

(** By [created_at], then [sequence]: identifiers stand for the latter. *)
Definition earlier_message (a b : N * Message) : Prop := (msg_created_at a.2 <= msg_created_at b.2)%Z.
#[local] Instance earlier_message_dec a b : Decision (earlier_message a b).
Proof. unfold earlier_message. apply _. Defined.
Definition message_list_for_conversation (conversation_id : N) (w : World) : list (N * Message) :=
  merge_sort earlier_message
    (select_rows (λ _ m, bool_decide (msg_conversation m = conversation_id)) w).

Definition message_list (conversation_id : N) (scope : Scope) : service Response :=
  conversation ← conversation_get_for_workspace_or_404 (sc_workspace scope) conversation_id;
  rows ← gets (message_list_for_conversation conversation.1);
  ok (Many RMessage (keys rows)).

Record MessageCreateData := {
  mc_outbound : bool;
  mc_body : string;
  mc_external_id : option string;
  mc_metadata : option json;
}.

Definition message_create (conversation_id : N) (data : option MessageCreateData) (scope : Scope)
    : service Response :=
  conversation ← conversation_get_for_workspace_or_404 (sc_workspace scope) conversation_id;
  data ← validated data;
  actor ← membership_of_scope scope;
  message ← (if mc_outbound data then create_outbound_message else create_internal_message)
    (sc_workspace scope) actor conversation.1 conversation.2 (mc_body data) (mc_external_id data)
    (metadata_or_empty (mc_metadata data));
  created (One RMessage message).

(** ** Tickets ([tickets/views.py], [tickets/selectors.py]) *)

Definition ticket_in (workspace : N) (t : Ticket) : bool := bool_decide (tk_workspace t = workspace).

Definition priority_rank (p : TicketPriority.t) : nat :=
  match p with
  | TicketPriority.URGENT => 0 | TicketPriority.HIGH => 1 | TicketPriority.NORMAL => 2
  | TicketPriority.LOW => 3
  end.
Definition more_urgent (a b : N * Ticket) : Prop :=
  (priority_rank (tk_priority a.2) <= priority_rank (tk_priority b.2))%nat.
#[local] Instance more_urgent_dec a b : Decision (more_urgent a b).
Proof. unfold more_urgent. apply _. Defined.

Definition ticket_list_for_workspace (workspace : N) (status priority : option string)
    (customer_id assigned_to : option N) (unassigned : option bool) (conversation_id : option N)
    (w : World) : list (N * Ticket) :=
  merge_sort more_urgent (newest_first (λ t, ticket_in workspace t
    && text_is status (TicketStatus.value (tk_status t))
    && text_is priority (TicketPriority.value (tk_priority t))
    && key_is customer_id (Some (tk_customer t)) && key_is conversation_id (tk_conversation t)
    && assignment_is unassigned assigned_to (tk_assigned_to t)) w).

Definition ticket_get_for_workspace_or_404 (workspace ticket_id : N) : service (N * Ticket) :=
  get_or_404 ticket_id (ticket_in workspace).

Record TicketQuery := {
  tq_status : option string;
  tq_priority : option string;
  tq_customer : option string;
  tq_assigned_to : option string;
  tq_unassigned : option string;
  tq_conversation : option string;
}.

Definition ticket_list (params : TicketQuery) (scope : Scope) : service Response :=
  customer_id ← parse_uuid_filter (tq_customer params) "customer";
  assigned_to ← parse_uuid_filter (tq_assigned_to params) "assigned_to";
  conversation_id ← parse_uuid_filter (tq_conversation params) "conversation";
  rows ← gets (ticket_list_for_workspace (sc_workspace scope) (tq_status params)
    (tq_priority params) customer_id assigned_to (as_bool (tq_unassigned params)) conversation_id);
  ok (Many RTicket (keys rows)).

Record TicketCreateData := {
  tc_customer_id : N;
  tc_conversation_id : option N;
  tc_subject : string;
  tc_description : option string;
  tc_priority : TicketPriority.t;
  tc_due_at : option Z;
  tc_metadata : option json;
}.

Definition ticket_create (data : option TicketCreateData) (scope : Scope) : service Response :=
  data ← validated data;
  customer ← customer_get_for_workspace_or_404 (sc_workspace scope) (tc_customer_id data);
  conversation ← match tc_conversation_id data with
    | Some i =>
        c ← conversation_get_for_workspace_or_404 (sc_workspace scope) i;
        mret (Some c)
    | None => mret None
    end;
  ticket ← create_ticket (sc_workspace scope) customer.1 customer.2 (tc_subject data)
    (default "" (tc_description data)) (Some (tc_priority data)) conversation (tc_due_at data)
    (metadata_or_empty (tc_metadata data));
  created (One RTicket ticket).

Definition ticket_detail (ticket_id : N) (scope : Scope) : service Response :=
  ticket ← ticket_get_for_workspace_or_404 (sc_workspace scope) ticket_id;
  ok (One RTicket ticket.1).

Definition ticket_patch (ticket_id : N) (data : option TicketData) (scope : Scope)
    : service Response :=
  ticket ← ticket_get_for_workspace_or_404 (sc_workspace scope) ticket_id;
  data ← validated data;
  actor ← membership_of_scope scope;
  update_ticket ticket.1 ticket.2 actor data;;
  ok (One RTicket ticket.1).

Definition ticket_assign (ticket_id : N) (data : option (option N)) (scope : Scope)
    : service Response :=
  ticket ← ticket_get_for_workspace_or_404 (sc_workspace scope) ticket_id;
  membership_id ← validated data;
  target ← target_member membership_id scope;
  actor ← membership_of_scope scope;
  assign_ticket (sc_workspace scope) (sc_user scope) actor ticket.1 ticket.2 target;;
  ok (One RTicket ticket.1).

Definition ticket_unassign (ticket_id : N) (scope : Scope) : service Response :=
  ticket ← ticket_get_for_workspace_or_404 (sc_workspace scope) ticket_id;
  actor ← membership_of_scope scope;
  unassign_ticket (sc_workspace scope) (sc_user scope) actor ticket.1;;
  ok (One RTicket ticket.1).

Definition ticket_status (ticket_id : N) (data : option TicketStatus.t) (scope : Scope)
    : service Response :=
  ticket ← ticket_get_for_workspace_or_404 (sc_workspace scope) ticket_id;
  new_status ← validated data;
  actor ← membership_of_scope scope;
  change_ticket_status (sc_workspace scope) (sc_user scope) actor ticket.1 ticket.2 new_status;;
  ok (One RTicket ticket.1).

Definition ticket_resolve (ticket_id : N) (scope : Scope) : service Response :=
  ticket ← ticket_get_for_workspace_or_404 (sc_workspace scope) ticket_id;
  actor ← membership_of_scope scope;
  resolve_ticket (sc_workspace scope) (sc_user scope) actor ticket.1 ticket.2;;
  ok (One RTicket ticket.1).

Definition ticket_reopen (ticket_id : N) (scope : Scope) : service Response :=
  ticket ← ticket_get_for_workspace_or_404 (sc_workspace scope) ticket_id;
  actor ← membership_of_scope scope;
  reopen_ticket (sc_workspace scope) (sc_user scope) actor ticket.1 ticket.2;;
  ok (One RTicket ticket.1).

(** ** Handoffs *)

Definition handoff_in (workspace : N) (h : HumanHandoff) : bool :=
  bool_decide (ho_workspace h = workspace).

Definition handoff_list_for_workspace (workspace : N) (status : option string)
    (conversation_id : option N) (w : World) : list (N * HumanHandoff) :=
  newest_first (λ h, handoff_in workspace h
    && text_is status (HumanHandoffStatus.value (ho_status h))
    && key_is conversation_id (Some (ho_conversation h))) w.

Definition handoff_get_for_workspace_or_404 (workspace handoff_id : N) : service (N * HumanHandoff) :=
  get_or_404 handoff_id (handoff_in workspace).

(** The filter is handed to the query as it is: a text that is no key is an error the
    framework does not handle. *)
Definition raw_key_filter (value : option string) : service (option N) :=
  match value with
  | None => mret None
  | Some text =>
      i ← or_raise (uuid_of_text text) DjangoValidationError;
      mret (Some i)
  end.

Definition handoff_list (status conversation : option string) (scope : Scope) : service Response :=
  conversation_id ← raw_key_filter conversation;
  rows ← gets (handoff_list_for_workspace (sc_workspace scope) status conversation_id);
  ok (Many RHandoff (keys rows)).

Definition handoff_detail (handoff_id : N) (scope : Scope) : service Response :=
  handoff ← handoff_get_for_workspace_or_404 (sc_workspace scope) handoff_id;
  ok (One RHandoff handoff.1).

Definition handoff_assign (handoff_id : N) (data : option (option N)) (scope : Scope)
    : service Response :=
  handoff ← handoff_get_for_workspace_or_404 (sc_workspace scope) handoff_id;
  membership_id ← validated data;
  target ← target_member membership_id scope;
  actor ← membership_of_scope scope;
  assign_handoff (sc_workspace scope) (sc_user scope) actor handoff.1 (Some target);;
  ok (One RHandoff handoff.1).

Definition handoff_resolve (handoff_id : N) (scope : Scope) : service Response :=
  handoff ← handoff_get_for_workspace_or_404 (sc_workspace scope) handoff_id;
  actor ← membership_of_scope scope;
  resolve_handoff (sc_workspace scope) (sc_user scope) actor handoff.1;;
  ok (One RHandoff handoff.1).

(** ** Routing *)

Inductive desk_request :=
  | WorkspaceGet
  | WorkspacePatch (data : option (option string))
  | MemberList
  | MemberCreate (data : option (string * WorkspaceRole.t))
  | MemberGet (membership_id : N)
  | MemberPatch (membership_id : N) (data : option WorkspaceRole.t)
  | MemberDelete (membership_id : N)
  | OwnershipTransfer (data : option N)
  | CustomerList (search is_active : option string)
  | CustomerCreate (data : option CustomerData)
  | CustomerGet (customer_id : N)
  | CustomerPatch (customer_id : N) (data : option CustomerData)
  | ConversationList (params : ConversationQuery)
  | ConversationCreate (data : option ConversationCreateData)
  | ConversationGet (conversation_id : N)
  | ConversationAssign (conversation_id : N) (data : option (option N))
  | ConversationStatusPost (conversation_id : N) (data : option ConversationStatus.t)
  | ConversationClose (conversation_id : N)
  | ConversationReopen (conversation_id : N)
  | MessageList (conversation_id : N)
  | MessageCreate (conversation_id : N) (data : option MessageCreateData)
  | TicketList (params : TicketQuery)
  | TicketCreate (data : option TicketCreateData)
  | TicketGet (ticket_id : N)
  | TicketPatch (ticket_id : N) (data : option TicketData)
  | TicketAssign (ticket_id : N) (data : option (option N))
  | TicketUnassign (ticket_id : N)
  | TicketStatusPost (ticket_id : N) (data : option TicketStatus.t)
  | TicketResolve (ticket_id : N)
  | TicketReopen (ticket_id : N)
  | HandoffList (status conversation : option string)
  | HandoffGet (handoff_id : N)
  | HandoffAssign (handoff_id : N) (data : option (option N))
  | HandoffResolve (handoff_id : N).

(** [get_permissions]. *)
Definition desk_permissions (r : desk_request) : list Permission :=
  match r with
  | WorkspacePatch _ => [IsWorkspaceMember; CanManageWorkspace]
  | MemberCreate _ | MemberPatch _ _ | MemberDelete _ => [IsWorkspaceMember; CanManageMembers]
  | OwnershipTransfer _ => [IsWorkspaceMember; IsWorkspaceOwner]
  | CustomerCreate _ | CustomerPatch _ _ => [IsWorkspaceMember; CanWriteCustomers]
  | ConversationCreate _ | ConversationAssign _ _ | ConversationStatusPost _ _
  | ConversationClose _ | ConversationReopen _ | MessageCreate _ _ =>
      [IsWorkspaceMember; CanMutateConversations]
  | TicketCreate _ | TicketPatch _ _ | TicketAssign _ _ | TicketUnassign _
  | TicketStatusPost _ _ | TicketResolve _ | TicketReopen _ =>
      [IsWorkspaceMember; CanMutateTickets]
  | HandoffAssign _ _ | HandoffResolve _ => [IsWorkspaceMember; CanManageHandoffs]
  | _ => [IsWorkspaceMember]
  end.

Definition desk_view (r : desk_request) : Scope → service Response :=
  match r with
  | WorkspaceGet => workspace_detail
  | WorkspacePatch data => workspace_patch data
  | MemberList => member_list
  | MemberCreate data => member_create data
  | MemberGet i => member_detail i
  | MemberPatch i data => member_patch i data
  | MemberDelete i => member_delete i
  | OwnershipTransfer data => ownership_transfer data
  | CustomerList search is_active => customer_list search is_active
  | CustomerCreate data => customer_create data
  | CustomerGet i => customer_detail i
  | CustomerPatch i data => customer_patch i data
  | ConversationList params => conversation_list params
  | ConversationCreate data => conversation_create data
  | ConversationGet i => conversation_detail i
  | ConversationAssign i data => conversation_assign i data
  | ConversationStatusPost i data => conversation_status i data
  | ConversationClose i => conversation_close i
  | ConversationReopen i => conversation_reopen i
  | MessageList i => message_list i
  | MessageCreate i data => message_create i data
  | TicketList params => ticket_list params
  | TicketCreate data => ticket_create data
  | TicketGet i => ticket_detail i
  | TicketPatch i data => ticket_patch i data
  | TicketAssign i data => ticket_assign i data
  | TicketUnassign i => ticket_unassign i
  | TicketStatusPost i data => ticket_status i data
  | TicketResolve i => ticket_resolve i
  | TicketReopen i => ticket_reopen i
  | HandoffList status conversation => handoff_list status conversation
  | HandoffGet i => handoff_detail i
  | HandoffAssign i data => handoff_assign i data
  | HandoffResolve i => handoff_resolve i
  end.

(** A request to a workspace, answered. *)
Definition desk (r : desk_request) (user : option N) (workspace_id : N) : World → Response * World :=
  handle (scoped (desk_permissions r) user workspace_id (desk_view r)).
End Desk.
