(* ===== verification/ApiAgents.v ===== *)
(** * The views of agents, tools, policies and approvals

    The views of [agents/], [tools/], [policies/] and [approvals/] with the selectors
    they use, as in [ApiDesk]: one definition per view and method, [agents_request] for
    the requests and [agents_api] to route them. *)

From stdpp Require Import base gmap strings list pretty sorting.
From Stdlib Require Import ZArith QArith Ascii String Lia.
From S2P Require Import Prelude Json Domain Policy Models Store PolicyAdmin Delivery Network Webhooks Approvals ToolExec Graph Workspaces Conversations Tickets Schemas Adapters Integrations IntegrationTools AgentRuns Chunking Knowledge AgentContext Ingress ToolSafety IntegrationSafety ToolCatalog Http ApiDesk.

#[local] Close Scope Q_scope.

(** ** Codes ([agents/errors.py], [policies/errors.py], [approvals/errors.py]) *)

Definition agent_code (e : AgentErr.t) : string :=
  match e with
  | AgentErr.VersionNotPublishable => "agent_version_not_publishable"
  | AgentErr.VersionImmutable => "agent_version_immutable"
  | AgentErr.VersionNotPublished => "agent_version_not_published"
  | AgentErr.RunInvalidTransition => "agent_run_invalid_transition"
  | AgentErr.RunNotCancellable => "agent_run_not_cancellable"
  | AgentErr.ToolCatalogConfiguration => "tool_catalog_configuration_error"
  | AgentErr.InvalidTriggerMessage => "invalid_trigger_message"
  | AgentErr.TriggerMessageMismatch => "trigger_message_mismatch"
  end.

Definition approval_code (e : ApprovalErr.t) : string :=
  match e with
  | ApprovalErr.Required => "approval_required" | ApprovalErr.NotFound => "approval_not_found"
  | ApprovalErr.AlreadyResolved => "approval_already_resolved"
  | ApprovalErr.Expired => "approval_expired" | ApprovalErr.Cancelled => "approval_cancelled"
  | ApprovalErr.Rejected => "approval_rejected"
  | ApprovalErr.PermissionDenied => "approval_permission_denied"
  | ApprovalErr.SelfApprovalForbidden => "approval_self_approval_forbidden"
  | ApprovalErr.ActionChanged => "approval_action_changed"
  | ApprovalErr.ResumeConflict => "approval_resume_conflict"
  end.

Definition FORBIDDEN_CODES : list string :=
  ["approval_permission_denied"; "approval_self_approval_forbidden"].
Definition CONFLICT_CODES : list string :=
  ["approval_already_resolved"; "approval_expired"; "approval_cancelled";
   "approval_resume_conflict"].

(** [_approval_api_error]. *)
Definition approval_api_error (e : exn) : option exn :=
  match e with
  | ApprovalExc cls =>
      let code := approval_code cls in
      Some (SafeAPIError
        (if String.eqb code "approval_not_found" then 404
         else if str_in code FORBIDDEN_CODES then 403
         else if str_in code CONFLICT_CODES then 409 else 400) code)
  | _ => None
  end.

(** [_policy_api_error], on the errors the policy services raise. *)
Definition policy_api_error (e : exn) : option exn :=
  match e with
  | PolicyInvalidRuleError => Some (SafeAPIError 400 "policy_invalid_rule")
  | PolicyVersionNotActivatableError => Some (SafeAPIError 400 "policy_version_not_activatable")
  | PolicyLimitExceededError => Some (SafeAPIError 400 "policy_limit_exceeded")
  | _ => None
  end.

(** [except AgentError], as a conflict or with its code, and
    [except (ToolError, AgentVersionImmutableError)]. *)
Definition agent_conflict (e : exn) : option exn :=
  match e with AgentExc _ => Some ConflictError | _ => None end.
Definition agent_api_error (e : exn) : option exn :=
  match e with AgentExc cls => Some (SafeAPIError 400 (agent_code cls)) | _ => None end.
Definition tool_conflict (e : exn) : option exn :=
  match e with
  | ToolExc _ _ | AgentExc AgentErr.VersionImmutable => Some ConflictError
  | _ => None
  end.

Section AgentViews.
Context `{Settings} `{PyLib} `{Network} `{Encoding} `{TextEncoding} `{Providers} `{KeyLib}.

(** ** Agents ([agents/views.py], [agents/selectors.py]) *)

Definition definition_status (s : AgentDefinitionStatus.t) : string :=
  match s with
  | AgentDefinitionStatus.ACTIVE => "active" | AgentDefinitionStatus.INACTIVE => "inactive"
  | AgentDefinitionStatus.ARCHIVED => "archived"
  end.

Definition definition_in (workspace : N) (d : AgentDefinition) : bool :=
  bool_decide (adef_workspace d = workspace).

(** [if status: ...]: an empty text is no filter. *)
Definition agent_definition_list_for_workspace (workspace : N) (status : option string)
    (w : World) : list (N * AgentDefinition) :=
  newest_first (λ d, definition_in workspace d
    && text_is (given status) (definition_status (adef_status d))) w.

Definition agent_definition_get_for_workspace_or_404 (workspace agent_id : N)
    : service (N * AgentDefinition) :=
  get_or_404 agent_id (definition_in workspace).

Definition version_in (workspace definition : N) (v : AgentVersion) : bool :=
  bool_decide (av_definition v = definition) && bool_decide (av_workspace v = workspace).

Definition newer_version (a b : N * AgentVersion) : Prop := (av_version b.2 <= av_version a.2)%N.
#[local] Instance newer_version_dec a b : Decision (newer_version a b).
Proof. unfold newer_version. apply _. Defined.
Definition agent_version_list_for_definition (workspace definition : N) (w : World)
    : list (N * AgentVersion) :=
  merge_sort newer_version (select_rows (λ _ v, version_in workspace definition v) w).

(** The selectors of [agents/] and of [tools/], which differ in what they are given. *)
Definition agent_version_get_for_workspace_or_404 (workspace definition version_id : N)
    : service (N * AgentVersion) :=
  get_or_404 version_id (version_in workspace definition).

Definition run_in (workspace : N) (r : AgentRun) : bool := bool_decide (run_workspace r = workspace).

Definition run_of_definition (definition : option N) (w : World) (r : AgentRun) : bool :=
  filter_by definition (λ d,
    bool_decide (av_definition <$> w_agent_versions w !! run_agent_version r = Some d)).
Definition agent_run_list_for_workspace (workspace : N) (status : option string)
    (agent_definition_id : option N) (w : World) : list (N * AgentRun) :=
  newest_first (λ r, run_in workspace r && text_is (given status) (AgentRunStatus.value (run_status r))
    && run_of_definition agent_definition_id w r) w.

Definition agent_run_get_for_workspace_or_404 (workspace run_id : N) : service (N * AgentRun) :=
  get_or_404 run_id (run_in workspace).

Definition STEP_LIMIT : nat := 200.
Definition agent_step_list_for_run (run_id : N) (w : World) : list AgentStep :=
  take STEP_LIMIT (List.filter (λ s, bool_decide (step_run s = run_id)) (w_agent_steps w)).

Definition agent_list (status : option string) (scope : Scope) : service Response :=
  rows ← gets (agent_definition_list_for_workspace (sc_workspace scope) status);
  ok (Many RAgent (keys rows)).

(** The validated document of a definition; its status is not read when one is created. *)
Definition agent_create (data : option (string * option string)) (scope : Scope)
    : service Response :=
  data ← validated data;
  definition ← create_agent_definition (sc_workspace scope) (sc_user scope) data.1 data.2;
  created (One RAgent definition).

Definition agent_detail (agent_id : N) (scope : Scope) : service Response :=
  definition ← agent_definition_get_for_workspace_or_404 (sc_workspace scope) agent_id;
  ok (One RAgent definition.1).

Definition agent_patch (agent_id : N) (data : option AgentDefinitionData) (scope : Scope)
    : service Response :=
  definition ← agent_definition_get_for_workspace_or_404 (sc_workspace scope) agent_id;
  data ← validated data;
  update_agent_definition (sc_workspace scope) definition.1 definition.2 (sc_user scope) data;;
  ok (One RAgent definition.1).

Definition version_list (agent_id : N) (scope : Scope) : service Response :=
  definition ← agent_definition_get_for_workspace_or_404 (sc_workspace scope) agent_id;
  rows ← gets (agent_version_list_for_definition (sc_workspace scope) definition.1);
  ok (Many RAgentVersion (keys rows)).

Definition version_create (agent_id : N) (data : option AgentVersionData) (scope : Scope)
    : service Response :=
  definition ← agent_definition_get_for_workspace_or_404 (sc_workspace scope) agent_id;
  data ← validated data;
  version ← create_agent_version (sc_workspace scope) definition.1 definition.2 (sc_user scope) data;
  created (One RAgentVersion version).

Definition version_publish (agent_id version_id : N) (scope : Scope) : service Response :=
  definition ← agent_definition_get_for_workspace_or_404 (sc_workspace scope) agent_id;
  version ← agent_version_get_for_workspace_or_404 (sc_workspace scope) definition.1 version_id;
  converting agent_conflict
    (publish_agent_version (sc_workspace scope) version.1 (sc_user scope));;
  ok (One RAgentVersion version.1).

Definition run_list (status agent_id : option string) (scope : Scope) : service Response :=
  definition ← parse_uuid_filter agent_id "agent_id";
  rows ← gets (agent_run_list_for_workspace (sc_workspace scope) status definition);
  ok (Many RAgentRun (keys rows)).

Record AgentRunCreateData := {
  rc_agent_version_id : N;
  rc_input_message : option string;
  rc_trigger : option string;
  rc_conversation_id : option N;
  rc_ticket_id : option N;
  rc_trigger_message_id : option N;
  rc_input_metadata : option json;
}.

Definition message_in (workspace : N) (conversation : option N) (m : Message) : bool :=
  bool_decide (msg_workspace m = workspace) && bool_decide (Some (msg_conversation m) = conversation).
Definition message_get_for_workspace_or_404 (workspace : N) (conversation : option N)
    (message_id : N) : service (N * Message) :=
  get_or_404 message_id (message_in workspace conversation).

(** [x = get_or_404(...) if data.get(key) else None]. *)
Definition optional {A} (key : option N) (get : N → service A) : service (option A) :=
  match key with
  | Some i => a ← get i; mret (Some a)
  | None => mret None
  end.

(** The start of a run: the answer to a message, or a run by hand. *)
Definition start_run (data : AgentRunCreateData) (request_id : option string)
    (version : N * AgentVersion) (conversation : option (N * Conversation))
    (ticket : option (N * Ticket)) (scope : Scope) : service N :=
  match rc_trigger_message_id data with
  | Some message_id =>
      trigger ← message_get_for_workspace_or_404 (sc_workspace scope) (fst <$> conversation)
        message_id;
      conversation ← or_raise conversation AttributeError;
      start_support_agent_run (sc_workspace scope) (Some (sc_user scope)) conversation.1
        conversation.2 trigger.1 trigger.2 version.1 version.2 request_id
  | None =>
      input_message ← or_raise (rc_input_message data) KeyError;
      create_agent_run (sc_workspace scope) version.1 version.2 (Some (sc_user scope))
        input_message (default "manual" (rc_trigger data)) (fst <$> conversation)
        (fst <$> ticket) None (rc_input_metadata data) request_id
  end.

Definition run_create (data : option AgentRunCreateData) (request_id : option string)
    (scope : Scope) : service Response :=
  data ← validated data;
  version ← get_or_404 (rc_agent_version_id data)
    (λ v, bool_decide (av_workspace v = sc_workspace scope));
  conversation ← optional (rc_conversation_id data)
    (conversation_get_for_workspace_or_404 (sc_workspace scope));
  ticket ← optional (rc_ticket_id data) (ticket_get_for_workspace_or_404 (sc_workspace scope));
  run ← converting agent_api_error (start_run data request_id version conversation ticket scope);
  created (One RAgentRun run).

Definition run_detail (run_id : N) (scope : Scope) : service Response :=
  run ← agent_run_get_for_workspace_or_404 (sc_workspace scope) run_id;
  ok (One RAgentRun run.1).

Definition run_steps (run_id : N) (scope : Scope) : service Response :=
  run ← agent_run_get_for_workspace_or_404 (sc_workspace scope) run_id;
  steps ← gets (agent_step_list_for_run run.1);
  ok (Trace run.1 (map step_sequence steps)).

Definition run_cancel (run_id : N) (scope : Scope) : service Response :=
  run ← agent_run_get_for_workspace_or_404 (sc_workspace scope) run_id;
  converting agent_conflict
    (cancel_support_agent_run (sc_workspace scope) run.1 (sc_user scope));;
  ok (One RAgentRun run.1).

(** ** Tools ([tools/views.py], [tools/selectors.py]) *)

Definition earlier_key (a b : N * ToolDefinition) : Prop :=
  String.leb (td_key a.2) (td_key b.2) = true.
#[local] Instance earlier_key_dec a b : Decision (earlier_key a b).
Proof. unfold earlier_key. apply _. Defined.
Definition tool_definition_catalog (w : World) : list (N * ToolDefinition) :=
  merge_sort earlier_key (select_rows (λ _ _, true) w).

Definition binding_in (workspace version : N) (w : World) (b : ToolBinding) : bool :=
  bool_decide (tb_agent_version b = version)
  && bool_decide (av_workspace <$> w_agent_versions w !! tb_agent_version b = Some workspace).
Definition tool_binding_list_for_version (workspace version : N) (w : World)
    : list (N * ToolBinding) :=
  newest_first (binding_in workspace version w) w.
Definition tool_binding_get_for_workspace_or_404 (workspace version binding_id : N)
    : service (N * ToolBinding) :=
  belongs ← gets (binding_in workspace version);
  get_or_404 binding_id belongs.

Definition execution_in (workspace : N) (te : ToolExecution) : bool :=
  bool_decide (te_workspace te = workspace).
Definition execution_status (s : ToolExecutionStatus.t) : string :=
  match s with
  | ToolExecutionStatus.PENDING => "pending" | ToolExecutionStatus.RUNNING => "running"
  | ToolExecutionStatus.SUCCEEDED => "succeeded" | ToolExecutionStatus.FAILED => "failed"
  | ToolExecutionStatus.TIMED_OUT => "timed_out" | ToolExecutionStatus.CANCELLED => "cancelled"
  | ToolExecutionStatus.WAITING_FOR_APPROVAL => "waiting_for_approval"
  | ToolExecutionStatus.BLOCKED_BY_POLICY => "blocked_by_policy"
  | ToolExecutionStatus.APPROVAL_TERMINATED => "approval_terminated"
  end.
Definition tool_execution_list_for_workspace (workspace : N) (status : option string)
    (agent_run_id : option N) (w : World) : list (N * ToolExecution) :=
  newest_first (λ te, execution_in workspace te
    && text_is (given status) (execution_status (te_status te))
    && key_is agent_run_id (Some (te_agent_run te))) w.
Definition tool_execution_get_for_workspace_or_404 (workspace execution_id : N)
    : service (N * ToolExecution) :=
  get_or_404 execution_id (execution_in workspace).

Definition tool_catalog_list (scope : Scope) : service Response :=
  rows ← gets tool_definition_catalog;
  ok (Many RToolDefinition (keys rows)).

Definition binding_list (agent_id version_id : N) (scope : Scope) : service Response :=
  version ← agent_version_get_for_workspace_or_404 (sc_workspace scope) agent_id version_id;
  rows ← gets (tool_binding_list_for_version (sc_workspace scope) version.1);
  ok (Many RToolBinding (keys rows)).

Definition binding_create (agent_id version_id : N) (data : option (string * option Z))
    (scope : Scope) : service Response :=
  version ← agent_version_get_for_workspace_or_404 (sc_workspace scope) agent_id version_id;
  data ← validated data;
  definition ← first_row (definition_with_key data.1);
  definition ← or_404 definition;
  binding ← converting tool_conflict
    (create_tool_binding (sc_workspace scope) version.1 version.2 (sc_user scope) definition.1
       definition.2 data.2);
  created (One RToolBinding binding).

Definition binding_patch (agent_id version_id binding_id : N) (data : option bool) (scope : Scope)
    : service Response :=
  version ← agent_version_get_for_workspace_or_404 (sc_workspace scope) agent_id version_id;
  binding ← tool_binding_get_for_workspace_or_404 (sc_workspace scope) version.1 binding_id;
  enabled ← validated data;
  converting tool_conflict
    (set_tool_binding_enabled (sc_workspace scope) binding.1 binding.2 (sc_user scope) enabled);;
  ok (One RToolBinding binding.1).

Definition execution_list (status agent_run_id : option string) (scope : Scope)
    : service Response :=
  run ← parse_uuid_filter agent_run_id "agent_run_id";
  rows ← gets (tool_execution_list_for_workspace (sc_workspace scope) status run);
  ok (Many RToolExecution (keys rows)).

Definition execution_detail (execution_id : N) (scope : Scope) : service Response :=
  execution ← tool_execution_get_for_workspace_or_404 (sc_workspace scope) execution_id;
  ok (One RToolExecution execution.1).

(** ** Policies ([policies/views.py]) *)

Definition policy_in (workspace : N) (p : PolicyRow) : bool := bool_decide (pol_workspace p = workspace).

(** [get_object_or_404(Policy, ...)] and [get_object_or_404(PolicyVersion, ...)]. *)
Definition workspace_policy (workspace policy_id : N) : service (N * PolicyRow) :=
  get_or_404 policy_id (policy_in workspace).
Definition policy_version_in (workspace policy : N) (w : World) (v : PolicyVersion) : bool :=
  bool_decide (pv_policy v = policy)
  && bool_decide (policy_tenant w (pv_policy v) = Some workspace).
Definition workspace_policy_version (workspace policy_id version_id : N)
    : service (N * PolicyVersion) :=
  belongs ← gets (policy_version_in workspace policy_id);
  get_or_404 version_id belongs.

Definition policy_list (scope : Scope) : service Response :=
  rows ← gets (newest_first (policy_in (sc_workspace scope)));
  ok (Many RPolicy (keys rows)).

Definition policy_create (data : option (string * option string)) (scope : Scope)
    : service Response :=
  data ← validated data;
  policy ← converting policy_api_error
    (create_policy (sc_workspace scope) (sc_user scope) data.1 (default "" data.2));
  created (One RPolicy policy).

Definition policy_detail (policy_id : N) (scope : Scope) : service Response :=
  policy ← workspace_policy (sc_workspace scope) policy_id;
  ok (One RPolicy policy.1).

Definition policy_patch (policy_id : N) (data : option (option string * option string))
    (scope : Scope) : service Response :=
  policy ← workspace_policy (sc_workspace scope) policy_id;
  data ← validated data;
  converting policy_api_error
    (update_policy (sc_workspace scope) policy.1 policy.2 (sc_user scope) data.1 data.2);;
  ok (One RPolicy policy.1).

Definition policy_activate (policy_id : N) (scope : Scope) : service Response :=
  policy ← workspace_policy (sc_workspace scope) policy_id;
  converting policy_api_error
    (activate_policy (sc_workspace scope) policy.1 (sc_user scope));;
  ok (One RPolicy policy.1).

Definition policy_deactivate (policy_id : N) (scope : Scope) : service Response :=
  policy ← workspace_policy (sc_workspace scope) policy_id;
  converting policy_api_error
    (deactivate_policy (sc_workspace scope) policy.1 (sc_user scope));;
  ok (One RPolicy policy.1).

Definition newer_policy_version (a b : N * PolicyVersion) : Prop :=
  (pv_version b.2 <= pv_version a.2)%N.
#[local] Instance newer_policy_version_dec a b : Decision (newer_policy_version a b).
Proof. unfold newer_policy_version. apply _. Defined.

Definition policy_version_list (policy_id : N) (scope : Scope) : service Response :=
  policy ← workspace_policy (sc_workspace scope) policy_id;
  rows ← gets (select_rows (PolicyAdmin.version_of policy.1));
  ok (Many RPolicyVersion (keys (merge_sort newer_policy_version rows))).

Definition policy_version_create (policy_id : N) (scope : Scope) : service Response :=
  policy ← workspace_policy (sc_workspace scope) policy_id;
  version ← create_policy_version (sc_workspace scope) policy.1 (sc_user scope);
  created (One RPolicyVersion version).

Definition policy_version_detail (policy_id version_id : N) (scope : Scope) : service Response :=
  version ← workspace_policy_version (sc_workspace scope) policy_id version_id;
  ok (One RPolicyVersion version.1).

Definition policy_version_publish (policy_id version_id : N) (scope : Scope) : service Response :=
  version ← workspace_policy_version (sc_workspace scope) policy_id version_id;
  converting policy_api_error
    (publish_policy_version (sc_workspace scope) version.1 (sc_user scope));;
  ok (One RPolicyVersion version.1).

Definition earlier_rule (a b : N * PolicyRule) : Prop :=
  (rule_priority a.2 < rule_priority b.2)%N
  ∨ rule_priority a.2 = rule_priority b.2 ∧ (a.1 <= b.1)%N.
#[local] Instance earlier_rule_dec a b : Decision (earlier_rule a b).
Proof. unfold earlier_rule. apply _. Defined.

Definition rule_list (policy_id version_id : N) (scope : Scope) : service Response :=
  version ← workspace_policy_version (sc_workspace scope) policy_id version_id;
  rows ← gets (select_rows (rule_in version.1));
  ok (Many RPolicyRule (keys (merge_sort earlier_rule rows))).

Definition rule_create (policy_id version_id : N) (data : option RuleData) (scope : Scope)
    : service Response :=
  version ← workspace_policy_version (sc_workspace scope) policy_id version_id;
  data ← validated data;
  rule ← converting policy_api_error (add_policy_rule version.1 version.2 data);
  created (One RPolicyRule rule).

(** ** Approvals ([approvals/views.py]) *)

Definition approval_in (workspace : N) (a : ApprovalRequest) : bool :=
  bool_decide (ar_workspace a = workspace).
Definition about_tool (tool_key : string) (a : ApprovalRequest) : bool :=
  match ar_safe_context a with
  | JObj members =>
      match args_get members "tool_key" with JStr k => String.eqb tool_key k | _ => false end
  | _ => false
  end.

(** Oldest first; an unknown status is the status of no request. *)
Definition approval_list (status required_role tool_key : option string) (scope : Scope)
    : service Response :=
  rows ← gets (select_rows (λ _ a, approval_in (sc_workspace scope) a
    && text_is (given status) (ApprovalStatus.value (ar_status a))
    && text_is (given required_role) (ar_required_role a)
    && filter_by (given tool_key) (λ k, about_tool k a)));
  ok (Many RApproval (keys rows)).

Definition approval_detail (approval_id : N) (scope : Scope) : service Response :=
  approval ← get_or_404 approval_id (approval_in (sc_workspace scope));
  ok (One RApproval approval.1).

Definition approval_decision (decision_value : ApprovalDecisionValue.t) (approval_id : N)
    (data : option (option string)) (scope : Scope) : service Response :=
  approval ← get_or_404 approval_id (approval_in (sc_workspace scope));
  comment ← validated data;
  actor ← membership_of_scope scope;
  converting approval_api_error
    (decide_approval (sc_workspace scope) approval.1 (sc_user scope)
       (WorkspaceRole.value (mb_role actor.2)) decision_value (default "" comment));;
  decided ← get_row approval.1;
  mret {| rs_status := if bool_decide (ar_status decided = ApprovalStatus.PENDING) then 202 else 200;
          rs_payload := One RApproval approval.1 |}.

(** ** Routing *)

Inductive agents_request :=
  | AgentList (status : option string)
  | AgentCreate (data : option (string * option string))
  | AgentGet (agent_id : N)
  | AgentPatch (agent_id : N) (data : option AgentDefinitionData)
  | VersionList (agent_id : N)
  | VersionCreate (agent_id : N) (data : option AgentVersionData)
  | VersionPublish (agent_id version_id : N)
  | RunList (status agent_id : option string)
  | RunCreate (data : option AgentRunCreateData) (request_id : option string)
  | RunGet (run_id : N)
  | RunSteps (run_id : N)
  | RunCancel (run_id : N)
  | CatalogList
  | BindingList (agent_id version_id : N)
  | BindingCreate (agent_id version_id : N) (data : option (string * option Z))
  | BindingPatch (agent_id version_id binding_id : N) (data : option bool)
  | ExecutionList (status agent_run_id : option string)
  | ExecutionGet (execution_id : N)
  | PolicyList
  | PolicyCreate (data : option (string * option string))
  | PolicyGet (policy_id : N)
  | PolicyPatch (policy_id : N) (data : option (option string * option string))
  | PolicyActivate (policy_id : N)
  | PolicyDeactivate (policy_id : N)
  | PolicyVersionList (policy_id : N)
  | PolicyVersionCreate (policy_id : N)
  | PolicyVersionGet (policy_id version_id : N)
  | PolicyVersionPublish (policy_id version_id : N)
  | RuleList (policy_id version_id : N)
  | RuleCreate (policy_id version_id : N) (data : option RuleData)
  | ApprovalList (status required_role tool_key : option string)
  | ApprovalGet (approval_id : N)
  | ApprovalApprove (approval_id : N) (data : option (option string))
  | ApprovalReject (approval_id : N) (data : option (option string)).

(** [get_permissions]; the views without permission classes of their own ask for an
    authenticated user, which the scope has established. *)
Definition agents_permissions (r : agents_request) : list Permission :=
  match r with
  | AgentCreate _ | AgentPatch _ _ | VersionCreate _ _ | VersionPublish _ _ =>
      [IsWorkspaceMember; CanConfigureAgents]
  | RunCreate _ _ | RunCancel _ => [IsWorkspaceMember; CanRunAgents]
  | BindingCreate _ _ _ | BindingPatch _ _ _ _ => [IsWorkspaceMember; CanConfigureTools]
  | RunGet _ | RunSteps _ | ExecutionList _ _ | ExecutionGet _ => []
  | PolicyCreate _ | PolicyPatch _ _ | PolicyActivate _ | PolicyDeactivate _
  | PolicyVersionList _ | PolicyVersionCreate _ | PolicyVersionGet _ _ | PolicyVersionPublish _ _
  | RuleList _ _ | RuleCreate _ _ _ => [IsWorkspaceMember; CanManagePolicies]
  | _ => [IsWorkspaceMember]
  end.

Definition agents_view (r : agents_request) : Scope → service Response :=
  match r with
  | AgentList status => agent_list status
  | AgentCreate data => agent_create data
  | AgentGet i => agent_detail i
  | AgentPatch i data => agent_patch i data
  | VersionList i => version_list i
  | VersionCreate i data => version_create i data
  | VersionPublish i v => version_publish i v
  | RunList status agent_id => run_list status agent_id
  | RunCreate data request_id => run_create data request_id
  | RunGet i => run_detail i
  | RunSteps i => run_steps i
  | RunCancel i => run_cancel i
  | CatalogList => tool_catalog_list
  | BindingList i v => binding_list i v
  | BindingCreate i v data => binding_create i v data
  | BindingPatch i v b data => binding_patch i v b data
  | ExecutionList status run => execution_list status run
  | ExecutionGet i => execution_detail i
  | PolicyList => policy_list
  | PolicyCreate data => policy_create data
  | PolicyGet i => policy_detail i
  | PolicyPatch i data => policy_patch i data
  | PolicyActivate i => policy_activate i
  | PolicyDeactivate i => policy_deactivate i
  | PolicyVersionList i => policy_version_list i
  | PolicyVersionCreate i => policy_version_create i
  | PolicyVersionGet i v => policy_version_detail i v
  | PolicyVersionPublish i v => policy_version_publish i v
  | RuleList i v => rule_list i v
  | RuleCreate i v data => rule_create i v data
  | ApprovalList status role tool => approval_list status role tool
  | ApprovalGet i => approval_detail i
  | ApprovalApprove i data => approval_decision ApprovalDecisionValue.APPROVE i data
  | ApprovalReject i data => approval_decision ApprovalDecisionValue.REJECT i data
  end.

Definition agents_api (r : agents_request) (user : option N) (workspace_id : N)
    : World → Response * World :=
  handle (scoped (agents_permissions r) user workspace_id (agents_view r)).
End AgentViews.
