(* ===== verification/ApiServices.v ===== *)
(** * The views of webhooks, integrations, knowledge, evaluations and channels

    The views of [webhooks/], [integrations/], [knowledge/] and [evaluations/] and the
    configuration views of [channel_ingress/], with their selectors, as in [ApiDesk]:
    one definition per view and method, [services_request] for the requests and
    [services_view] to route them. *)

From stdpp Require Import base gmap strings list pretty sorting.
From Stdlib Require Import ZArith Ascii String Lia Floats.SpecFloat.
From S2P Require Import Prelude Json Domain Policy Models Store PolicyAdmin Delivery Network Webhooks Approvals ToolExec Graph Workspaces Conversations Tickets Schemas Adapters Integrations IntegrationTools AgentRuns Chunking Knowledge AgentContext Scoring Evaluations Ingress Channels Http ApiDesk.

(** ** Errors *)

(** [_webhook_api_error], [_integration_api_error] and the [except KnowledgeError]. *)
Definition webhook_api_error (e : exn) : option exn :=
  match e with WebhookExc code _ => Some (SafeAPIError 400 code) | _ => None end.
Definition integration_api_error (e : exn) : option exn :=
  match e with
  | IntegrationExc cls _ => Some (SafeAPIError 400 (IntegrationErr.code cls))
  | _ => None
  end.
Definition knowledge_api_error (e : exn) : option exn :=
  match e with KnowledgeExc cls => Some (SafeAPIError 400 (KnowledgeErr.code cls)) | _ => None end.

Definition evaluation_code (e : EvaluationErr.t) : string :=
  match e with
  | EvaluationErr.DatasetHasNoActiveCases => "evaluation_dataset_no_active_cases"
  | EvaluationErr.AgentVersionNotPublished => "evaluation_agent_version_not_published"
  | EvaluationErr.RunNotCancellable => "evaluation_run_not_cancellable"
  | EvaluationErr.ResultNotReplayable => "evaluation_result_not_replayable"
  | EvaluationErr.RunsNotComparable => "evaluation_runs_not_comparable"
  end.
Definition evaluation_api_error (e : exn) : option exn :=
  match e with EvaluationExc cls => Some (SafeAPIError 400 (evaluation_code cls)) | _ => None end.
Definition evaluation_conflict (e : exn) : option exn :=
  match e with EvaluationExc _ => Some ConflictError | _ => None end.
(** The [ValidationError] of [EvaluationCase.clean]. *)
Definition invalid_case (e : exn) : option exn :=
  match e with ValidationError _ => Some (SafeAPIError 400 "invalid_case") | _ => None end.

Definition invalid_agent_version (e : exn) : option exn :=
  match e with
  | InvalidAgentVersionError => Some (SafeAPIError 400 "invalid_agent_version")
  | _ => None
  end.
Definition invalid_request (e : exn) : option exn :=
  match e with ValueError => Some (SafeAPIError 400 "invalid_request") | _ => None end.

Section ServiceViews.
Context `{Settings} `{PyLib} `{Network} `{Pydantic} `{Vendors} `{TextEncoding} `{Documents}.
Context `{VectorDatabase} `{TokenDigest} `{EvaluationSchemas} `{KeyLib}.

(** ** Webhooks ([webhooks/views.py], [webhooks/selectors.py]) *)

Definition endpoint_in (workspace : N) (e : WebhookEndpoint) : bool :=
  bool_decide (we_workspace e = workspace).
Definition webhook_delivery_in (workspace : N) (d : WebhookDelivery) : bool :=
  bool_decide (wd_workspace d = workspace).

(** [endpoint_get_for_workspace] and [delivery_get_for_workspace]: [None] is a 404; a
    webhook delivery has the key of its delivery. *)
Definition endpoint_get_for_workspace (workspace endpoint_id : N) : service (N * WebhookEndpoint) :=
  get_or_404 endpoint_id (endpoint_in workspace).
Definition delivery_get_for_workspace (workspace delivery_id : N) : service (N * WebhookDelivery) :=
  get_or_404 delivery_id (webhook_delivery_in workspace).

Definition webhook_list (scope : Scope) : service Response :=
  rows ← gets (newest_first (endpoint_in (sc_workspace scope)));
  ok (Many RWebhookEndpoint (keys rows)).

Record WebhookEndpointData := {
  wed_name : string;
  wed_url : string;
  wed_subscribed_event_types : list string;
}.

Definition event_types (l : list string) : json := JList (map JStr l).

Definition webhook_create (data : option WebhookEndpointData) (scope : Scope) : service Response :=
  data ← validated data;
  endpoint ← converting webhook_api_error
    (create_endpoint (sc_workspace scope) (sc_user scope) (wed_name data) (wed_url data)
       (event_types (wed_subscribed_event_types data)));
  created (Revealed RWebhookEndpoint endpoint.1 (Some endpoint.2)).

Definition webhook_detail (endpoint_id : N) (scope : Scope) : service Response :=
  endpoint ← endpoint_get_for_workspace (sc_workspace scope) endpoint_id;
  ok (One RWebhookEndpoint endpoint.1).

Record WebhookEndpointUpdate := {
  weu_name : option string;
  weu_url : option string;
  weu_subscribed_event_types : option (list string);
}.

Definition webhook_patch (endpoint_id : N) (data : option WebhookEndpointUpdate) (scope : Scope)
    : service Response :=
  endpoint ← endpoint_get_for_workspace (sc_workspace scope) endpoint_id;
  data ← validated data;
  converting webhook_api_error
    (update_endpoint (sc_workspace scope) endpoint.1 (sc_user scope) (weu_name data) (weu_url data)
       (event_types <$> weu_subscribed_event_types data));;
  ok (One RWebhookEndpoint endpoint.1).

Definition webhook_status (endpoint_id : N) (data : option WebhookEndpointStatus.t) (scope : Scope)
    : service Response :=
  endpoint ← endpoint_get_for_workspace (sc_workspace scope) endpoint_id;
  status ← validated data;
  set_endpoint_status (sc_workspace scope) endpoint.1 (sc_user scope) status;;
  ok (One RWebhookEndpoint endpoint.1).

Definition webhook_rotate_secret (endpoint_id : N) (scope : Scope) : service Response :=
  endpoint ← endpoint_get_for_workspace (sc_workspace scope) endpoint_id;
  plaintext_secret ← rotate_secret (sc_workspace scope) endpoint.1 (sc_user scope);
  ok (Secret plaintext_secret).

Definition webhook_delivery_list (scope : Scope) : service Response :=
  rows ← gets (newest_first (webhook_delivery_in (sc_workspace scope)));
  ok (Many RWebhookDelivery (keys rows)).

Definition webhook_delivery_detail (delivery_id : N) (scope : Scope) : service Response :=
  delivery ← delivery_get_for_workspace (sc_workspace scope) delivery_id;
  ok (One RWebhookDelivery delivery.1).

Definition webhook_redrive (delivery_id : N) (scope : Scope) : service Response :=
  delivery ← delivery_get_for_workspace (sc_workspace scope) delivery_id;
  converting webhook_api_error
    (redrive_webhook_delivery (sc_workspace scope) delivery.1 (sc_user scope) delivery.2);;
  ok (One RWebhookDelivery delivery.1).

(** ** Integrations ([integrations/views.py], [integrations/selectors.py]) *)

Definition connection_in (workspace : N) (c : IntegrationConnection) : bool :=
  bool_decide (ic_workspace c = workspace).
Definition earlier_provider (a b : N * IntegrationConnection) : Prop :=
  String.leb (IntegrationProvider.value (ic_provider a.2))
    (IntegrationProvider.value (ic_provider b.2)) = true.
#[local] Instance earlier_provider_dec a b : Decision (earlier_provider a b).
Proof. unfold earlier_provider. apply _. Defined.
Definition connection_list_for_workspace (workspace : N) (w : World)
    : list (N * IntegrationConnection) :=
  merge_sort earlier_provider (select_rows (λ _ c, connection_in workspace c) w).
Definition connection_get_for_workspace_or_404 (workspace connection_id : N)
    : service (N * IntegrationConnection) :=
  get_or_404 connection_id (connection_in workspace).

Definition connection_list (scope : Scope) : service Response :=
  rows ← gets (connection_list_for_workspace (sc_workspace scope));
  ok (Many RConnection (keys rows)).

Record ConnectionCreateData := {
  icd_provider : string;
  icd_display_name : option string;
  icd_environment : string;
  icd_credentials : json;
  icd_configuration : option json;
}.

Definition connection_create (data : option ConnectionCreateData) (scope : Scope)
    : service Response :=
  data ← validated data;
  connection ← converting integration_api_error
    (create_connection (sc_workspace scope) (sc_user scope) (icd_provider data)
       (default "" (icd_display_name data)) (icd_environment data) (icd_credentials data)
       (metadata_or_empty (icd_configuration data)));
  created (One RConnection connection).

Definition connection_detail (connection_id : N) (scope : Scope) : service Response :=
  connection ← connection_get_for_workspace_or_404 (sc_workspace scope) connection_id;
  ok (One RConnection connection.1).

(** The display name and the configuration. *)
Definition connection_patch (connection_id : N) (data : option (option string * option json))
    (scope : Scope) : service Response :=
  connection ← connection_get_for_workspace_or_404 (sc_workspace scope) connection_id;
  data ← validated data;
  converting integration_api_error
    (update_connection_configuration (sc_workspace scope) connection.1 connection.2 (sc_user scope)
       data.1 data.2);;
  ok (One RConnection connection.1).

Definition connection_credentials (connection_id : N) (data : option json) (scope : Scope)
    : service Response :=
  connection ← connection_get_for_workspace_or_404 (sc_workspace scope) connection_id;
  credentials ← validated data;
  converting integration_api_error
    (rotate_credentials (sc_workspace scope) connection.1 connection.2 (sc_user scope) credentials);;
  ok (One RConnection connection.1).

Definition connection_enabled (connection_id : N) (data : option bool) (scope : Scope)
    : service Response :=
  connection ← connection_get_for_workspace_or_404 (sc_workspace scope) connection_id;
  enabled ← validated data;
  set_connection_enabled (sc_workspace scope) connection.1 connection.2 (sc_user scope) enabled;;
  ok (One RConnection connection.1).

Definition connection_test (connection_id : N) (scope : Scope) : service Response :=
  connection ← connection_get_for_workspace_or_404 (sc_workspace scope) connection_id;
  result ← converting integration_api_error
    (test_connection (sc_workspace scope) connection.1 connection.2 (sc_user scope));
  ok (Tested result).

(** ** Knowledge ([knowledge/views.py], [knowledge/selectors.py]) *)

Definition source_in (workspace : N) (s : KnowledgeSource) : bool :=
  bool_decide (ks_workspace s = workspace).
Definition source_matches (search : string) (s : KnowledgeSource) : bool :=
  icontains search (Some (ks_name s)) || icontains search (Some (ks_description s)).
Definition source_list_for_workspace (workspace : N) (search : option string)
    (is_active : option bool) (w : World) : list (N * KnowledgeSource) :=
  newest_first (λ s, source_in workspace s && filter_by is_active (Bool.eqb (ks_is_active s))
    && filter_by (given search) (λ text, source_matches text s)) w.
Definition source_get_for_workspace_or_404 (workspace source_id : N)
    : service (N * KnowledgeSource) :=
  get_or_404 source_id (source_in workspace).

Definition document_status (s : KnowledgeDocumentStatus.t) : string :=
  match s with
  | KnowledgeDocumentStatus.PENDING => "pending" | KnowledgeDocumentStatus.QUEUED => "queued"
  | KnowledgeDocumentStatus.PROCESSING => "processing" | KnowledgeDocumentStatus.READY => "ready"
  | KnowledgeDocumentStatus.FAILED => "failed"
  end.
Definition document_in (workspace : N) (d : KnowledgeDocument) : bool :=
  bool_decide (kd_workspace d = workspace).
Definition document_list_for_workspace (workspace : N) (source_id : option N)
    (status : option string) (w : World) : list (N * KnowledgeDocument) :=
  newest_first (λ d, document_in workspace d && key_is source_id (Some (kd_source d))
    && text_is (given status) (document_status (kd_status d))) w.
Definition document_get_for_workspace_or_404 (workspace document_id : N)
    : service (N * KnowledgeDocument) :=
  get_or_404 document_id (document_in workspace).
Definition job_in (workspace : N) (j : KnowledgeIngestionJob) : bool :=
  bool_decide (kj_workspace j = workspace).
Definition retrieval_in (workspace : N) (e : RetrievalEvent) : bool :=
  bool_decide (rev_workspace e = workspace).

Definition source_list (search is_active : option string) (scope : Scope) : service Response :=
  rows ← gets (source_list_for_workspace (sc_workspace scope) search (as_bool is_active));
  ok (Many RSource (keys rows)).

(** The name, which a new source must have, and the other fields. *)
Definition source_create (data : option (string * SourceData)) (scope : Scope) : service Response :=
  data ← validated data;
  source ← create_source (sc_workspace scope) (sc_user scope) data.1 data.2;
  created (One RSource source).

Definition source_detail (source_id : N) (scope : Scope) : service Response :=
  source ← source_get_for_workspace_or_404 (sc_workspace scope) source_id;
  ok (One RSource source.1).

Definition source_patch (source_id : N) (data : option SourceData) (scope : Scope)
    : service Response :=
  source ← source_get_for_workspace_or_404 (sc_workspace scope) source_id;
  data ← validated data;
  update_source (sc_workspace scope) source.1 source.2 (sc_user scope) data;;
  ok (One RSource source.1).

Definition document_list (source_id status : option string) (scope : Scope) : service Response :=
  source ← parse_uuid_filter source_id "source_id";
  rows ← gets (document_list_for_workspace (sc_workspace scope) source status);
  ok (Many RDocument (keys rows)).

Record UploadData := {
  ud_source_id : N;
  ud_title : string;
  ud_file : UploadedFile;
  ud_metadata : option json;
}.

Definition document_create (data : option UploadData) (scope : Scope) : service Response :=
  data ← validated data;
  source ← source_get_for_workspace_or_404 (sc_workspace scope) (ud_source_id data);
  document ← converting knowledge_api_error
    (upload_document (sc_workspace scope) source.1 source.2 (sc_user scope) (ud_title data)
       (ud_file data) (ud_metadata data));
  created (Several [(RDocument, document.1); (RJob, document.2)]).

Definition document_detail (document_id : N) (scope : Scope) : service Response :=
  document ← document_get_for_workspace_or_404 (sc_workspace scope) document_id;
  ok (One RDocument document.1).

Definition document_retry (document_id : N) (scope : Scope) : service Response :=
  document ← document_get_for_workspace_or_404 (sc_workspace scope) document_id;
  job ← retry_document (sc_workspace scope) document.1 document.2 (sc_user scope);
  mret {| rs_status := 202; rs_payload := One RJob job |}.

Definition job_detail (job_id : N) (scope : Scope) : service Response :=
  job ← get_or_404 job_id (job_in (sc_workspace scope));
  ok (One RJob job.1).

Record SearchData := {
  sed_query : string;
  sed_top_k : option nat;
  sed_minimum_score : option spec_float;
  sed_source_ids : list N;
  sed_document_ids : list N;
}.

(** The event and the chunks, in order of their rank. *)
Definition search_response (result : SearchResult) : Payload :=
  Several ((RRetrieval, sr_event_id result) :: map (λ c, (RChunk, rc_chunk_id c)) (sr_results result)).

(** The provider of embeddings is the one of the settings. *)
Definition knowledge_search (data : option SearchData) (scope : Scope) : service Response :=
  data ← validated data;
  result ← converting knowledge_api_error
    (search_knowledge (sc_workspace scope) (sed_query data) (Some (sc_user scope)) (sed_top_k data)
       (sed_source_ids data) (sed_document_ids data) (sed_minimum_score data) None);
  ok (search_response result).

Definition lower_rank (a b : N * RetrievalHit) : Prop := (rh_rank a.2 <= rh_rank b.2)%N.
#[local] Instance lower_rank_dec a b : Decision (lower_rank a b).
Proof. unfold lower_rank. apply _. Defined.
Definition hits_of (event_id : N) (w : World) : list (N * RetrievalHit) :=
  merge_sort lower_rank (select_rows (λ _ h, bool_decide (rh_event h = event_id)) w).

Definition retrieval_detail (event_id : N) (scope : Scope) : service Response :=
  event ← get_or_404 event_id (retrieval_in (sc_workspace scope));
  hits ← gets (hits_of event.1);
  ok (Several ((RRetrieval, event.1) :: map (λ h, (RChunk, rh_chunk h.2)) hits)).

(** ** Evaluations ([evaluations/views.py], [evaluations/selectors.py]) *)

Definition dataset_status (s : EvaluationDatasetStatus.t) : string :=
  match s with
  | EvaluationDatasetStatus.DRAFT => "draft" | EvaluationDatasetStatus.ACTIVE => "active"
  | EvaluationDatasetStatus.ARCHIVED => "archived"
  end.
Definition case_status (s : EvaluationCaseStatus.t) : string :=
  match s with
  | EvaluationCaseStatus.ACTIVE => "active" | EvaluationCaseStatus.DISABLED => "disabled"
  end.
Definition result_status (s : EvaluationResultStatus.t) : string :=
  match s with
  | EvaluationResultStatus.PENDING => "pending" | EvaluationResultStatus.RUNNING => "running"
  | EvaluationResultStatus.SUCCEEDED => "succeeded" | EvaluationResultStatus.FAILED => "failed"
  | EvaluationResultStatus.CANCELLED => "cancelled"
  end.

Definition dataset_in (workspace : N) (d : EvaluationDataset) : bool :=
  bool_decide (ed_workspace d = workspace).
Definition dataset_list_for_workspace (workspace : N) (status : option string) (w : World)
    : list (N * EvaluationDataset) :=
  newest_first (λ d, dataset_in workspace d && text_is (given status) (dataset_status (ed_status d))) w.
Definition dataset_get_for_workspace_or_404 (workspace dataset_id : N)
    : service (N * EvaluationDataset) :=
  get_or_404 dataset_id (dataset_in workspace).

(** [dataset=dataset, dataset__workspace=workspace]. *)
Definition case_in (workspace dataset : N) (w : World) (c : EvaluationCase) : bool :=
  bool_decide (ec_dataset c = dataset)
  && bool_decide (ed_workspace <$> w_evaluation_datasets w !! ec_dataset c = Some workspace).
Definition earlier_case (a b : N * EvaluationCase) : Prop :=
  String.leb (ec_key a.2) (ec_key b.2) = true.
#[local] Instance earlier_case_dec a b : Decision (earlier_case a b).
Proof. unfold earlier_case. apply _. Defined.
Definition case_list_for_dataset (workspace dataset : N) (status : option string) (w : World)
    : list (N * EvaluationCase) :=
  merge_sort earlier_case (select_rows (λ _ c, case_in workspace dataset w c
    && text_is (given status) (case_status (ec_status c))) w).
Definition case_get_for_workspace_or_404 (workspace dataset case_id : N)
    : service (N * EvaluationCase) :=
  belongs ← gets (case_in workspace dataset);
  get_or_404 case_id belongs.

Definition evaluation_run_in (workspace : N) (r : EvaluationRun) : bool :=
  bool_decide (ev_workspace r = workspace).
Definition run_list_for_workspace (workspace : N) (status : option string) (dataset_id : option N)
    (w : World) : list (N * EvaluationRun) :=
  newest_first (λ r, evaluation_run_in workspace r
    && text_is (given status) (EvaluationRunStatus.value (ev_status r))
    && key_is dataset_id (Some (ev_dataset r))) w.
Definition run_get_for_workspace_or_404 (workspace run_id : N) : service (N * EvaluationRun) :=
  get_or_404 run_id (evaluation_run_in workspace).

(** [run=run, run__workspace=workspace]. *)
Definition result_in (workspace run : N) (w : World) (r : EvaluationResult) : bool :=
  bool_decide (er_run r = run)
  && bool_decide (ev_workspace <$> w_evaluation_runs w !! er_run r = Some workspace).
Definition snapshot_sequence (w : World) (r : EvaluationResult) : N :=
  from_option es_sequence 0%N (w_evaluation_snapshots w !! er_case_snapshot r).
Definition earlier_snapshot (w : World) (a b : N * EvaluationResult) : Prop :=
  (snapshot_sequence w a.2 <= snapshot_sequence w b.2)%N.
#[local] Instance earlier_snapshot_dec w a b : Decision (earlier_snapshot w a b).
Proof. unfold earlier_snapshot. apply _. Defined.
Definition result_list_for_run (workspace run : N) (status : option string) (passed : option bool)
    (w : World) : list (N * EvaluationResult) :=
  merge_sort (earlier_snapshot w) (select_rows (λ _ r, result_in workspace run w r
    && text_is (given status) (result_status (er_status r))
    && filter_by passed (λ b, bool_decide (er_passed r = Some b))) w).
Definition result_get_for_workspace_or_404 (workspace run result_id : N)
    : service (N * EvaluationResult) :=
  belongs ← gets (result_in workspace run);
  get_or_404 result_id belongs.

Definition dataset_list (status : option string) (scope : Scope) : service Response :=
  rows ← gets (dataset_list_for_workspace (sc_workspace scope) status);
  ok (Many RDataset (keys rows)).

Definition dataset_create
    (data : option (string * option string * option EvaluationDatasetStatus.t)) (scope : Scope)
    : service Response :=
  data ← validated data;
  let '(name, description, status) := data in
  dataset ← create_evaluation_dataset (sc_workspace scope) (sc_user scope) name description status;
  created (One RDataset dataset).

Definition dataset_detail (dataset_id : N) (scope : Scope) : service Response :=
  dataset ← dataset_get_for_workspace_or_404 (sc_workspace scope) dataset_id;
  ok (One RDataset dataset.1).

Definition dataset_patch (dataset_id : N)
    (data : option (option string * option string * option EvaluationDatasetStatus.t))
    (scope : Scope) : service Response :=
  dataset ← dataset_get_for_workspace_or_404 (sc_workspace scope) dataset_id;
  data ← validated data;
  let '(name, description, status) := data in
  update_evaluation_dataset (sc_workspace scope) dataset.1 dataset.2 (sc_user scope) name description
    status;;
  ok (One RDataset dataset.1).

Definition case_list (dataset_id : N) (status : option string) (scope : Scope) : service Response :=
  dataset ← dataset_get_for_workspace_or_404 (sc_workspace scope) dataset_id;
  rows ← gets (case_list_for_dataset (sc_workspace scope) dataset.1 status);
  ok (Many RCase (keys rows)).

Record CaseCreateData := {
  ccd_key : string;
  ccd_name : string;
  ccd_status : option EvaluationCaseStatus.t;
  ccd_input_message : string;
  ccd_seeded_context : option json;
  ccd_expectations : option json;
}.

Definition case_create (dataset_id : N) (data : option CaseCreateData) (scope : Scope)
    : service Response :=
  dataset ← dataset_get_for_workspace_or_404 (sc_workspace scope) dataset_id;
  data ← validated data;
  case ← converting invalid_case
    (create_evaluation_case (sc_workspace scope) dataset.1 (sc_user scope) (ccd_key data)
       (ccd_name data) (ccd_input_message data) (ccd_status data) (ccd_seeded_context data)
       (ccd_expectations data));
  created (One RCase case).

Definition case_detail (dataset_id case_id : N) (scope : Scope) : service Response :=
  dataset ← dataset_get_for_workspace_or_404 (sc_workspace scope) dataset_id;
  case ← case_get_for_workspace_or_404 (sc_workspace scope) dataset.1 case_id;
  ok (One RCase case.1).

(** The key of a case is not read when it is changed. *)
Definition case_patch (dataset_id case_id : N) (data : option CaseData) (scope : Scope)
    : service Response :=
  dataset ← dataset_get_for_workspace_or_404 (sc_workspace scope) dataset_id;
  case ← case_get_for_workspace_or_404 (sc_workspace scope) dataset.1 case_id;
  data ← validated data;
  converting invalid_case
    (update_evaluation_case (sc_workspace scope) case.1 case.2 (sc_user scope) data);;
  ok (One RCase case.1).

Definition evaluation_run_list (status dataset_id : option string) (scope : Scope)
    : service Response :=
  dataset ← parse_uuid_filter dataset_id "dataset_id";
  rows ← gets (run_list_for_workspace (sc_workspace scope) status dataset);
  ok (Many REvaluationRun (keys rows)).

(** [AgentVersion.objects.filter(pk=..., agent_definition__workspace=...).first()]. *)
Definition workspace_version (workspace version_id : N) : service (N * AgentVersion) :=
  get_or_404 version_id (λ v, bool_decide (av_workspace v = workspace)).

Record EvaluationRunCreateData := {
  erd_dataset_id : N;
  erd_agent_version_id : N;
  erd_threshold_config : option (list (string * json));
}.

Definition evaluation_run_create (data : option EvaluationRunCreateData)
    (request_id : option string) (scope : Scope) : service Response :=
  data ← validated data;
  dataset ← dataset_get_for_workspace_or_404 (sc_workspace scope) (erd_dataset_id data);
  version ← workspace_version (sc_workspace scope) (erd_agent_version_id data);
  run ← converting evaluation_api_error
    (start_evaluation_run (sc_workspace scope) (sc_user scope) dataset.1 version.1 version.2
       (erd_threshold_config data) request_id);
  created (One REvaluationRun run).

Definition evaluation_run_detail (run_id : N) (scope : Scope) : service Response :=
  run ← run_get_for_workspace_or_404 (sc_workspace scope) run_id;
  ok (One REvaluationRun run.1).

Definition evaluation_run_cancel (run_id : N) (scope : Scope) : service Response :=
  run ← run_get_for_workspace_or_404 (sc_workspace scope) run_id;
  converting evaluation_conflict
    (cancel_evaluation_run (sc_workspace scope) run.1 (sc_user scope));;
  ok (One REvaluationRun run.1).

(** Without the [strip] of the other lists. *)
Definition passed_filter (value : option string) : option bool :=
  (λ s, str_in (str_lower s) ["true"; "1"]) <$> value.

Definition result_list (run_id : N) (status passed : option string) (scope : Scope)
    : service Response :=
  run ← run_get_for_workspace_or_404 (sc_workspace scope) run_id;
  rows ← gets (result_list_for_run (sc_workspace scope) run.1 status (passed_filter passed));
  ok (Many REvaluationResult (keys rows)).

Definition result_detail (run_id result_id : N) (scope : Scope) : service Response :=
  run ← run_get_for_workspace_or_404 (sc_workspace scope) run_id;
  result ← result_get_for_workspace_or_404 (sc_workspace scope) run.1 result_id;
  ok (One REvaluationResult result.1).

Definition result_replay (run_id result_id : N) (scope : Scope) : service Response :=
  run ← run_get_for_workspace_or_404 (sc_workspace scope) run_id;
  result ← result_get_for_workspace_or_404 (sc_workspace scope) run.1 result_id;
  replay ← converting evaluation_conflict
    (replay_evaluation_case (sc_workspace scope) (sc_user scope) result.1 result.2);
  created (One REvaluationResult replay).

Definition run_compare (data : option (N * N)) (scope : Scope) : service Response :=
  data ← validated data;
  baseline ← run_get_for_workspace_or_404 (sc_workspace scope) data.1;
  candidate ← run_get_for_workspace_or_404 (sc_workspace scope) data.2;
  comparison ← converting evaluation_api_error
    (compare_evaluation_runs (sc_workspace scope) baseline.1 candidate.1 candidate.2
       (Some (sc_user scope)));
  ok (Compared comparison).

(** ** Channel endpoints ([channel_ingress/views.py], [channel_ingress/selectors.py]) *)

Definition channel_in (workspace : N) (e : ChannelEndpoint) : bool :=
  bool_decide (ce_workspace e = workspace).
Definition event_in (workspace : N) (e : InboundChannelEvent) : bool :=
  bool_decide (ie_workspace e = workspace).
Definition endpoint_get_for_workspace_or_404 (workspace endpoint_id : N)
    : service (N * ChannelEndpoint) :=
  get_or_404 endpoint_id (channel_in workspace).

Definition channel_list (scope : Scope) : service Response :=
  rows ← gets (newest_first (channel_in (sc_workspace scope)));
  ok (Many RChannelEndpoint (keys rows)).

Record ChannelCreateData := {
  chd_channel : ChannelType.t;
  chd_name : string;
  chd_agent_version_id : N;
  chd_integration_connection_id : option N;
  chd_unknown_customer_policy : UnknownCustomerPolicy.t;
  chd_configuration : option (list (string * json));
}.

Definition channel_create (data : option ChannelCreateData) (scope : Scope) : service Response :=
  data ← validated data;
  version ← workspace_version (sc_workspace scope) (chd_agent_version_id data);
  connection ← match chd_integration_connection_id data with
    | Some i =>
        c ← get_or_404 i (connection_in (sc_workspace scope));
        mret (Some c.1)
    | None => mret None
    end;
  endpoint ← converting invalid_agent_version
    (create_channel_endpoint (sc_workspace scope) (sc_user scope) (chd_channel data) (chd_name data)
       version.1 version.2 connection (chd_unknown_customer_policy data)
       (default [] (chd_configuration data)));
  created (Revealed RChannelEndpoint endpoint.1 endpoint.2).

Definition channel_detail (endpoint_id : N) (scope : Scope) : service Response :=
  endpoint ← endpoint_get_for_workspace_or_404 (sc_workspace scope) endpoint_id;
  ok (One RChannelEndpoint endpoint.1).

Record ChannelUpdateData := {
  chu_name : option string;
  chu_agent_version_id : option N;
  chu_unknown_customer_policy : option UnknownCustomerPolicy.t;
  chu_configuration : option (list (string * json));
}.

Definition channel_patch (endpoint_id : N) (data : option ChannelUpdateData) (scope : Scope)
    : service Response :=
  endpoint ← endpoint_get_for_workspace_or_404 (sc_workspace scope) endpoint_id;
  data ← validated data;
  version ← match chu_agent_version_id data with
    | Some i => v ← workspace_version (sc_workspace scope) i; mret (Some v)
    | None => mret None
    end;
  converting invalid_agent_version
    (update_channel_endpoint (sc_workspace scope) endpoint.1 (sc_user scope)
       {| epd_name := chu_name data; epd_agent_version := version;
          epd_unknown_customer_policy := chu_unknown_customer_policy data;
          epd_configuration := chu_configuration data |});;
  ok (One RChannelEndpoint endpoint.1).

Definition channel_status (endpoint_id : N) (data : option ChannelEndpointStatus.t) (scope : Scope)
    : service Response :=
  endpoint ← endpoint_get_for_workspace_or_404 (sc_workspace scope) endpoint_id;
  status ← validated data;
  set_channel_endpoint_status (sc_workspace scope) endpoint.1 (sc_user scope) status;;
  ok (One RChannelEndpoint endpoint.1).

Definition channel_rotate_secret (endpoint_id : N) (scope : Scope) : service Response :=
  endpoint ← endpoint_get_for_workspace_or_404 (sc_workspace scope) endpoint_id;
  plaintext_secret ← converting invalid_request
    (rotate_channel_secret (sc_workspace scope) endpoint.1 endpoint.2 (sc_user scope));
  ok (Secret plaintext_secret).

Definition inbound_event_list (scope : Scope) : service Response :=
  rows ← gets (newest_first (event_in (sc_workspace scope)));
  ok (Many RInboundEvent (keys rows)).

Definition inbound_event_detail (event_id : N) (scope : Scope) : service Response :=
  event ← get_or_404 event_id (event_in (sc_workspace scope));
  ok (One RInboundEvent event.1).

(** ** Routing *)

Inductive services_request :=
  | WebhookList
  | WebhookCreate (data : option WebhookEndpointData)
  | WebhookGet (endpoint_id : N)
  | WebhookPatch (endpoint_id : N) (data : option WebhookEndpointUpdate)
  | WebhookStatus (endpoint_id : N) (data : option WebhookEndpointStatus.t)
  | WebhookRotateSecret (endpoint_id : N)
  | WebhookDeliveryList
  | WebhookDeliveryGet (delivery_id : N)
  | WebhookRedrive (delivery_id : N)
  | ConnectionList
  | ConnectionCreate (data : option ConnectionCreateData)
  | ConnectionGet (connection_id : N)
  | ConnectionPatch (connection_id : N) (data : option (option string * option json))
  | ConnectionCredentials (connection_id : N) (data : option json)
  | ConnectionEnabled (connection_id : N) (data : option bool)
  | ConnectionTestPost (connection_id : N)
  | SourceList (search is_active : option string)
  | SourceCreate (data : option (string * SourceData))
  | SourceGet (source_id : N)
  | SourcePatch (source_id : N) (data : option SourceData)
  | DocumentList (source_id status : option string)
  | DocumentCreate (data : option UploadData)
  | DocumentGet (document_id : N)
  | DocumentRetry (document_id : N)
  | JobGet (job_id : N)
  | KnowledgeSearch (data : option SearchData)
  | RetrievalGet (event_id : N)
  | DatasetList (status : option string)
  | DatasetCreate (data : option (string * option string * option EvaluationDatasetStatus.t))
  | DatasetGet (dataset_id : N)
  | DatasetPatch (dataset_id : N)
      (data : option (option string * option string * option EvaluationDatasetStatus.t))
  | CaseList (dataset_id : N) (status : option string)
  | CaseCreate (dataset_id : N) (data : option CaseCreateData)
  | CaseGet (dataset_id case_id : N)
  | CasePatch (dataset_id case_id : N) (data : option CaseData)
  | EvaluationRunList (status dataset_id : option string)
  | EvaluationRunCreate (data : option EvaluationRunCreateData) (request_id : option string)
  | EvaluationRunGet (run_id : N)
  | EvaluationRunCancel (run_id : N)
  | ResultList (run_id : N) (status passed : option string)
  | ResultGet (run_id result_id : N)
  | ResultReplay (run_id result_id : N)
  | RunCompare (data : option (N * N))
  | ChannelList
  | ChannelCreate (data : option ChannelCreateData)
  | ChannelGet (endpoint_id : N)
  | ChannelPatch (endpoint_id : N) (data : option ChannelUpdateData)
  | ChannelStatusPatch (endpoint_id : N) (data : option ChannelEndpointStatus.t)
  | ChannelRotateSecret (endpoint_id : N)
  | InboundEventList
  | InboundEventGet (event_id : N).

Definition services_permissions (r : services_request) : list Permission :=
  match r with
  | WebhookCreate _ | WebhookPatch _ _ | WebhookStatus _ _ | WebhookRotateSecret _
  | WebhookRedrive _ => [IsWorkspaceMember; CanManageWebhooks]
  | ConnectionCreate _ | ConnectionPatch _ _ | ConnectionCredentials _ _ | ConnectionEnabled _ _
  | ConnectionTestPost _ => [IsWorkspaceMember; CanManageIntegrations]
  | SourceCreate _ | SourcePatch _ _ | DocumentCreate _ | DocumentRetry _ =>
      [IsWorkspaceMember; CanManageKnowledge]
  | DocumentGet _ | JobGet _ | KnowledgeSearch _ | RetrievalGet _ => []
  | DatasetCreate _ | DatasetPatch _ _ | CaseCreate _ _ | CasePatch _ _ _ =>
      [CanViewEvaluations; CanManageEvaluations]
  | EvaluationRunCreate _ _ | EvaluationRunCancel _ | ResultReplay _ _ | RunCompare _ =>
      [CanViewEvaluations; CanRunEvaluations]
  | DatasetList _ | DatasetGet _ | CaseList _ _ | CaseGet _ _ | EvaluationRunList _ _
  | EvaluationRunGet _ | ResultList _ _ _ | ResultGet _ _ => [CanViewEvaluations]
  | ChannelCreate _ | ChannelPatch _ _ | ChannelStatusPatch _ _ | ChannelRotateSecret _ =>
      [IsWorkspaceMember; CanManageChannels]
  | _ => [IsWorkspaceMember]
  end.

Definition services_view (r : services_request) : Scope → service Response :=
  match r with
  | WebhookList => webhook_list
  | WebhookCreate data => webhook_create data
  | WebhookGet i => webhook_detail i
  | WebhookPatch i data => webhook_patch i data
  | WebhookStatus i data => webhook_status i data
  | WebhookRotateSecret i => webhook_rotate_secret i
  | WebhookDeliveryList => webhook_delivery_list
  | WebhookDeliveryGet i => webhook_delivery_detail i
  | WebhookRedrive i => webhook_redrive i
  | ConnectionList => connection_list
  | ConnectionCreate data => connection_create data
  | ConnectionGet i => connection_detail i
  | ConnectionPatch i data => connection_patch i data
  | ConnectionCredentials i data => connection_credentials i data
  | ConnectionEnabled i data => connection_enabled i data
  | ConnectionTestPost i => connection_test i
  | SourceList search is_active => source_list search is_active
  | SourceCreate data => source_create data
  | SourceGet i => source_detail i
  | SourcePatch i data => source_patch i data
  | DocumentList source status => document_list source status
  | DocumentCreate data => document_create data
  | DocumentGet i => document_detail i
  | DocumentRetry i => document_retry i
  | JobGet i => job_detail i
  | KnowledgeSearch data => knowledge_search data
  | RetrievalGet i => retrieval_detail i
  | DatasetList status => dataset_list status
  | DatasetCreate data => dataset_create data
  | DatasetGet i => dataset_detail i
  | DatasetPatch i data => dataset_patch i data
  | CaseList d status => case_list d status
  | CaseCreate d data => case_create d data
  | CaseGet d i => case_detail d i
  | CasePatch d i data => case_patch d i data
  | EvaluationRunList status dataset => evaluation_run_list status dataset
  | EvaluationRunCreate data request_id => evaluation_run_create data request_id
  | EvaluationRunGet i => evaluation_run_detail i
  | EvaluationRunCancel i => evaluation_run_cancel i
  | ResultList run status passed => result_list run status passed
  | ResultGet run i => result_detail run i
  | ResultReplay run i => result_replay run i
  | RunCompare data => run_compare data
  | ChannelList => channel_list
  | ChannelCreate data => channel_create data
  | ChannelGet i => channel_detail i
  | ChannelPatch i data => channel_patch i data
  | ChannelStatusPatch i data => channel_status i data
  | ChannelRotateSecret i => channel_rotate_secret i
  | InboundEventList => inbound_event_list
  | InboundEventGet i => inbound_event_detail i
  end.

Definition services_api (r : services_request) (user : option N) (workspace_id : N)
    : World → Response * World :=
  handle (scoped (services_permissions r) user workspace_id (services_view r)).
End ServiceViews.
