(* ===== verification/ApiSafety.v ===== *)
(** * What the API guarantees

    Theorems on the views of [ApiDesk], [ApiAgents] and [ApiServices]: callers from outside of a
    workspace learn and change nothing, and viewers change nothing. *)

From stdpp Require Import base gmap strings list pretty sorting relations.
From Stdlib Require Import ZArith Ascii String Lia.
From S2P Require Import Prelude Json Domain Policy Models Store PolicyAdmin Delivery Network Webhooks Approvals ToolExec Graph Workspaces Conversations Tickets Schemas Adapters Integrations IntegrationTools AgentRuns AgentSafety AgentOutcomes Chunking Knowledge KnowledgeSafety AgentContext Scoring Evaluations EvaluationSafety Ingress Channels ToolSafety ToolCatalog Http ApiDesk ApiAgents ApiServices.

(** ** Callers from outside *)

(** The user has no active membership in the workspace. *)
Definition outsider (w : World) (workspace user : N) : Prop :=
  ∀ i m, w_memberships w !! i = Some m → active_member workspace user i m = false.

Lemma outsider_no_member w workspace user :
  outsider w workspace user → exists_row (active_member workspace user) w = false.
Proof. intros Ho. apply exists_row_false. exact Ho. Qed.

Definition refused (user : option N) : Response :=
  custom_exception_handler (match user with None => NotAuthenticated | Some _ => Http404 end).

(** The rows [get_or_404] answers with. *)
Lemma get_or_404_run {A} `{Table A} i (P : A → bool) w :
  get_or_404 i P w =
    (match rows w !! i with
     | Some r => if P r then inr (i, r) else inl Http404
     | None => inl Http404
     end, w).
Proof.
  unfold get_or_404, find_where, find_row, or_404, or_raise, gets, mbind, M_bind, mret, M_ret.
  destruct (rows w !! i) as [r|]; [|done]. by destruct (P r).
Qed.

Lemma scoped_refused permissions user workspace view w :
  (∀ u, user = Some u → outsider w workspace u) →
  handle (scoped permissions user workspace view) w = (refused user, w).
Proof.
  intros Ho. destruct user as [u|]; [|done]. specialize (Ho u eq_refl).
  unfold handle, scoped, get_workspace_for_user_or_404, mbind, M_bind, gets. cbv beta iota.
  rewrite get_or_404_run, (outsider_no_member _ _ _ Ho). by destruct (rows w !! workspace).
Qed.

(** What a scope knows about the world its request found. *)
Record scope_ok (w : World) (workspace : N) (user : option N) (scope : Scope) : Prop := {
  so_workspace : sc_workspace scope = workspace;
  so_user : user = Some (sc_user scope);
  so_exists : is_Some (w_workspaces w !! workspace);
  so_member a : sc_membership scope = Some a →
    w_memberships w !! a.1 = Some a.2 ∧ active_member workspace (sc_user scope) a.1 a.2 = true;
}.

(** A request is refused, or its view runs in the world it found. *)
Lemma wp_scoped permissions user workspace view (Q : exn + Response → World → Prop) w :
  Q (inl NotAuthenticated) w → Q (inl Http404) w → Q (inl PermissionDenied) w →
  (∀ scope, scope_ok w workspace user scope →
     forallb (λ permission, permission (sc_membership scope)) permissions = true →
     wp (view scope) Q w) →
  wp (scoped permissions user workspace view) Q w.
Proof.
  intros H401 H404 H403 Hview. unfold scoped. destruct user as [u|]; [|done].
  apply wp_bind. unfold wp at 1. unfold get_workspace_for_user_or_404, mbind, M_bind, gets.
  cbv beta iota. rewrite get_or_404_run.
  destruct (rows w !! workspace) as [row|] eqn:Hrow; [|done].
  destruct (exists_row _ w); [|done]. cbv beta iota delta [bind_post fst snd].
  apply wp_bind, wp_first_row. wp_beta. apply wp_bind. unfold raise_if.
  set (membership := head _). destruct (forallb _ permissions) eqn:Hp; [|exact H403].
  apply wp_ret. wp_beta. apply Hview; [|exact Hp]. split; simpl; [done|done|by exists row|].
  intros [i m] Ha. exact (first_row_some _ _ _ _ Ha).
Qed.

Lemma handle_wp (I : World → Prop) (view : service Response) w :
  wp view (λ _, I) w → I (handle view w).2.
Proof. unfold wp, handle. by destruct (view w) as [[e|r] w']. Qed.

Section Api.
Context `{Settings} `{PyLib} `{Network} `{Encoding} `{TextEncoding} `{Providers} `{KeyLib}.
Context `{Pydantic} `{Vendors} `{Documents} `{VectorDatabase} `{TokenDigest} `{EvaluationSchemas}.
Context (slugify normalize_email : string → string).

(** A request below [workspaces/<workspace_id>/]. *)
Inductive api_request :=
  | DeskRequest (r : desk_request)
  | AgentsRequest (r : agents_request)
  | ServicesRequest (r : services_request).

Definition api_permissions (r : api_request) : list Permission :=
  match r with
  | DeskRequest r => desk_permissions r
  | AgentsRequest r => agents_permissions r
  | ServicesRequest r => services_permissions r
  end.
Definition api_view (r : api_request) : Scope → service Response :=
  match r with
  | DeskRequest r => desk_view normalize_email r
  | AgentsRequest r => agents_view r
  | ServicesRequest r => services_view r
  end.
Definition api (r : api_request) (user : option N) (workspace_id : N) : World → Response * World :=
  handle (scoped (api_permissions r) user workspace_id (api_view r)).

(** C8. Whatever it asks for, a request of a caller without an active membership is answered
    with the same refusal, whether the workspace and its objects exist or not, and
    changes nothing. *)
Theorem outsiders_learn_nothing r user workspace w :
  (∀ u, user = Some u → outsider w workspace u) →
  api r user workspace w = (refused user, w).
Proof. apply scoped_refused. Qed.

(** ** Viewers *)

(** Every active membership of the user in the workspace is a viewer's. *)
Definition viewer (w : World) (workspace user : N) : Prop :=
  ∀ i m, w_memberships w !! i = Some m → active_member workspace user i m = true →
    mb_role m = WorkspaceRole.VIEWER.

(** A request that reads: the others ask for a role or decide an approval. *)
Definition reads (view : Scope → service Response) : Prop :=
  ∀ scope, included eq (view scope).

Lemma get_or_404_reads {A} `{Table A} i (P : A → bool) : included eq (get_or_404 i P).
Proof. intros w. by rewrite get_or_404_run. Qed.
Lemma filter_reads value param : included eq (parse_uuid_filter value param).
Proof. unfold parse_uuid_filter. included_steps. Qed.
Lemma raw_filter_reads value : included eq (raw_key_filter value).
Proof. unfold raw_key_filter. included_steps. Qed.
Lemma ok_reads p : included eq (ok p).
Proof. unfold ok. included_steps. Qed.
Hint Resolve get_or_404_reads filter_reads raw_filter_reads ok_reads : included.

Ltac view_step :=
  lazymatch goal with
  | |- included _ (get_or_404 _ _) => apply get_or_404_reads
  | |- included _ (ok _) => apply ok_reads
  | |- _ => included_step
  end.

Lemma desk_reads r : desk_permissions r = [IsWorkspaceMember] → reads (desk_view normalize_email r).
Proof.
  intros Hp scope. destruct r; simplify_eq/=;
    unfold workspace_detail, member_list, member_detail, customer_list, customer_detail,
      conversation_list, conversation_detail, message_list, ticket_list, ticket_detail,
      handoff_list, handoff_detail, get_workspace_member_or_404,
      customer_get_for_workspace_or_404, conversation_get_for_workspace_or_404,
      ticket_get_for_workspace_or_404, handoff_get_for_workspace_or_404;
    repeat view_step.
Qed.

(** Two kinds of requests ask for a membership and write all the same: the decision on
    an approval, which asks for a role of its own, and the search of the knowledge base,
    which records itself. *)
Definition decides (r : agents_request) : bool :=
  match r with ApprovalApprove _ _ | ApprovalReject _ _ => true | _ => false end.
Definition searches (r : services_request) : bool :=
  match r with KnowledgeSearch _ => true | _ => false end.

Lemma agents_reads r :
  decides r = false → agents_permissions r = [IsWorkspaceMember] ∨ agents_permissions r = [] →
  reads (agents_view r).
Proof.
  intros Hd Hp scope. destruct r; try (by destruct Hp); try done; simpl;
    unfold agent_list, agent_detail, version_list, run_list, run_detail, run_steps,
      tool_catalog_list, binding_list, execution_list, execution_detail, policy_list,
      policy_detail, approval_list, approval_detail, workspace_policy,
      agent_definition_get_for_workspace_or_404, agent_version_get_for_workspace_or_404,
      agent_run_get_for_workspace_or_404, tool_execution_get_for_workspace_or_404;
    repeat view_step.
Qed.

(** The permission classes of the views that read. *)
Definition for_readers (l : list Permission) : Prop :=
  l = [IsWorkspaceMember] ∨ l = [] ∨ l = [CanViewEvaluations].

Lemma services_reads r :
  searches r = false → for_readers (services_permissions r) → reads (services_view r).
Proof.
  intros Hs Hp scope. destruct r; try (by destruct Hp as [?|[?|?]]); try done; simpl;
    unfold webhook_list, webhook_detail, webhook_delivery_list, webhook_delivery_detail,
      connection_list, connection_detail, source_list, source_detail, document_list,
      document_detail, job_detail, retrieval_detail, dataset_list, dataset_detail, case_list,
      case_detail, evaluation_run_list, evaluation_run_detail, result_list, result_detail,
      channel_list, channel_detail, inbound_event_list, inbound_event_detail,
      endpoint_get_for_workspace, delivery_get_for_workspace,
      connection_get_for_workspace_or_404, source_get_for_workspace_or_404,
      document_get_for_workspace_or_404, dataset_get_for_workspace_or_404,
      case_get_for_workspace_or_404, run_get_for_workspace_or_404,
      result_get_for_workspace_or_404, endpoint_get_for_workspace_or_404;
    repeat view_step.
Qed.

(** What the scope lets through for a viewer. *)
Lemma viewer_permissions r a :
  mb_role a.2 = WorkspaceRole.VIEWER →
  forallb (λ permission, permission (Some a)) (api_permissions r) = true →
  for_readers (api_permissions r).
Proof.
  destruct a as [i m]. simpl. intros Hm Hp.
  destruct r as [r|r|r]; destruct r; try (unfold for_readers; by auto);
    simpl in Hp; rewrite Hm in Hp; vm_compute in Hp; done.
Qed.

(** What it lets through for a caller whose membership has gone meanwhile. *)
Lemma member_permissions r :
  forallb (λ permission, permission None) (api_permissions r) = true → api_permissions r = [].
Proof. destruct r as [r|r|r]; destruct r; by vm_compute. Qed.

Definition self_recording (r : api_request) : bool :=
  match r with
  | DeskRequest _ => false | AgentsRequest r => decides r | ServicesRequest r => searches r
  end.

Lemma api_reads r :
  self_recording r = false →
  for_readers (api_permissions r) → reads (api_view r).
Proof.
  destruct r as [r|r|r]; simpl; intros Hs Hp.
  - apply desk_reads. destruct r; try done; by destruct Hp as [?|[?|?]].
  - apply agents_reads; [done|]. destruct r; auto; by destruct Hp as [?|[?|?]].
  - by apply services_reads.
Qed.

(** C12. A viewer changes nothing, whatever the request: the decision on an approval and the
    search of the knowledge base apart, what writes asks for another role. *)
Theorem viewers_change_nothing r user workspace w :
  viewer w workspace user → self_recording r = false → (api r (Some user) workspace w).2 = w.
Proof.
  intros Hv Hd. apply (handle_wp (λ w', w' = w)). apply wp_scoped; [done..|].
  intros scope Hok Hp. symmetry. apply api_reads; [exact Hd|].
  destruct (sc_membership scope) as [a|] eqn:Ha.
  - destruct (so_member _ _ _ _ Hok a Ha) as [Hin Hact].
    pose proof (so_user _ _ _ _ Hok) as [= ->].
    apply (viewer_permissions r a); [exact (Hv _ _ Hin Hact)|exact Hp].
  - apply member_permissions in Hp as ->. by right; left.
Qed.
End Api.

(** ** Acme's desk

    The workspace of [WorkspaceExamples] with a viewer, user 30; user 40 has left. *)
Module ApiExamples.
#[local] Existing Instance default_settings.
#[local] Existing Instance trivial_pylib.
#[local] Existing Instance ToolExamples.net.
#[local] Existing Instance ToolExamples.encoding.
#[local] Existing Instance GraphExamples.text_encoding.
#[local] Existing Instance AgentExamples.providers.
#[local] Existing Instance example_pydantic.
#[local] Existing Instance example_vendors.
#[local] Existing Instance KnowledgeExamples.storage.
#[local] Existing Instance KnowledgeExamples.digest.
#[local] Existing Instance KnowledgeExamples.distance.
#[local] Existing Instance EvaluationExamples.schemas.
#[local] Instance keylib : KeyLib := {| uuid_of_text := read_key |}.

Definition left_member : WorkspaceMembership :=
  {| mb_workspace := 1; mb_user := 40; mb_role := WorkspaceRole.ADMIN; mb_is_active := false |}.
Definition acme : World :=
  let w := WorkspaceExamples.world in
  {| w with w_next := 10;
     w_memberships := <[5%N := WorkspaceExamples.member 30 WorkspaceRole.VIEWER]>
       (<[6%N := left_member]> (w_memberships w)) |}.

Definition ask (r : desk_request) (user : option N) : Response * World :=
  api id (DeskRequest r) user 1 acme.

(** The owner reads the members; a viewer may not add one. *)
Example owner_lists :
  ask MemberList (Some 10%N) = ({| rs_status := 200; rs_payload := Many RMembership [5%N; 3%N; 2%N] |}, acme).
Proof. by vm_compute. Qed.
Example viewer_forbidden :
  (ask (CustomerCreate None) (Some 30%N)).1 = custom_exception_handler PermissionDenied.
Proof. by vm_compute. Qed.

(** A request of someone who left the workspace. *)
Lemma outsiders_learn_nothing_witness :
  outsider acme 1 40 ∧
  ask (MemberDelete 3) (Some 40%N) =
    ({| rs_status := 404; rs_payload := ErrorCode "not_found" |}, acme).
Proof.
  assert (Ho : outsider acme 1 40).
  { intros i m. simpl. intros [[<- <-]|[_ Hm]]%lookup_insert_Some; [done|].
    apply lookup_insert_Some in Hm as [[<- <-]|[_ Hm]]; [done|].
    apply lookup_insert_Some in Hm as [[<- <-]|[_ Hm]]; [done|].
    by apply lookup_singleton_Some in Hm as [<- <-]. }
  split; [exact Ho|].
  apply (outsiders_learn_nothing id (DeskRequest (MemberDelete 3)) (Some 40%N) 1 acme).
  intros u [= <-]. exact Ho.
Defined.

(** A viewer tries to remove the administrator. *)
Lemma viewers_change_nothing_witness :
  viewer acme 1 30 ∧ (ask (MemberDelete 3) (Some 30%N)).2 = acme.
Proof.
  assert (Hv : viewer acme 1 30).
  { intros i m. simpl. intros [[<- <-]|[_ Hm]]%lookup_insert_Some; [done|].
    apply lookup_insert_Some in Hm as [[<- <-]|[_ Hm]]; [done|].
    apply lookup_insert_Some in Hm as [[<- <-]|[_ Hm]]; [done|].
    by apply lookup_singleton_Some in Hm as [<- <-]. }
  split; [exact Hv|].
  by apply (viewers_change_nothing id (DeskRequest (MemberDelete 3)) 30 1 acme).
Defined.
End ApiExamples.
