(* ===== verification/DeskSafety.v ===== *)
(** * The desk keeps to its workspace

    Every request to the views of [ApiDesk], seen as a step of the database: it writes
    the desk's tables only, in the workspace of its path only, audits it under that
    workspace and the caller's name, moves no object to another workspace, and answers
    with objects of that workspace. *)

From stdpp Require Import base gmap strings list pretty sorting relations.
From Stdlib Require Import ZArith Ascii String Lia.
From S2P Require Import Prelude Json Domain Policy Models Store PolicyAdmin Delivery Network Webhooks Approvals ToolExec ToolSafety Workspaces Conversations Tickets Schemas Adapters Integrations IntegrationTools Ingress Http ApiDesk ApiSafety.

(** ** The frame *)

(** The rows of a table, where [proj] is the workspace of a row: none disappears or
    moves, those of other workspaces are as they were, and a new one is of the workspace. *)
Record kept {A} (proj : N → A → N) (workspace : N) (m m' : gmap N A) : Prop := {
  kp_old i r : m !! i = Some r → ∃ r', m' !! i = Some r' ∧ proj i r' = proj i r ∧
    (proj i r ≠ workspace → r' = r);
  kp_new i r : m' !! i = Some r → m !! i = None → proj i r = workspace;
}.

Section Kept.
Context {A : Type} (proj : N → A → N) (workspace : N).

#[export] Instance kept_preorder : PreOrder (kept proj workspace).
Proof.
  split.
  { intros m. split; [intros i r Hi; by exists r|intros i r ??; congruence]. }
  intros m1 m2 m3 [H12 N12] [H23 N23]. split.
  - intros i r Hi.
    destruct (H12 i r Hi) as (r2 & Hi2 & E2 & Hs2). destruct (H23 i r2 Hi2) as (r3 & Hi3 & E3 & Hs3).
    exists r3. split_and!; [done|congruence|]. intros Hne. rewrite <-(Hs2 Hne). apply Hs3. congruence.
  - intros i r Hi Hnone. destruct (m2 !! i) as [r2|] eqn:Hi2; [|by apply N23].
    destruct (H23 i r2 Hi2) as (r3 & Hi3 & E3 & _). simplify_eq. rewrite E3. by apply N12.
Qed.

Lemma kept_insert m i r :
  (∀ old, m !! i = Some old → proj i old = workspace) → proj i r = workspace →
  kept proj workspace m (<[i := r]> m).
Proof.
  intros Hold Hr. split.
  - intros j x Hj. destruct (decide (i = j)) as [<-|Hne].
    + rewrite lookup_insert_eq. exists r. rewrite (Hold x Hj). by rewrite Hr.
    + rewrite lookup_insert_ne by done. by exists x.
  - intros j x [[<- <-]|[_ Hj]]%lookup_insert_Some Hnone; [done|congruence].
Qed.
End Kept.

(** The desk's tables, the counter and the audit trail of [w'], the rest of [w]. *)
Definition with_desk (w' w : World) : World :=
  {| w with w_next := w_next w'; w_workspaces := w_workspaces w';
            w_memberships := w_memberships w'; w_customers := w_customers w';
            w_conversations := w_conversations w'; w_messages := w_messages w';
            w_tickets := w_tickets w'; w_handoffs := w_handoffs w'; w_audit := w_audit w' |}.

(** Identifiers are not handed out twice, and a message is in the workspace of its
    conversation. *)
Definition below {A} (w : World) (m : gmap N A) : Prop := ∀ i, is_Some (m !! i) → (i < w_next w)%N.
Definition message_at_home (w : World) (m : Message) : Prop :=
  cv_workspace <$> w_conversations w !! msg_conversation m = Some (msg_workspace m).
Record desk_ok (w : World) : Prop := {
  dk_workspaces : below w (w_workspaces w);
  dk_memberships : below w (w_memberships w);
  dk_customers : below w (w_customers w);
  dk_conversations : below w (w_conversations w);
  dk_messages : below w (w_messages w);
  dk_tickets : below w (w_tickets w);
  dk_handoffs : below w (w_handoffs w);
  dk_home i m : w_messages w !! i = Some m → message_at_home w m;
}.

Record desk_kept (workspace : N) (w w' : World) : Prop := {
  dt_workspaces : kept (λ i _, i) workspace (w_workspaces w) (w_workspaces w');
  dt_memberships : kept (λ _, mb_workspace) workspace (w_memberships w) (w_memberships w');
  dt_customers : kept (λ _, cu_workspace) workspace (w_customers w) (w_customers w');
  dt_conversations : kept (λ _, cv_workspace) workspace (w_conversations w) (w_conversations w');
  dt_messages : kept (λ _, msg_workspace) workspace (w_messages w) (w_messages w');
  dt_tickets : kept (λ _, tk_workspace) workspace (w_tickets w) (w_tickets w');
  dt_handoffs : kept (λ _, ho_workspace) workspace (w_handoffs w) (w_handoffs w');
}.

(** An entry of the audit trail that names the workspace and the caller. *)
Definition audited (workspace user : N) (e : AuditEvent) : Prop :=
  ae_workspace e = Some workspace ∧ ae_actor e = Some user.

Record desk_frame (workspace user : N) (w w' : World) : Prop := {
  df_shape : w' = with_desk w' w;
  df_audit : ∃ l, w_audit w' = w_audit w ++ l ∧ Forall (audited workspace user) l;
  df_ok : desk_ok w → desk_ok w';
  df_kept : desk_ok w → desk_kept workspace w w';
}.

#[export] Instance desk_frame_preorder workspace user : PreOrder (desk_frame workspace user).
Proof.
  split.
  - intros w. split; [by destruct w|exists []; by rewrite app_nil_r|done|].
    intros _. split; reflexivity.
  - intros w1 w2 w3 [S2 (l2 & A2 & F2) O2 K2] [S3 (l3 & A3 & F3) O3 K3]. split.
    + rewrite S3, S2. reflexivity.
    + exists (l2 ++ l3). rewrite A3, A2, <-app_assoc. split; [done|]. by apply Forall_app.
    + auto.
    + intros Hok. destruct (K2 Hok), (K3 (O2 Hok)). split; by etrans.
Qed.

Lemma frame_if_ok workspace user w w' :
  (desk_ok w → desk_frame workspace user w w') →
  w' = with_desk w' w → (∃ l, w_audit w' = w_audit w ++ l ∧ Forall (audited workspace user) l) →
  desk_frame workspace user w w'.
Proof. intros Hf Hs Ha. split; [done|done|intros Hok; by apply Hf|intros Hok; by apply Hf]. Qed.

(** ** Writes *)

Section Writes.
Context (workspace user : N).
Abbreviation frame := (desk_frame workspace user).

Lemma frame_fresh w : frame w {| w with w_next := N.succ (w_next w) |}.
Proof.
  split; [done|by exists []; rewrite app_nil_r| |intros _; split; reflexivity].
  intros [H1 H2 H3 H4 H5 H6 H7 H8].
  split; [intros i Hi; simpl in *; first [specialize (H1 i Hi)|specialize (H2 i Hi)
    |specialize (H3 i Hi)|specialize (H4 i Hi)|specialize (H5 i Hi)|specialize (H6 i Hi)
    |specialize (H7 i Hi)]; lia..|exact H8].
Qed.

Lemma frame_audit e w :
  audited workspace user e → frame w {| w with w_audit := w_audit w ++ [e] |}.
Proof.
  intros He. split; [done|by exists [e]; split; [|apply Forall_singleton]| |intros _; split; reflexivity].
  by intros [].
Qed.

Lemma below_written {A} (w w' : World) (m : gmap N A) i r :
  below w m → (i < w_next w)%N → w_next w' = w_next w → below w' (<[i := r]> m).
Proof. intros Hm Hi Hn j [<-|[_ Hj%Hm]]%lookup_insert_is_Some; lia. Qed.

(** The row [i] may be written. *)
Definition mine {A} (proj : A → N) (w : World) (m : gmap N A) (i : N) : Prop :=
  (i < w_next w)%N ∧ ∀ old, m !! i = Some old → proj old = workspace.

#[local] Ltac write w H :=
  split; [done|by exists []; rewrite app_nil_r
    |intros Hok; destruct (H Hok) as [Hlt Hold]; destruct Hok; split; simpl;
       first [assumption|by apply (below_written w)|idtac]
    |intros Hok; destruct (H Hok) as [? ?]; split; try reflexivity; by apply kept_insert].

Lemma frame_membership w i r :
  mb_workspace r = workspace → (desk_ok w → mine mb_workspace w (w_memberships w) i) →
  frame w {| w with w_memberships := <[i := r]> (w_memberships w) |}.
Proof. intros Hr H. write w H. Qed.
Lemma frame_customer w i r :
  cu_workspace r = workspace → (desk_ok w → mine cu_workspace w (w_customers w) i) →
  frame w {| w with w_customers := <[i := r]> (w_customers w) |}.
Proof. intros Hr H. write w H. Qed.
Lemma frame_ticket w i r :
  tk_workspace r = workspace → (desk_ok w → mine tk_workspace w (w_tickets w) i) →
  frame w {| w with w_tickets := <[i := r]> (w_tickets w) |}.
Proof. intros Hr H. write w H. Qed.
Lemma frame_handoff w i r :
  ho_workspace r = workspace → (desk_ok w → mine ho_workspace w (w_handoffs w) i) →
  frame w {| w with w_handoffs := <[i := r]> (w_handoffs w) |}.
Proof. intros Hr H. write w H. Qed.
Lemma frame_workspace w r :
  is_Some (w_workspaces w !! workspace) →
  frame w {| w with w_workspaces := <[workspace := r]> (w_workspaces w) |}.
Proof.
  intros Hw. assert (H : desk_ok w → (workspace < w_next w)%N ∧ True).
  { intros [H1 _ _ _ _ _ _ _]. split; [by apply H1|done]. }
  write w H.
Qed.
Lemma frame_conversation w i r :
  cv_workspace r = workspace → (desk_ok w → mine cv_workspace w (w_conversations w) i) →
  frame w {| w with w_conversations := <[i := r]> (w_conversations w) |}.
Proof.
  intros Hr H. write w H. intros j m Hm. specialize (dk_home0 j m Hm).
  unfold message_at_home in *. simpl. destruct (decide (i = msg_conversation m)) as [->|Hne].
  - rewrite lookup_insert_eq. simpl. destruct (w_conversations w !! msg_conversation m) as [old|] eqn:Ho;
      [|done]. simpl in *. pose proof (Hold old eq_refl). congruence.
  - by rewrite lookup_insert_ne.
Qed.
Lemma frame_message w i r :
  msg_workspace r = workspace → message_at_home w r →
  (desk_ok w → mine msg_workspace w (w_messages w) i) →
  frame w {| w with w_messages := <[i := r]> (w_messages w) |}.
Proof.
  intros Hr Hh H. write w H. intros j m [[_ <-]|[_ Hm]]%lookup_insert_Some; [exact Hh|].
  by eapply dk_home0.
Qed.

(** A row under a new identifier: a [mine] of the world with the counter moved on. *)
Lemma fresh_mine {A} (proj : A → N) (w : World) (m : gmap N A) :
  below w m → mine proj {| w with w_next := N.succ (w_next w) |} m (w_next w).
Proof.
  intros Hb. split; simpl; [lia|]. intros old Ho. specialize (Hb _ (mk_is_Some _ _ Ho)). lia.
Qed.
End Writes.

(** ** Services *)

Section Services.
Context `{Settings} `{PyLib} `{Network}.
Context (normalize_email : string → string).
Context (ws u : N).
Abbreviation frame := (desk_frame ws u).

(** The frame, and the new object in the workspace. *)
Definition creates (r : Resource) (w : World) : exn + N → World → Prop := λ x w',
  frame w w' ∧ match x with inr i => tenant w' r i = Some ws | inl _ => True end.

#[local] Ltac audit_last := etrans; [|apply frame_audit; by split].

Lemma update_workspace_framed name w :
  is_Some (w_workspaces w !! ws) → wp (update_workspace ws u name) (λ _, frame w) w.
Proof.
  intros Hws. unfold update_workspace, normalize_name. repeat svc_step; try reflexivity.
  audit_last. by apply frame_workspace.
Qed.

Lemma mine_of_row {A} (proj : A → N) (w : World) (m : gmap N A) i old :
  below w m → m !! i = Some old → proj old = ws → mine ws proj w m i.
Proof. intros Hb Hi Hp. split; [apply Hb; by eauto|]. intros ? ?. congruence. Qed.

Lemma save_membership_framed i f w :
  (∀ m, w_memberships w !! i = Some m → mb_workspace m = ws) →
  (∀ m, mb_workspace (f m) = mb_workspace m) →
  wp (save_membership i f) (λ r w', frame w w' ∧ match r with
    | inl _ => True
    | inr _ => ∃ m, w_memberships w !! i = Some m ∧
        w_memberships w' = <[i := f m]> (w_memberships w)
    end) w.
Proof.
  intros Hm Hf. apply wp_save_membership; [|by split; [reflexivity|]]. intros m Hi _.
  split; [|by exists m]. apply frame_membership; [by rewrite Hf, (Hm m Hi)|].
  intros Hok. apply (mine_of_row _ _ _ _ m); [apply Hok|done|by apply Hm].
Qed.

(** A service whose first part stays in the frame. *)
Lemma wp_then {A B} (m : service A) (k : A → service B) w (P : exn + A → World → Prop) Q :
  wp m P w → (∀ e w', P (inl e) w' → Q (inl e) w') →
  (∀ a w', P (inr a) w' → wp (k a) Q w') → wp (m ≫= k) Q w.
Proof.
  intros Hm He Hk. apply wp_bind. eapply wp_mono; [exact Hm|]. intros [e|a] w' HP; wp_beta; auto.
Qed.

Lemma change_role_framed role i m new_role w :
  w_memberships w !! i = Some m →
  wp (change_workspace_member_role ws u role i m new_role) (λ _, frame w) w.
Proof.
  intros Hi. unfold change_workspace_member_role. repeat svc_step; try reflexivity.
  apply negb_false_iff, bool_decide_eq_true in Heqb.
  eapply wp_mono; [apply save_membership_framed; [congruence|done]|].
  intros [e|[]] w' [Hf _]; wp_beta; [reflexivity|].
  repeat svc_step. etrans; [exact Hf|]. apply frame_audit; by split.
Qed.

Lemma remove_member_framed role i m w :
  w_memberships w !! i = Some m →
  wp (remove_workspace_member ws u role i m) (λ _, frame w) w.
Proof.
  intros Hi. unfold remove_workspace_member. repeat svc_step; try reflexivity.
  apply negb_false_iff, bool_decide_eq_true in Heqb.
  eapply wp_mono; [apply save_membership_framed; [congruence|done]|].
  intros [e|[]] w' [Hf _]; wp_beta; [reflexivity|].
  repeat svc_step. etrans; [exact Hf|]. apply frame_audit; by split.
Qed.

Lemma transfer_framed i m j n w :
  w_memberships w !! i = Some m → mb_workspace m = ws → w_memberships w !! j = Some n →
  wp (transfer_workspace_ownership ws u i m j n) (λ _, frame w) w.
Proof.
  intros Hi Hm Hj. unfold transfer_workspace_ownership, locked_membership.
  repeat svc_step; try reflexivity.
  apply negb_false_iff, bool_decide_eq_true in Heqb0.
  eapply wp_mono; [apply save_membership_framed; [congruence|done]|].
  intros [e|[]] w2 Hf; wp_beta; [reflexivity|]. destruct Hf as [Hf (m' & Hi' & Hw2)].
  repeat svc_step. eapply wp_mono; [apply save_membership_framed; [|done]|].
  - rewrite Hw2. intros r [[_ <-]|[_ Hr]]%lookup_insert_Some; simpl; congruence.
  - intros [e|[]] w3 [Hf3 _]; wp_beta; [reflexivity|]. repeat svc_step.
    etrans; [exact Hf|]. etrans; [exact Hf3|]. apply frame_audit; by split.
Qed.

Lemma add_member_created role email new_role w :
  desk_ok w →
  wp (add_workspace_member normalize_email ws u role email new_role) (creates RMembership w) w.
Proof.
  intros Hok. unfold add_workspace_member. repeat svc_step; try (by split; [reflexivity|]).
  - apply first_row_some in Heqo0 as [Hi Hm].
    apply andb_true_iff in Hm as [Hws%bool_decide_eq_true _].
    eapply wp_mono; [apply save_membership_framed; [|done]|].
    { intros r Hr. unfold rows in Hi. simpl in Hi. congruence. }
    intros [e|[]] w' Hf; wp_beta; [by split; [reflexivity|]|].
    destruct Hf as [Hf (r & Hr & Hw')]. repeat svc_step. split.
    + etrans; [exact Hf|]. apply frame_audit; by split.
    + simpl. rewrite Hw', lookup_insert_eq. simpl. unfold rows in Hi. simpl in Hi. congruence.
  - unfold insert_membership. repeat svc_step.
    apply wp_save_unique. destruct (clashes _ _ _ _); wp_beta; repeat svc_step; [by split; [reflexivity|]|].
    split; [|by simpl; rewrite lookup_insert_eq].
    etrans; [apply frame_fresh|]. etrans; [|apply frame_audit; by split].
    apply frame_membership; [done|]. intros _. by apply fresh_mine, Hok.
Qed.

Lemma formatted_workspace c : cu_workspace (formatted_customer c) = cu_workspace c.
Proof. done. Qed.

Lemma create_customer_created data w :
  desk_ok w → wp (create_customer ws data) (creates RCustomer w) w.
Proof.
  intros Hok. unfold create_customer, as_conflict, save_customer.
  repeat svc_step; try (by split; [reflexivity|]).
  apply wp_save_unique. destruct (clashes _ _ _ _); wp_beta; repeat svc_step; [by split; [reflexivity|]|].
  split; [|by simpl; rewrite lookup_insert_eq].
  etrans; [apply frame_fresh|]. apply frame_customer; [done|]. intros _. by apply fresh_mine, Hok.
Qed.

Lemma update_customer_framed i c data w :
  w_customers w !! i = Some c → cu_workspace c = ws →
  wp (update_customer ws i c u data) (λ _, frame w) w.
Proof.
  intros Hi Hc. unfold update_customer, as_conflict, save_customer.
  assert (Hf : frame w {| w with w_customers :=
    <[i := formatted_customer (apply_customer_data data c)]> (w_customers w) |}).
  { apply frame_customer; [done|]. intros Hok. by eapply mine_of_row; [apply Hok|..]. }
  repeat svc_step; try reflexivity.
  apply wp_save_unique. destruct (clashes _ _ _ _); wp_beta; repeat svc_step; try reflexivity; [|exact Hf].
  etrans; [exact Hf|]. apply frame_audit; by split.
Qed.

(** ** Conversations *)

Lemma create_conversation_created cid c channel subject external metadata w :
  desk_ok w →
  wp (create_conversation ws cid c channel subject external metadata) (creates RConversation w) w.
Proof.
  intros Hok. unfold create_conversation. repeat svc_step; try (by split; [reflexivity|]).
  apply wp_save_unique. destruct (clashes _ _ _ _); wp_beta; repeat svc_step; [by split; [reflexivity|]|].
  split; [|by simpl; rewrite lookup_insert_eq].
  etrans; [apply frame_fresh|]. apply frame_conversation; [done|]. intros _. by apply fresh_mine, Hok.
Qed.

Lemma conversation_fields_framed i f w :
  (∀ c, w_conversations w !! i = Some c → cv_workspace c = ws) →
  (∀ c, cv_workspace (f c) = cv_workspace c) → wp (save_fields i f) (λ _, frame w) w.
Proof.
  intros Hc Hf. apply wp_save_fields. destruct (rows w !! i) as [c|] eqn:Hi; [|reflexivity].
  apply frame_conversation; [by rewrite Hf, (Hc c Hi)|].
  intros Hok. apply (mine_of_row _ _ _ _ c); [apply Hok|done|by apply Hc].
Qed.

Lemma assign_conversation_framed actor i c target w :
  w_conversations w !! i = Some c → cv_workspace c = ws →
  wp (assign_conversation ws u actor i c target) (λ _, frame w) w.
Proof.
  intros Hi Hc. unfold assign_conversation. repeat svc_step; try reflexivity.
  all: eapply wp_mono; [apply conversation_fields_framed; [congruence|done]|].
  all: intros [e|[]] w' Hf; wp_beta; [reflexivity|]; repeat svc_step.
  all: etrans; [exact Hf|]; apply frame_audit; by split.
Qed.

Lemma conversation_status_framed actor i c status w :
  w_conversations w !! i = Some c → cv_workspace c = ws →
  wp (change_conversation_status ws u actor i c status) (λ _, frame w) w.
Proof.
  intros Hi Hc. unfold change_conversation_status, ensure_conversation_mutation_allowed.
  repeat svc_step; try reflexivity.
  all: eapply wp_mono; [apply conversation_fields_framed; [congruence|done]|].
  all: intros [e|[]] w' Hf; wp_beta; [reflexivity|]; repeat svc_step; try exact Hf.
  all: etrans; [exact Hf|]; apply frame_audit; by split.
Qed.

Lemma received_workspace reopens now c :
  cv_workspace (message_received reopens now c) = cv_workspace c.
Proof. unfold message_received. by destruct reopens. Qed.

Lemma create_message_created i c sender direction body member external metadata w :
  desk_ok w → w_conversations w !! i = Some c → cv_workspace c = ws →
  wp (create_message ws i c sender direction body member external metadata) (creates RMessage w) w.
Proof.
  intros Hok Hi Hc. unfold create_message.
  set (row (now : Z) := {| msg_workspace := ws; msg_conversation := i;
    msg_sender_type := sender; msg_sender_membership := fst <$> member;
    msg_direction := direction; msg_body := body; msg_external_id := external;
    msg_metadata := metadata; msg_created_at := now |}).
  assert (Hrow : ∀ now, frame w
    (set_rows (<[w_next w := row now]> (rows {| w with w_next := N.succ (w_next w) |}))
       {| w with w_next := N.succ (w_next w) |})).
  { intros now. etrans; [apply frame_fresh|]. apply frame_message; [done| |].
    - unfold message_at_home. simpl. by rewrite Hi, <-Hc.
    - intros _. by apply fresh_mine, Hok. }
  repeat svc_step; try (by split; [reflexivity|]).
  all: eapply wp_mono; [apply conversation_fields_framed; simpl; [congruence|apply received_workspace]|].
  all: intros [e|[]] w' Hf; wp_beta; repeat svc_step; [by split; [reflexivity|]|].
  all: specialize (Hrow (w_now w)); split; [by etrans|].
  all: destruct (kp_old _ _ _ _ (dt_messages _ _ _ (df_kept _ _ _ _ Hf (df_ok _ _ _ _ Hrow Hok))) (w_next w)
    (row (w_now w))) as (r' & Hr' & E & _); [by simpl; rewrite lookup_insert_eq|].
  all: simpl; rewrite Hr'; simpl; by rewrite E.
Qed.

(** ** Tickets and handoffs *)

Lemma save_ticket_framed i old r w :
  w_tickets w !! i = Some old → tk_workspace old = ws → tk_workspace r = ws →
  wp (save_ticket i r) (λ _, frame w) w.
Proof.
  intros Hi Ho Hr. unfold save_ticket. repeat svc_step; [reflexivity|].
  apply frame_ticket; [done|]. intros Hok. by eapply mine_of_row; [apply Hok|..].
Qed.

Lemma ticket_fields_framed i f w :
  (∀ t, w_tickets w !! i = Some t → tk_workspace t = ws) →
  (∀ t, tk_workspace (f t) = tk_workspace t) → wp (save_fields i f) (λ _, frame w) w.
Proof.
  intros Ht Hf. apply wp_save_fields. destruct (rows w !! i) as [t|] eqn:Hi; [|reflexivity].
  apply frame_ticket; [by rewrite Hf, (Ht t Hi)|].
  intros Hok. apply (mine_of_row _ _ _ _ t); [apply Hok|done|by apply Ht].
Qed.

Lemma create_ticket_created cid c subject description priority conversation due metadata w :
  desk_ok w →
  wp (create_ticket ws cid c subject description priority conversation due metadata)
    (creates RTicket w) w.
Proof.
  intros Hok. unfold create_ticket, save_ticket. repeat svc_step; try (by split; [reflexivity|]).
  all: split; [|by simpl; rewrite lookup_insert_eq].
  all: etrans; [apply frame_fresh|]; apply frame_ticket; [done|]; intros _; by apply fresh_mine, Hok.
Qed.

Lemma update_ticket_framed i t actor data w :
  w_tickets w !! i = Some t → tk_workspace t = ws →
  wp (update_ticket i t actor data) (λ _, frame w) w.
Proof.
  intros Hi Ht. unfold update_ticket, ensure_ticket_mutation_allowed. repeat svc_step; try reflexivity.
  all: eapply wp_mono; [by apply (save_ticket_framed i t)|].
  all: intros [e|[]] w' Hf; wp_beta; [reflexivity|exact Hf].
Qed.

Lemma assign_ticket_framed actor i t target w :
  w_tickets w !! i = Some t → tk_workspace t = ws →
  wp (assign_ticket ws u actor i t target) (λ _, frame w) w.
Proof.
  intros Hi Ht. unfold assign_ticket. repeat svc_step; try reflexivity.
  all: eapply wp_mono; [apply ticket_fields_framed; [congruence|done]|].
  all: intros [e|[]] w' Hf; wp_beta; [reflexivity|]; repeat svc_step.
  all: etrans; [exact Hf|]; apply frame_audit; by split.
Qed.

Lemma unassign_ticket_framed actor i t w :
  w_tickets w !! i = Some t → tk_workspace t = ws →
  wp (unassign_ticket ws u actor i) (λ _, frame w) w.
Proof.
  intros Hi Ht. unfold unassign_ticket. repeat svc_step; try reflexivity.
  eapply wp_mono; [apply ticket_fields_framed; [congruence|done]|].
  intros [e|[]] w' Hf; wp_beta; [reflexivity|]; repeat svc_step.
  etrans; [exact Hf|]; apply frame_audit; by split.
Qed.

Lemma ticket_status_framed actor i t status w :
  w_tickets w !! i = Some t → tk_workspace t = ws →
  wp (change_ticket_status ws u actor i t status) (λ _, frame w) w.
Proof.
  intros Hi Ht. unfold change_ticket_status, ensure_ticket_mutation_allowed.
  repeat svc_step; try reflexivity.
  all: eapply wp_mono; [apply ticket_fields_framed; [congruence|done]|].
  all: intros [e|[]] w' Hf; wp_beta; [reflexivity|]; repeat svc_step.
  all: etrans; [exact Hf|]; apply frame_audit; by split.
Qed.

Lemma assign_handoff_framed actor i h target w :
  w_handoffs w !! i = Some h → ho_workspace h = ws →
  wp (assign_handoff ws u actor i target) (λ _, frame w) w.
Proof.
  intros Hi Hh. unfold assign_handoff. repeat svc_step; try reflexivity.
  apply wp_save_unique. destruct (clashes _ _ _ _); wp_beta; repeat svc_step; [reflexivity|].
  assert (h0 = h) as -> by (unfold rows in *; simpl in *; congruence).
  etrans; [|apply frame_audit; by split]. apply frame_handoff; [done|].
  intros Hok. by eapply mine_of_row; [apply Hok|..].
Qed.

Lemma resolve_handoff_framed actor i h w :
  w_handoffs w !! i = Some h → ho_workspace h = ws →
  wp (resolve_handoff ws u actor i) (λ _, frame w) w.
Proof.
  intros Hi Hh. unfold resolve_handoff. repeat svc_step; try reflexivity.
  assert (h0 = h) as -> by (unfold rows in *; simpl in *; congruence).
  etrans; [|apply frame_audit; by split]. apply frame_handoff; [done|].
  intros Hok. by eapply mine_of_row; [apply Hok|..].
Qed.

(** ** Views *)

(** The request stays in the workspace: what it changes, and what it answers with. *)
Definition stays (w : World) (r : exn + Response) (w' : World) : Prop :=
  frame w w' ∧ match r with inr resp => answers_from ws w' (rs_payload resp) | inl _ => True end.

Lemma stays_refused w e : stays w (inl e) w.
Proof. by split. Qed.

Definition desk_resource (r : Resource) : bool :=
  match r with
  | RWorkspace | RMembership | RCustomer | RConversation | RMessage | RTicket | RHandoff => true
  | _ => false
  end.

Lemma kept_home {A} (proj : N → A → N) (m m' : gmap N A) i :
  kept proj ws m m' → proj i <$> m !! i = Some ws → proj i <$> m' !! i = Some ws.
Proof.
  intros Hk. destruct (m !! i) as [x|] eqn:Hi; [|done]. simpl. intros [= Hx].
  destruct (kp_old _ _ _ _ Hk i x Hi) as (x' & -> & E & _). simpl. congruence.
Qed.

(** Objects of the desk stay where they are. *)
Lemma tenant_kept r i w w' :
  desk_resource r = true → desk_kept ws w w' → tenant w r i = Some ws → tenant w' r i = Some ws.
Proof.
  intros Hr [K1 K2 K3 K4 K5 K6 K7]. destruct r; try done; simpl;
    first [exact (kept_home _ _ _ i K1)|exact (kept_home _ _ _ i K2)|exact (kept_home _ _ _ i K3)
      |exact (kept_home _ _ _ i K4)|exact (kept_home _ _ _ i K5)|exact (kept_home _ _ _ i K6)
      |exact (kept_home _ _ _ i K7)].
Qed.

Lemma wp_get_or_404 {A} `{Table A} i (P : A → bool) (Q : exn + (N * A) → World → Prop) w :
  Q (inl Http404) w → (∀ r, rows w !! i = Some r → P r = true → Q (inr (i, r)) w) →
  wp (get_or_404 i P) Q w.
Proof.
  intros He Hr. unfold wp. rewrite get_or_404_run. destruct (rows w !! i) as [r|]; [|exact He].
  destruct (P r) eqn:HP; [by apply Hr|exact He].
Qed.

(** A view that acts on an object and shows it. *)
Lemma act_view {A} (m : service A) r i w :
  desk_ok w → desk_resource r = true → tenant w r i = Some ws → wp m (λ _, frame w) w →
  wp (m;; ok (One r i)) (stays w) w.
Proof.
  intros Hok Hr Ht Hm. apply (wp_then _ _ _ _ _ Hm); [by intros e w' Hf; split|].
  intros a w' Hf. unfold ok. repeat svc_step. split; [exact Hf|]. right.
  exact (tenant_kept r i w w' Hr (df_kept _ _ _ _ Hf Hok) Ht).
Qed.

Lemma create_view (m : service N) r w :
  wp m (creates r w) w → wp (x ← m; created (One r x)) (stays w) w.
Proof.
  intros Hm. apply (wp_then _ _ _ _ _ Hm); [by intros e w' [Hf _]; split|].
  intros i w' [Hf Hi]. unfold created. repeat svc_step. split; [exact Hf|]. by right.
Qed.

Lemma list_view {A} (l : World → list (N * A)) r w :
  (∀ x, x ∈ l w → tenant w r x.1 = Some ws) →
  wp (rows ← gets l; ok (Many r (keys rows))) (stays w) w.
Proof.
  intros Hl. unfold ok. repeat svc_step. split; [reflexivity|]. right.
  intros i (x & -> & Hx)%list_elem_of_fmap. by apply Hl.
Qed.

Lemma in_newest_first {A} `{Table A} (P : A → bool) w x :
  x ∈ newest_first P w → rows w !! x.1 = Some x.2 ∧ P x.2 = true.
Proof.
  unfold newest_first. intros Hx. destruct x as [i r].
  apply (in_select_rows (λ _ r, P r)). apply list_elem_of_In, in_rev. by apply list_elem_of_In.
Qed.
Lemma in_merge_sort {A} (R : A → A → Prop) `{∀ x y, Decision (R x y)} l x :
  x ∈ merge_sort R l → x ∈ l.
Proof. by rewrite merge_sort_Permutation. Qed.

Section Views.
Context `{KeyLib} (scope : Scope) (w : World).
Hypothesis Hscope : scope_ok w ws (Some u) scope.
Hypothesis Hok : desk_ok w.

Lemma scope_workspace : sc_workspace scope = ws. Proof. apply Hscope. Qed.
Lemma scope_user : sc_user scope = u.
Proof. pose proof (so_user _ _ _ _ Hscope) as [= ->]. done. Qed.

Lemma wp_validated {A B} (data : option A) (k : A → service B) (Q : exn + B → World → Prop) :
  Q (inl (ValidationError "body")) w → (∀ d, wp (k d) Q w) → wp (d ← validated data; k d) Q w.
Proof. intros He Hk. unfold validated. destruct data; repeat svc_step; [apply Hk|exact He]. Qed.

Lemma wp_look {A B} `{Table A} i (P : A → bool) (k : N * A → service B)
    (Q : exn + B → World → Prop) :
  Q (inl Http404) w → (∀ r, rows w !! i = Some r → P r = true → wp (k (i, r)) Q w) →
  wp (r ← get_or_404 i P; k r) Q w.
Proof. intros He Hk. apply wp_bind, wp_get_or_404; [exact He|]. intros r Hr HP. wp_beta. by apply Hk. Qed.

(** A row [get_or_404] finds in the workspace. *)
Lemma found {A} (proj : A → N) (P : A → bool) (m : gmap N A) i r :
  (∀ x, P x = bool_decide (proj x = ws)) → m !! i = Some r → P r = true →
  proj r = ws ∧ proj <$> m !! i = Some ws.
Proof. intros HP Hi Hr. rewrite HP in Hr. apply bool_decide_eq_true in Hr. rewrite Hi. simpl. by rewrite Hr. Qed.

(** The member a request acts for. *)
Lemma wp_membership {A} (k : Actor → service A) (Q : exn + A → World → Prop) :
  Q (inl AttributeError) w →
  (∀ a, w_memberships w !! a.1 = Some a.2 → mb_workspace a.2 = ws → wp (k a) Q w) →
  wp (a ← membership_of_scope scope; k a) Q w.
Proof.
  intros He Ha. unfold membership_of_scope. destruct (sc_membership scope) as [a|] eqn:Hm; repeat svc_step; [|done].
  destruct (so_member _ _ _ _ Hscope a Hm) as [Hin Hact]. apply Ha; [done|].
  unfold active_member, membership_of in Hact.
  destruct (bool_decide (mb_workspace a.2 = ws)) eqn:E; [by apply bool_decide_eq_true in E|done].
Qed.

#[local] Ltac refuse := apply stays_refused.
#[local] Ltac home := simpl; unfold rows in *; simpl in *; by apply (found _ _ _ _ _ (λ _, eq_refl)).
(** The object of the path, the document and the caller. *)
#[local] Ltac look row Hrow :=
  let Hmine := fresh "Hmine" in
  apply wp_look; [refuse|]; intros row Hrow Hmine;
  eapply (found _ _ _ _ _ (λ _, eq_refl) Hrow) in Hmine as [Hmine ?Hhome]; simpl in Hrow.
#[local] Ltac doc d := apply wp_validated; [refuse|]; intros d.
#[local] Ltac caller actor := apply wp_membership; [refuse|]; intros actor ?Hactor ?Hws.
#[local] Ltac show := unfold ok; repeat svc_step; split; [reflexivity|by right].

Lemma member_views r :
  match r with
  | WorkspaceGet | WorkspacePatch _ | MemberList | MemberCreate _ | MemberGet _ | MemberPatch _ _
  | MemberDelete _ | OwnershipTransfer _ => True
  | _ => False
  end → wp (desk_view normalize_email r scope) (stays w) w.
Proof.
  assert (Hme : tenant w RWorkspace ws = Some ws).
  { simpl. by destruct (so_exists _ _ _ _ Hscope) as [? ->]. }
  destruct r; try done; intros _; simpl;
    unfold workspace_detail, workspace_patch, member_list, member_create, member_detail,
      member_patch, member_delete, ownership_transfer, get_workspace_member_or_404;
    rewrite ?scope_workspace, ?scope_user.
  - show.
  - doc name. apply act_view; [done..|]. apply update_workspace_framed, Hscope.
  - apply list_view. intros x [Hx Hp]%in_newest_first. apply andb_true_iff in Hp as [Hp _].
    by apply (found _ _ _ _ _ (λ _, eq_refl) Hx).
  - doc d. caller actor. apply create_view. by apply add_member_created.
  - look m Hm. show.
  - look m Hm. doc d. caller actor. apply act_view; [done..|]. by apply change_role_framed.
  - look m Hm. caller actor. eapply wp_then; [by apply remove_member_framed|..].
    + intros e w' Hf. by split.
    + intros [] w' Hf. unfold no_content. by repeat svc_step.
  - doc d. look m Hm. caller actor. apply act_view; [done..|]. by apply transfer_framed.
Qed.

Lemma wp_target {B} target (k : Actor → service B) (Q : exn + B → World → Prop) :
  (∀ e, Q (inl e) w) → (∀ a, wp (k a) Q w) →
  wp (a ← target_member target scope; k a) Q w.
Proof.
  intros He Hk. unfold target_member, get_workspace_member_or_404. destruct target as [i|].
  - by apply wp_look.
  - by apply wp_membership.
Qed.

(** The filters of a list read the request only. *)
Lemma wp_filter {B} value param (k : option N → service B) (Q : exn + B → World → Prop) :
  (∀ e, Q (inl e) w) → (∀ i, wp (k i) Q w) → wp (i ← parse_uuid_filter value param; k i) Q w.
Proof. intros He Hk. unfold parse_uuid_filter. repeat svc_step; by first [apply Hk|apply He]. Qed.
Lemma wp_raw_filter {B} value (k : option N → service B) (Q : exn + B → World → Prop) :
  (∀ e, Q (inl e) w) → (∀ i, wp (k i) Q w) → wp (i ← raw_key_filter value; k i) Q w.
Proof. intros He Hk. unfold raw_key_filter. repeat svc_step; by first [apply Hk|apply He]. Qed.

#[local] Ltac refused := intros ?; apply stays_refused.
(** A list whose filter starts with the workspace. *)
#[local] Ltac listing :=
  apply list_view; intros x Hx; try apply in_merge_sort in Hx;
  apply in_newest_first in Hx as [Hx Hp]; repeat (apply andb_true_iff in Hp as [Hp _]);
  by apply (found _ _ _ _ _ (λ _, eq_refl) Hx).

Lemma customer_views r :
  match r with
  | CustomerList _ _ | CustomerCreate _ | CustomerGet _ | CustomerPatch _ _ => True
  | _ => False
  end → wp (desk_view normalize_email r scope) (stays w) w.
Proof.
  destruct r; try done; intros _; simpl;
    unfold customer_list, customer_create, customer_detail, customer_patch,
      customer_get_for_workspace_or_404; rewrite ?scope_workspace, ?scope_user.
  - listing.
  - doc d. apply create_view. by apply create_customer_created.
  - look c Hc. show.
  - look c Hc. doc d. apply act_view; [done..|]. by apply update_customer_framed.
Qed.

Lemma conversation_views r :
  match r with
  | ConversationList _ | ConversationCreate _ | ConversationGet _ | ConversationAssign _ _
  | ConversationStatusPost _ _ | ConversationClose _ | ConversationReopen _ | MessageList _
  | MessageCreate _ _ => True
  | _ => False
  end → wp (desk_view normalize_email r scope) (stays w) w.
Proof.
  destruct r; try done; intros _; simpl;
    unfold conversation_list, conversation_create, conversation_detail, conversation_assign,
      conversation_status, conversation_close, conversation_reopen, message_list, message_create,
      close_conversation, reopen_conversation,
      customer_get_for_workspace_or_404, conversation_get_for_workspace_or_404;
    rewrite ?scope_workspace, ?scope_user.
  - do 2 (apply wp_filter; [refused|intros ?]). listing.
  - doc d. look c Hc. apply create_view. by apply create_conversation_created.
  - look c Hc. show.
  - look c Hc. doc d. apply wp_target; [refused|intros target]. caller actor.
    apply act_view; [done..|]. by apply assign_conversation_framed.
  - look c Hc. doc d. caller actor. apply act_view; [done..|]. by apply conversation_status_framed.
  - look c Hc. caller actor. apply act_view; [done..|]. by apply conversation_status_framed.
  - look c Hc. caller actor. apply act_view; [done..|]. by apply conversation_status_framed.
  - look c Hc. apply list_view. intros x Hx.
    apply in_merge_sort in Hx. destruct x as [i m].
    apply in_select_rows in Hx as [Hx Hp]. apply bool_decide_eq_true in Hp. unfold rows in Hx. simpl in *.
    pose proof (dk_home _ Hok _ _ Hx) as Hh. unfold message_at_home in Hh.
    rewrite Hp, Hhome in Hh. rewrite Hx. simpl. congruence.
  - look c Hc. doc d. caller actor. apply create_view.
    unfold create_outbound_message, create_internal_message.
    destruct (mc_outbound d).
    all: apply create_message_created; [exact Hok|exact Hc|exact Hmine].
Qed.

Lemma ticket_views r :
  match r with
  | TicketList _ | TicketCreate _ | TicketGet _ | TicketPatch _ _ | TicketAssign _ _
  | TicketUnassign _ | TicketStatusPost _ _ | TicketResolve _ | TicketReopen _ => True
  | _ => False
  end → wp (desk_view normalize_email r scope) (stays w) w.
Proof.
  destruct r; try done; intros _; simpl;
    unfold ticket_list, ticket_create, ticket_detail, ticket_patch, ticket_assign, ticket_unassign,
      ticket_status, ticket_resolve, ticket_reopen, resolve_ticket, reopen_ticket,
      customer_get_for_workspace_or_404, conversation_get_for_workspace_or_404,
      ticket_get_for_workspace_or_404; rewrite ?scope_workspace, ?scope_user.
  - do 3 (apply wp_filter; [refused|intros ?]). listing.
  - doc d. look c Hc. destruct (tc_conversation_id d) as [i|].
    + apply wp_bind, wp_look; [refuse|]. intros v Hv _. apply wp_ret. wp_beta.
      apply create_view. by apply create_ticket_created.
    + apply wp_bind, wp_ret. wp_beta. apply create_view. by apply create_ticket_created.
  - look t Ht. show.
  - look t Ht. doc d. caller actor. apply act_view; [done..|]. by apply update_ticket_framed.
  - look t Ht. doc d. apply wp_target; [refused|intros target]. caller actor.
    apply act_view; [done..|]. by apply assign_ticket_framed.
  - look t Ht. caller actor. apply act_view; [done..|]. by apply (unassign_ticket_framed _ _ t).
  - look t Ht. doc d. caller actor. apply act_view; [done..|]. by apply ticket_status_framed.
  - look t Ht. caller actor. apply act_view; [done..|]. by apply ticket_status_framed.
  - look t Ht. caller actor. apply act_view; [done..|]. by apply ticket_status_framed.
Qed.

Lemma handoff_views r :
  match r with
  | HandoffList _ _ | HandoffGet _ | HandoffAssign _ _ | HandoffResolve _ => True
  | _ => False
  end → wp (desk_view normalize_email r scope) (stays w) w.
Proof.
  destruct r; try done; intros _; simpl;
    unfold handoff_list, handoff_detail, handoff_assign, handoff_resolve,
      handoff_get_for_workspace_or_404; rewrite ?scope_workspace, ?scope_user.
  - apply wp_raw_filter; [refused|intros ?]. listing.
  - look h Hh. show.
  - look h Hh. doc d. apply wp_target; [refused|intros target]. caller actor.
    apply act_view; [done..|]. by apply (assign_handoff_framed _ _ h).
  - look h Hh. caller actor. apply act_view; [done..|]. by apply (resolve_handoff_framed _ _ h).
Qed.

Lemma desk_view_stays r : wp (desk_view normalize_email r scope) (stays w) w.
Proof.
  destruct r; first [by apply member_views|by apply customer_views|by apply conversation_views
    |by apply ticket_views|by apply handoff_views].
Qed.
End Views.
End Services.

(** ** The desk *)

Section DeskSafety.
Context `{Settings} `{PyLib} `{Network} `{KeyLib}.
Context (normalize_email : string → string).

(** C9. A request to the desk of a workspace writes the desk's tables only, changes no row
    of another workspace and adds none, moves no row, audits under this workspace and the
    caller, leaves the database in order, and answers with objects of the workspace. *)
Theorem desk_stays_in_workspace r user workspace w :
  desk_ok w →
  let (response, w') := desk normalize_email r (Some user) workspace w in
  desk_frame workspace user w w' ∧ desk_ok w' ∧ desk_kept workspace w w' ∧
  answers_from workspace w' (rs_payload response).
Proof.
  intros Hok.
  assert (Hs : wp (scoped (desk_permissions r) (Some user) workspace (desk_view normalize_email r))
    (stays workspace user w) w).
  { apply wp_scoped; [apply stays_refused..|]. intros scope Hscope _. by apply desk_view_stays. }
  unfold desk, handle. unfold wp in Hs. destruct (scoped _ _ _ _ w) as [[e|resp] w'];
    destruct Hs as [Hf Ha]; (split_and!; [exact Hf|by eapply df_ok|by eapply df_kept|]); [exact I|exact Ha].
Qed.
End DeskSafety.

(** The owner of Acme removes the administrator. *)
Module DeskExamples.
#[local] Existing Instance default_settings.
#[local] Existing Instance trivial_pylib.
#[local] Existing Instance ToolExamples.net.
#[local] Existing Instance ApiExamples.keylib.

Lemma acme_ok : desk_ok ApiExamples.acme.
Proof.
  split; try (by intros i [? Hi]; simpl in Hi; rewrite lookup_empty in Hi);
    try (by intros i ? Hi; simpl in Hi; rewrite lookup_empty in Hi).
  - intros i [x Hi]. simpl in Hi. apply lookup_singleton_Some in Hi as [<- _]. done.
  - intros i [m Hi]. simpl in Hi. apply lookup_insert_Some in Hi as [[<- _]|[_ Hi]]; [done|].
    apply lookup_insert_Some in Hi as [[<- _]|[_ Hi]]; [done|].
    apply lookup_insert_Some in Hi as [[<- _]|[_ Hi]]; [done|].
    by apply lookup_singleton_Some in Hi as [<- _].
Qed.

Definition removed : Response * World := desk id (MemberDelete 3) (Some 10%N) 1 ApiExamples.acme.
Example admin_removed :
  rs_status removed.1 = 204%N ∧ mb_is_active <$> w_memberships removed.2 !! 3%N = Some false.
Proof. by vm_compute. Qed.

Lemma desk_stays_in_workspace_witness :
  desk_frame 1 10 ApiExamples.acme removed.2 ∧ desk_ok removed.2.
Proof.
  pose proof (desk_stays_in_workspace id (MemberDelete 3) 10 1 ApiExamples.acme acme_ok) as Hs.
  unfold removed. destruct (desk _ _ _ _ _) as [r w']. destruct Hs as (Hf & Hok & _).
  exact (conj Hf Hok).
Defined.
End DeskExamples.
