(* ===== verification/ApiAnswers.v ===== *)
(** * What the reading views show

    The views of [ApiAgents] and [ApiServices] that read: they change nothing, and every
    object of an answer belongs to the workspace of the path.  (Those of the desk are in
    [DeskSafety].) *)

From stdpp Require Import base gmap strings list pretty sorting relations.
From Stdlib Require Import ZArith Ascii String Lia.
From S2P Require Import Prelude Json Domain Policy Models Store PolicyAdmin Delivery Network Webhooks Approvals ToolExec Graph Workspaces Conversations Tickets Schemas Adapters Integrations IntegrationTools AgentRuns AgentSafety AgentOutcomes Chunking Knowledge KnowledgeSafety AgentContext Scoring Evaluations EvaluationSafety Ingress Channels ToolSafety ToolCatalog Http ApiDesk ApiAgents ApiServices ApiSafety DeskSafety.

Section Answers.
Context `{Settings} `{PyLib} `{Network} `{Encoding} `{TextEncoding} `{Providers} `{KeyLib}.
Context `{Pydantic} `{Vendors} `{Documents} `{VectorDatabase} `{TokenDigest} `{EvaluationSchemas}.
Context (normalize_email : string → string).
Context (ws : N) (w : World).

(** The world is as it was, and what is shown is the workspace's. *)
Definition shows (r : exn + Response) (w' : World) : Prop :=
  w' = w ∧ match r with inr resp => answers_from ws w (rs_payload resp) | inl _ => True end.

Lemma shows_refused e : shows (inl e) w.
Proof. done. Qed.

Lemma shows_one r i : tenant w r i = Some ws → wp (ok (One r i)) shows w.
Proof. intros Ht. apply wp_ret. split; [done|by right]. Qed.

Lemma shows_many {A} (l : World → list (N * A)) r :
  (∀ x, x ∈ l w → tenant w r x.1 = Some ws) →
  wp (rows ← gets l; ok (Many r (keys rows))) shows w.
Proof.
  intros Hl. unfold ok. repeat svc_step. split; [done|]. right.
  intros i (x & -> & Hx)%list_elem_of_fmap. by apply Hl.
Qed.

(** The definition of a version and the policy of a rule lead to the workspace. *)
Lemma version_home i v :
  w_policy_versions w !! i = Some v → policy_tenant w (pv_policy v) = Some ws →
  version_tenant w i = Some ws.
Proof. intros Hi Hv. unfold version_tenant. rewrite Hi. exact Hv. Qed.

(** The requests of these views that only read: all that are not writes, searches or
    comparisons, which are recorded. *)
Definition agents_only_reads (r : agents_request) : bool :=
  match r with
  | AgentList _ | AgentGet _ | VersionList _ | RunList _ _ | RunGet _ | RunSteps _ | CatalogList
  | BindingList _ _ | ExecutionList _ _ | ExecutionGet _ | PolicyList | PolicyGet _
  | PolicyVersionList _ | PolicyVersionGet _ _ | RuleList _ _ | ApprovalList _ _ _
  | ApprovalGet _ => true
  | _ => false
  end.
Definition services_only_reads (r : services_request) : bool :=
  match r with
  | WebhookList | WebhookGet _ | WebhookDeliveryList | WebhookDeliveryGet _ | ConnectionList
  | ConnectionGet _ | SourceList _ _ | SourceGet _ | DocumentList _ _ | DocumentGet _ | JobGet _
  | DatasetList _ | DatasetGet _ | CaseList _ _ | CaseGet _ _ | EvaluationRunList _ _
  | EvaluationRunGet _ | ResultList _ _ _ | ResultGet _ _ | ChannelList | ChannelGet _
  | InboundEventList | InboundEventGet _ | RetrievalGet _ => true
  | _ => false
  end.
Definition only_reads (r : api_request) : bool :=
  match r with
  | DeskRequest _ => false
  | AgentsRequest r => agents_only_reads r
  | ServicesRequest r => services_only_reads r
  end.

#[local] Ltac bools :=
  repeat match goal with
    | Hp : _ && _ = true |- _ => apply andb_true_iff in Hp as [? ?]
    | Hp : bool_decide _ = true |- _ => apply bool_decide_eq_true in Hp
    end.
#[local] Ltac home :=
  simpl in *; unfold definition_in, version_in, run_in, execution_in, binding_in, policy_in,
    policy_version_in, approval_in, PolicyAdmin.version_of, rule_in, policy_tenant, endpoint_in,
    webhook_delivery_in, connection_in, source_in, document_in, job_in, dataset_in, case_in,
    evaluation_run_in, result_in, channel_in, event_in, rows in *;
  simpl in *; bools;
  repeat match goal with Hi : _ !! ?i = Some _ |- context [_ !! ?i] => rewrite Hi; simpl end;
  congruence.
#[local] Ltac look := apply (wp_look w); [apply shows_refused|]; intros ?row ?Hrow ?Hmine.
#[local] Ltac listed :=
  apply shows_many; intros [?i ?x] Hx;
  first [apply in_newest_first in Hx as [Hx Hp]|apply in_select_rows in Hx as [Hx Hp]
    |apply in_merge_sort, in_select_rows in Hx as [Hx Hp]]; home.

Lemma agents_shows r scope :
  sc_workspace scope = ws → agents_only_reads r = true → wp (agents_view r scope) shows w.
Proof.
  intros Hws Hr. destruct r; try done; simpl;
    unfold agent_list, agent_detail, version_list, run_list, run_detail, run_steps,
      tool_catalog_list, binding_list, execution_list, execution_detail, policy_list,
      policy_detail, policy_version_list, policy_version_detail, rule_list, approval_list,
      approval_detail, workspace_policy, workspace_policy_version,
      agent_definition_get_for_workspace_or_404, agent_version_get_for_workspace_or_404,
      agent_run_get_for_workspace_or_404, tool_execution_get_for_workspace_or_404; rewrite ?Hws.
  - listed.
  - look. apply shows_one. home.
  - look. listed.
  - apply wp_filter; [apply shows_refused|intros ?]. listed.
  - look. apply shows_one. home.
  - look. unfold ok. repeat svc_step. split; [done|]. home.
  - unfold ok. repeat svc_step. split; [done|]. by left.
  - look. listed.
  - apply wp_filter; [apply shows_refused|intros ?]. listed.
  - look. apply shows_one. home.
  - listed.
  - look. apply shows_one. home.
  - look. apply wp_bind, wp_gets. wp_beta. unfold ok. apply wp_ret. split; [done|]. right.
    intros i ([j x] & -> & Hx%in_merge_sort)%list_elem_of_fmap.
    apply in_select_rows in Hx as [Hx Hp]. simpl. apply (version_home _ x Hx).
    apply bool_decide_eq_true in Hp. rewrite Hp. home.
  - apply wp_bind, wp_bind, wp_gets. wp_beta. apply wp_get_or_404; [apply shows_refused|].
    intros v Hv Hp. wp_beta. apply shows_one. apply (version_home _ v Hv). home.
  - apply wp_bind, wp_bind, wp_gets. wp_beta. apply wp_get_or_404; [apply shows_refused|].
    intros v Hv Hp. wp_beta. apply wp_bind, wp_gets. wp_beta. unfold ok. apply wp_ret.
    split; [done|]. right. intros i ([j x] & -> & Hx%in_merge_sort)%list_elem_of_fmap.
    apply in_select_rows in Hx as [Hx Hr']. unfold rule_in in Hr'. apply bool_decide_eq_true in Hr'.
    simpl. unfold rows in Hx. simpl in Hx. rewrite Hx. simpl. rewrite Hr'.
    apply (version_home _ v Hv). home.
  - listed.
  - look. apply shows_one. home.
Qed.

(** A row of a parent, found in the workspace of the parent. *)
Lemma wp_child {A} `{Table A} i (P : World → A → bool) r :
  (∀ a, rows w !! i = Some a → P w a = true → tenant w r i = Some ws) →
  wp (x ← (belongs ← gets P; get_or_404 i belongs); ok (One r x.1)) shows w.
Proof.
  intros Ha. apply wp_bind, wp_bind, wp_gets. wp_beta.
  apply wp_get_or_404; [apply shows_refused|]. intros a Hi HP. wp_beta. apply shows_one. by eapply Ha.
Qed.

(** A recorded search names the chunks its hits quote. *)
Lemma retrieval_shows event_id scope :
  knowledge_wf w → sc_workspace scope = ws → wp (retrieval_detail event_id scope) shows w.
Proof.
  intros Hwf Hws. unfold retrieval_detail, retrieval_in. rewrite Hws.
  apply wp_bind, wp_get_or_404; [apply shows_refused|]. intros e He Hmine. wp_beta.
  apply bool_decide_eq_true in Hmine. apply wp_bind, wp_gets. wp_beta. unfold ok.
  apply wp_ret. split; [done|]. intros r i [[= -> ->]|Hin]%elem_of_cons; simpl.
  - unfold rows in He. simpl in He. rewrite He. simpl. by rewrite Hmine.
  - apply list_elem_of_fmap in Hin as ([h hit] & [= -> ->] & Hh). simpl.
    unfold hits_of in Hh. apply in_merge_sort, in_select_rows in Hh as [Hh Hev%bool_decide_eq_true].
    destruct (kw_hits w Hwf h hit Hh) as (_ & _ & (c & Hc & Hcw) & (e' & He' & Hew)).
    rewrite Hev in He'. unfold rows in He. simpl in He. simpl in He'. rewrite Hc. simpl. congruence.
Qed.

Lemma services_shows r scope :
  (∀ i, r = RetrievalGet i → knowledge_wf w) → sc_workspace scope = ws → services_only_reads r = true → wp (services_view r scope) shows w.
Proof.
  intros Hwf Hws Hr. destruct r; try done; try solve [by apply retrieval_shows; [eapply Hwf|]]; simpl;
    unfold webhook_list, webhook_detail, webhook_delivery_list, webhook_delivery_detail,
      connection_list, connection_detail, source_list, source_detail, document_list,
      document_detail, job_detail, dataset_list, dataset_detail, case_list,
      case_detail, evaluation_run_list, evaluation_run_detail, result_list, result_detail,
      channel_list, channel_detail, inbound_event_list, inbound_event_detail,
      endpoint_get_for_workspace, delivery_get_for_workspace,
      connection_get_for_workspace_or_404, source_get_for_workspace_or_404,
      document_get_for_workspace_or_404, dataset_get_for_workspace_or_404,
      case_get_for_workspace_or_404, run_get_for_workspace_or_404,
      result_get_for_workspace_or_404, endpoint_get_for_workspace_or_404; rewrite ?Hws.
  all: try (apply wp_filter; [apply shows_refused|intros ?]).
  all: try solve [look; apply shows_one; home|listed|look; listed
    |look; apply wp_child; intros a Ha HP; home].
Qed.

(** C11. A request that only reads changes nothing, and shows objects of the workspace of its
    path only, whatever keys and filters it names; for the chunks a recorded search quotes
    this needs a knowledge base in order. *)
Theorem readers_see_their_workspace r user :
  (∀ i, r = ServicesRequest (RetrievalGet i) → knowledge_wf w) → only_reads r = true →
  let (response, w') := api normalize_email r user ws w in
  w' = w ∧ answers_from ws w (rs_payload response).
Proof.
  intros Hwf Hr.
  assert (Hs : wp (scoped (api_permissions r) user ws (api_view normalize_email r)) shows w).
  { apply wp_scoped; [apply shows_refused..|]. intros scope Hscope _.
    destruct r as [r|r|r]; [done|apply agents_shows|apply services_shows]; try done; try apply Hscope.
    intros i ->. by eapply Hwf. }
  unfold api, handle. unfold wp in Hs.
  destruct (scoped _ _ _ _ w) as [[e|resp] w']; destruct Hs as [Hw Ha]; by split.
Qed.
End Answers.

(** The owner of Acme lists the policies, of which one is another workspace's. *)
Module AnswerExamples.
#[local] Existing Instance default_settings.
#[local] Existing Instance trivial_pylib.
#[local] Existing Instance ToolExamples.net.
#[local] Existing Instance ToolExamples.encoding.
#[local] Existing Instance GraphExamples.text_encoding.
#[local] Existing Instance AgentExamples.providers.
#[local] Existing Instance ApiExamples.keylib.
#[local] Existing Instance example_pydantic.
#[local] Existing Instance example_vendors.
#[local] Existing Instance KnowledgeExamples.storage.
#[local] Existing Instance KnowledgeExamples.digest.
#[local] Existing Instance KnowledgeExamples.distance.
#[local] Existing Instance EvaluationExamples.schemas.

Definition policy (workspace : N) : PolicyRow :=
  {| pol_workspace := workspace; pol_name := "Refunds"; pol_description := "";
     pol_status := PolicyStatus.DRAFT |}.
Definition two_policies : World :=
  {| ApiExamples.acme with w_policies := {[7%N := policy 1; 8%N := policy 2]} |}.

Definition list_policies : Response * World :=
  api id (AgentsRequest PolicyList) (Some 10%N) 1 two_policies.
Lemma readers_see_their_workspace_witness :
  list_policies.1 =
    {| rs_status := 200; rs_payload := Many RPolicy [7%N] |} ∧
  answers_from 1 two_policies (Many RPolicy [7%N]).
Proof.
  pose proof (readers_see_their_workspace id 1 two_policies (AgentsRequest PolicyList) (Some 10%N)
    ltac:(discriminate) eq_refl) as Hs.
  assert (Hr : list_policies =
    ({| rs_status := 200; rs_payload := Many RPolicy [7%N] |}, two_policies)) by by vm_compute.
  unfold list_policies in Hr. rewrite Hr in Hs. unfold list_policies. rewrite Hr. split; [done|]. exact (proj2 Hs).
Defined.
End AnswerExamples.
